(* ===== verification/_CoqProject ===== *)
-Q . S2P
Prelude.v
RustStr.v
Floats.v
Json.v
Model.v
Policy.v
BTree.v
Graph.v
ConfigTypes.v
ConfigParse.v
CommandFlow.v
PointAddresses.v
DataGraph.v
ConfigValidation.v
CircuitBreaker.v
Scheduler.v
ModbusBatch.v
ModbusCodec.v
SerialBus.v
CustomSerial.v
Dlt645.v
Expression.v
Algorithm.v
FloatFmt.v
KvStore.v
SeqKeys.v
Outbox.v
CommandPlan.v
NetSession.v
ModbusAdapter.v
ModbusRtu.v
ModbusTcp.v
ModbusSimulator.v
Iec101.v
Iec104.v
SiemensS7.v
OmronFins.v
FinsTcp.v
CommandStore.v
RuntimeState.v
Collection.v
CollectionSafety.v
CommandRuntime.v
MqttMessages.v
AgentTools.v
AgentReview.v
CloudStore.v
MqttSession.v
ApiAuth.v
EdgeLink.v
Gateway.v
GatewayDiscovery.v
EdgeClient.v
Rollout.v
