(* ===== verification/Prelude.v ===== *)
(** * A verification of VelaEdge

    VelaEdge collects telemetry from industrial devices, processes it at the
    edge and executes commands that arrive over MQTT; a control plane holds the
    configuration of the edges and rolls it out.  This library models the edge,
    [crates/edge-core] (domain types, configuration, policy, the EdgeLink
    protocol) and [crates/edge-runtime] (adapters, engine, store, command
    execution, uplink, EdgeLink client), and the core of the control plane,
    [crates/cloud-control] (validation, store, agent tools and reviews) and
    [crates/cloud-api] (the EdgeLink gateway, authentication).

    ** The program and its model

    A package ([EdgeConfigPackage]) describes devices, connections, points,
    tasks, algorithms and command flows.  The runtime ([ConfiguredEdgeRuntime])
    has two paths over it.

    - Reading.  The scheduler picks the due tasks; for each connection the
      circuit breaker admits or refuses a request; an adapter reads; values are
      transformed and graded; shadows and metrics are updated; the algorithm
      engine derives further samples.
    - Writing.  A command message selects flows; the planner walks the graph of
      a flow and yields writes, gates and replies; the store admits the command once
      and limits its rate; the writes go through the breaker to an adapter and
      are verified; the report is stored and its replies are queued and published.

    The samples leave the edge as MQTT messages, which the outbox keeps until the
    broker has confirmed them.  Over EdgeLink the gateway deploys the package of a
    pending release to its edge, which checks, stores and applies it and reports the
    outcome.  What the assistant of the control plane proposes is a change set or a
    command candidate, which a human reviews before it is carried out.

    ** Files

    Foundations.
    - [Prelude]: results and panics, the monad [M] of stateful code, machine
      integers, bytes, lists, the tactics and hint databases.
    - [RustStr], [Floats], [FloatFmt], [BTree], [Json]: the standard library and
      [serde_json] as the code uses them.
    - [Graph]: the cycle search of the graph validators.

    [crates/edge-core].
    - [Model]: [model.rs], [observability.rs], [shadow.rs].
    - [Policy]: [policy.rs].
    - [ConfigTypes], [ConfigParse], [PointAddresses]: the data, the address
      grammars and the point and connection validators of [config.rs].
    - [CommandFlow], [DataGraph]: the graph validators of [config.rs].
    - [EdgeLink]: [edgelink.rs], and the reads and writes of
      [edge-runtime/src/edgelink_client.rs].

    [crates/edge-runtime].
    - [CircuitBreaker]: [circuit_breaker.rs].  [Scheduler]: [scheduler.rs].
    - [ModbusBatch], [ModbusCodec]: [modbus_batch.rs], [modbus_codec.rs].
    - [SerialBus], [CustomSerial], [Dlt645]: [serial.rs], [custom_serial.rs],
      [dlt645.rs].
    - [ModbusAdapter], [ModbusRtu], [ModbusTcp], [ModbusSimulator]:
      [modbus_rtu.rs] and [modbus_tcp.rs].
    - [NetSession], [Iec101], [Iec104], [SiemensS7], [OmronFins], [FinsTcp]:
      [iec101.rs], [iec104.rs], [siemens_s7.rs], [omron_fins.rs].
    - [Expression], [Algorithm]: [algorithm.rs].
    - [KvStore], [SeqKeys], [Outbox], [CommandStore]: [local_db.rs], and
      [flush_mqtt_outbox] of [mqtt_uplink.rs].
    - [CommandPlan]: [command.rs].
    - [RuntimeState], [Collection], [CollectionSafety], [CommandRuntime]:
      [configured_runtime.rs].
    - [MqttMessages], [MqttSession]: [mqtt_uplink.rs].
    - [ConfigValidation]: [config.rs], and [cloud-control/src/validation.rs].
    - [EdgeClient]: [edgelink_client.rs] and [metrics.rs].

    [crates/cloud-control] and [crates/cloud-api].
    - [AgentTools], [AgentReview]: [agent_v2.rs].
    - [CloudStore]: [store.rs] and the records it keeps.
    - [Gateway], [GatewayDiscovery]: [gateway.rs].  [ApiAuth]: [auth.rs].
    - [Rollout]: gateway and client together, over one connection.

    Definitions have the names of the source where Rocq allows it; a loop of a
    function is a [Fixpoint] next to it; the fields of a record carry a prefix.

    ** What the theorems show

    - Commands.  [Policy]: what the gate accepts is a declared command
      with its confirmation and its parameters in range, and a refusal names a
      requirement that is not met.  [CommandFlow]: the validator accepts exactly
      the well-formed acyclic graphs, and every node of an accepted flow is fed
      by an input.  [CommandPlan]: planning ends, selects the writes that the graph reaches
      and the configuration permits, and passes a confirming gate only with a fresh
      confirmation by a human operator.  [CommandStore]: a command
      starts once, a completed one is replayed, the rate limit holds over any sequence of
      calls, a promoted configuration is the active one.  [CommandRuntime]:
      a report accounts for the calls of the adapters and their answers, and a command
      acts on the runtime at most once over redeliveries.
    - Uplink.  [Outbox]: the methods refine a queue whatever the database answers;
      no message is lost; a flush delivers in order and has removed, wherever it
      stops, exactly what was accepted before.  [MqttMessages]: an output of a graph publishes exactly what feeds
      it, a message carries the latest samples, command topics are matched by the
      rules of MQTT.  [MqttSession]: when a publish succeeds, when a session counts
      as connected, and that the sessions are those of the last configuration that
      succeeded.
    - Collection.  [CircuitBreaker] refines a three-state machine; [Scheduler]:
      an entry is due when its period has elapsed; [Collection]: a sample collected as good is
      good, accepted transforms never panic and yield a number of the point's type or
      mark the sample bad, an open circuit keeps the runtime off the wire;
      [CollectionSafety]: the resilient run attempts every due task in order, whatever
      the others do, and panics on no answer of an adapter.
    - Configuration.  [ConfigValidation]: an applied package is closed under the
      references the edge follows, down to the nodes of its graphs, and a package without an issue in the control plane is applied,
      under the conditions the control plane does not check.  [PointAddresses]: an
      accepted FINS point lies in its area, and accepted S7 addresses have a
      canonical text.
    - Protocols.  [ModbusBatch]: batched reads of the stations on a bus
      equal direct reads.
      [ModbusSimulator]: a TCP read returns the memory of the simulator, and a
      batch of writes has the effect of the single ones.  [Iec101], [Iec104]: a
      control command is operated only after it was selected and confirmed by the
      station, for the same object.
      [SiemensS7], [OmronFins], [FinsTcp]: reads and writes against the memory of
      a controller, and that an answer belongs to its request.
      [ModbusCodec], [CustomSerial], [ConfigParse]: round trips.  [Dlt645]: what
      a response must be, and that a read accounts for every point.
    - Algorithms.  [Expression]: the evaluator is total and computes the
      meaning of the grammar.  [Algorithm]: the work list drains, a duration
      condition reports each run once, debouncing only stable values, and a derived
      sample carries the worst quality of what it was computed from.
    - Control plane.  [Rollout]: after a deployment the store of the control plane
      and the edge agree on what is active.  [Gateway], [GatewayDiscovery]: a session
      changes the records of its own edge only, in the store and in the database, and
      only after its credential was checked; every discovery request is answered.  [EdgeLink]:
      frames are read as they were written.  [AgentTools], [AgentReview]: what
      mutates needs the confirmations its policy asks for, a change
      set is applied only after a validation and then a confirmation by a person, and a
      command candidate is dispatched at most once.  [ApiAuth]:
      which requests reach a handler, and in which role.

    ** Conventions

    - [Result] has a third outcome, [Panic], for a failing [expect], [assert!],
      index or [clamp]; theorems that speak of safety exclude it.
    - An error is the text of its outermost message, what [to_string] prints.
    - Integers are [Z] with the wrap, saturation or check the code has;
      a [DateTime] and an [Instant] are nanoseconds.
    - A reading of a clock is an argument of the operation that reads it.
    - A method that holds a lock from start to end is one atomic step; the
      interleavings that matter are sequences of such steps ([Outbox.run_calls],
      [CommandStore.run_store_calls]).
    - An [async] function is its sequence of steps: nothing else touches
      [&mut self] while it is suspended.
    - Libraries are parameters: RocksDB ([RocksDb], with [RocksDbLaws]), JSON
      ([JsonCodec], with [JsonRoundTrip] on the records a theorem stores),
      SHA-256, RFC 3339, the transcendental functions of [f64], the MQTT client
      ([MqttPublisher], [MqttClient]), the device behind an adapter ([Adapters]),
      serial ports and sockets ([SerialBus], [TcpStream]), the protocol clients
      ([Iec104Net], [S7Net], [FinsCodec]), the JSON of EdgeLink ([MessageCodec]) and
      the SQLite copy of the store ([CloudDb]).  Each has a concrete instance in
      the examples.

    ** Fuel

    Loops that do not recurse on a structure take fuel, and a theorem shows that
    it is enough: [Expression] (four calls per byte, [evaluate_expression_total]),
    [Algorithm] (the input samples plus the limit on derived ones,
    [apply_samples_terminates]), [Graph] (one turn per node, [topological_count_spec]),
    [CommandPlan] (inputs plus edges, [planning_ends]), [CommandRuntime] (one turn per write,
    [write_loop_safe]), [MqttMessages] (the edges and their square,
    [output_scope_iff]).  The receive loops of [Iec104] and the message loops of
    the gateway take the number of turns that the time limit or the peer allows.

    ** Not modelled

    The BACnet and OPC UA adapters, which are clients of external stacks (their
    addresses are modelled); opening sockets, ports and databases, TLS and accept
    loops; the SQLite copy of the store; the HTTP handlers of the API, the language
    model agent and its knowledge base, which turn requests into calls of the store;
    start-up, health endpoint, acceptance tools, device simulators and the web
    console; serde's derived code.  Weak memory and the operating system's
    scheduling are outside the model. *)

From Stdlib Require Import ZArith Lia.
From Stdlib Require Export Sorted.
From stdpp Require Export base gmap strings list list_numbers numbers pretty option.

#[export] Set Default Goal Selector "!".
#[export] Set Warnings "-clear-no-such-hyp,-register-all".

Open Scope Z_scope.

(** * Results

    [anyhow::Result<T>] (and [Result<T, String>]): an error is identified with
    what [error.to_string()] prints, that is the outermost message.  [Panic] is
    the outcome of an [expect], an [assert!] or an indexing that fails: it is
    not an error value, no [?], [context] or [match] of the caller sees it. *)

Inductive Result (A : Type) : Type :=
| Ok (a : A)
| Err (msg : string)
| Panic (msg : string).
Arguments Ok {A} _.
Arguments Err {A} _.
Arguments Panic {A} _.

#[export] Instance Result_ret : MRet Result := fun A a => Ok a.

#[export] Instance Result_bind : MBind Result := fun A B f m =>
  match m with
  | Ok a => f a
  | Err e => Err e
  | Panic e => Panic e
  end.

#[export] Instance Result_fmap : FMap Result := fun A B f m =>
  match m with
  | Ok a => Ok (f a)
  | Err e => Err e
  | Panic e => Panic e
  end.

(** [bail!("...")]. *)
Abbreviation bail msg := (Err msg%string).

(** [opt.ok_or_else(|| ...)] and [opt.context(...)] on an [Option]. *)
Definition ok_or {A} (o : option A) (msg : string) : Result A :=
  match o with
  | Some a => Ok a
  | None => Err msg
  end.

(** [result.context(msg)]: the printed message becomes [msg]. *)
Definition with_context {A} (r : Result A) (msg : string) : Result A :=
  match r with
  | Ok a => Ok a
  | Err _ => Err msg
  | Panic e => Panic e
  end.

(** [opt.expect(msg)]. *)
Definition expect {A} (o : option A) (msg : string) : Result A :=
  match o with
  | Some a => Ok a
  | None => Panic msg
  end.

(** [if cond { bail!(msg) }] followed by the rest of the function. *)
Definition ensure (b : bool) (msg : string) : Result () :=
  if b then Ok () else Err msg.

Definition is_ok {A} (r : Result A) : bool :=
  match r with Ok _ => true | Err _ | Panic _ => false end.

(** Collecting an iterator of results stops at the first error. *)
Fixpoint collect_results {A} (rs : list (Result A)) : Result (list A) :=
  match rs with
  | [] => Ok []
  | r :: rest =>
      a ← r; tail ← collect_results rest; Ok (a :: tail)
  end.

Lemma bind_Ok {A B} (m : Result A) (f : A -> Result B) b :
  (m ≫= f) = Ok b <-> exists a, m = Ok a /\ f a = Ok b.
Proof.
  split.
  - destruct m; simpl; [eauto | discriminate..].
  - intros (a & -> & ?). done.
Qed.

Lemma ensure_Ok b msg u : ensure b msg = Ok u <-> b = true.
Proof. destruct u, b; simpl; split; congruence. Qed.

Lemma ok_or_Ok {A} (o : option A) msg a : ok_or o msg = Ok a <-> o = Some a.
Proof. destruct o; simpl; split; congruence. Qed.

Lemma with_context_Ok {A} (r : Result A) msg a :
  with_context r msg = Ok a <-> r = Ok a.
Proof. destruct r; simpl; split; congruence. Qed.

Lemma expect_Ok {A} (o : option A) msg a : expect o msg = Ok a <-> o = Some a.
Proof. destruct o; simpl; split; congruence. Qed.

Lemma collect_results_Forall2 {A} (rs : list (Result A)) l :
  collect_results rs = Ok l <-> Forall2 (fun r a => r = Ok a) rs l.
Proof.
  revert l; induction rs as [|r rs IH]; intros l; simpl.
  - split; [intros [= <-]; constructor | by inversion 1].
  - rewrite bind_Ok. setoid_rewrite bind_Ok. setoid_rewrite IH. split.
    + intros (a & Ha & tail & Htail & [= <-]). by constructor.
    + inversion 1; subst. eauto 6.
Qed.

(** The computation returns a value or an error, it does not panic. *)
Definition no_panic {A} (r : Result A) : Prop :=
  match r with Panic _ => False | Ok _ | Err _ => True end.

Lemma no_panic_bind {A B} (m : Result A) (f : A -> Result B) :
  no_panic m -> (forall a, m = Ok a -> no_panic (f a)) -> no_panic (m ≫= f).
Proof. destruct m; simpl; auto. Qed.

Lemma no_panic_ensure b msg : no_panic (ensure b msg).
Proof. by destruct b. Qed.

Lemma no_panic_ok_or {A} (o : option A) msg : no_panic (ok_or o msg).
Proof. by destruct o. Qed.

Lemma no_panic_with_context {A} (r : Result A) msg : no_panic r -> no_panic (with_context r msg).
Proof. by destruct r. Qed.

Lemma no_panic_expect {A} (o : option A) msg : is_Some o -> no_panic (expect o msg).
Proof. by intros [a ->]. Qed.

(** Walk through the binds of a computation that must not panic. *)
Ltac no_panic_tac :=
  repeat match goal with
  | |- no_panic (_ ≫= _) => apply no_panic_bind; [|intros ? ?]
  | |- no_panic (ensure _ _) => apply no_panic_ensure
  | |- no_panic (ok_or _ _) => apply no_panic_ok_or
  | |- no_panic (Ok _) => exact I
  | |- no_panic (Err _) => exact I
  | |- no_panic (with_context _ _) => apply no_panic_with_context
  end.

(** Destruct every successful bind of a hypothesis into its intermediate
    results. *)
Ltac inv_result :=
  repeat match goal with
  | H : Ok _ = Ok _ |- _ => injection H as H; try subst
  | H : Err _ = Ok _ |- _ => discriminate H
  | H : Ok _ = Err _ |- _ => discriminate H
  | H : Panic _ = Ok _ |- _ => discriminate H
  | H : (_ ≫= _) = Ok _ |- _ =>
      let a := fresh "a" in let Ha := fresh "Ha" in
      apply bind_Ok in H as (a & Ha & H)
  | H : ensure _ _ = Ok _ |- _ => apply ensure_Ok in H
  | H : ok_or _ _ = Ok _ |- _ => apply ok_or_Ok in H
  | H : with_context _ _ = Ok _ |- _ => apply with_context_Ok in H
  | H : expect _ _ = Ok _ |- _ => apply expect_Ok in H
  | u : () |- _ => destruct u
  end.

(** * Stateful computations that may fail

    A method on [&mut self] that returns a [Result]: the state it leaves is
    kept on every outcome, also on an error. *)

Definition M (S A : Type) : Type := S -> S * Result A.

#[export] Instance M_ret S : MRet (M S) := fun A a s => (s, Ok a).

#[export] Instance M_bind S : MBind (M S) := fun A B f m s =>
  match m s with
  | (s', Ok a) => f a s'
  | (s', Err e) => (s', Err e)
  | (s', Panic e) => (s', Panic e)
  end.

(** A step that does not touch the state; [?] on a pure result. *)
Definition lift {S A} (r : Result A) : M S A := fun s => (s, r).

(** [get_field] and assignments. *)
Definition gets {S A} (f : S -> A) : M S A := fun s => (s, Ok (f s)).
Definition modify {S} (f : S -> S) : M S () := fun s => (f s, Ok ()).

(** [for x in list { body }] with [?] inside the body; the values pushed. *)
Fixpoint for_each {S A B} (body : A -> M S (option B)) (l : list A) : M S (list B) :=
  match l with
  | [] => mret []
  | x :: rest =>
      pushed ← body x;
      tail ← for_each body rest;
      mret (match pushed with Some b => b :: tail | None => tail end)
  end.

Lemma M_bind_eq {S A B} (m : M S A) (f : A -> M S B) s :
  (m ≫= f) s = match m s with
               | (s', Ok a) => f a s'
               | (s', Err e) => (s', Err e)
               | (s', Panic e) => (s', Panic e)
               end.
Proof. done. Qed.

Lemma lift_bind {S A B} (r : Result A) (f : A -> M S B) s :
  (lift r ≫= f) s = match r with
                    | Ok a => f a s
                    | Err e => (s, Err e)
                    | Panic e => (s, Panic e)
                    end.
Proof. done. Qed.

Lemma M_bind_Ok {S A B} (m : M S A) (f : A -> M S B) s s' b :
  (m ≫= f) s = (s', Ok b) <-> exists s1 a, m s = (s1, Ok a) /\ f a s1 = (s', Ok b).
Proof.
  rewrite M_bind_eq. split.
  - destruct (m s) as [s1 [a|e|e]]; [eauto | discriminate..].
  - by intros (s1 & a & -> & ?).
Qed.

(** A computation that extends a log kept in the state, by entries that satisfy
    [Q] together with its result. *)
Section traces.
Context {S E : Type} (log : S -> list E).

Definition emits {A} (m : M S A) (Q : list E -> Result A -> Prop) : Prop :=
  forall s s' r, m s = (s', r) -> exists new, log s' = log s ++ new /\ Q new r.

Lemma emits_nothing {A} (r : Result A) (Q : list E -> Result A -> Prop) : Q [] r -> emits (lift r) Q.
Proof. intros HQ s s' r' [= <- <-]. exists []. by rewrite app_nil_r. Qed.

Lemma emits_silent {A} (f : S -> S) (a : A) (Q : list E -> Result A -> Prop) :
  (forall s, log (f s) = log s) -> Q [] (Ok a) -> emits (fun s => (f s, Ok a)) Q.
Proof. intros Hf HQ s s' r [= <- <-]. exists []. by rewrite app_nil_r, Hf. Qed.

Lemma emits_bind {A B} (m : M S A) (f : A -> M S B) (Q : list E -> Result A -> Prop) (R : list E -> Result B -> Prop) :
  emits m Q ->
  (forall v n1, Q n1 (Ok v) -> emits (f v) (fun n2 r => R (n1 ++ n2) r)) ->
  (forall n e, Q n (Err e) -> R n (Err e)) -> (forall n e, Q n (Panic e) -> R n (Panic e)) ->
  emits (m ≫= f) R.
Proof.
  intros Hm Hf He Hp s s' r Hrun. rewrite M_bind_eq in Hrun.
  destruct (m s) as [s1 [v|e|e]] eqn:Em; destruct (Hm _ _ _ Em) as (n1 & Hlog & HQ).
  - destruct (Hf v n1 HQ _ _ _ Hrun) as (n2 & Hlog2 & HR). exists (n1 ++ n2).
    by rewrite Hlog2, Hlog, app_assoc.
  - injection Hrun as <- <-. eauto.
  - injection Hrun as <- <-. eauto.
Qed.

Lemma emits_weaken {A} (m : M S A) (Q R : list E -> Result A -> Prop) :
  emits m Q -> (forall n r, Q n r -> R n r) -> emits m R.
Proof. intros Hm HQR s s' r Hr. destruct (Hm _ _ _ Hr) as (n & Hl & HQ). eauto. Qed.

Lemma emits_lift_bind {A B} (r : Result A) (f : A -> M S B) (R : list E -> Result B -> Prop) :
  (forall v, r = Ok v -> emits (f v) R) -> (forall e, R [] (Err e)) -> (forall e, R [] (Panic e)) ->
  emits (lift r ≫= f) R.
Proof.
  intros Hf He Hp. apply (emits_bind _ _ (fun n r' => n = [] /\ r' = r)).
  - by apply emits_nothing.
  - intros v n [-> Hr]. by apply Hf.
  - by intros n e [-> _].
  - by intros n e [-> _].
Qed.

Lemma emits_gets_bind {A B} (g : S -> A) (f : A -> M S B) (R : list E -> Result B -> Prop) :
  (forall v, emits (f v) R) -> emits (gets g ≫= f) R.
Proof. intros Hf s s' r Hrun. by apply (Hf (g s)). Qed.
End traces.

(** An invariant of the state that a computation preserves on every outcome,
    and what it guarantees of the value it returns. *)
Definition preserves {S A} (I : S -> Prop) (m : M S A) (Q : A -> Prop) : Prop :=
  forall s, I s -> I (fst (m s)) /\ forall a, snd (m s) = Ok a -> Q a.

Section preserves.
Context {S : Type} (I : S -> Prop).

Lemma preserves_ret {A} (a : A) (Q : A -> Prop) : Q a -> preserves I (mret a) Q.
Proof using. intros Ha s Hs. split; [done|]. by intros a' [= <-]. Qed.

Lemma preserves_lift {A} (r : Result A) (Q : A -> Prop) :
  (forall a, r = Ok a -> Q a) -> preserves I (lift r) Q.
Proof using. intros Hr s Hs. by split. Qed.

Lemma preserves_gets {A} (f : S -> A) (Q : A -> Prop) :
  (forall s, I s -> Q (f s)) -> preserves I (gets f) Q.
Proof using. intros Hf s Hs. split; [done|]. intros a [= <-]. by apply Hf. Qed.

Lemma preserves_modify (f : S -> S) (Q : () -> Prop) :
  (forall s, I s -> I (f s)) -> Q () -> preserves I (modify f) Q.
Proof using. intros Hf HQ s Hs. split; [by apply Hf|]. by intros []. Qed.

Lemma preserves_bind {A B} (m : M S A) (f : A -> M S B) (P : A -> Prop) (Q : B -> Prop) :
  preserves I m P -> (forall a, P a -> preserves I (f a) Q) -> preserves I (m ≫= f) Q.
Proof using.
  intros Hm Hf s Hs. destruct (Hm s Hs) as [Hs' HP]. rewrite M_bind_eq.
  destruct (m s) as [s' [a|e|e]]; [|by split..]. simpl in *. by apply Hf; [apply HP|].
Qed.
End preserves.

(** * Machine integers

    A [w]-bit unsigned integer is a [Z] in [0, 2^w); casts and wrap-around are
    written out with [wrap] (unsigned) and [signed] (two's complement). *)

Definition wrap (w x : Z) : Z := x mod 2 ^ w.

Definition signed (w x : Z) : Z :=
  let u := wrap w x in
  if u <? 2 ^ (w - 1) then u else u - 2 ^ w.

Definition u_ok (w x : Z) : Prop := 0 <= x < 2 ^ w.
Definition i_ok (w x : Z) : Prop := - 2 ^ (w - 1) <= x < 2 ^ (w - 1).

Definition u_max (w : Z) : Z := 2 ^ w - 1.
Definition i_max (w : Z) : Z := 2 ^ (w - 1) - 1.
Definition i_min (w : Z) : Z := - 2 ^ (w - 1).

(** [a.saturating_add(b)], [a.saturating_sub(b)], [a.checked_add(b)] and
    [a.checked_sub(b)] on [w]-bit unsigned integers. *)
Definition sat_add (w a b : Z) : Z := Z.min (a + b) (u_max w).
Definition sat_sub (a b : Z) : Z := Z.max (a - b) 0.
Definition checked_add (w a b : Z) : option Z :=
  if a + b <=? u_max w then Some (a + b) else None.
Definition checked_sub (a b : Z) : option Z :=
  if b <=? a then Some (a - b) else None.

Definition usize_max : Z := u_max 64.

Lemma wrap_ok w x : 0 <= w -> u_ok w (wrap w x).
Proof. intros. unfold u_ok, wrap. apply Z.mod_pos_bound. lia. Qed.

Lemma wrap_small w x : u_ok w x -> wrap w x = x.
Proof. intros. by apply Z.mod_small. Qed.

Lemma sat_add_ok w a b : 0 <= w -> u_ok w a -> 0 <= b -> u_ok w (sat_add w a b).
Proof. unfold u_ok, sat_add, u_max. lia. Qed.

Lemma sat_add_mono w a b : u_ok w a -> 0 <= b -> a <= sat_add w a b.
Proof. unfold u_ok, sat_add, u_max. lia. Qed.

Lemma signed_wrap w x : 0 < w -> i_ok w x -> signed w (wrap w x) = x.
Proof.
  intros Hw [Hlo Hhi]. unfold signed.
  assert (Hp : 2 ^ w = 2 * 2 ^ (w - 1)).
  { rewrite <- Z.pow_succ_r by lia. f_equal. lia. }
  assert (0 < 2 ^ (w - 1)) by lia.
  rewrite (wrap_small w (wrap w x)) by (apply wrap_ok; lia).
  unfold wrap. destruct (Z.ltb_spec x 0).
  - replace (x mod 2 ^ w) with (x + 2 ^ w)
      by (rewrite <- (Z.mod_small (x + 2 ^ w) (2 ^ w)) by lia;
          rewrite <- (Z.mod_add x 1 (2 ^ w)) by lia; f_equal; lia).
    destruct (Z.ltb_spec (x + 2 ^ w) (2 ^ (w - 1))); lia.
  - rewrite Z.mod_small by lia. destruct (Z.ltb_spec x (2 ^ (w - 1))); lia.
Qed.

Lemma signed_ok w x : 0 < w -> i_ok w (signed w x).
Proof.
  intros Hw. unfold signed, i_ok.
  pose proof (wrap_ok w x ltac:(lia)) as [? Hlt].
  assert (Hp : 2 ^ w = 2 * 2 ^ (w - 1)).
  { rewrite <- Z.pow_succ_r by lia. f_equal. lia. }
  destruct (Z.ltb_spec (wrap w x) (2 ^ (w - 1))); lia.
Qed.

(** [(a << k) | r] when [r] has [k] bits. *)
Lemma lor_shifted a k r : 0 <= k -> 0 <= r < 2 ^ k -> Z.lor (a * 2 ^ k) r = a * 2 ^ k + r.
Proof.
  intros Hk Hr. assert (Hland : Z.land (a * 2 ^ k) r = 0).
  { apply Z.bits_inj'. intros i Hi. rewrite Z.land_spec, Z.testbit_0_l.
    destruct (Z.ltb_spec i k).
    - by rewrite Z.mul_pow2_bits_low.
    - rewrite andb_comm. destruct (decide (r = 0)) as [->|]; [by rewrite Z.testbit_0_l|].
      rewrite (Z.bits_above_log2 r i); [done | lia|].
      apply Z.log2_lt_pow2; [lia|]. apply Z.lt_le_trans with (2 ^ k); [lia|].
      apply Z.pow_le_mono_r; lia. }
  rewrite <- Z.lxor_lor by done. symmetry. by apply Z.add_nocarry_lxor.
Qed.

(** [x & (1 << k) != 0] tests bit [k]. *)
Lemma land_pow2_zero x k : 0 <= k -> (Z.land x (2 ^ k) =? 0) = negb (Z.testbit x k).
Proof.
  intros Hk. destruct (Z.testbit x k) eqn:E; simpl.
  - apply Z.eqb_neq. intros H. apply (f_equal (fun z => Z.testbit z k)) in H.
    rewrite Z.land_spec, E, Z.pow2_bits_true, Z.testbit_0_l in H by done. done.
  - apply Z.eqb_eq, Z.bits_inj'. intros i Hi. rewrite Z.land_spec, Z.testbit_0_l.
    rewrite Z.pow2_bits_eqb by done. destruct (Z.eqb_spec k i) as [->|]; [|by rewrite andb_false_r].
    by rewrite E.
Qed.

Lemma testbit_high w x i : u_ok w x -> w <= i -> Z.testbit x i = false.
Proof.
  intros [H0 Hx] Hi. destruct (decide (x = 0)) as [->|]; [apply Z.testbit_0_l|].
  destruct (decide (0 <= w)); [|rewrite Z.pow_neg_r in Hx by lia; lia].
  apply Z.bits_above_log2; [lia|]. apply Z.lt_le_trans with w; [|done].
  apply Z.log2_lt_pow2; lia.
Qed.

Lemma lxor_ok w a b : 0 <= w -> u_ok w a -> u_ok w b -> u_ok w (Z.lxor a b).
Proof.
  intros Hw Ha Hb. assert (0 <= Z.lxor a b) by (apply Z.lxor_nonneg; unfold u_ok in *; lia).
  split; [done|]. destruct (decide (Z.lxor a b = 0)) as [->|]; [lia|].
  apply Z.log2_lt_pow2; [lia|]. apply Z.nle_gt. intros Hlog.
  pose proof (Z.bit_log2 (Z.lxor a b) ltac:(lia)) as Hbit.
  by rewrite Z.lxor_spec, !(testbit_high w) in Hbit by done.
Qed.

Lemma lxor_inj_l a b k : Z.lxor k a = Z.lxor k b -> a = b.
Proof.
  intros H. apply (f_equal (Z.lxor k)) in H.
  by rewrite <- !Z.lxor_assoc, Z.lxor_nilpotent, !Z.lxor_0_l in H.
Qed.

Lemma lxor_inj_r a b k : Z.lxor a k = Z.lxor b k -> a = b.
Proof. rewrite !(Z.lxor_comm _ k). apply lxor_inj_l. Qed.

(** * Bytes

    A byte is a [Z] in [0, 256); a [&[u8]] or [Vec<u8>] is a [list Z]. *)

Abbreviation bytes := (list Z).

Definition byte_ok (b : Z) : Prop := 0 <= b < 256.
Definition bytes_ok (l : bytes) : Prop := Forall byte_ok l.

(** [u8::wrapping_add] and [u8::wrapping_sub]. *)
Definition wrapping_add8 (a b : Z) : Z := wrap 8 (a + b).
Definition wrapping_sub8 (a b : Z) : Z := wrap 8 (a - b).

(** The checksum loop shared by several protocols:
    [iter().fold(0_u8, |sum, byte| sum.wrapping_add( *byte ))]. *)
Definition sum8 (l : bytes) : Z := fold_left wrapping_add8 l 0.

(** Little-endian and big-endian renderings of an [8 n]-bit integer. *)
Fixpoint to_le_bytes (n : nat) (x : Z) : bytes :=
  match n with
  | O => []
  | S n => x mod 256 :: to_le_bytes n (x / 256)
  end.

Fixpoint from_le_bytes (l : bytes) : Z :=
  match l with
  | [] => 0
  | b :: l => b + 256 * from_le_bytes l
  end.

Definition to_be_bytes (n : nat) (x : Z) : bytes := reverse (to_le_bytes n x).
Definition from_be_bytes (l : bytes) : Z := from_le_bytes (reverse l).

(** [slice[i]] where the code has checked the length. *)
Definition byte_at (l : bytes) (i : nat) : Z := default 0 (l !! i).

(** [slice.get(start..end)]: [None] when the range does not fit. *)
Definition slice {A} (l : list A) (start stop : nat) : option (list A) :=
  if bool_decide (start <= stop)%nat && bool_decide (stop <= length l)%nat
  then Some (take (stop - start) (drop start l)) else None.

(** [slice.iter().position(p)]. *)
Fixpoint position {A} (p : A -> bool) (l : list A) : option nat :=
  match l with
  | [] => None
  | x :: l => if p x then Some O else S <$> position p l
  end.

(** [slice.chunks_exact(2)]: a trailing odd element is dropped. *)
Fixpoint chunks2 {A} (l : list A) : list (A * A) :=
  match l with
  | a :: b :: l => (a, b) :: chunks2 l
  | _ => []
  end.

(** [iter.find(p)] and [iter.find_map(f)]. *)
Fixpoint find_first {A} (p : A -> bool) (l : list A) : option A :=
  match l with
  | [] => None
  | x :: l => if p x then Some x else find_first p l
  end.

Fixpoint find_map {A B} (f : A -> option B) (l : list A) : option B :=
  match l with
  | [] => None
  | x :: l => match f x with Some b => Some b | None => find_map f l end
  end.

(** [iter_mut().find(p)] followed by an update of the element it finds. *)
Fixpoint update_first {A} (p : A -> bool) (f : A -> A) (l : list A) : option (list A) :=
  match l with
  | [] => None
  | x :: rest => if p x then Some (f x :: rest) else cons x <$> update_first p f rest
  end.

(** [slice.sort_by_key(..)], which is stable: [leb] compares the keys. *)
Fixpoint insert_by {A} (leb : A -> A -> bool) (x : A) (l : list A) : list A :=
  match l with
  | [] => [x]
  | y :: rest => if leb x y then x :: y :: rest else y :: insert_by leb x rest
  end.

Definition sort_by {A} (leb : A -> A -> bool) (l : list A) : list A :=
  foldr (insert_by leb) [] l.

(** [iter.max_by(..)]: the last of the greatest elements. *)
Fixpoint max_by {A} (leb : A -> A -> bool) (l : list A) : option A :=
  match l with
  | [] => None
  | x :: l =>
      match max_by leb l with
      | None => Some x
      | Some y => if leb x y then Some y else Some x
      end
  end.

(** ** Lemmas on bytes *)

Lemma byte_ok_mod x : byte_ok (x mod 256).
Proof. apply Z.mod_pos_bound. lia. Qed.

Lemma byte_ok_wrap x : byte_ok (wrap 8 x).
Proof. apply (wrap_ok 8). lia. Qed.

Lemma length_to_le_bytes n x : length (to_le_bytes n x) = n.
Proof. revert x; induction n; intros; simpl; auto. Qed.

Lemma length_to_be_bytes n x : length (to_be_bytes n x) = n.
Proof. unfold to_be_bytes. by rewrite length_reverse, length_to_le_bytes. Qed.

Lemma to_le_bytes_ok n x : bytes_ok (to_le_bytes n x).
Proof.
  revert x; induction n; intros; simpl; constructor; [apply byte_ok_mod | apply IHn].
Qed.

Lemma to_be_bytes_ok n x : bytes_ok (to_be_bytes n x).
Proof. apply Forall_reverse, to_le_bytes_ok. Qed.

Lemma from_le_bytes_bound l :
  bytes_ok l -> 0 <= from_le_bytes l < 256 ^ Z.of_nat (length l).
Proof.
  induction 1 as [|b l Hb Hl IH].
  - simpl. lia.
  - rewrite length_cons, Nat2Z.inj_succ, Z.pow_succ_r by lia.
    simpl. unfold byte_ok in Hb. nia.
Qed.

Lemma from_le_to_le n x :
  0 <= x < 256 ^ Z.of_nat n -> from_le_bytes (to_le_bytes n x) = x.
Proof.
  revert x; induction n as [|n IH]; intros x Hx.
  - simpl in *. lia.
  - rewrite Nat2Z.inj_succ, Z.pow_succ_r in Hx by lia. simpl.
    rewrite IH.
    + pose proof (Z.div_mod x 256). lia.
    + split; [apply Z.div_pos; lia | apply Z.div_lt_upper_bound; lia].
Qed.

Lemma to_le_from_le l :
  bytes_ok l -> to_le_bytes (length l) (from_le_bytes l) = l.
Proof.
  induction 1 as [|b l Hb Hl IH]; [done|]. simpl.
  assert (Hb' : 0 <= b < 256) by exact Hb.
  replace (b + 256 * from_le_bytes l) with (b + from_le_bytes l * 256) by lia.
  rewrite Z.mod_add, Z.mod_small, Z.div_add, Z.div_small, Z.add_0_l by lia.
  by rewrite IH.
Qed.

Lemma from_be_to_be n x :
  0 <= x < 256 ^ Z.of_nat n -> from_be_bytes (to_be_bytes n x) = x.
Proof.
  intros. unfold from_be_bytes, to_be_bytes.
  rewrite reverse_involutive. by apply from_le_to_le.
Qed.

Lemma from_be_bytes_bound l :
  bytes_ok l -> 0 <= from_be_bytes l < 256 ^ Z.of_nat (length l).
Proof.
  intros. unfold from_be_bytes. rewrite <- (length_reverse l).
  by apply from_le_bytes_bound, Forall_reverse.
Qed.

Lemma to_be_from_be l :
  bytes_ok l -> to_be_bytes (length l) (from_be_bytes l) = l.
Proof.
  intros. unfold from_be_bytes, to_be_bytes.
  rewrite <- (length_reverse l), to_le_from_le by by apply Forall_reverse.
  apply reverse_involutive.
Qed.

Lemma max_by_elem {A} (leb : A -> A -> bool) l x : max_by leb l = Some x -> x ∈ l.
Proof.
  revert x. induction l as [|y l IH]; [done|]. cbn [max_by]. intros x.
  destruct (max_by leb l) as [z|]; [|intros [= <-]; left].
  destruct (leb y z); intros [= <-]; [right; by apply IH | left].
Qed.

Lemma max_by_some {A} (leb : A -> A -> bool) l y : y ∈ l -> exists x, max_by leb l = Some x.
Proof.
  destruct l as [|z l]; [by intros ?%not_elem_of_nil|]. intros _. cbn [max_by].
  destruct (max_by leb l) as [w|]; [destruct (leb z w)|]; eauto.
Qed.

(** With an order, the greatest element is above all. *)
Lemma max_by_max {A} (leb : A -> A -> bool) l x y :
  (forall a b, leb a b = true \/ leb b a = true) -> (forall a b c, leb a b = true -> leb b c = true -> leb a c = true) ->
  max_by leb l = Some x -> y ∈ l -> leb y x = true.
Proof.
  intros Htot Htrans. revert x. induction l as [|z l IH]; [done|]. cbn [max_by]. intros x.
  destruct (max_by leb l) as [w|] eqn:E.
  - destruct (leb z w) eqn:Ezw; intros [= <-] [->|Hy]%elem_of_cons; [done | by apply IH | |].
    + by destruct (Htot z z).
    + apply (Htrans y w z); [by apply IH|]. destruct (Htot z w); congruence.
  - intros [= <-] [->|Hy]%elem_of_cons; [by destruct (Htot z z)|].
    destruct (max_by_some leb l y Hy) as [w Hw]. congruence.
Qed.

Lemma fold_wrapping_add8 l acc :
  byte_ok acc -> bytes_ok l ->
  fold_left wrapping_add8 l acc = wrap 8 (acc + foldr Z.add 0 l).
Proof.
  intros Hacc Hl; revert acc Hacc; induction Hl as [|b l Hb Hl IH]; intros acc Hacc; simpl.
  - rewrite Z.add_0_r. symmetry. by apply (wrap_small 8).
  - rewrite IH by apply byte_ok_wrap. unfold wrapping_add8, wrap.
    rewrite Zplus_mod_idemp_l. f_equal. lia.
Qed.

(** The running checksum is the sum of the bytes modulo 256. *)
Lemma sum8_spec l : bytes_ok l -> sum8 l = wrap 8 (foldr Z.add 0 l).
Proof. intros. unfold sum8. rewrite fold_wrapping_add8; [done | split; lia | done]. Qed.

Lemma sum8_ok l : byte_ok (sum8 l).
Proof.
  unfold sum8. assert (Hall : forall l acc, byte_ok acc -> byte_ok (fold_left wrapping_add8 l acc)).
  { clear. induction l as [|b l IH]; intros; simpl; [done|]. apply IH, byte_ok_wrap. }
  apply Hall. split; lia.
Qed.

Lemma byte_at_ok l i : bytes_ok l -> byte_ok (byte_at l i).
Proof.
  intros Hl. unfold byte_at. destruct (l !! i) as [b|] eqn:E; simpl.
  - by eapply (Forall_lookup_1 _ _ _ _ Hl).
  - split; lia.
Qed.

Lemma wrapping_add_sub8 b k : byte_ok b -> wrapping_sub8 (wrapping_add8 b k) k = b.
Proof.
  intros Hb. unfold wrapping_sub8, wrapping_add8, wrap.
  rewrite Zminus_mod_idemp_l. rewrite Z.add_simpl_r. by apply (wrap_small 8).
Qed.

(** ** Running checksums

    A checksum that is folded over the bytes detects a change of one byte when
    each step is injective in the state and in the byte. *)

Class ChecksumStep (w : Z) (step : Z -> Z -> Z) : Prop := {
  step_ok : forall s b, u_ok w s -> byte_ok b -> u_ok w (step s b);
  step_inj_state : forall s t b, u_ok w s -> u_ok w t -> byte_ok b -> step s b = step t b -> s = t;
  step_inj_byte : forall s b c, u_ok w s -> byte_ok b -> byte_ok c -> step s b = step s c -> b = c;
}.

Section checksum.
Context (w : Z) (step : Z -> Z -> Z) `{!ChecksumStep w step}.

Lemma checksum_ok l s : u_ok w s -> bytes_ok l -> u_ok w (fold_left step l s).
Proof using All.
  intros Hs Hl. revert s Hs. induction Hl as [|b l Hb Hl IH]; intros s Hs; [done|].
  simpl. by apply IH, step_ok.
Qed.

Lemma checksum_inj l s t :
  u_ok w s -> u_ok w t -> bytes_ok l -> fold_left step l s = fold_left step l t -> s = t.
Proof using All.
  intros Hs Ht Hl. revert s t Hs Ht. induction Hl as [|b l Hb Hl IH]; intros s t Hs Ht; [done|].
  simpl. intros Heq%IH; [|by apply step_ok..]. by eapply step_inj_state.
Qed.

Lemma checksum_detects l1 b c l2 s :
  u_ok w s -> bytes_ok l1 -> byte_ok b -> byte_ok c -> bytes_ok l2 -> b <> c ->
  fold_left step (l1 ++ b :: l2) s <> fold_left step (l1 ++ c :: l2) s.
Proof using All.
  intros Hs H1 Hb Hc H2 Hne Heq. rewrite !fold_left_app in Heq. simpl in Heq.
  pose proof (checksum_ok l1 s Hs H1) as Hs1.
  apply checksum_inj in Heq; [|by apply step_ok..|done]. apply Hne. by eapply step_inj_byte.
Qed.
End checksum.

#[export] Instance wrapping_add_step : ChecksumStep 8 wrapping_add8.
Proof.
  assert (Hinj : forall a b k, u_ok 8 a -> u_ok 8 b -> wrap 8 (a + k) = wrap 8 (b + k) -> a = b).
  { intros a b k Ha Hb Heq. pose proof (wrapping_add_sub8 a k Ha) as E1.
    pose proof (wrapping_add_sub8 b k Hb) as E2. unfold wrapping_add8 in *. congruence. }
  constructor; unfold wrapping_add8.
  - intros. apply wrap_ok. lia.
  - intros s t b Hs Ht _. by apply Hinj.
  - intros s b c _ Hb Hc. rewrite !(Z.add_comm s). by apply Hinj.
Qed.

#[export] Instance lxor_step : ChecksumStep 8 Z.lxor.
Proof.
  constructor.
  - intros s b Hs Hb. by apply lxor_ok.
  - intros s t b _ _ _. apply lxor_inj_r.
  - intros s b c _ _ _. apply lxor_inj_l.
Qed.

(** ** Lemmas on the slice operations *)

Lemma slice_Some {A} (l : list A) i j s :
  slice l i j = Some s <->
  (i <= j)%nat /\ (j <= length l)%nat /\ s = take (j - i) (drop i l).
Proof.
  unfold slice.
  destruct (decide (i <= j)%nat); destruct (decide (j <= length l)%nat);
    rewrite ?bool_decide_true, ?bool_decide_false by done; simpl;
    split; [intros [= <-] | intros (? & ? & ->) | ..]; naive_solver.
Qed.

Lemma slice_middle {A} (a b c : list A) i j :
  length a = i -> (i + length b)%nat = j -> slice (a ++ b ++ c) i j = Some b.
Proof.
  intros <- <-. apply slice_Some. rewrite !length_app.
  split; [lia|]. split; [lia|].
  rewrite drop_app_length, take_app_le by lia.
  symmetry. rewrite take_ge by lia. done.
Qed.

Lemma position_Some {A} (p : A -> bool) l i :
  position p l = Some i ->
  exists x, l !! i = Some x /\ p x = true /\
    (forall j y, (j < i)%nat -> l !! j = Some y -> p y = false).
Proof.
  revert i; induction l as [|x l IH]; intros i; simpl; [done|].
  destruct (p x) eqn:E.
  - intros [= <-]. exists x. split; [done|]. split; [done|]. lia.
  - intros H. destruct (position p l) as [k|] eqn:Ek; [|done].
    simplify_eq/=. destruct (IH k eq_refl) as (y & Hy & Hpy & Hbefore).
    exists y. split; [done|]. split; [done|].
    intros [|j] z Hj Hz; simpl in *; [naive_solver|].
    by apply (Hbefore j); [lia|].
Qed.

Lemma position_None {A} (p : A -> bool) l :
  position p l = None <-> Forall (fun x => p x = false) l.
Proof.
  induction l as [|x l IH]; simpl; [by split|].
  rewrite Forall_cons_iff, <- IH. destruct (p x); [naive_solver|].
  destruct (position p l); naive_solver.
Qed.

Lemma position_app {A} (p : A -> bool) l1 x l2 :
  Forall (fun y => p y = false) l1 -> p x = true -> position p (l1 ++ x :: l2) = Some (length l1).
Proof. intros H Hx. induction H as [|y l1 Hy H IH]; simpl; [by rewrite Hx|]. by rewrite Hy, IH. Qed.

Lemma position_split {A} (p : A -> bool) l i :
  position p l = Some i ->
  exists l1 x l2, l = l1 ++ x :: l2 /\ length l1 = i /\ p x = true /\
    Forall (fun y => p y = false) l1.
Proof.
  revert i; induction l as [|y l IH]; intros i; simpl; [done|]. destruct (p y) eqn:E.
  - intros [= <-]. by exists [], y, l.
  - destruct (position p l) as [k|] eqn:Ek; [|done]. intros [= <-].
    destruct (IH k eq_refl) as (l1 & x & l2 & -> & <- & Hx & Hall).
    exists (y :: l1), x, l2. repeat split; [done|]. by constructor.
Qed.

(** Filling a vector of [None]s by index, in any order, until every index was
    filled. *)
Lemma fold_insert_all {A B} (index : A -> nat) (f : A -> B) (ps : list A) (out : list B) :
  (forall p, p ∈ ps -> out !! index p = Some (f p)) ->
  (forall i, (i < length out)%nat -> exists p, p ∈ ps /\ index p = i) ->
  fold_left (fun l p => <[index p := Some (f p)]> l) ps (replicate (length out) None) = Some <$> out.
Proof.
  intros Hout Hall.
  assert (Hlook : forall qs, (forall p, p ∈ qs -> out !! index p = Some (f p)) -> forall l, length l = length out ->
    forall i, fold_left (fun l p => <[index p := Some (f p)]> l) qs l !! i =
      if bool_decide (Exists (fun p => index p = i) qs) then Some (out !! i) else l !! i).
  { intros qs. induction qs as [|p qs IH]; intros Hqs l Hl i; [done|]. cbn [fold_left].
    rewrite IH; [|intros q Hq; apply Hqs; by right | by rewrite length_insert].
    case_bool_decide as H1; [rewrite bool_decide_true; [done | by apply Exists_cons_tl]|].
    pose proof (Hqs p ltac:(left)) as Hp. destruct (decide (index p = i)) as [Heq|Hne].
    - rewrite bool_decide_true by by apply Exists_cons_hd.
      rewrite <- Heq, Hp, list_lookup_insert_eq; [done|]. rewrite Hl. by eapply lookup_lt_Some.
    - rewrite bool_decide_false by (intros [?|?]%Exists_cons; done). by rewrite list_lookup_insert_ne. }
  apply list_eq. intros i. rewrite Hlook by (done || by rewrite length_replicate). rewrite list_lookup_fmap.
  destruct (decide (i < length out)%nat) as [Hi|Hi].
  - rewrite bool_decide_true; [by destruct (lookup_lt_is_Some_2 out i Hi) as [x ->]|].
    apply list.Exists_exists. by apply Hall.
  - rewrite (lookup_ge_None_2 out) by lia. rewrite bool_decide_false.
    + apply lookup_ge_None_2. rewrite length_replicate. lia.
    + intros (p & Hp & <-)%list.Exists_exists. apply Hi. eapply lookup_lt_Some. by apply Hout.
Qed.

Lemma find_first_Some {A} (p : A -> bool) l x :
  find_first p l = Some x -> x ∈ l /\ p x = true.
Proof.
  induction l as [|y l IH]; simpl; [done|].
  destruct (p y) eqn:E; [intros [= ->]; split; [by left | done]|].
  intros [? ?]%IH. split; [by right | done].
Qed.

Lemma find_first_None {A} (p : A -> bool) l :
  find_first p l = None <-> Forall (fun x => p x = false) l.
Proof.
  induction l as [|y l IH]; simpl; [by split|].
  rewrite Forall_cons_iff, <- IH. destruct (p y); naive_solver.
Qed.

Lemma Forall_elem {A} (P : A -> Prop) l x : Forall P l -> x ∈ l -> P x.
Proof. intros H Hx%list_elem_of_In. by eapply List.Forall_forall. Qed.

Lemma forallb_Forall {A} (p : A -> bool) l :
  forallb p l = true <-> Forall (fun x => p x = true) l.
Proof.
  induction l as [|x l IH]; simpl; [by split|].
  by rewrite andb_true_iff, IH, Forall_cons_iff.
Qed.

Lemma filter_none {A} (P : A -> Prop) `{!forall x, Decision (P x)} (l : list A) :
  (forall x, x ∈ l -> ~ P x) -> filter P l = [].
Proof.
  induction l as [|x l IH]; intros Hn; [done|]. rewrite filter_cons_False by (apply Hn; by left).
  apply IH. intros y Hy. apply Hn. by right.
Qed.

Lemma filter_all {A} (P : A -> Prop) `{!forall x, Decision (P x)} (l : list A) :
  (forall x, x ∈ l -> P x) -> filter P l = l.
Proof.
  induction l as [|x l IH]; intros Hall; [done|]. rewrite filter_cons_True by (apply Hall; by left).
  f_equal. apply IH. intros y Hy. apply Hall. by right.
Qed.

Lemma filter_fmap {A B} (f : A -> B) (P : B -> Prop) `{!forall y, Decision (P y)} (l : list A) :
  filter P (f <$> l) = f <$> filter (fun x => P (f x)) l.
Proof.
  induction l as [|x l IH]; [done|]. rewrite fmap_cons, !filter_cons, IH. by case_decide.
Qed.

Lemma filter_iff_elem {A} (P Q : A -> Prop) `{!forall x, Decision (P x)} `{!forall x, Decision (Q x)}
    (l : list A) :
  (forall x, x ∈ l -> P x <-> Q x) -> filter P l = filter Q l.
Proof.
  induction l as [|x l IH]; intros Hpq; [done|]. rewrite !filter_cons, IH.
  - specialize (Hpq x ltac:(by left)). do 2 case_decide; tauto.
  - intros y Hy. apply Hpq. by right.
Qed.

Lemma length_filter_le {A} (P Q : A -> Prop) `{!forall x, Decision (P x)} `{!forall x, Decision (Q x)}
    (l : list A) :
  (forall x, P x -> Q x) -> (length (filter P l) <= length (filter Q l))%nat.
Proof.
  intros Hpq. induction l as [|x l IH]; [done|]. rewrite !filter_cons.
  repeat case_decide; cbn [length]; try lia. naive_solver.
Qed.

Lemma update_first_Some {A} (p : A -> bool) f l l' :
  update_first p f l = Some l' ->
  exists l1 x l2, l = l1 ++ x :: l2 /\ p x = true /\ l' = l1 ++ f x :: l2.
Proof.
  revert l'; induction l as [|x l IH]; intros l'; simpl; [done|].
  destruct (p x) eqn:E.
  - intros [= <-]. by exists [], x, l.
  - destruct (update_first p f l) as [r|] eqn:Er; [|done]. intros [= <-].
    destruct (IH r eq_refl) as (l1 & y & l2 & -> & Hy & ->). by exists (x :: l1), y, l2.
Qed.

Lemma update_first_None {A} (p : A -> bool) f l :
  update_first p f l = None -> Forall (fun x => p x = false) l.
Proof.
  induction l as [|x l IH]; simpl; [by constructor|]. destruct (p x) eqn:E; [done|].
  destruct (update_first p f l) as [r|] eqn:Er; [done|]. intros _.
  apply Forall_cons_iff. split; [done | by apply IH].
Qed.

Section sorting.
Context {A : Type} (leb : A -> A -> bool).
Hypothesis leb_total : forall x y, leb x y = true \/ leb y x = true.
Hypothesis leb_trans : forall x y z, leb x y = true -> leb y z = true -> leb x z = true.

Lemma insert_by_perm x l : insert_by leb x l ≡ₚ x :: l.
Proof using.
  clear leb_total leb_trans.
  induction l as [|y l IH]; simpl; [done|]. destruct (leb x y); [done|].
  rewrite IH. by rewrite Permutation_swap.
Qed.

Lemma sort_by_perm l : sort_by leb l ≡ₚ l.
Proof using.
  clear leb_total leb_trans.
  induction l as [|x l IH]; simpl; [done|]. by rewrite insert_by_perm, IH.
Qed.

Lemma insert_by_sorted x l :
  StronglySorted (fun a b => leb a b = true) l ->
  StronglySorted (fun a b => leb a b = true) (insert_by leb x l).
Proof using leb_total leb_trans.
  induction 1 as [|y l Hs IH Hall]; simpl; [by repeat constructor|].
  destruct (leb x y) eqn:E.
  - constructor; [by constructor|]. apply Forall_cons_iff. split; [done|].
    eapply Forall_impl; [|exact Hall]. intros z Hz. by eapply leb_trans.
  - constructor; [done|]. rewrite insert_by_perm. apply Forall_cons_iff. split; [|done].
    destruct (leb_total x y); congruence.
Qed.

Lemma sort_by_sorted l : StronglySorted (fun a b => leb a b = true) (sort_by leb l).
Proof using leb_total leb_trans.
  induction l as [|x l IH]; simpl; [constructor | by apply insert_by_sorted].
Qed.
End sorting.

Lemma length_chunks2 {A} (l : list A) n :
  length l = (2 * n)%nat -> length (chunks2 l) = n.
Proof.
  revert l; induction n as [|n IH]; intros [|a [|b l]] H; simpl in *; try lia.
  f_equal. apply IH. lia.
Qed.

(** ** Automation *)

Create HintDb vela.
Create Rewrite HintDb vela_len.
#[export] Hint Resolve byte_ok_mod byte_ok_wrap to_le_bytes_ok to_be_bytes_ok
  sum8_ok byte_at_ok : vela.
#[export] Hint Rewrite @length_app @length_cons @length_take @length_drop
  @length_reverse length_to_le_bytes length_to_be_bytes @length_replicate : vela_len.

(** Solve a side condition on list lengths. *)
Ltac len := autorewrite with vela_len in *; simpl in *; lia.

(** Closed decidable facts about bytes and machine integers. *)
Ltac bytes_tac :=
  repeat match goal with
  | |- bytes_ok [] => constructor
  | |- Forall _ [] => constructor
  | |- bytes_ok (_ :: _) => constructor
  | |- Forall _ (_ :: _) => constructor
  | |- bytes_ok (_ ++ _) => apply Forall_app; split
  | |- byte_ok _ => first [ assumption | split; lia | solve [ auto with vela ] ]
  end; auto with vela.

(** Split the boolean conditionals of the goal or the hypotheses. *)
Ltac case_bool :=
  match goal with
  | |- context [if ?b then _ else _] => destruct b eqn:?
  | H : context [if ?b then _ else _] |- _ => destruct b eqn:?
  end.

(** Turn the boolean hypotheses of the context into propositions. *)
Ltac simp_bool :=
  repeat match goal with
  | H : negb _ = true |- _ => apply negb_true_iff in H
  | H : negb _ = false |- _ => apply negb_false_iff in H
  | H : _ && _ = true |- _ => apply andb_true_iff in H as [? ?]
  | H : _ || _ = false |- _ => apply orb_false_iff in H as [? ?]
  | H : (_ =? _) = true |- _ => apply Z.eqb_eq in H
  | H : (_ =? _) = false |- _ => apply Z.eqb_neq in H
  | H : (_ <=? _) = true |- _ => apply Z.leb_le in H
  | H : (_ <=? _) = false |- _ => apply Z.leb_gt in H
  | H : (_ <? _) = true |- _ => apply Z.ltb_lt in H
  | H : (_ <? _) = false |- _ => apply Z.ltb_ge in H
  | H : bool_decide _ = true |- _ => apply bool_decide_eq_true in H
  | H : bool_decide _ = false |- _ => apply bool_decide_eq_false in H
  end.
