(* ===== verification/RustStr.v ===== *)
(** The parts of Rust's [str] the repository uses, on UTF-8 byte strings.

    A [&str] or [String] is a Rocq [string] read as its UTF-8 bytes.  The
    operations that look at characters ([trim], the expression parser's
    whitespace) recognise exactly the code points of Unicode's [White_Space]
    property, by their UTF-8 encodings; every other operation is bytewise in
    Rust too ([len], [bytes], [contains] with a [&str] pattern, ...). *)

From Stdlib Require Import ZArith Lia Ascii String.
From S2P Require Import Prelude.

Open Scope Z_scope.

(** ** Bytes of a string *)

Definition byte_of_ascii (a : ascii) : Z := Z.of_nat (nat_of_ascii a).
Definition ascii_of_byte (b : Z) : ascii := ascii_of_nat (Z.to_nat b).

Fixpoint str_bytes (s : string) : bytes :=
  match s with
  | EmptyString => []
  | String a s => byte_of_ascii a :: str_bytes s
  end.

Fixpoint str_of_bytes (l : bytes) : string :=
  match l with
  | [] => EmptyString
  | b :: l => String (ascii_of_byte b) (str_of_bytes l)
  end.

(** [s.is_empty()]. *)
Definition str_is_empty (s : string) : bool :=
  match s with EmptyString => true | _ => false end.

(** ** Whitespace *)

(** [char::is_whitespace] for a one-byte (ASCII) character. *)
Definition ascii_whitespace (b : Z) : bool :=
  ((9 <=? b) && (b <=? 13)) || (b =? 32).

(** [char::is_whitespace] for the two-byte characters U+0085 and U+00A0. *)
Definition whitespace2 (b1 b2 : Z) : bool :=
  (b1 =? 194) && ((b2 =? 133) || (b2 =? 160)).

(** The three-byte ones: U+1680, U+2000 to U+200A, U+2028, U+2029, U+202F,
    U+205F and U+3000. *)
Definition whitespace3 (b1 b2 b3 : Z) : bool :=
  ((b1 =? 225) && (b2 =? 154) && (b3 =? 128)) ||
  ((b1 =? 226) && (b2 =? 128) &&
     (((128 <=? b3) && (b3 <=? 138)) || (b3 =? 168) || (b3 =? 169) || (b3 =? 175))) ||
  ((b1 =? 226) && (b2 =? 129) && (b3 =? 159)) ||
  ((b1 =? 227) && (b2 =? 128) && (b3 =? 128)).

(** Drop one leading whitespace character. *)
Definition strip_whitespace (l : bytes) : option bytes :=
  match l with
  | b1 :: l1 =>
      if ascii_whitespace b1 then Some l1 else
      match l1 with
      | b2 :: l2 =>
          if whitespace2 b1 b2 then Some l2 else
          match l2 with
          | b3 :: l3 => if whitespace3 b1 b2 b3 then Some l3 else None
          | [] => None
          end
      | [] => None
      end
  | [] => None
  end.

(** [s.chars().any(char::is_whitespace)]: the encoding of a whitespace
    character is found at no other place than at the character itself. *)
Fixpoint has_whitespace (l : bytes) : bool :=
  match l with
  | [] => false
  | _ :: rest => bool_decide (is_Some (strip_whitespace l)) || has_whitespace rest
  end.

(** Drop the leading whitespace; [fuel] bounds the number of characters
    dropped, and the length of the text is always enough. *)
Fixpoint trim_start_fuel (fuel : nat) (l : bytes) : bytes :=
  match fuel with
  | O => l
  | S fuel =>
      match strip_whitespace l with
      | Some l' => trim_start_fuel fuel l'
      | None => l
      end
  end.

Definition trim_start_bytes (l : bytes) : bytes := trim_start_fuel (length l) l.

(** Drop one trailing whitespace character: the same test on the last bytes. *)
Definition strip_whitespace_end (r : bytes) : option bytes :=
  match r with
  | b1 :: r1 =>
      if ascii_whitespace b1 then Some r1 else
      match r1 with
      | b2 :: r2 =>
          if whitespace2 b2 b1 then Some r2 else
          match r2 with
          | b3 :: r3 => if whitespace3 b3 b2 b1 then Some r3 else None
          | [] => None
          end
      | [] => None
      end
  | [] => None
  end.

Fixpoint trim_end_fuel (fuel : nat) (r : bytes) : bytes :=
  match fuel with
  | O => r
  | S fuel =>
      match strip_whitespace_end r with
      | Some r' => trim_end_fuel fuel r'
      | None => r
      end
  end.

Definition trim_end_bytes (l : bytes) : bytes :=
  reverse (trim_end_fuel (length l) (reverse l)).

(** [s.trim()]. *)
Definition str_trim (s : string) : string :=
  str_of_bytes (trim_end_bytes (trim_start_bytes (str_bytes s))).

(** [s.trim().is_empty()], the guard most identifiers go through. *)
Definition is_blank (s : string) : bool := str_is_empty (str_trim s).

(** ** Tests on ASCII characters *)

Definition is_ascii_digit (b : Z) : bool := (48 <=? b) && (b <=? 57).

Definition is_ascii_alphabetic (b : Z) : bool :=
  ((65 <=? b) && (b <=? 90)) || ((97 <=? b) && (b <=? 122)).

Definition is_ascii_alphanumeric (b : Z) : bool :=
  is_ascii_digit b || is_ascii_alphabetic b.

Definition to_ascii_lower (b : Z) : Z :=
  if (65 <=? b) && (b <=? 90) then b + 32 else b.

(** [s.to_ascii_lowercase()]. *)
Definition str_to_ascii_lowercase (s : string) : string :=
  str_of_bytes (to_ascii_lower <$> str_bytes s).

(** ** Substrings *)

Fixpoint bytes_prefix (p l : bytes) : bool :=
  match p, l with
  | [], _ => true
  | a :: p, b :: l => (a =? b) && bytes_prefix p l
  | _ :: _, [] => false
  end.

(** [slice.starts_with(p)]. *)
Definition starts_with (l p : bytes) : bool := bytes_prefix p l.

Fixpoint bytes_contains (l p : bytes) : bool :=
  bytes_prefix p l || match l with [] => false | _ :: l => bytes_contains l p end.

(** [s.contains(p)] with a string pattern. *)
Definition str_contains (s p : string) : bool :=
  bytes_contains (str_bytes s) (str_bytes p).

(** ** Decimal numbers *)

(** The value of a run of ASCII digits. *)
Definition digits_value (l : bytes) : Z :=
  fold_left (fun acc b => 10 * acc + (b - 48)) l 0.

(** The decimal digits of a natural number, most significant first, in front of
    [acc]; [fuel] bounds the number of digits. *)
Fixpoint dec_digits (fuel : nat) (n : Z) (acc : bytes) : bytes :=
  match fuel with
  | O => acc
  | S fuel =>
      let acc := (48 + n mod 10) :: acc in
      if n <? 10 then acc else dec_digits fuel (n / 10) acc
  end.

(** A number has at most as many decimal digits as binary ones. *)
Definition dec_bytes (n : Z) : bytes := dec_digits (S (Z.to_nat (Z.log2 n))) n [].

(** [format!("{x}")] of an integer. *)
Definition show_Z (x : Z) : string :=
  str_of_bytes (if x <? 0 then 45 :: dec_bytes (- x) else dec_bytes x).

(** The upper-case hexadecimal rendering of the [n] low digits: [{x:08X}] and
    [{x:02X}] of a value that fits them. *)
Definition hex_char (d : Z) : Z := if d <? 10 then 48 + d else 55 + d.

Fixpoint hex_upper (n : nat) (x : Z) : bytes :=
  match n with
  | O => []
  | S n => hex_upper n (x / 16) ++ [hex_char (x mod 16)]
  end.

Definition show_hex (n : nat) (x : Z) : string := str_of_bytes (hex_upper n x).

(** ** Lemmas *)

Lemma byte_of_ascii_ok a : byte_ok (byte_of_ascii a).
Proof.
  unfold byte_of_ascii, byte_ok.
  pose proof (nat_ascii_bounded a). lia.
Qed.

Lemma str_bytes_ok s : bytes_ok (str_bytes s).
Proof. induction s; simpl; constructor; [apply byte_of_ascii_ok | done]. Qed.

Lemma ascii_of_byte_of_ascii a : ascii_of_byte (byte_of_ascii a) = a.
Proof.
  unfold ascii_of_byte, byte_of_ascii. rewrite Nat2Z.id.
  apply ascii_nat_embedding.
Qed.

Lemma str_of_str_bytes s : str_of_bytes (str_bytes s) = s.
Proof. induction s; simpl; [done|]. by rewrite ascii_of_byte_of_ascii, IHs. Qed.

Lemma byte_of_ascii_of_byte b : byte_ok b -> byte_of_ascii (ascii_of_byte b) = b.
Proof.
  intros [? ?]. unfold ascii_of_byte, byte_of_ascii.
  rewrite nat_ascii_embedding; lia.
Qed.

Lemma str_bytes_of_bytes l : bytes_ok l -> str_bytes (str_of_bytes l) = l.
Proof.
  induction 1; simpl; [done|]. by rewrite byte_of_ascii_of_byte, IHForall.
Qed.

Lemma str_bytes_inj s t : str_bytes s = str_bytes t -> s = t.
Proof. intros H. by rewrite <- (str_of_str_bytes s), H, str_of_str_bytes. Qed.

Lemma str_bytes_app s t : str_bytes (s ++ t)%string = str_bytes s ++ str_bytes t.
Proof.
  induction s as [|a s IH]; [done|].
  change (byte_of_ascii a :: str_bytes (s ++ t)%string = byte_of_ascii a :: str_bytes s ++ str_bytes t).
  by rewrite IH.
Qed.

Lemma strip_whitespace_length l l' :
  strip_whitespace l = Some l' -> (length l' < length l)%nat.
Proof.
  unfold strip_whitespace. intros H.
  repeat case_match; simplify_eq/=; lia.
Qed.

Lemma trim_start_stable fuel l :
  (length l <= fuel)%nat -> strip_whitespace (trim_start_fuel fuel l) = None.
Proof.
  revert l; induction fuel as [|fuel IH]; intros l Hl; simpl.
  - destruct l; [done | simpl in Hl; lia].
  - destruct (strip_whitespace l) as [l'|] eqn:E; [|done].
    apply IH. apply strip_whitespace_length in E. lia.
Qed.

(** The fuel of [trim_start_bytes] is enough: what is left starts with no
    whitespace. *)
Lemma trim_start_bytes_stable l : strip_whitespace (trim_start_bytes l) = None.
Proof. by apply trim_start_stable. Qed.

Lemma digits_value_app l1 l2 :
  digits_value (l1 ++ l2) =
  digits_value l1 * 10 ^ Z.of_nat (length l2) + digits_value l2.
Proof.
  unfold digits_value. rewrite fold_left_app.
  generalize (fold_left (fun acc b => 10 * acc + (b - 48)) l1 0). intros acc.
  assert (Hgen : forall l a, fold_left (fun acc b => 10 * acc + (b - 48)) l a =
    a * 10 ^ Z.of_nat (length l) + fold_left (fun acc b => 10 * acc + (b - 48)) l 0).
  { clear. induction l as [|b l IH]; intros a; simpl fold_left.
    - simpl. lia.
    - rewrite IH, (IH (10 * 0 + (b - 48))). rewrite length_cons, Nat2Z.inj_succ, Z.pow_succ_r by lia.
      lia. }
  apply Hgen.
Qed.

Lemma digits_value_bound l :
  forallb is_ascii_digit l = true -> 0 <= digits_value l < 10 ^ Z.of_nat (length l).
Proof.
  induction l as [|b l IH]; simpl forallb; [done|].
  intros [Hb Hl]%andb_true_iff.
  change (b :: l) with ([b] ++ l). rewrite digits_value_app, length_app, Nat2Z.inj_add.
  simpl length. rewrite Z.pow_add_r by lia. specialize (IH Hl).
  unfold is_ascii_digit in Hb. apply andb_true_iff in Hb as [?%Z.leb_le ?%Z.leb_le].
  change (digits_value [b]) with (10 * 0 + (b - 48)).
  change (Z.of_nat 1) with 1. rewrite Z.pow_1_r. nia.
Qed.

(** ** Splitting and parsing integers *)

(** [s.split(c)] on a one-byte separator: one part more than separators. *)
Fixpoint split_on (c : Z) (l : bytes) : list bytes :=
  match l with
  | [] => [[]]
  | b :: l =>
      if b =? c then [] :: split_on c l
      else
        match split_on c l with
        | part :: parts => (b :: part) :: parts
        | [] => [[b]]
        end
  end.

(** [s.split_once(c)]. *)
Fixpoint split_once (c : Z) (l : bytes) : option (bytes * bytes) :=
  match l with
  | [] => None
  | b :: l =>
      if b =? c then Some ([], l)
      else '(before, after) ← split_once c l; Some (b :: before, after)
  end.

(** The value of a hexadecimal digit. *)
Definition hex_digit (b : Z) : option Z :=
  if is_ascii_digit b then Some (b - 48)
  else if (97 <=? b) && (b <=? 102) then Some (b - 87)
  else if (65 <=? b) && (b <=? 70) then Some (b - 55)
  else None.

Definition dec_digit (b : Z) : option Z :=
  if is_ascii_digit b then Some (b - 48) else None.

(** The digits of an unsigned number, most significant first. *)
Fixpoint radix_value (radix : Z) (digit : Z -> option Z) (acc : Z) (l : bytes) : option Z :=
  match l with
  | [] => Some acc
  | b :: l => d ← digit b; radix_value radix digit (radix * acc + d) l
  end.

(** [uN::from_str_radix(s, radix)] and [s.parse::<uN>()]: an optional plus
    sign, at least one digit, and a value that fits [max]. *)
Definition parse_unsigned (radix : Z) (digit : Z -> option Z) (max : Z) (l : bytes) : option Z :=
  let digits := match l with 43 :: rest => rest | _ => l end in
  if bool_decide (digits = []) then None
  else
    v ← radix_value radix digit 0 digits;
    if v <=? max then Some v else None.

Definition parse_dec (max : Z) (l : bytes) : option Z := parse_unsigned 10 dec_digit max l.
Definition parse_hex (max : Z) (l : bytes) : option Z := parse_unsigned 16 hex_digit max l.

(** [s.strip_prefix(p)]. *)
Definition strip_prefix (p l : bytes) : option bytes :=
  if bytes_prefix p l then Some (drop (length p) l) else None.

(** [std::str::from_utf8] accepts the byte string (Unicode, table 3-7). *)
Definition is_cont (b : Z) : bool := (128 <=? b) && (b <=? 191).

Fixpoint utf8_valid (l : bytes) : bool :=
  match l with
  | [] => true
  | b1 :: l1 =>
      if b1 <? 128 then utf8_valid l1
      else if b1 <? 194 then false
      else if b1 <? 224 then
        match l1 with b2 :: l2 => is_cont b2 && utf8_valid l2 | _ => false end
      else if b1 <? 240 then
        match l1 with
        | b2 :: b3 :: l3 =>
            is_cont b2 && is_cont b3 &&
            negb ((b1 =? 224) && (b2 <? 160)) && negb ((b1 =? 237) && (159 <? b2)) &&
            utf8_valid l3
        | _ => false
        end
      else if b1 <? 245 then
        match l1 with
        | b2 :: b3 :: b4 :: l4 =>
            is_cont b2 && is_cont b3 && is_cont b4 &&
            negb ((b1 =? 240) && (b2 <? 144)) && negb ((b1 =? 244) && (143 <? b2)) &&
            utf8_valid l4
        | _ => false
        end
      else false
  end.

(** [text.trim_end_matches('\0')]. *)
Fixpoint trim_end_nul (l : bytes) : bytes :=
  match l with
  | [] => []
  | b :: rest =>
      match trim_end_nul rest with
      | [] => if b =? 0 then [] else [b]
      | rest' => b :: rest'
      end
  end.

Lemma hex_digit_range b d : hex_digit b = Some d -> 0 <= d < 16.
Proof.
  unfold hex_digit, is_ascii_digit. intros H.
  repeat case_match; simplify_eq/=;
    repeat match goal with E : _ && _ = true |- _ => apply andb_true_iff in E as [?%Z.leb_le ?%Z.leb_le] end; lia.
Qed.

Lemma dec_digit_range b d : dec_digit b = Some d -> 0 <= d < 10.
Proof.
  unfold dec_digit, is_ascii_digit. intros H. case_match; simplify_eq/=.
  match goal with E : _ && _ = true |- _ => apply andb_true_iff in E as [?%Z.leb_le ?%Z.leb_le] end. lia.
Qed.

Lemma radix_value_nonneg radix digit acc l v :
  0 <= radix -> (forall b d, digit b = Some d -> 0 <= d) -> 0 <= acc ->
  radix_value radix digit acc l = Some v -> 0 <= v.
Proof.
  intros Hr Hd. revert acc. induction l as [|b l IH]; intros acc Ha; simpl.
  - congruence.
  - destruct (digit b) as [d|] eqn:E; simpl; [|done].
    apply IH. apply Hd in E. nia.
Qed.

Lemma parse_dec_range max l v : parse_dec max l = Some v -> 0 <= v <= max.
Proof.
  unfold parse_dec, parse_unsigned. intros H.
  case_bool_decide; [done|].
  destruct (radix_value _ _ _ _) as [x|] eqn:E; simpl in H; [|done].
  apply radix_value_nonneg in E; [|lia| |lia].
  - destruct (Z.leb_spec x max); simplify_eq. lia.
  - intros b d Hd%dec_digit_range. lia.
Qed.

Lemma parse_hex_range max l v : parse_hex max l = Some v -> 0 <= v <= max.
Proof.
  unfold parse_hex, parse_unsigned. intros H.
  case_bool_decide; [done|].
  destruct (radix_value _ _ _ _) as [x|] eqn:E; simpl in H; [|done].
  apply radix_value_nonneg in E; [|lia| |lia].
  - destruct (Z.leb_spec x max); simplify_eq. lia.
  - intros b d Hd%hex_digit_range. lia.
Qed.

Example split_ex : split_on 58 (str_bytes "a:bc:") = [str_bytes "a"; str_bytes "bc"; []].
Proof. reflexivity. Qed.
Example trim_ex : str_trim "  x y  " = "x y"%string.
Proof. reflexivity. Qed.
Example parse_plus : parse_hex 255 (str_bytes "+f") = Some 15 /\ parse_hex 255 (str_bytes "+") = None.
Proof. done. Qed.

(** ** Printing a number and reading it back *)

Lemma dec_digit_char d : 0 <= d < 10 -> dec_digit (48 + d) = Some d.
Proof.
  intros. unfold dec_digit, is_ascii_digit.
  rewrite (proj2 (Z.leb_le _ _)), (proj2 (Z.leb_le _ _)) by lia. simpl. f_equal. lia.
Qed.

Lemma radix_value_digits fuel n acc :
  0 <= n < 2 ^ Z.of_nat fuel -> (0 < fuel)%nat ->
  radix_value 10 dec_digit 0 (dec_digits fuel n acc) = radix_value 10 dec_digit n acc.
Proof.
  revert n acc. induction fuel as [|fuel IH]; intros n acc Hn Hf; [lia|].
  pose proof (Z.mod_pos_bound n 10 ltac:(lia)) as Hm.
  pose proof (Z.div_mod n 10 ltac:(lia)) as Hd.
  cbn [dec_digits]. destruct (Z.ltb_spec n 10) as [Hlt|Hge].
  - cbn [radix_value]. rewrite dec_digit_char by lia. simpl mbind.
    by rewrite Z.mod_small by lia.
  - assert (Hn' : 0 <= n / 10 < 2 ^ Z.of_nat fuel).
    { rewrite Nat2Z.inj_succ, Z.pow_succ_r in Hn by lia. lia. }
    rewrite IH; [|done|destruct fuel; [simpl in Hn'; lia | lia]].
    cbn [radix_value]. rewrite dec_digit_char by lia. simpl mbind. f_equal. lia.
Qed.

Lemma dec_bytes_value n :
  0 <= n -> radix_value 10 dec_digit 0 (dec_bytes n) = Some n.
Proof.
  intros Hn. unfold dec_bytes. rewrite radix_value_digits; [done| |lia].
  rewrite Nat2Z.inj_succ, Z2Nat.id by apply Z.log2_nonneg.
  destruct (decide (n = 0)) as [->|]; [simpl; lia|].
  pose proof (Z.log2_spec n ltac:(lia)). lia.
Qed.

Lemma dec_digits_ascii fuel n acc :
  0 <= n -> Forall (fun b => is_ascii_digit b = true) acc ->
  Forall (fun b => is_ascii_digit b = true) (dec_digits fuel n acc).
Proof.
  revert n acc. induction fuel as [|fuel IH]; intros n acc Hn Hacc; cbn [dec_digits]; [done|].
  pose proof (Z.mod_pos_bound n 10 ltac:(lia)).
  assert (is_ascii_digit (48 + n mod 10) = true).
  { unfold is_ascii_digit. rewrite andb_true_iff, !Z.leb_le. lia. }
  destruct (n <? 10); [by constructor|].
  apply IH; [apply Z.div_pos; lia | by constructor].
Qed.

Lemma dec_bytes_ascii n :
  0 <= n -> Forall (fun b => is_ascii_digit b = true) (dec_bytes n).
Proof. intros. by apply dec_digits_ascii. Qed.

Lemma dec_digits_length fuel n acc :
  (length acc <= length (dec_digits fuel n acc))%nat.
Proof.
  revert n acc; induction fuel as [|fuel IH]; intros n acc; cbn [dec_digits]; [lia|].
  destruct (n <? 10); [simpl; lia|].
  specialize (IH (n / 10) ((48 + n mod 10) :: acc)). simpl in IH. lia.
Qed.

Lemma dec_bytes_nonempty n : dec_bytes n <> [].
Proof.
  unfold dec_bytes. cbn [dec_digits].
  destruct (n <? 10); [done|]. intros H.
  pose proof (dec_digits_length (Z.to_nat (Z.log2 n)) (n / 10) [48 + n mod 10]) as Hl.
  rewrite H in Hl. simpl in Hl. lia.
Qed.

Lemma is_ascii_digit_ok b : is_ascii_digit b = true -> byte_ok b /\ b <> 43 /\ b <> 58.
Proof.
  unfold is_ascii_digit, byte_ok. rewrite andb_true_iff, !Z.leb_le. lia.
Qed.

Lemma dec_bytes_ok n : 0 <= n -> bytes_ok (dec_bytes n).
Proof.
  intros H%dec_bytes_ascii. eapply Forall_impl; [|exact H].
  intros b Hb. by apply is_ascii_digit_ok in Hb as (? & ? & ?).
Qed.

(** Reading back a printed number. *)
Lemma parse_dec_bytes n max : 0 <= n <= max -> parse_dec max (dec_bytes n) = Some n.
Proof.
  intros Hn. unfold parse_dec, parse_unsigned.
  assert (Hstrip : match dec_bytes n with 43 :: rest => rest | _ => dec_bytes n end = dec_bytes n).
  { pose proof (dec_bytes_ascii n ltac:(lia)) as Ha.
    destruct (dec_bytes n) as [|b l]; [done|]. apply Forall_cons_iff in Ha as [Hb _].
    apply is_ascii_digit_ok in Hb as (_ & Hb & _).
    repeat (case_match; try done). }
  rewrite Hstrip, bool_decide_false by apply dec_bytes_nonempty.
  rewrite dec_bytes_value by lia. simpl. by rewrite (proj2 (Z.leb_le _ _)) by lia.
Qed.

Lemma split_on_app c l1 l2 :
  Forall (fun b => b <> c) l1 -> split_on c (l1 ++ c :: l2) = l1 :: split_on c l2.
Proof.
  induction 1 as [|b l1 Hb _ IH]; simpl; [by rewrite Z.eqb_refl|].
  rewrite (proj2 (Z.eqb_neq _ _)), IH by done. done.
Qed.

Lemma split_on_none c l : Forall (fun b => b <> c) l -> split_on c l = [l].
Proof.
  induction 1 as [|b l Hb _ IH]; simpl; [done|].
  by rewrite (proj2 (Z.eqb_neq _ _)), IH by done.
Qed.

Lemma split_once_app c l1 l2 :
  Forall (fun b => b <> c) l1 -> split_once c (l1 ++ c :: l2) = Some (l1, l2).
Proof.
  induction 1 as [|b l1 Hb _ IH]; simpl; [by rewrite Z.eqb_refl|].
  rewrite (proj2 (Z.eqb_neq _ _)), IH by done. done.
Qed.

Lemma dec_bytes_no_colon n : 0 <= n -> Forall (fun b => b <> 58) (dec_bytes n).
Proof.
  intros H%dec_bytes_ascii. eapply Forall_impl; [|exact H].
  intros b Hb. by apply is_ascii_digit_ok in Hb as (? & ? & ?).
Qed.

(** A text of digits parses to its value when that fits. *)
Lemma radix_value_ascii l acc :
  Forall (fun b => is_ascii_digit b = true) l ->
  radix_value 10 dec_digit acc l = Some (fold_left (fun acc b => 10 * acc + (b - 48)) l acc).
Proof.
  intros H. revert acc. induction H as [|b l Hb H IH]; intros acc; simpl; [done|].
  unfold dec_digit. rewrite Hb. simpl. apply IH.
Qed.

Lemma parse_dec_digits max l :
  l <> [] -> Forall (fun b => is_ascii_digit b = true) l ->
  parse_dec max l = if digits_value l <=? max then Some (digits_value l) else None.
Proof.
  intros Hne Hl. unfold parse_dec, parse_unsigned.
  assert (Hstrip : match l with 43 :: rest => rest | _ => l end = l).
  { destruct l as [|b l]; [done|]. apply Forall_cons_iff in Hl as [Hb _].
    apply is_ascii_digit_ok in Hb as (_ & Hb & _). repeat (case_match; try done). }
  rewrite Hstrip, bool_decide_false by done. by rewrite radix_value_ascii.
Qed.
