(* ===== verification/Floats.v ===== *)
(** IEEE 754 arithmetic as Rust's [f32] and [f64] define it.

    Values are the Standard Library's [spec_float]: signed zeros, infinities,
    one NaN (the payload is not tracked) and canonical finite numbers
    [(-1)^s * m * 2^e].  Every operation rounds to nearest even at the
    precision of its type (53 bits for [f64], 24 for [f32]); the casts, the
    fused multiply-add, the bit patterns and decimal parsing, which the
    Standard Library does not have, are defined here.  The second half proves
    the facts about exactly representable numbers the protocol codecs rely on. *)

From Stdlib Require Import ZArith Lia SpecFloat.
From S2P Require Import Prelude RustStr.

Open Scope Z_scope.

Abbreviation f64 := spec_float.
Abbreviation f32 := spec_float (only parsing).

(** ** Arithmetic on [f64] *)

Definition f64_add : f64 -> f64 -> f64 := SFadd 53 1024.
Definition f64_sub : f64 -> f64 -> f64 := SFsub 53 1024.
Definition f64_mul : f64 -> f64 -> f64 := SFmul 53 1024.
Definition f64_div : f64 -> f64 -> f64 := SFdiv 53 1024.
Definition f64_sqrt : f64 -> f64 := SFsqrt 53 1024.
Definition f64_neg : f64 -> f64 := SFopp.
Definition f64_abs : f64 -> f64 := SFabs.

Definition f64_lt (x y : f64) : bool := SFltb x y.
Definition f64_le (x y : f64) : bool := SFleb x y.
Definition f64_gt (x y : f64) : bool := SFltb y x.
Definition f64_ge (x y : f64) : bool := SFleb y x.
Definition f64_eq (x y : f64) : bool := SFeqb x y.

Definition f64_zero : f64 := S754_zero false.
Definition f64_infinity : f64 := S754_infinity false.
Definition f64_neg_infinity : f64 := S754_infinity true.

(** [x.is_finite()]. *)
Definition is_finite (x : spec_float) : bool :=
  match x with
  | S754_zero _ | S754_finite _ _ _ => true
  | S754_infinity _ | S754_nan => false
  end.

(** [i as f64] for an integer [i]. *)
Definition f64_of_Z (z : Z) : f64 := binary_normalize 53 1024 z 0 false.

Definition f64_one : f64 := f64_of_Z 1.

(** [f64::EPSILON], that is [2^-52]. *)
Definition f64_epsilon : f64 := binary_normalize 53 1024 1 (-52) false.

(** [x.mul_add(y, z)]: one rounding of the exact [x * y + z]. *)
Definition f64_mul_add (x y z : f64) : f64 :=
  match x, y with
  | S754_nan, _ | _, S754_nan => S754_nan
  | S754_infinity _, S754_zero _ | S754_zero _, S754_infinity _ => S754_nan
  | S754_infinity sx, S754_infinity sy
  | S754_infinity sx, S754_finite sy _ _
  | S754_finite sx _ _, S754_infinity sy => f64_add (S754_infinity (xorb sx sy)) z
  | S754_zero sx, S754_zero sy
  | S754_zero sx, S754_finite sy _ _
  | S754_finite sx _ _, S754_zero sy => f64_add (S754_zero (xorb sx sy)) z
  | S754_finite sx mx ex, S754_finite sy my ey =>
      let s := xorb sx sy in
      let m := (mx * my)%positive in
      let e := ex + ey in
      match z with
      | S754_nan => S754_nan
      | S754_infinity _ => z
      | S754_zero _ => binary_round_aux 53 1024 s (Zpos m) e loc_Exact
      | S754_finite sz mz ez =>
          let e0 := Z.min e ez in
          binary_normalize 53 1024
            (cond_Zopp s (Zpos m * 2 ^ (e - e0)) + cond_Zopp sz (Zpos mz * 2 ^ (ez - e0)))
            e0 false
      end
  end.

(** [x.min(y)] and [x.max(y)]: a NaN operand is ignored. *)
Definition f64_min (x y : f64) : f64 :=
  match x, y with
  | S754_nan, _ => y
  | _, S754_nan => x
  | _, _ => if SFltb y x then y else x
  end.

Definition f64_max (x y : f64) : f64 :=
  match x, y with
  | S754_nan, _ => y
  | _, S754_nan => x
  | _, _ => if SFltb x y then y else x
  end.

(** [x.clamp(lo, hi)]; [None] is the panic of [assert!(lo <= hi)]. *)
Definition f64_clamp (x lo hi : f64) : option f64 :=
  if SFleb lo hi then
    let x := if SFltb x lo then lo else x in
    Some (if SFltb hi x then hi else x)
  else None.

(** ** Integer parts *)

(** The integer part of a finite number, towards zero. *)
Definition trunc_Z (s : bool) (m : positive) (e : Z) : Z :=
  cond_Zopp s (if 0 <=? e then Zpos m * 2 ^ e else Zpos m / 2 ^ (- e)).

Definition f64_trunc (x : f64) : f64 :=
  match x with
  | S754_finite s m e =>
      if 0 <=? e then x else binary_normalize 53 1024 (trunc_Z s m e) 0 s
  | _ => x
  end.

(** [x.fract()]. *)
Definition f64_fract (x : f64) : f64 := f64_sub x (f64_trunc x).

(** [x.floor()], [x.ceil()] and [x.round()] (half away from zero). *)
Definition f64_floor (x : f64) : f64 :=
  match x with
  | S754_finite s m e =>
      if 0 <=? e then x
      else binary_normalize 53 1024 (cond_Zopp s (Zpos m) / 2 ^ (- e)) 0 s
  | _ => x
  end.

Definition f64_ceil (x : f64) : f64 :=
  match x with
  | S754_finite s m e =>
      if 0 <=? e then x
      else binary_normalize 53 1024 (- (cond_Zopp (negb s) (Zpos m) / 2 ^ (- e))) 0 s
  | _ => x
  end.

Definition f64_round (x : f64) : f64 :=
  match x with
  | S754_finite s m e =>
      if 0 <=? e then x
      else binary_normalize 53 1024
             (cond_Zopp s ((2 * Zpos m + 2 ^ (- e)) / 2 ^ (1 - e))) 0 s
  | _ => x
  end.

(** [x as iN] and [x as uN]: saturating, NaN goes to zero. *)
Definition f64_as_int (lo hi : Z) (x : f64) : Z :=
  match x with
  | S754_nan => 0
  | S754_zero _ => 0
  | S754_infinity s => if s then lo else hi
  | S754_finite s m e => Z.max lo (Z.min hi (trunc_Z s m e))
  end.

Definition f64_as_i64 : f64 -> Z := f64_as_int (i_min 64) (i_max 64).

(** ** Casts between the two widths *)

(** [x as f64] for an [f32]: exact. *)
Definition f64_of_f32 (x : f32) : f64 :=
  match x with
  | S754_finite s m e => binary_round 53 1024 s m e
  | _ => x
  end.

(** [x as f32] for an [f64]: rounds, overflowing to an infinity. *)
Definition f32_of_f64 (x : f64) : f32 :=
  match x with
  | S754_finite s m e => binary_round 24 128 s m e
  | _ => x
  end.

(** ** Bit patterns

    [prec] and [emax] are the format's; the mantissa field has [prec - 1] bits
    and the exponent field [log2 emax + 1]. *)

Section Bits.
Variable prec emax : Z.

Definition mantissa_span : Z := 2 ^ (prec - 1).
Definition exponent_span : Z := 2 * emax.

(** [from_bits]. *)
Definition float_from_bits (bits : Z) : spec_float :=
  let s := mantissa_span * exponent_span <=? bits in
  let exponent := (bits / mantissa_span) mod exponent_span in
  let mantissa := bits mod mantissa_span in
  if exponent =? 0 then
    match mantissa with
    | Zpos m => S754_finite s m (emin prec emax)
    | _ => S754_zero s
    end
  else if exponent =? exponent_span - 1 then
    if mantissa =? 0 then S754_infinity s else S754_nan
  else
    match mantissa + mantissa_span with
    | Zpos m => S754_finite s m (exponent + emin prec emax - 1)
    | _ => S754_nan
    end.

(** [to_bits]; a NaN is rendered as the default quiet NaN. *)
Definition float_to_bits (x : spec_float) : Z :=
  let sign (s : bool) := if s then mantissa_span * exponent_span else 0 in
  match x with
  | S754_zero s => sign s
  | S754_infinity s => sign s + (exponent_span - 1) * mantissa_span
  | S754_nan => (exponent_span - 1) * mantissa_span + mantissa_span / 2
  | S754_finite s m e =>
      if mantissa_span <=? Zpos m then
        sign s + (e - emin prec emax + 1) * mantissa_span + (Zpos m - mantissa_span)
      else sign s + Zpos m
  end.
End Bits.

Definition f32_from_bits : Z -> f32 := float_from_bits 24 128.
Definition f32_to_bits : f32 -> Z := float_to_bits 24 128.
Definition f64_from_bits : Z -> f64 := float_from_bits 53 1024.
Definition f64_to_bits : f64 -> Z := float_to_bits 53 1024.

(** ** Decimal literals: [text.parse::<f64>()] *)

(** The correctly rounded [m * 10^e]. *)
Definition f64_of_decimal (m e : Z) : f64 :=
  match m with
  | Zpos _ =>
      if 0 <=? e then f64_of_Z (m * 10 ^ e)
      else
        let '(q, e', l) := SFdiv_core_binary 53 1024 m 0 (10 ^ (- e)) 0 in
        binary_round_aux 53 1024 false q e' l
  | _ => S754_zero false
  end.

(** Split off the longest run of digits. *)
Fixpoint span_digits (l : bytes) : bytes * bytes :=
  match l with
  | b :: l' =>
      if is_ascii_digit b then
        let '(ds, rest) := span_digits l' in (b :: ds, rest)
      else ([], l)
  | [] => ([], [])
  end.

(** The exponent suffix: nothing, or [e] or [E], an optional sign and at least
    one digit. *)
Definition parse_exponent (l : bytes) : option Z :=
  match l with
  | [] => Some 0
  | b :: l =>
      if (b =? 101) || (b =? 69) then
        let '(neg, l) := match l with
          | 43 :: l => (false, l)
          | 45 :: l => (true, l)
          | _ => (false, l)
          end in
        let '(ds, rest) := span_digits l in
        if bool_decide (ds = []) || negb (bool_decide (rest = [])) then None
        else Some (if neg : bool then - digits_value ds else digits_value ds)
      else None
  end.

(** Unsigned decimal literals: digits, an optional fraction, an optional
    exponent, with at least one digit before the exponent. *)
Definition f64_parse (l : bytes) : option f64 :=
  let '(whole, rest) := span_digits l in
  let '(frac, rest) := match rest with
    | 46 :: rest => span_digits rest
    | _ => ([], rest)
    end in
  if bool_decide (whole ++ frac = []) then None
  else
    e ← parse_exponent rest;
    Some (f64_of_decimal (digits_value (whole ++ frac)) (e - Z.of_nat (length frac))).

Example parse_half : f64_parse (str_bytes "0.5") = Some (f64_div f64_one (f64_of_Z 2)).
Proof. vm_compute. reflexivity. Qed.
Example parse_exp : f64_parse (str_bytes "12.5e-1") = Some (f64_div (f64_of_Z 5) (f64_of_Z 4)).
Proof. vm_compute. reflexivity. Qed.
Example parse_rejects : f64_parse (str_bytes "1e") = None /\ f64_parse (str_bytes ".") = None.
Proof. vm_compute. done. Qed.
Example round_away : (f64_as_i64 ∘ f64_round) <$> [f64_div (f64_of_Z 5) (f64_of_Z 2); f64_div (f64_of_Z (-5)) (f64_of_Z 2)] = [3; -3].
Proof. vm_compute. reflexivity. Qed.
Example floor_ceil :
  (f64_as_i64 ∘ f64_floor) <$> [f64_div (f64_of_Z (-5)) (f64_of_Z 2)] = [-3] /\
  (f64_as_i64 ∘ f64_ceil) <$> [f64_div (f64_of_Z 5) (f64_of_Z 2); f64_div (f64_of_Z (-5)) (f64_of_Z 2)] = [3; -2].
Proof. vm_compute. done. Qed.
Example f32_bits : f32_to_bits (f32_of_f64 (f64_of_Z 123)) = 0x42F60000.
Proof. vm_compute. reflexivity. Qed.
Example f64_bits : f64_to_bits (f64_div (f64_of_Z (-1)) (f64_of_Z 10)) = 0xBFB999999999999A.
Proof. vm_compute. reflexivity. Qed.

(** * Facts about exactly representable numbers *)

(** ** Digits *)

Lemma digits2_pos_log2 p : Zpos (digits2_pos p) = Z.log2 (Zpos p) + 1.
Proof.
  induction p as [p IH|p IH|]; simpl digits2_pos; [..|done].
  - rewrite Pos2Z.inj_succ, IH, Pos2Z.inj_xI, Z.log2_succ_double by lia. lia.
  - rewrite Pos2Z.inj_succ, IH, Pos2Z.inj_xO, Z.log2_double by lia. lia.
Qed.

Lemma Zdigits2_log2 z : 0 < z -> Zdigits2 z = Z.log2 z + 1.
Proof. destruct z; [lia| |lia]. intros. apply digits2_pos_log2. Qed.

Lemma Zdigits2_shift m k : 0 < m -> 0 <= k -> Zdigits2 (m * 2 ^ k) = Zdigits2 m + k.
Proof.
  intros. rewrite !Zdigits2_log2 by nia.
  rewrite Z.log2_mul_pow2 by lia. lia.
Qed.

Lemma digits_bounds m :
  0 < m -> 2 ^ (Zdigits2 m - 1) <= m < 2 ^ Zdigits2 m.
Proof.
  intros. rewrite Zdigits2_log2 by done.
  pose proof (Z.log2_spec m ltac:(lia)) as Hs.
  rewrite Z.add_simpl_r. replace (Z.log2 m + 1) with (Z.succ (Z.log2 m)) by lia. lia.
Qed.

Lemma digits_pos m : 0 < m -> 1 <= Zdigits2 m.
Proof. intros. rewrite Zdigits2_log2 by done. pose proof (Z.log2_nonneg m). lia. Qed.

(** ** Shifting out zeros *)

Lemma iter_pos_nat {A} (f : A -> A) p x : SpecFloat.iter_pos f p x = Nat.iter (Pos.to_nat p) f x.
Proof.
  revert x; induction p as [p IH|p IH|]; intros x; simpl SpecFloat.iter_pos.
  - rewrite !IH, Pos2Nat.inj_xI, Nat.iter_succ_r.
    simpl. by rewrite Nat.add_0_r, Nat.iter_add.
  - rewrite !IH, Pos2Nat.inj_xO. simpl.
    by rewrite Nat.add_0_r, Nat.iter_add.
  - done.
Qed.

Definition exact_record (m : Z) : shr_record :=
  {| shr_m := m; shr_r := false; shr_s := false |}.

Lemma shr_1_even m : 0 < m -> shr_1 (exact_record (2 * m)) = exact_record m.
Proof. destruct m; [lia| |lia]. done. Qed.

Lemma iter_shr_1 n m :
  0 < m -> Nat.iter n shr_1 (exact_record (m * 2 ^ Z.of_nat n)) = exact_record m.
Proof.
  intros Hm. induction n as [|n IH].
  - simpl. by rewrite Z.mul_1_r.
  - rewrite Nat.iter_succ_r. rewrite Nat2Z.inj_succ, Z.pow_succ_r by lia.
    replace (m * (2 * 2 ^ Z.of_nat n)) with (2 * (m * 2 ^ Z.of_nat n)) by lia.
    rewrite shr_1_even by nia. apply IH.
Qed.

Lemma shr_exact m e k :
  0 < m -> 0 <= k -> shr (exact_record (m * 2 ^ k)) e k = (exact_record m, e + k).
Proof.
  intros Hm Hk. destruct k as [|p|p]; [|unfold shr|lia].
  - simpl. by rewrite Z.mul_1_r, Z.add_0_r.
  - rewrite iter_pos_nat. f_equal.
    rewrite <- (positive_nat_Z p). by apply iter_shr_1.
Qed.

(** ** Rounding a representable number is the identity *)

Lemma bounded_spec prec emax m e :
  bounded prec emax m e = true <->
  fexp prec emax (Zdigits2 (Zpos m) + e) = e /\ e <= emax - prec.
Proof.
  unfold bounded, canonical_mantissa.
  by rewrite andb_true_iff, Z.eqb_eq, Z.leb_le.
Qed.

Lemma round_aux_exact prec emax s m e k :
  bounded prec emax m e = true -> 0 <= k ->
  binary_round_aux prec emax s (Zpos m * 2 ^ k) (e - k) loc_Exact = S754_finite s m e.
Proof.
  intros [Hc He]%bounded_spec Hk. unfold binary_round_aux, shr_fexp.
  rewrite Zdigits2_shift by lia.
  replace (Zdigits2 (Zpos m) + k + (e - k)) with (Zdigits2 (Zpos m) + e) by lia.
  rewrite Hc. replace (e - (e - k)) with k by lia.
  change (shr_record_of_loc (Zpos m * 2 ^ k) loc_Exact) with (exact_record (Zpos m * 2 ^ k)).
  rewrite shr_exact by lia. simpl shr_m. unfold loc_of_shr_record, exact_record.
  simpl round_nearest_even.
  replace (e - k + k) with e by lia. rewrite Hc, Z.sub_diag.
  simpl. by rewrite (proj2 (Z.leb_le _ _) He).
Qed.

Lemma round_aux_id prec emax s m e :
  bounded prec emax m e = true ->
  binary_round_aux prec emax s (Zpos m) e loc_Exact = S754_finite s m e.
Proof.
  intros H. pose proof (round_aux_exact prec emax s m e 0 H ltac:(lia)) as R.
  by rewrite Z.mul_1_r, Z.sub_0_r in R.
Qed.

Lemma iter_xO_spec m p : Zpos (Pos.iter xO m p) = Zpos m * 2 ^ Zpos p.
Proof.
  induction p using Pos.peano_ind.
  - rewrite Z.pow_1_r. simpl. lia.
  - rewrite Pos.iter_succ, Pos2Z.inj_succ, Z.pow_succ_r by lia.
    rewrite Pos2Z.inj_xO, IHp. lia.
Qed.

Lemma shl_align_spec m e e' :
  exists m' , shl_align m e e' = (m', Z.min e e') /\
    Zpos m' = Zpos m * 2 ^ (e - Z.min e e').
Proof.
  unfold shl_align. destruct (e' - e) as [|p|p] eqn:E.
  - exists m. replace (Z.min e e') with e by lia. rewrite Z.sub_diag, Z.mul_1_r. done.
  - exists m. replace (Z.min e e') with e by lia. rewrite Z.sub_diag, Z.mul_1_r. done.
  - exists (Pos.iter xO m p). replace (Z.min e e') with e' by lia. split; [done|].
    rewrite iter_xO_spec. f_equal. f_equal. lia.
Qed.

(** Rounding [m * 2^e] when it equals the representable [mc * 2^ec]. *)
Lemma binary_round_exact prec emax s m e mc ec k :
  bounded prec emax mc ec = true -> 0 <= k ->
  Zpos m = Zpos mc * 2 ^ k -> e = ec - k ->
  binary_round prec emax s m e = S754_finite s mc ec.
Proof.
  intros Hb Hk Hm ->. unfold binary_round.
  assert (Hd : Zpos (digits2_pos m) = Zdigits2 (Zpos mc) + k).
  { change (Zpos (digits2_pos m)) with (Zdigits2 (Zpos m)). rewrite Hm.
    apply Zdigits2_shift; lia. }
  rewrite Hd. replace (Zdigits2 (Zpos mc) + k + (ec - k)) with (Zdigits2 (Zpos mc) + ec) by lia.
  pose proof (proj1 (bounded_spec _ _ _ _) Hb) as [Hc _]. rewrite Hc.
  destruct (shl_align_spec m (ec - k) ec) as (m' & -> & Hm').
  replace (Z.min (ec - k) ec) with (ec - k) in * by lia.
  rewrite Hm', Z.sub_diag, Z.mul_1_r, Hm. by apply round_aux_exact.
Qed.

(** Rounding up from fewer digits: the mantissa is shifted left. *)
Lemma binary_round_shl prec emax s m e mc ec k :
  bounded prec emax mc ec = true -> 0 <= k ->
  Zpos mc = Zpos m * 2 ^ k -> ec = e - k ->
  binary_round prec emax s m e = S754_finite s mc ec.
Proof.
  intros Hb Hk Hm ->. unfold binary_round.
  assert (Hd : Zdigits2 (Zpos mc) = Zpos (digits2_pos m) + k).
  { rewrite Hm. by apply Zdigits2_shift. }
  pose proof (proj1 (bounded_spec _ _ _ _) Hb) as [Hc _].
  replace (Zpos (digits2_pos m) + e) with (Zdigits2 (Zpos mc) + (e - k)) by lia.
  rewrite Hc. destruct (shl_align_spec m e (e - k)) as (m' & -> & Hm').
  replace (Z.min e (e - k)) with (e - k) in * by lia.
  replace (Zpos m') with (Zpos mc) by (rewrite Hm, Hm'; f_equal; f_equal; lia).
  by apply round_aux_id.
Qed.

(** ** Integers below [2^53] are exact *)

(** [x] is the canonical binary64 rendering of the nonzero integer [z]. *)
Definition f64_is_int (x : f64) (z : Z) : Prop :=
  exists m e, x = S754_finite (z <? 0) m e /\ bounded 53 1024 m e = true /\
    e <= 0 /\ Zpos m = Z.abs z * 2 ^ (- e).

Lemma f64_pos_exact p s :
  Zpos p < 2 ^ 53 ->
  exists m e, binary_round 53 1024 s p 0 = S754_finite s m e /\
    bounded 53 1024 m e = true /\ e <= 0 /\ Zpos m = Zpos p * 2 ^ (- e).
Proof.
  intros Hp. set (d := Zdigits2 (Zpos p)).
  assert (Hd : 1 <= d <= 53).
  { split; [by apply digits_pos|]. unfold d.
    rewrite Zdigits2_log2 by lia.
    assert (Z.log2 (Zpos p) < 53) by (apply Z.log2_lt_pow2; lia). lia. }
  assert (Hm : exists m, Zpos m = Zpos p * 2 ^ (53 - d)).
  { exists (Z.to_pos (Zpos p * 2 ^ (53 - d))). rewrite Z2Pos.id; [done|].
    apply Z.mul_pos_pos; [lia|]. apply Z.pow_pos_nonneg; lia. }
  destruct Hm as (m & Hm).
  assert (Hb : bounded 53 1024 m (d - 53) = true).
  { apply bounded_spec. rewrite Hm, Zdigits2_shift by lia. fold d.
    unfold fexp, emin. split; lia. }
  exists m, (d - 53). split; [|split; [done|split; [lia|]]].
  - apply (binary_round_shl _ _ _ _ _ _ _ (53 - d)); [done | lia | done | lia].
  - rewrite Hm. f_equal. f_equal. lia.
Qed.

Lemma f64_of_Z_is_int z : z <> 0 -> Z.abs z < 2 ^ 53 -> f64_is_int (f64_of_Z z) z.
Proof.
  intros Hz Hb. unfold f64_is_int, f64_of_Z, binary_normalize.
  destruct z as [|p|p]; [lia|..]; apply (f64_pos_exact p); lia.
Qed.

Lemma cond_Zopp_abs z : cond_Zopp (z <? 0) (Z.abs z) = z.
Proof. unfold cond_Zopp. destruct (Z.ltb_spec z 0); lia. Qed.

Lemma trunc_Z_int z m e :
  e <= 0 -> Zpos m = Z.abs z * 2 ^ (- e) -> trunc_Z (z <? 0) m e = z.
Proof.
  intros He Hm. unfold trunc_Z. rewrite <- (cond_Zopp_abs z) at 2. f_equal.
  destruct (Z.leb_spec 0 e).
  - replace e with 0 in * by lia. simpl in *. lia.
  - rewrite Hm. apply Z.div_mul. lia.
Qed.

(** Saturating casts of an exact integer clamp it to the target's range. *)
Lemma f64_as_int_of_Z lo hi z :
  lo <= hi -> lo <= z <= hi -> Z.abs z < 2 ^ 53 -> f64_as_int lo hi (f64_of_Z z) = z.
Proof.
  intros Hlh Hz Hb. destruct (decide (z = 0)) as [->|Hne]; [done|].
  destruct (f64_of_Z_is_int z Hne Hb) as (m & e & -> & Hbd & He & Hm).
  unfold f64_as_int. rewrite trunc_Z_int by done. lia.
Qed.

Lemma f64_trunc_of_Z z : Z.abs z < 2 ^ 53 -> f64_trunc (f64_of_Z z) = f64_of_Z z.
Proof.
  intros Hb. destruct (decide (z = 0)) as [->|Hne]; [done|].
  destruct (f64_of_Z_is_int z Hne Hb) as (m & e & Heq & Hbd & He & Hm).
  rewrite Heq at 1. unfold f64_trunc. destruct (Z.leb_spec 0 e).
  - by rewrite Heq.
  - rewrite trunc_Z_int by done. unfold f64_of_Z, binary_normalize.
    destruct z; [lia | done | done].
Qed.

Lemma f64_sub_diag x : is_finite x = true -> f64_sub x x = S754_zero false.
Proof.
  destruct x as [s|s| |s m e]; simpl; try done.
  - by destruct s.
  - intros _. by rewrite Z.sub_diag.
Qed.

Lemma is_finite_of_Z z : Z.abs z < 2 ^ 53 -> is_finite (f64_of_Z z) = true.
Proof.
  intros Hb. destruct (decide (z = 0)) as [->|Hne]; [done|].
  by destruct (f64_of_Z_is_int z Hne Hb) as (m & e & -> & _).
Qed.

Lemma f64_fract_of_Z z : Z.abs z < 2 ^ 53 -> f64_fract (f64_of_Z z) = f64_zero.
Proof.
  intros Hb. unfold f64_fract. rewrite f64_trunc_of_Z by done.
  by apply f64_sub_diag, is_finite_of_Z.
Qed.

(** ** Multiplying and dividing by one, adding zero *)

Definition one_mantissa : positive := Z.to_pos (2 ^ 52).

Lemma f64_one_eq : f64_one = S754_finite false one_mantissa (-52).
Proof. vm_compute. reflexivity. Qed.

Lemma one_mantissa_eq : Zpos one_mantissa = 2 ^ 52.
Proof. vm_compute. reflexivity. Qed.

Definition f64_valid (x : f64) : Prop := valid_binary 53 1024 x = true.

Lemma xorb_false_r' b : xorb b false = b.
Proof. by destruct b. Qed.

Lemma f64_mul_add_one x :
  f64_valid x -> is_finite x = true -> x <> S754_zero true ->
  f64_mul_add x f64_one f64_zero = x.
Proof.
  intros Hv Hf Hnz. rewrite f64_one_eq.
  destruct x as [s|s| |s m e]; simpl in Hf; try done.
  - simpl. destruct s; done.
  - unfold f64_mul_add, f64_zero. rewrite xorb_false_r'.
    rewrite Pos2Z.inj_mul, one_mantissa_eq.
    replace (e + -52) with (e - 52) by lia. apply round_aux_exact; [done | lia].
Qed.

Lemma f64_sub_zero x : x <> S754_zero true -> f64_sub x f64_zero = x.
Proof. destruct x as [[]|[]| |[]]; done. Qed.

Lemma fexp_pred d e :
  fexp 53 1024 (d + e) = e -> fexp 53 1024 (d + e - 1) = e \/ fexp 53 1024 (d + e - 1) = e - 1.
Proof. unfold fexp, emin. lia. Qed.

Lemma f64_div_one x : f64_valid x -> is_finite x = true -> f64_div x f64_one = x.
Proof.
  intros Hv Hf. rewrite f64_one_eq.
  destruct x as [s|s| |s m e]; simpl in Hf; try done.
  - by destruct s.
  - pose proof (proj1 (bounded_spec _ _ _ _) Hv) as [Hc _].
    unfold f64_div, SFdiv. rewrite xorb_false_r'.
    unfold SFdiv_core_binary.
    replace (Zdigits2 (Zpos one_mantissa)) with 53 by (vm_compute; reflexivity).
    replace (Zdigits2 (Zpos m) + e - (53 + -52)) with (Zdigits2 (Zpos m) + e - 1) by lia.
    set (e1 := fexp 53 1024 (Zdigits2 (Zpos m) + e - 1)).
    assert (He1 : e1 = e \/ e1 = e - 1) by by apply fexp_pred.
    replace (Z.min e1 (e - -52)) with e1 by lia.
    assert (Hs : 0 < e - -52 - e1) by lia.
    destruct (e - -52 - e1) as [|p|p] eqn:Ep; [lia| |lia].
    rewrite Z.shiftl_mul_pow2 by lia.
    replace (2 ^ Zpos p) with (2 ^ (e - e1) * 2 ^ 52)
      by (rewrite <- Ep, <- Z.pow_add_r by lia; f_equal; lia).
    rewrite Z.mul_assoc, one_mantissa_eq.
    pose proof (Z.div_mul (Zpos m * 2 ^ (e - e1)) (2 ^ 52) ltac:(lia)) as Hq.
    pose proof (Z.mod_mul (Zpos m * 2 ^ (e - e1)) (2 ^ 52) ltac:(lia)) as Hr.
    unfold Z.div in Hq. unfold Z.modulo in Hr.
    destruct (Z.div_eucl (Zpos m * 2 ^ (e - e1) * 2 ^ 52) (2 ^ 52)) as [q r].
    subst q r. change (new_location (2 ^ 52) 0) with loc_Exact.
    replace e1 with (e - (e - e1)) at 2 by lia.
    apply round_aux_exact; [done | lia].
Qed.

Lemma f64_of_Z_valid z : Z.abs z < 2 ^ 53 -> f64_valid (f64_of_Z z).
Proof.
  intros Hb. destruct (decide (z = 0)) as [->|Hne]; [done|].
  by destruct (f64_of_Z_is_int z Hne Hb) as (m & e & -> & ? & _).
Qed.

Lemma f64_of_Z_not_neg_zero z : Z.abs z < 2 ^ 53 -> f64_of_Z z <> S754_zero true.
Proof.
  intros Hb. destruct (decide (z = 0)) as [->|Hne]; [done|].
  by destruct (f64_of_Z_is_int z Hne Hb) as (m & e & -> & ? & _).
Qed.

(** ** Comparison follows the values *)

(** A canonical number with the smaller exponent is the smaller one. *)
Lemma canonical_lt m1 e1 m2 e2 :
  bounded 53 1024 m1 e1 = true -> bounded 53 1024 m2 e2 = true -> e1 < e2 ->
  Zpos m1 < Zpos m2 * 2 ^ (e2 - e1).
Proof.
  intros [H1 _]%bounded_spec [H2 _]%bounded_spec He.
  pose proof (digits_bounds (Zpos m1) ltac:(lia)) as [_ Hm1].
  pose proof (digits_bounds (Zpos m2) ltac:(lia)) as [Hm2 _].
  pose proof (digits_pos (Zpos m2) ltac:(lia)).
  unfold fexp, emin in *.
  assert (Hd : Zdigits2 (Zpos m1) <= Zdigits2 (Zpos m2) - 1 + (e2 - e1)) by lia.
  eapply Z.lt_le_trans; [exact Hm1|].
  eapply Z.le_trans; [apply Z.pow_le_mono_r; [lia | exact Hd]|].
  rewrite Z.pow_add_r by lia. apply Z.mul_le_mono_nonneg_r; lia.
Qed.

(** The integer [(-1)^s * m * 2^(e - e0)]. *)
Definition scaled (s : bool) (m : positive) (e e0 : Z) : Z :=
  cond_Zopp s (Zpos m * 2 ^ (e - e0)).

Lemma f64_compare_spec s1 m1 e1 s2 m2 e2 :
  bounded 53 1024 m1 e1 = true -> bounded 53 1024 m2 e2 = true ->
  SFcompare (S754_finite s1 m1 e1) (S754_finite s2 m2 e2) =
  Some (scaled s1 m1 e1 (Z.min e1 e2) ?= scaled s2 m2 e2 (Z.min e1 e2)).
Proof.
  intros H1 H2. unfold scaled, cond_Zopp. simpl.
  assert (P1 : 0 < 2 ^ (e1 - Z.min e1 e2)) by (apply Z.pow_pos_nonneg; lia).
  assert (P2 : 0 < 2 ^ (e2 - Z.min e1 e2)) by (apply Z.pow_pos_nonneg; lia).
  assert (Habs : (Zpos m1 * 2 ^ (e1 - Z.min e1 e2) ?= Zpos m2 * 2 ^ (e2 - Z.min e1 e2)) =
    match e1 ?= e2 with Lt => Lt | Gt => Gt | Eq => Pos.compare_cont Eq m1 m2 end).
  { destruct (Z.compare_spec e1 e2) as [->|Hlt|Hgt].
    - rewrite Z.min_id, Z.sub_diag, !Z.mul_1_r. done.
    - rewrite Z.min_l, Z.sub_diag, Z.mul_1_r by lia.
      apply Z.compare_lt_iff. by apply canonical_lt.
    - rewrite Z.min_r, Z.sub_diag, Z.mul_1_r by lia.
      apply Z.compare_gt_iff. by apply canonical_lt. }
  destruct s1, s2; f_equal.
  - rewrite Z.compare_opp, (Z.compare_antisym (Zpos m1 * _)), Habs.
    by destruct (e1 ?= e2).
  - symmetry. apply Z.compare_lt_iff. nia.
  - symmetry. apply Z.compare_gt_iff. nia.
  - by rewrite Habs.
Qed.

Lemma scaled_int z m e e0 :
  e <= 0 -> Zpos m = Z.abs z * 2 ^ (- e) -> e0 <= e ->
  scaled (z <? 0) m e e0 = z * 2 ^ (- e0).
Proof.
  intros He Hm H0. unfold scaled. rewrite Hm.
  replace (Z.abs z * 2 ^ (- e) * 2 ^ (e - e0)) with (Z.abs z * 2 ^ (- e0))
    by (rewrite <- Z.mul_assoc, <- Z.pow_add_r by lia; do 2 f_equal; lia).
  unfold cond_Zopp. destruct (Z.ltb_spec z 0); nia.
Qed.

Lemma f64_compare_int x y a b :
  f64_is_int x a -> f64_is_int y b -> SFcompare x y = Some (a ?= b).
Proof.
  intros (m1 & e1 & -> & B1 & E1 & M1) (m2 & e2 & -> & B2 & E2 & M2).
  rewrite f64_compare_spec by done. f_equal.
  rewrite !scaled_int by (done || lia).
  set (k := - Z.min e1 e2). assert (0 < 2 ^ k) by (apply Z.pow_pos_nonneg; lia).
  destruct (Z.compare_spec a b) as [->|Hlt|Hgt].
  - apply Z.compare_refl.
  - apply Z.compare_lt_iff. nia.
  - apply Z.compare_gt_iff. nia.
Qed.

(** The bounds of a cast are themselves integers exact in binary64 up to
    rounding; those the range checks use are powers of two or below [2^53]. *)
Lemma f64_compare_of_Z a b :
  Z.abs a < 2 ^ 53 -> Z.abs b < 2 ^ 53 ->
  SFcompare (f64_of_Z a) (f64_of_Z b) = Some (a ?= b).
Proof.
  intros Ha Hb.
  destruct (decide (a = 0)) as [->|Hna]; destruct (decide (b = 0)) as [->|Hnb]; [done|..].
  - destruct (f64_of_Z_is_int b Hnb Hb) as (m & e & -> & _).
    simpl. destruct b; done || lia.
  - destruct (f64_of_Z_is_int a Hna Ha) as (m & e & -> & _).
    simpl. destruct a; done || lia.
  - apply f64_compare_int; by apply f64_of_Z_is_int.
Qed.

Lemma f64_le_of_Z a b :
  Z.abs a < 2 ^ 53 -> Z.abs b < 2 ^ 53 -> f64_le (f64_of_Z a) (f64_of_Z b) = (a <=? b).
Proof.
  intros. unfold f64_le, SFleb. rewrite f64_compare_of_Z by done.
  unfold Z.leb. by destruct (a ?= b).
Qed.

(** Every exact integer lies between the bounds of [i64] and [u64]. *)
Lemma f64_in_i64 z :
  Z.abs z < 2 ^ 53 ->
  f64_le (f64_of_Z (i_min 64)) (f64_of_Z z) = true /\
  f64_le (f64_of_Z z) (f64_of_Z (i_max 64)) = true /\
  f64_le (f64_of_Z z) (f64_of_Z (u_max 64)) = true.
Proof.
  intros Hb. destruct (decide (z = 0)) as [->|Hne]; [vm_compute; done|].
  destruct (f64_of_Z_is_int z Hne Hb) as (m & e & -> & B & E & M).
  set (l := f64_of_Z (i_min 64)). vm_compute in l.
  set (h := f64_of_Z (i_max 64)). vm_compute in h.
  set (u := f64_of_Z (u_max 64)). vm_compute in u.
  subst l h u. unfold f64_le, SFleb.
  rewrite !f64_compare_spec by (done || vm_compute; reflexivity).
  rewrite (Z.min_r 11 e), (Z.min_l e 11), (Z.min_l e 12) by lia.
  rewrite !scaled_int by (done || lia).
  assert (0 < 2 ^ (- e)) by (apply Z.pow_pos_nonneg; lia).
  unfold scaled, cond_Zopp.
  assert (P11 : 2 ^ (11 - e) = 2048 * 2 ^ (- e))
    by (replace (11 - e) with (11 + - e) by lia; rewrite Z.pow_add_r by lia; lia).
  assert (P12 : 2 ^ (12 - e) = 4096 * 2 ^ (- e))
    by (replace (12 - e) with (12 + - e) by lia; rewrite Z.pow_add_r by lia; lia).
  assert (Hz : - 2 ^ 53 < z < 2 ^ 53) by lia.
  split; [|split].
  - rewrite (proj2 (Z.compare_lt_iff _ _)); [done|]. rewrite P11. nia.
  - rewrite (proj2 (Z.compare_lt_iff _ _)); [done|]. rewrite P11. nia.
  - rewrite (proj2 (Z.compare_lt_iff _ _)); [done|]. rewrite P12. nia.
Qed.

(** ** Widening and narrowing *)

Definition f32_valid (x : f32) : Prop := valid_binary 24 128 x = true.

Lemma f32_widen_exact s m e :
  bounded 24 128 m e = true ->
  exists mc k, f64_of_f32 (S754_finite s m e) = S754_finite s mc (e - k) /\
    bounded 53 1024 mc (e - k) = true /\ 0 <= k /\ Zpos mc = Zpos m * 2 ^ k.
Proof.
  intros [Hc He]%bounded_spec. set (d := Zdigits2 (Zpos m)) in *.
  pose proof (digits_pos (Zpos m) ltac:(lia)) as Hd1.
  assert (Hd : 1 <= d <= 24 /\ -149 <= e) by (unfold fexp, emin in *; fold d in Hd1; lia).
  assert (Hm : exists mc, Zpos mc = Zpos m * 2 ^ (53 - d)).
  { exists (Z.to_pos (Zpos m * 2 ^ (53 - d))). rewrite Z2Pos.id; [done|].
    apply Z.mul_pos_pos; [lia|]. apply Z.pow_pos_nonneg; lia. }
  destruct Hm as (mc & Hm).
  assert (Hb : bounded 53 1024 mc (e - (53 - d)) = true).
  { apply bounded_spec. rewrite Hm, Zdigits2_shift by lia. fold d.
    unfold fexp, emin in *. lia. }
  exists mc, (53 - d). split; [|split; [done|split; [lia|done]]].
  apply (binary_round_shl _ _ _ _ _ _ _ (53 - d)); [done | lia | done | done].
Qed.

(** Widening an [f32] and narrowing it again gives it back. *)
Lemma f32_of_f64_of_f32 x : f32_valid x -> f32_of_f64 (f64_of_f32 x) = x.
Proof.
  intros Hv. destruct x as [s|s| |s m e]; [done..|].
  destruct (f32_widen_exact s m e Hv) as (mc & k & -> & _ & Hk & Hm).
  simpl. apply (binary_round_exact _ _ _ _ _ _ _ k); done.
Qed.

Lemma f64_of_f32_valid x : f32_valid x -> f64_valid (f64_of_f32 x).
Proof.
  intros Hv. destruct x as [s|s| |s m e]; [done..|].
  by destruct (f32_widen_exact s m e Hv) as (mc & k & -> & Hb & _).
Qed.

Lemma f64_of_f32_finite x : f32_valid x -> is_finite (f64_of_f32 x) = is_finite x.
Proof.
  intros Hv. destruct x as [s|s| |s m e]; [done..|].
  by destruct (f32_widen_exact s m e Hv) as (mc & k & -> & Hb & _).
Qed.

Lemma f64_of_f32_not_neg_zero x :
  f32_valid x -> x <> S754_zero true -> f64_of_f32 x <> S754_zero true.
Proof.
  intros Hv Hx. destruct x as [s|s| |s m e]; [done..|].
  by destruct (f32_widen_exact s m e Hv) as (mc & k & -> & _).
Qed.

(** ** Bit patterns round trip *)

Section BitsFacts.
Context (prec emax : Z) (Hprec : 1 < prec) (Hemax : prec < emax).

Let M := mantissa_span prec.
Let E := exponent_span emax.

Lemma M_pos : 0 < M.
Proof. unfold M, mantissa_span. apply Z.pow_pos_nonneg; lia. Qed.

Lemma mantissa_fits m e :
  bounded prec emax m e = true ->
  (M <= Zpos m < 2 * M /\ emin prec emax <= e <= emax - prec) \/
  (Zpos m < M /\ e = emin prec emax).
Proof.
  intros [Hc He]%bounded_spec. set (d := Zdigits2 (Zpos m)) in *.
  pose proof (digits_bounds (Zpos m) ltac:(lia)) as [Hlo Hhi]. fold d in Hlo, Hhi.
  assert (HM : 2 * M = 2 ^ prec).
  { unfold M, mantissa_span. rewrite <- Z.pow_succ_r by lia. f_equal. lia. }
  assert (Hd : d <= prec) by (unfold fexp in Hc; lia).
  assert (Hup : Zpos m < 2 ^ prec).
  { eapply Z.lt_le_trans; [exact Hhi|]. apply Z.pow_le_mono_r; lia. }
  destruct (Z.le_gt_cases M (Zpos m)); [left|right].
  - split; [lia|]. unfold fexp in Hc. lia.
  - split; [done|]. unfold fexp in Hc.
    assert (d < prec); [|lia].
    apply Z.nle_gt. intros Hge. replace d with prec in Hlo by lia.
    unfold M, mantissa_span in *. lia.
Qed.

(** The three fields of [sign * (E * M) + exponent * M + mantissa]. *)
Lemma fields (s : bool) ex ma :
  0 <= ex < E -> 0 <= ma < M ->
  let bits := (if s then M * E else 0) + ex * M + ma in
  (M * E <=? bits) = s /\ (bits / M) mod E = ex /\ bits mod M = ma /\
  0 <= bits < 2 * (M * E).
Proof.
  intros Hex Hma. pose proof M_pos as HM. cbv zeta.
  assert (0 <= ex * M + ma < M * E) by nia.
  replace ((if s then M * E else 0) + ex * M + ma)
    with (ma + ((if s then E else 0) + ex) * M) by (destruct s; ring).
  rewrite Z.div_add, Z.mod_add, (Z.div_small ma M), (Z.mod_small ma M) by lia.
  split; [destruct s; [apply Z.leb_le | apply Z.leb_gt]; nia|].
  split; [|split; [done | destruct s; nia]].
  rewrite Z.add_0_l. destruct s.
  - replace (E + ex) with (ex + 1 * E) by lia. rewrite Z.mod_add by lia.
    by apply Z.mod_small.
  - by apply Z.mod_small.
Qed.

Lemma float_from_to_bits x :
  valid_binary prec emax x = true -> x <> S754_nan ->
  float_from_bits prec emax (float_to_bits prec emax x) = x.
Proof.
  intros Hv Hn. pose proof M_pos as HM.
  assert (HE : E = 2 * emax) by done.
  unfold float_from_bits, float_to_bits. fold M E.
  destruct x as [s|s| |s m e]; [..|].
  - pose proof (fields s 0 0 ltac:(lia) ltac:(lia)) as F.
    rewrite Z.mul_0_l, !Z.add_0_r in F. destruct F as (-> & -> & -> & _). done.
  - pose proof (fields s (E - 1) 0 ltac:(lia) ltac:(lia)) as F.
    rewrite !Z.add_0_r in F. destruct F as (-> & -> & -> & _).
    rewrite (proj2 (Z.eqb_neq (E - 1) 0)), Z.eqb_refl by lia. done.
  - done.
  - apply mantissa_fits in Hv as [[Hm He]|[Hm ->]].
    + rewrite (proj2 (Z.leb_le _ _)) by lia.
      assert (Hmin : emin prec emax = 3 - emax - prec) by done.
      pose proof (fields s (e - emin prec emax + 1) (Zpos m - M) ltac:(lia) ltac:(lia)) as F.
      destruct F as (-> & -> & -> & _).
      rewrite (proj2 (Z.eqb_neq _ 0)), (proj2 (Z.eqb_neq _ (E - 1))) by lia.
      replace (Zpos m - M + M) with (Zpos m) by lia. f_equal. lia.
    + rewrite (proj2 (Z.leb_gt _ _)) by lia.
      pose proof (fields s 0 (Zpos m) ltac:(lia) ltac:(lia)) as F.
      rewrite Z.mul_0_l, !Z.add_0_r in F. destruct F as (-> & -> & -> & _). done.
Qed.

Lemma float_to_bits_range x :
  valid_binary prec emax x = true -> 0 <= float_to_bits prec emax x < 2 * (M * E).
Proof.
  intros Hv. pose proof M_pos as HM.
  assert (HE : E = 2 * emax) by done.
  unfold float_to_bits. fold M E.
  destruct x as [s|s| |s m e]; [..|].
  - destruct s; nia.
  - pose proof (fields s (E - 1) 0 ltac:(lia) ltac:(lia)) as F.
    rewrite !Z.add_0_r in F. apply F.
  - assert (0 <= M / 2 < M) by (split; [apply Z.div_pos; lia | apply Z.div_lt; lia]). nia.
  - apply mantissa_fits in Hv as [[Hm He]|[Hm ->]].
    + rewrite (proj2 (Z.leb_le _ _)) by lia.
      assert (Hmin : emin prec emax = 3 - emax - prec) by done.
      apply (fields s (e - emin prec emax + 1) (Zpos m - M) ltac:(lia) ltac:(lia)).
    + rewrite (proj2 (Z.leb_gt _ _)) by lia. destruct s; nia.
Qed.
End BitsFacts.

Lemma f32_from_to_bits x : f32_valid x -> x <> S754_nan -> f32_from_bits (f32_to_bits x) = x.
Proof. intros. by apply float_from_to_bits. Qed.

Lemma f64_from_to_bits x : f64_valid x -> x <> S754_nan -> f64_from_bits (f64_to_bits x) = x.
Proof. intros. by apply float_from_to_bits. Qed.

Lemma f32_to_bits_range x : f32_valid x -> 0 <= f32_to_bits x < 256 ^ 4.
Proof. intros H. exact (float_to_bits_range 24 128 ltac:(lia) ltac:(lia) x H). Qed.

Lemma f64_to_bits_range x : f64_valid x -> 0 <= f64_to_bits x < 256 ^ 8.
Proof. intros H. exact (float_to_bits_range 53 1024 ltac:(lia) ltac:(lia) x H). Qed.

(** ** Integral numbers *)

(** The finite number [x] is the integer [z]. *)
Definition denotes (x : f64) (z : Z) : Prop :=
  match x with
  | S754_zero _ => z = 0
  | S754_finite s m e => if 0 <=? e then z = cond_Zopp s (Zpos m * 2 ^ e) else z * 2 ^ (- e) = cond_Zopp s (Zpos m)
  | _ => False
  end.

Lemma cond_Zopp_mul s a b : cond_Zopp s (a * b) = cond_Zopp s a * b.
Proof. destruct s; simpl; lia. Qed.

Lemma denotes_trunc s m e z : denotes (S754_finite s m e) z -> trunc_Z s m e = z.
Proof.
  unfold denotes, trunc_Z. destruct (Z.leb_spec 0 e); [done|]. intros Hz.
  assert (0 < 2 ^ (- e)) by (apply Z.pow_pos_nonneg; lia).
  destruct s; simpl in *.
  - replace (Zpos m) with (- z * 2 ^ (- e)) by lia. rewrite Z.div_mul; lia.
  - replace (Zpos m) with (z * 2 ^ (- e)) by lia. rewrite Z.div_mul; lia.
Qed.

Lemma bounded_mantissa m e : bounded 53 1024 m e = true -> Zpos m < 2 ^ 53 /\ -1074 <= e.
Proof.
  intros [Hc _]%bounded_spec. pose proof (digits_bounds (Zpos m) ltac:(lia)) as [_ Hm].
  unfold fexp, emin in Hc. split; [|lia]. eapply Z.lt_le_trans; [exact Hm|].
  apply Z.pow_le_mono_r; lia.
Qed.

(** Truncating an integral number is the identity. *)
Lemma trunc_denotes x z : f64_valid x -> denotes x z -> f64_trunc x = x.
Proof.
  destruct x as [s|s| |s m e]; try done. intros Hv Hd. pose proof (denotes_trunc _ _ _ _ Hd) as Ht.
  unfold f64_trunc, denotes in *. destruct (Z.leb_spec 0 e) as [He|He]; [done|]. rewrite Ht.
  assert (P : 0 < 2 ^ (- e)) by (apply Z.pow_pos_nonneg; lia).
  unfold binary_normalize. destruct z as [|p|p]; destruct s; simpl cond_Zopp in Hd; try lia.
  all: apply (binary_round_shl _ _ _ _ _ _ _ (- e)); [done | lia | lia | lia].
Qed.

(** The fractional part of the others is not zero. *)
Lemma round_nonzero s r e ez :
  0 < r -> r < 2 ^ 53 -> -1074 <= e <= 0 -> ez <= e ->
  exists mc ec, binary_normalize 53 1024 (cond_Zopp s (r * 2 ^ (e - ez))) ez false = S754_finite s mc ec.
Proof.
  intros Hr0 Hr He Hez. set (d := Zdigits2 r). pose proof (digits_bounds r Hr0) as [Hlo Hhi]. fold d in Hlo, Hhi.
  assert (Hd : 1 <= d <= 53).
  { split; [by apply digits_pos|]. destruct (Z.le_gt_cases d 53); [done|]. exfalso.
    assert (2 ^ 53 <= 2 ^ (d - 1)) by (apply Z.pow_le_mono_r; lia). lia. }
  set (ec := Z.max (d + e - 53) (-1074)). assert (Hec : ec <= e) by lia.
  assert (P : 0 < 2 ^ (e - ec)) by (apply Z.pow_pos_nonneg; lia).
  assert (Q : 0 < 2 ^ (e - ez)) by (apply Z.pow_pos_nonneg; lia).
  set (mc := Z.to_pos (r * 2 ^ (e - ec))). assert (Hmc : Zpos mc = r * 2 ^ (e - ec)) by (unfold mc; lia).
  assert (Hb : bounded 53 1024 mc ec = true).
  { apply bounded_spec. rewrite Hmc, Zdigits2_shift by lia. fold d. unfold fexp, emin. lia. }
  set (p := Z.to_pos (r * 2 ^ (e - ez))). assert (Hp : Zpos p = r * 2 ^ (e - ez)) by (unfold p; lia).
  exists mc, ec. rewrite <- Hp.
  replace (binary_normalize 53 1024 (cond_Zopp s (Zpos p)) ez false) with (binary_round 53 1024 s p ez)
    by by destruct s.
  destruct (Z.le_gt_cases ez ec).
  - apply (binary_round_exact _ _ _ _ _ _ _ (ec - ez)); [done | lia | | lia].
    rewrite Hp, Hmc, <- Z.mul_assoc, <- Z.pow_add_r by lia. do 2 f_equal. lia.
  - apply (binary_round_shl _ _ _ _ _ _ _ (ez - ec)); [done | lia | | lia].
    rewrite Hp, Hmc, <- Z.mul_assoc, <- Z.pow_add_r by lia. do 2 f_equal. lia.
Qed.

(** The integer part as a float. *)
Lemma trunc_finite s m e :
  bounded 53 1024 m e = true -> e < 0 ->
  (Zpos m / 2 ^ (- e) = 0 /\ f64_trunc (S754_finite s m e) = S754_zero s) \/
  exists m2 e2, f64_trunc (S754_finite s m e) = S754_finite s m2 e2 /\ e2 <= 0 /\
    Zpos m2 = Zpos m / 2 ^ (- e) * 2 ^ (- e2).
Proof.
  intros Hb He. destruct (bounded_mantissa m e Hb) as [Hm _].
  assert (P : 0 < 2 ^ (- e)) by (apply Z.pow_pos_nonneg; lia).
  unfold f64_trunc, trunc_Z. rewrite (proj2 (Z.leb_gt _ _) He). set (q := Zpos m / 2 ^ (- e)).
  assert (0 <= q) by (apply Z.div_pos; lia). assert (q <= Zpos m) by (apply Z.div_le_upper_bound; nia).
  destruct (decide (q = 0)) as [Hq|Hq]; [left; rewrite Hq; by destruct s | right].
  destruct (f64_of_Z_is_int (cond_Zopp s q)) as (m2 & e2 & Heq & _ & He2 & Hm2).
  { destruct s; simpl; lia. }
  { destruct s; simpl; lia. }
  exists m2, e2. split.
  - replace (cond_Zopp s q <? 0) with s in Heq by (destruct s; simpl; lia).
    rewrite <- Heq. unfold f64_of_Z, binary_normalize. destruct s, q; simpl; done || lia.
  - split; [done|]. rewrite Hm2. f_equal. destruct s; simpl; lia.
Qed.

Lemma fract_zero_denotes x :
  f64_valid x -> is_finite x = true -> f64_eq (f64_fract x) f64_zero = true -> exists z, denotes x z.
Proof.
  destruct x as [s|s| |s m e]; try done; [by exists 0|]. intros Hb _ Hz. unfold denotes.
  destruct (Z.leb_spec 0 e) as [He|He]; [by eexists|].
  change (bounded 53 1024 m e = true) in Hb. destruct (bounded_mantissa m e Hb) as [Hm Hemin].
  assert (P : 0 < 2 ^ (- e)) by (apply Z.pow_pos_nonneg; lia).
  pose proof (Z.div_mod (Zpos m) (2 ^ (- e)) ltac:(lia)) as Hdm.
  pose proof (Z.mod_pos_bound (Zpos m) (2 ^ (- e)) P) as Hr. set (r := Zpos m mod 2 ^ (- e)) in *.
  set (q := Zpos m / 2 ^ (- e)) in *.
  destruct (decide (r = 0)) as [Hr0|Hr0].
  { exists (cond_Zopp s q). rewrite <- cond_Zopp_mul. f_equal. lia. }
  exfalso. unfold f64_fract in Hz.
  destruct (trunc_finite s m e Hb He) as [[_ Ht]|(m2 & e2 & Ht & He2 & Hm2)]; rewrite Ht in Hz; [by destruct s|].
  fold q in Hm2. unfold f64_sub in Hz. cbn [SFsub] in Hz.
  destruct (shl_align_spec m e (Z.min e e2)) as (m' & Hs1 & Hm'). destruct (shl_align_spec m2 e2 (Z.min e e2)) as (m2' & Hs2 & Hm2').
  rewrite Hs1, Hs2 in Hz. cbn [fst] in Hz. set (ez := Z.min e e2) in *.
  replace (Z.min e ez) with ez in * by lia. replace (Z.min e2 ez) with ez in * by lia.
  destruct (round_nonzero s r e ez) as (mc & ec & Hrn); [lia | | lia | lia |].
  { nia. }
  replace (cond_Zopp s (Zpos m') - cond_Zopp s (Zpos m2')) with (cond_Zopp s (r * 2 ^ (e - ez))) in Hz.
  - rewrite Hrn in Hz. by destruct s.
  - assert (E : r * 2 ^ (e - ez) = Zpos m' - Zpos m2').
    { rewrite Hm', Hm2', Hm2, <- Z.mul_assoc, <- Z.pow_add_r by lia.
      replace (- e2 + (e2 - ez)) with (- e + (e - ez)) by lia. rewrite Z.pow_add_r by lia.
      replace r with (Zpos m - 2 ^ (- e) * q) by lia. ring. }
    rewrite E. destruct s; simpl; lia.
Qed.

Lemma denotes_fract x z : f64_valid x -> denotes x z -> f64_eq (f64_fract x) f64_zero = true.
Proof.
  intros Hv Hd. unfold f64_fract. rewrite (trunc_denotes x z) by done.
  rewrite f64_sub_diag; [done|]. by destruct x.
Qed.

(** The range check of an [i64], whose upper bound rounds to [2^63]. *)
Lemma denotes_in_i64 x z :
  f64_valid x -> denotes x z ->
  f64_le (f64_of_Z (i_min 64)) x && f64_le x (f64_of_Z (i_max 64)) = ((- 2 ^ 63 <=? z) && (z <=? 2 ^ 63)).
Proof.
  destruct x as [s|s| |s m e]; try done; [by intros _ ->; destruct s|]. intros Hb Hd.
  change (bounded 53 1024 m e = true) in Hb.
  set (l := f64_of_Z (i_min 64)). vm_compute in l. set (h := f64_of_Z (i_max 64)). vm_compute in h. subst l h.
  unfold f64_le, SFleb. rewrite !f64_compare_spec by (done || vm_compute; reflexivity).
  rewrite (Z.min_comm 11 e). set (e0 := Z.min e 11).
  assert (Hs : forall b, (scaled s m e e0 <= b * 2 ^ (11 - e0) <-> z <= b * 2 ^ 11) /\
                         (b * 2 ^ (11 - e0) <= scaled s m e e0 <-> b * 2 ^ 11 <= z)).
  { intros b. unfold scaled. unfold denotes in Hd. destruct (Z.leb_spec 0 e) as [He|He].
    - assert (P : 0 < 2 ^ e0) by (apply Z.pow_pos_nonneg; lia).
      replace z with (cond_Zopp s (Zpos m * 2 ^ (e - e0)) * 2 ^ e0).
      2: { rewrite Hd, <- cond_Zopp_mul, <- Z.mul_assoc, <- Z.pow_add_r by lia. do 3 f_equal. lia. }
      replace (b * 2 ^ 11) with (b * 2 ^ (11 - e0) * 2 ^ e0).
      2: { rewrite <- Z.mul_assoc, <- Z.pow_add_r by lia. do 2 f_equal. lia. }
      split; by rewrite <- Z.mul_le_mono_pos_r.
    - replace e0 with e by lia. rewrite Z.sub_diag, Z.mul_1_r, <- Hd.
      assert (P : 0 < 2 ^ (- e)) by (apply Z.pow_pos_nonneg; lia).
      replace (11 - e) with (11 + - e) by lia. rewrite Z.pow_add_r, Z.mul_assoc by lia.
      split; by rewrite <- Z.mul_le_mono_pos_r. }
  assert (H1 : scaled true 4503599627370496 11 e0 = - 2 ^ 52 * 2 ^ (11 - e0)) by (unfold scaled; simpl cond_Zopp; lia).
  assert (H2 : scaled false 4503599627370496 11 e0 = 2 ^ 52 * 2 ^ (11 - e0)) by (unfold scaled; simpl cond_Zopp; lia).
  rewrite H1, H2. f_equal.
  - destruct (Hs (- 2 ^ 52)) as [_ Hlo]. apply eq_true_iff_eq. rewrite Z.leb_le.
    rewrite <- (Z.leb_le _ _) in Hlo at 1. unfold Z.leb in Hlo. destruct (_ ?= _); simpl; lia.
  - destruct (Hs (2 ^ 52)) as [Hhi _]. apply eq_true_iff_eq. rewrite Z.leb_le.
    unfold Z.le in Hhi at 1. destruct (_ ?= _); simpl; naive_solver lia.
Qed.

(** The cast of an integral number in the range of the check: [2^63] saturates. *)
Lemma denotes_as_i64 x z : denotes x z -> - 2 ^ 63 <= z <= 2 ^ 63 -> f64_as_i64 x = Z.min z (2 ^ 63 - 1).
Proof.
  intros Hd Hz. unfold f64_as_i64, f64_as_int, i_min, i_max. destruct x as [s|s| |s m e]; try done.
  - simpl in Hd. lia.
  - rewrite (denotes_trunc _ _ _ _ Hd). lia.
Qed.
