(* ===== verification/Json.v ===== *)
(** JSON documents: [serde_json::Value] and the accessors the runtime uses.

    A [Number] is an integer that fits 64 bits or a float.  The keys of an
    object are distinct; what depends on an object is a lookup by key. *)

From Stdlib Require Import ZArith Lia.
From S2P Require Import Prelude RustStr Floats.

Open Scope Z_scope.

Inductive Json :=
| JNull
| JBool (b : bool)
| JInt (z : Z)
| JFloat (x : f64)
| JString (s : string)
| JArray (l : list Json)
| JObject (fields : list (string * Json)).

Definition json_as_str (v : Json) : option string :=
  match v with JString s => Some s | _ => None end.
Definition json_as_bool (v : Json) : option bool :=
  match v with JBool b => Some b | _ => None end.
Definition json_as_array (v : Json) : option (list Json) :=
  match v with JArray l => Some l | _ => None end.
Definition json_as_u64 (v : Json) : option Z :=
  match v with JInt z => if 0 <=? z then Some z else None | _ => None end.
Definition json_as_i64 (v : Json) : option Z :=
  match v with JInt z => if z <=? i_max 64 then Some z else None | _ => None end.
Definition json_as_f64 (v : Json) : option f64 :=
  match v with JInt z => Some (f64_of_Z z) | JFloat x => Some x | _ => None end.

Definition json_lookup (key : string) (fields : list (string * Json)) : option Json :=
  snd <$> find_first (fun field => bool_decide (fst field = key)) fields.

(** [value.get(key)] with a string key. *)
Definition json_get (v : Json) (key : string) : option Json :=
  match v with JObject fields => json_lookup key fields | _ => None end.

(** [==] on values: numbers of different kinds differ, floats compare as
    [f64], objects as maps. *)
Fixpoint json_eqb (a b : Json) : bool :=
  match a, b with
  | JNull, JNull => true
  | JBool x, JBool y => Bool.eqb x y
  | JInt x, JInt y => x =? y
  | JFloat x, JFloat y => f64_eq x y
  | JString x, JString y => bool_decide (x = y)
  | JArray x, JArray y =>
      (fix items x y :=
         match x, y with
         | [], [] => true
         | v :: x, w :: y => json_eqb v w && items x y
         | _, _ => false
         end) x y
  | JObject x, JObject y =>
      bool_decide (length x = length y) &&
      (fix fields x :=
         match x with
         | [] => true
         | (key, v) :: x =>
             match json_lookup key y with Some w => json_eqb v w | None => false end && fields x
         end) x
  | _, _ => false
  end.

(** [value_at] of [crates/edge-runtime/src/command.rs]: empty segments of the
    dotted path are skipped. *)
Definition value_at (document : Json) (path : string) : option Json :=
  fold_left (fun v segment => v ≫= fun v => json_get v (str_of_bytes segment))
    (filter (fun segment => segment <> []) (split_on 46 (str_bytes path))) (Some document).

Definition string_at (document : Json) (path : string) : option string :=
  value_at document path ≫= json_as_str.

(** [valid_json_field_path] of [crates/edge-core/src/config.rs]. *)
Definition valid_json_field_path (path : string) : bool :=
  let path := str_bytes (str_trim path) in
  negb (bool_decide (path = [])) && bool_decide (length path <= 256)%nat &&
  forallb (fun segment => negb (bool_decide (segment = [])) && negb (has_whitespace segment))
    (split_on 46 path).

(** A dotted path is looked up segment by segment. *)
Example value_at_nested :
  value_at (JObject [("values"%string, JObject [("p"%string, JInt 3)])]) "values..p" = Some (JInt 3).
Proof. vm_compute. reflexivity. Qed.
