(* ===== verification/Model.v ===== *)
(** The shared domain contracts of [crates/edge-core]: telemetry values and
    samples, data quality, device and command specifications, algorithm
    specifications and runtime events ([model.rs], [observability.rs]), and the
    device shadow ([shadow.rs]).

    A [DateTime<Utc>] is the number of nanoseconds since the epoch; what
    [Utc::now()] returns is an argument of the operation that calls it. *)

From Stdlib Require Import ZArith Lia SpecFloat.
From S2P Require Import Prelude RustStr Floats.

Open Scope Z_scope.

Abbreviation DateTime := Z (only parsing).

(** [(a - b).num_milliseconds()]: whole milliseconds, towards zero. *)
Definition num_milliseconds (a b : DateTime) : Z := Z.quot (a - b) 1000000.

(** ** Telemetry values *)

Inductive TelemetryType := Ty_Float | Ty_Integer | Ty_Boolean | Ty_Text.

#[export] Instance TelemetryType_eq_dec : EqDecision TelemetryType.
Proof. solve_decision. Defined.

Inductive TelemetryValue :=
| VFloat (x : f64)
| VInteger (i : Z)
| VBoolean (b : bool)
| VText (s : string).

(** [TelemetryValue::as_f64]. *)
Definition as_f64 (v : TelemetryValue) : option f64 :=
  match v with
  | VFloat x => Some x
  | VInteger i => Some (f64_of_Z i)
  | VBoolean _ | VText _ => None
  end.

(** The derived [PartialEq]: floats compare as IEEE numbers. *)
Definition value_eqb (a b : TelemetryValue) : bool :=
  match a, b with
  | VFloat x, VFloat y => f64_eq x y
  | VInteger i, VInteger j => i =? j
  | VBoolean p, VBoolean q => Bool.eqb p q
  | VText s, VText t => bool_decide (s = t)
  | _, _ => false
  end.

Record NumberRange := { range_min : f64; range_max : f64 }.

(** [NumberRange::contains]. *)
Definition range_contains (r : NumberRange) (value : f64) : bool :=
  f64_ge value (range_min r) && f64_le value (range_max r).

(** ** Data quality *)

Inductive DataQuality := Q_Good | Q_Uncertain | Q_Bad.

#[export] Instance DataQuality_eq_dec : EqDecision DataQuality.
Proof. solve_decision. Defined.

Inductive DataQualityCode :=
| QC_Good
| UncertainProtocol
| UncertainLastKnown
| UncertainOutOfRange
| UncertainSubstituted
| UncertainOverflow
| BadCommunication
| BadTimeout
| BadProtocol
| BadDecode
| BadConfiguration
| BadOutOfService.

#[export] Instance DataQualityCode_eq_dec : EqDecision DataQualityCode.
Proof. solve_decision. Defined.

(** [DataQualityCode::quality]. *)
Definition code_quality (c : DataQualityCode) : DataQuality :=
  match c with
  | QC_Good => Q_Good
  | UncertainProtocol | UncertainLastKnown | UncertainOutOfRange
  | UncertainSubstituted | UncertainOverflow => Q_Uncertain
  | BadCommunication | BadTimeout | BadProtocol | BadDecode
  | BadConfiguration | BadOutOfService => Q_Bad
  end.

(** [DataQualityCode::default_for]. *)
Definition default_for (q : DataQuality) : DataQualityCode :=
  match q with
  | Q_Good => QC_Good
  | Q_Uncertain => UncertainProtocol
  | Q_Bad => BadProtocol
  end.

(** ** Samples *)

Record TelemetrySample := {
  sample_device_id : string;
  sample_telemetry_id : string;
  sample_value : TelemetryValue;
  sample_quality : DataQuality;
  sample_quality_code : option DataQualityCode;
  sample_timestamp : DateTime;
}.

(** [TelemetrySample::new]. *)
Definition new_sample (device_id telemetry_id : string) (value : TelemetryValue)
    (quality : DataQuality) (timestamp : DateTime) : TelemetrySample :=
  {| sample_device_id := device_id;
     sample_telemetry_id := telemetry_id;
     sample_value := value;
     sample_quality := quality;
     sample_quality_code := Some (default_for quality);
     sample_timestamp := timestamp |}.

(** [TelemetrySample::with_quality_code]. *)
Definition with_quality_code (s : TelemetrySample) (c : DataQualityCode) : TelemetrySample :=
  {| sample_device_id := sample_device_id s;
     sample_telemetry_id := sample_telemetry_id s;
     sample_value := sample_value s;
     sample_quality := code_quality c;
     sample_quality_code := Some c;
     sample_timestamp := sample_timestamp s |}.

(** [TelemetrySample::inherit_quality]. *)
Definition inherit_quality (s source : TelemetrySample) : TelemetrySample :=
  {| sample_device_id := sample_device_id s;
     sample_telemetry_id := sample_telemetry_id s;
     sample_value := sample_value s;
     sample_quality := sample_quality source;
     sample_quality_code := sample_quality_code source;
     sample_timestamp := sample_timestamp s |}.

(** The type invariant of a sample: its code, when it has one, refines its
    quality. *)
Definition quality_consistent (s : TelemetrySample) : Prop :=
  forall c, sample_quality_code s = Some c -> code_quality c = sample_quality s.

Lemma default_for_quality q : code_quality (default_for q) = q.
Proof. by destruct q. Qed.

Lemma new_sample_consistent d t v q ts : quality_consistent (new_sample d t v q ts).
Proof. intros c [= <-]. apply default_for_quality. Qed.

Lemma with_quality_code_consistent s c : quality_consistent (with_quality_code s c).
Proof. by intros c' [= <-]. Qed.

Lemma inherit_quality_consistent s source :
  quality_consistent source -> quality_consistent (inherit_quality s source).
Proof. intros H c Hc. exact (H c Hc). Qed.

#[export] Hint Resolve new_sample_consistent with_quality_code_consistent
  inherit_quality_consistent : vela.

(** ** Device and command specifications *)

Inductive CommandRisk := Low | Medium | High | Critical.

#[export] Instance CommandRisk_eq_dec : EqDecision CommandRisk.
Proof. solve_decision. Defined.

Record CommandParameter := {
  param_id : string;
  param_value_type : TelemetryType;
  param_range : option NumberRange;
}.

Record CommandSpec := {
  cmd_id : string;
  cmd_risk : CommandRisk;
  cmd_parameters : list CommandParameter;
  cmd_requires_confirmation : bool;
}.

(** [CommandSpec::new]. *)
Definition new_command_spec (id : string) (risk : CommandRisk) : CommandSpec :=
  {| cmd_id := id;
     cmd_risk := risk;
     cmd_parameters := [];
     cmd_requires_confirmation :=
       match risk with High | Critical => true | Low | Medium => false end |}.

(** [CommandSpec::with_parameter] and [CommandSpec::requiring_confirmation]. *)
Definition with_parameter (c : CommandSpec) (p : CommandParameter) : CommandSpec :=
  {| cmd_id := cmd_id c; cmd_risk := cmd_risk c;
     cmd_parameters := cmd_parameters c ++ [p];
     cmd_requires_confirmation := cmd_requires_confirmation c |}.

Definition requiring_confirmation (c : CommandSpec) : CommandSpec :=
  {| cmd_id := cmd_id c; cmd_risk := cmd_risk c;
     cmd_parameters := cmd_parameters c; cmd_requires_confirmation := true |}.

Record TelemetryPoint := {
  point_id : string;
  point_value_type : TelemetryType;
  point_unit : option string;
  point_range : option NumberRange;
  point_description : option string;
}.

Inductive EventSeverity := Sev_Info | Sev_Warning | Sev_Critical.

Record EventSpec := { event_id : string; event_severity : EventSeverity }.

Record DeviceSpec := {
  device_type : string;
  spec_version : string;
  spec_telemetry : list TelemetryPoint;
  spec_commands : list CommandSpec;
  spec_events : list EventSpec;
}.

(** [DeviceSpec::telemetry] and [DeviceSpec::command]. *)
Definition spec_telemetry_point (spec : DeviceSpec) (id : string) : option TelemetryPoint :=
  find_first (fun point => bool_decide (point_id point = id)) (spec_telemetry spec).

Definition spec_command (spec : DeviceSpec) (id : string) : option CommandSpec :=
  find_first (fun command => bool_decide (cmd_id command = id)) (spec_commands spec).

Record CommandCandidate := {
  cand_id : string;
  cand_edge_id : string;
  cand_device_id : string;
  cand_command : string;
  cand_parameters : gmap string TelemetryValue;
  cand_requested_by : string;
  cand_confirmation_token : option string;
}.

(** ** Algorithm specifications *)

Inductive CompareOperator := Op_Gt | Op_Gte | Op_Lt | Op_Lte | Op_Eq | Op_Ne.

Inductive AlgorithmKind :=
| ChangeReport
| WindowAggregate
| ExpressionAggregate
| ThresholdRule
| DurationRule
| Deadband
| Debounce
| Statistics.

Inductive AlgorithmTrigger :=
| OnSample
| OnAnyInput
| Window (every_ms : Z).

Inductive WindowAggregateFunction :=
| Avg (output : string)
| Min (output : string)
| Max (output : string)
| Sum (output : string)
| Count (output : string)
| First (output : string)
| Last (output : string).

Record AlgorithmEventOutput := {
  out_code : string;
  out_severity : EventSeverity;
  out_message : string;
}.

Inductive AlgorithmStep :=
| StepChangeFilter (source : string) (threshold : f64)
| StepWindowAggregate (source : string) (functions : list WindowAggregateFunction)
| StepExpression (output expr : string)
| StepScale (source output : string) (factor offset : f64)
| StepClamp (source output : string) (min max : f64)
| StepRateOfChange (source output : string) (per_ms : Z)
| StepDebounce (source : string) (stable_ms : Z)
| StepDurationCondition (source : string) (operator : CompareOperator) (threshold : f64)
    (duration_ms : Z) (output : string)
| StepConditionalRoute (source : string) (operator : CompareOperator) (threshold : f64)
    (matched_output unmatched_output : string)
| StepThresholdRule (source : string) (operator : CompareOperator) (threshold : f64)
    (event : AlgorithmEventOutput).

Record AlgorithmInputBinding := { alias : string; input_point_id : string }.
Record AlgorithmOutput := { output_name : string; output_point_id : string }.

Inductive AlgorithmReportMode := OnOutput | OnChange | WindowResult | EventOnly.
Record AlgorithmReportPolicy := { report_mode : AlgorithmReportMode; report_sink : string }.

Record AlgorithmDsl := {
  dsl_inputs : list AlgorithmInputBinding;
  dsl_trigger : AlgorithmTrigger;
  dsl_steps : list AlgorithmStep;
  dsl_outputs : list AlgorithmOutput;
  dsl_report : AlgorithmReportPolicy;
}.

(** The legacy runtimes [Wasm], [Onnx] and [Python] are read as [Rule]. *)
Inductive AlgorithmRuntime := Runtime_Rule.

Record AlgorithmSpec := {
  algo_id : string;
  algo_version : string;
  algo_kind : AlgorithmKind;
  algo_dsl : AlgorithmDsl;
  algo_runtime : AlgorithmRuntime;
  algo_inputs_field : list string;
  algo_outputs_field : list string;
}.

(** [AlgorithmSpec::inputs] and [AlgorithmSpec::outputs]: the DSL's bindings
    take precedence over the legacy lists. *)
Definition algo_inputs (a : AlgorithmSpec) : list string :=
  match dsl_inputs (algo_dsl a) with
  | [] => algo_inputs_field a
  | inputs => input_point_id <$> inputs
  end.

Definition algo_outputs (a : AlgorithmSpec) : list string :=
  match dsl_outputs (algo_dsl a) with
  | [] => algo_outputs_field a
  | outputs => output_point_id <$> outputs
  end.

(** ** Runtime events *)

Inductive RuntimeEventSeverity := Rt_Info | Rt_Warning | Rt_Critical.
Inductive RuntimeEventCategory :=
  Cat_System | Cat_Protocol | Cat_Collection | Cat_Storage | Cat_Algorithm | Cat_Sync.

Record EdgeRuntimeEvent := {
  ev_edge_id : string;
  ev_severity : RuntimeEventSeverity;
  ev_category : RuntimeEventCategory;
  ev_code : string;
  ev_message : string;
  ev_timestamp : DateTime;
  ev_context : gmap string string;
}.

(** [EdgeRuntimeEvent::new] at the instant [now], and [with_context]. *)
Definition new_event (edge_id : string) (severity : RuntimeEventSeverity)
    (category : RuntimeEventCategory) (code message : string) (now : DateTime)
    : EdgeRuntimeEvent :=
  {| ev_edge_id := edge_id; ev_severity := severity; ev_category := category;
     ev_code := code; ev_message := message; ev_timestamp := now; ev_context := ∅ |}.

Definition event_with_context (e : EdgeRuntimeEvent) (key value : string) : EdgeRuntimeEvent :=
  {| ev_edge_id := ev_edge_id e; ev_severity := ev_severity e;
     ev_category := ev_category e; ev_code := ev_code e; ev_message := ev_message e;
     ev_timestamp := ev_timestamp e; ev_context := <[key := value]> (ev_context e) |}.

(** ** The device shadow *)

Record DeviceShadow := {
  shadow_edge_id : string;
  shadow_device_id : string;
  shadow_updated_at : option DateTime;
  shadow_telemetry : gmap string TelemetrySample;
}.

(** [DeviceShadow::new], [update], [latest] and [latest_value]. *)
Definition new_shadow (edge_id device_id : string) : DeviceShadow :=
  {| shadow_edge_id := edge_id; shadow_device_id := device_id;
     shadow_updated_at := None; shadow_telemetry := ∅ |}.

Definition shadow_update (sh : DeviceShadow) (s : TelemetrySample) : DeviceShadow :=
  {| shadow_edge_id := shadow_edge_id sh; shadow_device_id := shadow_device_id sh;
     shadow_updated_at := Some (sample_timestamp s);
     shadow_telemetry := <[sample_telemetry_id s := s]> (shadow_telemetry sh) |}.

Definition shadow_latest (sh : DeviceShadow) (id : string) : option TelemetrySample :=
  shadow_telemetry sh !! id.

Definition shadow_latest_value (sh : DeviceShadow) (id : string) : option TelemetryValue :=
  sample_value <$> shadow_latest sh id.

(** The abstract contract of a shadow: the last sample of a history that
    carries the identifier. *)
Definition last_with_id (id : string) (history : list TelemetrySample) : option TelemetrySample :=
  find_first (fun s => bool_decide (sample_telemetry_id s = id)) (reverse history).

Lemma shadow_updates_latest sh history id :
  shadow_latest (fold_left shadow_update history sh) id =
  match last_with_id id history with
  | Some s => Some s
  | None => shadow_latest sh id
  end.
Proof.
  revert sh. induction history as [|s history IH] using rev_ind; intros sh; [done|].
  rewrite fold_left_app. unfold last_with_id. rewrite reverse_snoc. simpl.
  unfold shadow_latest, shadow_update at 1. simpl.
  destruct (decide (sample_telemetry_id s = id)) as [<-|Hne].
  - by rewrite lookup_insert_eq, bool_decide_true.
  - rewrite lookup_insert_ne, bool_decide_false by done. apply IH.
Qed.
