(* ===== verification/Policy.v ===== *)
(** The deterministic command gate of [crates/edge-core/src/policy.rs].

    [validate_command] is the code's chain of early returns.  [permitted] is
    what it checks: its specification knows the command, a required confirmation is
    present and every declared parameter is present and, when it has a range, is a
    number of that range; [permitted_iff] proves it.  [policy_gate_safe] says what an
    accepted and what a refused candidate is. *)

From Stdlib Require Import ZArith Lia.
From S2P Require Import Prelude RustStr Floats Model.

Open Scope Z_scope.

Inductive PolicyViolation :=
| UnknownCommand (command : string)
| MissingParameter (parameter : string)
| ParameterNotNumeric (parameter : string)
| ParameterOutOfRange (parameter : string) (value : f64) (range : NumberRange)
| ConfirmationRequired (command : string).

(** The body of the parameter loop; [None] lets the loop go on. *)
Definition check_parameter (candidate : CommandCandidate) (parameter : CommandParameter)
    : option PolicyViolation :=
  match cand_parameters candidate !! param_id parameter with
  | None => Some (MissingParameter (param_id parameter))
  | Some value =>
      match param_range parameter with
      | None => None
      | Some range =>
          match as_f64 value with
          | None => Some (ParameterNotNumeric (param_id parameter))
          | Some number =>
              if negb (range_contains range number)
              then Some (ParameterOutOfRange (param_id parameter) number range)
              else None
          end
      end
  end.

(** [PolicyEngine::validate_command]. *)
Definition validate_command (spec : DeviceSpec) (candidate : CommandCandidate)
    : () + PolicyViolation :=
  match spec_command spec (cand_command candidate) with
  | None => inr (UnknownCommand (cand_command candidate))
  | Some command =>
      if cmd_requires_confirmation command &&
         bool_decide (cand_confirmation_token candidate = None)
      then inr (ConfirmationRequired (cmd_id command))
      else
        match find_map (check_parameter candidate) (cmd_parameters command) with
        | Some violation => inr violation
        | None => inl ()
        end
  end.

(** ** The contract *)

Definition parameter_permitted (candidate : CommandCandidate) (p : CommandParameter) : Prop :=
  exists value, cand_parameters candidate !! param_id p = Some value /\
    (forall range, param_range p = Some range ->
       exists number, as_f64 value = Some number /\ range_contains range number = true).

Definition permitted (spec : DeviceSpec) (candidate : CommandCandidate) : Prop :=
  exists command,
    spec_command spec (cand_command candidate) = Some command /\
    (cmd_requires_confirmation command = true -> is_Some (cand_confirmation_token candidate)) /\
    Forall (parameter_permitted candidate) (cmd_parameters command).

Lemma check_parameter_None candidate p :
  check_parameter candidate p = None <-> parameter_permitted candidate p.
Proof.
  unfold check_parameter, parameter_permitted. split.
  - intros H. repeat case_match; simplify_eq/=; eexists; split; eauto; intros r [= <-]; [].
    eexists; split; [done|]. by apply negb_false_iff.
  - intros (v & -> & Hr). destruct (param_range p) as [r|]; [|done].
    destruct (Hr r eq_refl) as (n & -> & ->). done.
Qed.

Lemma find_map_None {A B} (f : A -> option B) l :
  find_map f l = None <-> Forall (fun x => f x = None) l.
Proof.
  induction l as [|x l IH]; simpl; [by split|].
  rewrite Forall_cons_iff, <- IH. destruct (f x); naive_solver.
Qed.

Lemma check_parameters_None candidate ps :
  find_map (check_parameter candidate) ps = None <-> Forall (parameter_permitted candidate) ps.
Proof.
  rewrite find_map_None. apply Forall_iff. intros p. apply check_parameter_None.
Qed.

Lemma permitted_iff spec candidate :
  validate_command spec candidate = inl () <-> permitted spec candidate.
Proof.
  unfold validate_command, permitted. split.
  - intros H. destruct (spec_command spec _) as [c|] eqn:Ec; [|done].
    destruct (cmd_requires_confirmation c && _) eqn:Eb; [done|].
    destruct (find_map _ _) eqn:Ef; [done|].
    exists c. split; [done|]. split; [|by apply check_parameters_None].
    intros Hr. rewrite Hr in Eb. simpl in Eb.
    apply bool_decide_eq_false in Eb. by apply not_eq_None_Some.
  - intros (c & -> & Hconf & Hps).
    rewrite (proj2 (check_parameters_None _ _) Hps).
    destruct (cmd_requires_confirmation c); simpl; [|done].
    destruct (Hconf eq_refl) as [t ->]. done.
Qed.

(** Specifications the builders of [model.rs] produce. *)
Inductive built_command : CommandSpec -> Prop :=
| built_new id risk : built_command (new_command_spec id risk)
| built_parameter c p : built_command c -> built_command (with_parameter c p)
| built_confirmation c : built_command c -> built_command (requiring_confirmation c).

Lemma built_high_risk c :
  built_command c -> cmd_risk c = High \/ cmd_risk c = Critical ->
  cmd_requires_confirmation c = true.
Proof. induction 1 as [id risk| |]; simpl; [destruct risk; naive_solver | auto | done]. Qed.

(** ** Properties *)

(** What a violation says of the candidate. *)
Definition violated (spec : DeviceSpec) (candidate : CommandCandidate) (violation : PolicyViolation) : Prop :=
  match violation with
  | UnknownCommand id => id = cand_command candidate /\ spec_command spec id = None
  | ConfirmationRequired id =>
      exists command, spec_command spec (cand_command candidate) = Some command /\ cmd_id command = id /\
        cmd_requires_confirmation command = true /\ cand_confirmation_token candidate = None
  | MissingParameter id =>
      exists command, spec_command spec (cand_command candidate) = Some command /\
        id ∈ param_id <$> cmd_parameters command /\ cand_parameters candidate !! id = None
  | ParameterNotNumeric id =>
      exists command parameter value, spec_command spec (cand_command candidate) = Some command /\
        parameter ∈ cmd_parameters command /\ param_id parameter = id /\ is_Some (param_range parameter) /\
        cand_parameters candidate !! id = Some value /\ as_f64 value = None
  | ParameterOutOfRange id number range =>
      exists command parameter value, spec_command spec (cand_command candidate) = Some command /\
        parameter ∈ cmd_parameters command /\ param_id parameter = id /\ param_range parameter = Some range /\
        cand_parameters candidate !! id = Some value /\ as_f64 value = Some number /\
        (f64_le (range_min range) number && f64_le number (range_max range)) = false
  end.

Lemma check_parameter_Some spec candidate command parameter violation :
  spec_command spec (cand_command candidate) = Some command -> parameter ∈ cmd_parameters command ->
  check_parameter candidate parameter = Some violation -> violated spec candidate violation.
Proof.
  intros Hc Hp. unfold check_parameter.
  destruct (cand_parameters candidate !! param_id parameter) as [value|] eqn:Ev.
  - destruct (param_range parameter) as [range|] eqn:Er; [|done].
    destruct (as_f64 value) as [number|] eqn:En; [destruct (range_contains range number) eqn:Ei; [done|]|];
      intros [= <-]; exists command, parameter, value; repeat (split; [done|]); by try eexists.
  - intros [= <-]. exists command. split; [done|]. split; [|done]. apply list_elem_of_fmap. eauto.
Qed.

Lemma find_map_Some {A B} (f : A -> option B) l y : find_map f l = Some y -> exists x, x ∈ l /\ f x = Some y.
Proof.
  induction l as [|x l IH]; [done|]. cbn. destruct (f x) eqn:E; [intros [= <-]; exists x; split; [left | done]|].
  intros (z & Hz & Hf)%IH. exists z. split; [by right | done].
Qed.

(** [C3] What the command gate lets through is safe to send, and what it refuses is
    refused for the reason it names.  For a device whose command specifications come
    from the builders, an accepted candidate names a command of the device, bears a
    confirmation token when the command asks for one, as every command of high or
    critical risk does, and has a value for every declared parameter, a number
    inside its range where it declares one; a violation is an unknown command, a
    missing confirmation or a parameter that is missing, not numeric or out of
    range, in the candidate itself.  The target device and its online state, which
    the design documents also name, are not looked at by the engine (see the
    findings), and nothing is claimed of them. *)
Theorem policy_gate_safe spec candidate :
  Forall built_command (spec_commands spec) ->
  match validate_command spec candidate with
  | inl _ =>
      exists command, command ∈ spec_commands spec /\ cmd_id command = cand_command candidate /\
        (cmd_requires_confirmation command = true \/ cmd_risk command = High \/ cmd_risk command = Critical ->
         is_Some (cand_confirmation_token candidate)) /\
        forall parameter, parameter ∈ cmd_parameters command ->
          exists value, cand_parameters candidate !! param_id parameter = Some value /\
            forall range, param_range parameter = Some range ->
              exists number, as_f64 value = Some number /\
                f64_le (range_min range) number = true /\ f64_le number (range_max range) = true
  | inr violation => violated spec candidate violation
  end.
Proof.
  intros Hb. destruct (validate_command spec candidate) as [[]|violation] eqn:Ev.
  - apply permitted_iff in Ev as (command & Hc & Hconf & Hps). apply find_first_Some in Hc as [Hin Hid].
    exists command. split; [done|]. split; [by apply bool_decide_eq_true in Hid|]. split.
    + intros [Hr|Hr]; apply Hconf; [done|]. apply built_high_risk; [by eapply Forall_elem | done].
    + intros parameter Hp. destruct (Forall_elem _ _ _ Hps Hp) as (value & Hv & Hrange). exists value. split; [done|].
      intros range Hr. destruct (Hrange range Hr) as (number & Hn & Hin'%andb_prop). eauto.
  - unfold validate_command in Ev. destruct (spec_command spec _) as [command|] eqn:Ec; [|by injection Ev as <-].
    destruct (_ && _) eqn:Eb.
    + injection Ev as <-. apply andb_prop in Eb as [Hr Ht%bool_decide_eq_true]. by exists command.
    + destruct (find_map _ _) as [v|] eqn:Ef; [|done]. injection Ev as <-.
      apply find_map_Some in Ef as (parameter & Hp & Hcheck). by eapply check_parameter_Some.
Qed.

(** No high or critical risk command passes unconfirmed: for a device
    whose command specifications come from the builders, a candidate without a
    confirmation token for a high or critical command is refused. *)
Theorem high_risk_needs_confirmation spec candidate command :
  Forall built_command (spec_commands spec) ->
  spec_command spec (cand_command candidate) = Some command ->
  cmd_risk command = High \/ cmd_risk command = Critical ->
  cand_confirmation_token candidate = None ->
  validate_command spec candidate = inr (ConfirmationRequired (cmd_id command)).
Proof.
  intros Hb Hc Hrisk Htok. unfold validate_command. rewrite Hc, Htok.
  assert (Hin : command ∈ spec_commands spec) by (by apply find_first_Some in Hc as [? _]).
  rewrite (built_high_risk command); [done| |done].
  by eapply Forall_elem.
Qed.

Definition demo_spec : DeviceSpec :=
  {| device_type := "pump"; spec_version := "1"; spec_telemetry := [];
     spec_commands :=
       [with_parameter (new_command_spec "set_pressure" High)
          {| param_id := "target"; param_value_type := Ty_Float;
             param_range := Some {| range_min := f64_of_Z 0; range_max := f64_of_Z 10 |} |}];
     spec_events := [] |}.

Definition demo_candidate (token : option string) (v : TelemetryValue) : CommandCandidate :=
  {| cand_id := "c-1"; cand_edge_id := "edge"; cand_device_id := "pump-1";
     cand_command := "set_pressure"; cand_parameters := {[ "target" := v ]};
     cand_requested_by := "operator"; cand_confirmation_token := token |}.

Example demo_accepts : validate_command demo_spec (demo_candidate (Some "t") (VInteger 7)) = inl ().
Proof. vm_compute. reflexivity. Qed.

Example demo_rejects_nan :
  validate_command demo_spec (demo_candidate (Some "t") (VFloat SpecFloat.S754_nan)) =
  inr (ParameterOutOfRange "target" SpecFloat.S754_nan
         {| range_min := f64_of_Z 0; range_max := f64_of_Z 10 |}).
Proof. vm_compute. reflexivity. Qed.

Lemma high_risk_needs_confirmation_witness :
  validate_command demo_spec (demo_candidate None (VInteger 7)) =
  inr (ConfirmationRequired "set_pressure").
Proof.
  apply (high_risk_needs_confirmation demo_spec (demo_candidate None (VInteger 7))
    (with_parameter (new_command_spec "set_pressure" High)
          {| param_id := "target"; param_value_type := Ty_Float;
             param_range := Some {| range_min := f64_of_Z 0; range_max := f64_of_Z 10 |} |})).
  - repeat constructor.
  - reflexivity.
  - by left.
  - reflexivity.
Defined.

Lemma policy_gate_safe_witness :
  Forall built_command (spec_commands demo_spec) /\
  violated demo_spec (demo_candidate None (VInteger 7)) (ConfirmationRequired "set_pressure") /\
  is_Some (cand_confirmation_token (demo_candidate (Some "t") (VInteger 7))).
Proof.
  assert (Hb : Forall built_command (spec_commands demo_spec)) by repeat constructor.
  split; [exact Hb|].
  pose proof (policy_gate_safe demo_spec (demo_candidate None (VInteger 7)) Hb) as Hrefused.
  pose proof (policy_gate_safe demo_spec (demo_candidate (Some "t") (VInteger 7)) Hb) as Haccepted.
  split; [exact Hrefused|]. destruct Haccepted as (command & Hin & _ & Hconf & _).
  apply Hconf. right. left. apply list_elem_of_singleton in Hin. by subst command.
Defined.
