(* ===== verification/BTree.v ===== *)
(** The ordered collections of the standard library: [BTreeMap] and [BTreeSet]
    with string keys are [gmap]s; what depends on their order iterates the keys
    in the byte order of [str], [bytes_leb]. *)

From Stdlib Require Import ZArith Lia.
From S2P Require Import Prelude RustStr.

Open Scope Z_scope.

(** The order of byte strings: lexicographic. *)
Fixpoint bytes_leb (a b : bytes) : bool :=
  match a, b with
  | [], _ => true
  | _ :: _, [] => false
  | x :: a, y :: b => (x <? y) || ((x =? y) && bytes_leb a b)
  end.

Definition str_leb (a b : string) : bool := bytes_leb (str_bytes a) (str_bytes b).

(** [iter().collect::<BTreeMap<_, _>>()]: a later entry replaces an earlier one
    with its key. *)
Definition collect_map {A} (entries : list (string * A)) : gmap string A :=
  fold_left (fun m e => <[fst e := snd e]> m) entries ∅.

(** [map.keys()]. *)
Definition sorted_keys {A} (m : gmap string A) : list string :=
  sort_by str_leb (fst <$> map_to_list m).

Lemma bytes_leb_refl a : bytes_leb a a = true.
Proof. induction a as [|x a IH]; [done|]. simpl. by rewrite Z.eqb_refl, IH, orb_true_r. Qed.

Lemma bytes_leb_total a b : bytes_leb a b = true \/ bytes_leb b a = true.
Proof.
  revert b. induction a as [|x a IH]; intros [|y b]; simpl; [by left | by left | by right|].
  destruct (Z.ltb_spec x y); [by left|]. destruct (Z.ltb_spec y x); [by right|].
  assert (x = y) as -> by lia. rewrite !Z.eqb_refl. simpl. apply IH.
Qed.

Lemma bytes_leb_trans a b c : bytes_leb a b = true -> bytes_leb b c = true -> bytes_leb a c = true.
Proof.
  revert b c. induction a as [|x a IH]; intros [|y b] [|z c]; simpl; try done.
  rewrite !orb_true_iff, !andb_true_iff, !Z.ltb_lt, !Z.eqb_eq.
  intros [Hxy|[-> Hab]] [Hyz|[-> Hbc]]; [left; lia | by left | by left|].
  right. split; [done | by eapply IH].
Qed.

Lemma bytes_leb_antisym a b : bytes_leb a b = true -> bytes_leb b a = true -> a = b.
Proof.
  revert b. induction a as [|x a IH]; intros [|y b]; simpl; try done.
  rewrite !orb_true_iff, !andb_true_iff, !Z.ltb_lt, !Z.eqb_eq.
  intros [Hxy|[-> Hab]] [Hyx|[Hyx Hba]]; try lia. f_equal. by apply IH.
Qed.

Lemma sorted_keys_perm {A} (m : gmap string A) : sorted_keys m ≡ₚ fst <$> map_to_list m.
Proof. apply sort_by_perm. Qed.

Lemma sorted_keys_NoDup {A} (m : gmap string A) : NoDup (sorted_keys m).
Proof. rewrite sorted_keys_perm. apply NoDup_fst_map_to_list. Qed.

Lemma elem_of_sorted_keys {A} (m : gmap string A) k : k ∈ sorted_keys m <-> is_Some (m !! k).
Proof.
  rewrite sorted_keys_perm. split.
  - intros Hk. apply list_elem_of_fmap in Hk as ([k' a] & -> & Hin).
    apply elem_of_map_to_list in Hin. by exists a.
  - intros [a Ha]. apply list_elem_of_fmap. exists (k, a). split; [done|].
    by apply elem_of_map_to_list.
Qed.

Lemma length_sorted_keys {A} (m : gmap string A) : length (sorted_keys m) = size m.
Proof. by rewrite sorted_keys_perm, length_fmap, length_map_to_list. Qed.

Lemma collect_map_snoc {A} (entries : list (string * A)) k a :
  collect_map (entries ++ [(k, a)]) = <[k := a]> (collect_map entries).
Proof. unfold collect_map. by rewrite fold_left_app. Qed.

Lemma collect_map_Some {A} (entries : list (string * A)) k a :
  collect_map entries !! k = Some a -> (k, a) ∈ entries.
Proof.
  induction entries as [|[k' a'] entries IH] using rev_ind; [done|].
  rewrite collect_map_snoc, elem_of_app, list_elem_of_singleton.
  destruct (decide (k' = k)) as [->|Hne].
  - rewrite lookup_insert_eq. intros [= ->]. by right.
  - rewrite lookup_insert_ne by done. intros ?%IH. by left.
Qed.
