(* ===== verification/Graph.v ===== *)
(** Directed graphs whose nodes are named: the topological count with which
    [validate_command_flow] and [validate_data_config_visual_graph] of
    [crates/edge-core/src/config.rs] refuse cycles.

    An edge is the pair of its endpoints.  [topological_count] is the loop of
    both validators: nodes without incoming edges are popped from a stack, and
    their outgoing edges are removed.  [topological_count_spec] proves that it
    counts all nodes exactly when the graph is acyclic, and that neither the
    [expect] on the target nor the decrement can fail. *)

From Stdlib Require Import ZArith Lia.
From stdpp Require Import relations.
From S2P Require Import Prelude RustStr.

Abbreviation GraphEdge := (string * string)%type (only parsing).

Definition edge_rel (edges : list GraphEdge) (x y : string) : Prop := (x, y) ∈ edges.

(** No node reaches itself. *)
Definition acyclic (edges : list GraphEdge) : Prop := forall x, ~ tc (edge_rel edges) x x.

Definition targets (edges : list GraphEdge) (v : string) : list string :=
  snd <$> filter (fun e => fst e = v) edges.

(** [*indegree.entry(to).or_default() += 1] for every edge. *)
Definition count_edges (edges : list GraphEdge) (indegree : gmap string nat) : gmap string nat :=
  fold_left (fun m e => <[snd e := S (default O (m !! snd e))]> m) edges indegree.

Definition initial_indegree (ids : list string) (edges : list GraphEdge) : gmap string nat :=
  count_edges edges (list_to_map ((fun id => (id, O)) <$> ids)).

(** The loop over the outgoing edges of a node that was popped. *)
Fixpoint relax (ts : list string) (indegree : gmap string nat) (queue : list string)
    : Result (gmap string nat * list string) :=
  match ts with
  | [] => Ok (indegree, queue)
  | v :: rest =>
      count ← expect (indegree !! v) "validated graph target exists";
      match count with
      | O => Panic "attempt to subtract with overflow"
      | S count => relax rest (<[v := count]> indegree) (if count =? 0 then v :: queue else queue)%nat
      end
  end.

(** The loop on the stack, whose top is the head of the list; [None] when the
    fuel ran out. *)
Fixpoint drain_graph (fuel : nat) (edges : list GraphEdge) (indegree : gmap string nat)
    (queue : list string) (visited : nat) : option (Result nat) :=
  match fuel with
  | O => None
  | S fuel =>
      match queue with
      | [] => Some (Ok visited)
      | v :: rest =>
          match relax (targets edges v) indegree rest with
          | Ok (indegree, queue) => drain_graph fuel edges indegree queue (S visited)
          | Err e => Some (Err e)
          | Panic e => Some (Panic e)
          end
      end
  end.

(** [ids] are the keys of the node map in order; every node is popped at most
    once. *)
Definition topological_count (ids : list string) (edges : list GraphEdge) : option (Result nat) :=
  let indegree := initial_indegree ids edges in
  let ready := filter (fun id => indegree !! id = Some O) ids in
  drain_graph (S (length ids)) edges indegree (reverse ready) O.

(** ** Correctness *)

(** The edges into [v] from nodes not yet popped. *)
Definition remaining (edges : list GraphEdge) (popped : list string) (v : string) : nat :=
  length (filter (fun e => snd e = v /\ fst e ∉ popped) edges).

Definition occurrences (v : string) (ts : list string) : nat := length (filter (eq v) ts).

Lemma count_edges_lookup edges m v :
  is_Some (m !! v) ->
  count_edges edges m !! v = Some (default O (m !! v) + length (filter (fun e => snd e = v) edges))%nat.
Proof.
  revert m. induction edges as [|e edges IH]; intros m [n Hn].
  - simpl. rewrite Hn. simpl. f_equal. lia.
  - unfold count_edges in *. cbn [fold_left]. destruct (decide (snd e = v)) as [He|He].
    + rewrite IH by (rewrite He, lookup_insert_eq; eauto).
      rewrite filter_cons_True by done. rewrite He, lookup_insert_eq, Hn. simpl. f_equal. lia.
    + rewrite IH by (rewrite lookup_insert_ne by done; eauto).
      by rewrite filter_cons_False, lookup_insert_ne by done.
Qed.

Lemma initial_lookup ids edges v :
  v ∈ ids -> initial_indegree ids edges !! v = Some (remaining edges [] v).
Proof.
  intros Hv. unfold initial_indegree.
  assert (Hm : (list_to_map ((fun id => (id, O)) <$> ids) : gmap string nat) !! v = Some O).
  { induction ids as [|x ids IH]; [by apply elem_of_nil in Hv|]. simpl.
    destruct (decide (x = v)) as [->|Hne]; [apply lookup_insert_eq|].
    rewrite lookup_insert_ne by done. apply IH. apply elem_of_cons in Hv as [->|]; done. }
  rewrite count_edges_lookup by (rewrite Hm; eauto). rewrite Hm. simpl. unfold remaining.
  do 2 f_equal. apply list_filter_iff. intros e. split; [|naive_solver].
  intros. split; [done | apply not_elem_of_nil].
Qed.

Lemma remaining_pop edges popped v w :
  v ∉ popped ->
  remaining edges popped w = (remaining edges (popped ++ [v]) w + occurrences w (targets edges v))%nat.
Proof.
  intros Hv. unfold remaining, occurrences, targets. induction edges as [|[x y] edges IH]; [done|].
  rewrite !filter_cons. simpl fst. simpl snd.
  destruct (decide (x = v)) as [->|Hx].
  - rewrite fmap_cons, filter_cons. simpl snd.
    destruct (decide (w = y)) as [<-|Hy].
    + rewrite decide_True by done.
      rewrite (decide_False (P := w = w /\ _)) by (rewrite elem_of_app, list_elem_of_singleton; naive_solver).
      simpl. lia.
    + rewrite !(decide_False (P := y = w /\ _)) by naive_solver. lia.
  - destruct (decide (y = w /\ x ∉ popped)) as [[-> Hp]|Hn].
    + rewrite decide_True by (rewrite elem_of_app, list_elem_of_singleton; naive_solver). simpl. lia.
    + rewrite decide_False by (rewrite elem_of_app, list_elem_of_singleton; naive_solver). lia.
Qed.

Lemma remaining_zero edges popped v :
  remaining edges popped v = O <-> forall x, edge_rel edges x v -> x ∈ popped.
Proof.
  unfold remaining, edge_rel. rewrite length_zero_iff_nil. split.
  - intros H x Hx. destruct (decide (x ∈ popped)) as [|Hn]; [done|].
    assert (Hin : (x, v) ∈ filter (fun e : GraphEdge => snd e = v /\ fst e ∉ popped) edges)
      by by apply list_elem_of_filter.
    rewrite H in Hin. by apply elem_of_nil in Hin.
  - intros H. destruct (filter _ edges) as [|[x y] l] eqn:E; [done|].
    assert (Hin : (x, y) ∈ filter (fun e : GraphEdge => snd e = v /\ fst e ∉ popped) edges)
      by (rewrite E; by left).
    apply list_elem_of_filter in Hin as [[<- Hp] Hin]. simpl in *. exfalso. by apply Hp, H.
Qed.

Lemma tc_flip_edge (R : relation string) x y : tc (flip R) x y -> tc R y x.
Proof.
  induction 1 as [x y H | x y z H _ IH]; [by apply tc_once|]. apply tc_r with y; done.
Qed.

(** Walks in an acyclic graph whose nodes are among [ids] end, in both
    directions. *)
Lemma acyclic_sn_flip (ids : list string) edges v :
  acyclic edges -> (forall x y, edge_rel edges x y -> x ∈ ids) -> sn (flip (edge_rel edges)) v.
Proof.
  intros Hac Hids. apply tc_finite_sn.
  - intros x Hx. apply (Hac x). by apply tc_flip_edge.
  - exists ids. intros w Hw%tc_flip_edge. by destruct Hw as [x y H | x y z H _]; apply Hids in H.
Qed.

Lemma acyclic_sn (ids : list string) edges v :
  acyclic edges -> (forall x y, edge_rel edges x y -> y ∈ ids) -> sn (edge_rel edges) v.
Proof.
  intros Hac Hids. apply tc_finite_sn.
  - intros x Hx. by apply (Hac x).
  - exists ids. intros w Hw. induction Hw as [x y H | x y z _ _ IH]; [by eapply Hids | done].
Qed.

Section kahn.
Context (ids : list string) (edges : list GraphEdge).
Hypothesis ids_NoDup : NoDup ids.
Hypothesis edges_known : forall x y, edge_rel edges x y -> x ∈ ids /\ y ∈ ids.

(** [popped] is in topological order, the stack holds the other nodes without
    remaining incoming edges, and the counters are right; [ts] are the outgoing
    edges of the last node still to be removed. *)
Record loop_inv (popped queue ts : list string) (indegree : gmap string nat) : Prop := {
  inv_NoDup : NoDup (popped ++ queue);
  inv_count : forall v, v ∈ ids ->
    indegree !! v = Some (remaining edges popped v + occurrences v ts)%nat;
  inv_ready : forall v, v ∈ popped ++ queue <-> v ∈ ids /\ indegree !! v = Some O;
  inv_order : forall before x after, popped = before ++ x :: after ->
    forall y, edge_rel edges y x -> y ∈ before;
}.

Lemma relax_inv popped ts indegree queue :
  (forall v, v ∈ ts -> v ∈ ids) -> loop_inv popped queue ts indegree ->
  exists indegree' queue', relax ts indegree queue = Ok (indegree', queue') /\
    loop_inv popped queue' [] indegree'.
Proof using.
  clear ids_NoDup edges_known.
  revert indegree queue. induction ts as [|t ts IH]; intros indegree queue Hts Hinv.
  { by exists indegree, queue. }
  destruct Hinv as [Hnd Hcount Hready Horder]. pose proof (Hts t ltac:(by left)) as Ht.
  cbn [relax]. rewrite (Hcount t Ht). unfold occurrences at 1. rewrite filter_cons_True by done.
  cbn [length expect mbind Result_bind]. rewrite Nat.add_succ_r.
  set (count := (remaining edges popped t + occurrences t ts)%nat).
  fold (occurrences t ts). fold count.
  apply IH; [intros v Hv; apply Hts; by right|].
  assert (Htnot : t ∉ popped ++ queue).
  { rewrite Hready. intros [_ H0]. rewrite (Hcount t Ht) in H0. unfold occurrences in H0.
    rewrite filter_cons_True in H0 by done. simpl in H0. injection H0. lia. }
  assert (Hnew : forall v, v ∈ ids ->
    <[t := count]> indegree !! v = Some (remaining edges popped v + occurrences v ts)%nat).
  { intros v Hv. destruct (decide (t = v)) as [<-|Hne]; [by rewrite lookup_insert_eq|].
    rewrite lookup_insert_ne, (Hcount v Hv) by done. unfold occurrences.
    by rewrite filter_cons_False by congruence. }
  destruct (Nat.eqb_spec count 0) as [H0|H0]; constructor; [| |intros v|done| | |intros v|done].
  - rewrite <- Permutation_middle. by apply list.NoDup_cons.
  - exact Hnew.
  - rewrite elem_of_app, elem_of_cons. destruct (decide (t = v)) as [<-|Hne].
    + rewrite lookup_insert_eq, H0. naive_solver.
    + rewrite lookup_insert_ne by done. rewrite <- Hready, elem_of_app. naive_solver.
  - exact Hnd.
  - exact Hnew.
  - rewrite Hready. destruct (decide (t = v)) as [<-|Hne].
    + rewrite lookup_insert_eq. rewrite (Hcount t Ht). unfold occurrences.
      rewrite filter_cons_True by done. simpl. rewrite Nat.add_succ_r. naive_solver congruence.
    + by rewrite lookup_insert_ne by done.
Qed.

Lemma pop_inv popped v queue indegree :
  loop_inv popped (v :: queue) [] indegree ->
  loop_inv (popped ++ [v]) queue (targets edges v) indegree.
Proof using.
  clear ids_NoDup edges_known.
  intros [Hnd Hcount Hready Horder].
  assert (Hv : v ∉ popped).
  { apply list.NoDup_app in Hnd as (_ & Hdis & _). intros Hin. apply (Hdis v Hin). by left. }
  constructor.
  - by rewrite <- app_assoc.
  - intros w Hw. rewrite (Hcount w Hw). unfold occurrences at 1. rewrite filter_nil. simpl.
    by rewrite Nat.add_0_r, (remaining_pop edges popped v).
  - intros w. by rewrite <- app_assoc.
  - intros before x after Heq. destruct after as [|z after _] using rev_ind.
    + apply app_inj_tail in Heq as [<- <-]. apply remaining_zero.
      destruct (proj1 (Hready v)) as [Hid H0]; [apply elem_of_app; right; by left|].
      rewrite (Hcount v Hid) in H0. unfold occurrences in H0. rewrite filter_nil in H0.
      simpl in H0. injection H0. lia.
    + rewrite app_comm_cons, app_assoc in Heq. apply app_inj_tail in Heq as [-> _].
      by apply (Horder before x after).
Qed.

Lemma targets_known v t : t ∈ targets edges v -> t ∈ ids.
Proof using edges_known.
  unfold targets. intros Ht. apply list_elem_of_fmap in Ht as ([x y] & -> & Hin).
  apply list_elem_of_filter in Hin as [_ Hin]. by apply (edges_known x y).
Qed.

Lemma popped_bound popped queue ts indegree :
  loop_inv popped queue ts indegree -> (length popped + length queue <= length ids)%nat.
Proof using.
  clear edges_known ids_NoDup.
  intros Hinv. rewrite <- length_app. apply submseteq_length, NoDup_submseteq; [apply Hinv|].
  intros v Hv. by apply Hinv in Hv as [? _].
Qed.

Lemma drain_graph_inv fuel popped queue indegree :
  loop_inv popped queue [] indegree -> (length ids < fuel + length popped)%nat ->
  exists popped' indegree', drain_graph fuel edges indegree queue (length popped) =
    Some (Ok (length popped')) /\ loop_inv popped' [] [] indegree'.
Proof using edges_known.
  clear ids_NoDup.
  revert popped queue indegree. induction fuel as [|fuel IH]; intros popped queue indegree Hinv Hfuel.
  { pose proof (popped_bound _ _ _ _ Hinv). lia. }
  cbn [drain_graph]. destruct queue as [|v queue]; [by exists popped, indegree|].
  pose proof (pop_inv _ _ _ _ Hinv) as Hpop.
  destruct (relax_inv _ _ _ _ (targets_known v) Hpop) as (indegree' & queue' & -> & Hinv').
  specialize (IH _ _ _ Hinv'). rewrite length_app in IH. simpl in IH.
  rewrite Nat.add_1_r in IH. apply IH. lia.
Qed.

Lemma initial_inv :
  let indegree := initial_indegree ids edges in
  loop_inv [] (reverse (filter (fun id => indegree !! id = Some O) ids)) [] indegree.
Proof using ids_NoDup.
  clear edges_known.
  intros indegree. constructor.
  - simpl. rewrite reverse_Permutation. by apply list.NoDup_filter.
  - intros v Hv. unfold indegree. rewrite initial_lookup by done. unfold occurrences.
    rewrite filter_nil. simpl. by rewrite Nat.add_0_r.
  - intros v. simpl. rewrite elem_of_reverse, list_elem_of_filter. naive_solver.
  - intros [] x after Heq; discriminate.
Qed.

Lemma tc_known x y : tc (edge_rel edges) x y -> x ∈ ids.
Proof using edges_known.
  clear ids_NoDup. by destruct 1 as [x y H | x y z H _]; apply edges_known in H as [? _].
Qed.

(** An edge points forward in [popped]. *)
Lemma order_acyclic popped indegree :
  loop_inv popped [] [] indegree -> (forall v, v ∈ ids -> v ∈ popped) -> acyclic edges.
Proof using edges_known.
  clear ids_NoDup.
  intros Hinv Hall x Hx.
  assert (Hforward : forall y z, tc (edge_rel edges) y z ->
    forall before after, popped = before ++ z :: after -> y ∈ before).
  { clear Hx. induction 1 as [y z Hyz | y z w Hyz Hzw IH]; intros before after Heq.
    - by apply (inv_order _ _ _ _ Hinv before z after).
    - pose proof (IH before after Heq) as Hin. apply list_elem_of_split in Hin as (b1 & b2 & ->).
      rewrite <- app_assoc in Heq. apply elem_of_app. left.
      by apply (inv_order _ _ _ _ Hinv b1 z (b2 ++ w :: after)). }
  pose proof (tc_known x x Hx) as Hid.
  apply Hall, list_elem_of_split in Hid as (before & after & Heq).
  pose proof (Hforward x x Hx before after Heq) as Hin.
  pose proof (inv_NoDup _ _ _ _ Hinv) as Hnd. rewrite app_nil_r, Heq in Hnd.
  apply list.NoDup_app in Hnd as (_ & Hdis & _). apply (Hdis x Hin). by left.
Qed.

(** In an acyclic graph some node that was not popped has no remaining edge. *)
Lemma acyclic_popped popped indegree :
  loop_inv popped [] [] indegree -> acyclic edges -> forall v, v ∈ ids -> v ∈ popped.
Proof using edges_known.
  clear ids_NoDup.
  intros Hinv Hac v Hv.
  assert (Hsn : sn (flip (edge_rel edges)) v).
  { apply acyclic_sn_flip with ids; [done|]. intros x y Hxy. by apply edges_known in Hxy as [? _]. }
  revert Hv. induction Hsn as [v _ IH]. intros Hv.
  pose proof (inv_ready _ _ _ _ Hinv v) as Hready. rewrite app_nil_r in Hready.
  apply Hready. split; [done|]. rewrite (inv_count _ _ _ _ Hinv v Hv). unfold occurrences.
  rewrite filter_nil. simpl. rewrite Nat.add_0_r. f_equal. apply remaining_zero.
  intros x Hx. apply IH; [done|]. by apply edges_known in Hx as [? _].
Qed.

(** The count terminates without a panic, and finds all nodes exactly when the
    graph is acyclic. *)
Lemma topological_count_spec :
  exists n, topological_count ids edges = Some (Ok n) /\ (n = length ids <-> acyclic edges).
Proof using ids_NoDup edges_known.
  destruct (drain_graph_inv (S (length ids)) [] _ _ initial_inv) as (popped & indegree & Heq & Hinv).
  { simpl. lia. }
  exists (length popped). split; [exact Heq|].
  pose proof (inv_NoDup _ _ _ _ Hinv) as Hnd. rewrite app_nil_r in Hnd.
  assert (Hsub : popped ⊆ ids).
  { intros v Hv. apply (inv_ready _ _ _ _ Hinv v). by rewrite app_nil_r. }
  split.
  - intros Hlen. apply (order_acyclic popped indegree Hinv). intros v Hv.
    assert (Hperm : popped ≡ₚ ids).
    { apply submseteq_length_Permutation; [by apply NoDup_submseteq | lia]. }
    by rewrite Hperm.
  - intros Hac. apply Nat.le_antisymm.
    + by apply submseteq_length, NoDup_submseteq.
    + apply submseteq_length, NoDup_submseteq; [done|]. intros v. by apply acyclic_popped with indegree.
Qed.
End kahn.
