(* ===== verification/ConfigTypes.v ===== *)
(** The data of an edge configuration package, [crates/edge-core/src/config.rs]:
    one record per struct and one inductive type per enum, with the source's
    defaults and the settings validators that need nothing else.

    [serde_json::Value] parameters of graph nodes are the type [Json] of
    [Json.v]. *)

From Stdlib Require Import ZArith Lia.
From S2P Require Import Prelude RustStr Floats Json Model.

Open Scope Z_scope.

(** ** Protocol connections *)

Inductive ProtocolType :=
| Simulated
| ModbusTcp
| ModbusRtu
| Dlt645
| Iec101
| Iec104
| CustomSerial
| OpcUa
| BacnetIp
| SiemensS7
| OmronFins.

#[export] Instance ProtocolType_eq_dec : EqDecision ProtocolType.
Proof. solve_decision. Defined.

Record SerialConnectionSettings := {
  serial_port : string;
  serial_baud_rate : Z;
  serial_data_bits : Z;
  serial_stop_bits : Z;
  serial_parity : string;
}.

(** [SerialConnectionSettings::new]. *)
Definition new_serial_settings (port : string) (baud_rate : Z) : SerialConnectionSettings :=
  {| serial_port := port; serial_baud_rate := baud_rate; serial_data_bits := 8;
     serial_stop_bits := 1; serial_parity := "none" |}.

(** [Iec101ConnectionSettings] and [Iec104ConnectionSettings]: one field each. *)
Record Iec101ConnectionSettings := { iec101_cp56_timezone_offset_minutes : Z }.
Record Iec104ConnectionSettings := { iec104_cp56_timezone_offset_minutes : Z }.

Definition default_iec101_settings : Iec101ConnectionSettings :=
  {| iec101_cp56_timezone_offset_minutes := 0 |}.

Definition in_range (lo hi x : Z) : bool := (lo <=? x) && (x <=? hi).

Definition validate_iec101_settings (s : Iec101ConnectionSettings) : Result () :=
  ensure (in_range (-14 * 60) (14 * 60) (iec101_cp56_timezone_offset_minutes s))
    "IEC 101 CP56Time2a timezone offset must be between -840 and 840 minutes".

Definition validate_iec104_settings (s : Iec104ConnectionSettings) : Result () :=
  ensure (in_range (-14 * 60) (14 * 60) (iec104_cp56_timezone_offset_minutes s))
    "IEC 104 CP56Time2a timezone offset must be between -840 and 840 minutes".

Inductive OpcUaSecurityPolicy :=
  Policy_None | Basic256Sha256 | Aes128Sha256RsaOaep | Aes256Sha256RsaPss.
Inductive OpcUaMessageSecurityMode := Mode_None | Sign | SignAndEncrypt.
Inductive OpcUaAuthMode := Anonymous | Username | X509.

Record OpcUaConnectionSettings := {
  opcua_security_policy : OpcUaSecurityPolicy;
  opcua_message_security_mode : OpcUaMessageSecurityMode;
  opcua_auth_mode : OpcUaAuthMode;
  opcua_username : option string;
  opcua_password_env : option string;
  opcua_user_certificate_path : option string;
  opcua_user_private_key_path : option string;
  opcua_pki_dir : string;
  opcua_trust_server_certs : bool;
  opcua_verify_server_certs : bool;
  opcua_connect_timeout_ms : Z;
  opcua_request_timeout_ms : Z;
  opcua_session_timeout_ms : Z;
  opcua_session_retry_limit : Z;
}.

Record BacnetForeignDeviceSettings := { bbmd_address : string; ttl_seconds : Z }.
Record BacnetCovSettings := {
  cov_lifetime_seconds : Z;
  cov_confirmed_notifications : bool;
  cov_fallback_poll_interval_ms : Z;
}.
Record BacnetIpConnectionSettings := {
  bacnet_bind_address : string;
  bacnet_local_port : Z;
  bacnet_broadcast_address : string;
  bacnet_apdu_timeout_ms : Z;
  bacnet_apdu_retries : Z;
  bacnet_discovery_timeout_ms : Z;
  bacnet_max_apdu_length : Z;
  bacnet_foreign_device : option BacnetForeignDeviceSettings;
  bacnet_cov : option BacnetCovSettings;
}.

Record SiemensS7ConnectionSettings := {
  s7_rack : Z;
  s7_slot : Z;
  s7_pdu_size : Z;
  s7_connect_timeout_ms : Z;
  s7_request_timeout_ms : Z;
}.

Definition validate_s7_settings (s : SiemensS7ConnectionSettings) : Result () :=
  ensure (s7_rack s <=? 7) "Siemens S7 rack must be between 0 and 7";;
  ensure (s7_slot s <=? 31) "Siemens S7 slot must be between 0 and 31";;
  ensure (existsb (Z.eqb (s7_pdu_size s)) [240; 480; 960])
    "Siemens S7 PDU size must be 240, 480 or 960 bytes";;
  ensure (in_range 100 120000 (s7_connect_timeout_ms s))
    "Siemens S7 connect timeout must be between 100 and 120000 ms";;
  ensure (in_range 100 120000 (s7_request_timeout_ms s))
    "Siemens S7 request timeout must be between 100 and 120000 ms".

Inductive OmronFinsWordOrder := Fins_HighWordFirst | Fins_LowWordFirst.
Inductive OmronFinsTransport := Udp | Tcp.

Record OmronFinsConnectionSettings := {
  fins_transport : OmronFinsTransport;
  fins_source_network : Z;
  fins_source_node : Z;
  fins_source_unit : Z;
  fins_destination_network : Z;
  fins_destination_node : Z;
  fins_destination_unit : Z;
  fins_timeout_ms : Z;
  fins_word_order : OmronFinsWordOrder;
}.

Definition validate_fins_settings (s : OmronFinsConnectionSettings) : Result () :=
  ensure (negb ((127 <? fins_source_network s) || (127 <? fins_destination_network s)))
    "Omron FINS network address must be between 0 and 127";;
  (match fins_transport s with
   | Udp =>
       ensure (negb ((fins_source_node s =? 255) || (fins_source_node s =? 0)))
         "Omron FINS/UDP source node must be between 1 and 254"
   | Tcp =>
       ensure (negb (fins_source_node s =? 255))
         "Omron FINS/TCP source node must be between 0 and 254"
   end);;
  ensure (negb (fins_destination_node s =? 255))
    "Omron FINS destination node must be between 0 and 254";;
  ensure (in_range 100 120000 (fins_timeout_ms s))
    "Omron FINS timeout must be between 100 and 120000 ms".

Record ProtocolCircuitBreakerConfig := {
  cb_enabled : bool;
  cb_failure_threshold : Z;
  cb_open_duration_ms : Z;
  cb_half_open_success_threshold : Z;
}.

#[export] Instance ProtocolCircuitBreakerConfig_eq_dec : EqDecision ProtocolCircuitBreakerConfig.
Proof. solve_decision. Defined.

Definition MAX_PROTOCOL_CIRCUIT_FAILURE_THRESHOLD : Z := 100.
Definition MIN_PROTOCOL_CIRCUIT_OPEN_DURATION_MS : Z := 100.
Definition MAX_PROTOCOL_CIRCUIT_OPEN_DURATION_MS : Z := 3600000.
Definition MAX_PROTOCOL_CIRCUIT_HALF_OPEN_SUCCESSES : Z := 10.

(** [ProtocolCircuitBreakerConfig::default] and [validate]. *)
Definition default_circuit_breaker : ProtocolCircuitBreakerConfig :=
  {| cb_enabled := true; cb_failure_threshold := 5; cb_open_duration_ms := 30000;
     cb_half_open_success_threshold := 1 |}.

Definition validate_circuit_breaker (c : ProtocolCircuitBreakerConfig) : Result () :=
  ensure (in_range 1 MAX_PROTOCOL_CIRCUIT_FAILURE_THRESHOLD (cb_failure_threshold c))
    "circuit breaker failure threshold must be between 1 and 100";;
  ensure (in_range MIN_PROTOCOL_CIRCUIT_OPEN_DURATION_MS MAX_PROTOCOL_CIRCUIT_OPEN_DURATION_MS
            (cb_open_duration_ms c))
    "circuit breaker open duration must be between 100 and 3600000 ms";;
  ensure (in_range 1 MAX_PROTOCOL_CIRCUIT_HALF_OPEN_SUCCESSES (cb_half_open_success_threshold c))
    "circuit breaker half-open success threshold must be between 1 and 10".

Record ProtocolConnection := {
  conn_id : string;
  conn_protocol : ProtocolType;
  conn_endpoint : option string;
  conn_serial : option SerialConnectionSettings;
  conn_iec101 : option Iec101ConnectionSettings;
  conn_iec104 : option Iec104ConnectionSettings;
  conn_opc_ua : option OpcUaConnectionSettings;
  conn_bacnet_ip : option BacnetIpConnectionSettings;
  conn_siemens_s7 : option SiemensS7ConnectionSettings;
  conn_omron_fins : option OmronFinsConnectionSettings;
  conn_circuit_breaker : ProtocolCircuitBreakerConfig;
}.

(** [ProtocolConnection::simulated], and the serial constructors
    [modbus_rtu_serial], [dlt645_serial] and [iec101_serial]. *)
Definition simulated_connection (id : string) : ProtocolConnection :=
  {| conn_id := id; conn_protocol := Simulated; conn_endpoint := None; conn_serial := None;
     conn_iec101 := None; conn_iec104 := None; conn_opc_ua := None; conn_bacnet_ip := None;
     conn_siemens_s7 := None; conn_omron_fins := None;
     conn_circuit_breaker := default_circuit_breaker |}.

Definition serial_connection (protocol : ProtocolType) (id : string)
    (serial : SerialConnectionSettings) : ProtocolConnection :=
  {| conn_id := id; conn_protocol := protocol; conn_endpoint := Some (serial_port serial);
     conn_serial := Some serial; conn_iec101 := None; conn_iec104 := None;
     conn_opc_ua := None; conn_bacnet_ip := None; conn_siemens_s7 := None;
     conn_omron_fins := None; conn_circuit_breaker := default_circuit_breaker |}.

Definition modbus_rtu_serial := serial_connection ModbusRtu.
Definition dlt645_serial := serial_connection Dlt645.
Definition iec101_serial := serial_connection Iec101.

(** ** Points *)

Inductive PointAccess := ReadOnly | ReadWrite | WriteOnly.

Definition is_readable (a : PointAccess) : bool :=
  match a with ReadOnly | ReadWrite => true | WriteOnly => false end.
Definition is_writable (a : PointAccess) : bool :=
  match a with ReadWrite | WriteOnly => true | ReadOnly => false end.

Inductive ModbusByteOrder := BigEndian | LittleEndian.
Inductive ModbusWordOrder := HighWordFirst | LowWordFirst.
Inductive ModbusRegisterEncoding := U16 | I16 | U32 | I32 | U64 | I64 | F32 | F64.

Definition register_count (e : ModbusRegisterEncoding) : Z :=
  match e with
  | U16 | I16 => 1
  | U32 | I32 | F32 => 2
  | U64 | I64 | F64 => 4
  end.

Definition encoding_is_float (e : ModbusRegisterEncoding) : bool :=
  match e with F32 | F64 => true | _ => false end.
Definition encoding_is_integer (e : ModbusRegisterEncoding) : bool := negb (encoding_is_float e).

Record ModbusPointOptions := {
  mb_encoding : option ModbusRegisterEncoding;
  mb_byte_order : ModbusByteOrder;
  mb_word_order : ModbusWordOrder;
  mb_scale : f64;
  mb_offset : f64;
  mb_bit_index : option Z;
}.

(** [ModbusPointOptions::default]. *)
Definition default_modbus_options : ModbusPointOptions :=
  {| mb_encoding := None; mb_byte_order := BigEndian; mb_word_order := HighWordFirst;
     mb_scale := f64_one; mb_offset := f64_zero; mb_bit_index := None |}.

Record PointAddress := {
  addr_kind : string;
  addr_value : string;
  addr_modbus : option ModbusPointOptions;
}.

Inductive OpcUaWriteDataType :=
  Ua_Boolean | Ua_SByte | Ua_Byte | Ua_Int16 | Ua_UInt16 | Ua_Int32 | Ua_UInt32
| Ua_Int64 | Ua_UInt64 | Ua_Float | Ua_Double | Ua_String.
Record OpcUaPointOptions := { write_data_type : OpcUaWriteDataType }.

Inductive Iec104ControlType := SingleCommand | DoubleCommand | SetpointFloat.

#[export] Instance Iec104ControlType_eq_dec : EqDecision Iec104ControlType.
Proof. solve_decision. Defined.

(** [Iec104ControlType::accepts]. *)
Definition control_accepts (c : Iec104ControlType) (t : TelemetryType) : bool :=
  match c, t with
  | SingleCommand, Ty_Boolean | DoubleCommand, Ty_Integer | SetpointFloat, Ty_Float => true
  | _, _ => false
  end.

Record Iec104PointOptions := { control_type : Iec104ControlType; select_before_operate : bool }.

Record BacnetPointOptions := { write_priority : Z }.

Inductive PointValueTransform :=
| Linear (factor offset : f64)
| Clamp (min max : f64)
| Round (decimals : Z)
| Absolute
| SquareRoot
| Power (exponent : f64)
| MapRange (input_min input_max output_min output_max : f64) (clamp : bool).

Record TelemetryPointMapping := {
  map_point_id : string;
  map_device_id : string;
  map_semantic_id : string;
  map_protocol_connection_id : string;
  map_address : PointAddress;
  map_value_type : TelemetryType;
  map_access : PointAccess;
  map_opc_ua : option OpcUaPointOptions;
  map_iec101 : option Iec104PointOptions;
  map_iec104 : option Iec104PointOptions;
  map_bacnet : option BacnetPointOptions;
  map_unit : option string;
  map_range : option NumberRange;
  map_read_transforms : list PointValueTransform;
  map_interval_ms : Z;
}.

(** [TelemetryPointMapping::new]. *)
Definition new_mapping (point device semantic connection : string) (address : PointAddress)
    (value_type : TelemetryType) : TelemetryPointMapping :=
  {| map_point_id := point; map_device_id := device; map_semantic_id := semantic;
     map_protocol_connection_id := connection; map_address := address;
     map_value_type := value_type; map_access := ReadOnly; map_opc_ua := None;
     map_iec101 := None; map_iec104 := None; map_bacnet := None; map_unit := None;
     map_range := None; map_read_transforms := []; map_interval_ms := 1000 |}.

(** ** Collection, publication and command flows *)

Record CollectionTask := {
  task_id : string;
  task_device_id : string;
  task_point_ids : list string;
  task_interval_ms : Z;
  task_enabled : bool;
}.

Record DataConfigCollection := { period_ms : Z; timeout_ms : Z; retry_count : Z }.

(** [DataConfigCollection::new]. *)
Definition new_collection (period : Z) : DataConfigCollection :=
  {| period_ms := period; timeout_ms := 800; retry_count := 2 |}.

Record DataConfigPoint := {
  dcp_point_id : string;
  dcp_semantic_id : string;
  dcp_address : PointAddress;
  dcp_value_type : TelemetryType;
  dcp_unit : option string;
  dcp_json_field : string;
}.

Inductive DataConfigPayloadMode := Object | Array.
Record DataConfigPayload := {
  payload_mode : DataConfigPayloadMode;
  payload_timestamp_field : string;
  payload_include_quality : bool;
}.
Record DataConfigPublish := {
  pub_sink_id : string;
  pub_topic_template : string;
  pub_qos : Z;
  pub_payload : DataConfigPayload;
}.

Inductive DataConfigGraphNodeKind := Node_Point | Node_Algorithm | Node_Json | Node_Mqtt.
Record DataConfigGraphNode := {
  dnode_id : string;
  dnode_kind : DataConfigGraphNodeKind;
  dnode_label : string;
  dnode_ref_id : option string;
  dnode_params : gmap string Json;
  dnode_x : Z;
  dnode_y : Z;
}.
Record DataConfigGraphEdge := {
  dedge_id : string;
  dedge_from : string;
  dedge_from_port : option string;
  dedge_to : string;
  dedge_to_port : option string;
}.
Record DataConfigVisualGraph := {
  graph_nodes : list DataConfigGraphNode;
  graph_edges : list DataConfigGraphEdge;
}.

Record DataConfig := {
  dc_config_id : string;
  dc_name : string;
  dc_enabled : bool;
  dc_device_id : string;
  dc_protocol_connection_id : string;
  dc_collection : DataConfigCollection;
  dc_points : list DataConfigPoint;
  dc_algorithm_ids : list string;
  dc_visual_graph : DataConfigVisualGraph;
  dc_publish : DataConfigPublish;
}.

Inductive CommandGraphNodeKind :=
  MqttInput | JsonParse | Condition | SafetyGate | PointWrite | MqttReply.
Record CommandGraphNode := {
  cnode_id : string;
  cnode_kind : CommandGraphNodeKind;
  cnode_label : string;
  cnode_ref_id : option string;
  cnode_params : gmap string Json;
  cnode_x : Z;
  cnode_y : Z;
}.
Record CommandGraphEdge := {
  cedge_id : string;
  cedge_from : string;
  cedge_from_port : option string;
  cedge_to : string;
  cedge_to_port : option string;
}.
Record CommandFlowConfig := {
  flow_id : string;
  flow_name : string;
  flow_enabled : bool;
  flow_protocol_connection_id : string;
  flow_mqtt_connection_id : string;
  flow_subscribe_topic : string;
  flow_qos : Z;
  flow_reply_topic_template : string;
  flow_nodes : list CommandGraphNode;
  flow_edges : list CommandGraphEdge;
}.

Inductive MqttProtocolVersion := V3_1_1 | V5_0.
Record MqttUserProperty := { prop_key : string; prop_value : string }.
Record MqttLastWillConfig := {
  will_topic : string;
  will_payload : string;
  will_qos : Z;
  will_retain : bool;
  will_delay_interval_seconds : Z;
  will_payload_format_utf8 : bool;
  will_message_expiry_interval_seconds : Z;
  will_content_type : option string;
  will_response_topic : option string;
  will_correlation_data : option string;
  will_user_properties : list MqttUserProperty;
}.
Record MqttUplinkConfig := {
  up_sink_id : string;
  up_broker : string;
  up_client_id : string;
  up_protocol_version : MqttProtocolVersion;
  up_keep_alive_seconds : Z;
  up_clean_session : bool;
  up_clean_start : bool;
  up_session_expiry_interval_seconds : Z;
  up_receive_maximum : option Z;
  up_maximum_packet_size_bytes : option Z;
  up_topic_alias_maximum : option Z;
  up_request_response_information : bool;
  up_request_problem_information : bool;
  up_user_properties : list MqttUserProperty;
  up_last_will : option MqttLastWillConfig;
  up_username : option string;
  up_password_env : option string;
  up_tls_ca_path : option string;
  up_topic_template : string;
  up_qos : Z;
  up_batch_size : Z;
  up_flush_interval_ms : Z;
}.

Record DeviceInstance := { inst_device_id : string; inst_device_type : string }.

(** ** The package *)

Record EdgeConfigPackage := {
  pkg_edge_id : string;
  pkg_version : string;
  pkg_device_models : list DeviceSpec;
  pkg_devices : list DeviceInstance;
  pkg_protocol_connections : list ProtocolConnection;
  pkg_mqtt_uplinks : list MqttUplinkConfig;
  pkg_data_configs : list DataConfig;
  pkg_command_flows : list CommandFlowConfig;
  pkg_point_mappings : list TelemetryPointMapping;
  pkg_collection_tasks : list CollectionTask;
  pkg_algorithms : list AlgorithmSpec;
}.

(** [EdgeConfigPackage::new]. *)
Definition new_package (edge_id version : string) : EdgeConfigPackage :=
  {| pkg_edge_id := edge_id; pkg_version := version; pkg_device_models := [];
     pkg_devices := []; pkg_protocol_connections := []; pkg_mqtt_uplinks := [];
     pkg_data_configs := []; pkg_command_flows := []; pkg_point_mappings := [];
     pkg_collection_tasks := []; pkg_algorithms := [] |}.

(** ** Facts *)

Lemma in_range_true lo hi x : in_range lo hi x = true <-> lo <= x <= hi.
Proof. unfold in_range. by rewrite andb_true_iff, !Z.leb_le. Qed.

(** What the validator of the circuit-breaker settings guarantees. *)
Lemma validate_circuit_breaker_Ok c :
  validate_circuit_breaker c = Ok () <->
  1 <= cb_failure_threshold c <= 100 /\
  100 <= cb_open_duration_ms c <= 3600000 /\
  1 <= cb_half_open_success_threshold c <= 10.
Proof.
  unfold validate_circuit_breaker, MAX_PROTOCOL_CIRCUIT_FAILURE_THRESHOLD,
    MIN_PROTOCOL_CIRCUIT_OPEN_DURATION_MS, MAX_PROTOCOL_CIRCUIT_OPEN_DURATION_MS,
    MAX_PROTOCOL_CIRCUIT_HALF_OPEN_SUCCESSES.
  rewrite <- !in_range_true. split.
  - intros H. inv_result. by repeat split.
  - by intros (-> & -> & ->).
Qed.
