(* ===== verification/ConfigParse.v ===== *)
(** Address grammars and point validators of [crates/edge-core/src/config.rs]:
    the textual point addresses of DL/T 645, IEC 101 and IEC 104, the custom
    serial frame specification with its hexadecimal fields, and the Modbus
    point options.

    Shown here: printing an address with the constructors of [PointAddress] and
    parsing it gives the components back, and whatever the parsers accept lies
    in the ranges the frame builders rely on. *)

From Stdlib Require Import ZArith Lia.
From S2P Require Import Prelude RustStr Floats Model ConfigTypes.

Open Scope Z_scope.

(** The colon of the address grammars. *)
Definition colon : Z := 58.

Definition show_type (t : TelemetryType) : string :=
  match t with
  | Ty_Float => "Float" | Ty_Integer => "Integer" | Ty_Boolean => "Boolean" | Ty_Text => "Text"
  end.

Definition show_control (c : Iec104ControlType) : string :=
  match c with
  | SingleCommand => "SingleCommand"
  | DoubleCommand => "DoubleCommand"
  | SetpointFloat => "SetpointFloat"
  end.

(** ** IEC 101 and IEC 104 addresses *)

(** [PointAddress::iec101] and [PointAddress::iec104]. *)
Definition iec101_address (link common ioa : Z) : PointAddress :=
  {| addr_kind := "iec101_ioa";
     addr_value := str_of_bytes
       (dec_bytes link ++ colon :: dec_bytes common ++ colon :: dec_bytes ioa);
     addr_modbus := None |}.

Definition iec104_address (common ioa : Z) : PointAddress :=
  {| addr_kind := "iec104_ioa";
     addr_value := str_of_bytes (dec_bytes common ++ colon :: dec_bytes ioa);
     addr_modbus := None |}.

(** [parse_iec101_point_address]. *)
Definition parse_iec101_point_address (value : string) : Result (Z * Z * Z) :=
  match split_on colon (str_bytes value) with
  | [p0; p1; p2] =>
      link ← ok_or (parse_dec (u_max 8) p0) "IEC 101 link address is invalid";
      ensure (negb (link =? u_max 8)) "IEC 101 link address 255 is reserved for broadcast";;
      common ← ok_or (parse_dec (u_max 16) p1) "IEC 101 common address is invalid";
      ensure (negb (common =? 0)) "IEC 101 common address must be greater than zero";;
      ioa ← ok_or (parse_dec (u_max 32) p2) "IEC 101 information object address is invalid";
      ensure (ioa <=? 0xFFFFFF) "IEC 101 information object address exceeds 3-byte range";;
      Ok (link, common, ioa)
  | _ => bail "IEC 101 address must be link_address:common_address:ioa"
  end.

(** [parse_iec104_point_address]. *)
Definition parse_iec104_point_address (value : string) : Result (Z * Z) :=
  '(p0, p1) ← ok_or (split_once colon (str_bytes value))
    "IEC 104 address must be common_address:ioa";
  common ← ok_or (parse_dec (u_max 16) p0) "IEC 104 common address is invalid";
  ensure (negb (common =? 0)) "IEC 104 common address must be greater than zero";;
  ioa ← ok_or (parse_dec (u_max 32) p1) "IEC 104 information object address is invalid";
  ensure (ioa <=? 0xFFFFFF) "IEC 104 information object address exceeds 3-byte range";;
  Ok (common, ioa).

(** [validate_iec101_point]. *)
Definition validate_iec101_point (address : PointAddress) (value_type : TelemetryType)
    (access : PointAccess) (options : option Iec104PointOptions) : Result () :=
  ensure (bool_decide (addr_kind address = "iec101_ioa"%string))
    "IEC 101 points require iec101_ioa address kind";;
  parse_iec101_point_address (addr_value address);;
  ensure (negb (is_writable access && bool_decide (options = None)))
    "writable IEC 101 points require a controlType";;
  match options with
  | Some options =>
      ensure (control_accepts (control_type options) value_type)
        ("IEC 101 control type " +:+ show_control (control_type options) +:+
         " is incompatible with " +:+ show_type value_type +:+ " telemetry")
  | None => Ok ()
  end.

(** [Iec104PointOptions::validate] and [validate_iec104_point]. *)
Definition validate_iec104_options (options : Iec104PointOptions) (value_type : TelemetryType)
    : Result () :=
  ensure (control_accepts (control_type options) value_type)
    ("IEC 104 control type " +:+ show_control (control_type options) +:+
     " is incompatible with " +:+ show_type value_type +:+ " telemetry").

Definition validate_iec104_point (address : PointAddress) (value_type : TelemetryType)
    (access : PointAccess) (options : option Iec104PointOptions) : Result () :=
  ensure (bool_decide (addr_kind address = "iec104_ioa"%string))
    "IEC 104 points require iec104_ioa address kind";;
  parse_iec104_point_address (addr_value address);;
  ensure (negb (is_writable access && bool_decide (options = None)))
    "writable IEC 104 points require a controlType";;
  match options with
  | Some options => validate_iec104_options options value_type
  | None => Ok ()
  end.

(** ** DL/T 645 addresses *)

Record Dlt645PointAddress := {
  dlt_meter_address : string;
  dlt_data_identifier : Z;
  dlt_decimal_places : Z;
  dlt_value_bytes : option Z;
}.

Record Dlt645DataIdentifierTemplate := template {
  tpl_template_id : string;
  tpl_name : string;
  tpl_semantic_id : string;
  tpl_data_identifier : string;
  tpl_value_type : TelemetryType;
  tpl_decimal_places : Z;
  tpl_value_bytes : Z;
  tpl_unit : option string;
}.

Definition DLT645_DATA_IDENTIFIER_TEMPLATES : list Dlt645DataIdentifierTemplate :=
  [template "total_active_energy" "组合有功总电能"
     "electric.energy.active.total" "00000000" Ty_Float 2 4 (Some "kWh");
   template "forward_active_energy" "正向有功总电能"
     "electric.energy.active.forward" "00010000" Ty_Float 2 4 (Some "kWh");
   template "reverse_active_energy" "反向有功总电能"
     "electric.energy.active.reverse" "00020000" Ty_Float 2 4 (Some "kWh");
   template "voltage_a" "A 相电压"
     "electric.voltage.a" "02010100" Ty_Float 1 2 (Some "V");
   template "voltage_b" "B 相电压"
     "electric.voltage.b" "02010200" Ty_Float 1 2 (Some "V");
   template "voltage_c" "C 相电压"
     "electric.voltage.c" "02010300" Ty_Float 1 2 (Some "V");
   template "current_a" "A 相电流"
     "electric.current.a" "02020100" Ty_Float 3 3 (Some "A");
   template "current_b" "B 相电流"
     "electric.current.b" "02020200" Ty_Float 3 3 (Some "A");
   template "current_c" "C 相电流"
     "electric.current.c" "02020300" Ty_Float 3 3 (Some "A");
   template "active_power_total" "总有功功率"
     "electric.power.active.total" "02030000" Ty_Float 4 3 (Some "kW");
   template "active_power_a" "A 相有功功率"
     "electric.power.active.a" "02030100" Ty_Float 4 3 (Some "kW");
   template "reactive_power_total" "总无功功率"
     "electric.power.reactive.total" "02040000" Ty_Float 4 3 (Some "kvar");
   template "apparent_power_total" "总视在功率"
     "electric.power.apparent.total" "02050000" Ty_Float 4 3 (Some "kVA");
   template "power_factor_total" "总功率因数"
     "electric.power_factor.total" "02060000" Ty_Float 3 2 (None);
   template "frequency" "电网频率"
     "electric.frequency" "02800002" Ty_Float 2 2 (Some "Hz");
   template "meter_number" "电表编号"
     "meter.serial_number" "04000401" Ty_Text 0 6 (None)].

(** [dlt645_template_by_identifier]. *)
Definition dlt645_template_by_identifier (data_identifier : Z)
    : option Dlt645DataIdentifierTemplate :=
  find_first (fun t =>
    bool_decide (parse_hex (u_max 32) (str_bytes (tpl_data_identifier t)) = Some data_identifier))
    DLT645_DATA_IDENTIFIER_TEMPLATES.

(** [text.strip_prefix("0x").or_else(|| text.strip_prefix("0X")).unwrap_or(text)]. *)
Definition strip_0x (text : bytes) : bytes :=
  match strip_prefix (str_bytes "0x") text with
  | Some rest => rest
  | None => default text (strip_prefix (str_bytes "0X") text)
  end.

(** [parse_dlt645_point_address]. *)
Definition parse_dlt645_point_address (value : string) : Result Dlt645PointAddress :=
  let parts := split_on colon (str_bytes value) in
  let meter := str_trim (str_of_bytes (default [] (parts !! 0%nat))) in
  ensure (bool_decide (length (str_bytes meter) = 12%nat) &&
          forallb is_ascii_digit (str_bytes meter))
    "DL/T 645 meter address must contain 12 decimal digits";;
  text ← ok_or (parts !! 1%nat) "DL/T 645 data identifier is required";
  let text := strip_0x text in
  ensure (bool_decide (length text = 8%nat))
    "DL/T 645 data identifier must contain 8 hexadecimal digits";;
  data_identifier ← ok_or (parse_hex (u_max 32) text)
    ("invalid DL/T 645 data identifier: " +:+ str_of_bytes text);
  decimal_places ←
    match parts !! 2%nat with
    | None | Some [] => Ok 0
    | Some t => ok_or (parse_dec (u_max 8) t)
        ("invalid DL/T 645 decimal places: " +:+ str_of_bytes t)
    end;
  value_bytes ←
    match parts !! 3%nat with
    | None => Ok None
    | Some t =>
        v ← ok_or (parse_dec (u_max 8) t)
          ("invalid DL/T 645 response value byte length: " +:+ str_of_bytes t);
        Ok (Some v)
    end;
  ensure (bool_decide (parts !! 4%nat = None))
    "DL/T 645 address must be meter:data_identifier[:decimal_places[:value_bytes]]";;
  ensure (decimal_places <=? 18) "DL/T 645 decimal places cannot exceed 18";;
  ensure (negb (bool_decide (value_bytes = Some 0)))
    "DL/T 645 response value byte length must be at least 1";;
  ensure (match value_bytes with Some v => v <? 252 | None => true end)
    "DL/T 645 response value byte length cannot exceed 251";;
  Ok {| dlt_meter_address := meter; dlt_data_identifier := data_identifier;
        dlt_decimal_places := decimal_places; dlt_value_bytes := value_bytes |}.

(** [PointAddress::dlt645_vendor] with the identifier as the eight digits
    [{data_identifier:08X}]. *)
Definition dlt645_vendor (meter : string) (data_identifier decimal_places value_bytes : Z)
    : PointAddress :=
  {| addr_kind := "dlt645_address";
     addr_value := str_of_bytes
       (str_bytes meter ++ colon :: hex_upper 8 data_identifier ++
        colon :: dec_bytes decimal_places ++ colon :: dec_bytes value_bytes);
     addr_modbus := None |}.

(** ** Custom serial frames *)

Inductive CustomSerialChecksum := Ck_None | Sum8 | Xor8 | ModbusCrc16 | Crc16CcittFalse.
Inductive CustomSerialFrameEncoding := Raw | Slip | Cobs.
Inductive CustomSerialValueEncoding :=
  BoolU8 | Cs_U8 | Cs_I8 | U16Be | U16Le | I16Be | I16Le | U32Be | U32Le | I32Be | I32Le
| F32Be | F32Le | F64Be | F64Le | Utf8.

#[export] Instance CustomSerialFrameEncoding_eq_dec : EqDecision CustomSerialFrameEncoding.
Proof. solve_decision. Defined.

(** [CustomSerialValueEncoding::fixed_width]. *)
Definition fixed_width (e : CustomSerialValueEncoding) : option Z :=
  match e with
  | BoolU8 | Cs_U8 | Cs_I8 => Some 1
  | U16Be | U16Le | I16Be | I16Le => Some 2
  | U32Be | U32Le | I32Be | I32Le | F32Be | F32Le => Some 4
  | F64Be | F64Le => Some 8
  | Utf8 => None
  end.

Definition show_value_encoding (e : CustomSerialValueEncoding) : string :=
  match e with
  | BoolU8 => "BoolU8" | Cs_U8 => "U8" | Cs_I8 => "I8" | U16Be => "U16Be" | U16Le => "U16Le"
  | I16Be => "I16Be" | I16Le => "I16Le" | U32Be => "U32Be" | U32Le => "U32Le"
  | I32Be => "I32Be" | I32Le => "I32Le" | F32Be => "F32Be" | F32Le => "F32Le"
  | F64Be => "F64Be" | F64Le => "F64Le" | Utf8 => "Utf8"
  end.

Record CustomSerialPointSpec := {
  cs_schema_version : Z;
  cs_request_hex : string;
  cs_request_checksum : CustomSerialChecksum;
  cs_response_checksum : CustomSerialChecksum;
  cs_response_prefix_hex : option string;
  cs_frame_encoding : CustomSerialFrameEncoding;
  cs_value_offset : Z;
  cs_value_length : option Z;
  cs_value_encoding : CustomSerialValueEncoding;
  cs_scale : f64;
  cs_offset : f64;
}.

(** [CustomSerialPointSpec::new]. *)
Definition new_custom_spec (request_hex : string) (value_offset : Z)
    (encoding : CustomSerialValueEncoding) : CustomSerialPointSpec :=
  {| cs_schema_version := 1; cs_request_hex := request_hex; cs_request_checksum := Ck_None;
     cs_response_checksum := Ck_None; cs_response_prefix_hex := None; cs_frame_encoding := Raw;
     cs_value_offset := value_offset; cs_value_length := fixed_width encoding;
     cs_value_encoding := encoding; cs_scale := f64_one; cs_offset := f64_zero |}.

(** [CustomSerialPointSpec::value_width]. *)
Definition value_width (spec : CustomSerialPointSpec) : Result Z :=
  match fixed_width (cs_value_encoding spec) with
  | Some width =>
      match cs_value_length spec with
      | Some configured =>
          ensure (configured =? width)
            ("valueLength must be " +:+ show_Z width +:+ " for " +:+
             show_value_encoding (cs_value_encoding spec));;
          Ok width
      | None => Ok width
      end
  | None =>
      match cs_value_length spec with
      | Some length => ensure (0 <? length) "valueLength is required for utf8 values";; Ok length
      | None => bail "valueLength is required for utf8 values"
      end
  end.

(** [char::is_ascii_whitespace]: tab, line feed, form feed, carriage return and
    space. *)
Definition is_ascii_whitespace (b : Z) : bool :=
  (b =? 9) || (b =? 10) || (b =? 12) || (b =? 13) || (b =? 32).

(** [std::str::from_utf8] on two bytes: two ASCII characters, or one two-byte
    character. *)
Definition valid_utf8_pair (a b : Z) : bool :=
  ((a <? 128) && (b <? 128)) || ((194 <=? a) && (a <=? 223) && (128 <=? b) && (b <=? 191)).

(** The loop over [chunks_exact(2)]: each pair must be UTF-8 (an [expect]) and
    a hexadecimal byte. *)
Fixpoint decode_hex_pairs (pairs : list (Z * Z)) : Result bytes :=
  match pairs with
  | [] => Ok []
  | (a, b) :: pairs =>
      if valid_utf8_pair a b then
        byte ← ok_or (parse_hex (u_max 8) [a; b])
          ("invalid hex byte: " +:+ str_of_bytes [a; b]);
        rest ← decode_hex_pairs pairs;
        Ok (byte :: rest)
      else Panic "hex pairs are valid UTF-8"
  end.

(** [decode_custom_serial_hex]. *)
Definition decode_custom_serial_hex (value : string) : Result bytes :=
  let text := strip_0x (str_bytes (str_trim value)) in
  let compact := List.filter (fun b =>
    negb (is_ascii_whitespace b) && negb ((b =? 58) || (b =? 45))) text in
  ensure (Nat.even (length compact)) "hex value must contain complete byte pairs";;
  decode_hex_pairs (chunks2 compact).

(** [validate_custom_serial_point_spec]. *)
Definition validate_custom_serial_point_spec (spec : CustomSerialPointSpec) : Result () :=
  ensure ((cs_schema_version spec =? 1) || (cs_schema_version spec =? 2))
    ("unsupported custom serial DSL schemaVersion " +:+ show_Z (cs_schema_version spec) +:+
     "; supported versions are 1 and 2");;
  ensure (negb ((cs_schema_version spec =? 1) && negb (bool_decide (cs_frame_encoding spec = Raw))))
    "custom serial DSL schemaVersion 1 only supports raw frameEncoding";;
  request ← decode_custom_serial_hex (cs_request_hex spec);
  ensure (negb (bool_decide (request = []))) "requestHex must contain at least one byte";;
  ensure (Z.of_nat (length request) <=? 1024) "requestHex exceeds the 1024-byte limit";;
  (match cs_response_prefix_hex spec with
   | Some prefix =>
       prefix ← decode_custom_serial_hex prefix;
       ensure (Z.of_nat (length prefix) <=? 256) "responsePrefixHex exceeds the 256-byte limit"
   | None => Ok ()
   end);;
  ensure (is_finite (cs_scale spec) && is_finite (cs_offset spec))
    "scale and offset must be finite numbers";;
  width ← value_width spec;
  stop ← ok_or (checked_add 64 (cs_value_offset spec) width) "value range overflows";
  ensure (stop <=? 4096) "value range exceeds the 4096-byte response limit".

(** ** Modbus points *)

(** [validate_point_access]. *)
Definition validate_point_access (address : PointAddress) (access : PointAccess) : Result () :=
  ensure (negb (is_writable access &&
      (bool_decide (addr_kind address = "input_register"%string) ||
       bool_decide (addr_kind address = "discrete_input"%string))))
    ("Modbus " +:+ addr_kind address +:+ " points are protocol-level read-only");;
  ensure (negb (is_writable access &&
      match addr_modbus address with
      | Some options => bool_decide (mb_bit_index options <> None)
      | None => false
      end))
    "writable Modbus register bit fields require an atomic mask-write operation".

(** The checks on a configured bit index. *)
Definition validate_bit_index (options : ModbusPointOptions) (value_type : TelemetryType)
    (bit_index : Z) : Result () :=
  ensure (bit_index <=? 15) "Modbus register bit index must be between 0 and 15";;
  ensure (bool_decide (value_type = Ty_Boolean))
    "Modbus register bit fields must use boolean telemetry type";;
  ensure (match mb_encoding options with None => true | Some _ => false end)
    "Modbus register bit fields cannot define a numeric encoding";;
  ensure (f64_eq (mb_scale options) f64_one && f64_eq (mb_offset options) f64_zero)
    "Modbus register bit fields cannot define scale or offset".

(** [validate_modbus_point_options]. *)
Definition validate_modbus_point_options (address : PointAddress) (value_type : TelemetryType)
    (access : PointAccess) : Result () :=
  validate_point_access address access;;
  match addr_modbus address with
  | None => Ok ()
  | Some options =>
      let has_encoding := match mb_encoding options with None => false | Some _ => true end in
      ensure (bool_decide (addr_kind address = "holding_register"%string) ||
              bool_decide (addr_kind address = "input_register"%string))
        "Modbus decoding options are only valid for register points";;
      ensure (is_finite (mb_scale options) && negb (f64_eq (mb_scale options) f64_zero) &&
              is_finite (mb_offset options))
        "Modbus scale must be finite and non-zero and offset must be finite";;
      (match mb_bit_index options with
       | Some bit_index => validate_bit_index options value_type bit_index
       | None => Ok ()
       end);;
      ensure (negb (bool_decide (value_type = Ty_Boolean) && has_encoding))
        "boolean Modbus register points cannot define a numeric encoding";;
      ensure (negb (bool_decide (value_type = Ty_Text) &&
          (has_encoding || negb (f64_eq (mb_scale options) f64_one) ||
           negb (f64_eq (mb_offset options) f64_zero))))
        "text Modbus register points cannot define numeric decoding options";;
      match mb_encoding options, value_type with
      | Some encoding, Ty_Float =>
          ensure (encoding_is_float encoding)
            "float Modbus points require f32 or f64 register encoding"
      | Some encoding, Ty_Integer =>
          ensure (encoding_is_integer encoding)
            "integer Modbus points require an integer register encoding"
      | _, _ => Ok ()
      end
  end.

(** ** Read transforms *)

(** The check of one step; [None] lets the loop go on. *)
Definition transform_problem (t : PointValueTransform) : option string :=
  match t with
  | Linear factor offset =>
      if negb (is_finite factor) || negb (is_finite offset)
      then Some "linear parameters must be finite"%string else None
  | Clamp min max =>
      if negb (is_finite min) || negb (is_finite max) || f64_gt min max
      then Some "clamp range must be finite and ordered"%string else None
  | Round decimals =>
      if 12 <? decimals then Some "decimal places cannot exceed 12"%string else None
  | Power exponent =>
      if negb (is_finite exponent) then Some "power exponent must be finite"%string else None
  | MapRange input_min input_max output_min output_max _ =>
      if negb (is_finite input_min) || negb (is_finite input_max) ||
         negb (is_finite output_min) || negb (is_finite output_max) || f64_eq input_min input_max
      then Some "range mapping parameters must be finite and input bounds must differ"%string
      else None
  | Absolute | SquareRoot => None
  end.

Fixpoint check_transforms (index : Z) (ts : list PointValueTransform) : Result () :=
  match ts with
  | [] => Ok ()
  | t :: ts =>
      match transform_problem t with
      | Some message =>
          Err ("read processing step " +:+ show_Z (index + 1) +:+ " " +:+ message)
      | None => check_transforms (index + 1) ts
      end
  end.

(** [validate_point_read_transforms]. *)
Definition validate_point_read_transforms (ts : list PointValueTransform)
    (value_type : TelemetryType) : Result () :=
  ensure (Z.of_nat (length ts) <=? 16) "point read processing cannot contain more than 16 steps";;
  ensure (match ts with [] => true | _ =>
            match value_type with Ty_Float | Ty_Integer => true | _ => false end end)
    "point read processing is only supported for numeric points";;
  check_transforms 0 ts.

(** * Facts about the grammars *)

(** The ranges of every parsed number in the context. *)
Ltac parse_ranges :=
  repeat match goal with
  | H : parse_dec _ _ = Some _ |- _ => apply parse_dec_range in H
  | H : parse_hex _ _ = Some _ |- _ => apply parse_hex_range in H
  end.

Lemma parse_iec101_range value l c i :
  parse_iec101_point_address value = Ok (l, c, i) ->
  0 <= l < 255 /\ 0 < c < 65536 /\ 0 <= i < 2 ^ 24.
Proof.
  unfold parse_iec101_point_address. intros H. repeat case_match; try done.
  inv_result. simp_bool. parse_ranges. unfold u_max in *. lia.
Qed.

Lemma parse_iec104_range value c i :
  parse_iec104_point_address value = Ok (c, i) -> 0 < c < 65536 /\ 0 <= i < 2 ^ 24.
Proof.
  unfold parse_iec104_point_address. intros H. inv_result. repeat case_match; inv_result.
  simp_bool. parse_ranges. unfold u_max in *. lia.
Qed.

Lemma iec101_address_parses l c i :
  0 <= l < 255 -> 0 < c < 65536 -> 0 <= i < 2 ^ 24 ->
  parse_iec101_point_address (addr_value (iec101_address l c i)) = Ok (l, c, i).
Proof.
  intros Hl Hc Hi. unfold parse_iec101_point_address, iec101_address. simpl addr_value.
  rewrite str_bytes_of_bytes by (repeat (apply Forall_app_2 || constructor); try apply dec_bytes_ok; unfold byte_ok, colon; lia).
  rewrite !split_on_app, split_on_none by (apply dec_bytes_no_colon; lia).
  rewrite !parse_dec_bytes by (unfold u_max; lia). simpl.
  rewrite (proj2 (Z.eqb_neq l (u_max 8))), (proj2 (Z.eqb_neq c 0)) by (unfold u_max; lia).
  simpl. by rewrite (proj2 (Z.leb_le _ _)) by lia.
Qed.

Lemma iec104_address_parses c i :
  0 < c < 65536 -> 0 <= i < 2 ^ 24 ->
  parse_iec104_point_address (addr_value (iec104_address c i)) = Ok (c, i).
Proof.
  intros Hc Hi. unfold parse_iec104_point_address, iec104_address. simpl addr_value.
  rewrite str_bytes_of_bytes by (repeat (apply Forall_app_2 || constructor); try apply dec_bytes_ok; unfold byte_ok, colon; lia).
  rewrite split_once_app by (apply dec_bytes_no_colon; lia).
  simpl. rewrite !parse_dec_bytes by (unfold u_max; lia). simpl.
  rewrite (proj2 (Z.eqb_neq c 0)) by lia. simpl.
  by rewrite (proj2 (Z.leb_le _ _)) by lia.
Qed.

(** ** Hexadecimal rendering *)

Lemma hex_digit_char d : 0 <= d < 16 -> hex_digit (hex_char d) = Some d.
Proof.
  intros Hd. unfold hex_char, hex_digit, is_ascii_digit.
  destruct (Z.ltb_spec d 10).
  - rewrite (proj2 (Z.leb_le 48 _)), (proj2 (Z.leb_le _ 57)) by lia. simpl. f_equal. lia.
  - rewrite (proj2 (Z.leb_gt _ 57)), (proj2 (Z.leb_gt 97 _)) by lia.
    rewrite andb_false_r. simpl.
    rewrite (proj2 (Z.leb_le 65 _)), (proj2 (Z.leb_le _ 70)) by lia. simpl. f_equal. lia.
Qed.

Lemma radix_value_app radix digit acc l1 l2 :
  radix_value radix digit acc (l1 ++ l2) =
  (v ← radix_value radix digit acc l1; radix_value radix digit v l2).
Proof.
  revert acc. induction l1 as [|b l1 IH]; intros acc; simpl; [done|].
  destruct (digit b); simpl; [apply IH | done].
Qed.

Lemma hex_upper_value n x :
  0 <= x < 16 ^ Z.of_nat n -> radix_value 16 hex_digit 0 (hex_upper n x) = Some x.
Proof.
  revert x. induction n as [|n IH]; intros x Hx.
  - simpl in *. f_equal. lia.
  - rewrite Nat2Z.inj_succ, Z.pow_succ_r in Hx by lia. cbn [hex_upper].
    pose proof (Z.mod_pos_bound x 16 ltac:(lia)).
    pose proof (Z.div_mod x 16 ltac:(lia)).
    rewrite radix_value_app, IH by lia. simpl mbind. cbn [radix_value].
    rewrite hex_digit_char by lia. simpl. f_equal. lia.
Qed.

Lemma length_hex_upper n x : length (hex_upper n x) = n.
Proof.
  revert x; induction n as [|n IH]; intros x; cbn [hex_upper]; [done|].
  rewrite length_app, IH. simpl. lia.
Qed.

Definition upper_hex_byte (b : Z) : Prop := 48 <= b <= 57 \/ 65 <= b <= 70.

Lemma hex_upper_bytes n x : 0 <= x -> Forall upper_hex_byte (hex_upper n x).
Proof.
  revert x; induction n as [|n IH]; intros x Hx; cbn [hex_upper]; [constructor|].
  apply Forall_app_2; [apply IH, Z.div_pos; lia|].
  constructor; [|constructor]. pose proof (Z.mod_pos_bound x 16 ltac:(lia)).
  unfold upper_hex_byte, hex_char. destruct (Z.ltb_spec (x mod 16) 10); lia.
Qed.

Lemma strip_0x_hex n x : 0 <= x -> strip_0x (hex_upper n x) = hex_upper n x.
Proof.
  intros Hx. pose proof (hex_upper_bytes n x Hx) as Hb.
  set (l := hex_upper n x) in *. clearbody l.
  unfold strip_0x, strip_prefix.
  change (str_bytes "0x") with [48; 120]. change (str_bytes "0X") with [48; 88].
  destruct l as [|a [|b l]]; cbn [bytes_prefix]; [done| |].
  - by rewrite !andb_false_r.
  - apply Forall_cons_iff in Hb as [_ Hb]. apply Forall_cons_iff in Hb as [Hb _].
    destruct Hb as [Hb|Hb];
      rewrite (proj2 (Z.eqb_neq 120 b)), (proj2 (Z.eqb_neq 88 b))
        by lia; by rewrite !andb_false_r.
Qed.

Lemma parse_hex_upper n x :
  (0 < n)%nat -> 0 <= x < 16 ^ Z.of_nat n -> x <= u_max 32 ->
  parse_hex (u_max 32) (hex_upper n x) = Some x.
Proof.
  intros Hn Hx Hmax. unfold parse_hex, parse_unsigned.
  assert (Hstrip : match hex_upper n x with 43 :: rest => rest | _ => hex_upper n x end = hex_upper n x).
  { pose proof (hex_upper_bytes n x ltac:(lia)) as Hb.
    destruct (hex_upper n x) as [|b l]; [done|]. apply Forall_cons_iff in Hb as [Hb _].
    unfold upper_hex_byte in Hb. repeat (case_match; try done). lia. }
  rewrite Hstrip, bool_decide_false.
  - rewrite hex_upper_value by done. simpl. by rewrite (proj2 (Z.leb_le _ _)) by lia.
  - intros H. apply (f_equal length) in H. rewrite length_hex_upper in H. simpl in H. lia.
Qed.

(** ** Trimming a text without outer whitespace *)

Lemma strip_whitespace_digit b l : is_ascii_digit b = true -> strip_whitespace (b :: l) = None.
Proof.
  intros H. unfold is_ascii_digit in H. simp_bool. unfold strip_whitespace.
  unfold ascii_whitespace. rewrite (proj2 (Z.leb_gt b 13)), (proj2 (Z.eqb_neq b 32)) by lia.
  rewrite andb_false_r. simpl. destruct l as [|b2 [|b3 l]]; [done|..].
  - unfold whitespace2. by rewrite (proj2 (Z.eqb_neq b 194)) by lia.
  - unfold whitespace2, whitespace3.
    by rewrite (proj2 (Z.eqb_neq b 194)), (proj2 (Z.eqb_neq b 225)), (proj2 (Z.eqb_neq b 226)),
      (proj2 (Z.eqb_neq b 227)) by lia.
Qed.

Lemma strip_whitespace_end_digit b l :
  is_ascii_digit b = true -> strip_whitespace_end (b :: l) = None.
Proof.
  intros H. unfold is_ascii_digit in H. simp_bool. unfold strip_whitespace_end.
  unfold ascii_whitespace. rewrite (proj2 (Z.leb_gt b 13)), (proj2 (Z.eqb_neq b 32)) by lia.
  rewrite andb_false_r. simpl. destruct l as [|b2 [|b3 l]]; [done|..].
  - unfold whitespace2.
    rewrite (proj2 (Z.eqb_neq b 133)), (proj2 (Z.eqb_neq b 160)) by lia.
    by rewrite andb_false_r.
  - unfold whitespace2, whitespace3.
    rewrite (proj2 (Z.eqb_neq b 133)), (proj2 (Z.eqb_neq b 160)), (proj2 (Z.eqb_neq b 128)),
      (proj2 (Z.leb_gt 128 b)), (proj2 (Z.eqb_neq b 168)), (proj2 (Z.eqb_neq b 169)),
      (proj2 (Z.eqb_neq b 175)), (proj2 (Z.eqb_neq b 159)) by lia.
    by rewrite !andb_false_r.
Qed.

Lemma str_trim_digits l :
  forallb is_ascii_digit l = true -> str_trim (str_of_bytes l) = str_of_bytes l.
Proof.
  intros Hdig%forallb_Forall. assert (Hok : bytes_ok l).
  { eapply Forall_impl; [|exact Hdig]. by intros b [? _]%is_ascii_digit_ok. }
  unfold str_trim. rewrite str_bytes_of_bytes by done. f_equal.
  assert (Hs : trim_start_bytes l = l).
  { unfold trim_start_bytes. destruct Hdig as [|b l Hb]; [done|].
    cbn [length trim_start_fuel]. by rewrite strip_whitespace_digit by done. }
  rewrite Hs. unfold trim_end_bytes. apply Forall_reverse in Hdig.
  rewrite <- (length_reverse l). rewrite <- (reverse_involutive l) at 3.
  f_equal. destruct Hdig as [|b r Hb]; [done|].
  cbn [length trim_end_fuel]. by rewrite strip_whitespace_end_digit by done.
Qed.

(** ** DL/T 645 addresses, parsed and printed *)

#[local] Arguments hex_upper : simpl never.

Lemma parse_dlt645_range value a :
  parse_dlt645_point_address value = Ok a ->
  length (str_bytes (dlt_meter_address a)) = 12%nat /\
  forallb is_ascii_digit (str_bytes (dlt_meter_address a)) = true /\
  u_ok 32 (dlt_data_identifier a) /\ 0 <= dlt_decimal_places a <= 18 /\
  (forall n, dlt_value_bytes a = Some n -> 1 <= n <= 251).
Proof.
  unfold parse_dlt645_point_address. intros H. inv_result. simpl. simp_bool.
  assert (Hdp : 0 <= a4) by (repeat case_match; inv_result; parse_ranges; lia).
  assert (Hvb : forall n, a5 = Some n -> 0 <= n <= u_max 8)
    by (intros n ->; repeat case_match; inv_result; simplify_eq; by parse_ranges).
  parse_ranges. split; [done|]. split; [done|]. split; [unfold u_ok, u_max in *; lia|].
  split; [lia|]. intros n ->. specialize (Hvb n eq_refl). simp_bool.
  assert (n <> 0) by congruence. lia.
Qed.

Lemma dlt645_vendor_parses meter di dp vb :
  length meter = 12%nat -> forallb is_ascii_digit meter = true ->
  u_ok 32 di -> 0 <= dp <= 18 -> 1 <= vb <= 251 ->
  parse_dlt645_point_address (addr_value (dlt645_vendor (str_of_bytes meter) di dp vb)) =
  Ok {| dlt_meter_address := str_of_bytes meter; dlt_data_identifier := di;
        dlt_decimal_places := dp; dlt_value_bytes := Some vb |}.
Proof.
  intros Hlen Hdig [Hdi0 Hdi] Hdp Hvb.
  pose proof (proj1 (forallb_Forall _ _) Hdig) as Hall.
  assert (Hok : bytes_ok meter).
  { eapply Forall_impl; [|exact Hall]. by intros b [? _]%is_ascii_digit_ok. }
  unfold parse_dlt645_point_address, dlt645_vendor. cbn [addr_value].
  rewrite (str_bytes_of_bytes meter) by done.
  pose proof (hex_upper_bytes 8 di Hdi0) as Hhex.
  rewrite str_bytes_of_bytes; cycle 1.
  { assert (byte_ok colon) by (unfold byte_ok, colon; lia).
    assert (bytes_ok (hex_upper 8 di)).
    { eapply Forall_impl; [|exact Hhex]. unfold upper_hex_byte, byte_ok. lia. }
    pose proof (dec_bytes_ok dp ltac:(lia)). pose proof (dec_bytes_ok vb ltac:(lia)).
    unfold bytes_ok. by do 3 rewrite Forall_app, Forall_cons_iff. }
  rewrite split_on_app by (eapply Forall_impl; [|exact Hall]; by intros b (_ & _ & ?)%is_ascii_digit_ok).
  rewrite split_on_app by (eapply Forall_impl; [|exact Hhex]; unfold upper_hex_byte, colon; lia).
  rewrite split_on_app, split_on_none by (apply dec_bytes_no_colon; lia).
  simpl default. rewrite str_trim_digits, str_bytes_of_bytes by done.
  rewrite (bool_decide_true _ Hlen), Hdig. simpl.
  rewrite strip_0x_hex, length_hex_upper by done. simpl.
  rewrite parse_hex_upper by (unfold u_max; lia || (split; [lia|]; change (16 ^ Z.of_nat 8) with (2 ^ 32); lia)).
  simpl. pose proof (dec_bytes_nonempty dp) as Hne.
  destruct (dec_bytes dp) as [|d ds] eqn:Edp; [done|]. rewrite <- Edp.
  rewrite !parse_dec_bytes by (unfold u_max; lia). simpl.
  rewrite (proj2 (Z.leb_le dp 18)) by lia. simpl.
  rewrite bool_decide_false by (intros [=]; lia). simpl.
  by rewrite (proj2 (Z.ltb_lt vb 252)) by lia.
Qed.

(** * Properties *)

(** Printing an IEC 101 or IEC 104 point address with the constructors of
    [PointAddress] and parsing it again gives the link, common and information
    object addresses back, for every address the stations can have. *)
Theorem iec_address_roundtrip l c i :
  0 <= l < 255 -> 0 < c < 65536 -> 0 <= i < 2 ^ 24 ->
  parse_iec101_point_address (addr_value (iec101_address l c i)) = Ok (l, c, i) /\
  parse_iec104_point_address (addr_value (iec104_address c i)) = Ok (c, i).
Proof. intros. split; [by apply iec101_address_parses | by apply iec104_address_parses]. Qed.

Lemma iec_address_roundtrip_witness :
  parse_iec101_point_address "1:2:40001" = Ok (1, 2, 40001) /\
  parse_iec104_point_address "2:40001" = Ok (2, 40001).
Proof. apply (iec_address_roundtrip 1 2 40001); lia. Defined.

(** A DL/T 645 address with an explicit response length parses back to its
    meter number, data identifier, decimal places and value length. *)
Theorem dlt645_address_roundtrip meter di dp vb :
  length meter = 12%nat -> forallb is_ascii_digit meter = true ->
  u_ok 32 di -> 0 <= dp <= 18 -> 1 <= vb <= 251 ->
  parse_dlt645_point_address (addr_value (dlt645_vendor (str_of_bytes meter) di dp vb)) =
  Ok {| dlt_meter_address := str_of_bytes meter; dlt_data_identifier := di;
        dlt_decimal_places := dp; dlt_value_bytes := Some vb |}.
Proof. apply dlt645_vendor_parses. Qed.

Lemma dlt645_address_roundtrip_witness :
  parse_dlt645_point_address "000000000123:02010100:1:2" =
  Ok {| dlt_meter_address := "000000000123"; dlt_data_identifier := 0x02010100;
        dlt_decimal_places := 1; dlt_value_bytes := Some 2 |}.
Proof.
  apply (dlt645_address_roundtrip (str_bytes "000000000123") 0x02010100 1 2);
    try reflexivity; try lia. split; lia.
Defined.

(** Decoding a hexadecimal field panics on a text whose byte pairs split a
    two-byte character: [aéb]. *)
Example decode_hex_panics :
  decode_custom_serial_hex "aéb" = Panic "hex pairs are valid UTF-8".
Proof. vm_compute. reflexivity. Qed.

(** [from_str_radix] takes a plus sign for a digit. *)
Example dlt645_identifier_accepts_plus :
  is_ok (parse_dlt645_point_address "000000000123:+2010100") = true /\
  decode_custom_serial_hex "+5" = Ok [5].
Proof. vm_compute. done. Qed.
