(* ===== verification/CommandFlow.v ===== *)
(** The command flow validator, [validate_command_flow] of
    [crates/edge-core/src/config.rs].

    The model is the function of the source, check by check, with the messages
    of [invalid!].  The edge loop of the source also fills the maps [indegree]
    and [outgoing], which nothing reads before it ends: here they are computed
    after the checks, by [initial_indegree] and [flow_pairs].

    [command_flow_accepts_iff] states what a flow must be for the validator to
    accept it; [accepted_flow_connects] what that gives to the command planner. *)

From Stdlib Require Import ZArith Lia.
From stdpp Require Import relations.
From S2P Require Import Prelude RustStr Floats Json Model BTree Graph ConfigTypes ConfigParse.

Open Scope Z_scope.

#[export] Instance CommandGraphNodeKind_eq_dec : EqDecision CommandGraphNodeKind.
Proof. solve_decision. Defined.

(** [{:?}] of a node kind. *)
Definition show_node_kind (k : CommandGraphNodeKind) : string :=
  match k with
  | MqttInput => "MqttInput"
  | JsonParse => "JsonParse"
  | Condition => "Condition"
  | SafetyGate => "SafetyGate"
  | PointWrite => "PointWrite"
  | MqttReply => "MqttReply"
  end.

Abbreviation PointMap := (gmap string TelemetryPointMapping).

Definition flow_msg (flow : CommandFlowConfig) (rest : string) : string :=
  ("command flow " ++ flow_id flow ++ rest)%string.

Definition node_msg (flow : CommandFlowConfig) (what : string) (node : CommandGraphNode)
    (rest : string) : string :=
  flow_msg flow (" " ++ what ++ " node " ++ cnode_id node ++ rest)%string.

(** [if let Some(v) = node.params.get(key) { .. }]. *)
Definition check_param (node : CommandGraphNode) (key : string) (check : Json -> Result ())
    : Result () :=
  match cnode_params node !! key with Some v => check v | None => Ok () end.

Definition check_value_path (flow : CommandFlowConfig) (node : CommandGraphNode) (v : Json)
    : Result () :=
  path ← ok_or (json_as_str v) (node_msg flow "write" node " value_path must be a string");
  ensure (valid_json_field_path path)
    (node_msg flow "write" node
       " value_path must be a non-empty dot-separated JSON field path").

Definition check_verification (flow : CommandFlowConfig) (node : CommandGraphNode) (v : Json)
    : Result () :=
  mode ← ok_or (json_as_str v) (node_msg flow "write" node " verification must be a string");
  ensure (bool_decide (mode = "response"%string) || bool_decide (mode = "readback"%string))
    (node_msg flow "write" node (" verification mode is unsupported: " ++ mode)).

Definition check_tolerance (flow : CommandFlowConfig) (node : CommandGraphNode) (v : Json)
    : Result () :=
  tolerance ← ok_or (json_as_f64 v)
    (node_msg flow "write" node " readback_tolerance must be a number");
  ensure (is_finite tolerance && negb (f64_lt tolerance f64_zero))
    (node_msg flow "write" node " readback_tolerance must be finite and non-negative").

(** [node.params.get("verification").or_else(|| node.params.get("verify_mode"))]. *)
Definition verification_param (node : CommandGraphNode) : option Json :=
  match cnode_params node !! "verification"%string with
  | Some v => Some v
  | None => cnode_params node !! "verify_mode"%string
  end.

(** The checks of a [PointWrite] node. *)
Definition check_write_node (flow : CommandFlowConfig) (points : PointMap) (node : CommandGraphNode)
    : Result () :=
  let point_id := default "" (cnode_ref_id node) in
  mapping ← ok_or (points !! point_id)
    (node_msg flow "write" node (" references missing point " ++ point_id));
  ensure (is_writable (map_access mapping))
    (node_msg flow "write" node (" references read-only point " ++ point_id));;
  ensure (str_is_empty (flow_protocol_connection_id flow) ||
          bool_decide (map_protocol_connection_id mapping = flow_protocol_connection_id flow))
    (node_msg flow "write" node
       (" uses protocol connection " ++ map_protocol_connection_id mapping ++ ", expected " ++
        flow_protocol_connection_id flow));;
  validate_point_access (map_address mapping) (map_access mapping);;
  check_param node "value_path" (check_value_path flow node);;
  match verification_param node with
  | Some v => check_verification flow node v
  | None => Ok ()
  end;;
  check_param node "readback_tolerance" (check_tolerance flow node).

Definition is_non_blank_string (v : Json) : bool :=
  match json_as_str v with Some s => negb (is_blank s) | None => false end.

Definition is_positive (v : Json) : bool :=
  match json_as_u64 v with Some n => 0 <? n | None => false end.

(** The checks of a [SafetyGate] node. *)
Definition check_safety_node (flow : CommandFlowConfig) (node : CommandGraphNode) : Result () :=
  let msg := node_msg flow "safety" node in
  let params := cnode_params node in
  check_param node "require_confirmation" (fun v =>
    ensure (bool_decide (is_Some (json_as_bool v))) (msg " require_confirmation must be boolean"));;
  check_param node "source_path" (fun v =>
    ensure (is_non_blank_string v) (msg " source_path must be a non-empty string"));;
  check_param node "max_confirmation_age_ms" (fun v =>
    ensure (match json_as_u64 v with
            | Some n => (0 <? n) && (n <=? 7 * 24 * 60 * 60 * 1000)
            | None => false
            end) (msg " max_confirmation_age_ms must be between 1 and 604800000"));;
  check_param node "allowed_sources" (fun v =>
    sources ← ok_or (json_as_array v) (msg " allowed_sources must be an array");
    ensure (negb (bool_decide (length sources = O)) && forallb is_non_blank_string sources)
      (msg " allowed_sources requires non-empty strings"));;
  ensure (bool_decide (is_Some (params !! "max_commands"%string) <->
                       is_Some (params !! "window_ms"%string)))
    (msg " max_commands and window_ms must be configured together");;
  check_param node "max_commands" (fun v =>
    ensure (is_positive v) (msg " max_commands must be a positive integer"));;
  check_param node "window_ms" (fun v =>
    ensure (is_positive v) (msg " window_ms must be a positive integer")).

(** The checks of one node, apart from its identifier. *)
Definition check_node (flow : CommandFlowConfig) (points : PointMap) (node : CommandGraphNode)
    : Result () :=
  (if bool_decide (cnode_kind node = PointWrite) then check_write_node flow points node else Ok ());;
  (if bool_decide (cnode_kind node = SafetyGate) then check_safety_node flow node else Ok ()).

(** The node loop; the result is [node_kinds]. *)
Fixpoint check_nodes (flow : CommandFlowConfig) (points : PointMap) (nodes : list CommandGraphNode)
    (kinds : gmap string CommandGraphNodeKind) : Result (gmap string CommandGraphNodeKind) :=
  match nodes with
  | [] => Ok kinds
  | node :: rest =>
      ensure (negb (is_blank (cnode_id node))) (flow_msg flow " node id is required");;
      ensure (bool_decide (kinds !! cnode_id node = None))
        (flow_msg flow (" has duplicate node " ++ cnode_id node));;
      check_node flow points node;;
      check_nodes flow points rest (<[cnode_id node := cnode_kind node]> kinds)
  end.

Definition check_required (flow : CommandFlowConfig) (kinds : gmap string CommandGraphNodeKind)
    (required : CommandGraphNodeKind) : Result () :=
  ensure (existsb (fun e => bool_decide (snd e = required)) (map_to_list kinds))
    (flow_msg flow (" requires a " ++ show_node_kind required ++ " node")).

(** The edge loop. *)
Fixpoint check_edges (flow : CommandFlowConfig) (kinds : gmap string CommandGraphNodeKind)
    (edges : list CommandGraphEdge) (edge_ids : gset string) : Result () :=
  match edges with
  | [] => Ok ()
  | edge :: rest =>
      ensure (bool_decide (cedge_id edge ∉ edge_ids))
        (flow_msg flow (" has duplicate edge " ++ cedge_id edge));;
      from_kind ← ok_or (kinds !! cedge_from edge)
        (flow_msg flow (" edge " ++ cedge_id edge ++ " references missing source " ++ cedge_from edge));
      to_kind ← ok_or (kinds !! cedge_to edge)
        (flow_msg flow (" edge " ++ cedge_id edge ++ " references missing target " ++ cedge_to edge));
      ensure (negb (bool_decide (from_kind = MqttReply)))
        (flow_msg flow (" reply node " ++ cedge_from edge ++ " cannot have outgoing edges"));;
      ensure (negb (bool_decide (to_kind = MqttInput)))
        (flow_msg flow (" input node " ++ cedge_to edge ++ " cannot have incoming edges"));;
      check_edges flow kinds rest ({[cedge_id edge]} ∪ edge_ids)
  end.

Definition flow_pairs (flow : CommandFlowConfig) : list GraphEdge :=
  (fun edge => (cedge_from edge, cedge_to edge)) <$> flow_edges flow.

(** The nodes without upstream and those without downstream. *)
Definition no_upstream (indegree : gmap string nat) (node : CommandGraphNode) : bool :=
  negb (bool_decide (cnode_kind node = MqttInput)) &&
  bool_decide (default O (indegree !! cnode_id node) = O).

Definition no_downstream (pairs : list GraphEdge) (node : CommandGraphNode) : bool :=
  negb (bool_decide (cnode_kind node = MqttReply)) &&
  negb (bool_decide (cnode_id node ∈ (list_to_set (fst <$> pairs) : gset string))).

(** The checks before the cycle search; the result is [node_kinds]. *)
Definition check_flow (flow : CommandFlowConfig) (mappings : list TelemetryPointMapping)
    : Result (gmap string CommandGraphNodeKind) :=
  ensure (negb (is_blank (flow_id flow))) "command flow id is required";;
  ensure (negb (is_blank (flow_mqtt_connection_id flow)))
    (flow_msg flow " MQTT connection is required");;
  ensure (negb (is_blank (flow_subscribe_topic flow)))
    (flow_msg flow " subscribe topic is required");;
  ensure (negb (is_blank (flow_reply_topic_template flow)))
    (flow_msg flow " reply topic is required");;
  ensure (flow_qos flow <=? 2) (flow_msg flow " QoS must be 0, 1, or 2");;
  ensure (negb (bool_decide (length (flow_nodes flow) = O)))
    (flow_msg flow " graph requires nodes");;
  let points := collect_map ((fun m => (map_point_id m, m)) <$> mappings) in
  kinds ← check_nodes flow points (flow_nodes flow) ∅;
  check_required flow kinds MqttInput;;
  check_required flow kinds PointWrite;;
  check_required flow kinds MqttReply;;
  check_edges flow kinds (flow_edges flow) ∅;;
  let indegree := initial_indegree (sorted_keys kinds) (flow_pairs flow) in
  match find_first (no_upstream indegree) (flow_nodes flow) with
  | Some node => Err (flow_msg flow (" node " ++ cnode_id node ++ " has no upstream input"))
  | None =>
      match find_first (no_downstream (flow_pairs flow)) (flow_nodes flow) with
      | Some node => Err (flow_msg flow (" node " ++ cnode_id node ++ " has no downstream output"))
      | None => Ok kinds
      end
  end.

(** [None] would be the fuel of the cycle search running out. *)
Definition validate_command_flow (flow : CommandFlowConfig) (mappings : list TelemetryPointMapping)
    : option (Result ()) :=
  match check_flow flow mappings with
  | Err e => Some (Err e)
  | Panic e => Some (Panic e)
  | Ok kinds =>
      match topological_count (sorted_keys kinds) (flow_pairs flow) with
      | None => None
      | Some visited => Some (
          visited ← visited;
          ensure (bool_decide (visited = length (flow_nodes flow)))
            (flow_msg flow " graph contains a cycle"))
      end
  end.

(** ** What an accepted flow is *)

(** A node of the flow has this identifier and this kind. *)
Definition has_node (flow : CommandFlowConfig) (id : string) (kind : CommandGraphNodeKind) : Prop :=
  exists node, node ∈ flow_nodes flow /\ cnode_id node = id /\ cnode_kind node = kind.

Definition header_ok (flow : CommandFlowConfig) : Prop :=
  is_blank (flow_id flow) = false /\ is_blank (flow_mqtt_connection_id flow) = false /\
  is_blank (flow_subscribe_topic flow) = false /\
  is_blank (flow_reply_topic_template flow) = false /\ flow_qos flow <= 2.

Definition points_of (mappings : list TelemetryPointMapping) : PointMap :=
  collect_map ((fun m => (map_point_id m, m)) <$> mappings).

Definition nodes_ok (flow : CommandFlowConfig) (mappings : list TelemetryPointMapping) : Prop :=
  NoDup (cnode_id <$> flow_nodes flow) /\
  Forall (fun node => is_blank (cnode_id node) = false /\
                      check_node flow (points_of mappings) node = Ok ()) (flow_nodes flow) /\
  (exists id, has_node flow id MqttInput) /\ (exists id, has_node flow id PointWrite) /\
  (exists id, has_node flow id MqttReply).

Definition edges_ok (flow : CommandFlowConfig) : Prop :=
  NoDup (cedge_id <$> flow_edges flow) /\
  Forall (fun edge => exists from to, has_node flow (cedge_from edge) from /\
    has_node flow (cedge_to edge) to /\ from <> MqttReply /\ to <> MqttInput) (flow_edges flow).

Definition connected (flow : CommandFlowConfig) : Prop :=
  forall id kind, has_node flow id kind ->
    (kind <> MqttInput -> exists from, edge_rel (flow_pairs flow) from id) /\
    (kind <> MqttReply -> exists to, edge_rel (flow_pairs flow) id to).

(** ** The node loop *)

Definition kinds_of (nodes : list CommandGraphNode) (kinds : gmap string CommandGraphNodeKind)
    : gmap string CommandGraphNodeKind :=
  fold_left (fun kinds node => <[cnode_id node := cnode_kind node]> kinds) nodes kinds.

Lemma check_nodes_Ok flow points nodes kinds kinds' :
  check_nodes flow points nodes kinds = Ok kinds' <->
  Forall (fun node => is_blank (cnode_id node) = false /\ check_node flow points node = Ok ()) nodes /\
  NoDup (cnode_id <$> nodes) /\ Forall (fun node => kinds !! cnode_id node = None) nodes /\
  kinds' = kinds_of nodes kinds.
Proof.
  revert kinds. induction nodes as [|node nodes IH]; intros kinds.
  - simpl. split; [|naive_solver]. intros [= ->]. split_and!; done || constructor.
  - cbn [check_nodes]. rewrite !Forall_cons_iff, fmap_cons, list.NoDup_cons. split.
    + intros H. apply bind_Ok in H as ([] & Hb & H). apply bind_Ok in H as ([] & Hnew & H).
      apply bind_Ok in H as ([] & Hcheck & H). apply IH in H as (Hall & Hnd & Hfresh & ->).
      apply ensure_Ok in Hb, Hnew. simp_bool.
      split; [done|]. split; [split; [|done] | split; [split; [done|] | done]].
      * intros Hin. apply list_elem_of_fmap in Hin as (n & Hid & Hin).
        pose proof (Forall_elem _ _ _ Hfresh Hin) as Hn. simpl in Hn.
        by rewrite <- Hid, lookup_insert_eq in Hn.
      * eapply Forall_impl; [|exact Hfresh]. intros n. simpl. rewrite lookup_insert_None. naive_solver.
    + intros ([[Hb Hcheck] Hall] & [Hnin Hnd] & [Hnew Hfresh] & ->).
      rewrite Hb, bool_decide_true, Hcheck by done. cbn [negb ensure mbind Result_bind].
      apply IH. split; [done|]. split; [done|]. split; [|done].
      apply list.Forall_forall. intros n Hn. rewrite lookup_insert_None. split.
      * by apply (Forall_elem _ _ _ Hfresh).
      * intros Heq. apply Hnin. rewrite Heq. by apply list_elem_of_fmap_2.
Qed.

Lemma kinds_of_lookup nodes kinds id kind :
  NoDup (cnode_id <$> nodes) ->
  kinds_of nodes kinds !! id = Some kind <->
  (exists node, node ∈ nodes /\ cnode_id node = id /\ cnode_kind node = kind) \/
  ((id ∉ cnode_id <$> nodes) /\ kinds !! id = Some kind).
Proof.
  revert kinds. induction nodes as [|node nodes IH]; intros kinds Hnd.
  - simpl. split; [by right; split; [apply not_elem_of_nil|]|].
    intros [(n & Hn & _) | [_ H]]; [by apply elem_of_nil in Hn | done].
  - rewrite fmap_cons in *. apply list.NoDup_cons in Hnd as [Hnin Hnd].
    unfold kinds_of in *. cbn [fold_left]. rewrite IH by done. setoid_rewrite elem_of_cons.
    destruct (decide (cnode_id node = id)) as [<-|Hne].
    + rewrite lookup_insert_eq. split.
      * intros [(n & Hn & Hid & Hk) | [_ [= <-]]]; [|left; exists node; auto].
        exfalso. apply Hnin. rewrite <- Hid. by apply list_elem_of_fmap_2.
      * intros [(n & [-> | Hn] & Hid & <-) | [Hni _]]; [by right | | exfalso; apply Hni; by left].
        exfalso. apply Hnin. rewrite <- Hid. by apply list_elem_of_fmap_2.
    + rewrite lookup_insert_ne by done. naive_solver.
Qed.

(** ** The edge loop *)

Definition edge_kinds_ok (kinds : gmap string CommandGraphNodeKind) (edge : CommandGraphEdge) : Prop :=
  exists from to, kinds !! cedge_from edge = Some from /\ kinds !! cedge_to edge = Some to /\
    from <> MqttReply /\ to <> MqttInput.

Lemma check_edges_Ok flow kinds edges edge_ids :
  check_edges flow kinds edges edge_ids = Ok () <->
  NoDup (cedge_id <$> edges) /\ Forall (fun edge => cedge_id edge ∉ edge_ids) edges /\
  Forall (edge_kinds_ok kinds) edges.
Proof.
  revert edge_ids. induction edges as [|edge edges IH]; intros edge_ids.
  - simpl. split; [|done]. intros _. split_and!; constructor.
  - cbn [check_edges]. rewrite fmap_cons, list.NoDup_cons, !Forall_cons_iff. split.
    + intros H. inv_result. simp_bool. apply IH in H as (Hnd & Hfresh & Hall).
      split; [split; [|done] | split; [split; [done|] | split; [|done]]].
      * intros Hin. apply list_elem_of_fmap in Hin as (e & Hid & Hin).
        apply (Forall_elem _ _ _ Hfresh Hin). rewrite Hid. set_solver.
      * eapply Forall_impl; [|exact Hfresh]. intros e He Hin. apply He. set_solver.
      * by eexists _, _.
    + intros ([Hnin Hnd] & [Hnew Hfresh] & (from & to & Hf & Ht & Hfk & Htk) & Hall).
      rewrite bool_decide_true, Hf, Ht by done. cbn [ensure ok_or mbind Result_bind].
      rewrite !bool_decide_false by done. cbn [negb ensure mbind Result_bind]. apply IH.
      split; [done|]. split; [|done]. apply list.Forall_forall. intros e He Hin.
      apply elem_of_union in Hin as [Heq%elem_of_singleton | Hin].
      * apply Hnin. rewrite <- Heq. by apply list_elem_of_fmap_2.
      * by apply (Forall_elem _ _ _ Hfresh He).
Qed.

(** ** The checks before the cycle search *)

Lemma check_required_Ok flow kinds required :
  check_required flow kinds required = Ok () <-> exists id, kinds !! id = Some required.
Proof.
  unfold check_required. rewrite ensure_Ok, existsb_exists. split.
  - intros ([id k] & Hin & Hk). apply bool_decide_eq_true in Hk as <-. exists id.
    by apply elem_of_map_to_list, list_elem_of_In.
  - intros [id Hid]. exists (id, required). split; [|by apply bool_decide_eq_true].
    by apply list_elem_of_In, elem_of_map_to_list.
Qed.

(** An identifier is in [node_kinds] with the kind of its node. *)
Lemma flow_kinds flow id kind :
  NoDup (cnode_id <$> flow_nodes flow) ->
  kinds_of (flow_nodes flow) ∅ !! id = Some kind <-> has_node flow id kind.
Proof.
  intros Hnd. rewrite kinds_of_lookup by done. unfold has_node. rewrite lookup_empty. naive_solver.
Qed.

Lemma flow_ids flow :
  NoDup (cnode_id <$> flow_nodes flow) ->
  sorted_keys (kinds_of (flow_nodes flow) ∅) ≡ₚ cnode_id <$> flow_nodes flow.
Proof.
  intros Hnd. apply NoDup_Permutation; [apply sorted_keys_NoDup | done|]. intros id.
  rewrite elem_of_sorted_keys, list_elem_of_fmap. split.
  - intros [kind (node & Hin & <- & _)%flow_kinds]; [by exists node | done].
  - intros (node & -> & Hin). exists (cnode_kind node). apply flow_kinds; [done|]. by exists node.
Qed.

Lemma find_first_None_iff {A} (p : A -> bool) l :
  find_first p l = None <-> forall x, x ∈ l -> p x = false.
Proof. rewrite find_first_None, list.Forall_forall. done. Qed.

Lemma elem_of_froms pairs id : id ∈ fst <$> pairs <-> exists to, edge_rel pairs id to.
Proof.
  unfold edge_rel. rewrite list_elem_of_fmap. split.
  - intros ([x y] & -> & Hin). by exists y.
  - intros [to Hin]. by exists (id, to).
Qed.

(** Nodes with neither check failing are connected. *)
Lemma degree_checks flow :
  NoDup (cnode_id <$> flow_nodes flow) ->
  let indegree := initial_indegree (sorted_keys (kinds_of (flow_nodes flow) ∅)) (flow_pairs flow) in
  (find_first (no_upstream indegree) (flow_nodes flow) = None /\
   find_first (no_downstream (flow_pairs flow)) (flow_nodes flow) = None) <-> connected flow.
Proof.
  intros Hnd indegree.
  assert (Hup : forall node, node ∈ flow_nodes flow -> no_upstream indegree node = false <->
    (cnode_kind node <> MqttInput -> exists from, edge_rel (flow_pairs flow) from (cnode_id node))).
  { intros node Hin. unfold no_upstream, indegree.
    rewrite initial_lookup by (rewrite flow_ids by done; by apply list_elem_of_fmap_2). simpl.
    rewrite andb_false_iff, negb_false_iff, bool_decide_eq_true, bool_decide_eq_false.
    destruct (remaining (flow_pairs flow) [] (cnode_id node)) eqn:E.
    - rewrite remaining_zero in E. split; [intros [?|?]; done|].
      intros H. left. destruct (decide (cnode_kind node = MqttInput)) as [|Hk]; [done|].
      destruct (H Hk) as [from Hf]. apply E, elem_of_nil in Hf. done.
    - split; [|by right]. intros _ _. unfold remaining in E.
      destruct (filter _ (flow_pairs flow)) as [|[x y] l] eqn:Ef; [done|].
      assert (Hxy : (x, y) ∈ (x, y) :: l) by by left. rewrite <- Ef in Hxy.
      apply list_elem_of_filter in Hxy as [[Hy _] Hxy]. simpl in Hy. subst y. by exists x. }
  assert (Hdown : forall node, no_downstream (flow_pairs flow) node = false <->
    (cnode_kind node <> MqttReply -> exists to, edge_rel (flow_pairs flow) (cnode_id node) to)).
  { intros node. unfold no_downstream.
    rewrite andb_false_iff, !negb_false_iff, !bool_decide_eq_true, elem_of_list_to_set, elem_of_froms.
    destruct (decide (cnode_kind node = MqttReply)); naive_solver. }
  rewrite !find_first_None_iff. unfold connected, has_node. split.
  - intros [H1 H2] id kind (node & Hin & <- & <-). split; [by apply Hup, H1 | by apply Hdown, H2].
  - intros H. split; intros node Hin; [apply Hup; [done|] | apply Hdown]; by eapply H; exists node.
Qed.

Lemma edges_ok_kinds flow :
  NoDup (cnode_id <$> flow_nodes flow) ->
  edges_ok flow <-> NoDup (cedge_id <$> flow_edges flow) /\
    Forall (edge_kinds_ok (kinds_of (flow_nodes flow) ∅)) (flow_edges flow).
Proof.
  intros Hnd. unfold edges_ok, edge_kinds_ok. setoid_rewrite flow_kinds; done.
Qed.

Lemma check_flow_Ok flow mappings kinds :
  check_flow flow mappings = Ok kinds <->
  header_ok flow /\ nodes_ok flow mappings /\ edges_ok flow /\ connected flow /\
  kinds = kinds_of (flow_nodes flow) ∅.
Proof.
  unfold check_flow, header_ok, nodes_ok. split.
  - intros H. inv_result. simp_bool.
    match goal with H : check_nodes _ _ _ _ = Ok _ |- _ =>
      apply check_nodes_Ok in H as (Hall & Hnd & _ & ->) end.
    repeat match goal with H : check_required _ _ _ = Ok _ |- _ => apply check_required_Ok in H as [? ?] end.
    match goal with H : check_edges _ _ _ _ = Ok _ |- _ => apply check_edges_Ok in H as (He & _ & Hk) end.
    destruct (find_first (no_upstream _) _) eqn:E1; [done|].
    destruct (find_first (no_downstream _) _) eqn:E2; [done|]. injection H as <-.
    split_and!; try done; try lia.
    + eexists. by apply flow_kinds.
    + eexists. by apply flow_kinds.
    + eexists. by apply flow_kinds.
    + by apply edges_ok_kinds.
    + apply degree_checks; [done | by split].
  - intros ((H1 & H2 & H3 & H4 & H5) & (Hnd & Hall & Hin & Hwr & Hre) & Hedges & Hconn & ->).
    rewrite H1, H2, H3, H4, (proj2 (Z.leb_le _ _) H5). cbn [negb ensure mbind Result_bind].
    destruct (flow_nodes flow) as [|node nodes] eqn:En.
    { destruct Hin as (id & n & Hn & _). rewrite En in Hn. by apply elem_of_nil in Hn. }
    rewrite <- En in *. rewrite bool_decide_false by (rewrite En; done).
    cbn [negb ensure mbind Result_bind]. fold (points_of mappings).
    assert (Hnodes : check_nodes flow (points_of mappings) (flow_nodes flow) ∅ =
      Ok (kinds_of (flow_nodes flow) ∅)).
    { apply check_nodes_Ok. split_and!; [done..| |done]. apply list.Forall_forall.
      intros n _. apply lookup_empty. }
    rewrite Hnodes. cbn [mbind Result_bind].
    assert (Hreq : forall kind, (exists id, has_node flow id kind) ->
      check_required flow (kinds_of (flow_nodes flow) ∅) kind = Ok ()).
    { intros kind [id Hid]. apply check_required_Ok. exists id. by apply flow_kinds. }
    rewrite !Hreq by done. cbn [mbind Result_bind].
    apply edges_ok_kinds in Hedges as [He Hk]; [|done].
    assert (Hce : check_edges flow (kinds_of (flow_nodes flow) ∅) (flow_edges flow) ∅ = Ok ()).
    { apply check_edges_Ok. split; [done|]. split; [|done]. apply list.Forall_forall.
      intros e _. apply not_elem_of_empty. }
    rewrite Hce. cbn [mbind Result_bind].
    apply degree_checks in Hconn as [-> ->]; done.
Qed.

(** The edges of a checked flow lead between its nodes. *)
Lemma flow_edges_known flow x y :
  NoDup (cnode_id <$> flow_nodes flow) -> edges_ok flow -> edge_rel (flow_pairs flow) x y ->
  exists from to, has_node flow x from /\ has_node flow y to /\ from <> MqttReply /\ to <> MqttInput.
Proof.
  intros Hnd [_ Hk] Hxy. unfold edge_rel, flow_pairs in Hxy.
  apply list_elem_of_fmap in Hxy as (edge & Heq & Hin). injection Heq as -> ->.
  exact (Forall_elem _ _ _ Hk Hin).
Qed.

Lemma has_node_key flow id kind :
  NoDup (cnode_id <$> flow_nodes flow) -> has_node flow id kind ->
  id ∈ sorted_keys (kinds_of (flow_nodes flow) ∅).
Proof. intros Hnd Hn. apply elem_of_sorted_keys. exists kind. by apply flow_kinds. Qed.

(** What the validator answers on a flow that passed the earlier checks. *)
Lemma validate_checked_flow flow mappings kinds :
  check_flow flow mappings = Ok kinds ->
  (acyclic (flow_pairs flow) /\ validate_command_flow flow mappings = Some (Ok ())) \/
  (~ acyclic (flow_pairs flow) /\
   validate_command_flow flow mappings = Some (Err (flow_msg flow " graph contains a cycle"))).
Proof.
  intros H. unfold validate_command_flow. rewrite H.
  apply check_flow_Ok in H as (_ & (Hnd & _) & Hedges & _ & ->).
  destruct (topological_count_spec (sorted_keys (kinds_of (flow_nodes flow) ∅)) (flow_pairs flow))
    as (n & -> & Hn).
  { apply sorted_keys_NoDup. }
  { intros x y Hxy. destruct (flow_edges_known flow x y Hnd Hedges Hxy) as (f & t & Hf & Ht & _).
    split; by eapply has_node_key. }
  cbn [mbind Result_bind]. rewrite flow_ids, length_fmap in Hn by done.
  destruct (decide (n = length (flow_nodes flow))) as [Heq|Hne].
  - left. rewrite bool_decide_true by done. split; [by apply Hn | done].
  - right. rewrite bool_decide_false by done. split; [by rewrite <- Hn | done].
Qed.

(** ** No check panics *)

Lemma no_panic_check_param node key check :
  (forall v, no_panic (check v)) -> no_panic (check_param node key check).
Proof. intros H. unfold check_param. by destruct (_ !! _). Qed.

Lemma no_panic_check_node flow points node : no_panic (check_node flow points node).
Proof.
  unfold check_node, check_write_node, check_safety_node, validate_point_access,
    check_value_path, check_verification, check_tolerance.
  no_panic_tac; repeat case_bool_decide; no_panic_tac;
    try (apply no_panic_check_param; intros; no_panic_tac).
  destruct (verification_param node); no_panic_tac.
Qed.

Lemma no_panic_check_nodes flow points nodes kinds : no_panic (check_nodes flow points nodes kinds).
Proof.
  revert kinds. induction nodes as [|node nodes IH]; intros kinds; [done|]. cbn [check_nodes].
  no_panic_tac; [apply no_panic_check_node | apply IH].
Qed.

Lemma no_panic_check_edges flow kinds edges ids : no_panic (check_edges flow kinds edges ids).
Proof.
  revert ids. induction edges as [|edge edges IH]; intros ids; [done|]. cbn [check_edges].
  no_panic_tac. apply IH.
Qed.

Lemma no_panic_check_flow flow mappings : no_panic (check_flow flow mappings).
Proof.
  unfold check_flow, check_required. no_panic_tac.
  - apply no_panic_check_nodes.
  - apply no_panic_check_edges.
  - by destruct (find_first _ _); [|destruct (find_first _ _)].
Qed.

(** [C31] The command flow validator decides its contract on every input: it
    always answers, never panics, and accepts a flow exactly when its header is
    filled in, its node and edge identifiers are distinct, every node passes
    the checks of its kind, an input, a write and a reply node exist, edges
    lead between existing nodes (not out of a reply nor into an input), every
    node but the inputs has an upstream and every node but the replies a
    downstream, and the graph has no cycle. *)
Theorem command_flow_accepts_iff flow mappings :
  (exists r, validate_command_flow flow mappings = Some r /\ no_panic r) /\
  (validate_command_flow flow mappings = Some (Ok ()) <->
   header_ok flow /\ nodes_ok flow mappings /\ edges_ok flow /\ connected flow /\
   acyclic (flow_pairs flow)).
Proof.
  destruct (check_flow flow mappings) as [kinds|e|e] eqn:E.
  - pose proof (proj1 (check_flow_Ok _ _ _) E) as (Hh & Hn & He & Hc & _).
    destruct (validate_checked_flow flow mappings kinds E) as [[Hac ->]|[Hac ->]];
      (split; [by eexists|]); [done|]. split; [done|]. intros (_ & _ & _ & _ & ?). done.
  - unfold validate_command_flow. rewrite E. split; [by eexists|]. split; [done|].
    intros (Hh & Hn & He & Hc & _).
    rewrite (proj2 (check_flow_Ok flow mappings _) (conj Hh (conj Hn (conj He (conj Hc eq_refl))))) in E.
    done.
  - exfalso. assert (Hnp : no_panic (check_flow flow mappings)); [|by rewrite E in Hnp].
    apply no_panic_check_flow.
Qed.

(** ** What the planner can rely on *)

(** A walk up a graph without cycles ends: in a node without upstream, which is
    an input; a walk down in a reply. *)
Lemma walk_up flow id kind :
  NoDup (cnode_id <$> flow_nodes flow) -> edges_ok flow -> connected flow ->
  acyclic (flow_pairs flow) -> has_node flow id kind ->
  exists input, has_node flow input MqttInput /\ rtc (edge_rel (flow_pairs flow)) input id.
Proof.
  intros Hnd He Hc Hac. revert kind.
  assert (Hsn : sn (flip (edge_rel (flow_pairs flow))) id).
  { apply acyclic_sn_flip with (cnode_id <$> flow_nodes flow); [done|]. intros x y Hxy.
    destruct (flow_edges_known flow x y Hnd He Hxy) as (f & t & (n & Hn & <- & _) & _).
    by apply list_elem_of_fmap_2. }
  induction Hsn as [id _ IH]. intros kind Hid.
  destruct (decide (kind = MqttInput)) as [->|Hk]; [by exists id|].
  destruct (Hc id kind Hid) as [Hup _]. destruct (Hup Hk) as [from Hfrom].
  destruct (flow_edges_known flow from id Hnd He Hfrom) as (f & t & Hf & _).
  destruct (IH from Hfrom f Hf) as (input & Hin & Hrtc).
  exists input. split; [done|]. by eapply rtc_r.
Qed.

Lemma walk_down flow id kind :
  NoDup (cnode_id <$> flow_nodes flow) -> edges_ok flow -> connected flow ->
  acyclic (flow_pairs flow) -> has_node flow id kind ->
  exists reply, has_node flow reply MqttReply /\ rtc (edge_rel (flow_pairs flow)) id reply.
Proof.
  intros Hnd He Hc Hac. revert kind.
  assert (Hsn : sn (edge_rel (flow_pairs flow)) id).
  { apply acyclic_sn with (cnode_id <$> flow_nodes flow); [done|]. intros x y Hxy.
    destruct (flow_edges_known flow x y Hnd He Hxy) as (f & t & _ & (n & Hn & <- & _) & _).
    by apply list_elem_of_fmap_2. }
  induction Hsn as [id _ IH]. intros kind Hid.
  destruct (decide (kind = MqttReply)) as [->|Hk]; [by exists id|].
  destruct (Hc id kind Hid) as [_ Hdown]. destruct (Hdown Hk) as [to Hto].
  destruct (flow_edges_known flow id to Hnd He Hto) as (f & t & _ & Ht & _).
  destruct (IH to Hto t Ht) as (reply & Hr & Hrtc).
  exists reply. split; [done|]. by eapply rtc_l.
Qed.

(** In an accepted flow every point write is wired: it refers to a
    writable point of the package, it can be reached from an MQTT input, and an
    MQTT reply can be reached from it. *)
Theorem accepted_flow_connects flow mappings id :
  validate_command_flow flow mappings = Some (Ok ()) -> has_node flow id PointWrite ->
  (exists node mapping, node ∈ flow_nodes flow /\ cnode_id node = id /\
     mapping ∈ mappings /\ default "" (cnode_ref_id node) = map_point_id mapping /\
     is_writable (map_access mapping) = true) /\
  (exists input, has_node flow input MqttInput /\ rtc (edge_rel (flow_pairs flow)) input id) /\
  (exists reply, has_node flow reply MqttReply /\ rtc (edge_rel (flow_pairs flow)) id reply).
Proof.
  intros H Hid. destruct (check_flow flow mappings) as [kinds|e|e] eqn:E;
    [|unfold validate_command_flow in H; by rewrite E in H..].
  pose proof (proj1 (check_flow_Ok _ _ _) E) as (_ & (Hnd & Hall & _) & He & Hc & _).
  destruct (validate_checked_flow flow mappings kinds E) as [[Hac _]|[_ H']]; [|congruence].
  split; [|split; [by eapply walk_up | by eapply walk_down]].
  destruct Hid as (node & Hin & Hid & Hk).
  destruct (Forall_elem _ _ _ Hall Hin) as [_ Hcheck].
  unfold check_node, check_write_node in Hcheck. rewrite (bool_decide_true (cnode_kind node = PointWrite)) in Hcheck by done.
  inv_result. exists node.
  match goal with Hp : points_of mappings !! _ = Some ?m |- _ =>
    exists m; apply collect_map_Some, list_elem_of_fmap in Hp as (m' & Heq & Hm) end.
  injection Heq as Heq ->. by split_and!.
Qed.

(** ** A concrete flow *)

Definition example_node (id : string) (kind : CommandGraphNodeKind) (ref_id : option string)
    : CommandGraphNode :=
  {| cnode_id := id; cnode_kind := kind; cnode_label := id; cnode_ref_id := ref_id;
     cnode_params := ∅; cnode_x := 0; cnode_y := 0 |}.

Definition example_edge (id from to : string) : CommandGraphEdge :=
  {| cedge_id := id; cedge_from := from; cedge_from_port := None; cedge_to := to;
     cedge_to_port := None |}.

Definition example_flow (edges : list CommandGraphEdge) : CommandFlowConfig :=
  {| flow_id := "flow-1"; flow_name := "write"; flow_enabled := true;
     flow_protocol_connection_id := ""; flow_mqtt_connection_id := "commands";
     flow_subscribe_topic := "edge/command"; flow_qos := 1;
     flow_reply_topic_template := "edge/reply";
     flow_nodes := [example_node "input" MqttInput None;
                    example_node "gate" SafetyGate None;
                    example_node "write" PointWrite (Some "setpoint");
                    example_node "reply" MqttReply None];
     flow_edges := edges |}.

Definition example_edges : list CommandGraphEdge :=
  [example_edge "e1" "input" "gate"; example_edge "e2" "gate" "write";
   example_edge "e3" "write" "reply"].

Definition setpoint_mapping : TelemetryPointMapping :=
  {| map_point_id := "setpoint"; map_device_id := "device-1"; map_semantic_id := "device.setpoint";
     map_protocol_connection_id := "sim-main";
     map_address := {| addr_kind := "simulated"; addr_value := "setpoint"; addr_modbus := None |};
     map_value_type := Ty_Float; map_access := ReadWrite; map_opc_ua := None; map_iec101 := None;
     map_iec104 := None; map_bacnet := None; map_unit := None;
     map_range := Some {| range_min := f64_of_Z 0; range_max := f64_of_Z 100 |};
     map_read_transforms := []; map_interval_ms := 1000 |}.

(** An edge back from the write to the gate is found. *)
Example cycle_is_refused :
  validate_command_flow (example_flow (example_edge "e4" "write" "gate" :: example_edges))
    [setpoint_mapping] = Some (Err "command flow flow-1 graph contains a cycle").
Proof. vm_compute. reflexivity. Qed.

Lemma accepted_flow_connects_witness :
  validate_command_flow (example_flow example_edges) [setpoint_mapping] = Some (Ok ()) /\
  exists input, has_node (example_flow example_edges) input MqttInput /\
    rtc (edge_rel (flow_pairs (example_flow example_edges))) input "write".
Proof.
  split; [vm_compute; reflexivity|].
  apply (accepted_flow_connects (example_flow example_edges) [setpoint_mapping] "write").
  - vm_compute. reflexivity.
  - exists (example_node "write" PointWrite (Some "setpoint")). split; [|done].
    right. right. left.
Defined.
