(* ===== verification/PointAddresses.v ===== *)
(** The point addresses of Siemens S7, Omron FINS, BACnet/IP and OPC UA, the
    endpoints of their connections and the validation of a protocol connection,
    [crates/edge-core/src/config.rs].

    Shown here: whatever the S7 and the FINS parsers accept has a canonical text
    that parses back to it, and an accepted FINS point lies inside its area.
    The JSON decoder of an OPC UA browse path is a parameter. *)

From Stdlib Require Import ZArith Lia.
From S2P Require Import Prelude RustStr Floats Model ConfigTypes ConfigParse.

Open Scope string_scope.
Open Scope Z_scope.

(** ** Strings *)

(** [s.to_ascii_uppercase()]. *)
Definition to_ascii_upper (b : Z) : Z := if (97 <=? b) && (b <=? 122) then b - 32 else b.

(** [s.rsplit_once(c)]. *)
Definition rsplit_once (c : Z) (l : bytes) : option (bytes * bytes) :=
  option_map (fun '(after, before) => (reverse before, reverse after)) (split_once c (reverse l)).

Fixpoint trim_start_matches (p : Z -> bool) (l : bytes) : bytes :=
  match l with
  | [] => []
  | b :: rest => if p b then trim_start_matches p rest else l
  end.

(** [s.trim_matches(['[', ']'])]. *)
Definition trim_brackets (l : bytes) : bytes :=
  let bracket := fun b => (b =? 91) || (b =? 93) in
  reverse (trim_start_matches bracket (reverse (trim_start_matches bracket l))).

Definition trim_bytes (l : bytes) : bytes := trim_end_bytes (trim_start_bytes l).

(** [prefixes.iter().find_map(|(prefix, x)| value.strip_prefix(prefix).map(..))]. *)
Fixpoint find_prefix {A} (prefixes : list (string * A)) (l : bytes) : option (A * bytes) :=
  match prefixes with
  | [] => None
  | (prefix, x) :: rest =>
      match strip_prefix (str_bytes prefix) l with
      | Some offset => Some (x, offset)
      | None => find_prefix rest l
      end
  end.

Definition eq_ignore_ascii_case (a b : string) : bool :=
  bool_decide (to_ascii_lower <$> str_bytes a = to_ascii_lower <$> str_bytes b).

(** ** Endpoints *)

(** The common part of [parse_siemens_s7_endpoint] and
    [parse_omron_fins_endpoint]. *)
Definition parse_host_port (vendor scheme : string) (value : string) : Result (string * Z) :=
  let value := trim_bytes (str_bytes value) in
  let value := default value (strip_prefix (str_bytes (scheme ++ "://")) value) in
  '(host, port) ← ok_or (rsplit_once 58 value)
    (vendor ++ " endpoint must be host:port or " ++ scheme ++ "://host:port");
  let host := trim_brackets (trim_bytes host) in
  ensure (negb (bool_decide (host = []) || has_whitespace host)) (vendor ++ " endpoint host is required");;
  let port_msg := vendor ++ " endpoint port must be between 1 and 65535" in
  port ← ok_or (parse_dec (u_max 16) port) port_msg;
  ensure (negb (port =? 0)) port_msg;;
  Ok (str_of_bytes host, port).

Definition parse_siemens_s7_endpoint : string -> Result (string * Z) := parse_host_port "Siemens S7" "s7".
Definition parse_omron_fins_endpoint : string -> Result (string * Z) := parse_host_port "Omron FINS" "fins".

(** [split_once("]:")]. *)
Fixpoint split_bracket (l : bytes) : option (bytes * bytes) :=
  match l with
  | 93 :: 58 :: rest => Some ([], rest)
  | b :: rest => option_map (fun '(host, port) => (b :: host, port)) (split_bracket rest)
  | [] => None
  end.

Definition validate_iec104_endpoint (endpoint : string) : Result () :=
  let text := str_bytes endpoint in
  let stripped := strip_prefix (str_bytes "tcp://") text in
  let target := default text stripped in
  ensure (negb (str_contains endpoint "://" && bool_decide (target = text)))
    "IEC 104 endpoint must use host:port or tcp://host:port";;
  '(host, port) ←
    (match strip_prefix (str_bytes "[") target with
     | Some bracketed => ok_or (split_bracket bracketed) "IEC 104 IPv6 endpoint must use [address]:port"
     | None => ok_or (rsplit_once 58 target) "IEC 104 endpoint must include a TCP port"
     end);
  ensure (negb (bool_decide (trim_bytes host = []) || has_whitespace host)) "IEC 104 endpoint host is invalid";;
  port ← ok_or (parse_dec (u_max 16) port) "IEC 104 endpoint port is invalid";
  ensure (negb (port =? 0)) "IEC 104 endpoint port must be greater than zero".

(** [Ipv4Addr::from_str]: four decimal octets of at most three digits without
    leading zeros. *)
Definition parse_octet (l : bytes) : option Z :=
  if bool_decide (l = []) || bool_decide (3 < length l)%nat || negb (forallb is_ascii_digit l) ||
     (bool_decide (head l = Some 48) && bool_decide (1 < length l)%nat)
  then None
  else let v := digits_value l in if v <=? 255 then Some v else None.

Definition parse_ipv4 (l : bytes) : option (list Z) :=
  match split_on 46 l with
  | [a; b; c; d] =>
      a ← parse_octet a; b ← parse_octet b; c ← parse_octet c; d ← parse_octet d; Some [a; b; c; d]
  | _ => None
  end.

(** [SocketAddrV4::from_str]: the port is digits only. *)
Definition parse_socket_v4 (l : bytes) : option (list Z * Z) :=
  '(ip, port) ← split_once 58 l;
  ip ← parse_ipv4 ip;
  if bool_decide (port = []) || negb (forallb is_ascii_digit port) then None
  else if digits_value port <=? u_max 16 then Some (ip, digits_value port) else None.

Definition parse_bacnet_ip_endpoint (value : string) : Result (list Z * Z) :=
  let value := trim_bytes (str_bytes value) in
  let value := default value (strip_prefix (str_bytes "bacnet://") value) in
  ok_or (parse_socket_v4 value) "BACnet/IP endpoint must be an IPv4 host:port or bacnet://host:port".

(** ** Connections *)

Definition validate_bacnet_settings (s : BacnetIpConnectionSettings) : Result () :=
  ok_or (parse_ipv4 (str_bytes (bacnet_bind_address s))) "BACnet/IP bind address must be an IPv4 address";;
  ok_or (parse_ipv4 (str_bytes (bacnet_broadcast_address s)))
    "BACnet/IP broadcast address must be an IPv4 address";;
  ensure (in_range 100 120000 (bacnet_apdu_timeout_ms s))
    "BACnet/IP APDU timeout must be between 100 and 120000 ms";;
  ensure (bacnet_apdu_retries s <=? 10) "BACnet/IP APDU retries cannot exceed 10";;
  ensure (in_range 100 30000 (bacnet_discovery_timeout_ms s))
    "BACnet/IP discovery timeout must be between 100 and 30000 ms";;
  ensure (existsb (Z.eqb (bacnet_max_apdu_length s)) [50; 128; 206; 480; 1024; 1476])
    "BACnet/IP max APDU length must be 50, 128, 206, 480, 1024 or 1476";;
  (match bacnet_foreign_device s with
   | Some foreign_device =>
       (match parse_bacnet_ip_endpoint (bbmd_address foreign_device) with
        | Ok _ => Ok ()
        | Err _ => bail "BACnet/IP BBMD address must be an IPv4 host:port"
        | Panic e => Panic e
        end);;
       ensure (in_range 30 (u_max 16) (ttl_seconds foreign_device))
         "BACnet/IP foreign device TTL must be between 30 and 65535 seconds"
   | None => Ok ()
   end);;
  match bacnet_cov s with
  | Some cov =>
      ensure (in_range 60 86400 (cov_lifetime_seconds cov))
        "BACnet/IP COV lifetime must be between 60 and 86400 seconds";;
      ensure (in_range 1000 3600000 (cov_fallback_poll_interval_ms cov))
        "BACnet/IP COV fallback poll interval must be between 1000 and 3600000 ms"
  | None => Ok ()
  end.

Definition required_non_empty (value : option string) (label : string) : Result () :=
  ensure (match value with Some value => negb (is_blank value) | None => false end)
    (label ++ " is required").

Definition is_some {A} (x : option A) : bool := match x with Some _ => true | None => false end.

Definition validate_opc_ua_settings (s : OpcUaConnectionSettings) : Result () :=
  let no_policy := match opcua_security_policy s with Policy_None => true | _ => false end in
  let no_mode := match opcua_message_security_mode s with Mode_None => true | _ => false end in
  ensure (negb (no_policy && negb no_mode)) "OPC UA None security policy requires None message mode";;
  ensure (negb (negb no_policy && no_mode)) "secured OPC UA policy requires Sign or SignAndEncrypt mode";;
  (match opcua_auth_mode s with
   | Anonymous =>
       ensure (negb (is_some (opcua_username s) || is_some (opcua_password_env s) ||
                     is_some (opcua_user_certificate_path s) || is_some (opcua_user_private_key_path s)))
         "anonymous OPC UA authentication cannot define credentials"
   | Username =>
       required_non_empty (opcua_username s) "OPC UA username";;
       required_non_empty (opcua_password_env s) "OPC UA password environment variable";;
       ensure (negb (is_some (opcua_user_certificate_path s) || is_some (opcua_user_private_key_path s)))
         "username OPC UA authentication cannot define X.509 credentials"
   | X509 =>
       required_non_empty (opcua_user_certificate_path s) "OPC UA user certificate path";;
       required_non_empty (opcua_user_private_key_path s) "OPC UA user private key path";;
       ensure (negb (is_some (opcua_username s) || is_some (opcua_password_env s)))
         "X.509 OPC UA authentication cannot define username credentials"
   end);;
  ensure (negb (is_blank (opcua_pki_dir s))) "OPC UA PKI directory is required";;
  ensure (in_range 100 120000 (opcua_connect_timeout_ms s))
    "OPC UA connect timeout must be between 100 and 120000 ms";;
  ensure (in_range 100 120000 (opcua_request_timeout_ms s))
    "OPC UA request timeout must be between 100 and 120000 ms";;
  ensure (in_range 1000 3600000 (opcua_session_timeout_ms s))
    "OPC UA session timeout must be between 1000 and 3600000 ms";;
  ensure (opcua_session_retry_limit s <=? 100) "OPC UA session retry limit must not exceed 100".

Definition no_protocol_settings (c : ProtocolConnection) : Result () :=
  if is_some (conn_iec101 c) then bail "IEC 101 settings are only valid for IEC 101 connections"
  else if is_some (conn_iec104 c) then bail "IEC 104 settings are only valid for IEC 104 connections"
  else if is_some (conn_opc_ua c) then bail "OPC UA settings are only valid for OPC UA connections"
  else if is_some (conn_bacnet_ip c) then bail "BACnet/IP settings are only valid for BACnet/IP connections"
  else if is_some (conn_siemens_s7 c) then bail "Siemens S7 settings are only valid for Siemens S7 connections"
  else if is_some (conn_omron_fins c) then bail "Omron FINS settings are only valid for Omron FINS connections"
  else Ok ().

(** [ProtocolConnection::validate]. *)
Definition validate_connection (c : ProtocolConnection) : Result () :=
  validate_circuit_breaker (conn_circuit_breaker c);;
  match conn_protocol c with
  | Iec101 => validate_iec101_settings (default default_iec101_settings (conn_iec101 c))
  | Iec104 =>
      endpoint ← ok_or (conn_endpoint c) "IEC 104 endpoint is required";
      validate_iec104_endpoint endpoint;;
      validate_iec104_settings (default {| iec104_cp56_timezone_offset_minutes := 0 |} (conn_iec104 c))
  | OpcUa =>
      endpoint ← ok_or (conn_endpoint c) "OPC UA endpoint is required";
      ensure (bytes_prefix (str_bytes "opc.tcp://") (str_bytes endpoint)) "OPC UA endpoint must use opc.tcp://";;
      settings ← ok_or (conn_opc_ua c) "OPC UA settings are required";
      validate_opc_ua_settings settings
  | BacnetIp =>
      (match conn_endpoint c with
       | Some endpoint => parse_bacnet_ip_endpoint endpoint;; Ok ()
       | None => Ok ()
       end);;
      settings ← ok_or (conn_bacnet_ip c) "BACnet/IP settings are required";
      validate_bacnet_settings settings
  | SiemensS7 =>
      endpoint ← ok_or (conn_endpoint c) "Siemens S7 endpoint is required";
      parse_siemens_s7_endpoint endpoint;;
      settings ← ok_or (conn_siemens_s7 c) "Siemens S7 settings are required";
      validate_s7_settings settings
  | OmronFins =>
      endpoint ← ok_or (conn_endpoint c) "Omron FINS endpoint is required";
      parse_omron_fins_endpoint endpoint;;
      settings ← ok_or (conn_omron_fins c) "Omron FINS settings are required";
      validate_fins_settings settings
  | _ => no_protocol_settings c
  end.

(** ** Siemens S7 *)

Inductive SiemensS7Area := DataBlock | Marker | ProcessInput | ProcessOutput.
Inductive SiemensS7DataType := S7_Bit | S7_Byte | S7_Word | S7_DWord | S7_Int | S7_DInt | S7_Real.

#[export] Instance SiemensS7Area_eq_dec : EqDecision SiemensS7Area.
Proof. solve_decision. Defined.
#[export] Instance SiemensS7DataType_eq_dec : EqDecision SiemensS7DataType.
Proof. solve_decision. Defined.

Definition is_protocol_writable (area : SiemensS7Area) : bool :=
  match area with ProcessInput => false | _ => true end.

Definition byte_width (t : SiemensS7DataType) : Z :=
  match t with
  | S7_Bit | S7_Byte => 1
  | S7_Word | S7_Int => 2
  | S7_DWord | S7_DInt | S7_Real => 4
  end.

Record SiemensS7PointAddress := {
  s7_area : SiemensS7Area;
  s7_db_number : Z;
  s7_byte_offset : Z;
  s7_bit_offset : option Z;
  s7_data_type : SiemensS7DataType;
}.

(** The text between the block number and the offset. *)
Definition db_type_name (t : SiemensS7DataType) : string :=
  match t with
  | S7_Bit => "DBX" | S7_Byte => "DBB" | S7_Word => "DBW" | S7_DWord => "DBD"
  | S7_Int => "INT" | S7_DInt => "DINT" | S7_Real => "REAL"
  end.

Definition area_letter (area : SiemensS7Area) : string :=
  match area with Marker => "M" | ProcessInput => "I" | ProcessOutput => "Q" | DataBlock => "" end.

Definition area_type_letter (t : SiemensS7DataType) : string :=
  match t with
  | S7_Bit => "" | S7_Byte => "B" | S7_Word | S7_Int => "W" | S7_DWord | S7_DInt | S7_Real => "D"
  end.

(** The offset with its bit, if there is one to print. *)
Definition offset_bytes (a : SiemensS7PointAddress) : bytes :=
  (dec_bytes (s7_byte_offset a) ++
   match s7_data_type a with S7_Bit => 46 :: dec_bytes (default 0 (s7_bit_offset a)) | _ => [] end)%list.

(** [SiemensS7PointAddress::canonical]. *)
Definition s7_canonical (a : SiemensS7PointAddress) : bytes :=
  match s7_area a with
  | DataBlock =>
      (str_bytes "DB" ++ dec_bytes (s7_db_number a) ++ 46 :: str_bytes (db_type_name (s7_data_type a))
       ++ offset_bytes a)%list
  | area =>
      (str_bytes (area_letter area) ++ str_bytes (area_type_letter (s7_data_type a)) ++ offset_bytes a)%list
  end.

Definition DB_TYPES : list (string * SiemensS7DataType) :=
  [("DBX", S7_Bit); ("DBB", S7_Byte); ("DBW", S7_Word); ("DBD", S7_DWord); ("DINT", S7_DInt);
   ("INT", S7_Int); ("REAL", S7_Real)].
Definition AREA_TYPES : list (string * SiemensS7DataType) :=
  [("X", S7_Bit); ("B", S7_Byte); ("W", S7_Word); ("D", S7_DWord)].

Definition parse_siemens_s7_typed_offset (value : bytes) (prefixes : list (string * SiemensS7DataType))
    : Result (SiemensS7DataType * bytes) :=
  ok_or (find_prefix prefixes value)
    ("unsupported Siemens S7 point type in address: " ++ str_of_bytes value).

Definition parse_siemens_s7_offset (value : bytes) (data_type : SiemensS7DataType) : Result (Z * option Z) :=
  if bool_decide (data_type = S7_Bit) then
    '(byte_offset, bit_offset) ← ok_or (split_once 46 value)
      "Siemens S7 bit address must include byte and bit offsets, for example M0.0";
    byte_offset ← ok_or (parse_dec (u_max 32) byte_offset) "invalid Siemens S7 byte offset";
    bit_offset ← ok_or (parse_dec (u_max 8) bit_offset) "invalid Siemens S7 bit offset";
    ensure (bit_offset <=? 7) "Siemens S7 bit offset must be between 0 and 7";;
    Ok (byte_offset, Some bit_offset)
  else
    byte_offset ← ok_or (parse_dec (u_max 32) value) "invalid Siemens S7 byte offset";
    Ok (byte_offset, None).

Definition area_of_letter (prefix : Z) : option SiemensS7Area :=
  if prefix =? 77 then Some Marker else if prefix =? 73 then Some ProcessInput
  else if prefix =? 81 then Some ProcessOutput else None.

(** [split_at(1)] panics when the first character is longer than a byte. *)
Definition parse_siemens_s7_point_address (value : string) : Result SiemensS7PointAddress :=
  let value := to_ascii_upper <$> trim_bytes (str_bytes value) in
  ensure (negb (bool_decide (value = []) || has_whitespace value))
    "Siemens S7 point address cannot be empty or contain spaces";;
  match strip_prefix (str_bytes "DB") value with
  | Some rest =>
      '(db_number, typed_address) ← ok_or (split_once 46 rest)
        "Siemens S7 DB address must use DB<number>.<type><offset>";
      db_number ← ok_or (parse_dec (u_max 16) db_number) "Siemens S7 DB number must be between 0 and 65535";
      '(data_type, offset) ← parse_siemens_s7_typed_offset typed_address DB_TYPES;
      '(byte_offset, bit_offset) ← parse_siemens_s7_offset offset data_type;
      Ok {| s7_area := DataBlock; s7_db_number := db_number; s7_byte_offset := byte_offset;
            s7_bit_offset := bit_offset; s7_data_type := data_type |}
  | None =>
      match value with
      | [] => Panic "mid > len"
      | prefix :: rest =>
          if 128 <=? prefix then Panic "failed to slice string"
          else
            area ← ok_or (area_of_letter prefix)
              "Siemens S7 point area must be DB, M (marker), I (input) or Q (output)";
            '(data_type, offset) ←
              (if match rest with b :: _ => is_ascii_digit b | [] => false end then Ok (S7_Bit, rest)
               else parse_siemens_s7_typed_offset rest AREA_TYPES);
            '(byte_offset, bit_offset) ← parse_siemens_s7_offset offset data_type;
            Ok {| s7_area := area; s7_db_number := 0; s7_byte_offset := byte_offset;
                  s7_bit_offset := bit_offset; s7_data_type := data_type |}
      end
  end.

Definition s7_type_accepts (data_type : SiemensS7DataType) (value_type : TelemetryType) : bool :=
  match data_type, value_type with
  | S7_Bit, Ty_Boolean | S7_Real, Ty_Float | S7_DWord, Ty_Float => true
  | (S7_Byte | S7_Word | S7_DWord | S7_Int | S7_DInt), Ty_Integer => true
  | _, _ => false
  end.

Definition validate_siemens_s7_point (address : PointAddress) (value_type : TelemetryType) (access : PointAccess)
    : Result SiemensS7PointAddress :=
  ensure (bool_decide (addr_kind address = "s7_address")) "Siemens S7 address kind must be `s7_address`";;
  ensure (negb (is_some (addr_modbus address))) "Siemens S7 points cannot define Modbus decoding options";;
  parsed ← parse_siemens_s7_point_address (addr_value address);
  ensure (s7_type_accepts (s7_data_type parsed) value_type)
    ("Siemens S7 address " ++ str_of_bytes (s7_canonical parsed) ++ " is incompatible with telemetry type " ++
     show_type value_type);;
  ensure (negb (is_writable access && negb (is_protocol_writable (s7_area parsed))))
    "Siemens S7 process input (I) points are protocol-level read-only";;
  Ok parsed.

(** ** Omron FINS *)

Inductive OmronFinsArea := Cio | Work | Holding | DataMemory | Auxiliary.

#[export] Instance OmronFinsArea_eq_dec : EqDecision OmronFinsArea.
Proof. solve_decision. Defined.

Definition canonical_prefix (area : OmronFinsArea) : string :=
  match area with Cio => "CIO" | Work => "W" | Holding => "H" | DataMemory => "D" | Auxiliary => "A" end.

Definition supports_bit_access (area : OmronFinsArea) : bool :=
  match area with DataMemory => false | _ => true end.

Definition word_capacity (area : OmronFinsArea) : Z :=
  match area with Cio | DataMemory => 4096 | Work | Holding => 512 | Auxiliary => 1024 end.

Record OmronFinsPointAddress := { fins_area : OmronFinsArea; fins_word : Z; fins_bit : option Z }.

Definition fins_canonical (a : OmronFinsPointAddress) : bytes :=
  (str_bytes (canonical_prefix (fins_area a)) ++ dec_bytes (fins_word a) ++
   match fins_bit a with Some bit => 46 :: dec_bytes bit | None => [] end)%list.

Definition FINS_AREAS : list (string * OmronFinsArea) :=
  [("CIO", Cio); ("WR", Work); ("HR", Holding); ("DM", DataMemory); ("AR", Auxiliary); ("W", Work);
   ("H", Holding); ("D", DataMemory); ("A", Auxiliary)].

Definition parse_omron_fins_point_address (value : string) : Result OmronFinsPointAddress :=
  let value := filter (fun b => b <> 32) (to_ascii_upper <$> trim_bytes (str_bytes value)) in
  '(area, rest) ← ok_or (find_prefix FINS_AREAS value)
    "Omron FINS address must use CIO, W/WR, H/HR, D/DM or A/AR area";
  ensure (negb (bool_decide (rest = []))) "Omron FINS address requires a word number";;
  '(word, bit) ←
    (match split_once 46 rest with
     | Some (word, bit) =>
         ensure (negb (bool_decide (46 ∈ bit))) "Omron FINS bit address contains too many separators";;
         bit ← ok_or (parse_dec (u_max 8) bit) "Omron FINS bit must be between 0 and 15";
         ensure (bit <=? 15) "Omron FINS bit must be between 0 and 15";;
         Ok (word, Some bit)
     | None => Ok (rest, None)
     end);
  word ← ok_or (parse_dec (u_max 16) word) "Omron FINS word address must be a non-negative integer";
  ensure (word <? word_capacity area)
    ("Omron FINS " ++ canonical_prefix area ++ " address must be below " ++ show_Z (word_capacity area));;
  ensure (negb (is_some bit && negb (supports_bit_access area)))
    "Omron FINS DM area does not support bit access";;
  Ok {| fins_area := area; fins_word := word; fins_bit := bit |}.

Definition validate_omron_fins_point (address : PointAddress) (value_type : TelemetryType) (access : PointAccess)
    : Result OmronFinsPointAddress :=
  validate_point_access address access;;
  ensure (bool_decide (addr_kind address = "fins_address")) "Omron FINS points must use fins_address kind";;
  ensure (negb (is_some (addr_modbus address))) "Omron FINS points cannot define Modbus decoding options";;
  parsed ← parse_omron_fins_point_address (addr_value address);
  (match fins_bit parsed, value_type with
   | Some _, Ty_Boolean | None, Ty_Integer | None, Ty_Float => Ok ()
   | Some _, _ => bail "Omron FINS bit addresses require boolean telemetry type"
   | None, Ty_Boolean => bail "Omron FINS boolean points require a bit address such as CIO0.05"
   | None, Ty_Text => bail "Omron FINS text points are not supported in this runtime version"
   end);;
  let width := if bool_decide (value_type = Ty_Float) then 2 else 1 in
  ensure (Z.min (fins_word parsed + width) (u_max 16) <=? word_capacity (fins_area parsed))
    ("Omron FINS point " ++ str_of_bytes (fins_canonical parsed) ++ " exceeds the " ++
     canonical_prefix (fins_area parsed) ++ " area boundary");;
  Ok parsed.

(** ** BACnet/IP *)

Record BacnetPointAddress := {
  bac_device_instance : Z;
  bac_object_type : Z;
  bac_object_instance : Z;
  bac_property_identifier : Z;
  bac_array_index : option Z;
}.

(** [BacnetPointOptions::default] and [validate]. *)
Definition default_bacnet_options : BacnetPointOptions := {| write_priority := 16 |}.

Definition validate_bacnet_options (options : BacnetPointOptions) : Result () :=
  ensure (in_range 1 16 (write_priority options)) "BACnet write priority must be between 1 and 16".

(** The raw values of the object and property templates, by their names. *)
Definition BACNET_OBJECT_TYPES : list (string * Z) :=
  [("analog_input", 0); ("analog_output", 1); ("analog_value", 2); ("binary_input", 3); ("binary_output", 4);
   ("binary_value", 5); ("device", 8); ("multi_state_input", 13); ("multi_state_output", 14);
   ("multi_state_value", 19); ("accumulator", 23)].
Definition BACNET_PROPERTIES : list (string * Z) :=
  [("present_value", 85); ("status_flags", 111); ("units", 117); ("object_name", 77); ("description", 28);
   ("out_of_service", 81); ("reliability", 103)].

Definition template_raw (templates : list (string * Z)) (value : bytes) : option Z :=
  match find_first (fun t => eq_ignore_ascii_case (fst t) (str_of_bytes value)) templates with
  | Some t => Some (snd t)
  | None => parse_dec (u_max 32) value
  end.

Definition bacnet_object_type_raw (value : bytes) : Result Z :=
  ok_or (template_raw BACNET_OBJECT_TYPES value) ("unsupported BACnet object type: " ++ str_of_bytes value).
Definition bacnet_property_raw (value : bytes) : Result Z :=
  ok_or (template_raw BACNET_PROPERTIES value) ("unsupported BACnet property: " ++ str_of_bytes value).

Definition parse_bacnet_number (value : bytes) (field : string) : Result Z :=
  ok_or (parse_dec (u_max 32) value) ("invalid BACnet " ++ field ++ ": " ++ str_of_bytes value).

Definition parse_bacnet_point_address (value : string) : Result BacnetPointAddress :=
  let parts := trim_bytes <$> split_on 58 (str_bytes value) in
  ensure (bool_decide (4 <= length parts <= 5)%nat)
    "BACnet point address must be device:object_type:object_instance:property[:array_index]";;
  device ← expect (parts !! 0%nat) "index out of bounds";
  device_instance ← parse_bacnet_number device "device instance";
  object ← expect (parts !! 1%nat) "index out of bounds";
  object_type ← bacnet_object_type_raw object;
  instance ← expect (parts !! 2%nat) "index out of bounds";
  object_instance ← parse_bacnet_number instance "object instance";
  property ← expect (parts !! 3%nat) "index out of bounds";
  property_identifier ← bacnet_property_raw property;
  array_index ←
    (match parts !! 4%nat with
     | Some index => index ← parse_bacnet_number index "array index"; Ok (Some index)
     | None => Ok None
     end);
  ensure (negb ((4194302 <? device_instance) || (4194302 <? object_instance)))
    "BACnet device and object instances must be between 0 and 4194302";;
  ensure (object_type <=? 1023) "BACnet object type must be between 0 and 1023";;
  ensure (property_identifier <=? 4194303) "BACnet property identifier must be between 0 and 4194303";;
  Ok {| bac_device_instance := device_instance; bac_object_type := object_type;
        bac_object_instance := object_instance; bac_property_identifier := property_identifier;
        bac_array_index := array_index |}.

(** The object types that take writes, and the telemetry type of each. *)
Definition bacnet_command_type (object_type : Z) (value_type : TelemetryType) : Result () :=
  if (object_type =? 1) || (object_type =? 2)
  then ensure (bool_decide (value_type = Ty_Float)) "BACnet analog command points must use float telemetry type"
  else if (object_type =? 4) || (object_type =? 5)
  then ensure (bool_decide (value_type = Ty_Boolean))
         "BACnet binary command points must use boolean telemetry type"
  else if (object_type =? 14) || (object_type =? 19)
  then ensure (bool_decide (value_type = Ty_Integer))
         "BACnet multi-state command points must use integer telemetry type"
  else if (object_type =? 0) || (object_type =? 3) || (object_type =? 13) || (object_type =? 23)
  then bail "BACnet input and accumulator objects are protocol-level read-only"
  else bail "BACnet object type is not supported for command writes".

Definition validate_bacnet_point (address : PointAddress) (value_type : TelemetryType) (access : PointAccess)
    (options : option BacnetPointOptions) : Result BacnetPointAddress :=
  ensure (bool_decide (addr_kind address = "bacnet_object_property"))
    "BACnet points require bacnet_object_property address kind";;
  parsed ← parse_bacnet_point_address (addr_value address);
  (match options with Some options => validate_bacnet_options options | None => Ok () end);;
  if negb (is_writable access) then Ok parsed
  else
    ensure (bac_property_identifier parsed =? 85) "writable BACnet points must target present_value";;
    ensure (negb (is_some (bac_array_index parsed))) "writable BACnet points cannot target an array element";;
    bacnet_command_type (bac_object_type parsed) value_type;;
    Ok parsed.

(** ** OPC UA *)

Record OpcUaBrowsePathElement := { namespace_index : Z; target_name : string }.
Record OpcUaBrowsePathAddress := { starting_node : string; path_elements : list OpcUaBrowsePathElement }.

Definition validate_opc_ua_node_id (value : string) : Result () :=
  let text := str_bytes value in
  '(namespace, identifier) ←
    (match split_once 59 text with
     | Some (namespace, identifier) => Ok (Some namespace, identifier)
     | None => Ok (None, text)
     end);
  (match namespace with
   | Some namespace =>
       index ← ok_or (strip_prefix (str_bytes "ns=") namespace) "OPC UA NodeId namespace must use ns=<index>";
       ok_or (parse_dec (u_max 16) index) "OPC UA NodeId namespace index is invalid";;
       Ok ()
   | None => Ok ()
   end);;
  '(kind, identifier) ← ok_or (split_once 61 identifier) "OPC UA NodeId must use i=, s=, g= or b=";
  ensure (existsb (fun k => bool_decide (kind = str_bytes k)) ["i"; "s"; "g"; "b"] &&
          negb (bool_decide (trim_bytes identifier = [])))
    "OPC UA NodeId must use a non-empty i=, s=, g= or b= identifier";;
  if bool_decide (kind = str_bytes "i")
  then ok_or (parse_dec (u_max 32) identifier) "OPC UA numeric NodeId is invalid";; Ok ()
  else Ok ().

Definition default_write_type (value_type : TelemetryType) : OpcUaWriteDataType :=
  match value_type with
  | Ty_Boolean => Ua_Boolean | Ty_Integer => Ua_Int32 | Ty_Float => Ua_Float | Ty_Text => Ua_String
  end.

Definition write_type_accepts (data_type : OpcUaWriteDataType) (value_type : TelemetryType) : bool :=
  match data_type, value_type with
  | Ua_Boolean, Ty_Boolean | (Ua_Float | Ua_Double), Ty_Float | Ua_String, Ty_Text => true
  | (Ua_SByte | Ua_Byte | Ua_Int16 | Ua_UInt16 | Ua_Int32 | Ua_UInt32 | Ua_Int64 | Ua_UInt64), Ty_Integer => true
  | _, _ => false
  end.

Definition show_write_type (data_type : OpcUaWriteDataType) : string :=
  match data_type with
  | Ua_Boolean => "Boolean" | Ua_SByte => "SByte" | Ua_Byte => "Byte" | Ua_Int16 => "Int16"
  | Ua_UInt16 => "UInt16" | Ua_Int32 => "Int32" | Ua_UInt32 => "UInt32" | Ua_Int64 => "Int64"
  | Ua_UInt64 => "UInt64" | Ua_Float => "Float" | Ua_Double => "Double" | Ua_String => "String"
  end.

Definition validate_opc_ua_options (options : OpcUaPointOptions) (value_type : TelemetryType) : Result () :=
  ensure (write_type_accepts (write_data_type options) value_type)
    ("OPC UA write data type " ++ show_write_type (write_data_type options) ++ " is incompatible with " ++
     show_type value_type ++ " telemetry").

Section browse_path.
(** [serde_json::from_str::<OpcUaBrowsePathAddress>]. *)
Context (browse_path_from_json : string -> Result OpcUaBrowsePathAddress).

Definition MAX_BROWSE_PATH_ELEMENTS : nat := 32.
Definition MAX_BROWSE_NAME_BYTES : nat := 256.

Fixpoint check_elements (index : Z) (elements : list OpcUaBrowsePathElement) : Result () :=
  match elements with
  | [] => Ok ()
  | element :: elements =>
      let name := trim_bytes (str_bytes (target_name element)) in
      let label := "OPC UA BrowsePath element " ++ show_Z (index + 1) in
      ensure (negb (bool_decide (name = []))) (label ++ " target name is required");;
      ensure (bool_decide (length name <= MAX_BROWSE_NAME_BYTES)%nat)
        (label ++ " target name exceeds " ++ show_Z (Z.of_nat MAX_BROWSE_NAME_BYTES) ++ " bytes");;
      check_elements (index + 1) elements
  end.

Definition prefix_error {A} (text : string) (r : Result A) : Result A :=
  match r with Err e => Err (text ++ e) | r => r end.

Definition parse_opc_ua_browse_path (value : string) : Result OpcUaBrowsePathAddress :=
  path ← prefix_error "OPC UA BrowsePath JSON is invalid: " (browse_path_from_json value);
  prefix_error "OPC UA BrowsePath starting node is invalid: " (validate_opc_ua_node_id (starting_node path));;
  ensure (negb (bool_decide (path_elements path = []))) "OPC UA BrowsePath requires at least one target element";;
  ensure (bool_decide (length (path_elements path) <= MAX_BROWSE_PATH_ELEMENTS)%nat)
    ("OPC UA BrowsePath cannot exceed " ++ show_Z (Z.of_nat MAX_BROWSE_PATH_ELEMENTS) ++ " elements");;
  check_elements 0 (path_elements path);;
  Ok path.

Definition validate_opc_ua_point (address : PointAddress) (value_type : TelemetryType) (access : PointAccess)
    (options : option OpcUaPointOptions) : Result () :=
  (if bool_decide (addr_kind address = "node_id") then validate_opc_ua_node_id (addr_value address)
   else if bool_decide (addr_kind address = "browse_path")
   then parse_opc_ua_browse_path (addr_value address);; Ok ()
   else bail "OPC UA points require node_id or browse_path address kind");;
  ensure (negb (is_writable access && negb (is_some options))) "writable OPC UA points require a writeDataType";;
  match options with Some options => validate_opc_ua_options options value_type | None => Ok () end.
End browse_path.

(** ** Canonical texts *)

(** The characters of a canonical text: neither whitespace nor lower case. *)
Definition plain (b : Z) : Prop := 33 <= b <= 96.

Lemma plain_strip b l : plain b -> strip_whitespace (b :: l) = None.
Proof.
  intros Hb. unfold plain in Hb. unfold strip_whitespace.
  assert (Ha : ascii_whitespace b = false) by (unfold ascii_whitespace; lia). rewrite Ha.
  assert (H2 : forall b2, whitespace2 b b2 = false) by (intros; unfold whitespace2; lia).
  assert (H3 : forall b2 b3, whitespace3 b b2 b3 = false) by (intros; unfold whitespace3; lia).
  destruct l as [|b2 [|b3 l]]; [done | by rewrite H2 | by rewrite H2, H3].
Qed.

Lemma plain_strip_end b r : plain b -> strip_whitespace_end (b :: r) = None.
Proof.
  intros Hb. unfold plain in Hb. unfold strip_whitespace_end.
  assert (Ha : ascii_whitespace b = false) by (unfold ascii_whitespace; lia). rewrite Ha.
  assert (H2 : forall b2, whitespace2 b2 b = false) by (intros; unfold whitespace2; lia).
  assert (H3 : forall b2 b3, whitespace3 b3 b2 b = false) by (intros; unfold whitespace3; lia).
  destruct r as [|b2 [|b3 r]]; [done | by rewrite H2 | by rewrite H2, H3].
Qed.

Lemma plain_trim l : Forall plain l -> trim_bytes l = l.
Proof. intros Hl.
  unfold trim_bytes. assert (Hstart : trim_start_bytes l = l).
  { unfold trim_start_bytes. destruct l as [|b l']; [done|]. apply Forall_cons_1 in Hl as [Hb _].
    cbn [length trim_start_fuel]. by rewrite plain_strip. }
  rewrite Hstart. unfold trim_end_bytes.
  assert (Hr : trim_end_fuel (length l) (reverse l) = reverse l); [|by rewrite Hr, reverse_involutive].
  assert (Hrl : Forall plain (reverse l)) by by apply Forall_reverse.
  destruct (length l); [done|]. cbn [trim_end_fuel]. destruct (reverse l) as [|b r]; [done|].
  apply Forall_cons_1 in Hrl as [Hb _]. by rewrite plain_strip_end.
Qed.

Lemma plain_upper l : Forall plain l -> to_ascii_upper <$> l = l.
Proof. intros Hl.
  induction Hl as [|b l' Hb _ IH]; [done|]. rewrite fmap_cons, IH. f_equal.
  unfold to_ascii_upper, plain in *. case_match eqn:E; [|done]. apply andb_true_iff in E as [E1 E2]. lia.
Qed.

Lemma plain_no_whitespace l : Forall plain l -> has_whitespace l = false.
Proof. intros Hl.
  induction Hl as [|b l' Hb _ IH]; [done|]. cbn [has_whitespace]. rewrite plain_strip, IH by done. done.
Qed.

Lemma plain_no_space l : Forall plain l -> filter (fun b => b <> 32) l = l.
Proof. intros Hl.
  induction Hl as [|b l' Hb _ IH]; [done|]. unfold plain in Hb. rewrite filter_cons_True by lia. by rewrite IH.
Qed.

Lemma plain_bytes_ok l : Forall plain l -> bytes_ok l.
Proof. intros Hl. eapply Forall_impl; [|exact Hl]. unfold plain, byte_ok. intros. lia. Qed.
Lemma digits_plain n : 0 <= n -> Forall plain (dec_bytes n).
Proof.
  intros H. eapply Forall_impl; [|exact (dec_bytes_ascii n H)]. intros b. unfold is_ascii_digit, plain. lia.
Qed.

Lemma digits_no_dot n : 0 <= n -> Forall (fun b => b <> 46) (dec_bytes n).
Proof.
  intros H. eapply Forall_impl; [|exact (dec_bytes_ascii n H)]. intros b. unfold is_ascii_digit. lia.
Qed.

Lemma str_plain s : forallb (fun b => (33 <=? b) && (b <=? 96)) (str_bytes s) = true -> Forall plain (str_bytes s).
Proof. rewrite forallb_forall, List.Forall_forall. intros H b Hb%H. unfold plain. lia. Qed.

Lemma split_once_none c l : Forall (fun b => b <> c) l -> split_once c l = None.
Proof. induction 1 as [|b l Hb _ IH]; [done|]. cbn [split_once]. by rewrite (proj2 (Z.eqb_neq _ _)), IH. Qed.

(** The first byte of a number is a digit. *)
Lemma digits_head n : 0 <= n -> exists b rest, dec_bytes n = b :: rest /\ is_ascii_digit b = true.
Proof.
  intros H. pose proof (dec_bytes_nonempty n) as Hne. pose proof (dec_bytes_ascii n H) as Ha.
  destruct (dec_bytes n) as [|b rest]; [done|]. apply Forall_cons_1 in Ha as [Hb _]. by exists b, rest.
Qed.

(** *** Siemens S7 *)

(** The addresses the parser produces. *)
Definition s7_ok (a : SiemensS7PointAddress) : Prop :=
  u_ok 16 (s7_db_number a) /\ u_ok 32 (s7_byte_offset a) /\
  (if decide (s7_data_type a = S7_Bit)
   then exists bit, s7_bit_offset a = Some bit /\ 0 <= bit <= 7 else s7_bit_offset a = None) /\
  (s7_area a <> DataBlock -> s7_db_number a = 0 /\
     (s7_data_type a = S7_Bit \/ s7_data_type a = S7_Byte \/ s7_data_type a = S7_Word \/
      s7_data_type a = S7_DWord)).

Lemma s7_offset_ok value t byte_offset bit_offset :
  parse_siemens_s7_offset value t = Ok (byte_offset, bit_offset) ->
  u_ok 32 byte_offset /\
  (if decide (t = S7_Bit) then exists bit, bit_offset = Some bit /\ 0 <= bit <= 7 else bit_offset = None).
Proof.
  unfold parse_siemens_s7_offset. case_bool_decide as Ht; intros Hp; inv_result.
  - destruct a as [x y]. inv_result. simplify_eq. simp_bool. rewrite decide_True by done.
    repeat match goal with H : parse_dec _ _ = Some _ |- _ => apply parse_dec_range in H end.
    unfold u_ok, u_max in *. split; [lia|]. eexists. split; [done|]. lia.
  - simplify_eq. rewrite decide_False by done.
    match goal with H : parse_dec _ _ = Some _ |- _ => apply parse_dec_range in H end.
    unfold u_ok, u_max in *. split; [lia | done].
Qed.

Lemma find_prefix_in {A} prefixes l (x : A) rest :
  find_prefix prefixes l = Some (x, rest) -> exists p, (p, x) ∈ prefixes.
Proof.
  induction prefixes as [|[p y] prefixes IH]; [done|]. cbn [find_prefix]. case_match; intros Hf; simplify_eq.
  - exists p. left.
  - destruct (IH Hf) as [q Hq]. exists q. by right.
Qed.

Lemma parsed_s7_ok text a : parse_siemens_s7_point_address text = Ok a -> s7_ok a.
Proof.
  unfold parse_siemens_s7_point_address. intros Hp. inv_result. case_match eqn:Hdb.
  - inv_result. destruct a0 as [d ty]. inv_result. destruct a1 as [t off]. inv_result. destruct a1 as [o b].
    inv_result. match goal with H : parse_siemens_s7_offset _ _ = _ |- _ => apply s7_offset_ok in H as [Ho Hb] end.
    match goal with H : parse_dec _ _ = Some _ |- _ => apply parse_dec_range in H end.
    unfold s7_ok. cbn. unfold u_max, u_ok in *. split_and!; try done; lia.
  - case_match; [done|]. case_match; [done|]. inv_result. destruct a1 as [t off]. inv_result.
    destruct a1 as [o b]. inv_result.
    match goal with H : parse_siemens_s7_offset _ _ = _ |- _ => apply s7_offset_ok in H as [Ho Hb] end.
    unfold s7_ok. cbn [s7_area s7_db_number s7_byte_offset s7_bit_offset s7_data_type].
    split; [unfold u_ok; lia|]. split; [done|]. split; [done|]. intros _. split; [done|].
    match goal with H : (if ?c then _ else _) = Ok (t, off) |- _ => destruct c; rename H into Hty end;
      inv_result; [simplify_eq; by left|].
    unfold parse_siemens_s7_typed_offset in Hty. inv_result. apply find_prefix_in in Hty as [p Hin].
    unfold AREA_TYPES in Hin. repeat (apply elem_of_cons in Hin as [[= -> ->]|Hin]; [by auto|]).
    by apply elem_of_nil in Hin.
Qed.

Lemma offset_bytes_plain a : s7_ok a -> Forall plain (offset_bytes a).
Proof.
  intros (_ & Ho & Hb & _). unfold offset_bytes. apply Forall_app. unfold u_ok in Ho.
  split; [apply digits_plain; lia|]. destruct (s7_data_type a) eqn:Ht; try constructor.
  - unfold plain. lia.
  - rewrite decide_True in Hb by done. destruct Hb as (bit & -> & ?). apply digits_plain. simpl. lia.
Qed.

Lemma canonical_plain a : s7_ok a -> Forall plain (s7_canonical a).
Proof.
  intros Ha. pose proof (offset_bytes_plain a Ha) as Hoff. destruct Ha as (Hdb & _).
  unfold s7_canonical. destruct (s7_area a);
    rewrite ?Forall_app; repeat split; try (apply str_plain; by destruct (s7_data_type a)); try done.
  - apply digits_plain. unfold u_ok in Hdb. lia.
  - constructor; [unfold plain; lia|]. apply Forall_app. split; [|done]. apply str_plain. by destruct (s7_data_type a).
Qed.

(** Printing an offset and reading it back. *)
Lemma parse_offset_bytes a :
  s7_ok a ->
  parse_siemens_s7_offset (offset_bytes a) (s7_data_type a) = Ok (s7_byte_offset a, s7_bit_offset a).
Proof.
  intros (_ & Ho & Hb & _). unfold parse_siemens_s7_offset, offset_bytes, u_ok in *.
  destruct (decide (s7_data_type a = S7_Bit)) as [Ht|Ht].
  - rewrite bool_decide_true by done. rewrite Ht. destruct Hb as (bit & -> & Hbit). cbn [default from_option id].
    rewrite split_once_app by (apply digits_no_dot; lia). cbn [ok_or mbind Result_bind].
    rewrite !parse_dec_bytes by (unfold u_max; lia). cbn [ok_or mbind Result_bind].
    by rewrite (proj2 (Z.leb_le _ _)) by lia.
  - rewrite bool_decide_false by done. rewrite Hb.
    assert (Hnil : match s7_data_type a with S7_Bit => 46 :: dec_bytes (default 0 (s7_bit_offset a)) | _ => [] end = [])
      by by destruct (s7_data_type a).
    rewrite Hb in Hnil. rewrite Hnil, app_nil_r, parse_dec_bytes by (unfold u_max; lia). done.
Qed.

Lemma offset_bytes_digit a :
  s7_ok a -> exists b rest, offset_bytes a = b :: rest /\ is_ascii_digit b = true.
Proof.
  intros (_ & Ho & _). unfold offset_bytes. destruct (digits_head (s7_byte_offset a)) as (b & rest & -> & Hb);
    [unfold u_ok in Ho; lia|]. by exists b, (rest ++ match s7_data_type a with
      S7_Bit => 46 :: dec_bytes (default 0 (s7_bit_offset a)) | _ => [] end)%list.
Qed.

Ltac area_parses Hcases Hoff Hb Hdigit :=
  rewrite bool_decide_false by (destruct Hcases as [-> | [-> | [-> | ->]]]; done); cbn [negb ensure mbind Result_bind];
  destruct Hcases as [-> | [-> | [-> | ->]]]; rewrite Hb in *;
  lazy -[parse_siemens_s7_offset is_ascii_digit]; rewrite ?Hdigit; lazy -[parse_siemens_s7_offset];
  rewrite Hoff; reflexivity.

Lemma canonical_parses a :
  s7_ok a -> parse_siemens_s7_point_address (str_of_bytes (s7_canonical a)) = Ok a.
Proof.
  intros Ha. pose proof (canonical_plain a Ha) as Hp. unfold parse_siemens_s7_point_address.
  rewrite str_bytes_of_bytes, plain_trim, plain_upper by (done || by apply plain_bytes_ok).
  rewrite plain_no_whitespace, orb_false_r by done.
  pose proof (parse_offset_bytes a Ha) as Hoff. destruct (offset_bytes_digit a Ha) as (b & rest & Hb & Hdigit).
  assert (Hbd : 48 <= b <= 57) by (unfold is_ascii_digit in Hdigit; lia).
  destruct Ha as (Hdb & Ho & Hbit & Harea). destruct a as [area db off bit t]. unfold s7_canonical.
  cbn [s7_area s7_db_number s7_byte_offset s7_bit_offset s7_data_type] in *. destruct area.
  - rewrite bool_decide_false by done. cbn [negb ensure mbind Result_bind].
    change (strip_prefix (str_bytes "DB") _) with
      (Some (dec_bytes db ++ 46 :: str_bytes (db_type_name t) ++ offset_bytes {| s7_area := DataBlock;
        s7_db_number := db; s7_byte_offset := off; s7_bit_offset := bit; s7_data_type := t |})%list).
    cbv beta iota. unfold u_ok in Hdb. rewrite split_once_app by (apply digits_no_dot; lia). cbn [ok_or mbind Result_bind].
    rewrite parse_dec_bytes by (unfold u_max; lia). cbn [ok_or mbind Result_bind].
    assert (Hty : forall o, parse_siemens_s7_typed_offset (str_bytes (db_type_name t) ++ o) DB_TYPES = Ok (t, o))
      by (intros; by destruct t).
    rewrite Hty. cbn [mbind Result_bind]. by rewrite Hoff.
  - destruct (Harea ltac:(done)) as [-> Hcases]. area_parses Hcases Hoff Hb Hdigit.
  - destruct (Harea ltac:(done)) as [-> Hcases]. area_parses Hcases Hoff Hb Hdigit.
  - destruct (Harea ltac:(done)) as [-> Hcases]. area_parses Hcases Hoff Hb Hdigit.
Qed.

(** The canonical text of a Siemens S7 address means the address: whatever
    text the parser accepts, in upper or lower case, with a type prefix or
    without, printing the address it found and parsing that text gives the same
    address again, so the canonical text identifies the point. *)
Theorem s7_canonical_roundtrip text a :
  parse_siemens_s7_point_address text = Ok a ->
  parse_siemens_s7_point_address (str_of_bytes (s7_canonical a)) = Ok a /\
  forall text' a', parse_siemens_s7_point_address text' = Ok a' -> s7_canonical a' = s7_canonical a -> a' = a.
Proof.
  intros Ha. pose proof (canonical_parses a (parsed_s7_ok text a Ha)) as Hp. split; [done|].
  intros text' a' Ha' Heq. pose proof (canonical_parses a' (parsed_s7_ok text' a' Ha')) as Hp'.
  rewrite Heq, Hp in Hp'. by injection Hp'.
Qed.

Lemma s7_canonical_roundtrip_witness :
  let a := {| s7_area := DataBlock; s7_db_number := 10; s7_byte_offset := 4; s7_bit_offset := Some 7;
              s7_data_type := S7_Bit |} in
  parse_siemens_s7_point_address " db10.dbx4.7 " = Ok a /\
  parse_siemens_s7_point_address "DB10.DBX4.7" = Ok a.
Proof.
  split; [reflexivity|].
  exact (proj1 (s7_canonical_roundtrip " db10.dbx4.7 " {| s7_area := DataBlock; s7_db_number := 10;
    s7_byte_offset := 4; s7_bit_offset := Some 7; s7_data_type := S7_Bit |} eq_refl)).
Defined.

(** A first character of more than one byte is not refused: the parser panics. *)
Example s7_address_panics : parse_siemens_s7_point_address "éDB1" = Panic "failed to slice string".
Proof. reflexivity. Qed.

(** *** Omron FINS *)

Definition fins_ok (a : OmronFinsPointAddress) : Prop :=
  0 <= fins_word a < word_capacity (fins_area a) /\
  match fins_bit a with
  | Some bit => 0 <= bit <= 15 /\ supports_bit_access (fins_area a) = true
  | None => True
  end.

Lemma parsed_fins_ok text a : parse_omron_fins_point_address text = Ok a -> fins_ok a.
Proof.
  unfold parse_omron_fins_point_address. intros Hp. inv_result.
  match goal with x : (OmronFinsArea * bytes)%type |- _ => destruct x as [area rest] end. inv_result.
  match goal with x : (bytes * option Z)%type |- _ => destruct x as [word bit] end. inv_result. simp_bool. unfold fins_ok. cbn [fins_word fins_area fins_bit].
  match goal with H : parse_dec _ _ = Some _ |- _ => apply parse_dec_range in H end.
  split; [lia|]. match goal with H : match split_once 46 rest with _ => _ end = Ok (word, bit) |- _ => rename H into Hbit end.
  destruct (split_once 46 rest) as [[w b]|]; inv_result; simplify_eq; [|done]. simp_bool.
  match goal with H : parse_dec _ b = Some _ |- _ => apply parse_dec_range in H end.
  split; [lia|]. match goal with H : is_some _ && _ = false |- _ => cbn in H; by apply negb_false_iff in H end.
Qed.

Lemma fins_prefix area rest :
  (forall b r, rest = b :: r -> is_ascii_digit b = true) -> rest <> [] ->
  find_prefix FINS_AREAS (str_bytes (canonical_prefix area) ++ rest)%list = Some (area, rest).
Proof.
  intros Hdigit Hne. destruct rest as [|b rest]; [done|]. specialize (Hdigit b rest eq_refl).
  assert (Hb : (b =? 82) = false /\ (b =? 77) = false) by (unfold is_ascii_digit in Hdigit; lia).
  destruct Hb as [H82 H77]. rewrite Z.eqb_sym in H82, H77.
  destruct area; unfold find_prefix, FINS_AREAS, strip_prefix; cbn -[Z.eqb];
    change (byte_of_ascii (Ascii.Ascii false true false false true false true false)) with 82;
    change (byte_of_ascii (Ascii.Ascii true false true true false false true false)) with 77;
    rewrite ?H82, ?H77; try reflexivity.
Qed.

Lemma fins_canonical_parses a :
  fins_ok a -> parse_omron_fins_point_address (str_of_bytes (fins_canonical a)) = Ok a.
Proof.
  intros [Hw Hbit]. assert (Hcap : word_capacity (fins_area a) <= 4096) by (destruct (fins_area a); simpl; lia).
  assert (Hp : Forall plain (fins_canonical a)).
  { unfold fins_canonical. rewrite !Forall_app. split_and!.
    - apply str_plain. by destruct (fins_area a).
    - apply digits_plain. lia.
    - destruct (fins_bit a); [|constructor]. constructor; [unfold plain; lia | apply digits_plain; lia]. }
  unfold parse_omron_fins_point_address.
  rewrite str_bytes_of_bytes, plain_trim, plain_upper, plain_no_space by (done || by apply plain_bytes_ok).
  unfold fins_canonical. set (rest := (dec_bytes (fins_word a) ++ _)%list).
  destruct (digits_head (fins_word a)) as (b & r & Hd & Hdig); [lia|].
  rewrite fins_prefix; [| unfold rest; rewrite Hd; intros ? ? [= <- _]; done | unfold rest; by rewrite Hd].
  cbn [ok_or mbind Result_bind]. rewrite bool_decide_false by (unfold rest; by rewrite Hd).
  cbn [negb ensure mbind Result_bind]. unfold rest. destruct a as [area word [bit|]]; cbn [fins_bit fins_word fins_area] in *.
  - rewrite split_once_app by (apply digits_no_dot; lia). destruct Hbit as [Hbit Hsup].
    rewrite bool_decide_false.
    2: { intros Hin. exact (Forall_elem _ _ _ (digits_no_dot bit ltac:(lia)) Hin eq_refl). }
    cbn [negb ensure mbind Result_bind]. rewrite parse_dec_bytes by (unfold u_max; lia). cbn [ok_or mbind Result_bind].
    rewrite (proj2 (Z.leb_le bit 15)) by lia. cbn [ensure mbind Result_bind].
    rewrite parse_dec_bytes by (unfold u_max; lia). cbn [ok_or mbind Result_bind].
    rewrite (proj2 (Z.ltb_lt _ _)) by lia. cbn [ensure mbind Result_bind is_some]. by rewrite Hsup.
  - rewrite app_nil_r, split_once_none by (apply digits_no_dot; lia). cbn [mbind Result_bind].
    rewrite parse_dec_bytes by (unfold u_max; lia). cbn [ok_or mbind Result_bind].
    by rewrite (proj2 (Z.ltb_lt _ _)) by lia.
Qed.

Lemma validated_fins address value_type access p :
  validate_omron_fins_point address value_type access = Ok p ->
  fins_ok p /\ 0 <= fins_word p /\
  fins_word p + (if bool_decide (value_type = Ty_Float) then 2 else 1) <= word_capacity (fins_area p) /\
  (is_Some (fins_bit p) <-> value_type = Ty_Boolean) /\ value_type <> Ty_Text.
Proof.
  unfold validate_omron_fins_point. intros Hv. inv_result. simp_bool.
  match goal with H : parse_omron_fins_point_address _ = Ok _ |- _ => apply parsed_fins_ok in H as Hok end.
  pose proof Hok as [Hw Hbit].
  assert (Hcap : word_capacity (fins_area p) <= 4096) by (destruct (fins_area p); simpl; lia).
  match goal with H : Z.min _ _ <= _ |- _ => unfold u_max in H end.
  split; [done|]. split; [lia|]. split; [lia|].
  destruct (fins_bit p), value_type; try done; (split; [split; intros; try done; by destruct H | done]).
Qed.

(** [C34] An Omron FINS point the validator accepts lies inside its memory area,
    with all the words of its value, names a bit only where the area has bits,
    and is identified by its canonical text: that text parses to the same
    point. *)
Theorem fins_point_in_area address value_type access p :
  validate_omron_fins_point address value_type access = Ok p ->
  0 <= fins_word p /\
  fins_word p + (if bool_decide (value_type = Ty_Float) then 2 else 1) <= word_capacity (fins_area p) /\
  (is_Some (fins_bit p) <-> value_type = Ty_Boolean) /\
  (is_Some (fins_bit p) -> supports_bit_access (fins_area p) = true) /\
  parse_omron_fins_point_address (str_of_bytes (fins_canonical p)) = Ok p.
Proof.
  intros (Hok & Hw & Hend & Hty & _)%validated_fins. pose proof (fins_canonical_parses p Hok) as Hc.
  split; [done|]. split; [done|]. split; [done|]. split; [|done].
  destruct Hok as [_ Hbit]. destruct (fins_bit p); [by destruct Hbit | by intros []].
Qed.

Lemma fins_point_in_area_witness :
  let address := {| addr_kind := "fins_address"; addr_value := "dm 4094"; addr_modbus := None |} in
  exists p, validate_omron_fins_point address Ty_Float ReadWrite = Ok p /\
    fins_word p + 2 <= word_capacity (fins_area p) /\
    parse_omron_fins_point_address (str_of_bytes (fins_canonical p)) = Ok p.
Proof.
  eexists. split; [vm_compute; reflexivity|].
  edestruct (fins_point_in_area {| addr_kind := "fins_address"; addr_value := "dm 4094"; addr_modbus := None |}
    Ty_Float ReadWrite) as (_ & H1 & _ & _ & H2); [vm_compute; reflexivity | exact (conj H1 H2)].
Defined.
