(* ===== verification/DataGraph.v ===== *)
(** The visual graph of a data configuration,
    [validate_data_config_visual_graph] of [crates/edge-core/src/config.rs].

    The validator is a total function ([None] would be the fuel of the cycle
    search running out); [data_graph_accepts_iff] says what it accepts, and
    [accepted_graph_publishes] that every node of an accepted graph leads to an
    MQTT output. *)

From Stdlib Require Import ZArith Lia.
From stdpp Require Import relations.
From S2P Require Import Prelude RustStr Floats Json Model BTree Graph ConfigTypes CommandFlow.

Open Scope string_scope.
Open Scope Z_scope.

#[export] Instance DataConfigGraphNodeKind_eq_dec : EqDecision DataConfigGraphNodeKind.
Proof. solve_decision. Defined.

Definition graph_msg (dc : DataConfig) (text : string) : string :=
  "data config " ++ dc_config_id dc ++ " graph" ++ text.

(** The checks of one node, apart from its identifier. *)
Definition check_graph_node (dc : DataConfig) (node : DataConfigGraphNode) : Result () :=
  if bool_decide (dnode_kind node = Node_Point) then
    let point_id := default "" (dnode_ref_id node) in
    ensure (existsb (fun point => bool_decide (dcp_point_id point = point_id)) (dc_points dc))
      (graph_msg dc (" point node " ++ dnode_id node ++ " references missing point " ++ point_id))
  else Ok ().

Fixpoint check_graph_nodes (dc : DataConfig) (nodes : list DataConfigGraphNode)
    (kinds : gmap string DataConfigGraphNodeKind) : Result (gmap string DataConfigGraphNodeKind) :=
  match nodes with
  | [] => Ok kinds
  | node :: rest =>
      ensure (negb (is_blank (dnode_id node))) (graph_msg dc " node id is required");;
      ensure (bool_decide (kinds !! dnode_id node = None))
        (graph_msg dc (" has duplicate node " ++ dnode_id node));;
      check_graph_node dc node;;
      check_graph_nodes dc rest (<[dnode_id node := dnode_kind node]> kinds)
  end.

Fixpoint check_graph_edges (dc : DataConfig) (kinds : gmap string DataConfigGraphNodeKind)
    (edges : list DataConfigGraphEdge) (edge_ids : gset string) : Result () :=
  match edges with
  | [] => Ok ()
  | edge :: rest =>
      ensure (bool_decide (dedge_id edge ∉ edge_ids)) (graph_msg dc (" has duplicate edge " ++ dedge_id edge));;
      from_kind ← ok_or (kinds !! dedge_from edge)
        (graph_msg dc (" edge " ++ dedge_id edge ++ " references missing source " ++ dedge_from edge));
      to_kind ← ok_or (kinds !! dedge_to edge)
        (graph_msg dc (" edge " ++ dedge_id edge ++ " references missing target " ++ dedge_to edge));
      ensure (negb (bool_decide (from_kind = Node_Mqtt)))
        (graph_msg dc (" MQTT node " ++ dedge_from edge ++ " cannot have outgoing edges"));;
      ensure (negb (bool_decide (to_kind = Node_Point)))
        (graph_msg dc (" point node " ++ dedge_to edge ++ " cannot have incoming edges"));;
      check_graph_edges dc kinds rest ({[dedge_id edge]} ∪ edge_ids)
  end.

Definition graph_pairs (dc : DataConfig) : list GraphEdge :=
  (fun edge => (dedge_from edge, dedge_to edge)) <$> graph_edges (dc_visual_graph dc).

Definition is_mqtt (node : DataConfigGraphNode) : bool := bool_decide (dnode_kind node = Node_Mqtt).

Definition has_incoming (pairs : list GraphEdge) (node : DataConfigGraphNode) : bool :=
  bool_decide (dnode_id node ∈ (list_to_set (snd <$> pairs) : gset string)).
Definition has_outgoing (pairs : list GraphEdge) (node : DataConfigGraphNode) : bool :=
  bool_decide (dnode_id node ∈ (list_to_set (fst <$> pairs) : gset string)).

(** The checks before the cycle search; the result is [node_kinds]. *)
Definition check_graph (dc : DataConfig) : Result (gmap string DataConfigGraphNodeKind) :=
  let nodes := graph_nodes (dc_visual_graph dc) in
  ensure (negb (bool_decide (length nodes = O))) (graph_msg dc " has edges but no nodes");;
  kinds ← check_graph_nodes dc nodes ∅;
  check_graph_edges dc kinds (graph_edges (dc_visual_graph dc)) ∅;;
  let mqtt_nodes := List.filter is_mqtt nodes in
  ensure (negb (bool_decide (length mqtt_nodes = O))) (graph_msg dc " requires at least one MQTT output");;
  match find_first (fun node => negb (has_incoming (graph_pairs dc) node)) mqtt_nodes with
  | Some node => Err (graph_msg dc (" MQTT output " ++ dnode_id node ++ " is disconnected"))
  | None =>
      match find_first (fun node => negb (is_mqtt node) && negb (has_outgoing (graph_pairs dc) node)) nodes with
      | Some node => Err (graph_msg dc (" node " ++ dnode_id node ++ " has no downstream output"))
      | None => Ok kinds
      end
  end.

Definition validate_data_config_visual_graph (dc : DataConfig) : option (Result ()) :=
  let graph := dc_visual_graph dc in
  if bool_decide (length (graph_nodes graph) = O) && bool_decide (length (graph_edges graph) = O)
  then Some (Ok ())
  else
    match check_graph dc with
    | Err e => Some (Err e)
    | Panic e => Some (Panic e)
    | Ok kinds =>
        match topological_count (sorted_keys kinds) (graph_pairs dc) with
        | None => None
        | Some visited => Some (
            visited ← visited;
            ensure (bool_decide (visited = length (graph_nodes graph))) (graph_msg dc " contains a cycle"))
        end
    end.

(** ** What an accepted graph is *)

Definition has_dnode (dc : DataConfig) (id : string) (kind : DataConfigGraphNodeKind) : Prop :=
  exists node, node ∈ graph_nodes (dc_visual_graph dc) /\ dnode_id node = id /\ dnode_kind node = kind.

Definition dnodes_ok (dc : DataConfig) : Prop :=
  NoDup (dnode_id <$> graph_nodes (dc_visual_graph dc)) /\
  Forall (fun node => is_blank (dnode_id node) = false /\
    (dnode_kind node = Node_Point ->
     exists point, point ∈ dc_points dc /\ dcp_point_id point = default "" (dnode_ref_id node)))
    (graph_nodes (dc_visual_graph dc)).

Definition dedges_ok (dc : DataConfig) : Prop :=
  NoDup (dedge_id <$> graph_edges (dc_visual_graph dc)) /\
  forall x y, edge_rel (graph_pairs dc) x y -> exists from to,
    has_dnode dc x from /\ has_dnode dc y to /\ from <> Node_Mqtt /\ to <> Node_Point.

Definition outputs_ok (dc : DataConfig) : Prop :=
  (exists id, has_dnode dc id Node_Mqtt) /\
  (forall id, has_dnode dc id Node_Mqtt -> exists from, edge_rel (graph_pairs dc) from id) /\
  (forall id kind, has_dnode dc id kind -> kind <> Node_Mqtt -> exists to, edge_rel (graph_pairs dc) id to).

(** ** The loops *)

Definition dkinds (nodes : list DataConfigGraphNode) (kinds : gmap string DataConfigGraphNodeKind)
    : gmap string DataConfigGraphNodeKind :=
  fold_left (fun kinds node => <[dnode_id node := dnode_kind node]> kinds) nodes kinds.

Lemma check_graph_node_Ok dc node :
  check_graph_node dc node = Ok () <->
  (dnode_kind node = Node_Point ->
   exists point, point ∈ dc_points dc /\ dcp_point_id point = default "" (dnode_ref_id node)).
Proof.
  unfold check_graph_node. case_bool_decide as Hk; [|naive_solver].
  rewrite ensure_Ok, existsb_exists. split.
  - intros (p & Hp & He) _. apply bool_decide_eq_true in He. exists p. by rewrite list_elem_of_In.
  - intros H. destruct (H Hk) as (p & Hp & He). exists p. by rewrite <- list_elem_of_In, bool_decide_eq_true.
Qed.

Lemma check_graph_nodes_Ok dc nodes kinds kinds' :
  check_graph_nodes dc nodes kinds = Ok kinds' <->
  Forall (fun node => is_blank (dnode_id node) = false /\ check_graph_node dc node = Ok ()) nodes /\
  NoDup (dnode_id <$> nodes) /\ Forall (fun node => kinds !! dnode_id node = None) nodes /\
  kinds' = dkinds nodes kinds.
Proof.
  revert kinds. induction nodes as [|node nodes IH]; intros kinds.
  - simpl. split; [|naive_solver]. intros [= ->]. split_and!; done || constructor.
  - cbn [check_graph_nodes]. rewrite !Forall_cons_iff, fmap_cons, list.NoDup_cons, !bind_Ok. split.
    + intros ([] & Hb & H). apply bind_Ok in H as ([] & Hnew & H).
      apply bind_Ok in H as ([] & Hcheck & H). apply IH in H as (Hall & Hnd & Hfresh & ->).
      apply ensure_Ok in Hb, Hnew. simp_bool.
      split; [done|]. split; [split; [|done] | split; [split; [done|] | done]].
      * intros (n & Hid & Hin)%list_elem_of_fmap. pose proof (Forall_elem _ _ _ Hfresh Hin) as Hn. simpl in Hn.
        by rewrite <- Hid, lookup_insert_eq in Hn.
      * eapply Forall_impl; [|exact Hfresh]. intros n. simpl. rewrite lookup_insert_None. naive_solver.
    + intros ([[Hb Hcheck] Hall] & [Hnin Hnd] & [Hnew Hfresh] & ->). exists (). rewrite Hb. split; [done|].
      rewrite bool_decide_true, Hcheck by done. cbn [ensure mbind Result_bind].
      apply IH. split; [done|]. split; [done|]. split; [|done].
      apply list.Forall_forall. intros n Hn. rewrite lookup_insert_None. split.
      * by apply (Forall_elem _ _ _ Hfresh).
      * intros Heq. apply Hnin. rewrite Heq. by apply list_elem_of_fmap_2.
Qed.

Lemma dkinds_snoc nodes node kinds :
  dkinds (nodes ++ [node]) kinds = <[dnode_id node := dnode_kind node]> (dkinds nodes kinds).
Proof. unfold dkinds. by rewrite fold_left_app. Qed.

Lemma dkinds_lookup nodes id kind :
  NoDup (dnode_id <$> nodes) ->
  dkinds nodes ∅ !! id = Some kind <->
  exists node, node ∈ nodes /\ dnode_id node = id /\ dnode_kind node = kind.
Proof.
  induction nodes as [|node nodes IH] using rev_ind; intros Hnd.
  - simpl. rewrite lookup_empty. split; [done|]. by intros (n & Hn%elem_of_nil & _).
  - rewrite fmap_app in Hnd. apply list.NoDup_app in Hnd as (Hnd & Hdis & _).
    rewrite dkinds_snoc. setoid_rewrite elem_of_app. setoid_rewrite list_elem_of_singleton.
    destruct (decide (dnode_id node = id)) as [<-|Hne].
    + rewrite lookup_insert_eq. split; [intros [= <-]; exists node; auto|].
      intros (n & [Hn | ->] & Hid & Hk); [|by rewrite Hk].
      exfalso. apply (Hdis (dnode_id n)); [by apply list_elem_of_fmap_2|]. rewrite Hid. left.
    + rewrite lookup_insert_ne, IH by done. naive_solver.
Qed.

Lemma check_graph_edges_Ok dc kinds edges edge_ids :
  check_graph_edges dc kinds edges edge_ids = Ok () <->
  NoDup (dedge_id <$> edges) /\ Forall (fun edge => dedge_id edge ∉ edge_ids) edges /\
  Forall (fun edge => exists from to, kinds !! dedge_from edge = Some from /\
    kinds !! dedge_to edge = Some to /\ from <> Node_Mqtt /\ to <> Node_Point) edges.
Proof.
  revert edge_ids. induction edges as [|edge edges IH]; intros edge_ids.
  - simpl. split; [|done]. intros _. split_and!; constructor.
  - cbn [check_graph_edges]. rewrite fmap_cons, list.NoDup_cons, !Forall_cons_iff. split.
    + intros H. inv_result. simp_bool. apply IH in H as (Hnd & Hfresh & Hall).
      split; [split; [|done] | split; [split; [done|] | split; [|done]]].
      * intros (e & Hid & Hin)%list_elem_of_fmap. apply (Forall_elem _ _ _ Hfresh Hin). rewrite Hid. set_solver.
      * eapply Forall_impl; [|exact Hfresh]. intros e He Hin. apply He. set_solver.
      * by eexists _, _.
    + intros ([Hnin Hnd] & [Hnew Hfresh] & (from & to & Hf & Ht & Hfk & Htk) & Hall).
      rewrite bool_decide_true, Hf, Ht by done. cbn [ensure ok_or mbind Result_bind].
      rewrite !bool_decide_false by done. cbn [negb ensure mbind Result_bind]. apply IH.
      split; [done|]. split; [|done]. apply list.Forall_forall. intros e He.
      apply not_elem_of_union. split; [|by apply (Forall_elem _ _ _ Hfresh)].
      intros Heq%elem_of_singleton. apply Hnin. rewrite <- Heq. by apply list_elem_of_fmap_2.
Qed.

Section checked.
Context (dc : DataConfig).
Abbreviation nodes := (graph_nodes (dc_visual_graph dc)).
Abbreviation edges := (graph_edges (dc_visual_graph dc)).
Abbreviation pairs := (graph_pairs dc).

Lemma graph_pair x y : edge_rel pairs x y <-> exists edge, edge ∈ edges /\ dedge_from edge = x /\ dedge_to edge = y.
Proof using.
  unfold edge_rel, graph_pairs. rewrite list_elem_of_fmap. split.
  - intros (edge & [= -> ->] & Hin). by exists edge.
  - intros (edge & Hin & <- & <-). by exists edge.
Qed.

Lemma elem_of_tos ps id : id ∈ snd <$> ps <-> exists from, edge_rel ps from id.
Proof using.
  unfold edge_rel. rewrite list_elem_of_fmap. split.
  - intros ([x y] & -> & Hin). by exists x.
  - intros [from Hin]. by exists (from, id).
Qed.

Lemma outputs_checks :
  (negb (bool_decide (length (List.filter is_mqtt nodes) = O)) = true /\
   find_first (fun node => negb (has_incoming pairs node)) (List.filter is_mqtt nodes) = None /\
   find_first (fun node => negb (is_mqtt node) && negb (has_outgoing pairs node)) nodes = None) <->
  outputs_ok dc.
Proof using.
  assert (Hin : forall node, has_incoming pairs node = true <-> exists from, edge_rel pairs from (dnode_id node)).
  { intros node. unfold has_incoming. by rewrite bool_decide_eq_true, elem_of_list_to_set, elem_of_tos. }
  assert (Hout : forall node, has_outgoing pairs node = true <-> exists to, edge_rel pairs (dnode_id node) to).
  { intros node. unfold has_outgoing. by rewrite bool_decide_eq_true, elem_of_list_to_set, elem_of_froms. }
  assert (Hf : forall node, node ∈ List.filter is_mqtt nodes <-> node ∈ nodes /\ dnode_kind node = Node_Mqtt).
  { intros node. rewrite !list_elem_of_In, filter_In. unfold is_mqtt. by rewrite bool_decide_eq_true. }
  rewrite !find_first_None_iff, negb_true_iff, bool_decide_eq_false, length_zero_iff_nil.
  unfold outputs_ok, has_dnode. split.
  - intros (Hne & H1 & H2). split_and!.
    + destruct (List.filter is_mqtt nodes) as [|n l]; [done|].
      destruct (proj1 (Hf n) ltac:(left)) as [Hn Hk]. by exists (dnode_id n), n.
    + intros id (node & Hn & <- & Hk). apply Hin, negb_false_iff, H1, Hf. done.
    + intros id kind (node & Hn & <- & <-) Hk. apply Hout. specialize (H2 node Hn). unfold is_mqtt in H2.
      rewrite bool_decide_false in H2 by done. by apply negb_false_iff.
  - intros ((id & n & Hn & _ & Hk) & H1 & H2). split_and!.
    + intros Hnil. assert (Hx : n ∈ List.filter is_mqtt nodes) by by apply Hf. rewrite Hnil in Hx.
      by apply elem_of_nil in Hx.
    + intros node [Hnode Hkind]%Hf. apply negb_false_iff, Hin, H1. by exists node.
    + intros node Hnode. unfold is_mqtt. case_bool_decide as Hkind; [done|].
      apply negb_false_iff, Hout. eapply H2; [by exists node | done].
Qed.

Lemma check_graph_Ok kinds :
  check_graph dc = Ok kinds <->
  nodes <> [] /\ dnodes_ok dc /\ dedges_ok dc /\ outputs_ok dc /\ kinds = dkinds nodes ∅.
Proof using.
  rewrite <- outputs_checks. unfold check_graph, dnodes_ok, dedges_ok, has_dnode. split.
  - intros H. inv_result. simp_bool.
    match goal with H : check_graph_nodes _ _ _ = Ok _ |- _ => apply check_graph_nodes_Ok in H as (Hall & Hnd & _ & ->) end.
    match goal with H : check_graph_edges _ _ _ _ = Ok _ |- _ => apply check_graph_edges_Ok in H as (Hed & _ & Hk) end.
    destruct (find_first _ (List.filter _ _)) eqn:E1; [done|]. destruct (find_first _ nodes) eqn:E2; [done|].
    injection H as <-. rewrite length_zero_iff_nil in *. split_and!; try done.
    + eapply Forall_impl; [|exact Hall]. intros node [Hb Hc]. split; [done | by apply check_graph_node_Ok].
    + intros x y (edge & Hin & <- & <-)%graph_pair.
      destruct (Forall_elem _ _ _ Hk Hin) as (f & t & Hf & Ht & ? & ?). exists f, t.
      by rewrite dkinds_lookup in Hf, Ht.
    + rewrite bool_decide_false; [done | by rewrite length_zero_iff_nil].
  - intros (Hne & (Hnd & Hall) & (Hed & Hk) & (Hm & H1 & H2) & ->).
    rewrite (bool_decide_false (length nodes = O)) by by rewrite length_zero_iff_nil.
    cbn [negb ensure mbind Result_bind]. rewrite (proj2 (check_graph_nodes_Ok dc nodes ∅ (dkinds nodes ∅))).
    2: { split_and!; try done.
         - eapply Forall_impl; [|exact Hall]. intros node [Hb Hc]. by rewrite check_graph_node_Ok.
         - apply list.Forall_forall. intros n _. apply lookup_empty. }
    cbn [mbind Result_bind]. rewrite (proj2 (check_graph_edges_Ok dc (dkinds nodes ∅) edges ∅)).
    2: { split_and!; [done| |].
         - apply list.Forall_forall. intros e _. apply not_elem_of_empty.
         - apply list.Forall_forall. intros e He.
           destruct (Hk (dedge_from e) (dedge_to e)) as (f & t & Hf & Ht & ? & ?).
           { apply graph_pair. by exists e. }
           exists f, t. by rewrite !dkinds_lookup. }
    cbn [mbind Result_bind]. rewrite Hm, H1, H2. done.
Qed.

Lemma validate_checked_graph kinds :
  check_graph dc = Ok kinds ->
  validate_data_config_visual_graph dc =
    Some (Ok ()) /\ acyclic pairs \/
  validate_data_config_visual_graph dc = Some (Err (graph_msg dc " contains a cycle")) /\ ~ acyclic pairs.
Proof using.
  intros E. pose proof (proj1 (check_graph_Ok kinds) E) as (Hne & [Hnd _] & [_ Hk] & _ & ->).
  unfold validate_data_config_visual_graph.
  rewrite (bool_decide_false (length nodes = O)) by by rewrite length_zero_iff_nil. cbn [andb]. rewrite E.
  assert (Hids : sorted_keys (dkinds nodes ∅) ≡ₚ dnode_id <$> nodes).
  { apply NoDup_Permutation; [apply sorted_keys_NoDup | done|]. intros id.
    rewrite elem_of_sorted_keys, list_elem_of_fmap. split.
    - intros [kind (node & Hin & <- & _)%dkinds_lookup]; [by exists node | done].
    - intros (node & -> & Hin). exists (dnode_kind node). apply dkinds_lookup; [done|]. by exists node. }
  destruct (topological_count_spec (sorted_keys (dkinds nodes ∅)) pairs) as (n & -> & Hn).
  { apply sorted_keys_NoDup. }
  { intros x y (f & t & (nx & Hnx & <- & _) & (ny & Hny & <- & _) & _)%Hk. rewrite !Hids.
    split; by apply list_elem_of_fmap_2. }
  cbn [mbind Result_bind]. rewrite Hids, length_fmap in Hn.
  destruct (decide (n = length nodes)) as [Heq|Hneq].
  - left. rewrite bool_decide_true by done. split; [done | by apply Hn].
  - right. rewrite bool_decide_false by done. split; [done | by rewrite <- Hn].
Qed.

Lemma no_panic_graph_nodes l kinds : no_panic (check_graph_nodes dc l kinds).
Proof using.
  revert kinds. induction l as [|node l IH]; intros kinds; [done|]. cbn [check_graph_nodes].
  unfold check_graph_node. no_panic_tac; [destruct (bool_decide (dnode_kind node = Node_Point)); no_panic_tac | apply IH].
Qed.

Lemma no_panic_graph_edges kinds l ids : no_panic (check_graph_edges dc kinds l ids).
Proof using.
  revert ids. induction l as [|edge l IH]; intros ids; [done|]. cbn [check_graph_edges].
  no_panic_tac. apply IH.
Qed.

Lemma no_panic_check_graph : no_panic (check_graph dc).
Proof using.
  unfold check_graph. no_panic_tac.
  - apply no_panic_graph_nodes.
  - apply no_panic_graph_edges.
  - by destruct (find_first _ _); [|destruct (find_first _ _)].
Qed.
End checked.

(** The validator of the visual graph decides its contract on every data
    configuration: it always answers, never panics, and accepts a graph exactly
    when it is empty, or its node and edge identifiers are distinct, every point
    node refers to a point of the configuration, edges lead between existing
    nodes (not out of an output nor into a point), there is an MQTT output,
    every output is fed, every other node feeds something, and there is no
    cycle. *)
Theorem data_graph_accepts_iff dc :
  (exists r, validate_data_config_visual_graph dc = Some r /\ no_panic r) /\
  (validate_data_config_visual_graph dc = Some (Ok ()) <->
   (graph_nodes (dc_visual_graph dc) = [] /\ graph_edges (dc_visual_graph dc) = []) \/
   (graph_nodes (dc_visual_graph dc) <> [] /\ dnodes_ok dc /\ dedges_ok dc /\ outputs_ok dc /\
    acyclic (graph_pairs dc))).
Proof.
  destruct (decide (graph_nodes (dc_visual_graph dc) = [] /\ graph_edges (dc_visual_graph dc) = [])) as [He|He].
  { unfold validate_data_config_visual_graph. destruct He as [-> ->]. cbn. split; [by eexists | naive_solver]. }
  destruct (check_graph dc) as [kinds|e|e] eqn:E.
  - pose proof (proj1 (check_graph_Ok dc kinds) E) as (Hne & Hn & Hd & Ho & _).
    destruct (validate_checked_graph dc kinds E) as [[-> Hac]|[-> Hac]]; (split; [by eexists|]); naive_solver.
  - assert (Hv : validate_data_config_visual_graph dc = Some (Err e)).
    { unfold validate_data_config_visual_graph. rewrite E.
      case_bool_decide as H1; [|done]. case_bool_decide as H2; [|done].
      apply length_zero_iff_nil in H1, H2. naive_solver. }
    rewrite Hv. split; [by eexists|]. split; [done|]. intros [?|(Hne & Hn & Hd & Ho & _)]; [done|].
    by rewrite (proj2 (check_graph_Ok dc _) (conj Hne (conj Hn (conj Hd (conj Ho eq_refl))))) in E.
  - pose proof (no_panic_check_graph dc) as Hp. by rewrite E in Hp.
Qed.

(** Every node of an accepted graph leads to an MQTT output. *)
Lemma accepted_graph_publishes dc id kind :
  validate_data_config_visual_graph dc = Some (Ok ()) -> has_dnode dc id kind ->
  exists output, has_dnode dc output Node_Mqtt /\ rtc (edge_rel (graph_pairs dc)) id output.
Proof.
  intros Hv Hid. destruct (check_graph dc) as [kinds|e|e] eqn:E; cycle 1.
  1,2: unfold validate_data_config_visual_graph in Hv; rewrite E in Hv;
    destruct Hid as (n & Hn & _); rewrite bool_decide_false in Hv by
      (rewrite length_zero_iff_nil; intros Hnil; rewrite Hnil in Hn; by apply elem_of_nil in Hn); done.
  pose proof (proj1 (check_graph_Ok dc kinds) E) as (_ & _ & [_ Hk] & (_ & _ & Hout) & _).
  destruct (validate_checked_graph dc kinds E) as [[_ Hac]|[Hx _]]; [|congruence].
  assert (Hsn : sn (edge_rel (graph_pairs dc)) id).
  { apply acyclic_sn with (dnode_id <$> graph_nodes (dc_visual_graph dc)); [done|].
    intros x y (f & t & _ & (n & Hn & <- & _) & _)%Hk. by apply list_elem_of_fmap_2. }
  revert kind Hid. induction Hsn as [id _ IH]. intros kind Hid.
  destruct (decide (kind = Node_Mqtt)) as [->|Hne]; [by exists id|].
  destruct (Hout id kind Hid Hne) as [to Hto]. destruct (Hk id to Hto) as (f & t & _ & Ht & _).
  destruct (IH to Hto t Ht) as (output & Ho & Hr). exists output. split; [done | by eapply rtc_l].
Qed.
