(* ===== verification/ConfigValidation.v ===== *)
(** The two validators of a configuration package: [AppliedEdgeConfig::apply]
    with [validate_config_references] on the edge
    ([crates/edge-runtime/src/config.rs]), which stops at the first problem, and
    [ConfigValidator::validate_package] in the control plane
    ([crates/cloud-control/src/validation.rs]), which collects them.

    [applied_config_closed] says what an applied package is; [clean_package_applies] how
    the two agree, and [clean_package_refused] that they differ.  The decoder of
    an OPC UA browse path is a parameter of the control plane's validator. *)

From Stdlib Require Import ZArith Lia.
From S2P Require Import Prelude RustStr Floats Json Model BTree Graph ConfigTypes ConfigParse CommandFlow.
From S2P Require Import PointAddresses DataGraph.

Open Scope string_scope.
Open Scope Z_scope.

(** [for x in list { check(x)?; }]. *)
Fixpoint check_each {A} (check : A -> Result ()) (l : list A) : Result () :=
  match l with
  | [] => Ok ()
  | x :: l => check x;; check_each check l
  end.

(** The answer of a validator whose cycle search never runs out of fuel. *)
Definition answered (r : option (Result ())) : Result () := default (Panic "out of fuel") r.

Definition MAX_DATA_CONFIG_TIMEOUT_MS : Z := 300000.
Definition MAX_DATA_CONFIG_RETRY_COUNT : Z := 10.

(** The lookup tables of both validators. *)
Definition id_map {A} (id : A -> string) (l : list A) : gmap string A := collect_map ((fun a => (id a, a)) <$> l).
Definition connection_map (package : EdgeConfigPackage) : gmap string ProtocolConnection :=
  id_map conn_id (pkg_protocol_connections package).
Definition mapping_map (package : EdgeConfigPackage) : gmap string TelemetryPointMapping :=
  id_map map_point_id (pkg_point_mappings package).
Definition has_id {A} (id : A -> string) (l : list A) (x : string) : bool :=
  bool_decide (x ∈ (list_to_set (id <$> l) : gset string)).

(** ** The edge *)

Section edge.
Context (package : EdgeConfigPackage).

Definition check_connection (connection : ProtocolConnection) : Result () :=
  prefix_error ("protocol connection " ++ conn_id connection ++ ": ") (validate_connection connection).

Definition check_protocol_point (protocol : ProtocolType) (mapping : TelemetryPointMapping) : Result () :=
  let address := map_address mapping in
  let value_type := map_value_type mapping in
  let access := map_access mapping in
  match protocol with
  | SiemensS7 => validate_siemens_s7_point address value_type access;; Ok ()
  | OmronFins => validate_omron_fins_point address value_type access;; Ok ()
  | Iec101 => validate_iec101_point address value_type access (map_iec101 mapping)
  | Iec104 => validate_iec104_point address value_type access (map_iec104 mapping)
  | _ => Ok ()
  end.

Definition check_mapping (mapping : TelemetryPointMapping) : Result () :=
  validate_point_access (map_address mapping) (map_access mapping);;
  validate_point_read_transforms (map_read_transforms mapping) (map_value_type mapping);;
  connection ← ok_or (connection_map package !! map_protocol_connection_id mapping)
    ("point " ++ map_point_id mapping ++ " references missing protocol connection " ++
     map_protocol_connection_id mapping);
  check_protocol_point (conn_protocol connection) mapping.

Definition check_task_point (task : CollectionTask) (point_id : string) : Result () :=
  let label := "collection task " ++ task_id task in
  mapping ← ok_or (mapping_map package !! point_id) (label ++ " references missing point " ++ point_id);
  ensure (bool_decide (map_device_id mapping = task_device_id task))
    (label ++ " point " ++ point_id ++ " belongs to device " ++ map_device_id mapping ++ ", expected " ++
     task_device_id task);;
  ensure (is_readable (map_access mapping)) (label ++ " references write-only point " ++ point_id).

Definition check_task (task : CollectionTask) : Result () :=
  ensure (negb (is_blank (task_id task))) "collection task id is required";;
  let label := "collection task " ++ task_id task in
  ensure (negb (task_interval_ms task =? 0)) (label ++ " interval must be greater than zero");;
  ensure (has_id inst_device_id (pkg_devices package) (task_device_id task))
    (label ++ " references missing device " ++ task_device_id task);;
  ensure (negb (bool_decide (task_point_ids task = []))) (label ++ " must include at least one point");;
  check_each (check_task_point task) (task_point_ids task).

(** The loop over the points of a data configuration. *)
Fixpoint check_points (dc : DataConfig) (points : list DataConfigPoint) (json_fields : gset string) : Result () :=
  let label := "data config " ++ dc_config_id dc in
  match points with
  | [] => Ok ()
  | point :: points =>
      mapping ← ok_or (mapping_map package !! dcp_point_id point)
        (label ++ " references missing point " ++ dcp_point_id point);
      ensure (bool_decide (map_device_id mapping = dc_device_id dc))
        (label ++ " point " ++ dcp_point_id point ++ " belongs to device " ++ map_device_id mapping ++
         ", expected " ++ dc_device_id dc);;
      ensure (bool_decide (map_protocol_connection_id mapping = dc_protocol_connection_id dc))
        (label ++ " point " ++ dcp_point_id point ++ " uses protocol connection " ++
         map_protocol_connection_id mapping ++ ", expected " ++ dc_protocol_connection_id dc);;
      ensure (is_readable (map_access mapping)) (label ++ " references write-only point " ++ dcp_point_id point);;
      ensure (bool_decide (dcp_json_field point ∉ json_fields))
        (label ++ " has duplicate json field " ++ dcp_json_field point);;
      check_points dc points ({[dcp_json_field point]} ∪ json_fields)
  end.

Definition check_data_config (dc : DataConfig) : Result () :=
  ensure (negb (is_blank (dc_config_id dc))) "data config id is required";;
  let label := "data config " ++ dc_config_id dc in
  let collection := dc_collection dc in
  ensure (negb (bool_decide (length (dc_points dc) = O))) (label ++ " must include at least one point");;
  ensure (negb (period_ms collection =? 0)) (label ++ " collection period must be greater than zero");;
  ensure (negb ((timeout_ms collection =? 0) || (MAX_DATA_CONFIG_TIMEOUT_MS <? timeout_ms collection)))
    (label ++ " collection timeout must be between 1 and " ++ show_Z MAX_DATA_CONFIG_TIMEOUT_MS ++ " ms");;
  ensure (retry_count collection <=? MAX_DATA_CONFIG_RETRY_COUNT)
    (label ++ " collection retry count must not exceed " ++ show_Z MAX_DATA_CONFIG_RETRY_COUNT);;
  ensure (has_id inst_device_id (pkg_devices package) (dc_device_id dc))
    (label ++ " references missing device " ++ dc_device_id dc);;
  ensure (has_id conn_id (pkg_protocol_connections package) (dc_protocol_connection_id dc))
    (label ++ " references missing protocol connection " ++ dc_protocol_connection_id dc);;
  ensure (has_id up_sink_id (pkg_mqtt_uplinks package) (pub_sink_id (dc_publish dc)))
    (label ++ " references missing mqtt sink " ++ pub_sink_id (dc_publish dc));;
  check_points dc (dc_points dc) ∅;;
  check_each (fun algorithm_id =>
      ensure (has_id algo_id (pkg_algorithms package) algorithm_id)
        (label ++ " references missing algorithm " ++ algorithm_id)) (dc_algorithm_ids dc);;
  answered (validate_data_config_visual_graph dc).

Definition check_command_flow (flow : CommandFlowConfig) : Result () :=
  let label := "command flow " ++ flow_id flow in
  ensure (str_is_empty (flow_protocol_connection_id flow) ||
          has_id conn_id (pkg_protocol_connections package) (flow_protocol_connection_id flow))
    (label ++ " references missing protocol connection " ++ flow_protocol_connection_id flow);;
  ensure (has_id up_sink_id (pkg_mqtt_uplinks package) (flow_mqtt_connection_id flow))
    (label ++ " references missing MQTT connection " ++ flow_mqtt_connection_id flow);;
  answered (validate_command_flow flow (pkg_point_mappings package)).

Definition validate_config_references : Result () :=
  check_each check_connection (pkg_protocol_connections package);;
  check_each check_mapping (pkg_point_mappings package);;
  check_each check_task (pkg_collection_tasks package);;
  check_each check_data_config (pkg_data_configs package);;
  check_each check_command_flow (pkg_command_flows package).
End edge.

(** [uplink.client_id = package.edge_id] for every uplink. *)
Definition with_client_id (client_id : string) (uplink : MqttUplinkConfig) : MqttUplinkConfig :=
  {| up_sink_id := up_sink_id uplink; up_broker := up_broker uplink; up_client_id := client_id;
     up_protocol_version := up_protocol_version uplink; up_keep_alive_seconds := up_keep_alive_seconds uplink;
     up_clean_session := up_clean_session uplink; up_clean_start := up_clean_start uplink;
     up_session_expiry_interval_seconds := up_session_expiry_interval_seconds uplink;
     up_receive_maximum := up_receive_maximum uplink;
     up_maximum_packet_size_bytes := up_maximum_packet_size_bytes uplink;
     up_topic_alias_maximum := up_topic_alias_maximum uplink;
     up_request_response_information := up_request_response_information uplink;
     up_request_problem_information := up_request_problem_information uplink;
     up_user_properties := up_user_properties uplink; up_last_will := up_last_will uplink;
     up_username := up_username uplink; up_password_env := up_password_env uplink;
     up_tls_ca_path := up_tls_ca_path uplink; up_topic_template := up_topic_template uplink;
     up_qos := up_qos uplink; up_batch_size := up_batch_size uplink;
     up_flush_interval_ms := up_flush_interval_ms uplink |}.

Definition with_client_ids (package : EdgeConfigPackage) : EdgeConfigPackage :=
  {| pkg_edge_id := pkg_edge_id package; pkg_version := pkg_version package;
     pkg_device_models := pkg_device_models package; pkg_devices := pkg_devices package;
     pkg_protocol_connections := pkg_protocol_connections package;
     pkg_mqtt_uplinks := with_client_id (pkg_edge_id package) <$> pkg_mqtt_uplinks package;
     pkg_data_configs := pkg_data_configs package; pkg_command_flows := pkg_command_flows package;
     pkg_point_mappings := pkg_point_mappings package; pkg_collection_tasks := pkg_collection_tasks package;
     pkg_algorithms := pkg_algorithms package |}.

(** [AppliedEdgeConfig] is its package. *)
Definition apply (package : EdgeConfigPackage) : Result EdgeConfigPackage :=
  ensure (negb (is_blank (pkg_edge_id package))) "edge id is required";;
  ensure (negb (is_blank (pkg_version package))) "config version is required";;
  let package := with_client_ids package in
  validate_config_references package;;
  Ok package.

(** ** The control plane

    [ValidationError] is its message.  A step of the validator pushes messages,
    or panics where the parser it calls does. *)

(** [if bad { errors.push(..) }]. *)
Definition push_if (bad : bool) (message : string) : Result (list string) := Ok (if bad then [message] else []).

(** [if let Err(message) = r { errors.push(prefix + message) }]. *)
Definition report {A} (prefix : string) (r : Result A) : Result (list string) :=
  match r with Ok _ => Ok [] | Err message => Ok [prefix ++ message] | Panic message => Panic message end.

Fixpoint run_checks (steps : list (Result (list string))) : Result (list string) :=
  match steps with
  | [] => Ok []
  | step :: steps => errors ← step; rest ← run_checks steps; Ok (errors ++ rest)%list
  end.

(** The text before the first occurrence of a separator, [s.split_once(sep)]. *)
Fixpoint before_separator (separator l : bytes) : option bytes :=
  match strip_prefix separator l with
  | Some _ => Some []
  | None => match l with [] => None | b :: l => option_map (cons b) (before_separator separator l) end
  end.

Definition mqtt_broker_uses_tls (broker : string) : bool :=
  match before_separator (str_bytes "://") (str_bytes broker) with
  | Some scheme =>
      let scheme := to_ascii_lower <$> scheme in
      bool_decide (scheme = str_bytes "mqtts") || bool_decide (scheme = str_bytes "ssl")
  | None => false
  end.

Definition blank_option (o : option string) : bool := match o with Some s => is_blank s | None => false end.

Definition quoted (s : string) : string := "`" ++ s ++ "`".

Section cloud.
Context (browse_path_from_json : string -> Result OpcUaBrowsePathAddress) (package : EdgeConfigPackage).

Definition report_connection (connection : ProtocolConnection) : Result (list string) :=
  report ("protocol connection " ++ quoted (conn_id connection) ++ ": ") (validate_connection connection).

Definition report_uplink (uplink : MqttUplinkConfig) : Result (list string) :=
  let label := "mqtt sink " ++ quoted (up_sink_id uplink) in
  run_checks
    [push_if (negb (bool_decide (is_some (up_username uplink) = is_some (up_password_env uplink))))
       (label ++ " username and password environment reference must be configured together");
     push_if (blank_option (up_username uplink) || blank_option (up_password_env uplink))
       (label ++ " credential references must not be empty");
     push_if (blank_option (up_tls_ca_path uplink)) (label ++ " TLS CA path must not be empty");
     push_if (is_some (up_tls_ca_path uplink) && negb (mqtt_broker_uses_tls (up_broker uplink)))
       (label ++ " TLS CA path requires an mqtts:// broker")].

(** The address check of the protocol of the point's connection. *)
Definition report_protocol_point (protocol : ProtocolType) (mapping : TelemetryPointMapping)
    : Result (list string) :=
  let address := map_address mapping in
  let value_type := map_value_type mapping in
  let access := map_access mapping in
  let prefix := "point " ++ quoted (map_point_id mapping) ++ ": " in
  match protocol with
  | OpcUa => report prefix
      (if bool_decide (addr_kind address = "node_id") then validate_opc_ua_node_id (addr_value address)
       else if bool_decide (addr_kind address = "browse_path")
       then parse_opc_ua_browse_path browse_path_from_json (addr_value address);; Ok ()
       else bail "OPC UA address kind must be `node_id` or `browse_path`")
  | Iec104 =>
      if negb (bool_decide (addr_kind address = "iec104_ioa"))
      then Ok ["point " ++ quoted (map_point_id mapping) ++ " IEC 104 address kind must be `iec104_ioa`"]
      else report prefix (parse_iec104_point_address (addr_value address))
  | BacnetIp => report prefix (validate_bacnet_point address value_type access (map_bacnet mapping))
  | SiemensS7 => report prefix (validate_siemens_s7_point address value_type access)
  | OmronFins => report prefix (validate_omron_fins_point address value_type access)
  | _ => Ok []
  end.

Definition report_mapping (mapping : TelemetryPointMapping) : Result (list string) :=
  let label := "point " ++ quoted (map_point_id mapping) in
  run_checks
    [report (label ++ ": ")
       (validate_modbus_point_options (map_address mapping) (map_value_type mapping) (map_access mapping));
     match connection_map package !! map_protocol_connection_id mapping with
     | Some connection => report_protocol_point (conn_protocol connection) mapping
     | None => Ok [label ++ " references missing protocol connection " ++ quoted (map_protocol_connection_id mapping)]
     end;
     push_if (negb (has_id inst_device_id (pkg_devices package) (map_device_id mapping)))
       (label ++ " references missing device " ++ quoted (map_device_id mapping))].

(** The device of a task or of a data configuration. *)
Definition report_device (label device_id : string) : Result (list string) :=
  if is_blank device_id then Ok [label ++ " device id is required"]
  else push_if (negb (has_id inst_device_id (pkg_devices package) device_id))
         (label ++ " references missing device " ++ quoted device_id).

Definition wrong_device (label point_id device_id : string) (mapping : TelemetryPointMapping) : Result (list string) :=
  push_if (negb (bool_decide (map_device_id mapping = device_id)))
    (label ++ " point " ++ quoted point_id ++ " belongs to device " ++ quoted (map_device_id mapping) ++
     ", expected " ++ quoted device_id).

Definition write_only (label point_id : string) (mapping : TelemetryPointMapping) : Result (list string) :=
  push_if (negb (is_readable (map_access mapping))) (label ++ " references write-only point " ++ quoted point_id).

Definition report_task_point (task : CollectionTask) (point_id : string) : Result (list string) :=
  let label := "collection task " ++ quoted (task_id task) in
  match mapping_map package !! point_id with
  | None => Ok [label ++ " references missing point " ++ quoted point_id]
  | Some mapping =>
      run_checks [wrong_device label point_id (task_device_id task) mapping; write_only label point_id mapping]
  end.

Definition report_task (task : CollectionTask) : Result (list string) :=
  let label := "collection task " ++ quoted (task_id task) in
  run_checks
    ([push_if (is_blank (task_id task)) "collection task id is required";
      report_device label (task_device_id task);
      push_if (task_interval_ms task =? 0) (label ++ " interval must be greater than zero");
      push_if (bool_decide (task_point_ids task = [])) (label ++ " must contain at least one point")] ++
     (report_task_point task <$> task_point_ids task)).

(** The point of a data configuration, without its field. *)
Definition report_dc_point (dc : DataConfig) (point : DataConfigPoint) : Result (list string) :=
  let label := "data config " ++ quoted (dc_config_id dc) in
  let point_id := dcp_point_id point in
  if is_blank point_id then Ok [label ++ " contains point with empty id"]
  else
    match mapping_map package !! point_id with
    | Some mapping =>
        run_checks
          [wrong_device label point_id (dc_device_id dc) mapping;
           push_if (negb (bool_decide (map_protocol_connection_id mapping = dc_protocol_connection_id dc)))
             (label ++ " point " ++ quoted point_id ++ " uses protocol connection " ++
              quoted (map_protocol_connection_id mapping) ++ ", expected " ++ quoted (dc_protocol_connection_id dc));
           write_only label point_id mapping]
    | None => Ok [label ++ " references missing point " ++ quoted point_id]
    end.

(** The loop over the points: [json_fields] holds the non-blank fields seen. *)
Fixpoint report_points (dc : DataConfig) (points : list DataConfigPoint) (json_fields : gset string)
    : Result (list string) :=
  let label := "data config " ++ quoted (dc_config_id dc) in
  match points with
  | [] => Ok []
  | point :: points =>
      let field := dcp_json_field point in
      run_checks
        [report_dc_point dc point;
         (if is_blank field then
            Ok [label ++ " point " ++ quoted (dcp_point_id point) ++ " json field is required"]
          else push_if (bool_decide (field ∈ json_fields)) (label ++ " has duplicate json field " ++ quoted field));
         report_points dc points (if is_blank field then json_fields else {[field]} ∪ json_fields)]
  end.

Definition report_data_config (dc : DataConfig) : Result (list string) :=
  let label := "data config " ++ quoted (dc_config_id dc) in
  let collection := dc_collection dc in
  let connection_id := dc_protocol_connection_id dc in
  run_checks
    ([push_if (is_blank (dc_config_id dc)) "data config id is required";
      report_device label (dc_device_id dc);
      (if is_blank connection_id then Ok [label ++ " protocol connection is required"]
       else push_if (negb (is_some (connection_map package !! connection_id)))
              (label ++ " references missing protocol connection " ++ quoted connection_id));
      push_if (negb (has_id up_sink_id (pkg_mqtt_uplinks package) (pub_sink_id (dc_publish dc))))
        (label ++ " references missing mqtt sink " ++ quoted (pub_sink_id (dc_publish dc)));
      push_if (period_ms collection =? 0) (label ++ " collection period must be greater than zero");
      push_if ((timeout_ms collection =? 0) || (MAX_DATA_CONFIG_TIMEOUT_MS <? timeout_ms collection))
        (label ++ " collection timeout must be between 1 and " ++ show_Z MAX_DATA_CONFIG_TIMEOUT_MS ++ " ms");
      push_if (MAX_DATA_CONFIG_RETRY_COUNT <? retry_count collection)
        (label ++ " collection retry count must not exceed " ++ show_Z MAX_DATA_CONFIG_RETRY_COUNT);
      push_if (bool_decide (length (dc_points dc) = O)) (label ++ " must contain at least one point");
      report_points dc (dc_points dc) ∅] ++
     ((fun algorithm_id =>
         push_if (negb (has_id algo_id (pkg_algorithms package) algorithm_id))
           (label ++ " references missing algorithm " ++ quoted algorithm_id)) <$> dc_algorithm_ids dc)).

Definition report_command_flow (flow : CommandFlowConfig) : Result (list string) :=
  let label := "command flow " ++ quoted (flow_id flow) in
  let connection_id := flow_protocol_connection_id flow in
  run_checks
    [push_if (negb (str_is_empty connection_id) && negb (is_some (connection_map package !! connection_id)))
       (label ++ " references missing protocol connection " ++ quoted connection_id);
     push_if (negb (has_id up_sink_id (pkg_mqtt_uplinks package) (flow_mqtt_connection_id flow)))
       (label ++ " references missing MQTT connection " ++ quoted (flow_mqtt_connection_id flow));
     report "" (answered (validate_command_flow flow (pkg_point_mappings package)))].

Definition validate_package : Result (list string) :=
  run_checks
    ((report_connection <$> pkg_protocol_connections package) ++
     (report_uplink <$> pkg_mqtt_uplinks package) ++
     (report_mapping <$> pkg_point_mappings package) ++
     (report_task <$> pkg_collection_tasks package) ++
     (report_data_config <$> pkg_data_configs package) ++
     (report_command_flow <$> pkg_command_flows package)).
End cloud.

(** ** What the checks mean *)

Lemma check_each_Ok {A} (check : A -> Result ()) l :
  check_each check l = Ok () <-> Forall (fun x => check x = Ok ()) l.
Proof.
  induction l as [|x l IH]; simpl.
  - done.
  - rewrite Forall_cons_iff, <- IH, bind_Ok. split; [intros ([] & ? & ?) | intros []]; eauto.
Qed.

Lemma check_each_ext {A} (f g : A -> Result ()) l : (forall x, f x = g x) -> check_each f l = check_each g l.
Proof. intros H. induction l as [|x l IH]; simpl; [done|]. by rewrite H, IH. Qed.

Lemma Forall_iff_on {A} (P Q R : A -> Prop) l :
  Forall P l -> (forall x, P x -> (Q x <-> R x)) -> Forall Q l <-> Forall R l.
Proof. intros HP H. rewrite !list.Forall_forall in *. naive_solver. Qed.

Lemma run_checks_clean steps : run_checks steps = Ok [] <-> Forall (fun step => step = Ok []) steps.
Proof.
  induction steps as [|step steps IH]; simpl.
  - done.
  - rewrite Forall_cons_iff, <- IH. split.
    + intros H. inv_result. by destruct a, a0.
    + by intros [-> ->].
Qed.

Lemma push_if_clean bad message : push_if bad message = Ok [] <-> bad = false.
Proof. by destruct bad. Qed.

Lemma report_clean {A} prefix (r : Result A) : report prefix r = Ok [] <-> exists a, r = Ok a.
Proof. destruct r; simpl; split; naive_solver. Qed.

Lemma report_unit_clean prefix (r : Result ()) : report prefix r = Ok [] <-> r = Ok ().
Proof. rewrite report_clean. split; [intros [[] ->] | intros ->; eexists]; done. Qed.

Lemma then_Ok (r : Result ()) (k : Result ()) : (r;; k) = Ok () <-> r = Ok () /\ k = Ok ().
Proof. rewrite bind_Ok. split; [intros ([] & ? & ?) | intros []]; eauto. Qed.

Lemma prefix_error_Ok {A} text (r : Result A) a : prefix_error text r = Ok a <-> r = Ok a.
Proof. by destruct r. Qed.

(** Turns a silent report into the conditions it checked. *)
Ltac clean_simpl :=
  rewrite ?run_checks_clean, ?Forall_app, ?Forall_cons_iff, ?Forall_nil_iff, ?push_if_clean, ?report_unit_clean in *.

Lemma has_id_In {A} (id : A -> string) l x : has_id id l x = true <-> exists a, a ∈ l /\ id a = x.
Proof.
  unfold has_id. rewrite bool_decide_eq_true, elem_of_list_to_set, list_elem_of_fmap. naive_solver.
Qed.

Lemma id_map_Some {A} (id : A -> string) l x a : id_map id l !! x = Some a -> a ∈ l /\ id a = x.
Proof.
  intros H%collect_map_Some. apply list_elem_of_fmap in H as (b & [= -> ->] & Hb). done.
Qed.

Lemma id_map_is_Some {A} (id : A -> string) l x : is_Some (id_map id l !! x) <-> exists a, a ∈ l /\ id a = x.
Proof.
  split.
  - intros [a H%id_map_Some]. eauto.
  - unfold id_map. induction l as [|b l IH] using rev_ind; intros (a & Ha & <-).
    + by apply not_elem_of_nil in Ha.
    + rewrite fmap_app, fmap_cons, fmap_nil, collect_map_snoc.
      destruct (decide (id b = id a)) as [->|Hne].
      * rewrite lookup_insert_eq. eauto.
      * rewrite lookup_insert_ne by done. apply IH.
        apply elem_of_app in Ha as [Ha|Ha]; [eauto|]. by apply list_elem_of_singleton in Ha as ->.
Qed.

Lemma has_id_map {A} (id : A -> string) l x : has_id id l x = is_some (id_map id l !! x).
Proof.
  apply eq_true_iff_eq. rewrite has_id_In, <- id_map_is_Some.
  destruct (id_map id l !! x); simpl; split; naive_solver.
Qed.

(** ** Agreement *)

(** What the edge checks and the control plane does not: the identifiers of the
    package, the read transforms and the IEC 60870 options of a point, and the
    visual graph of a data configuration. *)
Definition iec_point_ok (protocol : ProtocolType) (m : TelemetryPointMapping) : Prop :=
  match protocol with
  | Iec101 => validate_iec101_point (map_address m) (map_value_type m) (map_access m) (map_iec101 m) = Ok ()
  | Iec104 => validate_iec104_point (map_address m) (map_value_type m) (map_access m) (map_iec104 m) = Ok ()
  | _ => True
  end.

Definition edge_only_ok (package : EdgeConfigPackage) : Prop :=
  is_blank (pkg_edge_id package) = false /\ is_blank (pkg_version package) = false /\
  Forall (fun m => validate_point_read_transforms (map_read_transforms m) (map_value_type m) = Ok () /\
    (forall c, connection_map package !! map_protocol_connection_id m = Some c -> iec_point_ok (conn_protocol c) m))
    (pkg_point_mappings package) /\
  Forall (fun dc => answered (validate_data_config_visual_graph dc) = Ok ()) (pkg_data_configs package).

Section agreement.
Context (decoder : string -> Result OpcUaBrowsePathAddress) (package : EdgeConfigPackage).

Lemma clean_connection c : report_connection c = Ok [] -> check_connection c = Ok ().
Proof. unfold report_connection, check_connection. by rewrite report_unit_clean, prefix_error_Ok. Qed.

Lemma modbus_point_access address value_type access :
  validate_modbus_point_options address value_type access = Ok () -> validate_point_access address access = Ok ().
Proof. unfold validate_modbus_point_options. intros H. inv_result. done. Qed.

Lemma clean_protocol_point protocol m :
  report_protocol_point decoder protocol m = Ok [] -> (check_protocol_point protocol m = Ok () <-> iec_point_ok protocol m).
Proof.
  destruct protocol; simpl; try done; rewrite report_clean; intros [a ->]; done.
Qed.

Lemma clean_mapping m :
  report_mapping decoder package m = Ok [] ->
  (check_mapping package m = Ok () <->
   validate_point_read_transforms (map_read_transforms m) (map_value_type m) = Ok () /\
   (forall c, connection_map package !! map_protocol_connection_id m = Some c -> iec_point_ok (conn_protocol c) m)).
Proof.
  unfold report_mapping, check_mapping. intros H. clean_simpl.
  destruct H as (Hm%modbus_point_access & Hp & _).
  rewrite !then_Ok. destruct (connection_map package !! _) as [c|]; [|done]. simpl.
  rewrite (clean_protocol_point _ _ Hp). naive_solver.
Qed.

Lemma clean_task_point task id : report_task_point package task id = Ok [] -> check_task_point package task id = Ok ().
Proof.
  unfold report_task_point, check_task_point, wrong_device, write_only. intros H.
  destruct (mapping_map package !! id) as [m|]; [simpl | done]. clean_simpl.
  destruct H as (Hd%negb_false_iff & Hr%negb_false_iff & _). by rewrite Hd, Hr.
Qed.

Lemma clean_device label id :
  report_device package label id = Ok [] -> has_id inst_device_id (pkg_devices package) id = true.
Proof. unfold report_device. destruct (is_blank id); [done|]. by rewrite push_if_clean, negb_false_iff. Qed.

Lemma clean_task task : report_task package task = Ok [] -> check_task package task = Ok ().
Proof.
  unfold report_task, check_task. intros H. clean_simpl. rewrite Forall_fmap in H.
  destruct H as ((Hid & Hd%clean_device & Hi & Hp & _) & Hall). rewrite Hid, Hd, Hi, Hp. simpl.
  apply check_each_Ok. revert Hall. apply Forall_impl. exact (clean_task_point task).
Qed.

Lemma clean_points dc points fields :
  report_points package dc points fields = Ok [] -> check_points package dc points fields = Ok ().
Proof.
  revert fields. induction points as [|point points IH]; intros fields; [done|].
  cbn [report_points check_points]. intros H. clean_simpl. destruct H as (Hp & Hf & Hrest & _).
  unfold report_dc_point, wrong_device, write_only in Hp. destruct (is_blank (dcp_point_id point)); [done|].
  destruct (mapping_map package !! _) as [m|]; [simpl | done]. clean_simpl.
  destruct Hp as (Hd%negb_false_iff & Hc%negb_false_iff & Hr%negb_false_iff & _). rewrite Hd, Hc, Hr. simpl.
  destruct (is_blank (dcp_json_field point)); [done|].
  rewrite push_if_clean, bool_decide_eq_false in Hf. rewrite bool_decide_true by done. by apply IH.
Qed.

Lemma clean_data_config dc :
  report_data_config package dc = Ok [] ->
  (check_data_config package dc = Ok () <-> answered (validate_data_config_visual_graph dc) = Ok ()).
Proof.
  unfold report_data_config, check_data_config. intros H. clean_simpl. rewrite Forall_fmap in H.
  destruct H as ((Hid & Hd%clean_device & Hc & Hs%negb_false_iff & Hp & Ht & Hr & Hn & Hpts%clean_points & _) & Ha).
  destruct (is_blank (dc_protocol_connection_id dc)); [done|].
  rewrite push_if_clean, negb_false_iff in Hc. unfold connection_map in Hc. rewrite <- has_id_map in Hc.
  rewrite Hid, Hd, Hc, Hs, Hp, Ht, Hn, Hpts, Z.leb_antisym, Hr. simpl.
  rewrite then_Ok, check_each_Ok. split; [by intros []|]. split; [|done].
  revert Ha. apply Forall_impl. intros id Hid'. apply push_if_clean, negb_false_iff in Hid'. by rewrite Hid'.
Qed.

Lemma clean_command_flow flow : report_command_flow package flow = Ok [] -> check_command_flow package flow = Ok ().
Proof.
  unfold report_command_flow, check_command_flow. intros H. clean_simpl.
  destruct H as (Hc & Hs%negb_false_iff & Hv & _). rewrite Hs, Hv, has_id_map. unfold connection_map in Hc.
  destruct (str_is_empty _), (id_map _ _ !! _); done.
Qed.

Lemma clean_references :
  validate_package decoder package = Ok [] ->
  (validate_config_references package = Ok () <->
   Forall (fun m => validate_point_read_transforms (map_read_transforms m) (map_value_type m) = Ok () /\
     (forall c, connection_map package !! map_protocol_connection_id m = Some c -> iec_point_ok (conn_protocol c) m))
     (pkg_point_mappings package) /\
   Forall (fun dc => answered (validate_data_config_visual_graph dc) = Ok ()) (pkg_data_configs package)).
Proof.
  unfold validate_package, validate_config_references. intros H. clean_simpl. rewrite !Forall_fmap in H.
  destruct H as (Hc & _ & Hm & Ht & Hd & Hf). rewrite !then_Ok, !check_each_Ok.
  rewrite (Forall_iff_on _ _ _ _ Hm clean_mapping), (Forall_iff_on _ _ _ _ Hd clean_data_config).
  pose proof (list.Forall_impl _ _ _ Hc clean_connection). pose proof (list.Forall_impl _ _ _ Ht clean_task).
  pose proof (list.Forall_impl _ _ _ Hf clean_command_flow). tauto.
Qed.
End agreement.

Lemma sinks_with_client_ids package id :
  has_id up_sink_id (pkg_mqtt_uplinks (with_client_ids package)) id = has_id up_sink_id (pkg_mqtt_uplinks package) id.
Proof. unfold has_id. simpl. by rewrite <- list_fmap_compose. Qed.

Lemma references_with_client_ids package :
  validate_config_references (with_client_ids package) = validate_config_references package.
Proof.
  unfold validate_config_references.
  rewrite (check_each_ext (check_data_config (with_client_ids package)) (check_data_config package)),
    (check_each_ext (check_command_flow (with_client_ids package)) (check_command_flow package)).
  - done.
  - intros flow. unfold check_command_flow. by rewrite sinks_with_client_ids.
  - intros dc. unfold check_data_config. by rewrite sinks_with_client_ids.
Qed.

(** [C33] How the two validators agree: a package on which the control plane's
    validator reports nothing is applied by the edge exactly when it passes the
    checks only the edge makes, and what is applied is the package with every
    MQTT client id replaced by the edge's id. *)
Theorem clean_package_applies decoder package :
  validate_package decoder package = Ok [] ->
  (edge_only_ok package <-> apply package = Ok (with_client_ids package)).
Proof.
  intros Hclean%clean_references. unfold apply, edge_only_ok.
  destruct (is_blank (pkg_edge_id package)), (is_blank (pkg_version package)); simpl; try by split; naive_solver.
  rewrite references_with_client_ids, <- Hclean. split.
  - by intros (_ & _ & ->).
  - intros H. inv_result. done.
Qed.

(** ** An applied configuration *)

Section applied.
Context (package : EdgeConfigPackage).

(** The mapping of a point: readable, of the given device and, where the user of
    the point says so, of the given connection. *)
Definition collects (device_id : string) (connection : option string) (id : string) : Prop :=
  exists m, m ∈ pkg_point_mappings package /\ map_point_id m = id /\ map_device_id m = device_id /\
    is_readable (map_access m) = true /\
    match connection with Some c => map_protocol_connection_id m = c | None => True end.

Definition has_connection (id : string) : Prop :=
  exists c, c ∈ pkg_protocol_connections package /\ conn_id c = id /\ validate_connection c = Ok ().

Definition has_device (id : string) : Prop :=
  exists d, d ∈ pkg_devices package /\ inst_device_id d = id.

(** An uplink that connects under the edge's own id. *)
Definition has_uplink (id : string) : Prop :=
  exists u, u ∈ pkg_mqtt_uplinks package /\ up_sink_id u = id /\ up_client_id u = pkg_edge_id package.

(** The mapping a write node of the flow drives: writable, and of the flow's
    connection where the flow names one. *)
Definition drives (flow : CommandFlowConfig) (id : string) : Prop :=
  exists m, m ∈ pkg_point_mappings package /\ map_point_id m = id /\ is_writable (map_access m) = true /\
    (flow_protocol_connection_id flow = "" \/ map_protocol_connection_id m = flow_protocol_connection_id flow).

(** The write nodes of a flow drive points, and its edges lead from node to node. *)
Definition flow_graph_closed (flow : CommandFlowConfig) : Prop :=
  (forall node, node ∈ flow_nodes flow -> cnode_kind node = PointWrite ->
     drives flow (default "" (cnode_ref_id node))) /\
  (forall edge, edge ∈ flow_edges flow ->
     cedge_from edge ∈ cnode_id <$> flow_nodes flow /\ cedge_to edge ∈ cnode_id <$> flow_nodes flow) /\
  acyclic (flow_pairs flow).

(** The point nodes of a data configuration's graph stand for its points, and the
    edges lead from node to node. *)
Definition data_graph_closed (dc : DataConfig) : Prop :=
  let nodes := graph_nodes (dc_visual_graph dc) in
  (forall node, node ∈ nodes -> dnode_kind node = Node_Point ->
     default "" (dnode_ref_id node) ∈ dcp_point_id <$> dc_points dc) /\
  (forall edge, edge ∈ graph_edges (dc_visual_graph dc) ->
     dedge_from edge ∈ dnode_id <$> nodes /\ dedge_to edge ∈ dnode_id <$> nodes) /\
  acyclic (graph_pairs dc).

(** The device of a mapping is not part of it: the edge does not look it up. *)
Record package_closed : Prop := {
  mappings_closed m : m ∈ pkg_point_mappings package -> has_connection (map_protocol_connection_id m);
  tasks_closed task : task ∈ pkg_collection_tasks package ->
    has_device (task_device_id task) /\ task_interval_ms task <> 0 /\ task_point_ids task <> [] /\
    Forall (collects (task_device_id task) None) (task_point_ids task);
  data_configs_closed dc : dc ∈ pkg_data_configs package ->
    has_device (dc_device_id dc) /\ has_connection (dc_protocol_connection_id dc) /\
    has_uplink (pub_sink_id (dc_publish dc)) /\
    Forall (collects (dc_device_id dc) (Some (dc_protocol_connection_id dc))) (dcp_point_id <$> dc_points dc) /\
    NoDup (dcp_json_field <$> dc_points dc) /\
    Forall (fun id => exists a, a ∈ pkg_algorithms package /\ algo_id a = id) (dc_algorithm_ids dc) /\
    data_graph_closed dc;
  flows_closed flow : flow ∈ pkg_command_flows package ->
    has_uplink (flow_mqtt_connection_id flow) /\
    (flow_protocol_connection_id flow = "" \/ has_connection (flow_protocol_connection_id flow)) /\
    flow_graph_closed flow;
}.

Hypothesis Hrefs : validate_config_references package = Ok ().
Hypothesis Hclient : Forall (fun u => up_client_id u = pkg_edge_id package) (pkg_mqtt_uplinks package).

Lemma has_connection_In c : c ∈ pkg_protocol_connections package -> has_connection (conn_id c).
Proof.
  unfold validate_config_references in Hrefs. rewrite !then_Ok, !check_each_Ok, !list.Forall_forall in Hrefs.
  destruct Hrefs as [Hc _]. intros H. exists c. split_and!; [done..|].
  specialize (Hc c H). by apply prefix_error_Ok in Hc.
Qed.

Lemma has_connection_id id : has_id conn_id (pkg_protocol_connections package) id = true -> has_connection id.
Proof. intros (c & Hc & <-)%has_id_In. by apply has_connection_In. Qed.

Lemma has_uplink_id id : has_id up_sink_id (pkg_mqtt_uplinks package) id = true -> has_uplink id.
Proof.
  intros (u & Hu & <-)%has_id_In. exists u. split_and!; [done..|].
  by apply (proj1 (list.Forall_forall _ _) Hclient).
Qed.

Lemma check_mapping_closed m : check_mapping package m = Ok () -> has_connection (map_protocol_connection_id m).
Proof.
  unfold check_mapping. intros H. inv_result. apply id_map_Some in Ha1 as [Hin <-]. by apply has_connection_In.
Qed.

Lemma check_task_closed task :
  check_task package task = Ok () ->
  has_device (task_device_id task) /\ task_interval_ms task <> 0 /\ task_point_ids task <> [] /\
  Forall (collects (task_device_id task) None) (task_point_ids task).
Proof.
  unfold check_task. intros H. inv_result. apply check_each_Ok in H.
  apply negb_true_iff, Z.eqb_neq in Ha0. apply has_id_In in Ha1. apply negb_true_iff, bool_decide_eq_false in Ha2.
  split_and!; [done..|]. revert H. apply Forall_impl. intros id H. unfold check_task_point in H. inv_result.
  apply id_map_Some in Ha3 as [Hm <-]. apply bool_decide_eq_true in Ha4. by eexists.
Qed.

Lemma check_points_closed dc points fields :
  check_points package dc points fields = Ok () ->
  Forall (collects (dc_device_id dc) (Some (dc_protocol_connection_id dc))) (dcp_point_id <$> points) /\
  NoDup (dcp_json_field <$> points) /\ (forall f, f ∈ dcp_json_field <$> points -> f ∉ fields).
Proof.
  revert fields. induction points as [|point points IH]; intros fields.
  { intros _. split_and!; [constructor..|]. intros f []%not_elem_of_nil. }
  cbn [check_points]. intros H. inv_result.
  apply id_map_Some in Ha as [Hm Hid]. rewrite bool_decide_eq_true in Ha0, Ha1, Ha3.
  apply IH in H as (Hall & Hnd & Hnew). rewrite !fmap_cons. split_and!.
  - constructor; [by exists a | done].
  - apply list.NoDup_cons. split; [|done]. intros Hin%Hnew. set_solver.
  - intros f [->|Hf%Hnew]%elem_of_cons; set_solver.
Qed.

Lemma answered_Ok r : answered r = Ok () -> r = Some (Ok ()).
Proof. destruct r; [by intros <- | done]. Qed.

(** Without nodes and edges there is nothing to close. *)
Lemma empty_graph_closed dc r :
  r <> Some (Ok ()) ->
  (if bool_decide (length (graph_nodes (dc_visual_graph dc)) = O) &&
      bool_decide (length (graph_edges (dc_visual_graph dc)) = O) then Some (Ok ()) else r) = Some (Ok ()) ->
  data_graph_closed dc.
Proof.
  intros Hr. case_bool_decide as Hn; [|done]. case_bool_decide as He; [|done]. intros _.
  apply length_zero_iff_nil in Hn, He. unfold data_graph_closed, graph_pairs. rewrite Hn, He. split_and!.
  - by intros node []%not_elem_of_nil.
  - by intros edge []%not_elem_of_nil.
  - intros x Hx. by induction Hx as [x y []%not_elem_of_nil|].
Qed.

Lemma data_graph_is_closed dc : validate_data_config_visual_graph dc = Some (Ok ()) -> data_graph_closed dc.
Proof.
  unfold data_graph_closed. destruct (check_graph dc) as [kinds|e|e] eqn:E.
  - intros H. destruct (validate_checked_graph dc kinds E) as [[_ Hac] | [Hf _]]; [|congruence].
    apply check_graph_Ok in E as (_ & [_ Hn] & [_ He] & _). split_and!; [| |done].
    + intros node Hin Hk. destruct (Forall_elem _ _ _ Hn Hin) as [_ Hp].
      destruct (Hp Hk) as (point & Hpt & <-). by apply list_elem_of_fmap_2.
    + intros edge Hin. destruct (He (dedge_from edge) (dedge_to edge)) as (f & t & Hf & Ht & _).
      { apply graph_pair. by exists edge. }
      destruct Hf as (nf & Hnf & <- & _), Ht as (nt & Hnt & <- & _). split; by apply list_elem_of_fmap_2.
  - unfold validate_data_config_visual_graph. rewrite E. by apply empty_graph_closed.
  - unfold validate_data_config_visual_graph. rewrite E. by apply empty_graph_closed.
Qed.

Lemma check_data_config_closed dc :
  check_data_config package dc = Ok () ->
  has_device (dc_device_id dc) /\ has_connection (dc_protocol_connection_id dc) /\
  has_uplink (pub_sink_id (dc_publish dc)) /\
  Forall (collects (dc_device_id dc) (Some (dc_protocol_connection_id dc))) (dcp_point_id <$> dc_points dc) /\
  NoDup (dcp_json_field <$> dc_points dc) /\
  Forall (fun id => exists a, a ∈ pkg_algorithms package /\ algo_id a = id) (dc_algorithm_ids dc) /\
  data_graph_closed dc.
Proof.
  unfold check_data_config. intros H. inv_result. apply answered_Ok, data_graph_is_closed in H.
  apply has_id_In in Ha4. apply has_connection_id in Ha5. apply has_uplink_id in Ha6.
  apply check_points_closed in Ha7 as (? & ? & _). apply check_each_Ok in Ha8. split_and!; try done.
  revert Ha8. apply Forall_impl. intros id Hid. inv_result. by apply has_id_In.
Qed.

Lemma check_node_drives flow node :
  check_node flow (points_of (pkg_point_mappings package)) node = Ok () -> cnode_kind node = PointWrite ->
  drives flow (default "" (cnode_ref_id node)).
Proof.
  unfold check_node. intros H Hk. rewrite (bool_decide_true (cnode_kind node = PointWrite)) in H by done.
  apply then_Ok in H as [H _]. unfold check_write_node in H. inv_result.
  match goal with Hp : points_of _ !! _ = Some _ |- _ => apply id_map_Some in Hp as [Hin Hid] end.
  eexists. split_and!; [done..|].
  match goal with Hc : (_ || _) = true |- _ => apply orb_true_iff in Hc as [Hc | ->%bool_decide_eq_true] end; [|by right].
  left. by destruct (flow_protocol_connection_id flow).
Qed.

Lemma flow_graph_is_closed flow :
  validate_command_flow flow (pkg_point_mappings package) = Some (Ok ()) -> flow_graph_closed flow.
Proof.
  intros H. destruct (check_flow flow (pkg_point_mappings package)) as [kinds|e|e] eqn:E.
  2,3: by unfold validate_command_flow in H; rewrite E in H.
  destruct (validate_checked_flow _ _ _ E) as [[Hac _] | [_ Hf]]; [|congruence].
  apply check_flow_Ok in E as (_ & (_ & Hn & _) & [_ He] & _). split_and!; [| |done].
  - intros node Hin Hk. destruct (Forall_elem _ _ _ Hn Hin) as [_ Hc]. by apply check_node_drives.
  - intros edge Hin. destruct (Forall_elem _ _ _ He Hin) as (f & t & (nf & Hnf & <- & _) & (nt & Hnt & <- & _) & _).
    split; by apply list_elem_of_fmap_2.
Qed.

Lemma check_command_flow_closed flow :
  check_command_flow package flow = Ok () ->
  has_uplink (flow_mqtt_connection_id flow) /\
  (flow_protocol_connection_id flow = "" \/ has_connection (flow_protocol_connection_id flow)) /\
  flow_graph_closed flow.
Proof.
  unfold check_command_flow. intros H. inv_result. apply answered_Ok, flow_graph_is_closed in H.
  split_and!; [by apply has_uplink_id| |done].
  apply orb_true_iff in Ha as [He|Hc]; [left | right; by apply has_connection_id].
  by destruct (flow_protocol_connection_id flow).
Qed.

Lemma references_closed : package_closed.
Proof.
  pose proof Hrefs as H. unfold validate_config_references in H.
  rewrite !then_Ok, !check_each_Ok, !list.Forall_forall in H. destruct H as (_ & Hm & Ht & Hd & Hf).
  constructor; intros x Hx.
  - by apply check_mapping_closed, Hm.
  - by apply check_task_closed, Ht.
  - by apply check_data_config_closed, Hd.
  - by apply check_command_flow_closed, Hf.
Qed.
End applied.

Lemma with_client_ids_idempotent package : with_client_ids (with_client_ids package) = with_client_ids package.
Proof.
  unfold with_client_ids. simpl. f_equal. rewrite <- list_fmap_compose. by apply list_fmap_ext.
Qed.

(** [C32] A configuration the edge has applied is closed.  The connection of
    every point mapping is a connection of the package that passed its own
    validation.  A collection task has a device of the package, an interval and
    at least one point, and each of its points is a readable mapping of that
    device.  A data configuration names a device, a connection and an uplink of
    the package (which connects under the edge's id) and algorithms of the
    package; its points are readable mappings of that device and connection with
    distinct fields, the point nodes of its graph stand for these points, and
    the graph's edges join its nodes without a cycle.  A command flow names an
    uplink of the package and no connection or one of the package; each of its
    write nodes drives a writable mapping, on that connection where it names
    one, and its edges join its nodes without a cycle.  Applying the
    configuration again changes nothing.  The device a point mapping names is
    not among these: the edge does not look it up
    ([mapping_of_unknown_device_applies]). *)
Theorem applied_config_closed package applied :
  apply package = Ok applied ->
  package_closed applied /\ apply applied = Ok applied /\ pkg_version applied = pkg_version package.
Proof.
  unfold apply. intros H. inv_result. split_and!; [|simpl|done].
  - apply references_closed; [done|]. simpl. apply Forall_fmap, list.Forall_forall. done.
  - rewrite Ha, Ha0. simpl. by rewrite with_client_ids_idempotent, Ha1.
Qed.

(** ** A feeder over IEC 60870-5-104 *)

Definition feeder_connection : ProtocolConnection :=
  {| conn_id := "rtu"; conn_protocol := Iec104; conn_endpoint := Some "10.0.0.7:2404"; conn_serial := None;
     conn_iec101 := None; conn_iec104 := None; conn_opc_ua := None; conn_bacnet_ip := None;
     conn_siemens_s7 := None; conn_omron_fins := None; conn_circuit_breaker := default_circuit_breaker |}.

Definition feeder_address : PointAddress :=
  {| addr_kind := "iec104_ioa"; addr_value := "1:16385"; addr_modbus := None |}.

Definition feeder_mapping (access : PointAccess) : TelemetryPointMapping :=
  let m := new_mapping "power" "feeder" "active-power" "rtu" feeder_address Ty_Float in
  {| map_point_id := map_point_id m; map_device_id := map_device_id m; map_semantic_id := map_semantic_id m;
     map_protocol_connection_id := map_protocol_connection_id m; map_address := map_address m;
     map_value_type := map_value_type m; map_access := access; map_opc_ua := None; map_iec101 := None;
     map_iec104 := None; map_bacnet := None; map_unit := None; map_range := None; map_read_transforms := [];
     map_interval_ms := map_interval_ms m |}.

Definition feeder_uplink : MqttUplinkConfig :=
  {| up_sink_id := "broker"; up_broker := "mqtts://broker:8883"; up_client_id := "chosen-in-the-console";
     up_protocol_version := V3_1_1; up_keep_alive_seconds := 30; up_clean_session := true; up_clean_start := true;
     up_session_expiry_interval_seconds := 0; up_receive_maximum := None; up_maximum_packet_size_bytes := None;
     up_topic_alias_maximum := None; up_request_response_information := false;
     up_request_problem_information := true; up_user_properties := []; up_last_will := None;
     up_username := None; up_password_env := None; up_tls_ca_path := Some "/etc/ca.pem";
     up_topic_template := "edges/{edge}/telemetry"; up_qos := 1; up_batch_size := 1; up_flush_interval_ms := 1000 |}.

Definition feeder_data_config : DataConfig :=
  {| dc_config_id := "feeder-data"; dc_name := "Feeder"; dc_enabled := true; dc_device_id := "feeder";
     dc_protocol_connection_id := "rtu"; dc_collection := new_collection 1000;
     dc_points := [{| dcp_point_id := "power"; dcp_semantic_id := "active-power"; dcp_address := feeder_address;
                      dcp_value_type := Ty_Float; dcp_unit := None; dcp_json_field := "power" |}];
     dc_algorithm_ids := []; dc_visual_graph := {| graph_nodes := []; graph_edges := [] |};
     dc_publish := {| pub_sink_id := "broker"; pub_topic_template := "feeder/data"; pub_qos := 1;
       pub_payload := {| payload_mode := Object; payload_timestamp_field := "ts"; payload_include_quality := false |} |} |}.

Definition feeder_package (access : PointAccess) : EdgeConfigPackage :=
  {| pkg_edge_id := "edge-7"; pkg_version := "v3"; pkg_device_models := [];
     pkg_devices := [{| inst_device_id := "feeder"; inst_device_type := "feeder" |}];
     pkg_protocol_connections := [feeder_connection]; pkg_mqtt_uplinks := [feeder_uplink];
     pkg_data_configs := [feeder_data_config]; pkg_command_flows := [];
     pkg_point_mappings := [feeder_mapping access];
     pkg_collection_tasks := [{| task_id := "poll"; task_device_id := "feeder"; task_point_ids := ["power"];
                                 task_interval_ms := 1000; task_enabled := true |}];
     pkg_algorithms := [] |}.

(** The example flow over a simulated connection. *)
Definition flow_package (access : PointAccess) : EdgeConfigPackage :=
  let m := setpoint_mapping in
  {| pkg_edge_id := "edge-7"; pkg_version := "v5"; pkg_device_models := [];
     pkg_devices := [{| inst_device_id := "device-1"; inst_device_type := "valve" |}];
     pkg_protocol_connections := [
       {| conn_id := "sim-main"; conn_protocol := Simulated; conn_endpoint := None; conn_serial := None;
          conn_iec101 := None; conn_iec104 := None; conn_opc_ua := None; conn_bacnet_ip := None;
          conn_siemens_s7 := None; conn_omron_fins := None; conn_circuit_breaker := default_circuit_breaker |}];
     pkg_mqtt_uplinks := [
       {| up_sink_id := "commands"; up_broker := "mqtt://broker:1883"; up_client_id := "";
          up_protocol_version := V3_1_1; up_keep_alive_seconds := 30; up_clean_session := true;
          up_clean_start := true; up_session_expiry_interval_seconds := 0; up_receive_maximum := None;
          up_maximum_packet_size_bytes := None; up_topic_alias_maximum := None;
          up_request_response_information := false; up_request_problem_information := true;
          up_user_properties := []; up_last_will := None; up_username := None; up_password_env := None;
          up_tls_ca_path := None; up_topic_template := ""; up_qos := 1; up_batch_size := 1;
          up_flush_interval_ms := 1000 |}];
     pkg_data_configs := []; pkg_command_flows := [example_flow example_edges];
     pkg_point_mappings := [
       {| map_point_id := map_point_id m; map_device_id := map_device_id m; map_semantic_id := map_semantic_id m;
          map_protocol_connection_id := map_protocol_connection_id m; map_address := map_address m;
          map_value_type := map_value_type m; map_access := access; map_opc_ua := None; map_iec101 := None;
          map_iec104 := None; map_bacnet := None; map_unit := None; map_range := map_range m;
          map_read_transforms := []; map_interval_ms := map_interval_ms m |}];
     pkg_collection_tasks := []; pkg_algorithms := [] |}.

(** The mapping alone, without its device. *)
Definition stray_package : EdgeConfigPackage :=
  {| pkg_edge_id := "edge-7"; pkg_version := "v4"; pkg_device_models := []; pkg_devices := [];
     pkg_protocol_connections := [feeder_connection]; pkg_mqtt_uplinks := []; pkg_data_configs := [];
     pkg_command_flows := []; pkg_point_mappings := [feeder_mapping ReadOnly]; pkg_collection_tasks := [];
     pkg_algorithms := [] |}.

Definition no_browse_path (text : string) : Result OpcUaBrowsePathAddress := Err "unused".

Lemma clean_package_applies_witness :
  validate_package no_browse_path (feeder_package ReadOnly) = Ok [] /\
  apply (feeder_package ReadOnly) = Ok (with_client_ids (feeder_package ReadOnly)).
Proof.
  assert (H : validate_package no_browse_path (feeder_package ReadOnly) = Ok []) by (vm_compute; reflexivity).
  split; [exact H|]. apply (clean_package_applies no_browse_path (feeder_package ReadOnly) H).
  split_and!; [vm_compute; reflexivity..| |].
  - constructor; [|constructor]. split; [reflexivity|]. intros c [= <-]. vm_compute. reflexivity.
  - constructor; [|constructor]. reflexivity.
Defined.

Lemma applied_config_closed_witness :
  package_closed (with_client_ids (feeder_package ReadOnly)) /\
  apply (with_client_ids (feeder_package ReadOnly)) = Ok (with_client_ids (feeder_package ReadOnly)) /\
  package_closed (with_client_ids (flow_package ReadWrite)).
Proof.
  pose proof (applied_config_closed (feeder_package ReadOnly) (with_client_ids (feeder_package ReadOnly))) as H.
  destruct H as (H1 & H2 & _); [vm_compute; reflexivity|].
  destruct (applied_config_closed (flow_package ReadWrite) (with_client_ids (flow_package ReadWrite))) as (H3 & _);
    [vm_compute; reflexivity|].
  exact (conj H1 (conj H2 H3)).
Defined.

(** The writes of a flow are checked: a read-only point is refused. *)
Example read_only_write_refused :
  apply (flow_package ReadWrite) = Ok (with_client_ids (flow_package ReadWrite)) /\
  apply (flow_package ReadOnly) = Err "command flow flow-1 write node write references read-only point setpoint".
Proof. split; vm_compute; reflexivity. Qed.

(** A point mapping whose device is not in the package is applied all the same,
    where no task and no data configuration uses it. *)
Example mapping_of_unknown_device_applies :
  pkg_devices stray_package = [] /\ pkg_point_mappings stray_package = [feeder_mapping ReadOnly] /\
  apply stray_package = Ok stray_package.
Proof. split_and!; vm_compute; reflexivity. Qed.

(** The validators differ: a writable IEC 104 point without a control type is
    clean for the control plane and refused by the edge. *)
Lemma clean_package_refused :
  validate_package no_browse_path (feeder_package ReadWrite) = Ok [] /\
  apply (feeder_package ReadWrite) = Err "writable IEC 104 points require a controlType".
Proof. split; vm_compute; reflexivity. Qed.
