(* ===== verification/CircuitBreaker.v ===== *)
(** The protocol circuit breaker of
    [crates/edge-runtime/src/circuit_breaker.rs].

    [ProtocolCircuitBreaker] and [Registry] follow the two structs; every
    operation is a function on the state.  An [Instant] is a number of
    nanoseconds, a [Duration] too.

    [abs_step] is the abstract three-state machine a breaker promises to be;
    [refines_step] proves that every operation of the implementation simulates
    it, from any state that satisfies the invariant [breaker_ok], which
    [reachable_ok] proves of every reachable state.  The machine admits every
    request while it is half-open ([half_open_admits_more]). *)

From Stdlib Require Import ZArith Lia.
From S2P Require Import Prelude RustStr Floats Model ConfigTypes.

Open Scope Z_scope.

Abbreviation Instant := Z (only parsing).

Inductive ProtocolCircuitState := Closed | Open | HalfOpen.

#[export] Instance ProtocolCircuitState_eq_dec : EqDecision ProtocolCircuitState.
Proof. solve_decision. Defined.

Record ProtocolCircuitBreaker := {
  config : ProtocolCircuitBreakerConfig;
  state : ProtocolCircuitState;
  consecutive_failures : Z;
  half_open_successes : Z;
  opened_at : option Instant;
  open_count : Z;
  rejected_count : Z;
}.

Record CircuitBreakerSnapshot := {
  snap_state : ProtocolCircuitState;
  snap_consecutive_failures : Z;
  snap_open_count : Z;
  snap_rejected_count : Z;
}.

Record ProtocolCircuitOpenError := { err_connection_id : string; err_retry_after_ms : Z }.

(** [ProtocolCircuitBreaker::new]. *)
Definition new_breaker (c : ProtocolCircuitBreakerConfig) : ProtocolCircuitBreaker :=
  {| config := c; state := Closed; consecutive_failures := 0; half_open_successes := 0;
     opened_at := None; open_count := 0; rejected_count := 0 |}.

(** [open] and [close]. *)
Definition open (b : ProtocolCircuitBreaker) (now : Instant) : ProtocolCircuitBreaker :=
  {| config := config b; state := Open; consecutive_failures := consecutive_failures b;
     half_open_successes := 0; opened_at := Some now;
     open_count := sat_add 64 (open_count b) 1; rejected_count := rejected_count b |}.

Definition close (b : ProtocolCircuitBreaker) : ProtocolCircuitBreaker :=
  {| config := config b; state := Closed; consecutive_failures := 0;
     half_open_successes := 0; opened_at := None;
     open_count := open_count b; rejected_count := rejected_count b |}.

(** [Duration::from_millis] and [now.saturating_duration_since(earlier)]. *)
Definition from_millis (ms : Z) : Z := ms * 1000000.
Definition saturating_duration_since (now earlier : Instant) : Z := sat_sub now earlier.

(** [duration_millis_ceil]. *)
Definition duration_millis_ceil (duration : Z) : Z :=
  let millis := duration / 1000000 in
  let rounded := if (duration mod 1000000000) mod 1000000 =? 0 then millis else millis + 1 in
  Z.min rounded (u_max 64).

(** [ProtocolCircuitBreaker::allow_request]. *)
Definition allow_request (b : ProtocolCircuitBreaker) (connection_id : string) (now : Instant)
    : ProtocolCircuitBreaker * (() + ProtocolCircuitOpenError) :=
  if negb (cb_enabled (config b)) then (close b, inl ())
  else if bool_decide (state b = Open) then
    let elapsed := default 0 (saturating_duration_since now <$> opened_at b) in
    let open_duration := from_millis (cb_open_duration_ms (config b)) in
    if open_duration <=? elapsed then
      ({| config := config b; state := HalfOpen;
          consecutive_failures := consecutive_failures b; half_open_successes := 0;
          opened_at := opened_at b; open_count := open_count b;
          rejected_count := rejected_count b |}, inl ())
    else
      ({| config := config b; state := state b;
          consecutive_failures := consecutive_failures b;
          half_open_successes := half_open_successes b;
          opened_at := opened_at b; open_count := open_count b;
          rejected_count := sat_add 64 (rejected_count b) 1 |},
       inr {| err_connection_id := connection_id;
              err_retry_after_ms := duration_millis_ceil (sat_sub open_duration elapsed) |})
  else (b, inl ()).

(** [ProtocolCircuitBreaker::record_success]. *)
Definition record_success (b : ProtocolCircuitBreaker) : ProtocolCircuitBreaker :=
  if negb (cb_enabled (config b)) then close b
  else
    match state b with
    | Closed =>
        {| config := config b; state := state b; consecutive_failures := 0;
           half_open_successes := half_open_successes b; opened_at := opened_at b;
           open_count := open_count b; rejected_count := rejected_count b |}
    | HalfOpen =>
        let successes := sat_add 32 (half_open_successes b) 1 in
        let b' := {| config := config b; state := state b;
           consecutive_failures := consecutive_failures b;
           half_open_successes := successes; opened_at := opened_at b;
           open_count := open_count b; rejected_count := rejected_count b |} in
        if cb_half_open_success_threshold (config b) <=? successes then close b' else b'
    | Open => b
    end.

(** [ProtocolCircuitBreaker::record_failure]. *)
Definition record_failure (b : ProtocolCircuitBreaker) (now : Instant) : ProtocolCircuitBreaker :=
  if negb (cb_enabled (config b)) then close b
  else
    match state b with
    | Closed =>
        let failures := sat_add 32 (consecutive_failures b) 1 in
        let b' := {| config := config b; state := state b;
           consecutive_failures := failures;
           half_open_successes := half_open_successes b; opened_at := opened_at b;
           open_count := open_count b; rejected_count := rejected_count b |} in
        if cb_failure_threshold (config b) <=? failures then open b' now else b'
    | HalfOpen => open b now
    | Open => b
    end.

(** [ProtocolCircuitBreaker::snapshot]. *)
Definition snapshot (b : ProtocolCircuitBreaker) : CircuitBreakerSnapshot :=
  {| snap_state := state b; snap_consecutive_failures := consecutive_failures b;
     snap_open_count := open_count b; snap_rejected_count := rejected_count b |}.

(** ** The registry

    One breaker per configured connection; an operation on a connection that
    was never configured is a panic. *)
Module Registry.

Abbreviation t := (gmap string ProtocolCircuitBreaker).

(** The body of the loop of [configure]. *)
Definition configure_one (breakers : t) (connection : ProtocolConnection) : t :=
  match breakers !! conn_id connection with
  | Some breaker =>
      if bool_decide (config breaker = conn_circuit_breaker connection) then breakers
      else <[conn_id connection := new_breaker (conn_circuit_breaker connection)]> breakers
  | None => <[conn_id connection := new_breaker (conn_circuit_breaker connection)]> breakers
  end.

(** [ProtocolCircuitBreakerRegistry::configure]. *)
Definition configure (breakers : t) (connections : list ProtocolConnection) : t :=
  fold_left configure_one connections breakers.

Definition missing : string := "configured connection must have a circuit breaker".

(** [allow_request]: the breaker's decision, with a snapshot when it allows. *)
Definition registry_allow (breakers : t) (id : string) (now : Instant)
    : Result (t * (CircuitBreakerSnapshot + ProtocolCircuitOpenError)) :=
  b ← expect (breakers !! id) missing;
  let '(b', decision) := allow_request b id now in
  Ok (<[id := b']> breakers,
      match decision with inl () => inl (snapshot b') | inr e => inr e end).

(** [record_success] and [record_failure]. *)
Definition registry_success (breakers : t) (id : string) : Result (t * CircuitBreakerSnapshot) :=
  b ← expect (breakers !! id) missing;
  let b' := record_success b in Ok (<[id := b']> breakers, snapshot b').

Definition registry_failure (breakers : t) (id : string) (now : Instant)
    : Result (t * CircuitBreakerSnapshot) :=
  b ← expect (breakers !! id) missing;
  let b' := record_failure b now in Ok (<[id := b']> breakers, snapshot b').

(** [snapshot]. *)
Definition registry_snapshot (breakers : t) (id : string) : Result CircuitBreakerSnapshot :=
  b ← expect (breakers !! id) missing; Ok (snapshot b).

End Registry.

(** ** The invariant *)

(** The settings that passed [ProtocolCircuitBreakerConfig::validate]. *)
Definition config_ok (c : ProtocolCircuitBreakerConfig) : Prop :=
  validate_circuit_breaker c = Ok ().

Record breaker_ok (b : ProtocolCircuitBreaker) : Prop := {
  ok_config : config_ok (config b);
  ok_failures : u_ok 32 (consecutive_failures b);
  ok_successes : u_ok 32 (half_open_successes b);
  ok_open_count : u_ok 64 (open_count b);
  ok_rejected : u_ok 64 (rejected_count b);
  ok_state :
    match state b with
    | Closed => consecutive_failures b < cb_failure_threshold (config b) /\
                half_open_successes b = 0 /\ opened_at b = None
    | Open => cb_enabled (config b) = true /\ half_open_successes b = 0 /\
              is_Some (opened_at b)
    | HalfOpen => cb_enabled (config b) = true /\
                  half_open_successes b < cb_half_open_success_threshold (config b) /\
                  is_Some (opened_at b)
    end;
}.

Lemma config_ok_bounds c :
  config_ok c ->
  1 <= cb_failure_threshold c <= 100 /\ 100 <= cb_open_duration_ms c <= 3600000 /\
  1 <= cb_half_open_success_threshold c <= 10.
Proof. apply validate_circuit_breaker_Ok. Qed.

Lemma new_breaker_ok c : config_ok c -> breaker_ok (new_breaker c).
Proof.
  intros Hc. pose proof (config_ok_bounds c Hc).
  split; simpl; unfold u_ok; try lia; [done|]. split; [lia|done].
Qed.

Lemma close_ok b : breaker_ok b -> breaker_ok (close b).
Proof.
  intros [Hc Hf Hs Ho Hr _]. pose proof (config_ok_bounds _ Hc).
  split; simpl; try done; try (split; lia). split; [lia | done].
Qed.

Lemma open_ok b now :
  breaker_ok b -> cb_enabled (config b) = true -> breaker_ok (open b now).
Proof.
  intros [Hc Hf Hs Ho Hr _] He.
  split; simpl; try done; try (split; lia).
  apply sat_add_ok; [lia | done | lia].
Qed.

Lemma allow_request_ok b id now :
  breaker_ok b -> breaker_ok (fst (allow_request b id now)).
Proof.
  intros Hb. unfold allow_request. destruct (cb_enabled (config b)) eqn:He; simpl;
    [|by apply close_ok].
  case_bool_decide as Hst; [|done].
  destruct Hb as [Hc Hf Hs Ho Hr Hstate]. rewrite Hst in Hstate.
  destruct Hstate as (_ & Hz & Hat). pose proof (config_ok_bounds _ Hc).
  destruct (_ <=? _); split; simpl; try done; try (split; lia).
  - split; [done|]. split; [lia|done].
  - apply sat_add_ok; [lia | done | lia].
  - by rewrite Hst.
Qed.

Lemma record_success_ok b : breaker_ok b -> breaker_ok (record_success b).
Proof.
  intros Hb. unfold record_success. destruct (cb_enabled (config b)) eqn:He; simpl;
    [|by apply close_ok].
  destruct Hb as [Hc Hf Hs Ho Hr Hstate]. pose proof (config_ok_bounds _ Hc).
  destruct (state b) eqn:Hst.
  - split; simpl; try done; try (split; lia). destruct Hstate as (? & ? & ?).
    split; [lia|done].
  - split; try done. by rewrite Hst.
  - destruct (Z.leb_spec (cb_half_open_success_threshold (config b))
      (sat_add 32 (half_open_successes b) 1)); split; simpl; try done; try (split; lia).
    + split; [lia|done].
    + apply sat_add_ok; [lia | done | lia].
    + by destruct Hstate as (? & ? & ?).
Qed.

Lemma record_failure_ok b now : breaker_ok b -> breaker_ok (record_failure b now).
Proof.
  intros Hb. unfold record_failure. destruct (cb_enabled (config b)) eqn:He; simpl;
    [|by apply close_ok].
  destruct (state b) eqn:Hst; [|done|by apply open_ok].
  destruct Hb as [Hc Hf Hs Ho Hr Hstate]. rewrite Hst in Hstate.
  destruct Hstate as (Hlt & Hz & Hat). pose proof (config_ok_bounds _ Hc).
  destruct (Z.leb_spec (cb_failure_threshold (config b))
    (sat_add 32 (consecutive_failures b) 1)).
  - split; simpl; try done; try (split; lia); apply sat_add_ok; done || lia.
  - split; simpl; try done. apply sat_add_ok; done || lia.
Qed.

#[export] Hint Resolve new_breaker_ok close_ok open_ok allow_request_ok record_success_ok
  record_failure_ok : vela.

(** ** The abstract machine *)

(** What a breaker promises: it counts consecutive failures while closed, is
    open since an instant, or counts the successes of its probes. *)
Inductive AbsState :=
| AClosed (failures : Z)
| AOpen (since : Instant)
| AHalfOpen (successes : Z).

Inductive BreakerOp :=
| Allow (now : Instant)
| Success
| Failure (now : Instant).

(** [Some true]: the request may go; [Some false]: it is rejected. *)
Definition abs_step (c : ProtocolCircuitBreakerConfig) (s : AbsState) (op : BreakerOp)
    : AbsState * option bool :=
  match s, op with
  | AClosed n, Allow _ => (AClosed n, Some true)
  | AClosed _, Success => (AClosed 0, None)
  | AClosed n, Failure now =>
      (if n + 1 <? cb_failure_threshold c then AClosed (n + 1) else AOpen now, None)
  | AOpen since, Allow now =>
      if since + cb_open_duration_ms c * 1000000 <=? Z.max now since
      then (AHalfOpen 0, Some true) else (AOpen since, Some false)
  | AOpen since, _ => (AOpen since, None)
  | AHalfOpen k, Allow _ => (AHalfOpen k, Some true)
  | AHalfOpen k, Success =>
      (if k + 1 <? cb_half_open_success_threshold c then AHalfOpen (k + 1) else AClosed 0, None)
  | AHalfOpen _, Failure now => (AOpen now, None)
  end.

(** The operations of the implementation under the same labels. *)
Definition step (b : ProtocolCircuitBreaker) (op : BreakerOp)
    : ProtocolCircuitBreaker * option bool :=
  match op with
  | Allow now =>
      let '(b', r) := allow_request b EmptyString now in
      (b', Some (match r with inl _ => true | inr _ => false end))
  | Success => (record_success b, None)
  | Failure now => (record_failure b now, None)
  end.

Definition abstraction (b : ProtocolCircuitBreaker) : AbsState :=
  match state b with
  | Closed => AClosed (consecutive_failures b)
  | Open => AOpen (default 0 (opened_at b))
  | HalfOpen => AHalfOpen (half_open_successes b)
  end.

(** Runs of a breaker, and of the machine. *)
Fixpoint run (b : ProtocolCircuitBreaker) (ops : list BreakerOp)
    : ProtocolCircuitBreaker * list (option bool) :=
  match ops with
  | [] => (b, [])
  | op :: ops =>
      let '(b', out) := step b op in
      let '(b'', outs) := run b' ops in (b'', out :: outs)
  end.

Fixpoint abs_run (c : ProtocolCircuitBreakerConfig) (s : AbsState) (ops : list BreakerOp)
    : AbsState * list (option bool) :=
  match ops with
  | [] => (s, [])
  | op :: ops =>
      let '(s', out) := abs_step c s op in
      let '(s'', outs) := abs_run c s' ops in (s'', out :: outs)
  end.

(** The states the operations reach from a fresh breaker. *)
Inductive reachable (c : ProtocolCircuitBreakerConfig) : ProtocolCircuitBreaker -> Prop :=
| reach_new : reachable c (new_breaker c)
| reach_step b op : reachable c b -> reachable c (fst (step b op)).

Lemma step_ok b op : breaker_ok b -> breaker_ok (fst (step b op)).
Proof.
  intros Hb. destruct op; simpl; auto with vela.
  pose proof (allow_request_ok b EmptyString now Hb).
  by destruct (allow_request b EmptyString now).
Qed.

Lemma step_config b op : config (fst (step b op)) = config b.
Proof.
  destruct op; simpl; unfold allow_request, record_success, record_failure;
    repeat case_match; simplify_eq/=; done.
Qed.

Lemma reachable_config c b : reachable c b -> config b = c.
Proof. induction 1; [done|]. by rewrite step_config. Qed.

Lemma reachable_ok c b : config_ok c -> reachable c b -> breaker_ok b.
Proof. intros Hc. induction 1; [by apply new_breaker_ok | by apply step_ok]. Qed.

(** One operation of an enabled breaker is one step of the machine. *)
Lemma refines_step b op :
  breaker_ok b -> cb_enabled (config b) = true ->
  (abstraction (fst (step b op)), snd (step b op)) = abs_step (config b) (abstraction b) op.
Proof.
  intros [Hc Hf Hs Ho Hr Hst] He. pose proof (config_ok_bounds _ Hc) as Hcb.
  assert (Hsat : forall x, u_ok 32 x -> x < 100 -> sat_add 32 x 1 = x + 1)
    by (intros x; unfold u_ok, sat_add, u_max; lia).
  destruct op as [now| |now]; simpl step;
    unfold allow_request, record_success, record_failure; rewrite He;
    unfold abstraction; destruct (state b) eqn:Es; simpl; rewrite ?Es; try done.
  - destruct Hst as (_ & _ & t0 & Hat). rewrite Hat. simpl.
    unfold saturating_duration_since, sat_sub, from_millis.
    replace (t0 + cb_open_duration_ms (config b) * 1000000 <=? Z.max now t0) with
      (cb_open_duration_ms (config b) * 1000000 <=? Z.max (now - t0) 0)
      by (destruct (Z.leb_spec (cb_open_duration_ms (config b) * 1000000) (Z.max (now - t0) 0));
          destruct (Z.leb_spec (t0 + cb_open_duration_ms (config b) * 1000000) (Z.max now t0)); lia).
    destruct (_ <=? _); simpl; rewrite ?Hat, ?Es; done.
  - rewrite Hsat by lia || done.
    destruct (Z.leb_spec (cb_half_open_success_threshold (config b)) (half_open_successes b + 1));
      destruct (Z.ltb_spec (half_open_successes b + 1) (cb_half_open_success_threshold (config b)));
      simpl; rewrite ?Es; done || lia.
  - rewrite Hsat by lia || done.
    destruct (Z.leb_spec (cb_failure_threshold (config b)) (consecutive_failures b + 1));
      destruct (Z.ltb_spec (consecutive_failures b + 1) (cb_failure_threshold (config b)));
      simpl; rewrite ?Es; done || lia.
Qed.

Lemma refines_run b ops :
  breaker_ok b -> cb_enabled (config b) = true ->
  (abstraction (fst (run b ops)), snd (run b ops)) = abs_run (config b) (abstraction b) ops.
Proof.
  revert b. induction ops as [|op ops IH]; intros b Hb He; [done|]. simpl.
  pose proof (refines_step b op Hb He) as Hstep.
  pose proof (step_ok b op Hb) as Hb'. pose proof (step_config b op) as Hc'.
  destruct (step b op) as [b' out]. simpl in *. rewrite <- Hstep.
  specialize (IH b' Hb'). rewrite Hc' in IH. specialize (IH He).
  destruct (run b' ops) as [b'' outs]. simpl in *. by rewrite <- IH.
Qed.

(** ** Consequences *)

Lemma abs_run_cons c s op ops :
  fst (abs_run c s (op :: ops)) = fst (abs_run c (fst (abs_step c s op)) ops).
Proof. simpl. destruct (abs_step c s op) as [s' out]. simpl. by destruct (abs_run c s' ops). Qed.

Lemma abs_run_app c s ops1 ops2 :
  fst (abs_run c s (ops1 ++ ops2)) = fst (abs_run c (fst (abs_run c s ops1)) ops2).
Proof.
  revert s. induction ops1 as [|op ops1 IH]; intros s; [done|].
  by rewrite <- app_comm_cons, !abs_run_cons, IH.
Qed.

Lemma abs_failures c nows n :
  0 <= n -> n + Z.of_nat (length nows) < cb_failure_threshold c ->
  fst (abs_run c (AClosed n) (Failure <$> nows)) = AClosed (n + Z.of_nat (length nows)).
Proof.
  revert n. induction nows as [|now nows IH]; intros n Hn Hlt.
  - simpl. f_equal. lia.
  - rewrite length_cons, Nat2Z.inj_succ in *. rewrite fmap_cons, abs_run_cons. simpl abs_step.
    rewrite (proj2 (Z.ltb_lt _ _)) by lia. cbn [fst]. rewrite IH by lia. f_equal. lia.
Qed.

Lemma abs_successes c n k :
  0 <= k -> k + Z.of_nat n < cb_half_open_success_threshold c ->
  fst (abs_run c (AHalfOpen k) (replicate n Success)) = AHalfOpen (k + Z.of_nat n).
Proof.
  revert k. induction n as [|n IH]; intros k Hk Hlt.
  - simpl. f_equal. lia.
  - rewrite Nat2Z.inj_succ in *. rewrite replicate_S, abs_run_cons. simpl abs_step.
    rewrite (proj2 (Z.ltb_lt _ _)) by lia. cbn [fst]. rewrite IH by lia. f_equal. lia.
Qed.

Lemma run_ok b ops : breaker_ok b -> breaker_ok (fst (run b ops)).
Proof.
  revert b. induction ops as [|op ops IH]; intros b Hok; simpl; [done|].
  pose proof (step_ok b op Hok) as H1. destruct (step b op) as [b1 out]. simpl in *.
  specialize (IH b1 H1). by destruct (run b1 ops).
Qed.

Lemma refines_state b ops :
  breaker_ok b -> cb_enabled (config b) = true ->
  abstraction (fst (run b ops)) = fst (abs_run (config b) (abstraction b) ops).
Proof. intros Hb He. by rewrite <- (refines_run b ops Hb He). Qed.

Lemma abstraction_open b since : abstraction b = AOpen since -> state b = Open.
Proof. unfold abstraction. by destruct (state b). Qed.

Lemma abstraction_closed b n :
  abstraction b = AClosed n -> state b = Closed /\ consecutive_failures b = n.
Proof. unfold abstraction. destruct (state b); naive_solver. Qed.

Lemma millis_ceil_spec d :
  0 < d <= 3600000 * 1000000 ->
  let r := duration_millis_ceil d in 0 < r <= (d + 999999) / 1000000 /\ d <= r * 1000000.
Proof.
  intros Hd. unfold duration_millis_ceil.
  assert (Hmod : (d mod 1000000000) mod 1000000 = d mod 1000000).
  { apply Z.mod_mod_divide. exists 1000. lia. }
  rewrite Hmod.
  pose proof (Z.div_mod d 1000000 ltac:(lia)).
  pose proof (Z.mod_pos_bound d 1000000 ltac:(lia)).
  pose proof (Z.div_mod (d + 999999) 1000000 ltac:(lia)).
  pose proof (Z.mod_pos_bound (d + 999999) 1000000 ltac:(lia)).
  unfold u_max. destruct (Z.eqb_spec (d mod 1000000) 0); lia.
Qed.

(** * Properties *)

(** [C16] The breaker implements the three-state machine: for every valid,
    enabled configuration and every sequence of requests, successes and
    failures, the decisions of a fresh breaker and its final state are those of
    the abstract machine.  The machine, like the code, admits every request while it
    is half open; the field acceptance document says that only one probe is admitted
    after the cooldown, which holds for requests that report before the next is made
    ([failed_probe_reopens]) and not for requests in between (see the findings and
    [half_open_admits_more]). *)
Theorem breaker_refines_machine c ops :
  config_ok c -> cb_enabled c = true ->
  (abstraction (fst (run (new_breaker c) ops)), snd (run (new_breaker c) ops)) =
  abs_run c (AClosed 0) ops.
Proof.
  intros Hc He. pose proof (new_breaker_ok c Hc) as Hok.
  exact (refines_run (new_breaker c) ops Hok He).
Qed.

Lemma breaker_refines_machine_witness :
  snd (run (new_breaker default_circuit_breaker) [Failure 0; Allow 1]) = [None; Some true].
Proof.
  exact (f_equal snd (breaker_refines_machine default_circuit_breaker [Failure 0; Allow 1]
    eq_refl eq_refl)).
Defined.

(** The half-open state counts the probes that succeeded, not those admitted: a
    second request goes out while the first probe is under way. *)
Example half_open_admits_more :
  let c := {| cb_enabled := true; cb_failure_threshold := 1; cb_open_duration_ms := 1; cb_half_open_success_threshold := 1 |} in
  snd (run (new_breaker c) [Failure 0; Allow 999999; Allow 1000000; Allow 1000001; Allow 1000002]) =
    [None; Some false; Some true; Some true; Some true].
Proof. vm_compute. reflexivity. Qed.

(** A probe that fails before the next request is made opens the breaker again for
    the whole cooldown. *)
Lemma failed_probe_reopens c b since now failed later :
  breaker_ok b -> config b = c -> cb_enabled c = true -> abstraction b = AOpen since ->
  since + cb_open_duration_ms c * 1000000 <= Z.max now since -> later < failed + cb_open_duration_ms c * 1000000 ->
  0 < cb_open_duration_ms c ->
  snd (run b [Allow now; Failure failed; Allow later]) = [Some true; None; Some false].
Proof.
  intros Hok <- He Ha Hnow Hlater Hpos.
  pose proof (f_equal snd (refines_run b [Allow now; Failure failed; Allow later] Hok He)) as Hrun. cbn [snd] in Hrun.
  rewrite Hrun, Ha. cbn [abs_run abs_step]. rewrite (proj2 (Z.leb_le _ _) Hnow). cbn [abs_step].
  rewrite (proj2 (Z.leb_gt _ _)) by lia. done.
Qed.

(** Every reachable breaker satisfies the invariant: counters within their
    machine widths, a closed breaker below its failure threshold and without an
    opening instant, an open or half-open one with an opening instant and, when
    half-open, below its success threshold. *)
Theorem breaker_invariant c b :
  config_ok c -> reachable c b -> breaker_ok b /\ config b = c.
Proof. intros Hc Hb. split; [by eapply reachable_ok | by apply reachable_config]. Qed.

Lemma breaker_invariant_witness :
  breaker_ok (record_failure (new_breaker default_circuit_breaker) 7).
Proof.
  apply (breaker_invariant default_circuit_breaker); [reflexivity|].
  apply (reach_step default_circuit_breaker (new_breaker default_circuit_breaker) (Failure 7)).
  apply reach_new.
Defined.

(** The breaker trips exactly at its threshold: after fewer consecutive
    failures than the threshold it is still closed and counting, and the
    failure that reaches the threshold opens it at that failure's instant. *)
Theorem breaker_trips_at_threshold c nows last :
  config_ok c -> cb_enabled c = true ->
  Z.of_nat (length nows) = cb_failure_threshold c - 1 ->
  abstraction (fst (run (new_breaker c) (Failure <$> nows))) =
    AClosed (Z.of_nat (length nows)) /\
  abstraction (fst (run (new_breaker c) ((Failure <$> nows) ++ [Failure last]))) = AOpen last.
Proof.
  intros Hc He Hlen. pose proof (new_breaker_ok c Hc) as Hok.
  pose proof (config_ok_bounds c Hc).
  rewrite !refines_state by done. simpl config. change (abstraction (new_breaker c)) with (AClosed 0).
  rewrite abs_run_app, abs_failures by lia. split; [done|]. simpl.
  rewrite (proj2 (Z.ltb_ge _ _)) by lia. done.
Qed.

Lemma breaker_trips_at_threshold_witness :
  abstraction (fst (run (new_breaker default_circuit_breaker)
    ((Failure <$> [1; 2; 3; 4]) ++ [Failure 5]))) = AOpen 5.
Proof.
  apply (breaker_trips_at_threshold default_circuit_breaker [1; 2; 3; 4] 5); reflexivity.
Defined.

(** The retry hint is right: when an open breaker rejects a request, it
    asks to wait a positive time of at most the open duration (rounded up to a
    millisecond), and a request made after that wait is let through as a
    half-open probe, while one before the open duration has elapsed is
    rejected again. *)
Theorem rejection_retry_hint b id now b' e t0 :
  breaker_ok b -> opened_at b = Some t0 -> t0 <= now ->
  allow_request b id now = (b', inr e) ->
  0 < err_retry_after_ms e <= cb_open_duration_ms (config b) /\
  (forall later, now + err_retry_after_ms e * 1000000 <= later ->
     snd (allow_request b' id later) = inl () /\ state (fst (allow_request b' id later)) = HalfOpen) /\
  (forall later, later < t0 + cb_open_duration_ms (config b) * 1000000 ->
     exists e', snd (allow_request b' id later) = inr e').
Proof.
  intros [Hc _ _ _ _ Hst] Hat Hnow H. pose proof (config_ok_bounds _ Hc) as Hcb.
  unfold allow_request in H. destruct (cb_enabled (config b)) eqn:He; simpl in H; [|done].
  case_bool_decide as Ho; [|done]. rewrite Hat in H. simpl in H.
  unfold saturating_duration_since, from_millis, sat_sub in H.
  destruct (Z.leb_spec (cb_open_duration_ms (config b) * 1000000) (Z.max (now - t0) 0)); [done|].
  injection H as <- <-. simpl.
  set (d := Z.max (cb_open_duration_ms (config b) * 1000000 - Z.max (now - t0) 0) 0).
  destruct (millis_ceil_spec d) as [[Hr0 Hr1] Hr2]; [unfold d; lia|].
  assert (Hd : (d + 999999) / 1000000 <= cb_open_duration_ms (config b)).
  { apply Z.lt_succ_r, Z.div_lt_upper_bound; unfold d; lia. }
  split; [lia|]. unfold allow_request. simpl. rewrite He, Ho. simpl. rewrite ?Hat. simpl.
  unfold saturating_duration_since, from_millis, sat_sub.
  split; intros later Hl.
  - rewrite (proj2 (Z.leb_le _ _)) by (unfold d in *; lia). done.
  - rewrite (proj2 (Z.leb_gt _ _)) by lia. simpl. by eexists.
Qed.

Definition tripped : ProtocolCircuitBreaker :=
  fst (run (new_breaker default_circuit_breaker) (Failure <$> [0; 0; 0; 0; 0])).

Lemma rejection_retry_hint_witness :
  snd (allow_request (fst (allow_request tripped "plc" 500000000)) "plc" 30000000000) = inl ().
Proof.
  apply (rejection_retry_hint tripped "plc" 500000000
    (fst (allow_request tripped "plc" 500000000))
    {| err_connection_id := "plc"; err_retry_after_ms := 29500 |} 0).
  - apply (reachable_ok default_circuit_breaker); [reflexivity|].
    repeat (apply (reach_step default_circuit_breaker _ (Failure 0))). apply reach_new.
  - reflexivity.
  - lia.
  - vm_compute. reflexivity.
  - simpl. lia.
Defined.

(** An open breaker recovers: once its open duration has elapsed, one
    admitted probe and the configured number of successes close it with a clean
    failure count. *)
Theorem breaker_recovers b t0 now :
  breaker_ok b -> state b = Open -> opened_at b = Some t0 ->
  t0 + cb_open_duration_ms (config b) * 1000000 <= now ->
  let n := Z.to_nat (cb_half_open_success_threshold (config b)) in
  let b' := fst (run b (Allow now :: replicate n Success)) in
  state b' = Closed /\ consecutive_failures b' = 0 /\ opened_at b' = None.
Proof.
  intros Hok Ho Hat Hnow n b'. pose proof (config_ok_bounds _ (ok_config _ Hok)) as Hcb.
  assert (He : cb_enabled (config b) = true).
  { pose proof (ok_state _ Hok) as Hs. rewrite Ho in Hs. apply Hs. }
  assert (Habs : abstraction b' = AClosed 0).
  { unfold b'. rewrite refines_state by done. unfold abstraction at 1. rewrite Ho, Hat.
    rewrite abs_run_cons. simpl abs_step. rewrite (proj2 (Z.leb_le _ _)) by lia. simpl fst.
    replace n with (pred n + 1)%nat by (unfold n; lia).
    rewrite replicate_add, abs_run_app, abs_successes by (unfold n; lia). simpl.
    rewrite (proj2 (Z.ltb_ge _ _)) by (unfold n; lia). done. }
  apply abstraction_closed in Habs as [Hcl Hz]. split; [done|]. split; [done|].
  assert (Hok' : breaker_ok b').
  { by apply run_ok. }
  pose proof (ok_state _ Hok') as Hs. rewrite Hcl in Hs. apply Hs.
Qed.

Lemma breaker_recovers_witness :
  state (fst (run tripped (Allow 30000000000 :: replicate 1 Success))) = Closed.
Proof.
  apply (breaker_recovers tripped 0 30000000000).
  - apply (reachable_ok default_circuit_breaker); [reflexivity|].
    repeat (apply (reach_step default_circuit_breaker _ (Failure 0))). apply reach_new.
  - reflexivity.
  - reflexivity.
  - vm_compute. discriminate.
Defined.

(** ** The registry *)

Import Registry.

(** What [configure] leaves for a connection it lists. *)
Definition configured (old : option ProtocolCircuitBreaker) (c : ProtocolCircuitBreakerConfig)
    : ProtocolCircuitBreaker :=
  match old with
  | Some b => if bool_decide (config b = c) then b else new_breaker c
  | None => new_breaker c
  end.

Lemma configure_one_lookup breakers conn id :
  configure_one breakers conn !! id =
  if bool_decide (conn_id conn = id)
  then Some (configured (breakers !! id) (conn_circuit_breaker conn))
  else breakers !! id.
Proof.
  unfold configure_one, configured.
  destruct (decide (conn_id conn = id)) as [<-|Hne].
  - rewrite bool_decide_true by done.
    destruct (breakers !! conn_id conn) as [b|] eqn:E.
    + case_bool_decide; [done | by rewrite lookup_insert_eq].
    + by rewrite lookup_insert_eq.
  - rewrite bool_decide_false by done.
    destruct (breakers !! conn_id conn) as [b|]; [case_bool_decide|]; try done;
      by rewrite lookup_insert_ne.
Qed.

Lemma configure_lookup_other breakers conns id :
  id ∉ (conn_id <$> conns) -> configure breakers conns !! id = breakers !! id.
Proof.
  revert breakers. induction conns as [|conn conns IH]; intros breakers Hid; [done|].
  rewrite fmap_cons, not_elem_of_cons in Hid. destruct Hid as [Hne Hid].
  unfold configure in *. simpl. rewrite IH by done.
  rewrite configure_one_lookup. by rewrite bool_decide_false by congruence.
Qed.

Lemma configure_lookup breakers conns conn :
  NoDup (conn_id <$> conns) -> conn ∈ conns ->
  configure breakers conns !! conn_id conn =
  Some (configured (breakers !! conn_id conn) (conn_circuit_breaker conn)).
Proof.
  revert breakers. induction conns as [|c conns IH]; intros breakers Hnd Hin; [by inversion Hin|].
  rewrite fmap_cons in Hnd. apply list.NoDup_cons in Hnd as [Hc Hnd].
  change (configure breakers (c :: conns)) with (configure (configure_one breakers c) conns).
  apply elem_of_cons in Hin as [->|Hin].
  - rewrite configure_lookup_other by done. rewrite configure_one_lookup.
    by rewrite bool_decide_true.
  - rewrite IH by done. rewrite configure_one_lookup, bool_decide_false; [done|].
    intros Heq. apply Hc. rewrite Heq. by apply list_elem_of_fmap_2.
Qed.

(** Reconfiguring keeps the state of every breaker whose settings did not
    change, starts a fresh breaker for a new connection or new settings, and
    leaves the connections it does not list alone; applying the same
    configuration again changes nothing. *)
Theorem registry_configure_preserves breakers conns :
  NoDup (conn_id <$> conns) ->
  (forall conn, conn ∈ conns ->
     configure breakers conns !! conn_id conn =
     Some (configured (breakers !! conn_id conn) (conn_circuit_breaker conn))) /\
  (forall id, id ∉ (conn_id <$> conns) -> configure breakers conns !! id = breakers !! id) /\
  configure (configure breakers conns) conns = configure breakers conns.
Proof.
  intros Hnd. split; [|split].
  - intros conn Hin. by apply configure_lookup.
  - intros id Hid. by apply configure_lookup_other.
  - apply map_eq. intros id. destruct (decide (id ∈ (conn_id <$> conns))) as [Hin|Hout].
    + apply list_elem_of_fmap in Hin as (conn & -> & Hin).
      rewrite !configure_lookup by done. unfold configured at 1. f_equal.
      unfold configured. destruct (breakers !! conn_id conn) as [b|]; simpl;
        repeat case_bool_decide; simpl in *; done.
    + by rewrite !configure_lookup_other.
Qed.

Lemma registry_configure_preserves_witness :
  configure {[ "a" := tripped ]} [simulated_connection "a"] !! "a" = Some tripped.
Proof.
  refine (eq_trans (proj1 (registry_configure_preserves {[ "a" := tripped ]}
    [simulated_connection "a"] _) (simulated_connection "a") _) _).
  - apply NoDup_singleton.
  - by left.
  - vm_compute. reflexivity.
Defined.
