(* ===== verification/Scheduler.v ===== *)
(** The collection scheduler, [crates/edge-runtime/src/scheduler.rs].

    [CollectionSchedule] and [DataConfigSchedule] are the same structure over
    collection tasks and data configurations: a [Vec] of entries, each with an
    identifier, a period and the next instant at which it is due.  The
    operations are written once, over [Scheduled] entries, and instantiated by
    the two modules with their messages and validators.

    [history_due] is the contract: an entry is due when it never ran, or when
    its period has elapsed since its last run. *)

From Stdlib Require Import ZArith Lia.
From S2P Require Import Prelude RustStr Floats Model ConfigTypes.

Open Scope Z_scope.

(** [ScheduledCollectionTask] and [ScheduledDataConfig]. *)
Record Scheduled := {
  sched_id : string;
  sched_period : Z;
  next_due_ms : Z;
}.

Definition is_due (now_ms : Z) (entry : Scheduled) : bool := next_due_ms entry <=? now_ms.

(** [due_task_ids] and [due_config_ids]. *)
Definition due_ids (entries : list Scheduled) (now_ms : Z) : list string :=
  omap (fun entry => if is_due now_ms entry then Some (sched_id entry) else None) entries.

(** [entry.next_due_ms = now_ms.saturating_add(entry.period)]. *)
Definition reschedule (now_ms : Z) (entry : Scheduled) : Scheduled :=
  {| sched_id := sched_id entry; sched_period := sched_period entry;
     next_due_ms := sat_add 64 now_ms (sched_period entry) |}.

(** [iter_mut().find(..)] and the assignment to the entry it finds. *)
Definition mark_ran (missing : string) (entries : list Scheduled) (id : string) (now_ms : Z)
    : Result (list Scheduled) :=
  ok_or (update_first (fun entry => bool_decide (sched_id entry = id)) (reschedule now_ms) entries)
    (missing ++ id).

(** The loop of [from_package]: the first entry that does not validate fails
    the whole schedule. *)
Definition schedule_of {T} (validate : T -> Result ()) (entry : T -> Scheduled)
    (items : list T) : Result (list Scheduled) :=
  collect_results ((fun item => validate item;; Ok (entry item)) <$> items).

Module CollectionSchedule.

Definition validate_task (task : CollectionTask) : Result () :=
  ensure (negb (is_blank (task_id task))) "collection task id is required";;
  ensure (negb (task_interval_ms task =? 0))
    "collection task interval must be greater than zero";;
  ensure (negb (bool_decide (task_point_ids task = [])))
    "collection task must contain at least one point".

Definition scheduled_task (task : CollectionTask) : Scheduled :=
  {| sched_id := task_id task; sched_period := task_interval_ms task; next_due_ms := 0 |}.

Definition tasks_from_package (package : EdgeConfigPackage) : Result (list Scheduled) :=
  schedule_of validate_task scheduled_task
    (filter (fun task => task_enabled task = true) (pkg_collection_tasks package)).

Definition mark_task_ran : list Scheduled -> string -> Z -> Result (list Scheduled) :=
  mark_ran "collection task not scheduled: ".

End CollectionSchedule.

Module DataConfigSchedule.

Definition validate_data_config (config : DataConfig) : Result () :=
  ensure (negb (is_blank (dc_config_id config))) "data config id is required";;
  ensure (negb (period_ms (dc_collection config) =? 0))
    "data config collection period must be greater than zero";;
  (match dc_points config with
   | [] => bail "data config must contain at least one point"
   | _ => Ok ()
   end).

Definition scheduled_config (config : DataConfig) : Scheduled :=
  {| sched_id := dc_config_id config; sched_period := period_ms (dc_collection config);
     next_due_ms := 0 |}.

Definition configs_from_package (package : EdgeConfigPackage) : Result (list Scheduled) :=
  schedule_of validate_data_config scheduled_config
    (filter (fun config => dc_enabled config = true) (pkg_data_configs package)).

Definition mark_config_ran : list Scheduled -> string -> Z -> Result (list Scheduled) :=
  mark_ran "data config not scheduled: ".

End DataConfigSchedule.

(** ** The contract: due after one period since the last run *)

(** A history of runs, most recent last: the identifier and the instant. *)
Definition last_run (id : string) (history : list (string * Z)) : option Z :=
  snd <$> find_first (fun run => bool_decide (fst run = id)) (reverse history).

Definition history_due (period : Z) (last : option Z) (now_ms : Z) : bool :=
  match last with
  | None => true
  | Some ran => sat_add 64 ran period <=? now_ms
  end.

(** Marking a history of runs, one after the other. *)
Definition mark_all (missing : string) (entries : list Scheduled) (history : list (string * Z))
    : Result (list Scheduled) :=
  fold_left (fun acc run => acc ≫= fun es => mark_ran missing es (fst run) (snd run))
    history (Ok entries).

Definition ids (entries : list Scheduled) : list string := sched_id <$> entries.

(** ** Facts *)

(** [mark_ran] on a schedule with distinct identifiers, as a map. *)
Definition marked (id : string) (now_ms : Z) (entry : Scheduled) : Scheduled :=
  if bool_decide (sched_id entry = id) then reschedule now_ms entry else entry.

Lemma update_first_map id now entries :
  NoDup (ids entries) ->
  update_first (fun e => bool_decide (sched_id e = id)) (reschedule now) entries =
  if bool_decide (id ∈ ids entries) then Some (marked id now <$> entries) else None.
Proof.
  unfold ids. induction entries as [|e entries IH]; intros Hnd; [done|].
  rewrite !fmap_cons. cbn [update_first].
  rewrite fmap_cons in Hnd. apply list.NoDup_cons in Hnd as [Hne Hnd].
  unfold marked at 1. destruct (decide (sched_id e = id)) as [<-|Hid].
  - rewrite (bool_decide_true (_ = _)), bool_decide_true by (done || by left). do 2 f_equal.
    rewrite <- (list_fmap_id entries) at 1. apply list_fmap_ext. intros i x Hx. simpl.
    unfold marked. rewrite bool_decide_false; [done|]. intros Heq. apply Hne. rewrite <- Heq.
    apply list_elem_of_fmap_2. by eapply list_elem_of_lookup_2.
  - rewrite (bool_decide_false (_ = _)), IH by done.
    destruct (decide (id ∈ sched_id <$> entries)) as [Hin|Hout].
    + rewrite !bool_decide_true; [done | by right | done].
    + rewrite !bool_decide_false; [done | | done]. rewrite not_elem_of_cons. naive_solver.
Qed.

Lemma ids_marked id now entries : ids (marked id now <$> entries) = ids entries.
Proof.
  unfold ids. rewrite <- list_fmap_compose. apply list_fmap_ext. intros i x _.
  unfold marked. simpl. by case_bool_decide.
Qed.

Lemma mark_ran_spec missing entries id now :
  NoDup (ids entries) ->
  mark_ran missing entries id now =
  if bool_decide (id ∈ ids entries) then Ok (marked id now <$> entries)
  else Err (missing ++ id).
Proof. intros. unfold mark_ran. rewrite update_first_map by done. by case_bool_decide. Qed.

Lemma last_run_snoc id history ran t :
  last_run id (history ++ [(ran, t)]) = if bool_decide (ran = id) then Some t else last_run id history.
Proof. unfold last_run. rewrite reverse_snoc. simpl. by case_bool_decide. Qed.

(** The state of an entry after a history of runs. *)
Definition after_history (history : list (string * Z)) (entry : Scheduled) : Scheduled :=
  match last_run (sched_id entry) history with
  | None => entry
  | Some ran => reschedule ran entry
  end.

Lemma after_history_id history e : sched_id (after_history history e) = sched_id e.
Proof. unfold after_history. by destruct (last_run (sched_id e) history). Qed.

Lemma mark_all_spec missing entries history :
  NoDup (ids entries) -> Forall (fun run => fst run ∈ ids entries) history ->
  mark_all missing entries history = Ok (after_history history <$> entries) /\
  ids (after_history history <$> entries) = ids entries.
Proof.
  intros Hnd. induction history as [|[id t] history IH] using rev_ind; intros Hall.
  - split; [unfold mark_all; simpl; by rewrite list_fmap_id|].
    unfold ids. by rewrite <- list_fmap_compose.
  - apply Forall_app in Hall as [Hall Hid%Forall_cons_iff]. destruct Hid as [Hid _].
    destruct (IH Hall) as [Hrun Hids]. unfold mark_all in *. rewrite fold_left_app, Hrun. simpl.
    rewrite mark_ran_spec by by rewrite Hids. rewrite Hids, bool_decide_true by done.
    assert (Heq : marked id t <$> (after_history history <$> entries) =
                  after_history (history ++ [(id, t)]) <$> entries).
    { rewrite <- list_fmap_compose. apply list_fmap_ext. intros i e _. simpl.
      unfold marked, after_history. rewrite last_run_snoc.
      destruct (last_run (sched_id e) history); simpl; repeat case_bool_decide; naive_solver. }
    rewrite Heq. split; [done|]. by rewrite <- Heq, ids_marked.
Qed.

Lemma elem_of_due_ids entries now id :
  id ∈ due_ids entries now <-> exists e, e ∈ entries /\ sched_id e = id /\ next_due_ms e <= now.
Proof.
  unfold due_ids. rewrite list_elem_of_omap. unfold is_due. split.
  - intros (e & He & Hsome). destruct (Z.leb_spec (next_due_ms e) now); [|done].
    injection Hsome as <-. eauto.
  - intros (e & He & <- & Hle). exists e. split; [done|]. by rewrite (proj2 (Z.leb_le _ _)).
Qed.

Lemma schedule_of_Ok {T} (validate : T -> Result ()) entry (items : list T) entries :
  schedule_of validate entry items = Ok entries <->
  Forall (fun item => validate item = Ok ()) items /\ entries = entry <$> items.
Proof.
  unfold schedule_of. rewrite collect_results_Forall2. revert entries.
  induction items as [|item items IH]; intros entries; simpl.
  - split; [inversion 1; by split | intros [_ ->]; constructor].
  - rewrite Forall_cons_iff. split.
    + inversion 1 as [|? e ? es He Hes]; subst. apply IH in Hes as [Hall ->]. inv_result. done.
    + intros [[Hv Hall] ->]. constructor; [by rewrite Hv | by apply IH].
Qed.

(** ** Claims *)

(** A schedule remembers exactly when each task last ran: starting from a
    package whose enabled tasks have distinct identifiers, after any history of
    runs of scheduled tasks every [mark_ran] succeeds, and a task is due at an
    instant exactly when it never ran or when its interval has elapsed since
    its last run. *)
Theorem schedule_due_after_interval package entries missing history now :
  CollectionSchedule.tasks_from_package package = Ok entries ->
  NoDup (ids entries) ->
  Forall (fun run => fst run ∈ ids entries) history ->
  0 <= now ->
  exists entries', mark_all missing entries history = Ok entries' /\
    forall task, task ∈ pkg_collection_tasks package -> task_enabled task = true ->
      task_id task ∈ due_ids entries' now <->
      history_due (task_interval_ms task) (last_run (task_id task) history) now = true.
Proof.
  intros Hpkg Hnd Hall Hnow. destruct (mark_all_spec missing entries history Hnd Hall) as [Hrun Hids].
  exists (after_history history <$> entries). split; [done|]. intros task Htask Hen.
  apply schedule_of_Ok in Hpkg as [_ ->].
  set (scheduled := CollectionSchedule.scheduled_task <$> _) in *.
  assert (Hin : CollectionSchedule.scheduled_task task ∈ scheduled).
  { apply list_elem_of_fmap_2, list_elem_of_filter. by split. }
  rewrite elem_of_due_ids.
  assert (Hdue : next_due_ms (after_history history (CollectionSchedule.scheduled_task task)) <= now
    <-> history_due (task_interval_ms task) (last_run (task_id task) history) now = true).
  { unfold after_history, history_due. cbn [sched_id CollectionSchedule.scheduled_task].
    destruct (last_run _ history) as [ran|]; cbn; [by rewrite Z.leb_le | split; done || lia]. }
  rewrite <- Hdue. split.
  - intros (e & He & Hid & Hle). apply list_elem_of_fmap in He as (e0 & -> & He0).
    replace (CollectionSchedule.scheduled_task task) with e0; [done|].
    assert (Hid0 : sched_id e0 = task_id task).
    { by rewrite <- Hid, after_history_id. }
    apply list_elem_of_lookup_1 in He0 as [i Hi]. apply list_elem_of_lookup_1 in Hin as [j Hj].
    cut (i = j); [congruence|].
    apply (NoDup_lookup _ _ _ (task_id task) Hnd); unfold ids; rewrite list_lookup_fmap;
      [rewrite Hi; simpl; congruence | by rewrite Hj].
  - intros Hle. eexists. split; [by apply list_elem_of_fmap_2|]. split; [|done].
    by rewrite after_history_id.
Qed.

Definition sample_task (id : string) (interval : Z) : CollectionTask :=
  {| task_id := id; task_device_id := "d"; task_point_ids := ["p"];
     task_interval_ms := interval; task_enabled := true |}.

Definition sample_package : EdgeConfigPackage :=
  {| pkg_edge_id := "e"; pkg_version := "1"; pkg_device_models := [];
     pkg_devices := []; pkg_protocol_connections := []; pkg_mqtt_uplinks := [];
     pkg_data_configs := []; pkg_command_flows := []; pkg_point_mappings := [];
     pkg_collection_tasks := [sample_task "fast" 100; sample_task "slow" 5000];
     pkg_algorithms := [] |}.

Lemma schedule_due_after_interval_witness :
  exists entries entries',
    CollectionSchedule.tasks_from_package sample_package = Ok entries /\
    mark_all "" entries [("fast", 10); ("slow", 10)] = Ok entries' /\
    ("fast" ∈ due_ids entries' 110 <-> true = true) /\
    ("slow" ∈ due_ids entries' 110 <-> false = true).
Proof.
  eexists. destruct (schedule_due_after_interval sample_package
    [CollectionSchedule.scheduled_task (sample_task "fast" 100);
     CollectionSchedule.scheduled_task (sample_task "slow" 5000)] ""
    [("fast", 10); ("slow", 10)] 110) as (entries' & Hrun & Hdue).
  - vm_compute. reflexivity.
  - apply (bool_decide_unpack _). vm_compute. exact I.
  - repeat constructor; apply (bool_decide_unpack _); vm_compute; exact I.
  - lia.
  - exists entries'. split; [vm_compute; reflexivity|]. split; [exact Hrun|]. split.
    + apply (Hdue (sample_task "fast" 100)); [left | reflexivity].
    + apply (Hdue (sample_task "slow" 5000)); [right; left | reflexivity].
Defined.

(** [mark_ran] on an identifier that is not scheduled is an error that
    names it, and changes nothing else: every other outcome is a success that
    keeps the identifiers and the periods and moves the due instant of that
    entry alone, to an instant that is not before the run nor past [u64::MAX]. *)
Theorem mark_ran_frame missing entries id now :
  NoDup (ids entries) -> Forall (fun e => u_ok 64 (sched_period e)) entries -> u_ok 64 now ->
  ((id ∉ ids entries) /\ mark_ran missing entries id now = Err (missing ++ id)%string) \/
  (id ∈ ids entries /\ exists entries', mark_ran missing entries id now = Ok entries' /\
     ids entries' = ids entries /\ (sched_period <$> entries') = (sched_period <$> entries) /\
     Forall2 (fun e e' => if bool_decide (sched_id e = id)
                          then now <= next_due_ms e' /\ u_ok 64 (next_due_ms e') else e' = e)
       entries entries').
Proof.
  intros Hnd Hall Hnow. rewrite mark_ran_spec by done.
  destruct (decide (id ∈ ids entries)) as [Hin|Hout].
  - right. rewrite bool_decide_true by done. split; [done|]. eexists. split; [done|].
    split; [apply ids_marked|]. split.
    + rewrite <- list_fmap_compose. apply list_fmap_ext. intros i e _. simpl.
      unfold marked. by case_bool_decide.
    + apply Forall2_fmap_r, Forall_Forall2_diag. eapply Forall_impl; [|exact Hall].
      intros e He. simpl. unfold marked. case_bool_decide; [|done]. simpl. split.
      * apply sat_add_mono; [done | unfold u_ok in He; lia].
      * apply sat_add_ok; [lia | done | unfold u_ok in He; lia].
  - left. by rewrite bool_decide_false.
Qed.

Lemma mark_ran_frame_witness :
  mark_ran "not scheduled: " [CollectionSchedule.scheduled_task (sample_task "fast" 100)] "x" 7 =
  Err "not scheduled: x".
Proof.
  destruct (mark_ran_frame "not scheduled: "
    [CollectionSchedule.scheduled_task (sample_task "fast" 100)] "x" 7) as [[_ H]|[Hin _]].
  - apply (bool_decide_unpack _). vm_compute. exact I.
  - repeat constructor; vm_compute; congruence.
  - split; lia.
  - exact H.
  - exfalso. revert Hin. apply (bool_decide_unpack _). vm_compute. exact I.
Defined.
