(* ===== verification/ModbusBatch.v ===== *)
(** The Modbus read planner, [crates/edge-runtime/src/modbus_batch.rs].

    [plan_read_windows] groups the points of one read by station, function and
    kind, sorts each group by address and merges neighbouring points into
    windows of at most 125 registers or 2000 bits; [extract_point_payload] cuts
    one point out of the response to its window.

    The contract is [batched_read_equals_direct_read]: reading the planned
    windows of the stations of a bus and cutting the points out gives, for every
    point, what reading that point alone from its station would give. *)

From Stdlib Require Import ZArith Lia.
From S2P Require Import Prelude.

Open Scope Z_scope.

Definition MAX_BIT_READ_QUANTITY : Z := 2000.
Definition MAX_REGISTER_READ_QUANTITY : Z := 125.

Record ModbusReadPoint := {
  rp_mapping_index : Z;
  rp_station_id : Z;
  rp_function : Z;
  rp_offset : Z;
  rp_quantity : Z;
  rp_is_bit : bool;
}.

Record ModbusReadWindow := {
  rw_station_id : Z;
  rw_function : Z;
  rw_offset : Z;
  rw_quantity : Z;
  rw_is_bit : bool;
  rw_points : list ModbusReadPoint;
}.

(** What points must share to be read together. *)
Definition point_key (p : ModbusReadPoint) : Z * Z * bool :=
  (rp_station_id p, rp_function p, rp_is_bit p).
Definition window_key (w : ModbusReadWindow) : Z * Z * bool :=
  (rw_station_id w, rw_function w, rw_is_bit w).

Definition point_end (p : ModbusReadPoint) : Z := rp_offset p + rp_quantity p.
Definition window_end (w : ModbusReadWindow) : Z := rw_offset w + rw_quantity w.

Definition read_limit (is_bit : bool) : Z :=
  if is_bit then MAX_BIT_READ_QUANTITY else MAX_REGISTER_READ_QUANTITY.

(** The validation loop at the head of [plan_read_windows]. *)
Definition check_point (p : ModbusReadPoint) : Result () :=
  ensure (negb (rp_quantity p =? 0)) "Modbus read point quantity must be greater than zero";;
  ensure (negb (u_max 16 + 1 <? point_end p)) "Modbus read point exceeds address range".

Fixpoint check_points (points : list ModbusReadPoint) : Result () :=
  match points with
  | [] => Ok ()
  | p :: rest => check_point p;; check_points rest
  end.

(** The grouping loop: a point joins the first group whose first point shares
    its key, or opens a group. *)
Definition group_matches (p : ModbusReadPoint) (group : list ModbusReadPoint) : bool :=
  match group with
  | [] => false
  | first :: _ => bool_decide (point_key first = point_key p)
  end.

Definition add_to_groups (groups : list (list ModbusReadPoint)) (p : ModbusReadPoint)
    : list (list ModbusReadPoint) :=
  match update_first (group_matches p) (fun group => group ++ [p]) groups with
  | Some groups => groups
  | None => groups ++ [[p]]
  end.

(** [group.sort_by_key(|point| (point.offset, point.mapping_index))]. *)
Definition point_leb (a b : ModbusReadPoint) : bool :=
  (rp_offset a <? rp_offset b) ||
  ((rp_offset a =? rp_offset b) && (rp_mapping_index a <=? rp_mapping_index b)).

Definition can_merge (w : ModbusReadWindow) (p : ModbusReadPoint) : bool :=
  if negb (bool_decide (window_key w = point_key p)) then false
  else
    let merged_end := Z.max (window_end w) (point_end p) in
    (rp_offset p <=? window_end w) && (merged_end - rw_offset w <=? read_limit (rp_is_bit p)).

Definition merge_point (w : ModbusReadWindow) (p : ModbusReadPoint) : ModbusReadWindow :=
  {| rw_station_id := rw_station_id w; rw_function := rw_function w; rw_offset := rw_offset w;
     rw_quantity := wrap 16 (Z.max (window_end w) (point_end p) - rw_offset w);
     rw_is_bit := rw_is_bit w; rw_points := rw_points w ++ [p] |}.

Definition new_window (p : ModbusReadPoint) : ModbusReadWindow :=
  {| rw_station_id := rp_station_id p; rw_function := rp_function p; rw_offset := rp_offset p;
     rw_quantity := rp_quantity p; rw_is_bit := rp_is_bit p; rw_points := [p] |}.

(** The body of the window loop: [windows.last()] is extended or a window is
    pushed. *)
Definition add_to_windows (windows : list ModbusReadWindow) (p : ModbusReadPoint)
    : list ModbusReadWindow :=
  match list.last windows with
  | Some w =>
      if can_merge w p then removelast windows ++ [merge_point w p] else windows ++ [new_window p]
  | None => windows ++ [new_window p]
  end.

Definition plan_read_windows (points : list ModbusReadPoint) : Result (list ModbusReadWindow) :=
  check_points points;;
  let groups := fold_left add_to_groups points [] in
  Ok (fold_left (fun windows group => fold_left add_to_windows (sort_by point_leb group) windows)
        groups []).

(** ** Extraction *)

(** [payload[source_byte] & (1 << (source_bit % 8)) != 0]. *)
Definition payload_bit (payload : bytes) (i : nat) : bool :=
  Z.testbit (byte_at payload (i / 8)) (Z.of_nat (i mod 8)).

(** [point_payload[bit / 8] |= 1 << (bit % 8)]. *)
Definition set_bit (l : bytes) (i : nat) : bytes :=
  alter (fun b => Z.lor b (Z.shiftl 1 (Z.of_nat (i mod 8)))) (i / 8)%nat l.

(** The copy loop over the bits of the point, from [bit] on. *)
Fixpoint copy_bits (payload : bytes) (relative_offset : nat) (bits : list nat) (acc : bytes)
    : Result bytes :=
  match bits with
  | [] => Ok acc
  | bit :: rest =>
      let source_bit := (relative_offset + bit)%nat in
      if bool_decide (length payload <= source_bit / 8)%nat
      then bail "Modbus bit response is shorter than its read window"
      else copy_bits payload relative_offset rest
             (if payload_bit payload source_bit then set_bit acc bit else acc)
  end.

Definition div_ceil8 (n : nat) : nat := ((n + 7) / 8)%nat.

Definition extract_point_payload (w : ModbusReadWindow) (p : ModbusReadPoint) (payload : bytes)
    : Result bytes :=
  relative_offset ← ok_or (checked_sub (rp_offset p) (rw_offset w))
    "Modbus point starts before its read window";
  let relative_end := relative_offset + rp_quantity p in
  if rw_quantity w <? relative_end then bail "Modbus point exceeds its read window"
  else if rw_is_bit w then
    copy_bits payload (Z.to_nat relative_offset) (seq 0 (Z.to_nat (rp_quantity p)))
      (replicate (div_ceil8 (Z.to_nat (rp_quantity p))) 0)
  else
    ok_or (slice payload (Z.to_nat relative_offset * 2) (Z.to_nat relative_end * 2))
      "Modbus register response is shorter than its read window".

(** ** The contract: what a Modbus device returns for a read *)

(** A device memory: the word at each register address, the state of each bit
    address. *)
Record DeviceMemory := { mem_register : Z -> Z; mem_bit : Z -> bool }.

(** Bits are packed eight to a byte, the first in the least significant
    position (Modbus Application Protocol v1.1b3, functions 1 and 2). *)
Definition pack_byte (bits : list bool) : Z :=
  foldr (fun b acc => Z.b2z b + 2 * acc) 0 bits.

Fixpoint pack_bits (n : nat) (bits : list bool) : bytes :=
  match n with
  | O => []
  | S n => pack_byte (take 8 bits) :: pack_bits n (drop 8 bits)
  end.

Definition addresses (offset quantity : Z) : list Z :=
  (fun i => offset + Z.of_nat i) <$> seq 0 (Z.to_nat quantity).

(** The data bytes of the response to a read of [quantity] items. *)
Definition device_read (m : DeviceMemory) (is_bit : bool) (offset quantity : Z) : bytes :=
  if is_bit
  then pack_bits (div_ceil8 (Z.to_nat quantity)) (mem_bit m <$> addresses offset quantity)
  else concat ((fun a => to_be_bytes 2 (mem_register m a)) <$> addresses offset quantity).

(** The stations of a bus, each with a memory for every read function (coils,
    discrete inputs, holding and input registers are separate in the protocol). *)
Definition Bus := Z -> Z -> DeviceMemory.

(** The answer of a station to a read: a station serves at most 2000 bits or 125
    registers inside its 16-bit address space (Modbus Application Protocol v1.1b3),
    and refuses any other read. *)
Definition station_read (bus : Bus) (station function : Z) (is_bit : bool) (offset quantity : Z) : option bytes :=
  if (0 <? quantity) && (quantity <=? (if is_bit then 2000 else 125)) && (0 <=? offset) && (offset + quantity <=? 65536)
  then Some (device_read (bus station function) is_bit offset quantity) else None.

(** ** Grouping *)

Definition point_ok (p : ModbusReadPoint) : Prop :=
  0 <= rp_offset p /\ 0 < rp_quantity p /\ point_end p <= 2 ^ 16.

Lemma check_points_Ok points :
  check_points points = Ok () <->
  Forall (fun p => rp_quantity p <> 0 /\ point_end p <= 2 ^ 16) points.
Proof.
  induction points as [|p points IH]; simpl; [by split|].
  rewrite Forall_cons_iff, <- IH. unfold check_point, u_max. split.
  - intros H. inv_result. simp_bool. repeat split; lia || done.
  - intros [[Hq He] ->]. rewrite (proj2 (Z.eqb_neq _ _)), (proj2 (Z.ltb_ge _ _)) by lia. done.
Qed.

Definition group_key (g : list ModbusReadPoint) : option (Z * Z * bool) := point_key <$> head g.

(** Every group is a non-empty set of points of one key, and no two groups
    share their key. *)
Definition groups_ok (groups : list (list ModbusReadPoint)) : Prop :=
  Forall (fun g => g <> [] /\ Forall (fun p => Some (point_key p) = group_key g) g) groups /\
  NoDup (group_key <$> groups).

Lemma group_key_app g p : g <> [] -> group_key (g ++ [p]) = group_key g.
Proof. by destruct g. Qed.

Lemma add_to_groups_ok groups p : groups_ok groups -> groups_ok (add_to_groups groups p).
Proof.
  intros [Hall Hnd]. unfold add_to_groups.
  destruct (update_first _ _ groups) as [groups'|] eqn:E.
  - apply update_first_Some in E as (g1 & g & g2 & -> & Hg & ->).
    apply Forall_app in Hall as [H1 [[Hne Hkey] H2]%Forall_cons_iff]. split.
    + apply Forall_app. split; [done|]. apply Forall_cons_iff. split; [|done].
      rewrite group_key_app by done. split; [by destruct g|].
      apply Forall_app. split; [done|]. apply Forall_cons_iff. split; [|done].
      destruct g as [|first g]; [done|]. simpl in Hg. simp_bool. unfold group_key. simpl. congruence.
    + by rewrite fmap_app, fmap_cons, group_key_app, <- fmap_cons, <- fmap_app.
  - apply update_first_None in E. split.
    + apply Forall_app. split; [done|]. by repeat constructor.
    + rewrite fmap_app. apply list.NoDup_app. split; [done|]. split; [|apply NoDup_singleton].
      intros k Hk Hin%list_elem_of_singleton. subst k.
      apply list_elem_of_fmap in Hk as (g & Hg & Hin).
      pose proof (Forall_elem _ _ _ E Hin) as Hm. destruct g as [|first g]; [done|].
      simpl in Hm. simp_bool. apply Hm. unfold group_key in Hg. simpl in Hg. congruence.
Qed.

Lemma add_to_groups_points groups p : concat (add_to_groups groups p) ≡ₚ p :: concat groups.
Proof.
  unfold add_to_groups. destruct (update_first _ _ groups) as [groups'|] eqn:E.
  - apply update_first_Some in E as (g1 & g & g2 & -> & Hg & ->).
    rewrite !concat_app, !concat_cons. solve_Permutation.
  - rewrite concat_app. simpl. solve_Permutation.
Qed.

Lemma groups_of_points points groups :
  groups_ok groups ->
  groups_ok (fold_left add_to_groups points groups) /\
  concat (fold_left add_to_groups points groups) ≡ₚ points ++ concat groups.
Proof.
  revert groups. induction points as [|p points IH]; intros groups Hok; [done|]. simpl.
  destruct (IH _ (add_to_groups_ok _ p Hok)) as [Hok' Hperm]. split; [done|].
  rewrite Hperm, add_to_groups_points. solve_Permutation.
Qed.

(** ** Windows *)

(** A window holds points of its key only, contains them whole, reads no
    address that none of them asks for, and respects the protocol limit unless
    a single point exceeds it. *)
Record window_ok (w : ModbusReadWindow) : Prop := {
  wk_points : Forall (fun p => point_key p = window_key w /\ rw_offset w <= rp_offset p /\
                               point_end p <= window_end w) (rw_points w);
  wk_tight : forall a, rw_offset w <= a < window_end w ->
               Exists (fun p => rp_offset p <= a < point_end p) (rw_points w);
  wk_limit : rw_quantity w <= read_limit (rw_is_bit w) \/ exists p, rw_points w = [p];
  wk_range : 0 <= rw_offset w /\ 0 < rw_quantity w /\ window_end w <= 2 ^ 16;
}.

Definition window_points (ws : list ModbusReadWindow) : list ModbusReadPoint :=
  concat (rw_points <$> ws).

Lemma new_window_ok p : point_ok p -> window_ok (new_window p).
Proof.
  intros (? & ? & ?). unfold point_end in *. constructor; simpl.
  - constructor; [|done]. unfold window_end, point_end. simpl. repeat split; lia.
  - intros a Ha. left. unfold point_end, window_end in *. simpl in *. lia.
  - right. by exists p.
  - unfold window_end. simpl. lia.
Qed.

Lemma can_merge_true w p :
  can_merge w p = true <->
  window_key w = point_key p /\ rp_offset p <= window_end w /\
  Z.max (window_end w) (point_end p) - rw_offset w <= read_limit (rp_is_bit p).
Proof.
  unfold can_merge. case_bool_decide; simpl; [|naive_solver].
  rewrite andb_true_iff, !Z.leb_le. naive_solver.
Qed.

Lemma read_limit_bound b : read_limit b <= 2000.
Proof. by destruct b. Qed.

Lemma merge_end w p :
  point_ok p -> window_ok w -> can_merge w p = true ->
  window_end (merge_point w p) = Z.max (window_end w) (point_end p).
Proof.
  intros Hp Hw (_ & _ & Hlim)%can_merge_true. pose proof (read_limit_bound (rp_is_bit p)).
  unfold window_end at 1. simpl. rewrite wrap_small; [lia|].
  pose proof (wk_range _ Hw) as (? & ? & ?). unfold u_ok, window_end, point_end in *. lia.
Qed.

Lemma merge_point_ok w p :
  point_ok p -> window_ok w -> can_merge w p = true -> rw_offset w <= rp_offset p ->
  window_ok (merge_point w p).
Proof.
  intros Hp Hw Hm Hoff. pose proof (merge_end w p Hp Hw Hm) as Hend.
  pose proof (proj1 (can_merge_true _ _) Hm) as (Hkey & Hle & Hlim).
  destruct (wk_range _ Hw) as (? & ? & ?). destruct Hp as (? & ? & ?). constructor.
  - rewrite Hend. simpl. apply Forall_app. split.
    + eapply Forall_impl; [|exact (wk_points _ Hw)]. intros q (? & ? & ?).
      split; [done|]. split; [done|]. lia.
    + constructor; [|done]. split; [by rewrite <- Hkey|]. split; [done|]. lia.
  - rewrite Hend. simpl. intros a Ha. apply Exists_app.
    destruct (Z_lt_dec a (window_end w)).
    + left. apply (wk_tight _ Hw). lia.
    + right. left. lia.
  - left. simpl. rewrite wrap_small.
    + replace (rw_is_bit w) with (rp_is_bit p); [done|]. injection Hkey. done.
    + pose proof (read_limit_bound (rp_is_bit p)). unfold u_ok, window_end in *. lia.
  - rewrite Hend. simpl. unfold window_end in Hend. simpl in Hend. unfold window_end, point_end in *.
    split; [done|]. lia.
Qed.

(** One step of the window loop, when the last window of the key starts no
    later than the point. *)
Lemma add_to_windows_ok ws p :
  point_ok p -> Forall window_ok ws ->
  (forall w, list.last ws = Some w -> window_key w = point_key p -> rw_offset w <= rp_offset p) ->
  Forall window_ok (add_to_windows ws p) /\
  window_points (add_to_windows ws p) ≡ₚ p :: window_points ws /\
  exists w, list.last (add_to_windows ws p) = Some w /\ window_key w = point_key p /\
    rw_offset w <= rp_offset p.
Proof.
  intros Hp Hws Hlast. unfold add_to_windows, window_points.
  assert (Hnew : Forall window_ok (ws ++ [new_window p]) /\
    concat (rw_points <$> ws ++ [new_window p]) ≡ₚ p :: concat (rw_points <$> ws) /\
    exists w, list.last (ws ++ [new_window p]) = Some w /\ window_key w = point_key p /\
      rw_offset w <= rp_offset p).
  { split; [|split].
    - apply Forall_app. split; [done|]. constructor; [by apply new_window_ok | done].
    - rewrite fmap_app, concat_app. simpl. solve_Permutation.
    - exists (new_window p). by rewrite last_snoc. }
  destruct (list.last ws) as [w|] eqn:E; [|done].
  destruct (can_merge w p) eqn:Hm; [|done]. clear Hnew.
  apply last_Some in E as [ws' ->]. rewrite removelast_last.
  apply Forall_app in Hws as [Hws' [Hw _]%Forall_cons_iff].
  pose proof (proj1 (can_merge_true _ _) Hm) as (Hkey & _ & _).
  specialize (Hlast w eq_refl Hkey). split; [|split].
  - apply Forall_app. split; [done|]. constructor; [by apply merge_point_ok | done].
  - rewrite !fmap_app, !concat_app. simpl. solve_Permutation.
  - exists (merge_point w p). by rewrite last_snoc.
Qed.

Definition offset_le (a b : ModbusReadPoint) : Prop := rp_offset a <= rp_offset b.

Lemma add_group_ok k g ws :
  StronglySorted offset_le g -> Forall (fun p => point_key p = k) g -> Forall point_ok g ->
  Forall window_ok ws ->
  (forall w, list.last ws = Some w -> window_key w = k -> Forall (fun p => rw_offset w <= rp_offset p) g) ->
  let ws' := fold_left add_to_windows g ws in
  Forall window_ok ws' /\ window_points ws' ≡ₚ g ++ window_points ws /\
  forall w, list.last ws' = Some w -> list.last ws = Some w \/ window_key w = k.
Proof.
  intros Hsorted. revert ws. induction Hsorted as [|p g Hs IH Hle]; intros ws Hk Hp Hws Hlast; simpl.
  { split; [done|]. split; [done|]. by left. }
  apply Forall_cons_iff in Hk as [Hkp Hk]. apply Forall_cons_iff in Hp as [Hpp Hp].
  destruct (add_to_windows_ok ws p Hpp Hws) as (Hok & Hpts & w & Hw & Hwk & Hwo).
  { intros w Hw Hwk. rewrite Hkp in Hwk. pose proof (Hlast w Hw Hwk) as Hf.
    by apply Forall_cons_iff in Hf as [? _]. }
  destruct (IH (add_to_windows ws p) Hk Hp Hok) as (Hok' & Hpts' & Hlast').
  { intros w' Hw' _. assert (w' = w) as -> by congruence.
    eapply Forall_impl; [|exact Hle]. unfold offset_le. intros q Hq. lia. }
  split; [done|]. split; [rewrite Hpts', Hpts; solve_Permutation|].
  intros w' Hw'. destruct (Hlast' w' Hw') as [Hold|Hnew]; [|by right].
  right. assert (w' = w) as -> by congruence. congruence.
Qed.

Lemma point_leb_total x y : point_leb x y = true \/ point_leb y x = true.
Proof.
  unfold point_leb. rewrite !orb_true_iff, !andb_true_iff, !Z.ltb_lt, !Z.eqb_eq, !Z.leb_le. lia.
Qed.

Lemma point_leb_trans x y z : point_leb x y = true -> point_leb y z = true -> point_leb x z = true.
Proof.
  unfold point_leb. rewrite !orb_true_iff, !andb_true_iff, !Z.ltb_lt, !Z.eqb_eq, !Z.leb_le. lia.
Qed.

Lemma sorted_group_offsets g : StronglySorted offset_le (sort_by point_leb g).
Proof.
  pose proof (sort_by_sorted point_leb point_leb_total point_leb_trans g) as Hs.
  induction Hs as [|p l Hs IH Hall]; constructor; [done|].
  eapply Forall_impl; [|exact Hall]. intros q. unfold point_leb, offset_le.
  rewrite orb_true_iff, andb_true_iff, Z.ltb_lt, Z.eqb_eq. lia.
Qed.

Definition add_group (windows : list ModbusReadWindow) (group : list ModbusReadPoint) :=
  fold_left add_to_windows (sort_by point_leb group) windows.

Lemma add_groups_ok groups ws :
  groups_ok groups -> Forall point_ok (concat groups) -> Forall window_ok ws ->
  (forall w, list.last ws = Some w -> Some (window_key w) ∉ (group_key <$> groups)) ->
  let ws' := fold_left add_group groups ws in
  Forall window_ok ws' /\ window_points ws' ≡ₚ concat groups ++ window_points ws.
Proof.
  revert ws. induction groups as [|g groups IH]; intros ws [Hall Hnd] Hp Hws Hlast; [done|].
  apply Forall_cons_iff in Hall as [[Hne Hkeys] Hall]. rewrite fmap_cons in Hnd.
  apply list.NoDup_cons in Hnd as [Hfresh Hnd]. rewrite concat_cons in Hp.
  apply Forall_app in Hp as [Hpg Hp]. simpl fold_left.
  destruct g as [|first g]; [done|]. set (k := point_key first).
  assert (Hgk : group_key (first :: g) = Some k) by done. rewrite Hgk in Hkeys, Hfresh.
  destruct (add_group_ok k (sort_by point_leb (first :: g)) ws) as (Hok & Hpts & Hl).
  - apply sorted_group_offsets.
  - rewrite sort_by_perm. eapply Forall_impl; [|exact Hkeys]. intros q Hq. by apply Some_inj in Hq.
  - by rewrite sort_by_perm.
  - done.
  - intros w Hw Hwk. destruct (Hlast w Hw). rewrite fmap_cons, Hgk, Hwk. by left.
  - destruct (IH (add_group ws (first :: g))) as [Hok' Hpts'].
    + by split.
    + done.
    + done.
    + intros w Hw Hin. destruct (Hl w Hw) as [Hold|Hk].
      * apply (Hlast w Hold). rewrite fmap_cons. by right.
      * apply Hfresh. by rewrite <- Hk.
    + split; [done|]. rewrite Hpts'. unfold add_group. rewrite Hpts, sort_by_perm.
      simpl. solve_Permutation.
Qed.

(** ** Extraction from a window *)

Lemma concat_fixed_drop {A B} (f : A -> list B) k n l :
  (forall x, length (f x) = k) ->
  drop (n * k) (concat (f <$> l)) = concat (f <$> drop n l).
Proof.
  intros Hf. revert l. induction n as [|n IH]; intros [|x l]; simpl; try done.
  - by rewrite drop_nil.
  - rewrite drop_app_ge by (rewrite Hf; lia). rewrite Hf.
    replace (k + n * k - k)%nat with (n * k)%nat by lia. apply IH.
Qed.

Lemma concat_fixed_take {A B} (f : A -> list B) k n l :
  (forall x, length (f x) = k) ->
  take (n * k) (concat (f <$> l)) = concat (f <$> take n l).
Proof.
  intros Hf. revert l. induction n as [|n IH]; intros [|x l]; simpl; try done.
  - by rewrite take_nil.
  - rewrite take_app_ge by (rewrite Hf; lia). rewrite Hf.
    replace (k + n * k - k)%nat with (n * k)%nat by lia. by rewrite <- IH.
Qed.

Lemma length_concat_fixed {A B} (f : A -> list B) k l :
  (forall x, length (f x) = k) -> length (concat (f <$> l)) = (length l * k)%nat.
Proof.
  intros Hf. induction l as [|x l IH]; simpl; [done|]. rewrite length_app, Hf. by rewrite <- IH.
Qed.

Lemma lookup_addresses offset q i :
  addresses offset q !! i =
  if bool_decide (i < Z.to_nat q)%nat then Some (offset + Z.of_nat i) else None.
Proof.
  unfold addresses. rewrite list_lookup_fmap. case_bool_decide.
  - by rewrite (lookup_seq_lt 0 _ i) by done.
  - by rewrite (lookup_seq_ge 0 _ i) by lia.
Qed.

Lemma length_addresses offset q : length (addresses offset q) = Z.to_nat q.
Proof. unfold addresses. by rewrite length_fmap, length_seq. Qed.

(** The addresses of a point are a slice of the addresses of its window. *)
Lemma addresses_slice wo wq o q :
  wo <= o -> 0 <= q -> o + q <= wo + wq ->
  take (Z.to_nat q) (drop (Z.to_nat (o - wo)) (addresses wo wq)) = addresses o q.
Proof.
  intros. apply list_eq. intros i. rewrite lookup_addresses.
  destruct (decide (i < Z.to_nat q)%nat) as [Hi|Hi].
  - rewrite lookup_take_lt, lookup_drop, lookup_addresses by done.
    rewrite !bool_decide_true by lia. f_equal. lia.
  - rewrite lookup_take_ge by lia. by rewrite bool_decide_false.
Qed.

Lemma payload_bit_cons b l i :
  payload_bit (b :: l) i =
  if bool_decide (i < 8)%nat then Z.testbit b (Z.of_nat i) else payload_bit l (i - 8).
Proof.
  unfold payload_bit, byte_at. case_bool_decide.
  - rewrite Nat.div_small, Nat.mod_small by done. done.
  - replace i with ((i - 8) + 1 * 8)%nat at 1 2 by lia.
    rewrite Nat.div_add, Nat.Div0.mod_add by lia. rewrite Nat.add_1_r. done.
Qed.

Lemma pack_byte_bit bits i :
  Z.testbit (pack_byte bits) (Z.of_nat i) = default false (bits !! i).
Proof.
  revert i. induction bits as [|b bits IH]; intros i; [by rewrite Z.testbit_0_l|].
  cbn [pack_byte foldr]. fold (pack_byte bits). destruct i as [|i].
  - rewrite Z.add_comm. simpl lookup. rewrite Z.testbit_0_r. done.
  - rewrite Nat2Z.inj_succ, Z.add_comm, Z.testbit_succ_r by lia. apply IH.
Qed.

Lemma pack_byte_ok bits : (length bits <= 8)%nat -> byte_ok (pack_byte bits).
Proof.
  intros Hlen. assert (Hb : 0 <= pack_byte bits < 2 ^ Z.of_nat (length bits)).
  { clear Hlen. induction bits as [|b bits IH]; [done|].
    rewrite length_cons, Nat2Z.inj_succ, Z.pow_succ_r by lia. simpl. destruct b; simpl; lia. }
  assert (2 ^ Z.of_nat (length bits) <= 2 ^ 8) by (apply Z.pow_le_mono_r; lia).
  unfold byte_ok. lia.
Qed.

Lemma length_pack_bits n bits : length (pack_bits n bits) = n.
Proof. revert bits. induction n; intros; simpl; auto. Qed.

Lemma pack_bits_ok n bits : bytes_ok (pack_bits n bits).
Proof.
  revert bits. induction n as [|n IH]; intros bits; [constructor|]. apply Forall_cons_iff.
  split; [|apply IH]. apply pack_byte_ok. rewrite length_take. lia.
Qed.

Lemma pack_bits_bit n bits i :
  (i < 8 * n)%nat -> payload_bit (pack_bits n bits) i = default false (bits !! i).
Proof.
  revert bits i. induction n as [|n IH]; intros bits i Hi; [lia|].
  cbn [pack_bits]. rewrite payload_bit_cons. case_bool_decide.
  - by rewrite pack_byte_bit, lookup_take_lt.
  - rewrite IH by lia. rewrite lookup_drop. do 2 f_equal. lia.
Qed.

(** Byte strings of one length with the same bits are equal. *)
Lemma byte_ext a b :
  byte_ok a -> byte_ok b -> (forall i, (i < 8)%nat -> Z.testbit a (Z.of_nat i) = Z.testbit b (Z.of_nat i)) ->
  a = b.
Proof.
  intros Ha Hb H. apply Z.bits_inj. intros n. destruct (Z_lt_dec n 0).
  { by rewrite !Z.testbit_neg_r. }
  destruct (Z_lt_dec n 8).
  - specialize (H (Z.to_nat n) ltac:(lia)). by rewrite !Z2Nat.id in H by lia.
  - assert (Hz : forall x, byte_ok x -> Z.testbit x n = false).
    { intros x [? ?]. destruct (decide (x = 0)) as [->|]; [apply Z.testbit_0_l|].
      apply Z.bits_above_log2; [lia|]. apply Z.lt_le_trans with 8; [|lia].
      apply Z.log2_lt_pow2; lia. }
    by rewrite !Hz.
Qed.

Lemma payload_ext l1 l2 :
  bytes_ok l1 -> bytes_ok l2 -> length l1 = length l2 ->
  (forall i, (i < 8 * length l1)%nat -> payload_bit l1 i = payload_bit l2 i) -> l1 = l2.
Proof.
  intros H1. revert l2. induction H1 as [|a l1 Ha H1 IH]; intros [|b l2] H2 Hlen Hbits;
    try done. apply Forall_cons_iff in H2 as [Hb H2]. simpl in Hlen. f_equal.
  - apply byte_ext; [done..|]. intros i Hi. specialize (Hbits i).
    rewrite !payload_bit_cons, !bool_decide_true in Hbits by done. apply Hbits. simpl. lia.
  - apply IH; [done | lia|]. intros i Hi. specialize (Hbits (i + 8)%nat).
    rewrite !payload_bit_cons, !bool_decide_false in Hbits by lia.
    rewrite Nat.add_sub in Hbits. apply Hbits. simpl. lia.
Qed.

Lemma length_set_bit l i : length (set_bit l i) = length l.
Proof. apply length_alter. Qed.

Lemma set_bit_ok l i : bytes_ok l -> bytes_ok (set_bit l i).
Proof.
  intros Hl. apply Forall_lookup. intros j x. unfold set_bit. rewrite list_lookup_alter.
  case_decide as Hij; [subst j | by apply Forall_lookup_1].
  destruct (l !! (i / 8)%nat) as [b|] eqn:E; [|done].
  cbn [fmap option_fmap option_map]. intros Hx. apply Some_inj in Hx as <-.
  pose proof (Forall_lookup_1 _ _ _ _ Hl E) as [? ?].
  pose proof (Nat.mod_upper_bound i 8 ltac:(lia)). rewrite Z.shiftl_mul_pow2, Z.mul_1_l by lia.
  set (k := Z.of_nat (i mod 8)) in *. assert (0 <= k < 8) by lia. clearbody k.
  assert (0 < 2 ^ k) by (apply Z.pow_pos_nonneg; lia).
  split; [apply Z.lor_nonneg; lia|].
  destruct (decide (Z.lor b (2 ^ k) = 0)) as [->|]; [lia|].
  apply (Z.log2_lt_pow2 _ 8); [apply Z.le_neq; split; [apply Z.lor_nonneg; lia | done]|].
  rewrite Z.log2_lor by lia. rewrite Z.log2_pow2 by lia.
  destruct (decide (b = 0)) as [->|]; [simpl; lia|].
  assert (Z.log2 b < 8) by (apply Z.log2_lt_pow2; lia). lia.
Qed.

Lemma set_bit_bit l i j :
  (i < 8 * length l)%nat ->
  payload_bit (set_bit l i) j = payload_bit l j || bool_decide (i = j).
Proof.
  intros Hi. unfold payload_bit, set_bit, byte_at. rewrite list_lookup_alter.
  assert (i / 8 < length l)%nat by (apply Nat.Div0.div_lt_upper_bound; lia).
  pose proof (Nat.div_mod_eq i 8). pose proof (Nat.div_mod_eq j 8).
  pose proof (Nat.mod_upper_bound i 8 ltac:(lia)). pose proof (Nat.mod_upper_bound j 8 ltac:(lia)).
  case_decide as Hd.
  - rewrite Hd. destruct (lookup_lt_is_Some_2 l (j / 8)) as [b Hb]; [lia|]. rewrite Hb.
    cbn [fmap option_fmap option_map default from_option id].
    rewrite Z.lor_spec, Z.shiftl_mul_pow2, Z.mul_1_l, Z.pow2_bits_eqb by lia. f_equal.
    case_bool_decide; [by subst; rewrite Z.eqb_refl | apply Z.eqb_neq; lia].
  - rewrite bool_decide_false by congruence. by rewrite orb_false_r.
Qed.

(** The copy loop succeeds on a payload that holds the bits and copies exactly
    the requested ones. *)
Lemma copy_bits_spec payload ro k n acc :
  (ro + k + n <= 8 * length payload)%nat -> (k + n <= 8 * length acc)%nat -> bytes_ok acc ->
  exists res, copy_bits payload ro (seq k n) acc = Ok res /\ length res = length acc /\
    bytes_ok res /\
    forall j, payload_bit res j = payload_bit acc j ||
      (bool_decide (k <= j < k + n)%nat && payload_bit payload (ro + j)).
Proof.
  revert k acc. induction n as [|n IH]; intros k acc Hp Ha Hok.
  { exists acc. repeat split; [done|]. intros j. rewrite bool_decide_false by lia.
    by rewrite orb_false_r. }
  cbn [seq copy_bits]. rewrite bool_decide_false.
  2: { apply Nat.nle_gt, Nat.Div0.div_lt_upper_bound. lia. }
  set (acc' := if payload_bit payload (ro + k) then set_bit acc k else acc).
  assert (Hlen : length acc' = length acc).
  { unfold acc'. destruct (payload_bit _ _); [apply length_set_bit | done]. }
  destruct (IH (S k) acc') as (res & Hres & Hl & Hrok & Hbits); [lia | lia | |].
  { unfold acc'. destruct (payload_bit _ _); [by apply set_bit_ok | done]. }
  exists res. split; [done|]. split; [lia|]. split; [done|]. intros j. rewrite Hbits.
  assert (Hacc : payload_bit acc' j =
    payload_bit acc j || (bool_decide (k = j) && payload_bit payload (ro + k))).
  { unfold acc'. destruct (payload_bit payload (ro + k)).
    - rewrite set_bit_bit by lia. by rewrite andb_true_r.
    - by rewrite andb_false_r, orb_false_r. }
  rewrite Hacc, <- orb_assoc. f_equal. destruct (decide (k = j)) as [<-|].
  - rewrite (bool_decide_true (k = k)), (bool_decide_true (k <= k < _)%nat) by lia.
    rewrite bool_decide_false by lia. by rewrite orb_false_r.
  - rewrite (bool_decide_false (k = j)) by done. simpl. f_equal.
    apply bool_decide_ext. lia.
Qed.

Lemma div_ceil8_bound n : (n <= 8 * div_ceil8 n)%nat.
Proof. unfold div_ceil8. pose proof (Nat.div_mod_eq (n + 7) 8). pose proof (Nat.mod_upper_bound (n + 7) 8). lia. Qed.

Lemma payload_bit_zeros n i : payload_bit (replicate n 0) i = false.
Proof.
  unfold payload_bit, byte_at. destruct (replicate n 0 !! (i / 8)%nat) as [b|] eqn:E.
  - apply lookup_replicate in E as [-> _]. apply Z.testbit_0_l.
  - apply Z.testbit_0_l.
Qed.

(** A point inside a window is cut out of the response to the window exactly
    as a read of the point alone would return it. *)
Lemma extract_spec m w p :
  rw_is_bit w = rp_is_bit p -> rw_offset w <= rp_offset p -> point_end p <= window_end w ->
  0 <= rp_quantity p ->
  extract_point_payload w p (device_read m (rw_is_bit w) (rw_offset w) (rw_quantity w)) =
  Ok (device_read m (rp_is_bit p) (rp_offset p) (rp_quantity p)).
Proof.
  intros Hb Ho He Hq. unfold extract_point_payload, checked_sub. unfold point_end, window_end in *.
  rewrite (proj2 (Z.leb_le _ _)) by lia. simpl. rewrite (proj2 (Z.ltb_ge _ _)) by lia. rewrite <- Hb.
  pose proof (addresses_slice (rw_offset w) (rw_quantity w) (rp_offset p) (rp_quantity p)
    Ho Hq ltac:(lia)) as Hsl.
  unfold device_read. destruct (rw_is_bit w).
  - set (bits := mem_bit m <$> addresses (rw_offset w) (rw_quantity w)).
    destruct (copy_bits_spec (pack_bits (div_ceil8 (Z.to_nat (rw_quantity w))) bits)
      (Z.to_nat (rp_offset p - rw_offset w)) 0 (Z.to_nat (rp_quantity p))
      (replicate (div_ceil8 (Z.to_nat (rp_quantity p))) 0)) as (res & Hres & Hlen & Hok & Hbits).
    { rewrite length_pack_bits. pose proof (div_ceil8_bound (Z.to_nat (rw_quantity w))). lia. }
    { rewrite length_replicate. apply div_ceil8_bound. }
    { apply Forall_replicate. split; lia. }
    rewrite Hres. f_equal. rewrite length_replicate in Hlen.
    apply payload_ext; [done | apply pack_bits_ok | by rewrite length_pack_bits|].
    intros i Hi. rewrite Hbits, payload_bit_zeros.
    rewrite (pack_bits_bit (div_ceil8 (Z.to_nat (rp_quantity p)))) by lia. simpl orb.
    rewrite <- Hsl, list_lookup_fmap.
    destruct (decide (i < Z.to_nat (rp_quantity p))%nat).
    + rewrite bool_decide_true, lookup_take_lt, lookup_drop by lia. cbn [andb]. rewrite pack_bits_bit.
      * unfold bits. by rewrite list_lookup_fmap.
      * pose proof (div_ceil8_bound (Z.to_nat (rw_quantity w))). lia.
    + by rewrite bool_decide_false, lookup_take_ge by lia.
  - set (words := fun a => to_be_bytes 2 (mem_register m a)).
    assert (Hw : forall a, length (words a) = 2%nat) by (intros; apply length_to_be_bytes).
    apply ok_or_Ok, slice_Some. rewrite (length_concat_fixed words 2), length_addresses by done.
    split; [lia|]. split; [lia|]. rewrite (concat_fixed_drop words 2) by done.
    rewrite <- Nat.mul_sub_distr_r.
    replace (Z.to_nat (rp_offset p - rw_offset w + rp_quantity p) -
             Z.to_nat (rp_offset p - rw_offset w))%nat with (Z.to_nat (rp_quantity p)) by lia.
    by rewrite (concat_fixed_take words 2), Hsl by done.
Qed.

(** ** The plan *)

(** The fields of a point have the widths the code gives them. *)
Definition point_width (p : ModbusReadPoint) : Prop :=
  u_ok 16 (rp_offset p) /\ u_ok 16 (rp_quantity p).

Lemma point_width_ok points :
  Forall point_width points ->
  Forall (fun p => rp_quantity p <> 0 /\ point_end p <= 2 ^ 16) points ->
  Forall point_ok points.
Proof.
  intros Hw Hv. apply Forall_lookup. intros i p Hp.
  pose proof (Forall_lookup_1 _ _ _ _ Hw Hp) as [[? ?] [? ?]].
  pose proof (Forall_lookup_1 _ _ _ _ Hv Hp) as [? ?]. unfold point_ok. lia.
Qed.

Lemma plan_windows_ok points ws :
  Forall point_width points -> plan_read_windows points = Ok ws ->
  Forall window_ok ws /\ window_points ws ≡ₚ points.
Proof.
  intros Hw Hplan. unfold plan_read_windows in Hplan. inv_result.
  pose proof (point_width_ok _ Hw (proj1 (check_points_Ok _) Ha)) as Hok.
  destruct (groups_of_points points []) as [Hg Hperm].
  { split; [done | apply NoDup_nil_2]. }
  rewrite app_nil_r in Hperm. fold add_group.
  destruct (add_groups_ok (fold_left add_to_groups points []) []) as [Hwin Hpts].
  - done.
  - by rewrite Hperm.
  - done.
  - done.
  - split; [exact Hwin|]. unfold window_points in Hpts at 2. simpl in Hpts.
    rewrite app_nil_r in Hpts. by rewrite Hpts.
Qed.

(** The planner accepts exactly the points that ask for something inside
    the 16-bit address space, and then every point is in exactly one window: a
    window holds points of its station, function and kind only, contains each
    of them whole, reads no address none of them asks for, and stays within
    the protocol's limit unless it holds one point that exceeds it alone. *)
Theorem plan_partitions_points points :
  Forall point_width points ->
  ((exists ws, plan_read_windows points = Ok ws) <->
   Forall (fun p => rp_quantity p <> 0 /\ point_end p <= 2 ^ 16) points) /\
  forall ws, plan_read_windows points = Ok ws ->
    window_points ws ≡ₚ points /\ Forall window_ok ws.
Proof.
  intros Hw. split.
  - rewrite <- check_points_Ok. unfold plan_read_windows. split.
    + intros [ws H]. by inv_result.
    + intros ->. simpl. by eexists.
  - intros ws Hplan. by destruct (plan_windows_ok points ws Hw Hplan).
Qed.

Definition example_points : list ModbusReadPoint :=
  [ {| rp_mapping_index := 2; rp_station_id := 1; rp_function := 3; rp_offset := 4;
       rp_quantity := 2; rp_is_bit := false |};
    {| rp_mapping_index := 0; rp_station_id := 1; rp_function := 3; rp_offset := 0;
       rp_quantity := 2; rp_is_bit := false |};
    {| rp_mapping_index := 3; rp_station_id := 1; rp_function := 1; rp_offset := 3;
       rp_quantity := 9; rp_is_bit := true |};
    {| rp_mapping_index := 1; rp_station_id := 1; rp_function := 3; rp_offset := 2;
       rp_quantity := 2; rp_is_bit := false |} ].

Lemma example_points_width : Forall point_width example_points.
Proof. repeat constructor; simpl; lia. Qed.

Lemma plan_partitions_points_witness :
  exists ws, plan_read_windows example_points = Ok ws /\ length ws = 2%nat /\
    window_points ws ≡ₚ example_points.
Proof.
  eexists. split; [vm_compute; reflexivity|]. split; [reflexivity|].
  apply (plan_partitions_points example_points example_points_width).
  vm_compute. reflexivity.
Defined.

(** A window is the window of its only point when it reads more than the limit. *)
Lemma window_of_large_point w p :
  window_ok w -> p ∈ rw_points w ->
  rw_quantity w <= read_limit (rw_is_bit w) \/ (rw_offset w = rp_offset p /\ rw_quantity w = rp_quantity p).
Proof.
  intros Hw Hp. destruct (wk_limit w Hw) as [?|[q Hq]]; [by left|]. right. rewrite Hq in Hp.
  apply list_elem_of_singleton in Hp as ->.
  pose proof (wk_points w Hw) as Hpts. rewrite Hq in Hpts. apply Forall_cons_iff in Hpts as [(_ & Ho & He) _].
  destruct (wk_range w Hw) as (_ & Hpos & _). unfold window_end, point_end in *.
  pose proof (wk_tight w Hw (rw_offset w)) as Hfirst. pose proof (wk_tight w Hw (rw_offset w + rw_quantity w - 1)) as Hlast.
  unfold window_end, point_end in *. rewrite Hq, Exists_cons, Exists_nil in Hfirst, Hlast. lia.
Qed.

Lemma planned_window points ws p :
  Forall point_width points -> plan_read_windows points = Ok ws -> p ∈ points ->
  exists w, w ∈ ws /\ p ∈ rw_points w /\ window_ok w /\ point_ok p /\ point_key p = window_key w /\
    rw_offset w <= rp_offset p /\ point_end p <= window_end w.
Proof.
  intros Hw Hplan Hpp. destruct (plan_windows_ok points ws Hw Hplan) as [Hok Hperm].
  assert (Hpo : point_ok p).
  { unfold plan_read_windows in Hplan. inv_result. by apply (Forall_elem _ _ _ (point_width_ok _ Hw (proj1 (check_points_Ok _) Ha))). }
  pose proof Hpp as Hp. rewrite <- Hperm in Hp. apply list_elem_of_In, in_concat in Hp as (ps & Hps & Hin).
  apply list_elem_of_In, list_elem_of_fmap in Hps as (w & -> & Hws). apply list_elem_of_In in Hin.
  pose proof (Forall_elem _ _ _ Hok Hws) as Hwk. exists w. split_and!; [done..| | |];
  by destruct (Forall_elem _ _ _ (wk_points _ Hwk) Hin) as (Hk & Ho & He).
Qed.

(** [C19] Batching is invisible on every bus: each point of the plan is in a window,
    and where its station answers a read of the point alone, the same station answers
    the read of the window with the same function, and cutting the point out of that
    answer yields the bytes of the point's own read; where the station refuses the
    read of the point, because it is larger than one request allows, it refuses that
    of the window. *)
Theorem batched_read_equals_direct_read (bus : Bus) points ws :
  Forall point_width points -> plan_read_windows points = Ok ws ->
  forall p, p ∈ points -> exists w, w ∈ ws /\ p ∈ rw_points w /\
    let batched := station_read bus (rw_station_id w) (rw_function w) (rw_is_bit w) (rw_offset w) (rw_quantity w) in
    match station_read bus (rp_station_id p) (rp_function p) (rp_is_bit p) (rp_offset p) (rp_quantity p) with
    | Some direct => exists payload, batched = Some payload /\ extract_point_payload w p payload = Ok direct
    | None => batched = None
    end.
Proof.
  intros Hw Hplan p Hp. destruct (planned_window points ws p Hw Hplan Hp) as (w & Hws & Hin & Hok & (Hp0 & Hpq & Hpe) & Hk & Ho & He).
  exists w. split; [done|]. split; [done|]. injection Hk as Hst Hfn Hbit.
  pose proof (window_of_large_point w p Hok Hin) as Hlimit. destruct (wk_range w Hok) as (Hw0 & Hwq & Hwe).
  unfold read_limit, MAX_BIT_READ_QUANTITY, MAX_REGISTER_READ_QUANTITY in Hlimit.
  cbn zeta. unfold station_read. rewrite Hst, Hfn, Hbit in *. unfold window_end, point_end in *.
  rewrite !(proj2 (Z.ltb_lt _ _)), !(proj2 (Z.leb_le 0 _)), !(proj2 (Z.leb_le _ 65536)), !andb_true_r by lia. cbn [andb].
  destruct (Z.leb_spec (rp_quantity p) (if rw_is_bit w then 2000 else 125)) as [Hq|Hq].
  - rewrite (proj2 (Z.leb_le _ _)) by (destruct (rw_is_bit w); lia). eexists. split; [done|]. rewrite <- Hbit.
    replace (device_read (bus (rw_station_id w) (rw_function w)) (rp_is_bit p) (rw_offset w) (rw_quantity w)) with
      (device_read (bus (rw_station_id w) (rw_function w)) (rw_is_bit w) (rw_offset w) (rw_quantity w)) by by rewrite Hbit.
    apply extract_spec; [done | done | unfold point_end, window_end; lia | lia].
  - rewrite (proj2 (Z.leb_gt _ _)) by (destruct (rw_is_bit w); lia). done.
Qed.

Lemma batched_read_equals_direct_read_witness :
  exists ws w p, plan_read_windows example_points = Ok ws /\ w ∈ ws /\ p ∈ rw_points w /\
    rp_mapping_index p = 2 /\ rw_quantity w = 6 /\
    exists payload, station_read (fun station _ => {| mem_register := fun a => a + station; mem_bit := fun _ => true |})
      1 3 false (rw_offset w) 6 = Some payload /\ extract_point_payload w p payload = Ok [0; 5; 0; 6].
Proof.
  eexists. pose proof (batched_read_equals_direct_read
    (fun station _ => {| mem_register := fun a => a + station; mem_bit := fun _ => true |}) example_points _
    example_points_width ltac:(vm_compute; reflexivity)
    {| rp_mapping_index := 2; rp_station_id := 1; rp_function := 3; rp_offset := 4;
       rp_quantity := 2; rp_is_bit := false |} ltac:(left)) as (w & Hw & Hp & Heq).
  exists w. eexists. split; [vm_compute; reflexivity|]. split; [exact Hw|].
  split; [exact Hp|]. split; [reflexivity|].
  apply elem_of_cons in Hw as [->|Hw].
  - split; [reflexivity|]. exact Heq.
  - exfalso. apply list_elem_of_singleton in Hw as ->. apply list_elem_of_singleton in Hp. discriminate.
Defined.

Lemma copy_bits_short payload ro k n acc :
  (0 < n)%nat -> (length payload <= (ro + (k + n - 1)) / 8)%nat ->
  exists msg, copy_bits payload ro (seq k n) acc = Err msg.
Proof.
  revert k acc. induction n as [|n IH]; intros k acc Hn Hlast; [lia|]. cbn [seq copy_bits].
  case_bool_decide as Hd; [by eexists|]. destruct n as [|n].
  - exfalso. apply Hd. by replace (ro + k)%nat with (ro + (k + 1 - 1))%nat by lia.
  - apply IH; [lia|]. by replace (S k + S n - 1)%nat with (k + S (S n) - 1)%nat by lia.
Qed.

(** A response that is too short for the point it should contain is an
    error, never a truncated value: a register extraction that succeeds returns
    two bytes per register, and a payload that ends before the last bit or
    register of the point is refused. *)
Theorem short_response_is_refused w p payload :
  point_width p -> 0 < rp_quantity p -> rw_offset w <= rp_offset p ->
  point_end p <= window_end w ->
  Z.of_nat (length payload) <
    (if rw_is_bit w then (rp_offset p - rw_offset w + rp_quantity p - 1) / 8 + 1
     else 2 * (rp_offset p - rw_offset w + rp_quantity p)) ->
  exists msg, extract_point_payload w p payload = Err msg.
Proof.
  intros Hp Hq Ho He Hlen. unfold point_end, window_end in *.
  unfold extract_point_payload, checked_sub.
  rewrite (proj2 (Z.leb_le _ _)) by lia. simpl. rewrite (proj2 (Z.ltb_ge _ _)) by lia.
  destruct (rw_is_bit w).
  - set (ro := Z.to_nat (rp_offset p - rw_offset w)). set (n := Z.to_nat (rp_quantity p)).
    assert (Hlast : (length payload <= (ro + (0 + n - 1)) / 8)%nat).
    { replace (rp_offset p - rw_offset w + rp_quantity p - 1) with (Z.of_nat (ro + (0 + n - 1)))
        in Hlen by lia.
      rewrite <- (Nat2Z.inj_div _ 8) in Hlen. lia. }
    apply copy_bits_short; [lia | exact Hlast].
  - unfold slice. rewrite (bool_decide_true (_ <= _)%nat) by lia.
    rewrite bool_decide_false by lia. by eexists.
Qed.

Lemma short_response_is_refused_witness :
  exists msg, extract_point_payload
    (new_window {| rp_mapping_index := 2; rp_station_id := 1; rp_function := 3; rp_offset := 4;
       rp_quantity := 2; rp_is_bit := false |})
    {| rp_mapping_index := 2; rp_station_id := 1; rp_function := 3; rp_offset := 4;
       rp_quantity := 2; rp_is_bit := false |} [0; 5; 0] = Err msg.
Proof.
  apply (short_response_is_refused _ {| rp_mapping_index := 2; rp_station_id := 1;
    rp_function := 3; rp_offset := 4; rp_quantity := 2; rp_is_bit := false |} [0; 5; 0]);
    vm_compute; repeat split; congruence.
Defined.
