(* ===== verification/ModbusCodec.v ===== *)
(** Modbus register values, [crates/edge-runtime/src/modbus_codec.rs]: how a
    telemetry value of a point becomes registers and back, with the point's
    encoding, byte and word order and its engineering transform. *)

From Stdlib Require Import ZArith Lia SpecFloat.
From S2P Require Import Prelude RustStr Floats Model ConfigTypes ConfigParse.

Open Scope Z_scope.

(** ** Encoding of a point *)

Definition effective_encoding (value_type : TelemetryType) (address : PointAddress)
    : Result ModbusRegisterEncoding :=
  let encoding :=
    default (match value_type with
             | Ty_Float => F32
             | Ty_Integer | Ty_Boolean | Ty_Text => U16
             end)
      (addr_modbus address ≫= mb_encoding) in
  match value_type with
  | Ty_Float =>
      if negb (encoding_is_float encoding)
      then bail "float Modbus points require f32 or f64 register encoding" else Ok encoding
  | Ty_Integer =>
      if negb (encoding_is_integer encoding)
      then bail "integer Modbus points require an integer register encoding" else Ok encoding
  | Ty_Boolean | Ty_Text => Ok encoding
  end.

Definition modbus_quantity (is_bit_function : bool) (value_type : TelemetryType)
    (address : PointAddress) : Result Z :=
  if is_bit_function then
    ensure (bool_decide (value_type = Ty_Boolean))
      "Modbus bit points must use boolean telemetry type";;
    match addr_modbus address with
    | Some _ =>
        bail "Modbus coil and discrete input points cannot define register decoding options"
    | None => Ok 1
    end
  else
    match addr_modbus address ≫= mb_bit_index with
    | Some _ => Ok 1
    | None => encoding ← effective_encoding value_type address; Ok (register_count encoding)
    end.

(** ** Registers as numbers *)

Definition require_registers (registers : list Z) (count : nat) : Result () :=
  ensure (bool_decide (count <= length registers)%nat)
    ("configured Modbus encoding requires " ++ show_Z (Z.of_nat count) ++ " registers").

Definition registers_to_u64 (registers : list Z) (count : nat) : Result Z :=
  require_registers registers count;;
  Ok (fold_left (fun value register => Z.lor (wrap 64 (Z.shiftl value 16)) register)
        (take count registers) 0).

Definition decode_float (encoding : ModbusRegisterEncoding) (registers : list Z) : Result f64 :=
  match encoding with
  | F32 =>
      require_registers registers 2;;
      value ← registers_to_u64 registers 2;
      Ok (f64_of_f32 (f32_from_bits (wrap 32 value)))
  | F64 =>
      require_registers registers 4;;
      value ← registers_to_u64 registers 4;
      Ok (f64_from_bits value)
  | _ => bail "configured Modbus encoding is not floating point"
  end.

Definition decode_integer (encoding : ModbusRegisterEncoding) (registers : list Z) : Result Z :=
  value ← registers_to_u64 registers (Z.to_nat (register_count encoding));
  match encoding with
  | U16 => Ok (wrap 16 value)
  | I16 => Ok (signed 16 (wrap 16 value))
  | U32 => Ok (wrap 32 value)
  | I32 => Ok (signed 32 (wrap 32 value))
  | U64 => Ok value
  | I64 => Ok (signed 64 value)
  | F32 | F64 => bail "configured Modbus encoding is not an integer"
  end.

(** ** The engineering transform *)

Definition apply_transform (raw : f64) (options : ModbusPointOptions) : Result f64 :=
  let value := f64_mul_add raw (mb_scale options) (mb_offset options) in
  ensure (is_finite value) "Modbus scale and offset produced a non-finite value";;
  Ok value.

Definition remove_transform (value : f64) (options : ModbusPointOptions) : Result f64 :=
  ensure (negb (negb (is_finite value) || negb (is_finite (mb_scale options))
                || f64_eq (mb_scale options) f64_zero))
    "Modbus write transform requires finite values and a non-zero scale";;
  let raw := f64_div (f64_sub value (mb_offset options)) (mb_scale options) in
  ensure (is_finite raw) "Modbus write transform produced a non-finite raw value";;
  Ok raw.

(** [(lo as f64..=hi as f64).contains(&value)]. *)
Definition in_f64_range (lo hi : Z) (value : f64) : bool :=
  f64_le (f64_of_Z lo) value && f64_le value (f64_of_Z hi).

(** ** Decoding *)

(** The registers of a payload in the point's byte order. *)
Definition payload_registers (order : ModbusByteOrder) (payload : bytes) : list Z :=
  (fun chunk =>
     match order with
     | BigEndian => from_be_bytes [fst chunk; snd chunk]
     | LittleEndian => from_le_bytes [fst chunk; snd chunk]
     end) <$> chunks2 payload.

Definition in_word_order (order : ModbusWordOrder) (registers : list Z) : list Z :=
  match order with
  | LowWordFirst => reverse registers
  | HighWordFirst => registers
  end.

(** [register & (1_u16 << bit_index) != 0]; shifting a [u16] by sixteen or more
    is an arithmetic overflow, which the overflow checks turn into a panic. *)
Definition register_bit (register bit_index : Z) : Result bool :=
  if bit_index <? 16 then Ok (Z.testbit register bit_index)
  else Panic "attempt to shift left with overflow".

Definition options_of (address : PointAddress) : ModbusPointOptions :=
  default default_modbus_options (addr_modbus address).

Definition decode_modbus_value (is_bit_function : bool) (value_type : TelemetryType)
    (address : PointAddress) (payload : bytes) : Result TelemetryValue :=
  if is_bit_function then
    byte ← ok_or (head payload) "Modbus bit response payload is empty";
    Ok (VBoolean (negb (Z.land byte 1 =? 0)))
  else
    ensure (negb (negb (Nat.even (length payload)) || bool_decide (payload = [])))
      "Modbus register response must contain complete registers";;
    let options := options_of address in
    let registers := payload_registers (mb_byte_order options) payload in
    match mb_bit_index options with
    | Some bit_index =>
        register ← ok_or (head registers) "Modbus bit field register is missing";
        bit ← register_bit register bit_index;
        Ok (VBoolean bit)
    | None =>
        let registers := in_word_order (mb_word_order options) registers in
        match value_type with
        | Ty_Float =>
            encoding ← effective_encoding value_type address;
            raw ← decode_float encoding registers;
            value ← apply_transform raw options;
            Ok (VFloat value)
        | Ty_Integer =>
            encoding ← effective_encoding value_type address;
            raw ← decode_integer encoding registers;
            value ← apply_transform (f64_of_Z raw) options;
            ensure (f64_eq (f64_fract value) f64_zero)
              "Modbus integer transform produced a fractional value; configure the point as float";;
            ensure (in_f64_range (i_min 64) (i_max 64) value)
              "Modbus integer transform exceeds i64 range";;
            Ok (VInteger (f64_as_i64 value))
        | Ty_Boolean =>
            register ← expect (head registers) "index out of bounds";
            Ok (VBoolean (negb (register =? 0)))
        | Ty_Text =>
            register ← expect (head registers) "index out of bounds";
            Ok (VText (show_Z register))
        end
    end.

(** ** Encoding *)

(** The [checked!] macro of [encode_integer] at an [8 n]-bit type. *)
Definition checked_bytes (n : nat) (lo hi : Z) (value : f64) : Result bytes :=
  ensure (in_f64_range lo hi value)
    "Modbus integer write value is outside the configured encoding range";;
  Ok (to_be_bytes n (wrap (8 * Z.of_nat n) (f64_as_int lo hi value))).

Definition encode_integer (encoding : ModbusRegisterEncoding) (value : f64) : Result bytes :=
  ensure (f64_eq (f64_fract value) f64_zero)
    "Modbus integer write transform must produce a whole raw value";;
  match encoding with
  | U16 => checked_bytes 2 0 (u_max 16) value
  | I16 => checked_bytes 2 (i_min 16) (i_max 16) value
  | U32 => checked_bytes 4 0 (u_max 32) value
  | I32 => checked_bytes 4 (i_min 32) (i_max 32) value
  | U64 => checked_bytes 8 0 (u_max 64) value
  | I64 => checked_bytes 8 (i_min 64) (i_max 64) value
  | F32 | F64 => bail "integer Modbus points require an integer register encoding"
  end.

(** [value.swap_bytes()] on a [u16]. *)
Definition swap_bytes (value : Z) : Z := from_le_bytes (to_be_bytes 2 value).

Definition bytes_registers (order : ModbusByteOrder) (l : bytes) : list Z :=
  (fun chunk =>
     let value := from_be_bytes [fst chunk; snd chunk] in
     match order with
     | BigEndian => value
     | LittleEndian => swap_bytes value
     end) <$> chunks2 l.

(** The bytes of the value, before the byte and word order apply. *)
Definition value_bytes (value_type : TelemetryType) (encoding : ModbusRegisterEncoding)
    (options : ModbusPointOptions) (value : TelemetryValue) : Result bytes :=
  match value_type, value with
  | Ty_Float, VFloat value =>
      raw ← remove_transform value options;
      match encoding with
      | F32 =>
          let value := f32_of_f64 raw in
          ensure (is_finite value) "Modbus f32 write value is outside the finite f32 range";;
          Ok (to_be_bytes 4 (f32_to_bits value))
      | F64 => Ok (to_be_bytes 8 (f64_to_bits raw))
      | _ => bail "float Modbus points require f32 or f64 register encoding"
      end
  | Ty_Integer, VInteger value =>
      raw ← remove_transform (f64_of_Z value) options;
      encode_integer encoding raw
  | Ty_Boolean, VBoolean value => Ok (to_be_bytes 2 (Z.b2z value))
  | Ty_Text, _ => bail "Modbus text writes are not supported"
  | _, _ => bail "Modbus write value does not match the configured point type"
  end.

Definition encode_modbus_register_values (value_type : TelemetryType) (address : PointAddress)
    (value : TelemetryValue) : Result (list Z) :=
  let options := options_of address in
  match mb_bit_index options with
  | Some _ => bail "Modbus register bit writes require an atomic mask-write operation"
  | None =>
      encoding ← effective_encoding value_type address;
      l ← value_bytes value_type encoding options value;
      Ok (in_word_order (mb_word_order options) (bytes_registers (mb_byte_order options) l))
  end.

(** The registers as the protocol carries them: each in big-endian order. *)
Definition wire (registers : list Z) : bytes := concat (to_be_bytes 2 <$> registers).

(** ** Registers, bytes and the wire *)

(** The big-endian words of a byte string. *)
Definition words (l : bytes) : list Z := (fun c => from_be_bytes [fst c; snd c]) <$> chunks2 l.

(** Induction on byte strings of even length. *)
Lemma even_ind {A} (P : list A -> Prop) :
  P [] -> (forall a b l, P l -> P (a :: b :: l)) -> forall l, Nat.even (length l) = true -> P l.
Proof.
  intros H0 H2 l. assert (Hn : exists n, (length l <= n)%nat) by by exists (length l).
  destruct Hn as [n Hn]. revert l Hn. induction n as [|n IH]; intros [|a [|b l]] Hn He;
    simpl in *; try done || lia. apply H2, IH; [lia | done].
Qed.

Definition read_order (order : ModbusByteOrder) (register : Z) : Z :=
  match order with
  | BigEndian => from_be_bytes (to_be_bytes 2 register)
  | LittleEndian => from_le_bytes (to_be_bytes 2 register)
  end.

Lemma payload_registers_wire order registers :
  payload_registers order (wire registers) = read_order order <$> registers.
Proof.
  unfold payload_registers, wire. induction registers as [|r registers IH]; [done|].
  cbn [fmap list_fmap concat]. rewrite <- IH. by destruct order.
Qed.

Lemma in_word_order_fmap order (f : Z -> Z) registers :
  in_word_order order (f <$> in_word_order order registers) = f <$> registers.
Proof. destruct order; simpl; [done|]. by rewrite fmap_reverse, reverse_involutive. Qed.

Lemma be_pair a b : byte_ok a -> byte_ok b -> to_be_bytes 2 (from_be_bytes [a; b]) = [a; b].
Proof. intros. apply (to_be_from_be [a; b]). bytes_tac. Qed.

Lemma read_written_order order a b :
  byte_ok a -> byte_ok b ->
  read_order order (match order with
                    | BigEndian => from_be_bytes [a; b]
                    | LittleEndian => swap_bytes (from_be_bytes [a; b])
                    end) = from_be_bytes [a; b].
Proof.
  intros Ha Hb. destruct order; unfold read_order; [by rewrite be_pair|].
  unfold swap_bytes. rewrite be_pair by done.
  pose proof (to_le_from_le [a; b] ltac:(bytes_tac)) as E. change (length [a; b]) with 2%nat in E.
  unfold to_be_bytes. rewrite E. done.
Qed.

Lemma read_bytes_registers order l :
  bytes_ok l -> Nat.even (length l) = true -> read_order order <$> bytes_registers order l = words l.
Proof.
  intros Hok He. revert Hok. pattern l. apply even_ind; [done | | done].
  clear. intros a b l IH [Ha [Hb Hl]%Forall_cons_iff]%Forall_cons_iff.
  unfold bytes_registers, words. cbn [chunks2]. rewrite !fmap_cons. f_equal.
  - by apply read_written_order.
  - by apply IH.
Qed.

(** Writing the bytes of a value as registers and reading them back gives the
    value's words, whatever the byte and word order. *)
Lemma registers_roundtrip byte_order word_order l :
  bytes_ok l -> Nat.even (length l) = true ->
  in_word_order word_order (payload_registers byte_order
    (wire (in_word_order word_order (bytes_registers byte_order l)))) = words l.
Proof.
  intros. by rewrite payload_registers_wire, in_word_order_fmap, read_bytes_registers.
Qed.

Lemma from_be_bytes_cons b l :
  from_be_bytes (b :: l) = b * 256 ^ Z.of_nat (length l) + from_be_bytes l.
Proof.
  unfold from_be_bytes. rewrite reverse_cons. rewrite <- (length_reverse l).
  generalize (reverse l). clear l. intros l. induction l as [|c l IH]; [simpl; lia|].
  rewrite length_cons, Nat2Z.inj_succ, Z.pow_succ_r by lia. simpl. rewrite IH. lia.
Qed.

Lemma fold_words l acc :
  Nat.even (length l) = true -> bytes_ok l -> 0 <= acc -> (acc + 1) * 256 ^ Z.of_nat (length l) <= 2 ^ 64 ->
  fold_left (fun value register => Z.lor (wrap 64 (Z.shiftl value 16)) register) (words l) acc =
  acc * 256 ^ Z.of_nat (length l) + from_be_bytes l.
Proof.
  intros He. revert acc. pattern l. apply even_ind; [|clear l He|done].
  { intros acc. simpl. unfold from_be_bytes. simpl. lia. }
  intros a b l IH acc [Ha [Hb Hl]%Forall_cons_iff]%Forall_cons_iff Hacc Hlt.
  assert (Hr : 0 <= from_be_bytes [a; b] < 2 ^ 16).
  { apply (from_be_bytes_bound [a; b]). bytes_tac. }
  rewrite !length_cons, !Nat2Z.inj_succ, !Z.pow_succ_r in * by lia.
  set (p := 256 ^ Z.of_nat (length l)) in *.
  assert (Hp : 1 <= p) by (unfold p; lia).
  unfold words. cbn [chunks2]. rewrite fmap_cons. cbn [fold_left fst snd].
  fold (words l). rewrite Z.shiftl_mul_pow2 by lia.
  rewrite wrap_small by (unfold u_ok; nia). rewrite lor_shifted by lia.
  rewrite IH by (done || nia). fold p.
  assert (Hab : from_be_bytes [a; b] = a * 256 + b) by (unfold from_be_bytes; simpl; lia).
  rewrite Hab, (from_be_bytes_cons a), (from_be_bytes_cons b).
  rewrite length_cons, Nat2Z.inj_succ, Z.pow_succ_r by lia. fold p. lia.
Qed.

Lemma length_words l n : length l = (2 * n)%nat -> length (words l) = n.
Proof. intros. unfold words. rewrite length_fmap. by apply length_chunks2. Qed.

Lemma registers_to_u64_words l n :
  length l = (2 * n)%nat -> (n <= 4)%nat -> bytes_ok l ->
  registers_to_u64 (words l) n = Ok (from_be_bytes l).
Proof.
  intros Hlen Hn Hok. unfold registers_to_u64, require_registers.
  rewrite (length_words l n), bool_decide_true by done. simpl. f_equal.
  rewrite take_ge by by rewrite (length_words l n).
  rewrite fold_words; [lia | by rewrite Hlen, Nat.even_mul | done | lia|].
  rewrite Hlen. rewrite Z.mul_1_l. change (2 ^ 64) with (256 ^ 8). apply Z.pow_le_mono_r; lia.
Qed.

(** ** Round trips *)

Definition identity_transform (address : PointAddress) : Prop :=
  mb_scale (options_of address) = f64_one /\ mb_offset (options_of address) = f64_zero /\
  mb_bit_index (options_of address) = None.

Lemma remove_identity x options :
  mb_scale options = f64_one -> mb_offset options = f64_zero ->
  f64_valid x -> is_finite x = true -> x <> S754_zero true ->
  remove_transform x options = Ok x.
Proof.
  intros Hs Ho Hv Hf Hz. unfold remove_transform. rewrite Hs, Ho, Hf. simpl negb.
  change (f64_eq f64_one f64_zero) with false. simpl.
  by rewrite f64_sub_zero, f64_div_one, Hf.
Qed.

Lemma apply_identity x options :
  mb_scale options = f64_one -> mb_offset options = f64_zero ->
  f64_valid x -> is_finite x = true -> x <> S754_zero true ->
  apply_transform x options = Ok x.
Proof.
  intros Hs Ho Hv Hf Hz. unfold apply_transform. rewrite Hs, Ho.
  by rewrite f64_mul_add_one, Hf.
Qed.

Definition encoding_range (e : ModbusRegisterEncoding) : Z * Z :=
  match e with
  | U16 => (0, u_max 16)
  | I16 => (i_min 16, i_max 16)
  | U32 => (0, u_max 32)
  | I32 => (i_min 32, i_max 32)
  | U64 => (0, u_max 64)
  | I64 => (i_min 64, i_max 64)
  | F32 | F64 => (0, -1)
  end.

Lemma checked_bytes_exact n lo hi v :
  lo <= v <= hi -> Z.abs v < 2 ^ 53 -> in_f64_range lo hi (f64_of_Z v) = true ->
  checked_bytes n lo hi (f64_of_Z v) = Ok (to_be_bytes n (wrap (8 * Z.of_nat n) v)).
Proof.
  intros Hr Hv Hin. unfold checked_bytes. rewrite Hin. simpl.
  by rewrite f64_as_int_of_Z by lia.
Qed.

Lemma encoding_range_f64 e v :
  fst (encoding_range e) <= v <= snd (encoding_range e) -> Z.abs v < 2 ^ 53 ->
  in_f64_range (fst (encoding_range e)) (snd (encoding_range e)) (f64_of_Z v) = true.
Proof.
  intros Hr Hv. destruct (f64_in_i64 v Hv) as (Hlo & Hhi & Hu). unfold in_f64_range.
  destruct e; cbn [encoding_range fst snd] in *; unfold u_max, i_min, i_max in *;
    try lia; first
    [ rewrite Hlo, Hhi; done
    | rewrite Hu, f64_le_of_Z, andb_true_r by lia; apply Z.leb_le; lia
    | rewrite !f64_le_of_Z, andb_true_iff by lia; split; apply Z.leb_le; lia ].
Qed.

Lemma words_u64 n v :
  (n <= 4)%nat -> registers_to_u64 (words (to_be_bytes (2 * n) (wrap (16 * Z.of_nat n) v))) n =
  Ok (wrap (16 * Z.of_nat n) v).
Proof.
  intros Hn. rewrite registers_to_u64_words; [|apply length_to_be_bytes | done | apply to_be_bytes_ok].
  rewrite from_be_to_be; [done|]. change 256 with (2 ^ 8). rewrite <- Z.pow_mul_r by lia.
  replace (8 * Z.of_nat (2 * n)) with (16 * Z.of_nat n) by lia. apply wrap_ok. lia.
Qed.

(** The raw integer survives: the bytes [encode_integer] produces decode to it. *)
Lemma encode_decode_integer e v :
  fst (encoding_range e) <= v <= snd (encoding_range e) -> Z.abs v < 2 ^ 53 ->
  exists l, encode_integer e (f64_of_Z v) = Ok l /\ bytes_ok l /\
    length l = (2 * Z.to_nat (register_count e))%nat /\ decode_integer e (words l) = Ok v.
Proof.
  intros Hr Hv. unfold encode_integer. rewrite f64_fract_of_Z by done.
  change (f64_eq f64_zero f64_zero) with true. cbn [ensure mbind Result_bind].
  pose proof (encoding_range_f64 e v Hr Hv) as Hf.
  pose proof (words_u64 1 v ltac:(lia)) as H1. pose proof (words_u64 2 v ltac:(lia)) as H2.
  pose proof (words_u64 4 v ltac:(lia)) as H4. unfold decode_integer.
  change (2 * 1)%nat with 2%nat in H1. change (2 * 2)%nat with 4%nat in H2.
  change (2 * 4)%nat with 8%nat in H4. change (16 * Z.of_nat 1) with 16 in H1.
  change (16 * Z.of_nat 2) with 32 in H2. change (16 * Z.of_nat 4) with 64 in H4.
  destruct e; cbn [encoding_range fst snd] in *; try lia;
    (eexists; split; [by apply checked_bytes_exact|]);
    (split; [apply to_be_bytes_ok|]); (split; [apply length_to_be_bytes|]);
    cbn [register_count].
  all: first [ change (Z.to_nat 1) with 1%nat; change (8 * Z.of_nat 2) with 16; rewrite H1
          | change (Z.to_nat 2) with 2%nat; change (8 * Z.of_nat 4) with 32; rewrite H2
          | change (Z.to_nat 4) with 4%nat; change (8 * Z.of_nat 8) with 64; rewrite H4 ].
  all: cbn [mbind Result_bind]; f_equal.
  all: unfold u_max, i_min, i_max in Hr; rewrite ?(wrap_small _ (wrap _ _)) by (apply wrap_ok; lia).
  all: first [ apply wrap_small; unfold u_ok; lia | apply signed_wrap; unfold i_ok; lia ].
Qed.

(** Decoding the registers of a written value: what the read path does once
    the byte and word order are undone. *)
Lemma decode_written address l :
  mb_bit_index (options_of address) = None -> bytes_ok l ->
  Nat.even (length l) = true -> l <> [] ->
  let o := options_of address in
  let registers := in_word_order (mb_word_order o) (bytes_registers (mb_byte_order o) l) in
  (ensure (negb (negb (Nat.even (length (wire registers))) || bool_decide (wire registers = [])))
    "Modbus register response must contain complete registers" = Ok ()) /\
  in_word_order (mb_word_order o) (payload_registers (mb_byte_order o) (wire registers)) = words l.
Proof.
  intros Hb Hok He Hne o registers. split; [|by apply registers_roundtrip].
  assert (Hlen : length (wire registers) = (length registers * 2)%nat).
  { unfold wire. induction registers as [|r rs IH]; [done|].
    rewrite fmap_cons, concat_cons, length_app, length_to_be_bytes, IH. simpl. lia. }
  assert (Hne' : registers <> []).
  { destruct l as [|a [|b l]]; [done | done|]. unfold registers, bytes_registers. cbn [chunks2].
    rewrite fmap_cons. destruct (mb_word_order o); simpl; [done|].
    rewrite reverse_cons. by intros [_ ?]%app_eq_nil. }
  apply ensure_Ok. rewrite Hlen, Nat.even_mul, orb_true_r. simpl.
  rewrite bool_decide_false; [done|]. intros Hnil. rewrite Hnil in Hlen. simpl in Hlen.
  destruct registers; [done | simpl in Hlen; lia].
Qed.

Ltac run_decode Hdec Hguard Hregs Hb :=
  unfold decode_modbus_value; rewrite Hguard; cbn [mbind Result_bind]; rewrite Hb;
  cbn [mbind Result_bind]; rewrite Hregs.

(** Writing an integer point and reading it back gives the integer, for
    every integer encoding and every byte and word order, when the point has no
    scaling: the write produces the encoding's number of registers, and the
    read of those registers as the bus carries them decodes to the value. *)
Theorem modbus_integer_roundtrip address e v :
  effective_encoding Ty_Integer address = Ok e -> identity_transform address ->
  fst (encoding_range e) <= v <= snd (encoding_range e) -> Z.abs v < 2 ^ 53 ->
  exists registers, encode_modbus_register_values Ty_Integer address (VInteger v) = Ok registers /\
    Z.of_nat (length registers) = register_count e /\
    decode_modbus_value false Ty_Integer address (wire registers) = Ok (VInteger v).
Proof.
  intros He (Hs & Ho & Hb) Hr Hv. pose proof (f64_of_Z_valid v Hv) as Hval.
  pose proof (is_finite_of_Z v Hv) as Hfin. pose proof (f64_of_Z_not_neg_zero v Hv) as Hnz.
  destruct (encode_decode_integer e v Hr Hv) as (l & Henc & Hok & Hlen & Hdec).
  assert (Hpos : (0 < Z.to_nat (register_count e))%nat) by by destruct e; simpl; lia.
  destruct (decode_written address l Hb Hok) as [Hguard Hregs].
  { by rewrite Hlen, Nat.even_mul. }
  { by destruct l; [simpl in Hlen; lia|]. }
  eexists. split; [|split].
  - unfold encode_modbus_register_values. rewrite Hb, He. cbn [mbind Result_bind value_bytes].
    rewrite remove_identity by done. cbn [mbind Result_bind]. by rewrite Henc.
  - assert (Hl : length (bytes_registers (mb_byte_order (options_of address)) l) =
      Z.to_nat (register_count e)).
    { unfold bytes_registers. rewrite length_fmap. by apply length_chunks2. }
    destruct (mb_word_order (options_of address)); simpl; rewrite ?length_reverse, Hl; destruct e; done.
  - run_decode Hdec Hguard Hregs Hb. rewrite He. cbn [mbind Result_bind]. rewrite Hdec.
    cbn [mbind Result_bind]. rewrite apply_identity by done. cbn [mbind Result_bind].
    rewrite f64_fract_of_Z by done. change (f64_eq f64_zero f64_zero) with true.
    destruct (f64_in_i64 v Hv) as (Hlo & Hhi & _). unfold in_f64_range. rewrite Hlo, Hhi. simpl.
    unfold f64_as_i64. rewrite f64_as_int_of_Z; [done | done | | done].
    unfold i_min, i_max. lia.
Qed.

Definition cdab_address : PointAddress :=
  {| addr_kind := "holding_register"; addr_value := "40001";
     addr_modbus := Some {| mb_encoding := Some I32; mb_byte_order := LittleEndian;
       mb_word_order := LowWordFirst; mb_scale := f64_one; mb_offset := f64_zero;
       mb_bit_index := None |} |}.

Lemma modbus_integer_roundtrip_witness :
  exists registers,
    encode_modbus_register_values Ty_Integer cdab_address (VInteger (-123456)) = Ok registers /\
    Z.of_nat (length registers) = 2 /\
    decode_modbus_value false Ty_Integer cdab_address (wire registers) = Ok (VInteger (-123456)).
Proof.
  apply (modbus_integer_roundtrip cdab_address I32 (-123456)).
  - reflexivity.
  - repeat split.
  - vm_compute. split; discriminate.
  - lia.
Defined.

(** Writing a float point and reading it back gives the same number for
    both float encodings and every byte and word order, when the point has no
    scaling: any finite single-precision number through [F32] registers, any
    finite double through [F64] registers, except that a negative zero is read
    back as zero and is excluded here. *)
Theorem modbus_float_roundtrip address e (x : f64) :
  effective_encoding Ty_Float address = Ok e -> identity_transform address ->
  x <> S754_zero true ->
  (e = F32 /\ exists y, x = f64_of_f32 y /\ f32_valid y /\ is_finite y = true) \/
  (e = F64 /\ f64_valid x /\ is_finite x = true) ->
  exists registers, encode_modbus_register_values Ty_Float address (VFloat x) = Ok registers /\
    decode_modbus_value false Ty_Float address (wire registers) = Ok (VFloat x).
Proof.
  intros He (Hs & Ho & Hb) Hnz Hcase.
  assert (Hx : f64_valid x /\ is_finite x = true).
  { destruct Hcase as [(_ & y & -> & Hv & Hf)|(_ & ?)]; [|done].
    rewrite f64_of_f32_finite by done. split; [by apply f64_of_f32_valid | done]. }
  destruct Hx as [Hval Hfin].
  assert (Hraw : exists l, value_bytes Ty_Float e (options_of address) (VFloat x) = Ok l /\
    bytes_ok l /\ Nat.even (length l) = true /\ l <> [] /\ decode_float e (words l) = Ok x).
  { cbn [value_bytes]. rewrite remove_identity by done. cbn [mbind Result_bind].
    destruct Hcase as [(-> & y & -> & Hv & Hf)|(-> & _)].
    - rewrite f32_of_f64_of_f32, Hf by done. cbn [ensure mbind Result_bind].
      assert (Hy : y <> S754_nan) by by intros ->.
      pose proof (f32_to_bits_range y Hv) as Hrange.
      eexists. split; [done|]. split; [apply to_be_bytes_ok|].
      split; [by rewrite length_to_be_bytes|]. split; [by intros E%(f_equal length); rewrite length_to_be_bytes in E|].
      unfold decode_float, require_registers.
      rewrite (length_words _ 2), registers_to_u64_words by (done || apply to_be_bytes_ok || lia).
      rewrite from_be_to_be by done. simpl. rewrite wrap_small by exact Hrange.
      by rewrite f32_from_to_bits.
    - assert (Hy : x <> S754_nan) by by intros ->. pose proof (f64_to_bits_range x Hval) as Hrange.
      eexists. split; [done|]. split; [apply to_be_bytes_ok|].
      split; [by rewrite length_to_be_bytes|]. split; [by intros E%(f_equal length); rewrite length_to_be_bytes in E|].
      unfold decode_float, require_registers.
      rewrite (length_words _ 4), registers_to_u64_words by (done || apply to_be_bytes_ok || lia).
      rewrite from_be_to_be by done. simpl. by rewrite f64_from_to_bits. }
  destruct Hraw as (l & Henc & Hok & Hev & Hne & Hdec).
  destruct (decode_written address l Hb Hok Hev Hne) as [Hguard Hregs].
  eexists. split.
  - unfold encode_modbus_register_values. rewrite Hb, He. cbn [mbind Result_bind]. by rewrite Henc.
  - run_decode Hdec Hguard Hregs Hb. rewrite He. cbn [mbind Result_bind]. rewrite Hdec.
    cbn [mbind Result_bind]. by rewrite apply_identity.
Qed.

Definition float_address : PointAddress :=
  {| addr_kind := "holding_register"; addr_value := "40001"; addr_modbus := None |}.

Lemma modbus_float_roundtrip_witness :
  exists registers,
    encode_modbus_register_values Ty_Float float_address (VFloat (f64_of_Z 123)) = Ok registers /\
    decode_modbus_value false Ty_Float float_address (wire registers) = Ok (VFloat (f64_of_Z 123)).
Proof.
  apply (modbus_float_roundtrip float_address F32 (f64_of_Z 123)).
  - reflexivity.
  - repeat split.
  - discriminate.
  - left. split; [reflexivity|]. exists (f32_of_f64 (f64_of_Z 123)). vm_compute. repeat split.
Defined.

Lemma no_panic_effective value_type address : no_panic (effective_encoding value_type address).
Proof. unfold effective_encoding. destruct value_type; simpl; repeat case_bool; done. Qed.

Lemma no_panic_u64 registers n : no_panic (registers_to_u64 registers n).
Proof. unfold registers_to_u64, require_registers. no_panic_tac. Qed.

Lemma no_panic_decode_float e registers : no_panic (decode_float e registers).
Proof.
  destruct e; simpl decode_float; unfold require_registers; no_panic_tac; apply no_panic_u64.
Qed.

Lemma no_panic_decode_integer e registers : no_panic (decode_integer e registers).
Proof. unfold decode_integer. apply no_panic_bind; [apply no_panic_u64|]. by destruct e. Qed.

(** A complete, non-empty payload has a first register. *)
Lemma first_register byte_order word_order payload :
  negb (Nat.even (length payload)) || bool_decide (payload = []) = false ->
  is_Some (head (in_word_order word_order (payload_registers byte_order payload))).
Proof.
  intros H. simp_bool. destruct payload as [|a [|b l]]; [done | done|].
  unfold payload_registers. cbn [chunks2]. rewrite fmap_cons.
  destruct word_order; simpl; [by eexists|]. rewrite reverse_cons. destruct (reverse _); by eexists.
Qed.

Lemma validated_bit_index address value_type access bit :
  validate_modbus_point_options address value_type access = Ok () ->
  mb_bit_index (options_of address) = Some bit -> bit <= 15.
Proof.
  intros Hv Hbit. unfold options_of in Hbit. destruct (addr_modbus address) as [options|] eqn:Ha; [|done].
  simpl in Hbit. unfold validate_modbus_point_options in Hv. rewrite Ha, Hbit in Hv.
  inv_result. unfold validate_bit_index in *. inv_result. simp_bool. lia.
Qed.

(** A point the configuration validator accepts never makes the decoder
    panic: on any payload whatever the decoder returns a value or an error. *)
Theorem validated_decode_never_panics is_bit value_type address access payload :
  validate_modbus_point_options address value_type access = Ok () ->
  no_panic (decode_modbus_value is_bit value_type address payload).
Proof.
  intros Hv. unfold decode_modbus_value. destruct is_bit; [no_panic_tac|].
  no_panic_tac. apply ensure_Ok, negb_true_iff in H. destruct (mb_bit_index (options_of address)) as [bit|] eqn:Hbit.
  - no_panic_tac. unfold register_bit. destruct (Z.ltb_spec bit 16); [done|]. exfalso.
    by apply (validated_bit_index address value_type access bit) in Hbit; [lia|].
  - destruct value_type; no_panic_tac.
    + apply no_panic_effective.
    + apply no_panic_decode_float.
    + unfold apply_transform. no_panic_tac.
    + apply no_panic_effective.
    + apply no_panic_decode_integer.
    + unfold apply_transform. no_panic_tac.
    + by apply no_panic_expect, first_register.
    + by apply no_panic_expect, first_register.
Qed.

Lemma validated_decode_never_panics_witness :
  no_panic (decode_modbus_value false Ty_Boolean
    {| addr_kind := "holding_register"; addr_value := "40001";
       addr_modbus := Some {| mb_encoding := None; mb_byte_order := BigEndian;
         mb_word_order := HighWordFirst; mb_scale := f64_one; mb_offset := f64_zero;
         mb_bit_index := Some 15 |} |} [128; 0]).
Proof. apply (validated_decode_never_panics _ _ _ ReadOnly). vm_compute. reflexivity. Defined.

(** The range check of [encode_integer] compares with [u64::MAX as f64], which
    is [2^64]: a raw value of exactly [2^64] passes and saturates, so that
    writing [i64::MAX] to a point scaled by one half stores [2^64 - 1] instead
    of being refused. *)
Example encode_u64_saturates :
  encode_modbus_register_values Ty_Integer
    {| addr_kind := "holding_register"; addr_value := "40001";
       addr_modbus := Some {| mb_encoding := Some U64; mb_byte_order := BigEndian;
         mb_word_order := HighWordFirst; mb_scale := f64_div f64_one (f64_of_Z 2);
         mb_offset := f64_zero; mb_bit_index := None |} |} (VInteger (i_max 64)) =
  Ok [65535; 65535; 65535; 65535].
Proof. vm_compute. reflexivity. Qed.
