(* ===== verification/SerialBus.v ===== *)
(** Serial buses, [crates/edge-runtime/src/serial.rs].

    The trait [SerialBus] is the class of the same name: one request, one
    response, over a state.  [ScriptedSerialBus] and [TokioSerialBus] are its
    two instances; the port of the latter is a script of the outcomes of its
    [read] calls, each of which either delivers bytes, ends the stream, fails
    or outlasts the idle timeout. *)

From Stdlib Require Import ZArith Lia.
From S2P Require Import Prelude RustStr Floats Model ConfigTypes.

Open Scope Z_scope.

Class SerialBus (B : Type) := transact : bytes -> M B bytes.

(** ** The scripted bus *)

(** [ScriptedSerialBusState]: the responses are kept in reverse order and
    popped from the end. *)
Record ScriptedSerialBus := {
  bus_responses : list bytes;
  bus_requests : list bytes;
}.

Definition new_scripted_bus (responses : list bytes) : ScriptedSerialBus :=
  {| bus_responses := reverse responses; bus_requests := [] |}.

#[export] Instance scripted_transact : SerialBus ScriptedSerialBus := fun request bus =>
  let requests := bus_requests bus ++ [request] in
  match list.last (bus_responses bus) with
  | Some response =>
      ({| bus_responses := removelast (bus_responses bus); bus_requests := requests |},
       Ok response)
  | None =>
      ({| bus_responses := bus_responses bus; bus_requests := requests |},
       Err "scripted serial bus has no response left")
  end.

(** ** The serial port *)

Inductive PortRead :=
| ReadBytes (chunk : bytes)
| ReadEnd
| ReadError
| ReadIdle.

Record TokioSerialBus := {
  port_write_ok : bool;
  port_flush_ok : bool;
  port_reads : list PortRead;
  port_written : list bytes;
  port_max_response_bytes : Z;
}.

(** The read loop; a port that has nothing more to deliver idles. *)
Fixpoint read_response (max : Z) (reads : list PortRead) (response : bytes)
    : list PortRead * Result bytes :=
  match reads with
  | [] => ([], if bool_decide (response = []) then bail "serial response timed out" else Ok response)
  | ReadEnd :: rest => (rest, Ok response)
  | ReadBytes chunk :: rest =>
      let response := response ++ chunk in
      if max <? Z.of_nat (length response)
      then (rest, bail "serial response exceeded maximum frame size")
      else read_response max rest response
  | ReadError :: rest => (rest, bail "failed to read serial response")
  | ReadIdle :: rest =>
      (rest, if bool_decide (response = []) then bail "serial response timed out" else Ok response)
  end.

#[export] Instance tokio_transact : SerialBus TokioSerialBus := fun request bus =>
  if negb (port_write_ok bus) then (bus, bail "failed to write serial request")
  else if negb (port_flush_ok bus) then (bus, bail "failed to flush serial request")
  else
    let '(reads, result) := read_response (port_max_response_bytes bus) (port_reads bus) [] in
    ({| port_write_ok := true; port_flush_ok := true; port_reads := reads;
        port_written := port_written bus ++ [request];
        port_max_response_bytes := port_max_response_bytes bus |}, result).

(** ** Settings *)

Definition require_serial_endpoint (port : option string) : Result string :=
  port ← ok_or port "serial protocol connection requires a port";
  ensure (negb (is_blank port)) "serial protocol connection port cannot be empty";;
  Ok port.

Inductive DataBits := Five | Six | Seven | Eight.
Inductive StopBits := One | Two.
Inductive Parity := NoParity | Even | Odd.

Definition data_bits (value : Z) : Result DataBits :=
  if value =? 5 then Ok Five else if value =? 6 then Ok Six
  else if value =? 7 then Ok Seven else if value =? 8 then Ok Eight
  else Err ("unsupported serial data bits: " ++ show_Z value).

Definition stop_bits (value : Z) : Result StopBits :=
  if value =? 1 then Ok One else if value =? 2 then Ok Two
  else Err ("unsupported serial stop bits: " ++ show_Z value).

Definition parity (value : string) : Result Parity :=
  let lower := str_to_ascii_lowercase value in
  if bool_decide (lower ∈ ["none"; "n"]%string) then Ok NoParity
  else if bool_decide (lower ∈ ["even"; "e"]%string) then Ok Even
  else if bool_decide (lower ∈ ["odd"; "o"]%string) then Ok Odd
  else Err ("unsupported serial parity: " ++ value).

(** The checks of [TokioSerialBusFactory::open] and [TokioSerialBus::open] that
    come before the port is opened. *)
Definition open_checks (connection : ProtocolConnection)
    : Result (SerialConnectionSettings * DataBits * StopBits * Parity) :=
  serial ← ok_or (conn_serial connection) "serial protocol connection requires settings";
  require_serial_endpoint (conn_endpoint connection);;
  d ← data_bits (serial_data_bits serial);
  s ← stop_bits (serial_stop_bits serial);
  p ← parity (serial_parity serial);
  Ok (serial, d, s, p).

(** ** Facts *)

Lemma scripted_transact_first response responses requests request :
  transact request {| bus_responses := reverse (response :: responses); bus_requests := requests |} =
  ({| bus_responses := reverse responses; bus_requests := requests ++ [request] |}, Ok response).
Proof.
  unfold transact, scripted_transact. simpl. by rewrite reverse_cons, last_snoc, removelast_last.
Qed.

(** The bytes of the chunks a port delivers before it stops. *)
Fixpoint delivered (reads : list PortRead) : bytes :=
  match reads with
  | ReadBytes chunk :: rest => chunk ++ delivered rest
  | _ => []
  end.

Lemma read_response_spec max reads acc :
  Z.of_nat (length acc) <= max ->
  match snd (read_response max reads acc) with
  | Ok response => response = acc ++ delivered reads /\ Z.of_nat (length response) <= max
  | Err _ => True
  | Panic _ => False
  end.
Proof.
  revert acc. induction reads as [|[chunk| | |] reads IH]; intros acc Hacc; simpl;
    rewrite ?app_nil_r; try (case_bool_decide; done); try done.
  destruct (Z.ltb_spec max (Z.of_nat (length (acc ++ chunk)))); [done|].
  specialize (IH (acc ++ chunk) ltac:(lia)). destruct (snd _); [|done..].
  by rewrite app_assoc.
Qed.

(** What every bus promises its clients: a transaction returns. *)
Class BusSafe (B : Type) `{SerialBus B} : Prop :=
  transact_safe : forall request bus, no_panic (snd (transact request bus)).

#[export] Instance scripted_safe : BusSafe ScriptedSerialBus.
Proof. intros request bus. unfold transact, scripted_transact. by destruct (list.last _). Qed.

(** Whatever a serial port does, a transaction either fails with an error
    or returns exactly the bytes the port delivered before it went idle or
    closed, and never more than the configured maximum. *)
Theorem serial_response_bounded bus request :
  0 <= port_max_response_bytes bus ->
  match snd (transact request bus) with
  | Ok response => response = delivered (port_reads bus) /\
      Z.of_nat (length response) <= port_max_response_bytes bus
  | Err _ => True
  | Panic _ => False
  end.
Proof.
  intros Hmax. unfold transact, tokio_transact. destruct (port_write_ok bus); [|done].
  destruct (port_flush_ok bus); [|done]. simpl.
  pose proof (read_response_spec (port_max_response_bytes bus) (port_reads bus) []) as H.
  destruct (read_response _ _ []) as [reads r]. by apply H.
Qed.

Definition sample_port : TokioSerialBus :=
  {| port_write_ok := true; port_flush_ok := true;
     port_reads := [ReadBytes [3]; ReadBytes [4; 5]; ReadIdle]; port_written := [];
     port_max_response_bytes := 256 |}.

Lemma serial_response_bounded_witness :
  snd (transact [1; 2] sample_port) = Ok [3; 4; 5] /\
  [3; 4; 5] = delivered (port_reads sample_port) /\ 3 <= port_max_response_bytes sample_port.
Proof.
  split; [reflexivity|]. apply (serial_response_bounded sample_port [1; 2]). simpl. lia.
Defined.

#[export] Instance tokio_safe : BusSafe TokioSerialBus.
Proof.
  intros request bus. unfold transact, tokio_transact. destruct (port_write_ok bus); [|done].
  destruct (port_flush_ok bus); [|done]. simpl.
  generalize (port_reads bus) (@nil Z). intros reads. induction reads as [|[chunk| | |] reads IH];
    intros acc; simpl; try (case_bool_decide; done); try done.
  case_bool; [done | apply IH].
Qed.
