(* ===== verification/CustomSerial.v ===== *)
(** Custom serial frames, [crates/edge-runtime/src/custom_serial.rs]: the
    checksums, the SLIP and COBS framings, the verification of a response, the
    value decoder and the adapter's read loop.

    [serde_json::from_str::<CustomSerialPointSpec>] is the parameter
    [parse_spec] of the adapter; the bus is any instance of [SerialBus]. *)

From Stdlib Require Import ZArith Lia SpecFloat.
From S2P Require Import Prelude RustStr Floats Model ConfigTypes ConfigParse SerialBus.

Open Scope Z_scope.

Definition MAX_RESPONSE_BYTES : Z := 4096.
Definition MAX_FRAMED_RESPONSE_BYTES : Z := 8192.

(** ** Checksums *)

Definition xor8 (l : bytes) : Z := fold_left Z.lxor l 0.

(** One turn of the inner loop of [modbus_crc16]. *)
Definition modbus_crc_bit (crc : Z) : Z :=
  if negb (Z.land crc 1 =? 0) then Z.lxor (Z.shiftr crc 1) 0xA001 else Z.shiftr crc 1.

Definition modbus_crc_byte (crc byte : Z) : Z := Nat.iter 8 modbus_crc_bit (Z.lxor crc byte).
Definition modbus_crc16 (l : bytes) : Z := fold_left modbus_crc_byte l 0xFFFF.

(** One turn of the inner loop of [crc16_ccitt_false]. *)
Definition ccitt_crc_bit (crc : Z) : Z :=
  if negb (Z.land crc 0x8000 =? 0) then Z.lxor (wrap 16 (Z.shiftl crc 1)) 0x1021
  else wrap 16 (Z.shiftl crc 1).

Definition ccitt_crc_byte (crc byte : Z) : Z :=
  Nat.iter 8 ccitt_crc_bit (Z.lxor crc (wrap 16 (Z.shiftl byte 8))).
Definition crc16_ccitt_false (l : bytes) : Z := fold_left ccitt_crc_byte l 0xFFFF.

(** The checksum bytes of a frame. *)
Definition checksum_bytes (checksum : CustomSerialChecksum) (frame : bytes) : bytes :=
  match checksum with
  | Ck_None => []
  | Sum8 => [sum8 frame]
  | Xor8 => [xor8 frame]
  | ModbusCrc16 => to_le_bytes 2 (modbus_crc16 frame)
  | Crc16CcittFalse => to_be_bytes 2 (crc16_ccitt_false frame)
  end.

Definition append_custom_serial_checksum (frame : bytes) (checksum : CustomSerialChecksum) : bytes :=
  frame ++ checksum_bytes checksum frame.

(** ** SLIP *)

Definition slip_end : Z := 0xC0.
Definition slip_esc : Z := 0xDB.
Definition slip_esc_end : Z := 0xDC.
Definition slip_esc_esc : Z := 0xDD.

Definition slip_byte (byte : Z) : bytes :=
  if byte =? slip_end then [slip_esc; slip_esc_end]
  else if byte =? slip_esc then [slip_esc; slip_esc_esc]
  else [byte].

Definition encode_slip (payload : bytes) : bytes :=
  slip_end :: concat (slip_byte <$> payload) ++ [slip_end].

(** The loop over the bytes between the delimiters. *)
Fixpoint slip_loop (l : bytes) : Result bytes :=
  match l with
  | [] => Ok []
  | byte :: rest =>
      if byte =? slip_end then bail "custom serial SLIP frame contains an unescaped 0xC0 byte"
      else if byte =? slip_esc then
        match rest with
        | [] => bail "custom serial SLIP frame ends with an incomplete escape"
        | value :: rest =>
            if value =? slip_esc_end then cons slip_end <$> slip_loop rest
            else if value =? slip_esc_esc then cons slip_esc <$> slip_loop rest
            else Err ("custom serial SLIP frame has invalid escape byte 0x" ++ show_hex 2 value)
        end
      else cons byte <$> slip_loop rest
  end.

Definition decode_slip (frame : bytes) : Result bytes :=
  ensure (negb (bool_decide (length frame < 2)%nat ||
                negb (bool_decide (head frame = Some slip_end)) ||
                negb (bool_decide (list.last frame = Some slip_end))))
    "custom serial SLIP frame must start and end with 0xC0";;
  slip_loop (removelast (tail frame)).

(** ** COBS *)

(** The state of [encode_cobs]: the output, the index of the pending code byte
    and its value. *)
Record CobsEncoder := { cobs_encoded : bytes; code_index : nat; cobs_code : Z }.

Definition cobs_close (s : CobsEncoder) (encoded : bytes) (code : Z) : CobsEncoder :=
  {| cobs_encoded := <[code_index s := code]> encoded ++ [0];
     code_index := length encoded; cobs_code := 1 |}.

Definition cobs_step (s : CobsEncoder) (byte : Z) : CobsEncoder :=
  if byte =? 0 then cobs_close s (cobs_encoded s) (cobs_code s)
  else
    let encoded := cobs_encoded s ++ [byte] in
    let code := wrapping_add8 (cobs_code s) 1 in
    if code =? 0xFF then cobs_close s encoded code
    else {| cobs_encoded := encoded; code_index := code_index s; cobs_code := code |}.

(** [encoded[code_index] = code]. *)
Definition cobs_finish (s : CobsEncoder) : bytes :=
  <[code_index s := cobs_code s]> (cobs_encoded s).

Definition encode_cobs (payload : bytes) : bytes :=
  cobs_finish
    (fold_left cobs_step payload {| cobs_encoded := [0]; code_index := 0; cobs_code := 1 |}) ++ [0].

(** The block loop; every turn moves [index] forward, so the length of the
    frame bounds the turns.  The [checked_add] of the block length cannot
    overflow: the index is at most the length of the frame. *)
Fixpoint cobs_loop (fuel : nat) (encoded : bytes) (index : nat) (decoded : bytes) : Result bytes :=
  match fuel with
  | O => Ok decoded
  | S fuel =>
      match encoded !! index with
      | None => Ok decoded
      | Some code =>
          ensure (negb (code =? 0)) "custom serial COBS frame contains an unexpected 0x00 byte";;
          let index := S index in
          let block_end := (index + Z.to_nat (code - 1))%nat in
          ensure (bool_decide (block_end <= length encoded)%nat)
            "custom serial COBS block exceeds the frame length";;
          let block := take (block_end - index) (drop index encoded) in
          ensure (forallb (fun b => negb (b =? 0)) block)
            "custom serial COBS block contains an unexpected 0x00 byte";;
          let decoded := decoded ++ block in
          cobs_loop fuel encoded block_end
            (if negb (code =? 0xFF) && bool_decide (block_end < length encoded)%nat
             then decoded ++ [0] else decoded)
      end
  end.

Definition decode_cobs (frame : bytes) : Result bytes :=
  ensure (negb (bool_decide (length frame < 2)%nat ||
                negb (bool_decide (list.last frame = Some 0))))
    "custom serial COBS frame must end with a 0x00 delimiter";;
  let encoded := removelast frame in
  ensure (negb (bool_decide (encoded = []))) "custom serial COBS frame is empty";;
  cobs_loop (length encoded) encoded 0 [].

(** ** Frames *)

Definition encode_custom_serial_frame (payload : bytes) (encoding : CustomSerialFrameEncoding)
    : Result bytes :=
  match encoding with
  | Raw => Ok payload
  | Slip => Ok (encode_slip payload)
  | Cobs => Ok (encode_cobs payload)
  end.

Definition decode_custom_serial_frame (frame : bytes) (encoding : CustomSerialFrameEncoding)
    : Result bytes :=
  ensure (Z.of_nat (length frame) <=? MAX_FRAMED_RESPONSE_BYTES)
    "custom serial framed response exceeds the 8192-byte limit";;
  payload ← match encoding with
            | Raw => Ok frame
            | Slip => decode_slip frame
            | Cobs => decode_cobs frame
            end;
  ensure (Z.of_nat (length payload) <=? MAX_RESPONSE_BYTES)
    "custom serial decoded response exceeds the 4096-byte limit";;
  Ok payload.

(** ** Responses *)

(** The checksum arm of [verified_response_payload]: the checksum of the bytes
    before the last [n] must be the last [n]. *)
Definition split_checksum (n : nat) (response : bytes) : bytes * bytes :=
  (take (length response - n) response, drop (length response - n) response).

Definition check_response (checksum : CustomSerialChecksum) (response : bytes) : Result bytes :=
  match checksum with
  | Ck_None => Ok response
  | Sum8 =>
      ensure (bool_decide (2 <= length response)%nat) "custom serial response is too short for sum8";;
      let '(payload, last) := split_checksum 1 response in
      ensure (sum8 payload =? byte_at last 0) "custom serial sum8 mismatch";;
      Ok payload
  | Xor8 =>
      ensure (bool_decide (2 <= length response)%nat) "custom serial response is too short for xor8";;
      let '(payload, last) := split_checksum 1 response in
      ensure (xor8 payload =? byte_at last 0) "custom serial xor8 mismatch";;
      Ok payload
  | ModbusCrc16 =>
      ensure (bool_decide (3 <= length response)%nat)
        "custom serial response is too short for Modbus CRC16";;
      let '(payload, last) := split_checksum 2 response in
      ensure (modbus_crc16 payload =? from_le_bytes last) "custom serial Modbus CRC16 mismatch";;
      Ok payload
  | Crc16CcittFalse =>
      ensure (bool_decide (3 <= length response)%nat)
        "custom serial response is too short for CRC-16/CCITT-FALSE";;
      let '(payload, last) := split_checksum 2 response in
      ensure (crc16_ccitt_false payload =? from_be_bytes last)
        "custom serial CRC-16/CCITT-FALSE mismatch";;
      Ok payload
  end.

Definition verified_response_payload (response : bytes) (spec : CustomSerialPointSpec)
    : Result bytes :=
  ensure (negb (bool_decide (response = []))) "custom serial response is empty";;
  ensure (Z.of_nat (length response) <=? MAX_RESPONSE_BYTES)
    "custom serial response exceeds the 4096-byte limit";;
  payload ← check_response (cs_response_checksum spec) response;
  (match cs_response_prefix_hex spec with
   | Some prefix_hex =>
       prefix ← decode_custom_serial_hex prefix_hex;
       ensure (starts_with payload prefix) "custom serial response prefix does not match"
   | None => Ok ()
   end);;
  Ok payload.

(** ** Values *)

(** [bytes.try_into().expect(msg)] to an array of [n] bytes. *)
Definition try_into (n : nat) (l : bytes) (msg : string) : Result bytes :=
  if bool_decide (length l = n) then Ok l else Panic msg.

(** [bytes[0]], [bytes[1]]: an index that is out of range panics. *)
Definition first_bytes (n : nat) (l : bytes) : Result bytes :=
  if bool_decide (n <= length l)%nat then Ok (take n l) else Panic "index out of bounds".

Definition decode_number (l : bytes) (encoding : CustomSerialValueEncoding) : Result f64 :=
  match encoding with
  | Cs_U8 => b ← first_bytes 1 l; Ok (f64_of_Z (from_be_bytes b))
  | Cs_I8 => b ← first_bytes 1 l; Ok (f64_of_Z (signed 8 (from_be_bytes b)))
  | U16Be => b ← first_bytes 2 l; Ok (f64_of_Z (from_be_bytes b))
  | U16Le => b ← first_bytes 2 l; Ok (f64_of_Z (from_le_bytes b))
  | I16Be => b ← first_bytes 2 l; Ok (f64_of_Z (signed 16 (from_be_bytes b)))
  | I16Le => b ← first_bytes 2 l; Ok (f64_of_Z (signed 16 (from_le_bytes b)))
  | U32Be => b ← try_into 4 l "validated u32 width"; Ok (f64_of_Z (from_be_bytes b))
  | U32Le => b ← try_into 4 l "validated u32 width"; Ok (f64_of_Z (from_le_bytes b))
  | I32Be => b ← try_into 4 l "validated i32 width"; Ok (f64_of_Z (signed 32 (from_be_bytes b)))
  | I32Le => b ← try_into 4 l "validated i32 width"; Ok (f64_of_Z (signed 32 (from_le_bytes b)))
  | F32Be => b ← try_into 4 l "validated f32 width"; Ok (f64_of_f32 (f32_from_bits (from_be_bytes b)))
  | F32Le => b ← try_into 4 l "validated f32 width"; Ok (f64_of_f32 (f32_from_bits (from_le_bytes b)))
  | F64Be => b ← try_into 8 l "validated f64 width"; Ok (f64_from_bits (from_be_bytes b))
  | F64Le => b ← try_into 8 l "validated f64 width"; Ok (f64_from_bits (from_le_bytes b))
  | BoolU8 | Utf8 => bail "encoding is not numeric"
  end.

Definition decode_numeric_value (l : bytes) (spec : CustomSerialPointSpec) (value_type : TelemetryType)
    : Result TelemetryValue :=
  raw ← decode_number l (cs_value_encoding spec);
  let value := f64_add (f64_mul raw (cs_scale spec)) (cs_offset spec) in
  ensure (is_finite value) "custom serial numeric result is not finite";;
  match value_type with
  | Ty_Float => Ok (VFloat value)
  | Ty_Integer =>
      ensure (negb (negb (f64_eq (f64_fract value) f64_zero)
                    || f64_lt value (f64_of_Z (i_min 64)) || f64_gt value (f64_of_Z (i_max 64))))
        "custom serial value cannot be represented as an integer";;
      Ok (VInteger (f64_as_i64 value))
  | Ty_Boolean | Ty_Text => bail "numeric encoding requires a Float or Integer telemetry point"
  end.

Definition decode_value (payload : bytes) (spec : CustomSerialPointSpec) (value_type : TelemetryType)
    : Result TelemetryValue :=
  width ← value_width spec;
  stop ← ok_or (checked_add 64 (cs_value_offset spec) width) "custom serial value range overflows";
  l ← ok_or (slice payload (Z.to_nat (cs_value_offset spec)) (Z.to_nat stop))
    "custom serial response does not contain the configured value range";
  match cs_value_encoding spec with
  | BoolU8 =>
      ensure (bool_decide (value_type = Ty_Boolean))
        "bool_u8 encoding requires a Boolean telemetry point";;
      b ← first_bytes 1 l;
      Ok (VBoolean (negb (byte_at b 0 =? 0)))
  | Utf8 =>
      ensure (bool_decide (value_type = Ty_Text)) "utf8 encoding requires a Text telemetry point";;
      ensure (utf8_valid l) "custom serial text value is not valid UTF-8";;
      Ok (VText (str_of_bytes (trim_end_nul l)))
  | _ => decode_numeric_value l spec value_type
  end.

(** ** The adapter *)

Section adapter.
Context {B : Type} `{SerialBus B}.
(** [serde_json::from_str::<CustomSerialPointSpec>] and [Utc::now()] at the
    nth sample. *)
Context (parse_spec : string -> option CustomSerialPointSpec) (clock : nat -> DateTime).

Definition parse_point_spec (mapping : TelemetryPointMapping) : Result CustomSerialPointSpec :=
  ensure (bool_decide (addr_kind (map_address mapping) = "custom_serial_frame"%string))
    "custom serial adapter supports custom_serial_frame addresses";;
  spec ← ok_or (parse_spec (addr_value (map_address mapping)))
    "address value must be a custom serial frame JSON object";
  validate_custom_serial_point_spec spec;;
  Ok spec.

(** The request frame of a specification. *)
Definition request_frame (spec : CustomSerialPointSpec) : Result bytes :=
  request ← with_context (decode_custom_serial_hex (cs_request_hex spec)) "invalid request frame";
  encode_custom_serial_frame (append_custom_serial_checksum request (cs_request_checksum spec))
    (cs_frame_encoding spec).

(** What the adapter makes of the response. *)
Definition response_value (spec : CustomSerialPointSpec) (mapping : TelemetryPointMapping)
    (response : bytes) : Result TelemetryValue :=
  response ← decode_custom_serial_frame response (cs_frame_encoding spec);
  payload ← verified_response_payload response spec;
  with_context (decode_value payload spec (map_value_type mapping))
    ("failed to decode point " ++ map_point_id mapping).

(** The body of the loop over the mappings. *)
Definition read_mapping (connection : ProtocolConnection) (now : DateTime)
    (mapping : TelemetryPointMapping) : M B (option TelemetrySample) :=
  if negb (bool_decide (map_protocol_connection_id mapping = conn_id connection)) then mret None
  else
    spec ← lift (with_context (parse_point_spec mapping)
      ("invalid point address for " ++ map_point_id mapping));
    request ← lift (request_frame spec);
    response ← transact request;
    value ← lift (response_value spec mapping response);
    mret (Some (new_sample (map_device_id mapping) (map_point_id mapping) value Q_Good now)).

(** [CustomSerialAdapter::read_telemetry]. *)
Definition read_telemetry (connection : ProtocolConnection)
    (mappings : list TelemetryPointMapping) : M B (list TelemetrySample) :=
  if negb (bool_decide (conn_protocol connection = CustomSerial))
  then lift (bail "custom serial adapter requires a CustomSerial protocol connection")
  else for_each (fun im => read_mapping connection (clock (fst im)) (snd im))
         (imap pair mappings).
End adapter.

(** ** SLIP round trip *)

Lemma slip_loop_encoded payload : slip_loop (concat (slip_byte <$> payload)) = Ok payload.
Proof.
  induction payload as [|b payload IH]; [done|]. rewrite fmap_cons, concat_cons.
  unfold slip_byte at 1.
  destruct (Z.eqb_spec b slip_end) as [->|Hend]; [simpl; by rewrite IH|].
  destruct (Z.eqb_spec b slip_esc) as [->|Hesc]; [simpl; by rewrite IH|].
  simpl. rewrite (proj2 (Z.eqb_neq _ _) Hend), (proj2 (Z.eqb_neq _ _) Hesc). by rewrite IH.
Qed.

Lemma decode_encode_slip payload : decode_slip (encode_slip payload) = Ok payload.
Proof.
  unfold decode_slip, encode_slip. set (body := concat _).
  assert (Hlast : list.last (slip_end :: body ++ [slip_end]) = Some slip_end).
  { rewrite app_comm_cons. apply last_snoc. }
  rewrite bool_decide_false by (simpl; rewrite length_app; simpl; lia).
  rewrite Hlast, !bool_decide_true by done. simpl. rewrite removelast_last.
  apply slip_loop_encoded.
Qed.

(** Every byte costs at most two. *)
Lemma length_encode_slip payload : (length (encode_slip payload) <= 2 * length payload + 2)%nat.
Proof.
  unfold encode_slip. rewrite length_cons, length_app. simpl.
  enough (length (concat (slip_byte <$> payload)) <= 2 * length payload)%nat by lia.
  induction payload as [|b payload IH]; [done|]. rewrite fmap_cons, concat_cons, length_app.
  unfold slip_byte at 1. repeat case_bool; simpl; lia.
Qed.

(** ** COBS round trip *)

(** What remains to be written once the bytes [blk] wait for their code byte. *)
Fixpoint cobs_tail (blk payload : bytes) : bytes :=
  match payload with
  | [] => Z.of_nat (length blk) + 1 :: blk
  | byte :: rest =>
      if byte =? 0 then Z.of_nat (length blk) + 1 :: blk ++ cobs_tail [] rest
      else if bool_decide (length blk = 253%nat) then 0xFF :: (blk ++ [byte]) ++ cobs_tail [] rest
      else cobs_tail (blk ++ [byte]) rest
  end.

Lemma insert_pending pre blk x (c : Z) : <[length pre := x]> (pre ++ c :: blk) = pre ++ x :: blk.
Proof.
  rewrite insert_app_r_alt by done. by rewrite Nat.sub_diag.
Qed.

Lemma cobs_fold pre blk payload :
  (length blk <= 253)%nat -> bytes_ok payload ->
  cobs_finish (fold_left cobs_step payload
    {| cobs_encoded := pre ++ 0 :: blk; code_index := length pre;
       cobs_code := Z.of_nat (length blk) + 1 |}) = pre ++ cobs_tail blk payload.
Proof.
  intros Hblk Hok. revert pre blk Hblk. induction Hok as [|b payload Hb Hok IH]; intros pre blk Hblk.
  { simpl. apply insert_pending. }
  cbn [fold_left cobs_tail]. unfold cobs_step at 2. cbn [cobs_encoded code_index cobs_code].
  destruct (Z.eqb_spec b 0) as [->|Hnz].
  - unfold cobs_close. cbn [code_index]. rewrite insert_pending.
    pose proof (IH (pre ++ Z.of_nat (length blk) + 1 :: blk) [] ltac:(simpl; lia)) as H.
    replace (length (pre ++ 0 :: blk)) with (length (pre ++ Z.of_nat (length blk) + 1 :: blk))
      by (rewrite !length_app; done).
    refine (eq_trans H _). by rewrite <- app_assoc.
  - assert (Hwrap : wrapping_add8 (Z.of_nat (length blk) + 1) 1 = Z.of_nat (length blk) + 2).
    { unfold wrapping_add8. rewrite wrap_small; [lia|]. unfold u_ok. lia. }
    rewrite Hwrap. rewrite <- app_assoc, <- app_comm_cons. case_bool_decide as Hfull.
    + rewrite Hfull. change (Z.of_nat 253 + 2 =? 255) with true. cbv iota.
      unfold cobs_close. cbn [code_index]. rewrite insert_pending.
      pose proof (IH (pre ++ 255 :: blk ++ [b]) [] ltac:(simpl; lia)) as H.
      replace (length (pre ++ 0 :: blk ++ [b])) with (length (pre ++ 255 :: blk ++ [b]))
        by (rewrite !length_app; done).
      refine (eq_trans H _). by rewrite <- app_assoc.
    + rewrite (proj2 (Z.eqb_neq _ _)) by lia.
      replace (Z.of_nat (length blk) + 2) with (Z.of_nat (length (blk ++ [b])) + 1)
        by (rewrite length_app; simpl; lia).
      apply IH. rewrite length_app. simpl. lia.
Qed.

Lemma encode_cobs_tail payload : bytes_ok payload -> encode_cobs payload = cobs_tail [] payload ++ [0].
Proof.
  intros Hok. unfold encode_cobs. f_equal. exact (cobs_fold [] [] payload ltac:(simpl; lia) Hok).
Qed.

Lemma cobs_tail_nonempty blk payload : cobs_tail blk payload <> [].
Proof.
  revert blk. induction payload as [|b payload IH]; intros blk; simpl; [done|].
  repeat case_bool; done || apply IH.
Qed.

(** One turn of the block loop on a well-formed block. *)
Lemma cobs_loop_block fuel pre code blk rest acc :
  code = Z.of_nat (length blk) + 1 -> Forall (fun b => b <> 0) blk ->
  cobs_loop (S fuel) (pre ++ code :: blk ++ rest) (length pre) acc =
  cobs_loop fuel ((pre ++ code :: blk) ++ rest) (length (pre ++ code :: blk))
    (if negb (code =? 0xFF) && negb (bool_decide (rest = [])) then acc ++ blk ++ [0] else acc ++ blk).
Proof.
  intros Hcode Hnz. cbn [cobs_loop]. rewrite lookup_app_r, Nat.sub_diag by done. cbn [lookup list_lookup].
  rewrite (proj2 (Z.eqb_neq code 0)) by lia. cbn [negb ensure mbind Result_bind].
  replace (Z.to_nat (code - 1)) with (length blk) by lia.
  replace (pre ++ code :: blk ++ rest) with ((pre ++ code :: blk) ++ rest)
    by by rewrite <- app_assoc.
  assert (Hend : (S (length pre) + length blk = length (pre ++ code :: blk))%nat)
    by (rewrite length_app; simpl; lia).
  rewrite Hend, (bool_decide_true (length (pre ++ code :: blk) <= _)%nat)
    by (rewrite (length_app _ rest); lia).
  cbn [ensure mbind Result_bind].
  assert (Hblk : take (length (pre ++ code :: blk) - S (length pre))
                   (drop (S (length pre)) ((pre ++ code :: blk) ++ rest)) = blk).
  { rewrite <- Hend. replace (S (length pre) + length blk - S (length pre))%nat with (length blk) by lia.
    replace (S (length pre)) with (length (pre ++ [code])) by (rewrite length_app; simpl; lia).
    replace ((pre ++ code :: blk) ++ rest) with ((pre ++ [code]) ++ blk ++ rest)
      by by rewrite <- !app_assoc.
    by rewrite drop_app_length, take_app_length. }
  rewrite Hblk. replace (forallb _ blk) with true.
  2: { symmetry. apply forallb_Forall. eapply Forall_impl; [|exact Hnz]. intros b Hb.
       by apply negb_true_iff, Z.eqb_neq. }
  cbn [ensure mbind Result_bind]. rewrite <- (app_assoc acc). f_equal. destruct rest as [|x rest].
  - rewrite app_nil_r, (bool_decide_true ([] = [])) by done.
    rewrite bool_decide_false by lia. by rewrite !andb_false_r.
  - rewrite (bool_decide_false (x :: rest = [])) by done.
    by rewrite bool_decide_true by (rewrite (length_app _ (x :: rest)); simpl; lia).
Qed.

Lemma cobs_loop_done fuel encoded acc : cobs_loop fuel encoded (length encoded) acc = Ok acc.
Proof. destruct fuel; [done|]. simpl. by rewrite lookup_ge_None_2. Qed.

Lemma cobs_loop_tail fuel pre blk payload acc :
  (length blk <= 253)%nat -> Forall (fun b => b <> 0) blk ->
  (length (cobs_tail blk payload) <= fuel)%nat ->
  cobs_loop fuel (pre ++ cobs_tail blk payload) (length pre) acc = Ok (acc ++ blk ++ payload).
Proof.
  revert fuel pre blk acc. induction payload as [|b payload IH]; intros fuel pre blk acc Hlen Hnz Hfuel.
  - destruct fuel as [|fuel]; [simpl in Hfuel; lia|]. cbn [cobs_tail].
    pose proof (cobs_loop_block fuel pre (Z.of_nat (length blk) + 1) blk [] acc eq_refl Hnz) as H.
    rewrite !app_nil_r in H. rewrite H, bool_decide_true, andb_false_r by done.
    by rewrite cobs_loop_done, app_nil_r.
  - cbn [cobs_tail] in *. destruct (Z.eqb_spec b 0) as [->|Hb]; [|case_bool_decide as Hfull].
    + destruct fuel as [|fuel]; [simpl in Hfuel; lia|].
      rewrite cobs_loop_block by done. rewrite (proj2 (Z.eqb_neq _ _)) by lia.
      rewrite bool_decide_false by apply cobs_tail_nonempty. simpl negb. cbn [andb].
      simpl in Hfuel. rewrite length_app in Hfuel.
      rewrite IH; [|simpl; lia | done | lia]. simpl. by rewrite <- !app_assoc.
    + destruct fuel as [|fuel]; [simpl in Hfuel; lia|].
      rewrite cobs_loop_block.
      2: { rewrite length_app, Hfull. done. }
      2: { apply Forall_app. by repeat constructor. }
      change (255 =? 255) with true. cbn [negb andb].
      simpl in Hfuel. rewrite !length_app in Hfuel.
      rewrite IH; [|simpl; lia | done | lia]. simpl. by rewrite <- !app_assoc.
    + rewrite IH; [|rewrite length_app; simpl; lia | apply Forall_app; by repeat constructor | done].
      by rewrite <- !app_assoc.
Qed.

Lemma decode_encode_cobs payload : bytes_ok payload -> decode_cobs (encode_cobs payload) = Ok payload.
Proof.
  intros Hok. rewrite encode_cobs_tail by done. unfold decode_cobs.
  rewrite last_snoc, removelast_last.
  assert (Hne : (0 < length (cobs_tail [] payload))%nat).
  { pose proof (cobs_tail_nonempty [] payload). destruct (cobs_tail [] payload); [done | simpl; lia]. }
  rewrite (bool_decide_false (length (cobs_tail [] payload ++ [0%Z]) < 2)%nat)
    by (rewrite length_app; simpl; lia).
  rewrite (bool_decide_true (Some 0 = Some 0)) by done. cbn [orb negb ensure mbind Result_bind].
  rewrite bool_decide_false by apply cobs_tail_nonempty. cbn [negb ensure mbind Result_bind].
  apply (cobs_loop_tail _ [] [] payload []); [simpl; lia | done | lia].
Qed.

Lemma length_cobs_tail blk payload :
  (length (cobs_tail blk payload) <= 1 + length blk + 2 * length payload)%nat.
Proof.
  revert blk. induction payload as [|b payload IH]; intros blk; simpl; [lia|].
  repeat case_bool; simpl; rewrite ?length_app; simpl.
  - pose proof (IH []). simpl in *. lia.
  - pose proof (IH []). simpl in *. lia.
  - pose proof (IH (blk ++ [b])) as H. rewrite length_app in H. simpl in *. lia.
Qed.

(** ** Checksums detect a changed byte *)

Lemma iter_inj (f : Z -> Z) n a b :
  (forall x, u_ok 16 x -> u_ok 16 (f x)) ->
  (forall x y, u_ok 16 x -> u_ok 16 y -> f x = f y -> x = y) ->
  u_ok 16 a -> u_ok 16 b ->
  u_ok 16 (Nat.iter n f a) /\ (Nat.iter n f a = Nat.iter n f b -> a = b).
Proof.
  intros Hok Hinj Ha Hb. assert (Hr : forall x, u_ok 16 x -> u_ok 16 (Nat.iter n f x)).
  { induction n as [|n IH]; intros x Hx; simpl; auto. }
  split; [by apply Hr|]. clear Hr. revert a b Ha Hb.
  induction n as [|n IH]; intros a b Ha Hb; [done|].
  rewrite !Nat.iter_succ_r. intros Heq%IH; auto.
Qed.

Lemma shiftr_ok x : u_ok 16 x -> u_ok 15 (Z.shiftr x 1).
Proof.
  intros [? ?]. rewrite Z.shiftr_div_pow2 by lia. change (2 ^ 1) with 2. split.
  - apply Z.div_pos; lia.
  - apply Z.div_lt_upper_bound; lia.
Qed.

Lemma u_ok_weaken v w x : v <= w -> u_ok v x -> u_ok w x.
Proof.
  intros Hvw [H0 Hx]. split; [done|]. destruct (decide (0 <= v)).
  - pose proof (Z.pow_le_mono_r 2 v w). lia.
  - rewrite Z.pow_neg_r in Hx by lia. lia.
Qed.

Lemma modbus_crc_bit_ok x : u_ok 16 x -> u_ok 16 (modbus_crc_bit x).
Proof.
  intros Hx. pose proof (u_ok_weaken 15 16 _ ltac:(lia) (shiftr_ok x Hx)).
  unfold modbus_crc_bit. case_bool; [|done]. apply lxor_ok; [lia | done | split; lia].
Qed.

(** The top bit of the result tells whether the polynomial was applied. *)
Lemma modbus_crc_bit_inj x y :
  u_ok 16 x -> u_ok 16 y -> modbus_crc_bit x = modbus_crc_bit y -> x = y.
Proof.
  intros Hx Hy. unfold modbus_crc_bit. change 1 with (2 ^ 0) at 1 4.
  rewrite !land_pow2_zero, !negb_involutive, !Z.bit0_odd by lia.
  assert (Hhalf : forall a b, Z.odd a = Z.odd b -> Z.shiftr a 1 = Z.shiftr b 1 -> a = b).
  { intros a b Ho Hs. rewrite (Z.div2_odd a), (Z.div2_odd b), Ho.
    rewrite <- !Z.div2_spec in Hs. by rewrite Hs. }
  assert (Htop : forall a b, u_ok 16 a -> u_ok 16 b ->
    Z.lxor (Z.shiftr a 1) 0xA001 <> Z.shiftr b 1).
  { intros a b Ha Hb Heq. apply (f_equal (fun z => Z.testbit z 15)) in Heq.
    rewrite Z.lxor_spec, (testbit_high 15 (Z.shiftr a 1)), (testbit_high 15 (Z.shiftr b 1)) in Heq
      by (lia || by apply shiftr_ok). done. }
  destruct (Z.odd x) eqn:Ex, (Z.odd y) eqn:Ey; intros Heq.
  - apply lxor_inj_r in Heq. apply Hhalf; congruence.
  - by apply Htop in Heq.
  - symmetry in Heq. by apply Htop in Heq.
  - apply Hhalf; congruence.
Qed.

#[export] Instance modbus_crc_step : ChecksumStep 16 modbus_crc_byte.
Proof.
  assert (Hxor : forall s b, u_ok 16 s -> byte_ok b -> u_ok 16 (Z.lxor s b)).
  { intros s b Hs Hb. apply lxor_ok; [lia | done | by apply (u_ok_weaken 8)]. }
  constructor; unfold modbus_crc_byte.
  - intros s b Hs Hb. apply (iter_inj modbus_crc_bit 8 _ 0 modbus_crc_bit_ok modbus_crc_bit_inj);
      [by apply Hxor | split; lia].
  - intros s t b Hs Ht Hb Heq.
    apply (iter_inj modbus_crc_bit 8 _ _ modbus_crc_bit_ok modbus_crc_bit_inj) in Heq;
      [|by apply Hxor..]. by apply lxor_inj_r in Heq.
  - intros s b c Hs Hb Hc Heq.
    apply (iter_inj modbus_crc_bit 8 _ _ modbus_crc_bit_ok modbus_crc_bit_inj) in Heq;
      [|by apply Hxor..]. by apply lxor_inj_l in Heq.
Qed.

Lemma ccitt_crc_bit_ok x : u_ok 16 x -> u_ok 16 (ccitt_crc_bit x).
Proof.
  intros Hx. pose proof (wrap_ok 16 (Z.shiftl x 1) ltac:(lia)).
  unfold ccitt_crc_bit. case_bool; [|done]. apply lxor_ok; [lia | done | split; lia].
Qed.

Lemma testbit15 x : u_ok 16 x -> Z.testbit x 15 = (2 ^ 15 <=? x).
Proof.
  intros [H0 Hx]. destruct (Z.leb_spec (2 ^ 15) x).
  - apply Z.testbit_true; [lia|]. replace (x / 2 ^ 15) with 1; [done|].
    apply Z.div_unique with (x - 2 ^ 15); lia.
  - apply (testbit_high 15); [split; lia | lia].
Qed.

(** The bottom bit of the result tells whether the polynomial was applied. *)
Lemma ccitt_crc_bit_inj x y :
  u_ok 16 x -> u_ok 16 y -> ccitt_crc_bit x = ccitt_crc_bit y -> x = y.
Proof.
  intros Hx Hy. unfold ccitt_crc_bit. change 0x8000 with (2 ^ 15).
  rewrite !land_pow2_zero, !negb_involutive, !testbit15 by (done || lia).
  rewrite !Z.shiftl_mul_pow2 by lia. change (2 ^ 1) with 2.
  assert (Hlow : forall a, Z.testbit (wrap 16 (a * 2)) 0 = false).
  { intros a. unfold wrap. rewrite Z.mod_pow2_bits_low by lia.
    change 2 with (2 ^ 1). by rewrite Z.mul_pow2_bits_low. }
  assert (Hbot : forall a b, Z.lxor (wrap 16 (a * 2)) 0x1021 <> wrap 16 (b * 2)).
  { intros a b Heq. apply (f_equal (fun z => Z.testbit z 0)) in Heq.
    by rewrite Z.lxor_spec, !Hlow in Heq. }
  unfold u_ok in Hx, Hy. unfold wrap in *.
  destruct (Z.leb_spec (2 ^ 15) x), (Z.leb_spec (2 ^ 15) y); intros Heq.
  - apply lxor_inj_r in Heq.
    assert (Hm : forall a, 2 ^ 15 <= a < 2 ^ 16 -> (a * 2) mod 2 ^ 16 = a * 2 - 2 ^ 16).
    { intros a Ha. symmetry. apply Z.mod_unique with 1; lia. }
    rewrite !Hm in Heq by lia. lia.
  - by apply Hbot in Heq.
  - symmetry in Heq. by apply Hbot in Heq.
  - rewrite !Z.mod_small in Heq by lia. lia.
Qed.

#[export] Instance ccitt_crc_step : ChecksumStep 16 ccitt_crc_byte.
Proof.
  assert (Hshift : forall b, byte_ok b -> wrap 16 (Z.shiftl b 8) = b * 2 ^ 8).
  { intros b [? ?]. rewrite Z.shiftl_mul_pow2, wrap_small by (unfold u_ok; lia). done. }
  assert (Hxor : forall s b, u_ok 16 s -> byte_ok b -> u_ok 16 (Z.lxor s (wrap 16 (Z.shiftl b 8)))).
  { intros s b Hs Hb. apply lxor_ok; [lia | done | apply wrap_ok; lia]. }
  constructor; unfold ccitt_crc_byte.
  - intros s b Hs Hb. apply (iter_inj ccitt_crc_bit 8 _ 0 ccitt_crc_bit_ok ccitt_crc_bit_inj);
      [by apply Hxor | split; lia].
  - intros s t b Hs Ht Hb Heq.
    apply (iter_inj ccitt_crc_bit 8 _ _ ccitt_crc_bit_ok ccitt_crc_bit_inj) in Heq;
      [|by apply Hxor..]. by apply lxor_inj_r in Heq.
  - intros s b c Hs Hb Hc Heq.
    apply (iter_inj ccitt_crc_bit 8 _ _ ccitt_crc_bit_ok ccitt_crc_bit_inj) in Heq;
      [|by apply Hxor..]. apply lxor_inj_l in Heq. rewrite !Hshift in Heq by done. lia.
Qed.

(** The checksum of a frame as a number. *)
Definition checksum_value (checksum : CustomSerialChecksum) (frame : bytes) : Z :=
  match checksum with
  | Ck_None => 0
  | Sum8 => sum8 frame
  | Xor8 => xor8 frame
  | ModbusCrc16 => modbus_crc16 frame
  | Crc16CcittFalse => crc16_ccitt_false frame
  end.

Lemma split_checksum_app n payload last :
  length last = n -> split_checksum n (payload ++ last) = (payload, last).
Proof.
  intros <-. unfold split_checksum. rewrite length_app, Nat.add_sub.
  by rewrite take_app_length, drop_app_length.
Qed.

(** The receiver accepts a payload exactly when its checksum is the one that
    was appended. *)
Lemma check_response_app checksum payload sent :
  checksum <> Ck_None -> payload <> [] -> bytes_ok payload -> bytes_ok sent ->
  check_response checksum (payload ++ checksum_bytes checksum sent) =
  if checksum_value checksum payload =? checksum_value checksum sent then Ok payload
  else Err (match checksum with
            | Ck_None => ""
            | Sum8 => "custom serial sum8 mismatch"
            | Xor8 => "custom serial xor8 mismatch"
            | ModbusCrc16 => "custom serial Modbus CRC16 mismatch"
            | Crc16CcittFalse => "custom serial CRC-16/CCITT-FALSE mismatch"
            end).
Proof.
  intros Hck Hne Hp Hs. assert (Hlen : (0 < length payload)%nat) by by destruct payload; [|simpl; lia].
  unfold check_response, checksum_bytes. destruct checksum; [done|..].
  - rewrite bool_decide_true by (rewrite length_app; simpl; lia). simpl ensure.
    cbn [mbind Result_bind]. rewrite split_checksum_app by done.
    change (byte_at [sum8 sent] 0) with (sum8 sent). cbn [checksum_value]. by case_bool.
  - rewrite bool_decide_true by (rewrite length_app; simpl; lia). simpl ensure.
    cbn [mbind Result_bind]. rewrite split_checksum_app by done.
    change (byte_at [xor8 sent] 0) with (xor8 sent). cbn [checksum_value]. by case_bool.
  - rewrite bool_decide_true by (rewrite length_app; simpl; lia). simpl ensure.
    cbn [mbind Result_bind]. rewrite split_checksum_app by done.
    rewrite from_le_to_le by (apply (checksum_ok 16 modbus_crc_byte); [split; lia | done]).
    cbn [checksum_value]. by case_bool.
  - rewrite bool_decide_true by (rewrite length_app, length_to_be_bytes; lia). simpl ensure.
    cbn [mbind Result_bind]. rewrite split_checksum_app by apply length_to_be_bytes.
    rewrite from_be_to_be by (apply (checksum_ok 16 ccitt_crc_byte); [split; lia | done]).
    cbn [checksum_value]. by case_bool.
Qed.

Lemma checksum_value_detects checksum l1 b c l2 :
  checksum <> Ck_None -> bytes_ok (l1 ++ b :: l2) -> byte_ok c -> b <> c ->
  checksum_value checksum (l1 ++ c :: l2) <> checksum_value checksum (l1 ++ b :: l2).
Proof.
  intros Hck [H1 [Hb H2]%Forall_cons_iff]%Forall_app Hc Hne.
  destruct checksum; cbn [checksum_value]; [done|..].
  - apply (checksum_detects 8 wrapping_add8); first [done | split; lia | congruence].
  - apply (checksum_detects 8 Z.lxor); first [done | split; lia | congruence].
  - apply (checksum_detects 16 modbus_crc_byte); first [done | split; lia | congruence].
  - apply (checksum_detects 16 ccitt_crc_byte); first [done | split; lia | congruence].
Qed.

(** ** Claims *)

(** Decoding the frame of a payload gives the payload back. *)
Lemma encode_decode_frame encoding payload :
  bytes_ok payload -> (length payload <= 4095)%nat ->
  exists frame, encode_custom_serial_frame payload encoding = Ok frame /\
    Z.of_nat (length frame) <= MAX_FRAMED_RESPONSE_BYTES /\
    decode_custom_serial_frame frame encoding = Ok payload.
Proof.
  intros Hok Hlen. unfold decode_custom_serial_frame, MAX_FRAMED_RESPONSE_BYTES, MAX_RESPONSE_BYTES.
  destruct encoding; simpl encode_custom_serial_frame; eexists; (split; [done|]).
  - split; [lia|]. rewrite !(proj2 (Z.leb_le _ _)) by lia. simpl.
    by rewrite !(proj2 (Z.leb_le _ _)) by lia.
  - pose proof (length_encode_slip payload). split; [lia|].
    rewrite (proj2 (Z.leb_le _ _)) by lia. cbn [ensure mbind Result_bind].
    rewrite decode_encode_slip. cbn [mbind Result_bind].
    by rewrite (proj2 (Z.leb_le _ _)) by lia.
  - assert (length (encode_cobs payload) <= 2 * length payload + 2)%nat.
    { rewrite encode_cobs_tail by done. rewrite length_app.
      pose proof (length_cobs_tail [] payload). simpl in *. lia. }
    split; [lia|]. rewrite (proj2 (Z.leb_le _ _)) by lia. cbn [ensure mbind Result_bind].
    rewrite decode_encode_cobs by done. cbn [mbind Result_bind].
    by rewrite (proj2 (Z.leb_le _ _)) by lia.
Qed.

(** Framing loses nothing: for the raw, SLIP and COBS encodings, decoding
    the frame of any payload of up to 4095 bytes gives the payload back, and a
    SLIP or COBS frame stays within the limit the decoder enforces. *)
Theorem frame_roundtrip encoding payload :
  bytes_ok payload -> (length payload <= 4095)%nat ->
  exists frame, encode_custom_serial_frame payload encoding = Ok frame /\
    Z.of_nat (length frame) <= MAX_FRAMED_RESPONSE_BYTES /\
    decode_custom_serial_frame frame encoding = Ok payload.
Proof. apply encode_decode_frame. Qed.

Lemma frame_roundtrip_witness :
  exists frame, encode_custom_serial_frame [0; 192; 219; 7] Cobs = Ok frame /\
    Z.of_nat (length frame) <= MAX_FRAMED_RESPONSE_BYTES /\
    decode_custom_serial_frame frame Cobs = Ok [0; 192; 219; 7].
Proof.
  apply (frame_roundtrip Cobs [0; 192; 219; 7]).
  - bytes_tac.
  - simpl. lia.
Defined.

(** The 4095 bytes of [frame_roundtrip] are sharp for SLIP: a payload of the
    4096 bytes the decoder accepts, all of them delimiters, needs 8194 bytes on
    the wire and is refused by the limit on the frame. *)
Example slip_limit_excludes_full_payload :
  decode_custom_serial_frame (encode_slip (replicate 4096 0xC0)) Slip =
  Err "custom serial framed response exceeds the 8192-byte limit".
Proof. vm_compute. reflexivity. Qed.

(** A response whose checksum was appended by the same algorithm is
    accepted and gives its payload back, and changing any single byte of that
    payload on the way is detected: the receiver refuses the frame.  This holds
    for the byte sum, the exclusive or and both 16-bit CRCs. *)
Theorem checksum_detects_single_byte checksum l1 b c l2 :
  checksum <> Ck_None -> bytes_ok (l1 ++ b :: l2) -> byte_ok c -> b <> c ->
  check_response checksum (append_custom_serial_checksum (l1 ++ b :: l2) checksum) =
    Ok (l1 ++ b :: l2) /\
  exists msg, check_response checksum
    ((l1 ++ c :: l2) ++ checksum_bytes checksum (l1 ++ b :: l2)) = Err msg.
Proof.
  intros Hck Hok Hc Hne. assert (Hcons : forall x, l1 ++ x :: l2 <> []) by by intros x; destruct l1.
  assert (Hokc : bytes_ok (l1 ++ c :: l2)).
  { apply Forall_app in Hok as [H1 [_ H2]%Forall_cons_iff]. apply Forall_app. split; [done|].
    by apply Forall_cons_iff. }
  unfold append_custom_serial_checksum. rewrite !check_response_app by done. split.
  - by rewrite Z.eqb_refl.
  - pose proof (checksum_value_detects checksum l1 b c l2 Hck Hok Hc Hne) as Hd.
    rewrite (proj2 (Z.eqb_neq _ _) Hd). by eexists.
Qed.

Lemma checksum_detects_single_byte_witness :
  check_response Crc16CcittFalse (append_custom_serial_checksum ([1; 2] ++ 3 :: [4]) Crc16CcittFalse) =
    Ok [1; 2; 3; 4] /\
  exists msg, check_response Crc16CcittFalse
    (([1; 2] ++ 7 :: [4]) ++ checksum_bytes Crc16CcittFalse ([1; 2] ++ 3 :: [4])) = Err msg.
Proof.
  apply (checksum_detects_single_byte Crc16CcittFalse [1; 2] 3 7 [4]).
  - discriminate.
  - bytes_tac.
  - split; lia.
  - lia.
Defined.

Lemma no_panic_slip l : no_panic (slip_loop l).
Proof.
  assert (Hn : exists n, (length l <= n)%nat) by by exists (length l).
  destruct Hn as [n Hn]. revert l Hn. induction n as [|n IH]; intros [|b l] Hn; simpl in *; try done || lia.
  assert (Hmap : forall x l', (length l' <= n)%nat -> no_panic (cons x <$> slip_loop l')).
  { intros x l' Hl'. specialize (IH l' Hl'). by destruct (slip_loop l'). }
  repeat case_bool; try done; [|apply Hmap; lia].
  destruct l as [|v l]; [done|]. simpl in Hn. repeat case_bool; try done; apply Hmap; lia.
Qed.

Lemma no_panic_cobs fuel encoded index decoded : no_panic (cobs_loop fuel encoded index decoded).
Proof.
  revert index decoded. induction fuel as [|fuel IH]; intros index decoded; simpl; [done|].
  destruct (encoded !! index); [|done]. no_panic_tac. apply IH.
Qed.

Lemma no_panic_check_response checksum response : no_panic (check_response checksum response).
Proof. destruct checksum; unfold check_response, split_checksum; no_panic_tac. Qed.

Lemma validated_spec spec :
  validate_custom_serial_point_spec spec = Ok () ->
  (forall prefix, cs_response_prefix_hex spec = Some prefix ->
     exists l, decode_custom_serial_hex prefix = Ok l).
Proof.
  intros Hv prefix Hp. unfold validate_custom_serial_point_spec in Hv. inv_result.
  rewrite Hp in *. by inv_result; eexists.
Qed.

Lemma value_width_fixed spec width n :
  value_width spec = Ok width -> fixed_width (cs_value_encoding spec) = Some n -> width = n.
Proof.
  unfold value_width. intros Hw Hf. rewrite Hf in Hw. destruct (cs_value_length spec); by inv_result.
Qed.

Lemma no_panic_first n l : (n <= length l)%nat -> no_panic (first_bytes n l).
Proof. intros. unfold first_bytes. by rewrite bool_decide_true. Qed.

Lemma no_panic_try_into n l msg : length l = n -> no_panic (try_into n l msg).
Proof. intros. unfold try_into. by rewrite bool_decide_true. Qed.

Lemma no_panic_decode_number l encoding n :
  fixed_width encoding = Some n -> Z.of_nat (length l) = n -> no_panic (decode_number l encoding).
Proof.
  intros Hf Hlen. destruct encoding; cbn [fixed_width] in Hf; try discriminate Hf;
    injection Hf as <-; cbn [decode_number]; no_panic_tac;
    first [apply no_panic_first; lia | apply no_panic_try_into; lia | exact I].
Qed.

(** The value decoder reads only bytes it has checked to be there. *)
Lemma no_panic_decode_value payload spec value_type :
  0 <= cs_value_offset spec -> no_panic (decode_value payload spec value_type).
Proof.
  intros Hoff. unfold decode_value. apply no_panic_bind.
  { unfold value_width. destruct (fixed_width _), (cs_value_length spec); no_panic_tac. }
  intros width Hw. apply no_panic_bind; [apply no_panic_ok_or|]. intros stop Hstop.
  apply no_panic_bind; [apply no_panic_ok_or|]. intros l Hl.
  apply ok_or_Ok in Hstop, Hl. apply slice_Some in Hl as (Hle & Hin & ->).
  unfold checked_add in Hstop. case_bool; [|done]. injection Hstop as <-.
  set (l := take _ _). assert (Hlen : length l = Z.to_nat width).
  { unfold l. rewrite length_take, length_drop. lia. }
  assert (Hfix : forall n, fixed_width (cs_value_encoding spec) = Some n -> Z.of_nat (length l) = n).
  { intros n Hn. rewrite Hlen. pose proof (value_width_fixed _ _ _ Hw Hn) as ->.
    destruct (cs_value_encoding spec); simpl in Hn; simplify_eq; done. }
  clearbody l. assert (Hnum : forall n, fixed_width (cs_value_encoding spec) = Some n ->
    no_panic (decode_numeric_value l spec value_type)).
  { intros n Hn. unfold decode_numeric_value. apply no_panic_bind.
    - by apply (no_panic_decode_number l _ n Hn), Hfix.
    - intros raw _. apply no_panic_bind; [apply no_panic_ensure|]. intros _ _.
      destruct value_type; no_panic_tac. }
  destruct (cs_value_encoding spec) eqn:He; try (by eapply Hnum); no_panic_tac.
  apply no_panic_first. specialize (Hfix 1 eq_refl). lia.
Qed.

(** No response can crash the collector: for a point specification the
    validator accepts, whatever bytes come back from the device, decoding the
    frame, verifying it and decoding the value end in a value or an error. *)
Theorem response_never_panics spec mapping response :
  validate_custom_serial_point_spec spec = Ok () -> 0 <= cs_value_offset spec ->
  no_panic (response_value spec mapping response).
Proof.
  intros Hv Hoff. unfold response_value, decode_custom_serial_frame, verified_response_payload.
  no_panic_tac.
  - destruct (cs_frame_encoding spec); [done | |].
    + unfold decode_slip. no_panic_tac. apply no_panic_slip.
    + unfold decode_cobs. no_panic_tac. apply no_panic_cobs.
  - apply no_panic_check_response.
  - destruct (cs_response_prefix_hex spec) as [prefix|] eqn:Hp; [|done].
    destruct (validated_spec spec Hv prefix Hp) as [l ->]. no_panic_tac.
  - by apply no_panic_decode_value.
Qed.

Definition sample_spec : CustomSerialPointSpec :=
  {| cs_schema_version := 2; cs_request_hex := "01 03"; cs_request_checksum := ModbusCrc16;
     cs_response_checksum := Xor8; cs_response_prefix_hex := Some "AA"%string;
     cs_frame_encoding := Slip; cs_value_offset := 1; cs_value_length := Some 2;
     cs_value_encoding := U16Be; cs_scale := f64_one; cs_offset := f64_zero |}.

Definition sample_mapping : TelemetryPointMapping :=
  new_mapping "p" "d" "s" "c"
    {| addr_kind := "custom_serial_frame"; addr_value := "{}"; addr_modbus := None |} Ty_Integer.

Lemma response_never_panics_witness :
  no_panic (response_value sample_spec sample_mapping [192; 219; 192]).
Proof.
  apply (response_never_panics sample_spec sample_mapping [192; 219; 192]).
  - vm_compute. reflexivity.
  - simpl. lia.
Defined.

Lemma checksum_bytes_ok checksum l :
  bytes_ok l -> (length (checksum_bytes checksum l) <= 2)%nat /\ bytes_ok (checksum_bytes checksum l).
Proof.
  intros Hl. destruct checksum; cbn [checksum_bytes];
    rewrite ?length_to_be_bytes, ?length_to_le_bytes; (split; [simpl; lia|]); bytes_tac.
  apply (checksum_ok 8 Z.lxor); [split; lia | done].
Qed.

(** One exchange end to end: when the device answers the request of a
    point with a payload framed and checksummed as the specification says, the
    adapter has sent exactly the framed request with its checksum, and the
    sample it reports carries the value decoded from that payload with good
    quality. *)
Theorem exchange_reports_device_value parse_spec connection mapping spec now payload frame request
    value responses requests :
  map_protocol_connection_id mapping = conn_id connection ->
  parse_point_spec parse_spec mapping = Ok spec ->
  request_frame spec = Ok request ->
  bytes_ok payload -> payload <> [] -> (length payload <= 4093)%nat ->
  (forall prefix l, cs_response_prefix_hex spec = Some prefix ->
     decode_custom_serial_hex prefix = Ok l -> starts_with payload l = true) ->
  encode_custom_serial_frame (append_custom_serial_checksum payload (cs_response_checksum spec))
    (cs_frame_encoding spec) = Ok frame ->
  decode_value payload spec (map_value_type mapping) = Ok value ->
  read_mapping parse_spec connection now mapping
    {| bus_responses := reverse (frame :: responses); bus_requests := requests |} =
  ({| bus_responses := reverse responses; bus_requests := requests ++ [request] |},
   Ok (Some (new_sample (map_device_id mapping) (map_point_id mapping) value Q_Good now))).
Proof.
  intros Hconn Hspec Hreq Hok Hne Hlen Hprefix Hframe Hval. unfold read_mapping.
  rewrite bool_decide_true by done. cbn [negb]. rewrite lift_bind, Hspec. cbn [with_context].
  rewrite lift_bind, Hreq. rewrite M_bind_eq, scripted_transact_first, lift_bind.
  enough (Hresp : response_value spec mapping frame = Ok value) by by rewrite Hresp.
  set (sent := append_custom_serial_checksum payload (cs_response_checksum spec)) in *.
  pose proof (checksum_bytes_ok (cs_response_checksum spec) payload Hok) as [Hcb Hcbok].
  assert (Hsent : bytes_ok sent /\ (length sent <= 4095)%nat /\ sent <> []).
  { unfold sent, append_custom_serial_checksum. split; [by apply Forall_app|].
    split; [rewrite length_app; lia | by destruct payload]. }
  destruct Hsent as (Hsok & Hslen & Hsne).
  destruct (encode_decode_frame (cs_frame_encoding spec) sent Hsok Hslen) as (frame' & Hf' & _ & Hdec).
  assert (frame' = frame) as -> by congruence.
  unfold response_value. rewrite Hdec. cbn [mbind Result_bind]. unfold verified_response_payload.
  rewrite bool_decide_false, (proj2 (Z.leb_le _ _)) by (done || unfold MAX_RESPONSE_BYTES; lia).
  cbn [negb ensure mbind Result_bind].
  assert (Hck : check_response (cs_response_checksum spec) sent = Ok payload).
  { unfold sent, append_custom_serial_checksum. destruct (cs_response_checksum spec) eqn:E.
    { simpl. by rewrite app_nil_r. }
    all: rewrite <- E, check_response_app by (done || by rewrite E); by rewrite Z.eqb_refl. }
  rewrite Hck. cbn [mbind Result_bind].
  assert (Hv : validate_custom_serial_point_spec spec = Ok ()).
  { unfold parse_point_spec in Hspec. by inv_result. }
  destruct (cs_response_prefix_hex spec) as [prefix|] eqn:Hp.
  - destruct (validated_spec spec Hv prefix Hp) as [l Hl]. rewrite Hl. cbn [mbind Result_bind].
    rewrite (Hprefix prefix l eq_refl Hl). cbn [ensure mbind Result_bind]. by rewrite Hval.
  - cbn [mbind Result_bind]. by rewrite Hval.
Qed.

Lemma exchange_reports_device_value_witness :
  snd (read_mapping (fun _ => Some sample_spec)
    (serial_connection CustomSerial "c" (new_serial_settings "/dev/ttyS0" 9600)) 5 sample_mapping
    (new_scripted_bus [[0xC0; 0xAA; 0x01; 0x02; 0xA9; 0xC0]])) =
  Ok (Some (new_sample "d" "p" (VInteger 258) Q_Good 5)).
Proof.
  refine (f_equal snd (exchange_reports_device_value (fun _ => Some sample_spec)
    (serial_connection CustomSerial "c" (new_serial_settings "/dev/ttyS0" 9600)) sample_mapping
    sample_spec 5 [0xAA; 0x01; 0x02] [0xC0; 0xAA; 0x01; 0x02; 0xA9; 0xC0]
    [0xC0; 1; 3; 64; 33; 0xC0] (VInteger 258) [] [] _ _ _ _ _ _ _ _ _)).
  - reflexivity.
  - vm_compute. reflexivity.
  - vm_compute. reflexivity.
  - bytes_tac.
  - discriminate.
  - simpl. lia.
  - intros prefix l Hp Hl. injection Hp as <-. vm_compute in Hl. injection Hl as <-. reflexivity.
  - vm_compute. reflexivity.
  - vm_compute. reflexivity.
Defined.
