(* ===== verification/Dlt645.v ===== *)
(** DL/T 645 electricity meters, [crates/edge-runtime/src/dlt645.rs]: the read
    frames, the BCD value decoder, the grouping of points that share a meter
    and a data identifier, the classification of failures and the adapter's
    read over any instance of [SerialBus]. *)

From Stdlib Require Import ZArith Lia SpecFloat.
From S2P Require Import Prelude RustStr Floats Model ConfigTypes ConfigParse SerialBus.

Open Scope Z_scope.

Definition FRAME_START : Z := 0x68.
Definition FRAME_END : Z := 0x16.
Definition READ_DATA : Z := 0x11.
Definition READ_DATA_RESPONSE : Z := 0x91.
Definition DATA_OFFSET : Z := 0x33.

(** ** Frames *)

Definition dlt645_checksum : bytes -> Z := sum8.

Definition append_dlt645_checksum (frame : bytes) : bytes := frame ++ [dlt645_checksum frame].

(** The six address bytes, least significant pair of digits first. *)
Definition encode_meter_address (value : string) : Result bytes :=
  let digits := str_bytes (str_trim value) in
  ensure (bool_decide (length digits = 12%nat) && forallb is_ascii_digit digits)
    "DL/T 645 meter address must contain 12 decimal digits";;
  Ok (reverse ((fun pair => Z.lor (wrap 8 (Z.shiftl (fst pair - 48) 4)) (snd pair - 48))
                 <$> chunks2 digits)).

Definition offset_byte (b : Z) : Z := wrapping_add8 b DATA_OFFSET.

Definition build_read_data_request (meter : bytes) (data_identifier : Z) : bytes :=
  append_dlt645_checksum
    ([FRAME_START] ++ meter ++ [FRAME_START; READ_DATA; 4] ++
     (offset_byte <$> to_le_bytes 4 data_identifier)) ++ [FRAME_END].

Definition parse_read_data_response (response expected_meter : bytes) (expected_identifier : Z)
    : Result bytes :=
  start ← ok_or (position (fun b => b =? FRAME_START) response)
    "DL/T 645 response has no frame start";
  let frame := drop start response in
  ensure (bool_decide (12 <= length frame)%nat) "DL/T 645 response is too short";;
  ensure (byte_at frame 7 =? FRAME_START) "DL/T 645 response has an invalid second frame start";;
  let data_len := Z.to_nat (byte_at frame 9) in
  let expected_len := (12 + data_len)%nat in
  ensure (bool_decide (length frame = expected_len))
    "DL/T 645 response length does not match data length";;
  ensure (byte_at frame (expected_len - 1) =? FRAME_END)
    "DL/T 645 response has an invalid frame end";;
  ensure (dlt645_checksum (take (expected_len - 2) frame) =? byte_at frame (expected_len - 2))
    "DL/T 645 checksum mismatch";;
  ensure (bool_decide (take 6 (drop 1 frame) = expected_meter))
    "DL/T 645 response meter address does not match request";;
  let control := byte_at frame 8 in
  let decoded := (fun b => wrapping_sub8 b DATA_OFFSET) <$> take data_len (drop 10 frame) in
  if negb (Z.land control 0x40 =? 0) then
    Err ("DL/T 645 exception code 0x" ++ show_hex 2 (byte_at decoded 0))
  else
    ensure (control =? READ_DATA_RESPONSE)
      "DL/T 645 response control code does not match read-data request";;
    ensure (bool_decide (4 <= length decoded)%nat)
      "DL/T 645 read-data response is missing its data identifier";;
    ensure (from_le_bytes (take 4 decoded) =? expected_identifier)
      "DL/T 645 response data identifier does not match request";;
    Ok (drop 4 decoded).

(** ** Values *)

(** The digit loop, over the bytes from the last to the first. *)
Fixpoint bcd_digits (l : bytes) : Result bytes :=
  match l with
  | [] => Ok []
  | byte :: rest =>
      let high := Z.shiftr byte 4 in
      let low := Z.land byte 0x0F in
      ensure (negb ((9 <? high) || (9 <? low))) "DL/T 645 value contains invalid BCD data";;
      digits ← bcd_digits rest;
      Ok (48 + high :: 48 + low :: digits)
  end.

(** [10_u64.pow(n)]: the overflow checks turn an overflow into a panic. *)
Definition pow10_u64 (n : Z) : Result Z :=
  if 10 ^ n <=? u_max 64 then Ok (10 ^ n) else Panic "attempt to multiply with overflow".

Definition decode_bcd_value (value_type : TelemetryType) (l : bytes) (decimal_places : Z)
    : Result TelemetryValue :=
  ensure (negb (bool_decide (l = []))) "DL/T 645 response contains no value data";;
  digits ← bcd_digits (reverse l);
  match value_type with
  | Ty_Text => Ok (VText (str_of_bytes digits))
  | Ty_Integer =>
      value ← ok_or (parse_dec (i_max 64) digits) "DL/T 645 integer value exceeds i64 range";
      Ok (VInteger value)
  | Ty_Float =>
      value ← ok_or (parse_dec (u_max 64) digits) "DL/T 645 float value exceeds u64 range";
      divisor ← pow10_u64 decimal_places;
      Ok (VFloat (f64_div (f64_of_Z value) (f64_of_Z divisor)))
  | Ty_Boolean => Ok (VBoolean (existsb (fun b => negb (b =? 48)) digits))
  end.

(** ** Read groups *)

Record Dlt645ReadTarget := { target_mapping : TelemetryPointMapping; target_decimal_places : Z }.

Record Dlt645ReadGroup := {
  group_meter_address : string;
  group_data_identifier : Z;
  group_expected_value_bytes : option Z;
  group_targets : list Dlt645ReadTarget;
}.

Definition expected_value_bytes (data_identifier : Z) (configured : option Z) (point_id : string)
    : Result (option Z) :=
  match dlt645_template_by_identifier data_identifier with
  | None => Ok configured
  | Some tpl =>
      (match configured with
       | Some configured =>
           ensure (configured =? tpl_value_bytes tpl)
             ("DL/T 645 point " ++ point_id ++ " data identifier " ++ tpl_data_identifier tpl ++
              " uses the standard response length " ++ show_Z (tpl_value_bytes tpl) ++
              " but configures " ++ show_Z configured)%string
       | None => Ok ()
       end);;
      Ok (Some (tpl_value_bytes tpl))
  end.

Definition group_key (g : Dlt645ReadGroup) : string * Z :=
  (group_meter_address g, group_data_identifier g).

(** Adding a point to the group it matches: the expected lengths must agree. *)
Definition join_group (address : Dlt645PointAddress) (expected : option Z)
    (target : Dlt645ReadTarget) (g : Dlt645ReadGroup) : Result Dlt645ReadGroup :=
  expected' ←
    match group_expected_value_bytes g, expected with
    | Some current, Some candidate =>
        ensure (current =? candidate)
          ("DL/T 645 points sharing meter " ++ dlt_meter_address address ++ " data identifier " ++
           show_hex 8 (dlt_data_identifier address) ++
           " configure conflicting response value byte lengths: " ++ show_Z current ++ " and " ++
           show_Z candidate)%string;;
        Ok (Some current)
    | None, Some candidate => Ok (Some candidate)
    | current, None => Ok current
    end;
  Ok {| group_meter_address := group_meter_address g;
        group_data_identifier := group_data_identifier g;
        group_expected_value_bytes := expected';
        group_targets := group_targets g ++ [target] |}.

(** [groups.iter_mut().find(..)]: the first group of the key is extended, or a
    group is pushed. *)
Fixpoint add_to_groups (address : Dlt645PointAddress) (expected : option Z)
    (target : Dlt645ReadTarget) (groups : list Dlt645ReadGroup) : Result (list Dlt645ReadGroup) :=
  match groups with
  | [] =>
      Ok [{| group_meter_address := dlt_meter_address address;
             group_data_identifier := dlt_data_identifier address;
             group_expected_value_bytes := expected; group_targets := [target] |}]
  | g :: rest =>
      if bool_decide (group_key g = (dlt_meter_address address, dlt_data_identifier address))
      then g' ← join_group address expected target g; Ok (g' :: rest)
      else rest' ← add_to_groups address expected target rest; Ok (g :: rest')
  end.

Definition group_mapping (groups : list Dlt645ReadGroup) (mapping : TelemetryPointMapping)
    : Result (list Dlt645ReadGroup) :=
  ensure (bool_decide (addr_kind (map_address mapping) = "dlt645_address"%string))
    "DL/T 645 adapter supports dlt645_address addresses";;
  address ← with_context (parse_dlt645_point_address (addr_value (map_address mapping)))
    ("invalid point address for " ++ map_point_id mapping);
  expected ← expected_value_bytes (dlt_data_identifier address) (dlt_value_bytes address)
    (map_point_id mapping);
  add_to_groups address expected
    {| target_mapping := mapping; target_decimal_places := dlt_decimal_places address |} groups.

Definition build_read_groups (connection_id : string) (mappings : list TelemetryPointMapping)
    : Result (list Dlt645ReadGroup) :=
  fold_left (fun acc mapping => acc ≫= fun groups => group_mapping groups mapping)
    (filter (fun mapping => map_protocol_connection_id mapping = connection_id) mappings) (Ok []).

(** ** Failures *)

Record Dlt645ReadFailure := {
  fail_meter_address : string;
  fail_data_identifier : Z;
  fail_point_count : Z;
  fail_quality_code : DataQualityCode;
  fail_reason : string;
}.

Definition classify_dlt645_error (error : string) : DataQualityCode :=
  let message := str_to_ascii_lowercase error in
  let contains := str_contains message in
  if contains "timeout" || contains "timed out" then BadTimeout
  else if contains "meter address" || contains "configuration" then BadConfiguration
  else if contains "bcd" || contains "value bytes" || contains "value data" || contains "exceeds"
  then BadDecode
  else if contains "checksum" || contains "exception" || contains "response" || contains "frame"
          || contains "control code" || contains "data identifier"
  then BadProtocol
  else BadCommunication.

Definition validate_value_length (data_identifier : Z) (expected_bytes : option Z) (actual : nat)
    : Result () :=
  match expected_bytes with
  | None => Ok ()
  | Some expected =>
      ensure (Z.of_nat actual =? expected)
        ("DL/T 645 data identifier " ++ show_hex 8 data_identifier ++ " expects " ++
         show_Z expected ++ " value bytes, received " ++ show_Z (Z.of_nat actual))%string
  end.

(** ** The adapter *)

(** The locals of [read_telemetry] and the field [read_failures]. *)
Record ReadState := {
  read_failures : list Dlt645ReadFailure;
  read_samples : list TelemetrySample;
  successful_groups : Z;
  failed_groups : Z;
  first_group_error : option string;
}.

Definition start_read : ReadState :=
  {| read_failures := []; read_samples := []; successful_groups := 0; failed_groups := 0;
     first_group_error := None |}.

Definition group_failure (g : Dlt645ReadGroup) (points : Z) (error : string) : Dlt645ReadFailure :=
  {| fail_meter_address := group_meter_address g; fail_data_identifier := group_data_identifier g;
     fail_point_count := points; fail_quality_code := classify_dlt645_error error;
     fail_reason := error |}.

Definition push_failure (st : ReadState) (failure : Dlt645ReadFailure) : ReadState :=
  {| read_failures := read_failures st ++ [failure]; read_samples := read_samples st;
     successful_groups := successful_groups st; failed_groups := failed_groups st;
     first_group_error := first_group_error st |}.

Definition push_sample (st : ReadState) (sample : TelemetrySample) : ReadState :=
  {| read_failures := read_failures st; read_samples := read_samples st ++ [sample];
     successful_groups := successful_groups st; failed_groups := failed_groups st;
     first_group_error := first_group_error st |}.

(** The loop over the targets of a group that was read. *)
Fixpoint decode_targets (now : DateTime) (g : Dlt645ReadGroup) (value_bytes : bytes)
    (targets : list Dlt645ReadTarget) (st : ReadState) : Result ReadState :=
  match targets with
  | [] => Ok st
  | target :: rest =>
      let mapping := target_mapping target in
      match decode_bcd_value (map_value_type mapping) value_bytes (target_decimal_places target) with
      | Ok value =>
          decode_targets now g value_bytes rest
            (push_sample st (new_sample (map_device_id mapping) (map_point_id mapping) value
               Q_Good now))
      | Err error => decode_targets now g value_bytes rest (push_failure st (group_failure g 1 error))
      | Panic e => Panic e
      end
  end.

Definition group_read_ok (st : ReadState) : ReadState :=
  {| read_failures := read_failures st; read_samples := read_samples st;
     successful_groups := sat_add 64 (successful_groups st) 1; failed_groups := failed_groups st;
     first_group_error := first_group_error st |}.

Definition group_read_failed (g : Dlt645ReadGroup) (error : string) (st : ReadState) : ReadState :=
  {| read_failures := read_failures st ++
       [group_failure g (Z.of_nat (length (group_targets g))) error];
     read_samples := read_samples st; successful_groups := successful_groups st;
     failed_groups := sat_add 64 (failed_groups st) 1;
     first_group_error := match first_group_error st with
                          | None => Some error
                          | Some first => Some first
                          end |}.

Section adapter.
Context {B : Type} `{SerialBus B}.

Definition read_group (g : Dlt645ReadGroup) : M B bytes :=
  meter ← lift (encode_meter_address (group_meter_address g));
  let request := build_read_data_request meter (group_data_identifier g) in
  response ← transact request;
  value_bytes ← lift (parse_read_data_response response meter (group_data_identifier g));
  _ ← lift (validate_value_length (group_data_identifier g) (group_expected_value_bytes g)
    (length value_bytes));
  mret value_bytes.

(** One turn of the loop over the groups; [now] stands for the instants its
    samples are taken at. *)
Definition read_one_group (now : DateTime) (st : ReadState) (g : Dlt645ReadGroup)
    : M B ReadState := fun bus =>
  match read_group g bus with
  | (bus, Ok value_bytes) =>
      (bus, decode_targets now g value_bytes (group_targets g) (group_read_ok st))
  | (bus, Err error) => (bus, Ok (group_read_failed g error st))
  | (bus, Panic e) => (bus, Panic e)
  end.

Fixpoint read_groups (clock : nat -> DateTime) (turn : nat) (groups : list Dlt645ReadGroup)
    (st : ReadState) : M B ReadState :=
  match groups with
  | [] => mret st
  | g :: rest => st ← read_one_group (clock turn) st g; read_groups clock (S turn) rest st
  end.

(** The end of [read_telemetry]: only a read in which every group failed is
    an error. *)
Definition read_outcome (st : ReadState) : Result (list TelemetrySample) :=
  if (successful_groups st =? 0) && (0 <? failed_groups st) then
    error ← expect (first_group_error st) "a failed group must retain its first error";
    Err ("all " ++ show_Z (failed_groups st) ++ " DL/T 645 read groups failed: " ++ error)%string
  else Ok (read_samples st).

(** [Dlt645Adapter::read_telemetry]: the failures it leaves and its result. *)
Definition read_telemetry (clock : nat -> DateTime) (connection : ProtocolConnection)
    (mappings : list TelemetryPointMapping)
    : M B (list Dlt645ReadFailure * Result (list TelemetrySample)) :=
  if negb (bool_decide (conn_protocol connection = Dlt645)) then
    mret ([], bail "DL/T 645 adapter requires a Dlt645 protocol connection")
  else
    match build_read_groups (conn_id connection) mappings with
    | Ok groups =>
        st ← read_groups clock 0 groups start_read;
        mret (read_failures st, read_outcome st)
    | Err e => mret ([], Err e)
    | Panic e => mret ([], Panic e)
    end.
End adapter.

(** ** The frame of a meter's answer *)

(** The read-data response of DL/T 645-2007: control code 0x91, the data
    identifier and the value with the offset 0x33 added to every byte. *)
Definition response_frame (meter : bytes) (data_identifier : Z) (value : bytes) : bytes :=
  append_dlt645_checksum
    ([FRAME_START] ++ meter ++ [FRAME_START; READ_DATA_RESPONSE; 4 + Z.of_nat (length value)] ++
     (offset_byte <$> (to_le_bytes 4 data_identifier ++ value))) ++ [FRAME_END].

Lemma add_sub_offset b : byte_ok b -> offset_byte (wrapping_sub8 b DATA_OFFSET) = b.
Proof.
  intros Hb. unfold offset_byte, wrapping_add8, wrapping_sub8, wrap.
  rewrite Zplus_mod_idemp_l, Z.sub_add. by apply (wrap_small 8).
Qed.

Lemma sub_offset_bytes l :
  bytes_ok l -> (fun b => wrapping_sub8 b DATA_OFFSET) <$> (offset_byte <$> l) = l.
Proof.
  intros Hl. rewrite <- list_fmap_compose. rewrite <- (list_fmap_id l) at 2.
  apply list_fmap_ext. intros i b Hb. simpl. apply wrapping_add_sub8.
  by eapply (Forall_lookup_1 byte_ok).
Qed.

Lemma add_offset_bytes l :
  bytes_ok l -> offset_byte <$> ((fun b => wrapping_sub8 b DATA_OFFSET) <$> l) = l.
Proof.
  intros Hl. rewrite <- list_fmap_compose. rewrite <- (list_fmap_id l) at 2.
  apply list_fmap_ext. intros i b Hb. simpl. apply add_sub_offset.
  by eapply (Forall_lookup_1 byte_ok).
Qed.

Lemma length_6 (l : bytes) :
  length l = 6%nat -> exists a b c d e f, l = [a; b; c; d; e; f].
Proof. destruct l as [|a [|b [|c [|d [|e [|f [|]]]]]]]; intros; simplify_eq/=; eauto 10. Qed.

(** The parser on a frame written out: ten header bytes, the data, the checksum
    and the end. *)
Lemma parse_frame_bytes prefix m0 m1 m2 m3 m4 m5 s2 control len data check stop meter id :
  Forall (fun b => (b =? FRAME_START) = false) prefix -> len = Z.of_nat (length data) ->
  let header := [FRAME_START; m0; m1; m2; m3; m4; m5; s2; control; len] in
  let decoded := (fun b => wrapping_sub8 b DATA_OFFSET) <$> data in
  parse_read_data_response (prefix ++ header ++ data ++ [check; stop]) meter id =
  (ensure (s2 =? FRAME_START) "DL/T 645 response has an invalid second frame start";;
   ensure (stop =? FRAME_END) "DL/T 645 response has an invalid frame end";;
   ensure (dlt645_checksum (header ++ data) =? check) "DL/T 645 checksum mismatch";;
   ensure (bool_decide ([m0; m1; m2; m3; m4; m5] = meter))
     "DL/T 645 response meter address does not match request";;
   if negb (Z.land control 0x40 =? 0) then
     Err ("DL/T 645 exception code 0x" ++ show_hex 2 (byte_at decoded 0))
   else
     ensure (control =? READ_DATA_RESPONSE)
       "DL/T 645 response control code does not match read-data request";;
     ensure (bool_decide (4 <= length decoded)%nat)
       "DL/T 645 read-data response is missing its data identifier";;
     ensure (from_le_bytes (take 4 decoded) =? id)
       "DL/T 645 response data identifier does not match request";;
     Ok (drop 4 decoded)).
Proof.
  intros Hprefix Hlen header decoded. unfold parse_read_data_response.
  pose proof (position_app (fun b => b =? FRAME_START) prefix FRAME_START
    (tail header ++ data ++ [check; stop]) Hprefix eq_refl) as Hpos.
  change (FRAME_START :: tail header ++ data ++ [check; stop])
    with (header ++ data ++ [check; stop]) in Hpos.
  rewrite Hpos. cbn [ok_or mbind Result_bind]. rewrite drop_app_length.
  rewrite (bool_decide_true (12 <= _)%nat) by (rewrite !length_app; simpl; lia).
  change (byte_at (header ++ data ++ [check; stop]) 7) with s2.
  change (byte_at (header ++ data ++ [check; stop]) 8) with control.
  change (byte_at (header ++ data ++ [check; stop]) 9) with len.
  rewrite Hlen, Nat2Z.id.
  rewrite (bool_decide_true (length (header ++ data ++ [check; stop]) = _))
    by (rewrite !length_app; simpl; lia).
  assert (Hat : forall i, byte_at (header ++ data ++ [check; stop]) (10 + length data + i) =
                          byte_at [check; stop] i).
  { intros i. unfold byte_at. rewrite app_assoc, lookup_app_r by (rewrite length_app; simpl; lia).
    do 2 f_equal. rewrite length_app. simpl. lia. }
  replace (12 + length data - 1)%nat with (10 + length data + 1)%nat by lia.
  replace (12 + length data - 2)%nat with (10 + length data + 0)%nat by lia.
  rewrite !Hat. change (byte_at [check; stop] 1) with stop. change (byte_at [check; stop] 0) with check.
  replace (take (10 + length data + 0) (header ++ data ++ [check; stop])) with (header ++ data).
  2: { rewrite app_assoc, take_app_le by (rewrite length_app; simpl; lia).
       symmetry. apply take_ge. rewrite length_app. simpl. lia. }
  change (take 6 (drop 1 (header ++ data ++ [check; stop]))) with [m0; m1; m2; m3; m4; m5].
  change (drop 10 (header ++ data ++ [check; stop])) with (data ++ [check; stop]).
  rewrite take_app_length. done.
Qed.

(** A response the parser accepts has the shape of a frame. *)
Lemma parse_shape response meter id value :
  bytes_ok response -> parse_read_data_response response meter id = Ok value ->
  exists prefix m0 m1 m2 m3 m4 m5 s2 control len data check stop,
    Forall (fun b => (b =? FRAME_START) = false) prefix /\ len = Z.of_nat (length data) /\
    response = prefix ++ [FRAME_START; m0; m1; m2; m3; m4; m5; s2; control; len] ++
               data ++ [check; stop].
Proof.
  intros Hok Hparse. unfold parse_read_data_response in Hparse. inv_result.
  match goal with H : position _ _ = Some _ |- _ =>
    apply position_split in H as (prefix & x & l & -> & <- & Hx & Hprefix) end.
  apply Z.eqb_eq in Hx as ->. rewrite drop_app_length in *. simp_bool.
  destruct l as [|m0 [|m1 [|m2 [|m3 [|m4 [|m5 [|s2 [|control [|len rest]]]]]]]]];
    try (simpl in *; lia).
  assert (Hlen : byte_ok len).
  { apply Forall_app in Hok as [_ Hok]. by do 9 (apply Forall_cons_iff in Hok as [_ Hok]);
      apply Forall_cons_iff in Hok as [? _]. }
  match goal with H : length _ = (12 + _)%nat |- _ => rename H into Hl end.
  change (byte_at _ 9) with len in Hl. rewrite !length_cons in Hl. unfold byte_ok in Hlen.
  assert (Hrest : rest = take (Z.to_nat len) rest ++ drop (Z.to_nat len) rest)
    by by rewrite take_drop.
  destruct (drop (Z.to_nat len) rest) as [|check [|stop [|]]] eqn:Hd;
    apply (f_equal length) in Hd; rewrite length_drop in Hd; simpl in Hd; try lia.
  exists prefix, m0, m1, m2, m3, m4, m5, s2, control, len, (take (Z.to_nat len) rest), check, stop.
  split; [done|]. split; [rewrite length_take; lia|]. rewrite Hrest at 1. done.
Qed.

Lemma start_neq b : b <> FRAME_START -> (b =? FRAME_START) = false.
Proof. by rewrite Z.eqb_neq. Qed.

(** What the parser accepts is the frame of the value it returns. *)
Lemma parse_accepts_frames response meter id value :
  bytes_ok response -> length meter = 6%nat ->
  parse_read_data_response response meter id = Ok value ->
  exists prefix, Forall (fun b => b <> FRAME_START) prefix /\ bytes_ok value /\
    (length value <= 251)%nat /\ response = prefix ++ response_frame meter id value.
Proof.
  intros Hok Hmeter. destruct (length_6 meter Hmeter) as (a & b & c & d & e & f & ->).
  intros Hparse.
  destruct (parse_shape response _ id value Hok Hparse) as
    (prefix & m0 & m1 & m2 & m3 & m4 & m5 & s2 & control & len & data & check & stop & Hp & Hlen & ->).
  rewrite parse_frame_bytes in Hparse by done. inv_result. case_bool; [done|]. inv_result.
  simp_bool. simplify_eq/=. exists prefix.
  assert (Hdata : bytes_ok data /\ byte_ok (Z.of_nat (length data))).
  { apply Forall_app in Hok as [_ Hok]. do 9 (apply Forall_cons_iff in Hok as [_ Hok]).
    apply Forall_cons_iff in Hok as [? Hok]. by apply Forall_app in Hok as [? _]. }
  destruct Hdata as [Hdata Hbyte].
  set (decoded := (fun b => wrapping_sub8 b DATA_OFFSET) <$> data) in *.
  assert (Hdec : bytes_ok decoded).
  { apply Forall_fmap. eapply Forall_impl; [|exact Hdata]. intros x _. apply byte_ok_wrap. }
  assert (Hdl : length decoded = length data) by apply length_fmap.
  split; [|split; [|split]].
  + eapply Forall_impl; [|exact Hp]. intros x. by rewrite Z.eqb_neq.
  + by apply Forall_drop.
  + rewrite length_drop, Hdl. unfold byte_ok in Hbyte. lia.
  + unfold response_frame, append_dlt645_checksum. rewrite length_drop, Hdl.
    replace (to_le_bytes 4 (from_le_bytes (take 4 decoded))) with (take 4 decoded).
    2: { rewrite <- (to_le_from_le (take 4 decoded)) at 1 by by apply Forall_take.
         f_equal. rewrite length_take. lia. }
    rewrite take_drop. unfold decoded. rewrite add_offset_bytes by done.
    replace (4 + Z.of_nat (length data - 4)) with (Z.of_nat (length data)) by lia.
    rewrite <- app_assoc. simpl. done.
Qed.

(** Every frame is accepted. *)
Lemma parse_frames prefix meter id value :
  length meter = 6%nat -> u_ok 32 id -> Forall (fun b => b <> FRAME_START) prefix ->
  bytes_ok value -> (length value <= 251)%nat ->
  parse_read_data_response (prefix ++ response_frame meter id value) meter id = Ok value.
Proof.
  intros Hmeter Hid Hp Hv Hlen. destruct (length_6 meter Hmeter) as (a & b & c & d & e & f & ->).
  set (data := offset_byte <$> (to_le_bytes 4 id ++ value)).
  assert (Hdl : length data = (4 + length value)%nat).
  { unfold data. rewrite length_fmap, length_app, length_to_le_bytes. done. }
  unfold response_frame, append_dlt645_checksum. fold data.
  replace (prefix ++ _) with (prefix ++ [FRAME_START; a; b; c; d; e; f; FRAME_START;
    READ_DATA_RESPONSE; 4 + Z.of_nat (length value)] ++ data ++
    [dlt645_checksum ([FRAME_START; a; b; c; d; e; f; FRAME_START; READ_DATA_RESPONSE;
       4 + Z.of_nat (length value)] ++ data); FRAME_END])
    by (f_equal; rewrite <- app_assoc; done).
  rewrite parse_frame_bytes.
  2: { eapply Forall_impl; [|exact Hp]. apply start_neq. }
  2: { rewrite Hdl. lia. }
  assert (Hdec : (fun b => wrapping_sub8 b DATA_OFFSET) <$> data = to_le_bytes 4 id ++ value).
  { apply sub_offset_bytes, Forall_app. split; [apply to_le_bytes_ok | done]. }
  rewrite Hdec, !Z.eqb_refl, (bool_decide_true (_ = _)) by done.
  rewrite (bool_decide_true (4 <= _)%nat) by (rewrite length_app, length_to_le_bytes; lia).
  rewrite take_app_length' by by rewrite length_to_le_bytes.
  rewrite drop_app_length' by by rewrite length_to_le_bytes.
  rewrite from_le_to_le by exact Hid. rewrite Z.eqb_refl. done.
Qed.

(** The response parser accepts exactly the frames the protocol defines:
    after any wake-up bytes, the frame of the requested meter and the requested
    data identifier with a valid length, checksum and end; it returns the value
    bytes of that frame, whatever their content. *)
Theorem parse_response_iff response meter id value :
  bytes_ok response -> length meter = 6%nat -> u_ok 32 id ->
  parse_read_data_response response meter id = Ok value <->
  exists prefix, Forall (fun b => b <> FRAME_START) prefix /\ bytes_ok value /\
    (length value <= 251)%nat /\ response = prefix ++ response_frame meter id value.
Proof.
  intros Hok Hmeter Hid. split; [by apply parse_accepts_frames|].
  intros (prefix & Hp & Hv & Hlen & ->). by apply parse_frames.
Qed.

Lemma parse_response_iff_witness :
  parse_read_data_response
    ([0xFE; 0xFE] ++ response_frame [1; 2; 3; 4; 5; 6] 0x02010100 [0x20; 0x22])
    [1; 2; 3; 4; 5; 6] 0x02010100 = Ok [0x20; 0x22].
Proof.
  apply (parse_response_iff _ [1; 2; 3; 4; 5; 6] 0x02010100 [0x20; 0x22]).
  - vm_compute. repeat constructor; discriminate.
  - reflexivity.
  - split; lia.
  - exists [0xFE; 0xFE]. split; [repeat constructor; discriminate|].
    split; [bytes_tac|]. split; [simpl; lia | reflexivity].
Defined.

(** ** BCD values *)

Definition bcd_byte_ok (b : Z) : Prop := Z.shiftr b 4 <= 9 /\ Z.land b 0x0F <= 9.

(** The number a little-endian BCD string denotes, and its digits. *)
Fixpoint bcd_value (l : bytes) : Z :=
  match l with
  | [] => 0
  | b :: l => (10 * Z.shiftr b 4 + Z.land b 0x0F) + 100 * bcd_value l
  end.

Definition bcd_text (l : bytes) : bytes :=
  concat ((fun b => [48 + Z.shiftr b 4; 48 + Z.land b 0x0F]) <$> l).

Lemma bcd_nibbles b : byte_ok b -> 0 <= Z.shiftr b 4 < 16 /\ 0 <= Z.land b 0x0F < 16.
Proof.
  intros [? ?]. rewrite Z.shiftr_div_pow2 by lia. change 0x0F with (Z.ones 4).
  rewrite Z.land_ones by lia. change (2 ^ 4) with 16. split.
  - split; [apply Z.div_pos; lia | apply Z.div_lt_upper_bound; lia].
  - apply Z.mod_pos_bound. lia.
Qed.

Lemma bcd_digits_ok l : Forall bcd_byte_ok l -> bcd_digits l = Ok (bcd_text l).
Proof.
  induction 1 as [|b l [Hh Hl] Hall IH]; [done|]. cbn [bcd_digits].
  rewrite (proj2 (Z.ltb_ge _ _) Hh), (proj2 (Z.ltb_ge _ _) Hl). cbn [orb negb ensure mbind Result_bind].
  rewrite IH. done.
Qed.

Lemma bcd_digits_bad l :
  ~ Forall bcd_byte_ok l -> bcd_digits l = Err "DL/T 645 value contains invalid BCD data".
Proof.
  induction l as [|b l IH]; intros Hbad; [by destruct Hbad|]. cbn [bcd_digits].
  destruct (Z.ltb_spec 9 (Z.shiftr b 4)) as [|Hh]; [done|].
  destruct (Z.ltb_spec 9 (Z.land b 0x0F)) as [|Hl]; [done|]. simpl. rewrite IH; [done|].
  intros Hall. apply Hbad. by constructor.
Qed.

Lemma bcd_text_ascii l :
  bytes_ok l -> Forall bcd_byte_ok l -> Forall (fun b => is_ascii_digit b = true) (bcd_text l).
Proof.
  intros Hok Hall. apply Forall_concat, Forall_fmap. apply Forall_lookup. intros i b Hb. simpl.
  pose proof (Forall_lookup_1 _ _ _ _ Hall Hb) as [? ?].
  pose proof (bcd_nibbles b (Forall_lookup_1 _ _ _ _ Hok Hb)) as [? ?].
  repeat constructor; unfold is_ascii_digit; rewrite andb_true_iff, !Z.leb_le; lia.
Qed.

Lemma bcd_text_snoc l b :
  bcd_text (l ++ [b]) = bcd_text l ++ [48 + Z.shiftr b 4; 48 + Z.land b 0x0F].
Proof. unfold bcd_text. by rewrite fmap_app, concat_app. Qed.

Lemma bcd_text_value l : digits_value (bcd_text (reverse l)) = bcd_value l.
Proof.
  induction l as [|b l IH]; [done|]. rewrite reverse_cons, bcd_text_snoc, digits_value_app, IH.
  simpl bcd_value. change (Z.of_nat (length [_; _])) with 2. unfold digits_value. simpl. lia.
Qed.

Lemma bcd_text_nonempty l : l <> [] -> bcd_text (reverse l) <> [].
Proof.
  intros Hne Hnil. destruct l as [|b l]; [done|]. rewrite reverse_cons, bcd_text_snoc in Hnil.
  by apply app_eq_nil in Hnil as [_ ?].
Qed.

Lemma pow10_u64_ok n : 0 <= n <= 18 -> pow10_u64 n = Ok (10 ^ n).
Proof.
  intros Hn. unfold pow10_u64. rewrite (proj2 (Z.leb_le _ _)); [done|].
  transitivity (10 ^ 18); [apply Z.pow_le_mono_r; lia | done].
Qed.

(** The value decoder reads binary coded decimals: a value with a nibble
    above nine is refused for every point type; otherwise a text point carries
    its digits, most significant first, an integer point the number they
    denote and a float point that number divided by the configured power of
    ten, and a number that does not fit 64 bits is an error. *)
Theorem bcd_decode_spec l decimal_places :
  l <> [] -> bytes_ok l -> 0 <= decimal_places <= 18 ->
  (~ Forall bcd_byte_ok l -> forall value_type,
     decode_bcd_value value_type l decimal_places =
     Err "DL/T 645 value contains invalid BCD data") /\
  (Forall bcd_byte_ok l ->
   decode_bcd_value Ty_Text l decimal_places = Ok (VText (str_of_bytes (bcd_text (reverse l)))) /\
   decode_bcd_value Ty_Integer l decimal_places =
     (if bcd_value l <=? i_max 64 then Ok (VInteger (bcd_value l))
      else Err "DL/T 645 integer value exceeds i64 range") /\
   decode_bcd_value Ty_Float l decimal_places =
     (if bcd_value l <=? u_max 64
      then Ok (VFloat (f64_div (f64_of_Z (bcd_value l)) (f64_of_Z (10 ^ decimal_places))))
      else Err "DL/T 645 float value exceeds u64 range")).
Proof.
  intros Hne Hok Hdp. unfold decode_bcd_value. rewrite bool_decide_false by done.
  cbn [negb ensure mbind Result_bind]. split.
  - intros Hbad value_type. rewrite bcd_digits_bad; [done|].
    intros Hall. apply Hbad. rewrite <- (reverse_involutive l). by apply Forall_reverse.
  - intros Hall. rewrite bcd_digits_ok by by apply Forall_reverse. cbn [mbind Result_bind].
    rewrite !parse_dec_digits, bcd_text_value
      by (by apply bcd_text_nonempty || (apply bcd_text_ascii; by apply Forall_reverse)).
    rewrite pow10_u64_ok by done. split; [done|]. split; case_bool; done.
Qed.

Lemma bcd_decode_spec_witness :
  decode_bcd_value Ty_Integer [0x78; 0x56; 0x34; 0x12] 2 = Ok (VInteger 12345678) /\
  decode_bcd_value Ty_Float [0x0A] 0 = Err "DL/T 645 value contains invalid BCD data".
Proof.
  split.
  - refine (proj1 (proj2 (proj2 (bcd_decode_spec [0x78; 0x56; 0x34; 0x12] 2 _ _ _) _))).
    + discriminate.
    + bytes_tac.
    + lia.
    + repeat constructor; vm_compute; discriminate.
  - refine (proj1 (bcd_decode_spec [0x0A] 0 _ _ _) _ Ty_Float).
    + discriminate.
    + bytes_tac.
    + lia.
    + intros H. apply Forall_cons_iff in H as [[_ H] _]. by vm_compute in H.
Defined.

(** ** Grouping *)

(** A target belongs to the group of its address. *)
Definition target_ok (g : Dlt645ReadGroup) (t : Dlt645ReadTarget) : Prop :=
  exists address,
    parse_dlt645_point_address (addr_value (map_address (target_mapping t))) = Ok address /\
    group_key g = (dlt_meter_address address, dlt_data_identifier address) /\
    target_decimal_places t = dlt_decimal_places address.

Definition groups_ok (groups : list Dlt645ReadGroup) : Prop :=
  NoDup (group_key <$> groups) /\ Forall (fun g => Forall (target_ok g) (group_targets g)) groups.

Definition group_mappings (groups : list Dlt645ReadGroup) : list TelemetryPointMapping :=
  concat ((fun g => target_mapping <$> group_targets g) <$> groups).

Lemma join_group_spec address expected target g g' :
  join_group address expected target g = Ok g' ->
  group_key g' = group_key g /\ group_targets g' = group_targets g ++ [target].
Proof. unfold join_group. intros H. inv_result. done. Qed.

Lemma target_ok_key g g' t : group_key g = group_key g' -> target_ok g t -> target_ok g' t.
Proof. intros Hk (a & ? & ? & ?). exists a. split; [done|]. split; [congruence | done]. Qed.

Lemma add_to_groups_spec address expected target groups groups' :
  add_to_groups address expected target groups = Ok groups' ->
  parse_dlt645_point_address (addr_value (map_address (target_mapping target))) = Ok address ->
  target_decimal_places target = dlt_decimal_places address ->
  groups_ok groups ->
  groups_ok groups' /\ group_mappings groups' ≡ₚ target_mapping target :: group_mappings groups /\
  (forall k, k ∈ (group_key <$> groups') ->
     k ∈ (group_key <$> groups) \/ k = (dlt_meter_address address, dlt_data_identifier address)).
Proof.
  intros Hadd Hparse Hdp. revert groups' Hadd.
  induction groups as [|g groups IH]; intros groups' Hadd [Hnd Hall]; simpl in Hadd.
  { injection Hadd as <-. split; [|split; [done|]].
    - split; [apply NoDup_singleton|]. repeat constructor. by exists address.
    - intros k Hk. right. by apply list_elem_of_singleton in Hk. }
  rewrite fmap_cons in Hnd. apply list.NoDup_cons in Hnd as [Hfresh Hnd].
  apply Forall_cons_iff in Hall as [Hg Hall]. case_bool_decide as Hkey; inv_result.
  - match goal with H : join_group _ _ _ _ = Ok _ |- _ =>
      apply join_group_spec in H as [Hk Ht] end.
    split; [split|split].
    + rewrite fmap_cons, Hk. by apply NoDup_cons_2.
    + apply Forall_cons_iff. split; [|done]. rewrite Ht. apply Forall_app. split.
      * eapply Forall_impl; [|exact Hg]. intros t. by apply target_ok_key.
      * constructor; [|done]. exists address. by rewrite Hk.
    + unfold group_mappings. rewrite !fmap_cons, !concat_cons, Ht, fmap_app. simpl. solve_Permutation.
    + intros k. rewrite !fmap_cons, Hk. naive_solver.
  - match goal with H : add_to_groups _ _ _ _ = Ok _ |- _ =>
      destruct (IH _ H (conj Hnd Hall)) as ([Hnd' Hall'] & Hperm & Hkeys) end.
    split; [split|split].
    + rewrite fmap_cons. apply NoDup_cons_2; [|done]. intros [Hin|Hin]%Hkeys; [done|congruence].
    + by apply Forall_cons_iff.
    + unfold group_mappings in *. rewrite !fmap_cons, !concat_cons, Hperm. solve_Permutation.
    + intros k. rewrite !fmap_cons, !elem_of_cons. naive_solver.
Qed.

Lemma group_mapping_spec groups mapping groups' :
  group_mapping groups mapping = Ok groups' -> groups_ok groups ->
  groups_ok groups' /\ group_mappings groups' ≡ₚ mapping :: group_mappings groups.
Proof.
  unfold group_mapping. intros H Hok. inv_result.
  eapply add_to_groups_spec in H as (? & ? & _); try done; simpl; done.
Qed.

Lemma build_groups_spec connection_id mappings groups :
  build_read_groups connection_id mappings = Ok groups ->
  groups_ok groups /\
  group_mappings groups ≡ₚ
    filter (fun mapping => map_protocol_connection_id mapping = connection_id) mappings.
Proof.
  unfold build_read_groups. set (step := fun acc mapping => _ : Result (list Dlt645ReadGroup)).
  generalize (filter (fun mapping => map_protocol_connection_id mapping = connection_id) mappings).
  intros l. revert groups. induction l as [|mapping l IH] using rev_ind; intros groups Hb.
  - injection Hb as <-. split; [split; [apply NoDup_nil_2 | done] | done].
  - rewrite fold_left_app in Hb. cbn [fold_left] in Hb. unfold step at 1 in Hb. inv_result.
    match goal with H : fold_left _ _ _ = Ok _ |- _ => apply IH in H as [Hok Hperm] end.
    apply group_mapping_spec in Hb as [Hok' Hperm']; [|done]. split; [done|].
    rewrite Hperm', Hperm. solve_Permutation.
Qed.

(** Points are grouped so that each meter and data identifier is asked
    for once: no two read groups share them, every point of the connection is
    in exactly one group and no point of another connection is, and each point
    keeps the decimal places of its own address. *)
Theorem read_groups_partition connection_id mappings groups :
  build_read_groups connection_id mappings = Ok groups ->
  NoDup (group_key <$> groups) /\
  group_mappings groups ≡ₚ
    filter (fun mapping => map_protocol_connection_id mapping = connection_id) mappings /\
  forall g t, g ∈ groups -> t ∈ group_targets g -> target_ok g t.
Proof.
  intros Hb. destruct (build_groups_spec _ _ _ Hb) as [[Hnd Hall] Hperm].
  split; [done|]. split; [done|]. intros g t Hg Ht.
  exact (Forall_elem _ _ _ (Forall_elem _ _ _ Hall Hg) Ht).
Qed.

Definition meter_mapping (id value : string) : TelemetryPointMapping :=
  new_mapping id "meter" "s" "bus-1"
    {| addr_kind := "dlt645_address"; addr_value := value; addr_modbus := None |} Ty_Float.

Definition meter_points : list TelemetryPointMapping :=
  [meter_mapping "ua" "000000000123:02010100:1"; meter_mapping "f" "000000000123:02800002:2";
   meter_mapping "ua-raw" "000000000123:02010100:0"].

Lemma read_groups_partition_witness :
  exists groups, build_read_groups "bus-1" meter_points = Ok groups /\ length groups = 2%nat /\
    group_mappings groups ≡ₚ meter_points.
Proof.
  eexists. split; [vm_compute; reflexivity|]. split; [reflexivity|].
  refine (proj1 (proj2 (read_groups_partition "bus-1" meter_points _ _))).
  vm_compute. reflexivity.
Defined.

(** ** Every point of a read is accounted for *)

Definition points_failed (failures : list Dlt645ReadFailure) : Z :=
  foldr Z.add 0 (fail_point_count <$> failures).

Definition accounted (st : ReadState) : Z :=
  points_failed (read_failures st) + Z.of_nat (length (read_samples st)).

Lemma points_failed_snoc failures f :
  points_failed (failures ++ [f]) = points_failed failures + fail_point_count f.
Proof.
  unfold points_failed. induction failures as [|g failures IH]; [simpl; lia|].
  rewrite <- app_comm_cons, !fmap_cons. cbn [foldr]. rewrite IH. lia.
Qed.

Lemma no_panic_bcd_digits l : no_panic (bcd_digits l).
Proof. induction l as [|b l IH]; [done|]. cbn [bcd_digits]. no_panic_tac. exact IH. Qed.

Lemma no_panic_decode_bcd value_type l dp :
  0 <= dp <= 18 -> no_panic (decode_bcd_value value_type l dp).
Proof.
  intros Hdp. unfold decode_bcd_value. no_panic_tac; [apply no_panic_bcd_digits|].
  destruct value_type; no_panic_tac. by rewrite pow10_u64_ok.
Qed.

Definition target_places_ok (t : Dlt645ReadTarget) : Prop := 0 <= target_decimal_places t <= 18.

(** Decoding a group gives each of its targets a sample or a failure and
    leaves the group counters alone. *)
Lemma decode_targets_spec now g value targets st :
  Forall target_places_ok targets ->
  exists st', decode_targets now g value targets st = Ok st' /\
    accounted st' = accounted st + Z.of_nat (length targets) /\
    successful_groups st' = successful_groups st /\ failed_groups st' = failed_groups st /\
    first_group_error st' = first_group_error st.
Proof.
  intros H. revert st. induction H as [|t targets Ht H IH]; intros st.
  { exists st. simpl. repeat split. lia. }
  cbn [decode_targets]. pose proof (no_panic_decode_bcd (map_value_type (target_mapping t)) value
    (target_decimal_places t) Ht) as Hnp.
  destruct (decode_bcd_value _ _ _) as [v|e|e]; [| |done].
  - destruct (IH (push_sample st (new_sample (map_device_id (target_mapping t))
      (map_point_id (target_mapping t)) v Q_Good now))) as (st' & Hst' & Hacc & ? & ? & ?).
    exists st'. split; [done|]. split; [|done]. rewrite Hacc. unfold accounted. simpl.
    rewrite length_app. simpl. lia.
  - destruct (IH (push_failure st (group_failure g 1 e))) as (st' & Hst' & Hacc & ? & ? & ?).
    exists st'. split; [done|]. split; [|done]. rewrite Hacc. unfold accounted. simpl.
    rewrite points_failed_snoc. simpl. lia.
Qed.

(** What the group counters say of the state: an error is retained once a
    group failed, and no group that was read means no sample. *)
Record read_state_ok (st : ReadState) : Prop := {
  rso_error : 0 < failed_groups st -> is_Some (first_group_error st);
  rso_samples : successful_groups st = 0 -> read_samples st = [];
  rso_counts : 0 <= successful_groups st /\ 0 <= failed_groups st;
}.

Section reading.
Context {B : Type} `{HB : SerialBus B} `{!BusSafe B}.

Lemma no_panic_read_group g b : no_panic (snd (read_group g b)).
Proof using All.
  unfold read_group. rewrite lift_bind.
  assert (Hm : no_panic (encode_meter_address (group_meter_address g)))
    by (unfold encode_meter_address; no_panic_tac).
  destruct (encode_meter_address _) as [meter|e|e]; [| done | done].
  rewrite M_bind_eq. pose proof (transact_safe (build_read_data_request meter (group_data_identifier g)) b) as Ht.
  destruct (transact _ b) as [b' [response|e|e]]; [| done | done]. rewrite lift_bind.
  assert (Hp : no_panic (parse_read_data_response response meter (group_data_identifier g))).
  { unfold parse_read_data_response. no_panic_tac. case_bool; no_panic_tac. }
  destruct (parse_read_data_response _ _ _) as [value|e|e]; [| done | done]. rewrite lift_bind.
  assert (Hl : no_panic (validate_value_length (group_data_identifier g)
    (group_expected_value_bytes g) (length value))).
  { unfold validate_value_length. destruct (group_expected_value_bytes g); no_panic_tac. }
  by destruct (validate_value_length _ _ _).
Qed.

Lemma read_one_group_spec now st g b :
  Forall target_places_ok (group_targets g) -> read_state_ok st ->
  successful_groups st + failed_groups st < u_max 64 ->
  exists b' st', read_one_group now st g b = (b', Ok st') /\ read_state_ok st' /\
    accounted st' = accounted st + Z.of_nat (length (group_targets g)) /\
    successful_groups st' + failed_groups st' = successful_groups st + failed_groups st + 1.
Proof using All.
  intros Hall [He Hs [Hc1 Hc2]] Hlt. unfold read_one_group.
  pose proof (no_panic_read_group g b) as Hnp.
  destruct (read_group g b) as [b' [value|e|e]]; [| |done].
  - destruct (decode_targets_spec now g value (group_targets g) (group_read_ok st) Hall)
      as (st' & Hst' & Hacc & Hsucc & Hfail & Herr).
    simpl in Hsucc. unfold sat_add in Hsucc. exists b', st'. rewrite Hst'. split; [done|].
    split; [|split; [by rewrite Hacc | rewrite Hsucc, Hfail; simpl; lia]]. constructor.
    + rewrite Hfail, Herr. exact He.
    + intros Hz. lia.
    + rewrite Hsucc, Hfail. simpl. lia.
  - eexists b', _. split; [done|]. unfold group_read_failed, sat_add. split; [constructor; simpl|split; simpl].
    + intros _. by destruct (first_group_error st).
    + exact Hs.
    + lia.
    + unfold accounted. simpl. rewrite points_failed_snoc. simpl. lia.
    + lia.
Qed.

Definition target_count (groups : list Dlt645ReadGroup) : Z :=
  foldr Z.add 0 ((fun g => Z.of_nat (length (group_targets g))) <$> groups).

Lemma read_groups_spec clock turn groups st b :
  Forall (fun g => Forall target_places_ok (group_targets g)) groups -> read_state_ok st ->
  successful_groups st + failed_groups st + Z.of_nat (length groups) <= u_max 64 ->
  exists b' st', read_groups clock turn groups st b = (b', Ok st') /\ read_state_ok st' /\
    accounted st' = accounted st + target_count groups /\
    successful_groups st' + failed_groups st' =
      successful_groups st + failed_groups st + Z.of_nat (length groups).
Proof using All.
  intros Hall. revert turn st b. induction Hall as [|g groups Hg Hall IH]; intros turn st b Hst Hlt.
  { exists b, st. unfold target_count. simpl. split; [done|]. split; [done|]. lia. }
  simpl length in Hlt. cbn [read_groups].
  destruct (read_one_group_spec (clock turn) st g b Hg Hst ltac:(lia))
    as (b1 & st1 & Hone & Hst1 & Hacc1 & Hcnt1).
  destruct (IH (S turn) st1 b1 Hst1 ltac:(lia)) as (b2 & st2 & Htwo & Hst2 & Hacc2 & Hcnt2).
  exists b2, st2. rewrite M_bind_eq, Hone, Htwo. split; [done|]. split; [done|].
  unfold target_count in *. rewrite fmap_cons. cbn [foldr length]. split; lia.
Qed.
End reading.

Lemma group_mappings_count groups : Z.of_nat (length (group_mappings groups)) = target_count groups.
Proof.
  unfold group_mappings, target_count. induction groups as [|g groups IH]; [done|].
  rewrite !fmap_cons, concat_cons, length_app, length_fmap. cbn [foldr]. by rewrite Nat2Z.inj_add, IH.
Qed.

Lemma groups_places connection_id mappings groups :
  build_read_groups connection_id mappings = Ok groups ->
  Forall (fun g => Forall target_places_ok (group_targets g)) groups.
Proof.
  intros Hb. destruct (build_groups_spec _ _ _ Hb) as [[_ Hall] _].
  eapply Forall_impl; [|exact Hall]. intros g Hg. eapply Forall_impl; [|exact Hg].
  intros t (a & Ha & _ & Hdp). unfold target_places_ok. rewrite Hdp.
  by apply parse_dlt645_range in Ha as (_ & _ & _ & ? & _).
Qed.

(** A read accounts for every point of the connection, whatever the meters
    answer: it returns, and its samples plus the points of the failures it
    records are as many as the points configured; when it fails as a whole there
    was something to read and every point is among the failures. *)
Theorem read_accounts_for_every_point {B} `{HB : SerialBus B} `{!BusSafe B}
    clock connection mappings groups (bus : B) :
  conn_protocol connection = Dlt645 ->
  build_read_groups (conn_id connection) mappings = Ok groups ->
  Z.of_nat (length groups) <= u_max 64 ->
  let points := filter (fun m => map_protocol_connection_id m = conn_id connection) mappings in
  exists bus' failures result,
    read_telemetry clock connection mappings bus = (bus', Ok (failures, result)) /\
    match result with
    | Ok samples => points_failed failures + Z.of_nat (length samples) = Z.of_nat (length points)
    | Err _ => groups <> [] /\ points_failed failures = Z.of_nat (length points)
    | Panic _ => False
    end.
Proof.
  intros Hproto Hb Hlen points. unfold read_telemetry.
  rewrite bool_decide_true, Hb by done. cbn [negb].
  destruct (read_groups_spec clock 0 groups start_read bus (groups_places _ _ _ Hb))
    as (bus' & st & Hread & Hst & Hacc & Hcnt).
  { constructor; simpl; [lia | done | lia]. }
  { simpl. lia. }
  exists bus', (read_failures st), (read_outcome st). rewrite M_bind_eq, Hread. split; [done|].
  assert (Hpts : target_count groups = Z.of_nat (length points)).
  { rewrite <- group_mappings_count. by rewrite (proj2 (build_groups_spec _ _ _ Hb)). }
  rewrite Hpts in Hacc. change (accounted start_read) with 0 in Hacc. unfold read_outcome.
  destruct (_ && _) eqn:Hall; simp_bool.
  - destruct (rso_error _ Hst) as [e ->]; [lia|]. simpl. split.
    + intros ->. simpl in Hcnt. lia.
    + unfold accounted in Hacc. rewrite (rso_samples _ Hst) in Hacc by done. simpl in Hacc. lia.
  - unfold accounted in Hacc. lia.
Qed.

Lemma read_accounts_for_every_point_witness :
  let bus := new_scripted_bus
    [response_frame [0x23; 1; 0; 0; 0; 0] 0x02010100 [0x05; 0x22]; [0x68; 0]] in
  exists bus' failures result,
    read_telemetry (fun _ => 0) (dlt645_serial "bus-1" (new_serial_settings "/dev/ttyS0" 2400))
      meter_points bus = (bus', Ok (failures, result)) /\
    match result with
    | Ok samples => points_failed failures + Z.of_nat (length samples) = 3
    | Err _ => False
    | Panic _ => False
    end.
Proof.
  intros bus. destruct (read_accounts_for_every_point (fun _ => 0)
    (dlt645_serial "bus-1" (new_serial_settings "/dev/ttyS0" 2400)) meter_points
    (match build_read_groups "bus-1" meter_points with Ok groups => groups | _ => [] end) bus)
    as (bus' & failures & result & Hread & Hacc).
  - reflexivity.
  - vm_compute. reflexivity.
  - vm_compute. discriminate.
  - exists bus', failures, result. split; [exact Hread|]. vm_compute in Hread.
    injection Hread as <- <- <-. exact Hacc.
Defined.

(** ** Meter addresses *)

Lemma digit_pair_nibbles h l :
  is_ascii_digit h = true -> is_ascii_digit l = true ->
  let b := Z.lor (wrap 8 (Z.shiftl (h - 48) 4)) (l - 48) in
  byte_ok b /\ bcd_byte_ok b /\ 48 + Z.shiftr b 4 = h /\ 48 + Z.land b 0x0F = l.
Proof.
  intros Hh Hl b. unfold is_ascii_digit in Hh, Hl. rewrite andb_true_iff, !Z.leb_le in Hh, Hl.
  assert (Hb : b = (h - 48) * 2 ^ 4 + (l - 48)).
  { unfold b. rewrite Z.shiftl_mul_pow2 by lia. rewrite wrap_small by (unfold u_ok; lia).
    apply lor_shifted; lia. }
  assert (Hs : Z.shiftr b 4 = h - 48).
  { rewrite Hb, Z.shiftr_div_pow2 by lia. change (2 ^ 4) with 16.
    rewrite Z.add_comm, Z.div_add, Z.div_small by lia. lia. }
  assert (Hm : Z.land b 0x0F = l - 48).
  { rewrite Hb. change 0x0F with (Z.ones 4). rewrite Z.land_ones by lia. change (2 ^ 4) with 16.
    rewrite Z.add_comm, Z.mod_add, Z.mod_small by lia. lia. }
  unfold byte_ok, bcd_byte_ok. rewrite Hs, Hm. lia.
Qed.

Lemma meter_pairs digits :
  Nat.even (length digits) = true -> forallb is_ascii_digit digits = true ->
  let address := (fun pair => Z.lor (wrap 8 (Z.shiftl (fst pair - 48) 4)) (snd pair - 48))
                   <$> chunks2 digits in
  bytes_ok address /\ Forall bcd_byte_ok address /\ bcd_text address = digits.
Proof.
  assert (Hn : exists n, (length digits <= n)%nat) by by exists (length digits).
  destruct Hn as [n Hn]. revert digits Hn.
  assert (H0 : bytes_ok [] /\ Forall bcd_byte_ok [] /\ bcd_text [] = [])
    by (split; [constructor|]; split; [constructor | done]).
  induction n as [|n IH]; intros [|h [|l digits]] Hn He Hd;
    [exact H0 | simpl in Hn; lia | simpl in Hn; lia | exact H0 | discriminate He|].
  cbn [length forallb chunks2] in *. simp_bool.
  destruct (IH digits ltac:(lia) He) as (Hok & Hbcd & Htext); [done|].
  destruct (digit_pair_nibbles h l) as (Hb & Hc & Hh & Hl); [done..|].
  rewrite fmap_cons. split; [by apply Forall_cons_iff|]. split; [by apply Forall_cons_iff|].
  unfold bcd_text in *. rewrite fmap_cons, concat_cons, Htext. cbn [fst snd app]. by rewrite Hh, Hl.
Qed.

(** The address on the wire is the configured one: a meter address the
    encoder accepts becomes six bytes that, read as a BCD text, give back the
    twelve digits; anything that is not twelve digits is refused. *)
Theorem meter_address_roundtrip value decimal_places :
  match encode_meter_address value with
  | Ok address => length address = 6%nat /\ bytes_ok address /\
      decode_bcd_value Ty_Text address decimal_places = Ok (VText (str_trim value))
  | Err _ => length (str_bytes (str_trim value)) <> 12%nat \/
      ~ Forall (fun b => is_ascii_digit b = true) (str_bytes (str_trim value))
  | Panic _ => False
  end.
Proof.
  unfold encode_meter_address. set (digits := str_bytes (str_trim value)).
  destruct (bool_decide (length digits = 12%nat) && forallb is_ascii_digit digits) eqn:E; simpl.
  - simp_bool.
    match goal with H : length digits = 12%nat |- _ => rename H into Hlen end.
    destruct (meter_pairs digits) as (Hok & Hbcd & Htext); [by rewrite Hlen | done|].
    set (pairs := _ <$> chunks2 digits) in *.
    assert (Hl6 : length pairs = 6%nat).
    { unfold pairs. rewrite length_fmap. by apply length_chunks2. }
    split; [by rewrite length_reverse|]. split; [by apply Forall_reverse|].
    unfold decode_bcd_value. rewrite bool_decide_false.
    2: { intros Hnil. apply (f_equal length) in Hnil. by rewrite length_reverse, Hl6 in Hnil. }
    rewrite reverse_involutive, bcd_digits_ok by done. simpl. rewrite Htext. unfold digits.
    by rewrite str_of_str_bytes.
  - destruct (decide (length digits = 12%nat)) as [Hl|]; [right | by left].
    rewrite bool_decide_true in E by done. simpl in E. rewrite <- forallb_Forall. congruence.
Qed.
