(* ===== verification/Expression.v ===== *)
(** The expression language of algorithm steps, [evaluate_expression] and
    [ExpressionParser] of [crates/edge-runtime/src/algorithm.rs].

    The parser evaluates while it reads: [parse] is its five mutually recursive
    pieces (the two levels of binary operators with their loops, and the
    factors) on the rest of the input.  Fuel counts calls; [parse_total] shows
    that four per byte are enough, so that evaluation always terminates.

    [Expr] is the syntax the grammar describes and [eval] its meaning;
    [parse_print] proves that the parser computes it, with the usual precedence
    and associativity. *)

From Stdlib Require Import ZArith Lia SpecFloat.
From S2P Require Import Prelude RustStr Floats Model.

Open Scope Z_scope.

(** ** Characters *)

Definition c_plus : Z := 43.
Definition c_minus : Z := 45.
Definition c_star : Z := 42.
Definition c_slash : Z := 47.
Definition c_open : Z := 40.
Definition c_close : Z := 41.
Definition c_comma : Z := 44.
Definition c_dot : Z := 46.
Definition c_underscore : Z := 95.

Definition skip_whitespace (l : bytes) : bytes := trim_start_bytes l.

Definition consume (expected : Z) (l : bytes) : option bytes :=
  match l with
  | b :: rest => if b =? expected then Some rest else None
  | [] => None
  end.

Definition is_identifier_char (b : Z) : bool := is_ascii_alphanumeric b || (b =? c_underscore).

(** [parse_identifier]: the longest run of identifier characters. *)
Fixpoint span_identifier (l : bytes) : bytes * bytes :=
  match l with
  | b :: rest =>
      if is_identifier_char b then
        let '(name, rest) := span_identifier rest in (b :: name, rest)
      else ([], l)
  | [] => ([], [])
  end.

Definition is_exponent_char (b : Z) : bool := (b =? 101) || (b =? 69).
Definition is_sign (b : Z) : bool := (b =? c_plus) || (b =? c_minus).

Definition is_number_char (b : Z) : bool :=
  is_ascii_digit b || (b =? c_dot) || is_exponent_char b || is_sign b.

(** The loop of [parse_number]: a sign ends the literal unless it follows an
    exponent mark; [previous] is the byte before, if the loop has advanced. *)
Fixpoint span_number (previous : option Z) (l : bytes) : bytes * bytes :=
  match l with
  | b :: rest =>
      if is_number_char b then
        if is_sign b && match previous with
                        | Some p => negb (is_exponent_char p)
                        | None => false
                        end
        then ([], l)
        else let '(text, rest) := span_number (Some b) rest in (b :: text, rest)
      else ([], l)
  | [] => ([], [])
  end.

(** ** The parser *)

(** An outcome of a parsing method: [None] when the fuel ran out, otherwise the
    result of the method with the rest of the input. *)
Abbreviation Parsed := (option (Result (f64 * bytes))).

Definition and_then (m : Parsed) (f : f64 -> bytes -> Parsed) : Parsed :=
  match m with
  | None => None
  | Some (Ok (v, l)) => f v l
  | Some (Err e) => Some (Err e)
  | Some (Panic e) => Some (Panic e)
  end.

Inductive Mode :=
| Expression
| ExpressionLoop (value : f64)
| Term
| TermLoop (value : f64)
| Factor.

Section parser.
(** [f64::powf], whose precision the standard library leaves open, and the
    latest sample of each alias. *)
Context (powf : f64 -> f64 -> f64) (values : gmap string TelemetrySample).

(** The dispatch on the function name and the presence of a second argument. *)
Definition call_function (name : string) (first : f64) (second : option f64) : Result f64 :=
  match second with
  | None =>
      if bool_decide (name = "abs"%string) then Ok (f64_abs first)
      else if bool_decide (name = "round"%string) then Ok (f64_round first)
      else if bool_decide (name = "floor"%string) then Ok (f64_floor first)
      else if bool_decide (name = "ceil"%string) then Ok (f64_ceil first)
      else if bool_decide (name = "sqrt"%string) && f64_ge first f64_zero then Ok (f64_sqrt first)
      else Err ("unsupported expression function `" ++ name ++ "`")%string
  | Some second =>
      if bool_decide (name = "min"%string) then Ok (f64_min first second)
      else if bool_decide (name = "max"%string) then Ok (f64_max first second)
      else if bool_decide (name = "pow"%string) then Ok (powf first second)
      else Err ("unsupported expression function `" ++ name ++ "`")%string
  end.

Definition alias_value (name : string) : Result f64 :=
  ok_or (values !! name ≫= fun sample => as_f64 (sample_value sample))
    ("expression references missing numeric alias `" ++ name ++ "`")%string.

Definition parse_number (l : bytes) : Result (f64 * bytes) :=
  let '(text, rest) := span_number None l in
  v ← ok_or (f64_parse text) ("invalid numeric literal `" ++ str_of_bytes text ++ "`")%string;
  Ok (v, rest).

(** The rest of a value whose evaluation cannot read more input. *)
Definition finish (r : Result f64) (l : bytes) : Parsed := Some ((fun v => (v, l)) <$> r).

Fixpoint parse (fuel : nat) (mode : Mode) (l : bytes) : Parsed :=
  match fuel with
  | O => None
  | S fuel =>
      match mode with
      | Expression => and_then (parse fuel Term l) (fun v l => parse fuel (ExpressionLoop v) l)
      | ExpressionLoop value =>
          let l := skip_whitespace l in
          match consume c_plus l with
          | Some l =>
              and_then (parse fuel Term l)
                (fun v l => parse fuel (ExpressionLoop (f64_add value v)) l)
          | None =>
              match consume c_minus l with
              | Some l =>
                  and_then (parse fuel Term l)
                    (fun v l => parse fuel (ExpressionLoop (f64_sub value v)) l)
              | None => Some (Ok (value, l))
              end
          end
      | Term => and_then (parse fuel Factor l) (fun v l => parse fuel (TermLoop v) l)
      | TermLoop value =>
          let l := skip_whitespace l in
          match consume c_star l with
          | Some l =>
              and_then (parse fuel Factor l)
                (fun v l => parse fuel (TermLoop (f64_mul value v)) l)
          | None =>
              match consume c_slash l with
              | Some l =>
                  and_then (parse fuel Factor l)
                    (fun divisor l =>
                       if f64_eq divisor f64_zero then Some (Err "expression division by zero")
                       else parse fuel (TermLoop (f64_div value divisor)) l)
              | None => Some (Ok (value, l))
              end
          end
      | Factor =>
          let l := skip_whitespace l in
          match consume c_minus l with
          | Some l => and_then (parse fuel Factor l) (fun v l => Some (Ok (f64_neg v, l)))
          | None =>
              match consume c_open l with
              | Some l =>
                  and_then (parse fuel Expression l)
                    (fun v l =>
                       match consume c_close (skip_whitespace l) with
                       | Some l => Some (Ok (v, l))
                       | None => Some (Err "expression is missing `)`")
                       end)
              | None =>
                  if match l with b :: _ => is_ascii_digit b || (b =? c_dot) | [] => false end
                  then Some (parse_number l)
                  else
                    let '(name, l) := span_identifier l in
                    if bool_decide (name = []) then Some (Err "expected expression value")
                    else
                      let name := str_of_bytes name in
                      let l := skip_whitespace l in
                      match consume c_open l with
                      | None => finish (alias_value name) l
                      | Some l =>
                          and_then (parse fuel Expression l)
                            (fun first l =>
                               let l := skip_whitespace l in
                               let close second l :=
                                 match consume c_close (skip_whitespace l) with
                                 | Some l => finish (call_function name first second) l
                                 | None => Some (Err ("function " ++ name ++ " is missing `)`"))
                                 end in
                               match consume c_comma l with
                               | Some l =>
                                   and_then (parse fuel Expression l)
                                     (fun second l => close (Some second) l)
                               | None => close None l
                               end)
                      end
              end
          end
      end
  end.

(** Enough calls for an input of that length. *)
Definition expression_fuel (l : bytes) : nat := 4 * length l + 4.

Definition evaluate_expression (expr : string) : option (Result f64) :=
  let l := str_bytes expr in
  match parse (expression_fuel l) Expression l with
  | None => None
  | Some r => Some (
      '(value, rest) ← r;
      let rest := skip_whitespace rest in
      ensure (bool_decide (rest = []))
        ("unexpected expression token near `" ++ str_of_bytes rest ++ "`")%string;;
      Ok value)
  end.
End parser.

(** ** Termination *)

Lemma trim_start_length fuel l : (length (trim_start_fuel fuel l) <= length l)%nat.
Proof.
  revert l. induction fuel as [|fuel IH]; intros l; simpl; [lia|].
  destruct (strip_whitespace l) as [l'|] eqn:E; [|lia].
  apply strip_whitespace_length in E. specialize (IH l'). lia.
Qed.

Lemma skip_length l : (length (skip_whitespace l) <= length l)%nat.
Proof. apply trim_start_length. Qed.

Lemma consume_length c l l' : consume c l = Some l' -> length l = S (length l').
Proof. destruct l as [|b l]; simpl; [done|]. case_bool; [by intros [= ->] | done]. Qed.

Lemma span_identifier_app l :
  let '(name, rest) := span_identifier l in l = name ++ rest.
Proof.
  induction l as [|b l IH]; simpl; [done|]. destruct (is_identifier_char b); [|done].
  destruct (span_identifier l) as [name rest]. simpl. by rewrite <- IH.
Qed.

Lemma span_number_app previous l : let '(text, rest) := span_number previous l in l = text ++ rest.
Proof.
  revert previous. induction l as [|b l IH]; intros previous; simpl; [done|].
  destruct (is_number_char b); [|done]. destruct (is_sign b && _); [done|].
  specialize (IH (Some b)). destruct (span_number (Some b) l) as [text rest]. simpl. by rewrite <- IH.
Qed.

(** The calls a method needs on the rest [l]. *)
Definition need (mode : Mode) (l : bytes) : nat :=
  match mode with
  | Expression => 4 * length l + 4
  | ExpressionLoop _ => 4 * length l + 3
  | Term => 4 * length l + 3
  | TermLoop _ => 4 * length l + 2
  | Factor => 4 * length l + 1
  end.

(** The method returned, and left no more than it was given. *)
Definition returns (l : bytes) (r : Parsed) : Prop :=
  exists x, r = Some x /\ no_panic x /\ forall v l', x = Ok (v, l') -> (length l' <= length l)%nat.

Lemma returns_bind l l1 m f :
  returns l1 m -> (length l1 <= length l)%nat ->
  (forall v l2, (length l2 <= length l1)%nat -> returns l2 (f v l2)) -> returns l (and_then m f).
Proof.
  intros (x & -> & Hnp & Hx) Hle Hf. destruct x as [[v l2]|e|e]; simpl.
  - specialize (Hx v l2 eq_refl). destruct (Hf v l2 Hx) as (y & Hy & Hnp' & Hyl).
    exists y. split; [done|]. split; [done|]. intros v' l' ->. specialize (Hyl v' l' eq_refl). lia.
  - exists (Err e). by split_and!.
  - done.
Qed.

Lemma returns_weaken l l' r : returns l r -> (length l <= length l')%nat -> returns l' r.
Proof.
  intros (x & -> & Hnp & Hx) Hle. exists x. split; [done|]. split; [done|].
  intros v l2 ->. specialize (Hx v l2 eq_refl). lia.
Qed.

Lemma returns_err l e : returns l (Some (Err e)).
Proof. exists (Err e). by split_and!. Qed.

Lemma returns_ok l v l' : (length l' <= length l)%nat -> returns l (Some (Ok (v, l'))).
Proof. intros. exists (Ok (v, l')). split_and!; [done..|]. by intros v' l2 [= _ <-]. Qed.

Lemma returns_finish l r l' : no_panic r -> (length l' <= length l)%nat -> returns l (finish r l').
Proof. intros Hnp Hle. destruct r; [by apply returns_ok | apply returns_err | done]. Qed.

Section totality.
Context (powf : f64 -> f64 -> f64) (values : gmap string TelemetrySample).

Lemma no_panic_call name first second : no_panic (call_function powf name first second).
Proof using. destruct second; simpl; repeat case_bool; done. Qed.

Lemma parse_number_returns l : returns l (Some (parse_number l)).
Proof using.
  unfold parse_number. pose proof (span_number_app None l) as H.
  destruct (span_number None l) as [text rest]. destruct (f64_parse text); simpl.
  - apply returns_ok. rewrite H, length_app. lia.
  - apply returns_err.
Qed.

(** What follows an argument: the closing parenthesis. *)
Lemma returns_close l l' r e :
  no_panic r -> (length l' <= length l)%nat ->
  returns l (match consume c_close (skip_whitespace l') with
             | Some rest => finish r rest
             | None => Some (Err e)
             end).
Proof using.
  intros Hnp Hle. pose proof (skip_length l').
  destruct (consume c_close _) as [l1|] eqn:E; [|apply returns_err].
  apply consume_length in E. apply returns_finish; [done | lia].
Qed.

(** A call on a shorter rest, by the induction hypothesis [IH], and what
    follows it. *)
Ltac sub_call IH l1 :=
  apply (returns_bind _ l1); [apply IH; simpl; lia | lia|]; intros ? ? ?.

(** The parser consumed the byte [c], if it was there. *)
Ltac try_consume c l1 E :=
  match goal with |- context [consume c ?rest] =>
    destruct (consume c rest) as [l1|] eqn:E; [apply consume_length in E|]
  end.

Lemma parse_total fuel mode l :
  (need mode l <= fuel)%nat -> returns l (parse powf values fuel mode l).
Proof using.
  revert mode l. induction fuel as [|fuel IH]; intros mode l Hfuel.
  { destruct mode; simpl in Hfuel; lia. }
  pose proof (skip_length l) as Hskip. destruct mode as [|value| |value|]; cbn [parse need] in *.
  - sub_call IH l. apply IH. simpl. lia.
  - try_consume c_plus l1 E1; [sub_call IH l1; apply IH; simpl; lia|].
    try_consume c_minus l1 E2; [sub_call IH l1; apply IH; simpl; lia | by apply returns_ok].
  - sub_call IH l. apply IH. simpl. lia.
  - try_consume c_star l1 E1; [sub_call IH l1; apply IH; simpl; lia|].
    try_consume c_slash l1 E2; [|by apply returns_ok].
    sub_call IH l1. case_bool; [apply returns_err|]. apply IH. simpl. lia.
  - try_consume c_minus l1 E1; [sub_call IH l1; by apply returns_ok|].
    try_consume c_open l1 E2; [sub_call IH l1; by apply (returns_close _ _ (Ok _))|].
    match goal with |- returns _ (if ?c then _ else _) => destruct c end.
    { apply (returns_weaken (skip_whitespace l)); [apply parse_number_returns | done]. }
    pose proof (span_identifier_app (skip_whitespace l)) as Hspan.
    destruct (span_identifier (skip_whitespace l)) as [name l0].
    case_bool_decide as Hname; [apply returns_err|].
    assert (Hl0 : (length l0 < length l)%nat).
    { rewrite Hspan, length_app in Hskip. destruct name; [done | simpl in Hskip; lia]. }
    pose proof (skip_length l0). try_consume c_open l1 E3.
    2: { apply returns_finish; [apply no_panic_ok_or | lia]. }
    apply (returns_bind _ l1); [apply IH; simpl; lia | lia|]. intros first l2 Hl2.
    pose proof (skip_length l2). try_consume c_comma l3 E4.
    + sub_call IH l3. apply returns_close; [apply no_panic_call | done].
    + apply returns_close; [apply no_panic_call | lia].
Qed.
End totality.

Lemma evaluate_expression_no_panic powf values expr r :
  evaluate_expression powf values expr = Some r -> no_panic r.
Proof.
  unfold evaluate_expression.
  destruct (parse_total powf values (expression_fuel (str_bytes expr)) Expression (str_bytes expr))
    as (x & -> & Hnp & _); [simpl; unfold expression_fuel; lia|].
  intros [= <-]. destruct x as [[v l]|e|e]; [|done..]. simpl. no_panic_tac.
Qed.

(** Evaluating an expression always terminates with a value or an error
    message, whatever the text and the samples: the fuel of the model, four
    calls per byte and four more, is never used up, and nothing panics. *)
Theorem evaluate_expression_total powf values expr :
  exists r, evaluate_expression powf values expr = Some r /\ no_panic r.
Proof.
  unfold evaluate_expression.
  destruct (parse_total powf values (expression_fuel (str_bytes expr)) Expression (str_bytes expr))
    as (x & Hx & Hnp & _); [simpl; unfold expression_fuel; lia|].
  eexists. split; [by rewrite Hx|]. apply (evaluate_expression_no_panic powf values expr).
  unfold evaluate_expression. by rewrite Hx.
Qed.

(** ** The grammar *)

Inductive BinOp := OpAdd | OpSub | OpMul | OpDiv.

Inductive Expr :=
| EAlias (name : bytes)
| ENumber (text : bytes)
| ENeg (e : Expr)
| EBin (op : BinOp) (a b : Expr)
| ECall1 (f : bytes) (a : Expr)
| ECall2 (f : bytes) (a b : Expr).

Definition op_char (op : BinOp) : Z :=
  match op with OpAdd => c_plus | OpSub => c_minus | OpMul => c_star | OpDiv => c_slash end.

(** Sums are at level 0, products at level 1, factors at level 2. *)
Definition op_level (op : BinOp) : nat := match op with OpAdd | OpSub => 0 | OpMul | OpDiv => 1 end.

(** The text of an expression, with parentheses only where the level needs
    them. *)
Fixpoint print (level : nat) (e : Expr) : bytes :=
  match e with
  | EAlias name => name
  | ENumber text => text
  | ENeg a => c_minus :: print 2 a
  | ECall1 f a => f ++ c_open :: print 0 a ++ [c_close]
  | ECall2 f a b => f ++ c_open :: print 0 a ++ c_comma :: print 0 b ++ [c_close]
  | EBin op a b =>
      let body := print (op_level op) a ++ op_char op :: print (S (op_level op)) b in
      if (level <=? op_level op)%nat then body else c_open :: body ++ [c_close]
  end.

Definition apply_op (op : BinOp) (x y : f64) : Result f64 :=
  match op with
  | OpAdd => Ok (f64_add x y)
  | OpSub => Ok (f64_sub x y)
  | OpMul => Ok (f64_mul x y)
  | OpDiv => if f64_eq y f64_zero then Err "expression division by zero" else Ok (f64_div x y)
  end.

Definition is_name (name : bytes) : Prop :=
  Forall (fun b => is_identifier_char b = true) name /\
  exists b rest, name = b :: rest /\ is_ascii_digit b = false.

Definition is_literal (text : bytes) : Prop :=
  Forall (fun b => is_ascii_digit b || (b =? c_dot) = true) text /\ text <> [].

Fixpoint well_formed (e : Expr) : Prop :=
  match e with
  | EAlias name => is_name name
  | ENumber text => is_literal text
  | ENeg a => well_formed a
  | EBin _ a b => well_formed a /\ well_formed b
  | ECall1 f a => is_name f /\ well_formed a
  | ECall2 f a b => is_name f /\ well_formed a /\ well_formed b
  end.

Section semantics.
Context (powf : f64 -> f64 -> f64) (values : gmap string TelemetrySample).

(** The meaning of an expression, operands from left to right. *)
Fixpoint eval (e : Expr) : Result f64 :=
  match e with
  | EAlias name => alias_value values (str_of_bytes name)
  | ENumber text =>
      ok_or (f64_parse text) ("invalid numeric literal `" ++ str_of_bytes text ++ "`")%string
  | ENeg a => f64_neg <$> eval a
  | EBin op a b => x ← eval a; y ← eval b; apply_op op x y
  | ECall1 f a => x ← eval a; call_function powf (str_of_bytes f) x None
  | ECall2 f a b => x ← eval a; y ← eval b; call_function powf (str_of_bytes f) x (Some y)
  end.

(** *** Fuel does not matter once there is enough *)

Lemma and_then_mono (m m' : Parsed) f f' r :
  (forall x, m = Some x -> m' = Some x) ->
  (forall v l x, f v l = Some x -> f' v l = Some x) ->
  and_then m f = Some r -> and_then m' f' = Some r.
Proof using.
  intros Hm Hf. destruct m as [[[v l]|e|e]|]; simpl; [| | |done];
    rewrite (Hm _ eq_refl); simpl; auto.
Qed.

Lemma parse_mono fuel mode l r :
  parse powf values fuel mode l = Some r -> parse powf values (S fuel) mode l = Some r.
Proof using.
  revert mode l r. induction fuel as [|fuel IH]; intros mode l r; [done|].
  remember (S fuel) as n eqn:Hn. rewrite Hn at 1. cbn [parse].
  destruct mode as [|value| |value|].
  - apply and_then_mono; auto.
  - destruct (consume c_plus _); [apply and_then_mono; auto|].
    destruct (consume c_minus _); [apply and_then_mono; auto | done].
  - apply and_then_mono; auto.
  - destruct (consume c_star _); [apply and_then_mono; auto|].
    destruct (consume c_slash _); [|done]. apply and_then_mono; auto.
    intros v l' x. case_bool; auto.
  - destruct (consume c_minus _); [apply and_then_mono; auto|].
    destruct (consume c_open _); [apply and_then_mono; auto|].
    match goal with |- (if ?c then _ else _) = _ -> _ => destruct c end; [done|].
    destruct (span_identifier _) as [name l0]. case_bool_decide; [done|].
    destruct (consume c_open _); [|done]. apply and_then_mono; auto.
    intros v l' x. destruct (consume c_comma _); [|done]. apply and_then_mono; auto.
Qed.

(** The parser as a total function. *)
Definition parsed (mode : Mode) (l : bytes) : Result (f64 * bytes) :=
  match parse powf values (need mode l) mode l with
  | Some r => r
  | None => Panic "unreachable"
  end.

Lemma parse_parsed fuel mode l :
  (need mode l <= fuel)%nat -> parse powf values fuel mode l = Some (parsed mode l).
Proof using.
  intros Hle. unfold parsed.
  destruct (parse_total powf values (need mode l) mode l ltac:(lia)) as (x & Hx & _).
  rewrite Hx. induction Hle as [|fuel Hle IH]; [done|]. by apply parse_mono.
Qed.

Lemma parsed_length mode l v l' : parsed mode l = Ok (v, l') -> (length l' <= length l)%nat.
Proof using.
  unfold parsed.
  destruct (parse_total powf values (need mode l) mode l ltac:(lia)) as (x & -> & _ & Hx). apply Hx.
Qed.

(** A call on a part of the input, followed by calls on what it left. *)
Lemma and_then_parsed fuel mode l (f : f64 -> bytes -> Parsed) g :
  (need mode l <= fuel)%nat ->
  (forall v l', (length l' <= length l)%nat -> f v l' = Some (g v l')) ->
  and_then (parse powf values fuel mode l) f = Some ('(v, l') ← parsed mode l; g v l').
Proof using.
  intros Hle Hf. rewrite parse_parsed by done. pose proof (parsed_length mode l) as Hlen.
  destruct (parsed mode l) as [[v l']|e|e]; simpl; [|done..]. apply Hf. by apply (Hlen v).
Qed.

(** *** The equations of the parser *)

Lemma parsed_expression l : parsed Expression l = '(v, l') ← parsed Term l; parsed (ExpressionLoop v) l'.
Proof using.
  apply (inj Some). rewrite <- (parse_parsed (S (4 * length l + 3)) Expression l) by (simpl; lia).
  cbn [parse]. apply and_then_parsed; [simpl; lia|]. intros v l' Hl'. apply parse_parsed. simpl. lia.
Qed.

Lemma parsed_term l : parsed Term l = '(v, l') ← parsed Factor l; parsed (TermLoop v) l'.
Proof using.
  apply (inj Some). rewrite <- (parse_parsed (S (4 * length l + 2)) Term l) by (simpl; lia).
  cbn [parse]. apply and_then_parsed; [simpl; lia|]. intros v l' Hl'. apply parse_parsed. simpl. lia.
Qed.

(** The byte starts a token and is not whitespace. *)
Definition visible (l : bytes) : Prop :=
  match l with [] => True | b :: _ => 33 <= b < 128 end.

Lemma skip_visible l : visible l -> skip_whitespace l = l.
Proof using.
  intros Hv. unfold skip_whitespace, trim_start_bytes. destruct l as [|b l]; [done|]. simpl in Hv.
  cbn [length trim_start_fuel]. replace (strip_whitespace (b :: l)) with (@None bytes); [done|].
  symmetry. unfold strip_whitespace.
  replace (ascii_whitespace b) with false
    by (unfold ascii_whitespace; symmetry; rewrite orb_false_iff, andb_false_iff, Z.leb_gt, Z.leb_gt, Z.eqb_neq; lia).
  destruct l as [|b2 l]; [done|].
  replace (whitespace2 b b2) with false
    by (unfold whitespace2; by rewrite (proj2 (Z.eqb_neq b 194)) by lia).
  destruct l as [|b3 l]; [done|]. unfold whitespace3.
  by rewrite !(proj2 (Z.eqb_neq b _)) by lia.
Qed.

(** One more operand of a sum or of a product. *)
Lemma parsed_loop_op op value l :
  visible (op_char op :: l) ->
  parsed (match op with OpAdd | OpSub => ExpressionLoop value | _ => TermLoop value end)
    (op_char op :: l) =
  '(v, l') ← parsed (match op with OpAdd | OpSub => Term | _ => Factor end) l;
  x ← apply_op op value v;
  parsed (match op with OpAdd | OpSub => ExpressionLoop x | _ => TermLoop x end) l'.
Proof using.
  intros Hv. apply (inj Some).
  destruct op; cbn [op_char apply_op] in *;
    (rewrite <- (parse_parsed (S (4 * length l + 6))) by (simpl; lia)); cbn [parse];
    rewrite skip_visible by done; cbn [consume]; rewrite ?Z.eqb_refl.
  - apply and_then_parsed; [simpl; lia|]. intros v l' Hl'. cbn [mbind Result_bind].
    apply parse_parsed. simpl. lia.
  - apply and_then_parsed; [simpl; lia|]. intros v l' Hl'. cbn [mbind Result_bind].
    apply parse_parsed. simpl. lia.
  - apply and_then_parsed; [simpl; lia|]. intros v l' Hl'. cbn [mbind Result_bind].
    apply parse_parsed. simpl. lia.
  - apply and_then_parsed; [simpl; lia|]. intros v l' Hl'. case_bool; [done|].
    cbn [mbind Result_bind]. apply parse_parsed. simpl. lia.
Qed.

(** What may follow an operand. *)
Definition follow (k : bytes) : Prop :=
  k = [] \/ exists c k', k = c :: k' /\
    c ∈ [c_plus; c_minus; c_star; c_slash; c_close; c_comma].

Definition head_not (cs : list Z) (k : bytes) : Prop :=
  match k with [] => True | b :: _ => b ∉ cs end.

Lemma follow_visible k : follow k -> visible k.
Proof using.
  intros [->|(c & k' & -> & Hc)]; [done|]. simpl.
  rewrite !elem_of_cons, elem_of_nil in Hc.
  unfold c_plus, c_minus, c_star, c_slash, c_close, c_comma in Hc. lia.
Qed.

Lemma consume_not c k : head_not [c] k -> consume c k = None.
Proof using.
  destruct k as [|b k]; [done|]. simpl. intros Hb. rewrite (proj2 (Z.eqb_neq _ _)); [done|].
  intros ->. apply Hb. by left.
Qed.

Lemma head_not_sub cs ds k : (forall c, c ∈ ds -> c ∈ cs) -> head_not cs k -> head_not ds k.
Proof using. destruct k; simpl; [done|]. intros Hsub Hb Hin. by apply Hb, Hsub. Qed.

Lemma parsed_sum_end v k :
  visible k -> head_not [c_plus; c_minus] k -> parsed (ExpressionLoop v) k = Ok (v, k).
Proof using.
  intros Hv Hh. apply (inj Some).
  rewrite <- (parse_parsed (S (4 * length k + 2))) by (simpl; lia). cbn [parse].
  rewrite skip_visible by done. rewrite !consume_not; [done|..];
    (eapply head_not_sub; [|exact Hh]); intros c Hc; apply list_elem_of_singleton in Hc as ->.
  - right. by left.
  - by left.
Qed.

Lemma parsed_product_end v k :
  visible k -> head_not [c_star; c_slash] k -> parsed (TermLoop v) k = Ok (v, k).
Proof using.
  intros Hv Hh. apply (inj Some).
  rewrite <- (parse_parsed (S (4 * length k + 1))) by (simpl; lia). cbn [parse].
  rewrite skip_visible by done. rewrite !consume_not; [done|..];
    (eapply head_not_sub; [|exact Hh]); intros c Hc; apply list_elem_of_singleton in Hc as ->.
  - right. by left.
  - by left.
Qed.

Lemma parsed_neg l :
  parsed Factor (c_minus :: l) = '(v, l') ← parsed Factor l; Ok (f64_neg v, l').
Proof using.
  apply (inj Some). rewrite <- (parse_parsed (S (4 * length l + 4))) by (simpl; lia). cbn [parse].
  rewrite skip_visible by (simpl; unfold c_minus; lia). cbn [consume]. rewrite Z.eqb_refl.
  apply and_then_parsed; [simpl; lia | done].
Qed.

Lemma parsed_paren l :
  parsed Factor (c_open :: l) =
  '(v, l') ← parsed Expression l;
  match consume c_close (skip_whitespace l') with
  | Some rest => Ok (v, rest)
  | None => Err "expression is missing `)`"
  end.
Proof using.
  apply (inj Some). rewrite <- (parse_parsed (S (4 * length l + 4))) by (simpl; lia). cbn [parse].
  rewrite skip_visible by (simpl; unfold c_open; lia). cbn [consume].
  change (c_open =? c_minus) with false. rewrite Z.eqb_refl.
  apply and_then_parsed; [simpl; lia|]. intros v l' _. by destruct (consume c_close _).
Qed.

Lemma identifier_char_range b : is_identifier_char b = true -> 48 <= b < 128 /\ b <> 46.
Proof using.
  unfold is_identifier_char, is_ascii_alphanumeric, is_ascii_alphabetic, is_ascii_digit, c_underscore.
  rewrite !orb_true_iff, !andb_true_iff, !Z.leb_le, Z.eqb_eq. lia.
Qed.

Lemma span_identifier_name name k :
  Forall (fun b => is_identifier_char b = true) name ->
  match k with [] => True | b :: _ => is_identifier_char b = false end ->
  span_identifier (name ++ k) = (name, k).
Proof using.
  intros Hname Hk. induction Hname as [|b name Hb Hname IH]; simpl.
  - destruct k as [|b k]; simpl; [done|]. by rewrite Hk.
  - by rewrite Hb, IH.
Qed.

(** The dispatch of [parse_factor] reaches the identifier branch. *)
Lemma factor_name fuel name k :
  is_name name -> match k with [] => True | b :: _ => is_identifier_char b = false end ->
  parse powf values (S fuel) Factor (name ++ k) =
  let l := skip_whitespace k in
  match consume c_open l with
  | None => finish (alias_value values (str_of_bytes name)) l
  | Some l =>
      and_then (parse powf values fuel Expression l)
        (fun first l =>
           let l := skip_whitespace l in
           let close second l :=
             match consume c_close (skip_whitespace l) with
             | Some l => finish (call_function powf (str_of_bytes name) first second) l
             | None => Some (Err ("function " ++ str_of_bytes name ++ " is missing `)`"))
             end in
           match consume c_comma l with
           | Some l =>
               and_then (parse powf values fuel Expression l)
                 (fun second l => close (Some second) l)
           | None => close None l
           end)
  end.
Proof using.
  intros (Hname & b & rest & -> & Hdigit) Hk.
  pose proof Hname as [Hb _]%Forall_cons_iff. apply identifier_char_range in Hb as [Hr Hdot].
  cbn [parse]. rewrite skip_visible by (simpl; lia). cbn [app consume].
  rewrite !(proj2 (Z.eqb_neq b _)) by (unfold c_minus, c_open, c_dot; lia). rewrite Hdigit.
  cbn [orb]. change (b :: rest ++ k) with ((b :: rest) ++ k).
  rewrite span_identifier_name by done. by rewrite bool_decide_false.
Qed.

Lemma parsed_alias name k :
  is_name name -> follow k ->
  parsed Factor (name ++ k) = (fun v => (v, k)) <$> alias_value values (str_of_bytes name).
Proof using.
  intros Hname Hk. apply (inj Some).
  rewrite <- (parse_parsed (S (4 * length (name ++ k)))) by (simpl; lia).
  rewrite factor_name.
  - cbv zeta. rewrite skip_visible by by apply follow_visible.
    destruct Hk as [->|(c & k' & -> & Hc)]; [done|]. cbn [consume].
    rewrite (proj2 (Z.eqb_neq c c_open)); [done|]. rewrite !elem_of_cons, elem_of_nil in Hc.
    unfold c_plus, c_minus, c_star, c_slash, c_close, c_comma, c_open in *. lia.
  - done.
  - destruct Hk as [->|(c & k' & -> & Hc)]; [done|]. rewrite !elem_of_cons, elem_of_nil in Hc.
    destruct (is_identifier_char c) eqn:E; [|done]. apply identifier_char_range in E.
    unfold c_plus, c_minus, c_star, c_slash, c_close, c_comma in *. lia.
Qed.

Lemma parsed_call name l :
  is_name name ->
  parsed Factor (name ++ c_open :: l) =
  '(first, l1) ← parsed Expression l;
  match consume c_comma (skip_whitespace l1) with
  | Some l2 =>
      '(second, l3) ← parsed Expression l2;
      match consume c_close (skip_whitespace l3) with
      | Some rest => (fun v => (v, rest)) <$> call_function powf (str_of_bytes name) first (Some second)
      | None => Err ("function " ++ str_of_bytes name ++ " is missing `)`")
      end
  | None =>
      match consume c_close (skip_whitespace (skip_whitespace l1)) with
      | Some rest => (fun v => (v, rest)) <$> call_function powf (str_of_bytes name) first None
      | None => Err ("function " ++ str_of_bytes name ++ " is missing `)`")
      end
  end.
Proof using.
  intros Hname. apply (inj Some).
  assert (Hne : (1 <= length name)%nat) by (destruct Hname as (_ & b & rest & -> & _); simpl; lia).
  rewrite <- (parse_parsed (S (4 * length (name ++ c_open :: l)))) by (simpl; lia).
  rewrite factor_name by done. cbv zeta. rewrite skip_visible by (simpl; unfold c_open; lia).
  cbn [consume]. rewrite Z.eqb_refl.
  apply and_then_parsed; [rewrite length_app; simpl; lia|]. intros first l1 Hl1.
  pose proof (skip_length l1). destruct (consume c_comma _) as [l2|] eqn:E.
  - apply consume_length in E. apply and_then_parsed; [rewrite length_app; simpl; lia|].
    intros second l3 _. by destruct (consume c_close _).
  - by destruct (consume c_close _).
Qed.

Lemma span_number_literal text k previous :
  Forall (fun b => is_ascii_digit b || (b =? c_dot) = true) text ->
  follow k -> (text <> [] \/ exists p, previous = Some p /\ is_exponent_char p = false) ->
  span_number previous (text ++ k) = (text, k).
Proof using.
  intros Htext Hk. revert previous. induction Htext as [|b text Hb Htext IH]; intros previous Hp.
  - destruct Hp as [|(p & -> & Hp)]; [done|]. simpl.
    destruct Hk as [->|(c & k' & -> & Hc)]; [done|]. cbn [span_number]. rewrite Hp.
    rewrite !elem_of_cons, elem_of_nil in Hc.
    by destruct Hc as [->|[->|[->|[->|[->|[->|[]]]]]]].
  - assert (Hr : 46 <= b <= 57).
    { apply orb_true_iff in Hb as [Hb|Hb%Z.eqb_eq]; [|unfold c_dot in Hb; lia].
      unfold is_ascii_digit in Hb. apply andb_true_iff in Hb as [?%Z.leb_le ?%Z.leb_le]. lia. }
    cbn [app span_number]. unfold is_number_char. rewrite Hb. cbn [orb].
    replace (is_sign b) with false.
    2: { symmetry. unfold is_sign. rewrite orb_false_iff, !Z.eqb_neq. unfold c_plus, c_minus. lia. }
    cbn [andb]. rewrite IH; [done|]. right. exists b. split; [done|].
    unfold is_exponent_char. rewrite orb_false_iff, !Z.eqb_neq. lia.
Qed.

Lemma parsed_number text k :
  is_literal text -> follow k ->
  parsed Factor (text ++ k) =
  (fun v => (v, k)) <$>
    ok_or (f64_parse text) ("invalid numeric literal `" ++ str_of_bytes text ++ "`")%string.
Proof using.
  intros [Htext Hne] Hk. apply (inj Some).
  rewrite <- (parse_parsed (S (4 * length (text ++ k)))) by (simpl; lia).
  destruct text as [|b text]; [done|]. pose proof Htext as [Hb _]%Forall_cons_iff.
  assert (Hr : 46 <= b <= 57).
  { apply orb_true_iff in Hb as [Hb|Hb%Z.eqb_eq]; [|unfold c_dot in Hb; lia].
    unfold is_ascii_digit in Hb. apply andb_true_iff in Hb as [?%Z.leb_le ?%Z.leb_le]. lia. }
  cbn [parse]. rewrite skip_visible by (simpl; lia). cbn [app consume].
  rewrite (proj2 (Z.eqb_neq b c_minus)), (proj2 (Z.eqb_neq b c_open))
    by (unfold c_minus, c_open; lia).
  rewrite Hb. unfold parse_number. change (b :: text ++ k) with ((b :: text) ++ k).
  rewrite span_number_literal by (done || by left). by destruct (f64_parse _).
Qed.

(** *** The parser computes the meaning *)

Definition is_sum (e : Expr) : bool :=
  match e with EBin (OpAdd | OpSub) _ _ => true | _ => false end.
Definition is_product (e : Expr) : bool :=
  match e with EBin (OpMul | OpDiv) _ _ => true | _ => false end.

Definition factor_spec (e : Expr) : Prop := forall k, follow k ->
  parsed Factor (print 2 e ++ k) = (fun v => (v, k)) <$> eval e.
Definition term_spec (e : Expr) : Prop := forall k, follow k ->
  parsed Term (print 1 e ++ k) = v ← eval e; parsed (TermLoop v) k.
Definition expression_spec (e : Expr) : Prop := forall k, follow k -> head_not [c_star; c_slash] k ->
  parsed Expression (print 0 e ++ k) = v ← eval e; parsed (ExpressionLoop v) k.

Lemma fmap_bind {A B C} (r : Result A) (f : A -> B) (g : B -> Result C) :
  (f <$> r) ≫= g = r ≫= fun a => g (f a).
Proof using. by destruct r. Qed.

Lemma bind_assoc {A B C} (r : Result A) (f : A -> Result B) (g : B -> Result C) :
  (r ≫= f) ≫= g = r ≫= fun a => f a ≫= g.
Proof using. by destruct r. Qed.

Lemma bind_ext {A B} (r : Result A) (f g : A -> Result B) :
  (forall a, r = Ok a -> f a = g a) -> r ≫= f = r ≫= g.
Proof using. destruct r; simpl; auto. Qed.

Lemma term_of_factor e : is_product e = false -> factor_spec e -> term_spec e.
Proof using.
  intros Hp Hf k Hk. replace (print 1 e) with (print 2 e) by by destruct e as [| | |[]| |].
  rewrite parsed_term, Hf by done. by rewrite fmap_bind.
Qed.

Lemma expression_of_term e : is_sum e = false -> term_spec e -> expression_spec e.
Proof using.
  intros Hp Ht k Hk Hh. replace (print 0 e) with (print 1 e) by by destruct e as [| | |[]| |].
  rewrite parsed_expression, Ht, bind_assoc by done. apply bind_ext. intros v _.
  rewrite parsed_product_end by (done || by apply follow_visible). done.
Qed.

Lemma follow_close k : follow (c_close :: k).
Proof using. right. exists c_close, k. split; [done|]. repeat (left || right). Qed.

Lemma follow_op op k : follow (op_char op :: k).
Proof using. right. exists (op_char op), k. split; [done|]. destruct op; cbn; set_solver. Qed.

Lemma visible_close k : visible (c_close :: k).
Proof using. apply follow_visible, follow_close. Qed.

Ltac not_head :=
  simpl; rewrite !elem_of_cons, elem_of_nil;
  unfold c_plus, c_minus, c_star, c_slash, c_close, c_comma; lia.

(** The parenthesised form of a binary expression. *)
Lemma factor_of_expression op a b : expression_spec (EBin op a b) -> factor_spec (EBin op a b).
Proof using.
  intros He k Hk. replace (print 2 (EBin op a b)) with (c_open :: print 0 (EBin op a b) ++ [c_close])
    by by destruct op.
  rewrite <- app_comm_cons, <- app_assoc. cbn [app]. rewrite parsed_paren, He.
  - rewrite bind_assoc. set (r := eval (EBin op a b)). destruct r as [v|e|e]; [|done..]. cbn.
    rewrite parsed_sum_end by (apply visible_close || not_head).
    cbn [mbind Result_bind]. rewrite skip_visible by apply visible_close. cbn [consume].
    by rewrite Z.eqb_refl.
  - apply follow_close.
  - simpl. rewrite !elem_of_cons, elem_of_nil. unfold c_close, c_star, c_slash. lia.
Qed.

Lemma print_bin level op a b k :
  (level <= op_level op)%nat ->
  print level (EBin op a b) ++ k =
  print (op_level op) a ++ op_char op :: print (S (op_level op)) b ++ k.
Proof using.
  intros Hl. cbn [print]. rewrite (proj2 (Nat.leb_le _ _) Hl). by rewrite <- app_assoc.
Qed.

Lemma product_spec op a b :
  op_level op = 1%nat -> term_spec a -> factor_spec b -> term_spec (EBin op a b).
Proof using.
  intros Hl Ha Hb k Hk. rewrite print_bin by lia. rewrite Hl.
  rewrite Ha by apply follow_op. cbn [eval]. rewrite bind_assoc. apply bind_ext. intros x _.
  pose proof (parsed_loop_op op x (print 2 b ++ k) (follow_visible _ (follow_op op _))) as Hop.
  destruct op; try discriminate Hl; rewrite Hop, Hb, fmap_bind by done;
    rewrite !bind_assoc; apply bind_ext; intros y _; done.
Qed.

Lemma sum_spec op a b :
  op_level op = 0%nat -> expression_spec a -> term_spec b -> expression_spec (EBin op a b).
Proof using.
  intros Hl Ha Hb k Hk Hh. rewrite print_bin by lia. rewrite Hl.
  rewrite Ha; [|apply follow_op|].
  2: { destruct op; try discriminate Hl; simpl; rewrite !elem_of_cons, elem_of_nil;
       unfold c_plus, c_minus, c_star, c_slash; lia. }
  cbn [eval]. rewrite bind_assoc. apply bind_ext. intros x _.
  pose proof (parsed_loop_op op x (print 1 b ++ k) (follow_visible _ (follow_op op _))) as Hop.
  destruct op; try discriminate Hl; rewrite Hop, Hb, !bind_assoc by done;
    apply bind_ext; intros y _; rewrite parsed_product_end by (done || by apply follow_visible); done.
Qed.

Lemma call1_spec f a : is_name f -> expression_spec a -> factor_spec (ECall1 f a).
Proof using.
  intros Hf Ha k Hk. cbn [print]. rewrite <- app_assoc, <- app_comm_cons, <- app_assoc. cbn [app].
  rewrite parsed_call, Ha by (done || apply follow_close || not_head). cbn [eval].
  rewrite bind_assoc. destruct (eval a) as [x|e|e]; [|done..]. cbn [mbind Result_bind].
  rewrite parsed_sum_end by (apply visible_close || not_head). cbn [mbind Result_bind].
  rewrite !skip_visible by apply visible_close. cbn [consume].
  change (c_close =? c_comma) with false. rewrite Z.eqb_refl. done.
Qed.

Lemma call2_spec f a b :
  is_name f -> expression_spec a -> expression_spec b -> factor_spec (ECall2 f a b).
Proof using.
  intros Hf Ha Hb k Hk. cbn [print].
  rewrite <- app_assoc, <- app_comm_cons, <- app_assoc, <- app_comm_cons, <- app_assoc. cbn [app].
  assert (Hcomma : follow (c_comma :: print 0 b ++ c_close :: k)).
  { right. eexists _, _. split; [done|]. set_solver. }
  rewrite parsed_call, Ha by (done || not_head). cbn [eval].
  rewrite bind_assoc. destruct (eval a) as [x|e|e]; [|done..]. cbn [mbind Result_bind].
  rewrite parsed_sum_end by (by apply follow_visible || not_head). cbn [mbind Result_bind].
  rewrite skip_visible by by apply follow_visible. cbn [consume]. rewrite Z.eqb_refl.
  rewrite Hb by (apply follow_close || not_head). rewrite bind_assoc.
  destruct (eval b) as [y|e|e]; [|done..]. cbn [mbind Result_bind].
  rewrite parsed_sum_end by (apply visible_close || not_head). cbn [mbind Result_bind].
  rewrite skip_visible by apply visible_close. cbn [consume]. rewrite Z.eqb_refl. done.
Qed.

Lemma neg_spec a : factor_spec a -> factor_spec (ENeg a).
Proof using.
  intros Ha k Hk. cbn [print]. rewrite <- app_comm_cons, parsed_neg, Ha by done. cbn [eval].
  by destruct (eval a).
Qed.

Lemma parse_print e : well_formed e -> factor_spec e /\ term_spec e /\ expression_spec e.
Proof using.
  assert (Hatom : forall e, is_product e = false -> is_sum e = false -> factor_spec e ->
    factor_spec e /\ term_spec e /\ expression_spec e).
  { intros e' Hp Hs Hf. pose proof (term_of_factor e' Hp Hf) as Ht.
    split; [done|]. split; [done|]. by apply expression_of_term. }
  induction e as [name|text|a IHa|op a IHa b IHb|f a IHa|f a IHa b IHb]; simpl; intros Hwf.
  - apply Hatom; [done..|]. intros k Hk. by apply parsed_alias.
  - apply Hatom; [done..|]. intros k Hk. by apply parsed_number.
  - apply Hatom; [done..|]. by apply neg_spec, IHa.
  - destruct Hwf as [Hwa Hwb]. destruct (IHa Hwa) as (Hfa & Hta & Hea).
    destruct (IHb Hwb) as (Hfb & Htb & Heb). destruct (op_level op) as [|[|n]] eqn:Hl.
    + pose proof (sum_spec op a b Hl Hea Htb) as He. pose proof (factor_of_expression op a b He) as Hf.
      split; [done|]. split; [|done]. apply term_of_factor; [by destruct op | done].
    + pose proof (product_spec op a b Hl Hta Hfb) as Ht.
      assert (He : expression_spec (EBin op a b)) by (apply expression_of_term; [by destruct op | done]).
      split; [by apply factor_of_expression | done].
    + by destruct op.
  - destruct Hwf as [Hf Hwa]. apply Hatom; [done..|]. apply call1_spec; [done|]. by apply IHa.
  - destruct Hwf as (Hf & Hwa & Hwb). apply Hatom; [done..|].
    apply call2_spec; [done | by apply IHa | by apply IHb].
Qed.

(** [C37] The evaluator implements the grammar: the text of an expression
    printed with parentheses only where precedence and left associativity
    require them evaluates to the meaning of that expression, operand by
    operand from left to right, errors such as a division by zero or a
    missing alias included. *)
Theorem evaluate_print e :
  well_formed e -> bytes_ok (print 0 e) ->
  evaluate_expression powf values (str_of_bytes (print 0 e)) = Some (eval e).
Proof using.
  intros Hwf Hok. unfold evaluate_expression. rewrite str_bytes_of_bytes by done.
  rewrite parse_parsed by (simpl; unfold expression_fuel; lia).
  destruct (parse_print e Hwf) as (_ & _ & He).
  specialize (He [] (or_introl eq_refl) I). rewrite app_nil_r in He. rewrite He.
  destruct (eval e) as [v|err|err]; [|done..]. cbn [mbind Result_bind].
  by rewrite parsed_sum_end.
Qed.
End semantics.

Definition example_values : gmap string TelemetrySample :=
  {[ "t1" := new_sample "d" "t1" (VInteger 7) Q_Good 0;
     "t2" := new_sample "d" "t2" (VInteger 2) Q_Good 0 ]}.

(** [(t1 - t2 - 1) * -max(t2, 3)]. *)
Definition example_expr : Expr :=
  EBin OpMul
    (EBin OpSub (EBin OpSub (EAlias (str_bytes "t1")) (EAlias (str_bytes "t2")))
       (ENumber (str_bytes "1")))
    (ENeg (ECall2 (str_bytes "max") (EAlias (str_bytes "t2")) (ENumber (str_bytes "3")))).

Lemma evaluate_print_witness :
  evaluate_expression (fun x _ => x) example_values "(t1-t2-1)*-max(t2,3)" =
  Some (Ok (f64_of_Z (-12))).
Proof.
  refine (eq_trans (evaluate_print (fun x _ => x) example_values example_expr _ _) _).
  - assert (Hname : forall s b rest, str_bytes s = b :: rest ->
      forallb is_identifier_char (str_bytes s) = true -> is_ascii_digit b = false ->
      is_name (str_bytes s)).
    { intros s b rest Hs Hall Hb. split; [by apply forallb_Forall | by exists b, rest]. }
    assert (Hlit : forall s, str_bytes s <> [] ->
      forallb (fun b => is_ascii_digit b || (b =? c_dot)) (str_bytes s) = true ->
      is_literal (str_bytes s)).
    { intros s Hne Hall. split; [by apply forallb_Forall | done]. }
    cbn [well_formed example_expr]. split_and!;
      first [eapply Hname; reflexivity | apply Hlit; [discriminate | reflexivity]].
  - vm_compute. repeat constructor; discriminate.
  - vm_compute. reflexivity.
Defined.
