(* ===== verification/Algorithm.v ===== *)
(** The algorithm engine, [crates/edge-runtime/src/algorithm.rs]: change
    filters, windows, transforms, debouncing, duration conditions, threshold
    rules and routes over streams of samples, and the work list of
    [AlgorithmEngine::apply_samples].

    The operations on [&mut AlgorithmState] are computations of the monad [M],
    whose state survives an error as the mutations of the code do.

    [apply_samples_terminates] bounds the work list, [engine_inherits_quality] says
    whose quality a derived sample carries, [duration_condition_contract] when a
    duration condition reports; [change_filter_tracks] and
    [debounce_reports_stable_values] are about the other two filters. *)

From Stdlib Require Import ZArith Lia SpecFloat.
From S2P Require Import Prelude RustStr Floats Model Expression.

Open Scope Z_scope.

(** ** State *)

Record DebounceState := { debounce_value : TelemetryValue; debounce_since : DateTime }.
Record DurationConditionState := { duration_since : DateTime; duration_emitted : bool }.
Record WindowState := { started_at : option DateTime; window_samples : list TelemetrySample }.

Record AlgorithmState := {
  last_reported : gmap string TelemetryValue;
  latest_by_alias : gmap string TelemetrySample;
  previous_by_alias : gmap string TelemetrySample;
  debounce_by_alias : gmap string DebounceState;
  duration_by_alias : gmap string DurationConditionState;
  windows : gmap string WindowState;
}.

Definition default_state : AlgorithmState :=
  {| last_reported := ∅; latest_by_alias := ∅; previous_by_alias := ∅;
     debounce_by_alias := ∅; duration_by_alias := ∅; windows := ∅ |}.

Definition set_last_reported f st :=
  {| last_reported := f (last_reported st); latest_by_alias := latest_by_alias st;
     previous_by_alias := previous_by_alias st; debounce_by_alias := debounce_by_alias st;
     duration_by_alias := duration_by_alias st; windows := windows st |}.
Definition set_latest f st :=
  {| last_reported := last_reported st; latest_by_alias := f (latest_by_alias st);
     previous_by_alias := previous_by_alias st; debounce_by_alias := debounce_by_alias st;
     duration_by_alias := duration_by_alias st; windows := windows st |}.
Definition set_previous f st :=
  {| last_reported := last_reported st; latest_by_alias := latest_by_alias st;
     previous_by_alias := f (previous_by_alias st); debounce_by_alias := debounce_by_alias st;
     duration_by_alias := duration_by_alias st; windows := windows st |}.
Definition set_debounce f st :=
  {| last_reported := last_reported st; latest_by_alias := latest_by_alias st;
     previous_by_alias := previous_by_alias st; debounce_by_alias := f (debounce_by_alias st);
     duration_by_alias := duration_by_alias st; windows := windows st |}.
Definition set_duration f st :=
  {| last_reported := last_reported st; latest_by_alias := latest_by_alias st;
     previous_by_alias := previous_by_alias st; debounce_by_alias := debounce_by_alias st;
     duration_by_alias := f (duration_by_alias st); windows := windows st |}.
Definition set_windows f st :=
  {| last_reported := last_reported st; latest_by_alias := latest_by_alias st;
     previous_by_alias := previous_by_alias st; debounce_by_alias := debounce_by_alias st;
     duration_by_alias := duration_by_alias st; windows := f (windows st) |}.

(** ** Shared lookups *)

Definition input_binding (algorithm : AlgorithmSpec) (source : string)
    : option AlgorithmInputBinding :=
  find_first (fun input => bool_decide (alias input = source)) (dsl_inputs (algo_dsl algorithm)).

(** The lookup whose failure is an error. *)
Definition require_input (algorithm : AlgorithmSpec) (source : string)
    : Result AlgorithmInputBinding :=
  ok_or (input_binding algorithm source)
    ("algorithm " ++ algo_id algorithm ++ " references missing input alias " ++ source)%string.

Definition output_named (algorithm : AlgorithmSpec) (name : string) : option AlgorithmOutput :=
  find_first (fun output => bool_decide (output_name output = name)) (dsl_outputs (algo_dsl algorithm)).

Definition first_output (algorithm : AlgorithmSpec) : Result AlgorithmOutput :=
  ok_or (head (dsl_outputs (algo_dsl algorithm)))
    ("algorithm " ++ algo_id algorithm ++ " requires an output")%string.

(** The derived sample of every step: the timestamp and the quality of its
    source. *)
Definition derived_sample (point_id : string) (value : TelemetryValue) (sample source : TelemetrySample)
    : TelemetrySample :=
  inherit_quality
    (new_sample (sample_device_id sample) point_id value (sample_quality source)
       (sample_timestamp sample)) source.

Definition compare (value : f64) (operator : CompareOperator) (threshold : f64) : bool :=
  match operator with
  | Op_Gt => f64_gt value threshold
  | Op_Gte => f64_ge value threshold
  | Op_Lt => f64_lt value threshold
  | Op_Lte => f64_le value threshold
  | Op_Eq => f64_lt (f64_abs (f64_sub value threshold)) f64_epsilon
  | Op_Ne => f64_ge (f64_abs (f64_sub value threshold)) f64_epsilon
  end.

Definition value_changed (previous current : TelemetryValue) (threshold : f64) : bool :=
  match as_f64 previous, as_f64 current with
  | Some previous, Some current => f64_ge (f64_abs (f64_sub current previous)) threshold
  | _, _ => negb (value_eqb previous current)
  end.

Definition data_quality_rank (q : DataQuality) : Z :=
  match q with Q_Good => 0 | Q_Uncertain => 1 | Q_Bad => 2 end.

Definition map_event_severity (s : EventSeverity) : RuntimeEventSeverity :=
  match s with Sev_Info => Rt_Info | Sev_Warning => Rt_Warning | Sev_Critical => Rt_Critical end.

(** ** Change reports and deadbands *)

Definition change_filter_step (step : AlgorithmStep) : option (string * f64) :=
  match step with StepChangeFilter source threshold => Some (source, threshold) | _ => None end.

Definition apply_change_report (algorithm : AlgorithmSpec) (sample : TelemetrySample)
    : M AlgorithmState (list TelemetrySample) :=
  match find_map change_filter_step (dsl_steps (algo_dsl algorithm)) with
  | None => mret []
  | Some (source, threshold) =>
      binding ← lift (require_input algorithm source);
      if negb (bool_decide (input_point_id binding = sample_telemetry_id sample)) then mret []
      else
        output ← lift (first_output algorithm);
        let key := output_point_id output in
        reported ← gets last_reported;
        let should_emit :=
          match reported !! key with
          | Some last => value_changed last (sample_value sample) threshold
          | None => true
          end in
        if negb should_emit then mret []
        else
          _ ← modify (set_last_reported (insert key (sample_value sample)));
          mret [derived_sample key (sample_value sample) sample sample]
  end.

(** ** Windows *)

Definition non_empty (values : list f64) : option (list f64) :=
  match values with [] => None | _ => Some values end.

(** [iter().sum::<f64>()]: the neutral element of the standard library is
    [-0.0]. *)
Definition f64_sum (values : list f64) : f64 := fold_left f64_add values (S754_zero true).

Definition aggregate_value (f : WindowAggregateFunction) (values : list f64)
    : option (string * TelemetryValue) :=
  match f with
  | Avg output =>
      (fun values => (output, VFloat (f64_div (f64_sum values) (f64_of_Z (Z.of_nat (length values))))))
        <$> non_empty values
  | Min output => (fun values => (output, VFloat (fold_left f64_min values f64_infinity)))
                    <$> non_empty values
  | Max output => (fun values => (output, VFloat (fold_left f64_max values f64_neg_infinity)))
                    <$> non_empty values
  | Sum output => Some (output, VFloat (f64_sum values))
  | Count output => Some (output, VInteger (Z.of_nat (length values)))
  | First output => (fun v => (output, VFloat v)) <$> head values
  | Last output => (fun v => (output, VFloat v)) <$> list.last values
  end.

(** [iter().max_by_key(rank)]: the last of the maximal elements. *)
Definition worst_quality (samples : list TelemetrySample) : option TelemetrySample :=
  fold_left (fun best s =>
    match best with
    | None => Some s
    | Some b =>
        if data_quality_rank (sample_quality b) <=? data_quality_rank (sample_quality s)
        then Some s else Some b
    end) samples None.

Definition window_step (step : AlgorithmStep) : option (string * list WindowAggregateFunction) :=
  match step with StepWindowAggregate source functions => Some (source, functions) | _ => None end.

(** The outputs of a window that closes on [sample]. *)
Definition window_outputs (algorithm : AlgorithmSpec) (functions : list WindowAggregateFunction)
    (samples : list TelemetrySample) (sample : TelemetrySample) : list TelemetrySample :=
  let values := omap (fun s => as_f64 (sample_value s)) samples in
  let quality_source := default sample (worst_quality samples) in
  omap (fun f =>
    '(name, value) ← aggregate_value f values;
    output ← output_named algorithm name;
    Some (derived_sample (output_point_id output) value sample quality_source)) functions.

Definition empty_window : WindowState := {| started_at := None; window_samples := [] |}.

Definition apply_window_aggregate (algorithm : AlgorithmSpec) (sample : TelemetrySample)
    : M AlgorithmState (list TelemetrySample) :=
  match dsl_trigger (algo_dsl algorithm) with
  | Window every_ms =>
      match find_map window_step (dsl_steps (algo_dsl algorithm)) with
      | None => mret []
      | Some (source, functions) =>
          binding ← lift (require_input algorithm source);
          if negb (bool_decide (input_point_id binding = sample_telemetry_id sample)) then mret []
          else
            current ← gets windows;
            let window := default empty_window (current !! source) in
            let started := default (sample_timestamp sample) (started_at window) in
            let samples := window_samples window ++ [sample] in
            if num_milliseconds (sample_timestamp sample) started <? signed 64 every_ms then
              _ ← modify (set_windows (insert source
                {| started_at := Some started; window_samples := samples |}));
              mret []
            else
              _ ← modify (set_windows (insert source
                {| started_at := Some (sample_timestamp sample); window_samples := [] |}));
              mret (window_outputs algorithm functions samples sample)
      end
  | _ => mret []
  end.

(** ** Transforms *)

(** The loop that records the sample under every alias bound to its point. *)
Definition record_latest (algorithm : AlgorithmSpec) (sample : TelemetrySample)
    (latest : gmap string TelemetrySample) : gmap string TelemetrySample :=
  fold_left (fun latest input =>
    if bool_decide (input_point_id input = sample_telemetry_id sample)
    then <[alias input := sample]> latest else latest) (dsl_inputs (algo_dsl algorithm)) latest.

Definition numeric_source (algorithm : AlgorithmSpec) (st : AlgorithmState)
    (sample : TelemetrySample) (source : string) : option f64 :=
  binding ← input_binding algorithm source;
  if negb (bool_decide (input_point_id binding = sample_telemetry_id sample)) then None
  else latest_by_alias st !! source ≫= fun s => as_f64 (sample_value s).

(** The rate-of-change arm: it replaces the previous sample of the alias as
    soon as the current one is numeric. *)
Definition rate_of_change (algorithm : AlgorithmSpec) (sample : TelemetrySample) (source : string)
    (per_ms : Z) (st : AlgorithmState) : AlgorithmState * option f64 :=
  match input_binding algorithm source with
  | None => (st, None)
  | Some binding =>
      if negb (bool_decide (input_point_id binding = sample_telemetry_id sample)) then (st, None)
      else
        match as_f64 (sample_value sample) with
        | None => (st, None)
        | Some current =>
            (set_previous (insert source sample) st,
             previous ← previous_by_alias st !! source;
             let elapsed_ms := num_milliseconds (sample_timestamp sample) (sample_timestamp previous) in
             previous_value ← as_f64 (sample_value previous);
             if (elapsed_ms <=? 0) || (per_ms =? 0) then None
             else Some (f64_div (f64_mul (f64_sub current previous_value) (f64_of_Z per_ms))
                          (f64_of_Z elapsed_ms)))
        end
  end.

Section transform.
Context (powf : f64 -> f64 -> f64).

(** The name of the output a step feeds, next to its value. *)
Definition to_output (output : string) (value : option (Result f64))
    : option (Result (string * f64)) :=
  option_map (fun r => v ← r; Ok (output, v)) value.

(** The closure of [find_map]: the output a step names with its value, or
    nothing, which lets the search go on. *)
Definition transform_step (algorithm : AlgorithmSpec) (sample : TelemetrySample)
    (step : AlgorithmStep) (st : AlgorithmState)
    : AlgorithmState * option (Result (string * f64)) :=
  match step with
  | StepExpression output expr =>
      if forallb (fun input => bool_decide (is_Some (latest_by_alias st !! alias input)))
           (dsl_inputs (algo_dsl algorithm))
      then (st, to_output output (evaluate_expression powf (latest_by_alias st) expr))
      else (st, None)
  | StepScale source output factor offset =>
      (st, to_output output
             (option_map (fun v => Ok (f64_add (f64_mul v factor) offset))
                (numeric_source algorithm st sample source)))
  | StepClamp source output min max =>
      (st, to_output output
             (option_map (fun v => expect (f64_clamp v min max) "min > max, or either was NaN")
                (numeric_source algorithm st sample source)))
  | StepRateOfChange source output per_ms =>
      let '(st, value) := rate_of_change algorithm sample source per_ms st in
      (st, to_output output (option_map Ok value))
  | _ => (st, None)
  end.

Fixpoint transform_steps (algorithm : AlgorithmSpec) (sample : TelemetrySample)
    (steps : list AlgorithmStep) (st : AlgorithmState)
    : AlgorithmState * option (Result (string * f64)) :=
  match steps with
  | [] => (st, None)
  | step :: rest =>
      match transform_step algorithm sample step st with
      | (st, Some r) => (st, Some r)
      | (st, None) => transform_steps algorithm sample rest st
      end
  end.

Definition apply_transform (algorithm : AlgorithmSpec) (sample : TelemetrySample)
    : M AlgorithmState (list TelemetrySample) := fun st =>
  let st := set_latest (record_latest algorithm sample) st in
  match transform_steps algorithm sample (dsl_steps (algo_dsl algorithm)) st with
  | (st, None) => (st, Ok [])
  | (st, Some r) =>
      (st,
       '(name, value) ← r;
       output ← ok_or (output_named algorithm name)
         ("algorithm " ++ algo_id algorithm ++ " references missing output " ++ name)%string;
       Ok [derived_sample (output_point_id output) (VFloat value) sample sample])
  end.
End transform.

(** ** Debouncing *)

Definition debounce_step (step : AlgorithmStep) : option (string * Z) :=
  match step with StepDebounce source stable_ms => Some (source, stable_ms) | _ => None end.

Definition apply_debounce (algorithm : AlgorithmSpec) (sample : TelemetrySample)
    : M AlgorithmState (list TelemetrySample) :=
  match find_map debounce_step (dsl_steps (algo_dsl algorithm)) with
  | None => mret []
  | Some (source, stable_ms) =>
      binding ← lift (require_input algorithm source);
      if negb (bool_decide (input_point_id binding = sample_telemetry_id sample)) then mret []
      else
        let here := {| debounce_value := sample_value sample; debounce_since := sample_timestamp sample |} in
        entries ← gets debounce_by_alias;
        let pending := default here (entries !! source) in
        if negb (value_eqb (debounce_value pending) (sample_value sample)) then
          _ ← modify (set_debounce (insert source here));
          mret []
        else
          _ ← modify (set_debounce (insert source pending));
          if num_milliseconds (sample_timestamp sample) (debounce_since pending) <? signed 64 stable_ms
          then mret []
          else
            output ← lift (first_output algorithm);
            reported ← gets last_reported;
            if match reported !! output_point_id output with
               | Some last => value_eqb last (sample_value sample)
               | None => false
               end
            then mret []
            else
              _ ← modify (set_last_reported (insert (output_point_id output) (sample_value sample)));
              mret [derived_sample (output_point_id output) (sample_value sample) sample sample]
  end.

(** ** Duration conditions *)

Record DurationCondition := {
  dc_source : string;
  dc_operator : CompareOperator;
  dc_threshold : f64;
  dc_duration_ms : Z;
  dc_output : string;
}.

Definition duration_step (step : AlgorithmStep) : option DurationCondition :=
  match step with
  | StepDurationCondition source operator threshold duration_ms output =>
      Some {| dc_source := source; dc_operator := operator; dc_threshold := threshold;
              dc_duration_ms := duration_ms; dc_output := output |}
  | _ => None
  end.

Definition apply_duration_condition (algorithm : AlgorithmSpec) (sample : TelemetrySample)
    : M AlgorithmState (list TelemetrySample) :=
  match find_map duration_step (dsl_steps (algo_dsl algorithm)) with
  | None => mret []
  | Some c =>
      binding ← lift (require_input algorithm (dc_source c));
      if negb (bool_decide (input_point_id binding = sample_telemetry_id sample)) then mret []
      else
        match as_f64 (sample_value sample) with
        | None => mret []
        | Some value =>
            if negb (compare value (dc_operator c) (dc_threshold c)) then
              _ ← modify (set_duration (delete (dc_source c)));
              mret []
            else
              entries ← gets duration_by_alias;
              let fresh := {| duration_since := sample_timestamp sample; duration_emitted := false |} in
              let entry := default fresh (entries !! dc_source c) in
              let entry := if sample_timestamp sample <? duration_since entry then fresh else entry in
              let elapsed_ms := wrap 64 (num_milliseconds (sample_timestamp sample) (duration_since entry)) in
              if duration_emitted entry || (elapsed_ms <? dc_duration_ms c) then
                _ ← modify (set_duration (insert (dc_source c) entry));
                mret []
              else
                _ ← modify (set_duration (insert (dc_source c)
                      {| duration_since := duration_since entry; duration_emitted := true |}));
                output ← lift (ok_or (output_named algorithm (dc_output c))
                  ("algorithm " ++ algo_id algorithm ++ " references missing output " ++ dc_output c)%string);
                mret [derived_sample (output_point_id output) (sample_value sample) sample sample]
        end
  end.

(** ** Threshold rules and routes *)

(** The fields of a rule or a route: the event of the one, the outputs of the
    other. *)
Definition threshold_step (step : AlgorithmStep)
    : option (string * CompareOperator * f64 * option AlgorithmEventOutput * option (string * string)) :=
  match step with
  | StepThresholdRule source operator threshold event =>
      Some (source, operator, threshold, Some event, None)
  | StepConditionalRoute source operator threshold matched unmatched =>
      Some (source, operator, threshold, None, Some (matched, unmatched))
  | _ => None
  end.

Definition rule_event (algorithm : AlgorithmSpec) (sample : TelemetrySample) (now : DateTime)
    (event : AlgorithmEventOutput) : EdgeRuntimeEvent :=
  event_with_context
    (event_with_context
       (new_event "" (map_event_severity (out_severity event)) Cat_Algorithm (out_code event)
          (out_message event) now) "algorithm_id" (algo_id algorithm))
    "point_id" (sample_telemetry_id sample).

Definition apply_threshold_step (algorithm : AlgorithmSpec) (sample : TelemetrySample)
    (now : DateTime) (step : AlgorithmStep)
    : Result (list TelemetrySample * list EdgeRuntimeEvent) :=
  match threshold_step step with
  | None => Ok ([], [])
  | Some (source, operator, threshold, event, route) =>
      binding ← require_input algorithm source;
      if negb (bool_decide (input_point_id binding = sample_telemetry_id sample)) then Ok ([], [])
      else
        match as_f64 (sample_value sample) with
        | None => Ok ([], [])
        | Some value =>
            let matched := compare value operator threshold in
            samples ←
              match route with
              | Some (matched_output, unmatched_output) =>
                  let name := if matched then matched_output else unmatched_output in
                  output ← ok_or (output_named algorithm name)
                    ("algorithm " ++ algo_id algorithm ++ " references missing route output " ++ name)%string;
                  Ok [derived_sample (output_point_id output) (sample_value sample) sample sample]
              | None => Ok []
              end;
            Ok (samples,
                if matched then
                  match event with Some event => [rule_event algorithm sample now event] | None => [] end
                else [])
        end
  end.

Fixpoint apply_threshold_steps (algorithm : AlgorithmSpec) (sample : TelemetrySample)
    (now : DateTime) (steps : list AlgorithmStep)
    : Result (list TelemetrySample * list EdgeRuntimeEvent) :=
  match steps with
  | [] => Ok ([], [])
  | step :: rest =>
      '(samples, events) ← apply_threshold_step algorithm sample now step;
      '(samples', events') ← apply_threshold_steps algorithm sample now rest;
      Ok (samples ++ samples', events ++ events')
  end.

Definition apply_threshold_rule (algorithm : AlgorithmSpec) (now : DateTime) (sample : TelemetrySample)
    : M AlgorithmState (list TelemetrySample * list EdgeRuntimeEvent) :=
  lift (apply_threshold_steps algorithm sample now (dsl_steps (algo_dsl algorithm))).

(** ** The engine *)

Record AlgorithmExecutionStats := {
  healthy : bool;
  last_run_latency_ms : Z;
  error_count : Z;
  alert_count : Z;
}.

Definition default_stats : AlgorithmExecutionStats :=
  {| healthy := false; last_run_latency_ms := 0; error_count := 0; alert_count := 0 |}.

Record AlgorithmEngine := {
  algorithms : list AlgorithmSpec;
  states : gmap string AlgorithmState;
  execution : gmap string AlgorithmExecutionStats;
}.

(** [AlgorithmEngine::new]. *)
Definition new_engine (specs : list AlgorithmSpec) : Result AlgorithmEngine :=
  ensure (forallb (fun algorithm => negb (is_blank (algo_id algorithm))) specs)
    "algorithm id is required";;
  Ok {| algorithms := specs; states := ∅; execution := ∅ |}.

Record AlgorithmRuntimeMetrics := {
  metrics_algorithm_id : string;
  metrics_healthy : bool;
  metrics_last_run_latency_ms : Z;
  metrics_error_count : Z;
  metrics_alert_count : Z;
}.

Definition runtime_metrics (engine : AlgorithmEngine) : list AlgorithmRuntimeMetrics :=
  omap (fun algorithm =>
    (fun stats =>
       {| metrics_algorithm_id := algo_id algorithm; metrics_healthy := healthy stats;
          metrics_last_run_latency_ms := last_run_latency_ms stats;
          metrics_error_count := error_count stats; metrics_alert_count := alert_count stats |})
      <$> execution engine !! algo_id algorithm) (algorithms engine).

(** [elapsed_millis] of a duration in nanoseconds. *)
Definition elapsed_millis (nanos : Z) : Z :=
  if nanos =? 0 then 0 else Z.min (Z.max (nanos / 1000000) 1) (u_max 64).

Record AlgorithmExecutionReport := {
  report_samples : list TelemetrySample;
  report_events : list EdgeRuntimeEvent;
}.

(** The algorithm, the device, the point and the instant of an execution. *)
Abbreviation Transition := (string * string * string * Z)%type.

(** The locals of [apply_samples]. *)
Record Work := {
  work_report : AlgorithmExecutionReport;
  work_pending : list TelemetrySample;
  work_processed : gset Transition;
}.

Section engine.
(** [f64::powf], what [Utc::now()] returns for an event, and the duration an
    execution is measured to take. *)
Context (powf : f64 -> f64 -> f64) (now : DateTime) (elapsed : AlgorithmSpec -> TelemetrySample -> Z).

(** The dispatch on the kind of the algorithm. *)
Definition run_algorithm (algorithm : AlgorithmSpec) (sample : TelemetrySample)
    : M AlgorithmState (list TelemetrySample * list EdgeRuntimeEvent) :=
  match algo_kind algorithm with
  | ChangeReport | Deadband => samples ← apply_change_report algorithm sample; mret (samples, [])
  | WindowAggregate | Statistics =>
      samples ← apply_window_aggregate algorithm sample; mret (samples, [])
  | ExpressionAggregate => samples ← apply_transform powf algorithm sample; mret (samples, [])
  | ThresholdRule => apply_threshold_rule algorithm now sample
  | Debounce => samples ← apply_debounce algorithm sample; mret (samples, [])
  | DurationRule => samples ← apply_duration_condition algorithm sample; mret (samples, [])
  end.

(** One execution: the state and the statistics of the algorithm are updated
    whatever its outcome. *)
Definition execute (algorithm : AlgorithmSpec) (sample : TelemetrySample)
    : M AlgorithmEngine (list TelemetrySample * list EdgeRuntimeEvent) := fun engine =>
  let id := algo_id algorithm in
  let state := default default_state (states engine !! id) in
  let '(state, outcome) := run_algorithm algorithm sample state in
  let stats := default default_stats (execution engine !! id) in
  let latency := elapsed_millis (elapsed algorithm sample) in
  let engine' stats :=
    {| algorithms := algorithms engine; states := <[id := state]> (states engine);
       execution := <[id := stats]> (execution engine) |} in
  match outcome with
  | Ok (generated, events) =>
      (engine' {| healthy := true; last_run_latency_ms := latency; error_count := error_count stats;
                  alert_count := sat_add 64 (alert_count stats) (Z.of_nat (length events)) |},
       Ok (generated, events))
  | Err e =>
      (engine' {| healthy := false; last_run_latency_ms := latency;
                  error_count := sat_add 64 (error_count stats) 1; alert_count := alert_count stats |},
       Err e)
  | Panic e =>
      ({| algorithms := algorithms engine; states := <[id := state]> (states engine);
          execution := execution engine |}, Panic e)
  end.

(** The body of the inner loop. *)
Definition process (max_generated : Z) (sample : TelemetrySample) (w : Work)
    (algorithm : AlgorithmSpec) : M AlgorithmEngine Work :=
  match dsl_inputs (algo_dsl algorithm) with
  | [] => mret w
  | _ =>
      if negb (bool_decide (sample_telemetry_id sample ∈ algo_inputs algorithm)) then mret w
      else
        let transition := (algo_id algorithm, sample_device_id sample, sample_telemetry_id sample,
                           sample_timestamp sample) in
        if bool_decide (transition ∈ work_processed w) then mret w
        else
          '(generated, events) ← execute algorithm sample;
          let samples := report_samples (work_report w) in
          if max_generated <? Z.of_nat (length samples) + Z.of_nat (length generated) then
            lift (bail "algorithm graph generated too many samples; check for a cycle")
          else
            mret {| work_report := {| report_samples := samples ++ generated;
                                      report_events := report_events (work_report w) ++ events |};
                    work_pending := work_pending w ++ generated;
                    work_processed := {[transition]} ∪ work_processed w |}
  end.

Fixpoint process_all (max_generated : Z) (sample : TelemetrySample) (specs : list AlgorithmSpec)
    (w : Work) : M AlgorithmEngine Work :=
  match specs with
  | [] => mret w
  | algorithm :: rest =>
      w ← process max_generated sample w algorithm;
      process_all max_generated sample rest w
  end.

(** The work list; [None] when the fuel ran out. *)
Fixpoint drain (fuel : nat) (max_generated : Z) (specs : list AlgorithmSpec) (w : Work)
    : M AlgorithmEngine (option AlgorithmExecutionReport) :=
  match fuel with
  | O => mret None
  | S fuel =>
      match work_pending w with
      | [] => mret (Some (work_report w))
      | sample :: rest =>
          w ← process_all max_generated sample specs
            {| work_report := work_report w; work_pending := rest; work_processed := work_processed w |};
          drain fuel max_generated specs w
      end
  end.

Definition sat_mul (a b : Z) : Z := Z.min (a * b) (u_max 64).

Definition max_generated_samples (samples specs : nat) : Z :=
  sat_mul (sat_mul (Z.max (Z.of_nat samples) 1) (Z.max (Z.of_nat specs) 1)) 16.

(** Every turn takes one sample from the list, and no more than the limit are
    ever added. *)
Definition drain_fuel (samples specs : nat) : nat :=
  S (samples + Z.to_nat (max_generated_samples samples specs)).

Definition apply_samples (samples : list TelemetrySample)
    : M AlgorithmEngine (option AlgorithmExecutionReport) :=
  specs ← gets algorithms;
  drain (drain_fuel (length samples) (length specs))
    (max_generated_samples (length samples) (length specs)) specs
    {| work_report := {| report_samples := []; report_events := [] |};
       work_pending := samples; work_processed := ∅ |}.

(** *** Termination *)

Definition budget (max_generated : Z) (w : Work) : Z :=
  Z.of_nat (length (work_pending w)) +
  (max_generated - Z.of_nat (length (report_samples (work_report w)))).

(** The limit is respected and what is pending is accounted for. *)
Definition within (max_generated : Z) (w : Work) : Prop :=
  Z.of_nat (length (report_samples (work_report w))) <= max_generated.

Lemma process_budget max sample w algorithm engine engine' w' :
  within max w -> process max sample w algorithm engine = (engine', Ok w') ->
  within max w' /\ budget max w' = budget max w.
Proof using.
  unfold process. intros Hin H. destruct (dsl_inputs _); [by injection H as <- <-|].
  destruct (negb _); [by injection H as <- <-|].
  case_bool_decide; [by injection H as <- <-|].
  apply M_bind_Ok in H as (e1 & [generated events] & _ & H).
  destruct (Z.ltb_spec max (Z.of_nat (length (report_samples (work_report w))) +
                            Z.of_nat (length generated))); [done|].
  injection H as <- <-. unfold within, budget in *. simpl. rewrite !length_app. lia.
Qed.

Lemma process_all_budget max sample specs w engine engine' w' :
  within max w -> process_all max sample specs w engine = (engine', Ok w') ->
  within max w' /\ budget max w' = budget max w.
Proof using.
  revert w engine. induction specs as [|algorithm specs IH]; intros w engine Hin H.
  - by injection H as <- <-.
  - cbn [process_all] in H. apply M_bind_Ok in H as (e1 & w1 & H1 & H).
    apply process_budget in H1 as [Hin1 Hb1]; [|done].
    apply IH in H as [? ?]; [|done]. split; [done | lia].
Qed.

Lemma drain_returns fuel max specs w engine :
  within max w -> budget max w < Z.of_nat fuel ->
  match snd (drain fuel max specs w engine) with
  | Ok None => False
  | Ok (Some report) => Z.of_nat (length (report_samples report)) <= max
  | Err _ | Panic _ => True
  end.
Proof using.
  revert w engine. induction fuel as [|fuel IH]; intros w engine Hin Hb.
  { unfold budget, within in *. simpl in Hb. lia. }
  cbn [drain]. destruct (work_pending w) as [|sample rest] eqn:Hp; [exact Hin|].
  rewrite M_bind_eq. destruct (process_all max sample specs _ engine) as [engine' [w'|e|e]] eqn:E;
    [|done..]. apply process_all_budget in E as [Hin' Hb']; [|exact Hin].
  apply IH; [done|]. rewrite Hb'. unfold budget in *. rewrite Hp in Hb. simpl in *. lia.
Qed.

(** [C36] The work list of the engine always drains: whatever the graph of
    algorithms, cyclic ones included, applying a batch of samples ends in a
    report of at most sixteen samples per input sample and algorithm, or in
    an error; the fuel of the model is never exhausted. *)
Theorem apply_samples_terminates samples engine :
  match snd (apply_samples samples engine) with
  | Ok None => False
  | Ok (Some report) =>
      Z.of_nat (length (report_samples report)) <=
      max_generated_samples (length samples) (length (algorithms engine)) <=
      16 * Z.max (Z.of_nat (length samples)) 1 * Z.max (Z.of_nat (length (algorithms engine))) 1
  | Err _ | Panic _ => True
  end.
Proof using.
  set (max := max_generated_samples (length samples) (length (algorithms engine))).
  assert (Hmax : 0 <= max <= 16 * Z.max (Z.of_nat (length samples)) 1 *
    Z.max (Z.of_nat (length (algorithms engine))) 1).
  { unfold max, max_generated_samples, sat_mul, u_max. nia. }
  unfold apply_samples. rewrite M_bind_eq. cbn [gets]. fold max.
  pose proof (drain_returns (drain_fuel (length samples) (length (algorithms engine))) max
    (algorithms engine) {| work_report := {| report_samples := []; report_events := [] |};
      work_pending := samples; work_processed := ∅ |} engine) as H.
  unfold within, budget, drain_fuel in H. fold max in H. simpl report_samples in H.
  specialize (H ltac:(simpl; lia) ltac:(simpl; lia)). unfold drain_fuel. fold max.
  destruct (snd _) as [[report|]| |]; [|done..]. lia.
Qed.
End engine.

(** ** Quality is inherited *)

(** [o] carries the quality and the quality code of [source]. *)
Definition same_quality (o source : TelemetrySample) : Prop :=
  sample_quality o = sample_quality source /\ sample_quality_code o = sample_quality_code source.

(** A sample produced on [sample]: of its device and its instant. *)
Definition produced_on (sample o : TelemetrySample) : Prop :=
  sample_device_id o = sample_device_id sample /\ sample_timestamp o = sample_timestamp sample.

(** The output of a step that looks at one sample. *)
Definition carries (sample o : TelemetrySample) : Prop := same_quality o sample /\ produced_on sample o.

Lemma derived_carries point value sample : carries sample (derived_sample point value sample sample).
Proof. done. Qed.

(** [a] is at least as bad as [b]. *)
Definition no_better (a b : DataQuality) : Prop :=
  match a, b with
  | Q_Bad, _ | Q_Uncertain, Q_Uncertain | Q_Uncertain, Q_Good | Q_Good, Q_Good => True
  | _, _ => False
  end.

Lemma no_better_rank a b : no_better a b <-> data_quality_rank b <= data_quality_rank a.
Proof. destruct a, b; simpl; lia. Qed.

(** The output [o], produced on [sample], of a step over the samples [inputs]. *)
Definition worst_of (inputs : list TelemetrySample) (sample o : TelemetrySample) : Prop :=
  produced_on sample o /\
  exists worst, worst ∈ inputs /\ same_quality o worst /\
    Forall (fun s => no_better (sample_quality worst) (sample_quality s)) inputs.

Lemma carries_worst sample o : carries sample o -> worst_of [sample] sample o.
Proof.
  intros [Hq Hp]. split; [done|]. exists sample. split; [by left|]. split; [done|].
  constructor; [|done]. by destruct (sample_quality sample).
Qed.

Lemma worst_quality_spec samples :
  match worst_quality samples with
  | Some worst => worst ∈ samples /\
      Forall (fun s => no_better (sample_quality worst) (sample_quality s)) samples
  | None => samples = []
  end.
Proof.
  induction samples as [|s samples IH] using rev_ind; [done|].
  unfold worst_quality in *. rewrite fold_left_app. cbn [fold_left].
  destruct (fold_left _ samples None) as [worst|].
  - destruct IH as [Hin Hall]. destruct (Z.leb_spec (data_quality_rank (sample_quality worst))
      (data_quality_rank (sample_quality s))) as [Hle|Hlt].
    + split; [apply elem_of_app; right; by left|]. apply Forall_app. split.
      * revert Hall. apply Forall_impl. intros x. rewrite !no_better_rank. lia.
      * constructor; [|done]. apply no_better_rank. lia.
    + split; [apply elem_of_app; by left|]. apply Forall_app. split; [done|].
      constructor; [|done]. apply no_better_rank. lia.
  - subst samples. split; [by left|]. constructor; [|done]. by apply no_better_rank.
Qed.

Lemma window_outputs_worst algorithm functions samples sample :
  Forall (worst_of (samples ++ [sample]) sample) (window_outputs algorithm functions (samples ++ [sample]) sample).
Proof.
  apply list.Forall_forall. intros o Hin. unfold window_outputs in Hin.
  apply list_elem_of_omap in Hin as (f & _ & Hf).
  destruct (aggregate_value f _) as [[name value]|]; [|done]. simpl in Hf.
  destruct (output_named algorithm name) as [output|]; [|done]. simpl in Hf. injection Hf as <-.
  split; [done|]. pose proof (worst_quality_spec (samples ++ [sample])) as Hw.
  destruct (worst_quality _) as [worst|]; [|by destruct samples]. destruct Hw as [Hin Hall].
  exists worst. split; [done|]. split; [done|]. done.
Qed.

(** *** The window of a history *)

(** A sample opens the window or joins it, and the sample that comes [every_ms]
    after its opening closes it and opens the next. *)
Definition step_window (every_ms : Z) (point : string) (w : option DateTime * list TelemetrySample)
    (s : TelemetrySample) : option DateTime * list TelemetrySample :=
  if negb (bool_decide (point = sample_telemetry_id s)) then w
  else
    let started := default (sample_timestamp s) (fst w) in
    if num_milliseconds (sample_timestamp s) started <? signed 64 every_ms
    then (Some started, snd w ++ [s])
    else (Some (sample_timestamp s), []).

Definition window_after (every_ms : Z) (point : string) (history : list TelemetrySample)
    : option DateTime * list TelemetrySample := fold_left (step_window every_ms point) history (None, []).

(** The samples in the open window of an algorithm after a history. *)
Definition open_window (algorithm : AlgorithmSpec) (history : list TelemetrySample) : list TelemetrySample :=
  match dsl_trigger (algo_dsl algorithm), find_map window_step (dsl_steps (algo_dsl algorithm)) with
  | Window every_ms, Some (source, _) =>
      match input_binding algorithm source with
      | Some binding => snd (window_after every_ms (input_point_id binding) history)
      | None => []
      end
  | _, _ => []
  end.

(** The samples the outputs on [sample] are computed from: the whole window for
    an aggregate, the sample itself for every other algorithm. *)
Definition contributors (algorithm : AlgorithmSpec) (history : list TelemetrySample) (sample : TelemetrySample)
    : list TelemetrySample :=
  match algo_kind algorithm with
  | WindowAggregate | Statistics => open_window algorithm history ++ [sample]
  | _ => [sample]
  end.

(** The state after a history, one sample after the other. *)
Definition feed {A} (apply : TelemetrySample -> M AlgorithmState A) (history : list TelemetrySample)
    : AlgorithmState := fold_left (fun st sample => fst (apply sample st)) history default_state.

Lemma feed_snoc {A} (apply : TelemetrySample -> M AlgorithmState A) history sample :
  feed apply (history ++ [sample]) = fst (apply sample (feed apply history)).
Proof. unfold feed. by rewrite fold_left_app. Qed.

Section window.
Context (algorithm : AlgorithmSpec) (every_ms : Z) (source : string)
        (functions : list WindowAggregateFunction) (binding : AlgorithmInputBinding).
Hypothesis Htrigger : dsl_trigger (algo_dsl algorithm) = Window every_ms.
Hypothesis Hwstep : find_map window_step (dsl_steps (algo_dsl algorithm)) = Some (source, functions).
Hypothesis Hbound : input_binding algorithm source = Some binding.

(** The window of the state. *)
Definition window_is (st : AlgorithmState) (w : option DateTime * list TelemetrySample) : Prop :=
  default empty_window (windows st !! source) = {| started_at := fst w; window_samples := snd w |}.

Lemma window_step_eq sample st w :
  window_is st w ->
  window_is (fst (apply_window_aggregate algorithm sample st))
    (step_window every_ms (input_point_id binding) w sample) /\
  forall out, snd (apply_window_aggregate algorithm sample st) = Ok out ->
    Forall (worst_of (snd w ++ [sample]) sample) out.
Proof using Htrigger Hwstep Hbound.
  intros Hw. unfold apply_window_aggregate, step_window. rewrite Htrigger, Hwstep, lift_bind.
  unfold require_input. rewrite Hbound. cbn [ok_or]. destruct (negb _).
  { split; [done|]. by intros out [= <-]. }
  rewrite M_bind_eq. cbn [gets]. unfold window_is in Hw. rewrite Hw. cbn [started_at window_samples].
  unfold window_is. destruct (_ <? _); simpl; rewrite lookup_insert_eq; (split; [done|]).
  - by intros out [= <-].
  - intros out [= <-]. apply window_outputs_worst.
Qed.

Lemma window_feed history :
  window_is (feed (apply_window_aggregate algorithm) history)
    (window_after every_ms (input_point_id binding) history).
Proof using Htrigger Hwstep Hbound.
  induction history as [|s history IH] using rev_ind.
  { unfold window_is. cbn [feed fold_left default_state windows]. by rewrite lookup_empty. }
  rewrite feed_snoc. unfold window_after. rewrite fold_left_app. by apply window_step_eq.
Qed.
End window.

(** Whatever the algorithm, an aggregate carries the worst quality of its open
    window. *)
Lemma window_outputs_of_history algorithm history sample out :
  snd (apply_window_aggregate algorithm sample (feed (apply_window_aggregate algorithm) history)) = Ok out ->
  Forall (worst_of (open_window algorithm history ++ [sample]) sample) out.
Proof.
  unfold open_window. destruct (dsl_trigger (algo_dsl algorithm)) as [| |every_ms] eqn:Htr.
  3: destruct (find_map window_step (dsl_steps (algo_dsl algorithm))) as [[source functions]|] eqn:Hst;
    [destruct (input_binding algorithm source) as [binding|] eqn:Hb|].
  3: { eapply (window_step_eq algorithm every_ms source functions binding); [done..|].
       by eapply window_feed. }
  all: unfold apply_window_aggregate; rewrite ?Htr, ?Hst.
  3: { rewrite lift_bind. unfold require_input. by rewrite Hb. }
  all: by intros [= <-].
Qed.

(** *** What a batch may keep and report *)

Section kept.
(** A property of samples that only their quality decides. *)
Context (P : TelemetrySample -> Prop).
Hypothesis HP : forall o source, P source -> same_quality o source -> P o.

Definition state_ok (st : AlgorithmState) : Prop :=
  forall source w, windows st !! source = Some w -> Forall P (window_samples w).

Definition engine_ok (engine : AlgorithmEngine) : Prop :=
  forall id st, states engine !! id = Some st -> state_ok st.

Lemma default_state_ok : state_ok default_state.
Proof using. intros source w Hw. cbn [windows default_state] in Hw. by rewrite lookup_empty in Hw. Qed.

Lemma carried_ok sample l : P sample -> Forall (carries sample) l -> Forall P l.
Proof using HP. intros Hs. apply Forall_impl. intros o [Hq _]. by apply (HP o sample). Qed.

(** Computations that only touch other parts of the state. *)
Lemma other_parts_ok st :
  state_ok st ->
  (forall f, state_ok (set_last_reported f st)) /\ (forall f, state_ok (set_latest f st)) /\
  (forall f, state_ok (set_previous f st)) /\ (forall f, state_ok (set_debounce f st)) /\
  (forall f, state_ok (set_duration f st)).
Proof using. intros H. by split_and!. Qed.

Ltac preserves_tac :=
  repeat match goal with
  | |- preserves _ (mret _) _ => apply preserves_ret
  | |- preserves _ (modify _ ≫= _) _ =>
      eapply (preserves_bind _ _ _ (fun _ => True)); [apply preserves_modify; [|done] | intros ? _]
  | |- preserves _ (_ ≫= _) _ =>
      eapply (preserves_bind _ _ _ (fun _ => True));
      [first [by apply preserves_lift | by apply preserves_gets] | intros ? _]
  | |- preserves _ (match ?x with _ => _ end) _ => destruct x
  | |- preserves _ (let '_ := ?x in _) _ => destruct x
  end.

Context (powf : f64 -> f64 -> f64) (now : DateTime) (elapsed : AlgorithmSpec -> TelemetrySample -> Z).

Lemma change_report_consistent algorithm sample :
  preserves state_ok (apply_change_report algorithm sample) (Forall (carries sample)).
Proof using.
  unfold apply_change_report. preserves_tac; try done;
    try (intros st Hst; by apply other_parts_ok).
  constructor; [apply derived_carries | done].
Qed.

Lemma debounce_consistent algorithm sample :
  preserves state_ok (apply_debounce algorithm sample) (Forall (carries sample)).
Proof using.
  unfold apply_debounce. preserves_tac; try done;
    try (intros st Hst; by apply other_parts_ok).
  constructor; [apply derived_carries | done].
Qed.

Lemma duration_consistent algorithm sample :
  preserves state_ok (apply_duration_condition algorithm sample) (Forall (carries sample)).
Proof using.
  unfold apply_duration_condition. preserves_tac; try done;
    try (intros st Hst; by apply other_parts_ok).
  constructor; [apply derived_carries | done].
Qed.

Lemma window_consistent algorithm sample :
  P sample -> preserves state_ok (apply_window_aggregate algorithm sample) (Forall P).
Proof using HP.
  intros Hs. unfold apply_window_aggregate.
  destruct (dsl_trigger _) as [| |every_ms]; [by apply preserves_ret..|].
  destruct (find_map _ _) as [[source functions]|]; [|by apply preserves_ret].
  eapply (preserves_bind _ _ _ (fun _ => True)); [by apply preserves_lift|]. intros binding _.
  destruct (negb _); [by apply preserves_ret|].
  eapply (preserves_bind _ _ _ (fun current => forall source w, current !! source = Some w ->
    Forall P (window_samples w))).
  { apply preserves_gets. intros st Hst. exact Hst. }
  intros current Hcur. cbv zeta.
  assert (Hall : Forall P (window_samples (default empty_window (current !! source)) ++ [sample])).
  { apply Forall_app. split; [|by repeat constructor].
    destruct (current !! source) as [w|] eqn:E; [by apply (Hcur source) | constructor]. }
  assert (Hset : forall w, Forall P (window_samples w) -> forall st, state_ok st ->
    state_ok (set_windows (insert source w) st)).
  { intros w Hw st Hst src w' Hw'. simpl in Hw'. destruct (decide (source = src)) as [<-|Hne].
    - rewrite lookup_insert_eq in Hw'. by injection Hw' as <-.
    - rewrite lookup_insert_ne in Hw' by done. by apply (Hst src). }
  destruct (_ <? _).
  - eapply (preserves_bind _ _ _ (fun _ => True)); [apply preserves_modify; [by apply Hset | done]|].
    intros _ _. by apply preserves_ret.
  - eapply (preserves_bind _ _ _ (fun _ => True)); [apply preserves_modify; [by apply Hset | done]|].
    intros _ _. apply preserves_ret. eapply Forall_impl; [|apply window_outputs_worst].
    intros o (_ & worst & Hin & Hq & _). apply (HP o worst); [|done]. by apply (Forall_elem _ _ _ Hall).
Qed.

Lemma transform_steps_ok algorithm sample steps st :
  state_ok st -> state_ok (fst (transform_steps powf algorithm sample steps st)).
Proof using.
  revert st. induction steps as [|step steps IH]; intros st Hst; [done|]. cbn [transform_steps].
  assert (Hstep : state_ok (fst (transform_step powf algorithm sample step st))).
  { destruct step; simpl; try done; [by case_bool|]. unfold rate_of_change.
    destruct (input_binding algorithm source); [|done]. destruct (negb _); [done|].
    destruct (as_f64 (sample_value sample)); [|done]. simpl. by apply other_parts_ok. }
  destruct (transform_step _ _ _ _ st) as [st' [r|]]; [done|]. by apply IH.
Qed.

Lemma transform_consistent algorithm sample :
  preserves state_ok (apply_transform powf algorithm sample) (Forall (carries sample)).
Proof using.
  intros st Hst. unfold apply_transform. cbv zeta.
  set (st1 := set_latest _ st). assert (Hst1 : state_ok st1) by by apply other_parts_ok.
  pose proof (transform_steps_ok algorithm sample (dsl_steps (algo_dsl algorithm)) st1 Hst1) as Hok.
  destruct (transform_steps _ _ _ _ st1) as [st2 [r|]]; simpl in *.
  - split; [done|]. intros out Hout. apply bind_Ok in Hout as ([name value] & _ & Hout).
    apply bind_Ok in Hout as (output & _ & Hout). injection Hout as <-.
    constructor; [apply derived_carries | done].
  - split; [done|]. by intros out [= <-].
Qed.

Lemma threshold_consistent algorithm sample steps out :
  apply_threshold_steps algorithm sample now steps = Ok out -> Forall (carries sample) (fst out).
Proof using.
  revert out. induction steps as [|step steps IH]; intros out Hout; simpl in Hout.
  { injection Hout as <-. constructor. }
  apply bind_Ok in Hout as ([samples events] & H1 & Hout).
  apply bind_Ok in Hout as ([samples' events'] & H2 & Hout). injection Hout as <-. simpl.
  apply Forall_app. split; [|by apply (IH _ H2)]. unfold apply_threshold_step in H1.
  destruct (threshold_step step) as [[[[[source operator] threshold] event] route]|];
    [|by injection H1 as <- <-].
  apply bind_Ok in H1 as (binding & _ & H1). destruct (negb _); [by injection H1 as <- <-|].
  destruct (as_f64 _); [|by injection H1 as <- <-].
  apply bind_Ok in H1 as (routed & Hr & H1). injection H1 as <- <-.
  destruct route as [[matched unmatched]|]; [|by injection Hr as <-].
  apply bind_Ok in Hr as (output & _ & Hr). injection Hr as <-.
  constructor; [apply derived_carries | done].
Qed.

(** The events are empty for every algorithm but a rule. *)
Lemma without_events {A} (m : M AlgorithmState A) Q :
  preserves state_ok m Q ->
  preserves state_ok (samples ← m; mret (samples, @nil EdgeRuntimeEvent)) (fun out => Q (fst out)).
Proof using. intros Hm. eapply preserves_bind; [exact Hm|]. intros samples Hsamples. by apply preserves_ret. Qed.

Definition is_window (kind : AlgorithmKind) : bool :=
  match kind with WindowAggregate | Statistics => true | _ => false end.

Lemma run_algorithm_carries algorithm sample :
  is_window (algo_kind algorithm) = false ->
  preserves state_ok (run_algorithm powf now algorithm sample) (fun out => Forall (carries sample) (fst out)).
Proof using.
  intros Hk. unfold run_algorithm. destruct (algo_kind algorithm); try done;
    first [ apply without_events; by first [apply change_report_consistent
              | apply transform_consistent | apply debounce_consistent | apply duration_consistent]
          | apply preserves_lift; intros out Hout; by eapply threshold_consistent ].
Qed.

Lemma run_algorithm_consistent algorithm sample :
  P sample -> preserves state_ok (run_algorithm powf now algorithm sample) (fun out => Forall P (fst out)).
Proof using HP.
  intros Hs. destruct (is_window (algo_kind algorithm)) eqn:Hk.
  - unfold run_algorithm. destruct (algo_kind algorithm); try done; by apply without_events, window_consistent.
  - intros st Hst. destruct (run_algorithm_carries algorithm sample Hk st Hst) as [Hst' Hout]. split; [done|].
    intros out Ho. by eapply carried_ok, Hout.
Qed.

Lemma execute_consistent algorithm sample :
  P sample ->
  preserves engine_ok (execute powf now elapsed algorithm sample)
    (fun out => Forall P (fst out)).
Proof using HP.
  intros Hs engine He. unfold execute.
  set (st := default default_state _). assert (Hst : state_ok st).
  { unfold st. destruct (states engine !! algo_id algorithm) as [st0|] eqn:E;
      [by apply (He _ _ E) | apply default_state_ok]. }
  destruct (run_algorithm_consistent algorithm sample Hs st Hst) as [Hst' Hout].
  destruct (run_algorithm _ _ _ _ st) as [st' outcome]. simpl in Hst', Hout.
  assert (Hins : forall ex, engine_ok {| algorithms := algorithms engine;
    states := <[algo_id algorithm := st']> (states engine); execution := ex |}).
  { intros ex id s0 Hid. simpl in Hid. destruct (decide (algo_id algorithm = id)) as [<-|Hne].
    - rewrite lookup_insert_eq in Hid. by injection Hid as <-.
    - rewrite lookup_insert_ne in Hid by done. by apply (He id). }
  destruct outcome as [[generated events]|e|e]; simpl; (split; [done || apply Hins|]).
  - intros a [= <-]. by apply (Hout (generated, events)).
  - done.
  - done.
Qed.

(** The samples a batch still has to process and those it has produced. *)
Definition work_ok (w : Work) : Prop :=
  Forall P (work_pending w) /\
  Forall P (report_samples (work_report w)).

Lemma process_consistent max sample w algorithm :
  P sample -> work_ok w ->
  preserves engine_ok (process powf now elapsed max sample w algorithm) work_ok.
Proof using HP.
  intros Hs [Hp Hr]. unfold process. destruct (dsl_inputs _); [by apply preserves_ret|].
  destruct (negb _); [by apply preserves_ret|]. case_bool_decide; [by apply preserves_ret|].
  eapply preserves_bind; [by apply execute_consistent|]. intros [generated events] Hg.
  destruct (_ <? _); [by apply preserves_lift|]. apply preserves_ret.
  split; simpl; apply Forall_app; done.
Qed.

Lemma process_all_consistent max sample specs w :
  P sample -> work_ok w ->
  preserves engine_ok (process_all powf now elapsed max sample specs w) work_ok.
Proof using HP.
  intros Hs. revert w. induction specs as [|a specs IH]; intros w Hw; [by apply preserves_ret|].
  cbn [process_all]. eapply preserves_bind; [by apply process_consistent|]. intros w' Hw'. by apply IH.
Qed.

Lemma drain_consistent fuel max specs w :
  work_ok w ->
  preserves engine_ok (drain powf now elapsed fuel max specs w)
    (fun o => forall report, o = Some report -> Forall P (report_samples report)).
Proof using HP.
  revert w. induction fuel as [|fuel IH]; intros w Hw; [by apply preserves_ret|]. cbn [drain].
  destruct (work_pending w) as [|sample rest] eqn:Hp.
  - apply preserves_ret. intros report [= <-]. apply Hw.
  - destruct Hw as [Hpend Hrep]. rewrite Hp in Hpend. apply Forall_cons_iff in Hpend as [Hs Hrest].
    eapply preserves_bind; [by apply process_all_consistent|]. intros w' Hw'. by apply IH.
Qed.

Lemma apply_samples_consistent samples engine :
  Forall P samples -> engine_ok engine ->
  engine_ok (fst (apply_samples powf now elapsed samples engine)) /\
  forall report, snd (apply_samples powf now elapsed samples engine) = Ok (Some report) ->
    Forall P (report_samples report).
Proof using HP.
  intros Hall He. unfold apply_samples. rewrite M_bind_eq. cbn [gets].
  assert (Hw : work_ok {| work_report := {| report_samples := []; report_events := [] |};
    work_pending := samples; work_processed := ∅ |}) by by split.
  destruct (drain_consistent (drain_fuel (length samples) (length (algorithms engine)))
    (max_generated_samples (length samples) (length (algorithms engine))) (algorithms engine)
    _ Hw engine He) as [He' Hrep].
  split; [done|]. intros report Hr. by apply (Hrep _ Hr).
Qed.
End kept.

(** *** Quality comes from the inputs *)

(** A sample waiting in a window of the engine. *)
Definition kept (engine : AlgorithmEngine) (s : TelemetrySample) : Prop :=
  exists id st source w, states engine !! id = Some st /\ windows st !! source = Some w /\ s ∈ window_samples w.

(** A sample of the batch or of a window has the quality of [o]. *)
Definition has_origin (samples : list TelemetrySample) (engine : AlgorithmEngine) (o : TelemetrySample) : Prop :=
  exists source, (source ∈ samples \/ kept engine source) /\ same_quality o source.

Section quality.
Context (powf : f64 -> f64 -> f64) (now : DateTime) (elapsed : AlgorithmSpec -> TelemetrySample -> Z).

Lemma feed_window algorithm history :
  is_window (algo_kind algorithm) = true ->
  feed (run_algorithm powf now algorithm) history = feed (apply_window_aggregate algorithm) history.
Proof using.
  intros Hk. induction history as [|s history IH] using rev_ind; [done|]. rewrite !feed_snoc, IH.
  unfold run_algorithm. destruct (algo_kind algorithm); try done; rewrite M_bind_eq;
    by destruct (apply_window_aggregate algorithm s _) as [st' [out|e|e]].
Qed.

Lemma execution_inherits algorithm history sample generated events :
  snd (run_algorithm powf now algorithm sample (feed (run_algorithm powf now algorithm) history)) =
    Ok (generated, events) ->
  Forall (worst_of (contributors algorithm history sample) sample) generated.
Proof using.
  intros H. destruct (is_window (algo_kind algorithm)) eqn:Hk.
  - rewrite feed_window in H by done. unfold run_algorithm, contributors in *.
    destruct (algo_kind algorithm); try done; rewrite M_bind_eq in H;
      apply window_outputs_of_history;
      destruct (apply_window_aggregate algorithm sample _) as [st' [out|e|e]]; simpl in H |- *; by inversion H.
  - assert (Htrue : state_ok (fun _ => True) (feed (run_algorithm powf now algorithm) history)).
    { intros source w _. by apply list.Forall_forall. }
    destruct (run_algorithm_carries (fun _ => True) powf now algorithm sample Hk _ Htrue) as [_ Hout].
    specialize (Hout _ H). unfold contributors. destruct (algo_kind algorithm); try done;
      (eapply Forall_impl; [|exact Hout]); intros o; apply carries_worst.
Qed.

(** [C40] Algorithms inherit the quality of their inputs.  After any history of
    samples, what an algorithm produces on a sample has the sample's device and
    instant, and the quality and quality code of a worst one of the samples it
    is computed from: for an aggregate all the samples of the window that closes
    (those since the last one closed), for every other algorithm the sample it
    runs on.  A transform over several points thus carries the quality of the
    point that was just sampled, not of the others
    ([expression_ignores_other_quality]).  Through a whole batch, with algorithms
    feeding one another, every reported sample and every sample left in a window,
    whether or not the batch fails, has the quality and the code of a sample of
    the batch or of one that was waiting in a window. *)
Theorem engine_inherits_quality :
  (forall algorithm history sample generated events,
     snd (run_algorithm powf now algorithm sample (feed (run_algorithm powf now algorithm) history)) =
       Ok (generated, events) ->
     Forall (worst_of (contributors algorithm history sample) sample) generated) /\
  (forall samples engine,
     (forall s, kept (fst (apply_samples powf now elapsed samples engine)) s -> has_origin samples engine s) /\
     (forall report, snd (apply_samples powf now elapsed samples engine) = Ok (Some report) ->
        Forall (has_origin samples engine) (report_samples report))).
Proof using.
  split; [exact execution_inherits|]. intros samples engine.
  destruct (apply_samples_consistent (has_origin samples engine)) with powf now elapsed samples engine
    as [Hkept Hrep].
  - intros o source (origin & Ho & Hq) Hs. exists origin. split; [done|]. unfold same_quality in *. naive_solver congruence.
  - apply list.Forall_forall. intros s Hs. exists s. split; [by left | done].
  - intros id st Hst source w Hw. apply list.Forall_forall. intros s Hs. exists s.
    split; [right; by exists id, st, source, w | done].
  - split; [|done]. intros s (id & st & source & w & Hst & Hw & Hs).
    exact (Forall_elem _ _ _ (Hkept id st Hst source w Hw) Hs).
Qed.
End quality.

(** ** The algorithms over a history of samples *)

(** *** Change filters *)

Section change_filter.
Context (algorithm : AlgorithmSpec) (source : string) (threshold : f64)
        (binding : AlgorithmInputBinding) (output : AlgorithmOutput).
Hypothesis Hstep : find_map change_filter_step (dsl_steps (algo_dsl algorithm)) = Some (source, threshold).
Hypothesis Hbinding : require_input algorithm source = Ok binding.
Hypothesis Houtput : first_output algorithm = Ok output.

Definition emits_change (st : AlgorithmState) (v : TelemetryValue) : bool :=
  match last_reported st !! output_point_id output with
  | Some last => value_changed last v threshold
  | None => true
  end.

Lemma change_report_eq sample st :
  sample_telemetry_id sample = input_point_id binding ->
  apply_change_report algorithm sample st =
  if emits_change st (sample_value sample)
  then (set_last_reported (insert (output_point_id output) (sample_value sample)) st,
        Ok [derived_sample (output_point_id output) (sample_value sample) sample sample])
  else (st, Ok []).
Proof using Hstep Hbinding Houtput.
  intros Hid. unfold apply_change_report. rewrite Hstep, lift_bind, Hbinding.
  rewrite bool_decide_true by done. cbn [negb]. rewrite lift_bind, Houtput.
  rewrite M_bind_eq. cbn [gets]. unfold emits_change.
  destruct (last_reported st !! output_point_id output) as [last|]; [|done].
  by destruct (value_changed last (sample_value sample) threshold).
Qed.

(** A change filter tracks its input within the threshold: after any
    non-empty history of samples of its point, the value last reported is one
    of the values received, and the latest sample either is that value or
    differs from it by less than the threshold. *)
Theorem change_filter_tracks history sample :
  Forall (fun s => sample_telemetry_id s = input_point_id binding) (history ++ [sample]) ->
  let st := feed (apply_change_report algorithm) (history ++ [sample]) in
  exists reported,
    last_reported st !! output_point_id output = Some reported /\
    (exists s, s ∈ history ++ [sample] /\ sample_value s = reported) /\
    (reported = sample_value sample \/
     value_changed reported (sample_value sample) threshold = false).
Proof using Hstep Hbinding Houtput.
  revert sample. induction history as [|previous history IH] using rev_ind; intros sample Hall st.
  - unfold st. rewrite feed_snoc, change_report_eq by by apply Forall_app in Hall as [_ [? _]%Forall_cons_iff].
    unfold emits_change. cbn [feed fold_left default_state last_reported]. rewrite lookup_empty. simpl.
    exists (sample_value sample). rewrite lookup_insert_eq. split; [done|].
    split; [|by left]. exists sample. split; [by left | done].
  - pose proof Hall as [Hh [Hs _]%Forall_cons_iff]%Forall_app.
    destruct (IH previous Hh) as (reported & Hrep & (s & Hin & Hval) & _).
    unfold st. rewrite feed_snoc, change_report_eq by done. unfold emits_change. rewrite Hrep.
    destruct (value_changed reported (sample_value sample) threshold) eqn:E; simpl.
    + exists (sample_value sample). rewrite lookup_insert_eq. split; [done|].
      split; [|by left]. exists sample. split; [|done]. apply elem_of_app. right. by left.
    + exists reported. split; [done|]. split; [|by right].
      exists s. split; [apply elem_of_app; by left | done].
Qed.

(** Once a NaN was reported no later number is: the distance to it is a NaN,
    which no threshold compares with, so the filter is silent until it is
    created anew. *)
Theorem nan_silences_change_filter sample st x :
  sample_telemetry_id sample = input_point_id binding ->
  last_reported st !! output_point_id output = Some (VFloat S754_nan) ->
  as_f64 (sample_value sample) = Some x ->
  apply_change_report algorithm sample st = (st, Ok []).
Proof using Hstep Hbinding Houtput.
  intros Hid Hnan Hx. rewrite change_report_eq by done. unfold emits_change, value_changed.
  rewrite Hnan, Hx. simpl as_f64. cbv iota.
  replace (f64_ge (f64_abs (f64_sub x S754_nan)) threshold) with false; [done|].
  unfold f64_sub. destruct x; destruct threshold; reflexivity.
Qed.
End change_filter.

(** *** Debouncing *)

Section debounce.
Context (algorithm : AlgorithmSpec) (source : string) (stable_ms : Z)
        (binding : AlgorithmInputBinding) (output : AlgorithmOutput).
Hypothesis Hstep : find_map debounce_step (dsl_steps (algo_dsl algorithm)) = Some (source, stable_ms).
Hypothesis Hbinding : require_input algorithm source = Ok binding.
Hypothesis Houtput : first_output algorithm = Ok output.

Definition entry_of (sample : TelemetrySample) : DebounceState :=
  {| debounce_value := sample_value sample; debounce_since := sample_timestamp sample |}.

Definition same_value (a b : TelemetrySample) : Prop :=
  value_eqb (sample_value a) (sample_value b) = true.

(** What [apply_debounce] does with a sample of its point, whose pending entry
    is [pending]: the entry it leaves, and whether it reports. *)
Lemma debounce_eq sample st :
  sample_telemetry_id sample = input_point_id binding ->
  let pending := default (entry_of sample) (debounce_by_alias st !! source) in
  let same := value_eqb (debounce_value pending) (sample_value sample) in
  debounce_by_alias (fst (apply_debounce algorithm sample st)) !! source =
    Some (if same then pending else entry_of sample) /\
  forall out, snd (apply_debounce algorithm sample st) = Ok out -> out <> [] ->
    same = true /\
    signed 64 stable_ms <= num_milliseconds (sample_timestamp sample) (debounce_since pending) /\
    out = [derived_sample (output_point_id output) (sample_value sample) sample sample].
Proof using Hstep Hbinding Houtput.
  intros Hid pending same. unfold apply_debounce. rewrite Hstep, lift_bind, Hbinding.
  rewrite bool_decide_true by done. cbn [negb]. rewrite M_bind_eq. cbn [gets].
  fold (entry_of sample). fold pending. fold same. destruct same; cbn [negb].
  - rewrite M_bind_eq. cbn [modify]. destruct (Z.ltb_spec (num_milliseconds (sample_timestamp sample)
      (debounce_since pending)) (signed 64 stable_ms)).
    { simpl. rewrite lookup_insert_eq. split; [done|]. by intros out [= <-]. }
    rewrite lift_bind, Houtput, M_bind_eq. cbn [gets].
    match goal with |- context [if ?c then mret [] else _] => destruct c end.
    { simpl. rewrite lookup_insert_eq. split; [done|]. by intros out [= <-]. }
    simpl. rewrite lookup_insert_eq. split; [done|]. intros out [= <-] _. done.
  - simpl. rewrite lookup_insert_eq. split; [done|]. by intros out [= <-].
Qed.

(** The pending entry is the start of a run of equal values that ends the
    history. *)
Lemma debounce_run history sample :
  Forall (fun s => sample_telemetry_id s = input_point_id binding) (history ++ [sample]) ->
  exists before first run,
    history ++ [sample] = before ++ first :: run /\ Forall (same_value first) run /\
    debounce_by_alias (feed (apply_debounce algorithm) (history ++ [sample])) !! source =
      Some (entry_of first).
Proof using Hstep Hbinding Houtput.
  revert sample. induction history as [|previous history IH] using rev_ind; intros sample Hall.
  - pose proof Hall as [Hs _]%Forall_cons_iff. exists [], sample, []. split; [done|]. split; [done|].
    rewrite feed_snoc. destruct (debounce_eq sample (feed (apply_debounce algorithm) []) Hs) as [-> _].
    cbn [feed fold_left default_state debounce_by_alias]. rewrite lookup_empty. simpl.
    by destruct (value_eqb _ _).
  - pose proof Hall as [Hh [Hs _]%Forall_cons_iff]%Forall_app.
    destruct (IH previous Hh) as (before & first & run & Heq & Hrun & Hentry).
    rewrite feed_snoc.
    destruct (debounce_eq sample (feed (apply_debounce algorithm) (history ++ [previous])) Hs) as [-> _].
    rewrite Hentry. simpl.
    destruct (value_eqb (sample_value first) (sample_value sample)) eqn:E.
    + exists before, first, (run ++ [sample]). rewrite Heq, <- app_assoc. split; [done|].
      split; [|done]. apply Forall_app. split; [done|]. by constructor.
    + exists (history ++ [previous]), sample, []. done.
Qed.

(** Debouncing reports only what is stable: when a sample of the point
    is reported after any history of its samples, the history ends in a run
    of equal values that includes this sample and started at least the
    configured time before it, and the report carries that value. *)
Theorem debounce_reports_stable_values history sample out :
  Forall (fun s => sample_telemetry_id s = input_point_id binding) (history ++ [sample]) ->
  snd (apply_debounce algorithm sample (feed (apply_debounce algorithm) history)) = Ok out ->
  out <> [] ->
  exists before first run,
    history ++ [sample] = before ++ first :: run /\ Forall (same_value first) run /\
    signed 64 stable_ms <= num_milliseconds (sample_timestamp sample) (sample_timestamp first) /\
    out = [derived_sample (output_point_id output) (sample_value sample) sample sample].
Proof using Hstep Hbinding Houtput.
  intros Hall Hout Hne. pose proof Hall as [Hh [Hs _]%Forall_cons_iff]%Forall_app.
  destruct (debounce_eq sample (feed (apply_debounce algorithm) history) Hs) as [_ Hspec].
  destruct (Hspec out Hout Hne) as (Hsame & Hms & ->). clear Hspec.
  destruct history as [|x history] using rev_ind.
  - exists [], sample, []. split; [done|]. split; [done|]. split; [|done].
    cbn [feed fold_left default_state debounce_by_alias] in Hms. by rewrite lookup_empty in Hms.
  - destruct (debounce_run history x Hh) as (before & first & run & Heq & Hrun & Hentry).
    rewrite Hentry in Hsame, Hms. simpl in Hsame, Hms. exists before, first, (run ++ [sample]).
    rewrite Heq, <- app_assoc. split; [done|]. split; [|done].
    apply Forall_app. split; [done|]. by constructor.
Qed.
End debounce.

(** *** Duration conditions *)

Section duration.
Context (algorithm : AlgorithmSpec) (c : DurationCondition)
        (binding : AlgorithmInputBinding) (output : AlgorithmOutput).
Hypothesis Hstep : find_map duration_step (dsl_steps (algo_dsl algorithm)) = Some c.
Hypothesis Hbinding : require_input algorithm (dc_source c) = Ok binding.
Hypothesis Houtput : output_named algorithm (dc_output c) = Some output.

Definition fresh_entry (s : TelemetrySample) : DurationConditionState :=
  {| duration_since := sample_timestamp s; duration_emitted := false |}.

(** The entry a sample of the condition starts from. *)
Definition current_entry (s : TelemetrySample) (entry : option DurationConditionState)
    : DurationConditionState :=
  let entry := default (fresh_entry s) entry in
  if sample_timestamp s <? duration_since entry then fresh_entry s else entry.

Definition duration_reached (s : TelemetrySample) (entry : DurationConditionState) : bool :=
  negb (duration_emitted entry) &&
  (dc_duration_ms c <=? wrap 64 (num_milliseconds (sample_timestamp s) (duration_since entry))).

(** One step on a sample of the point. *)
Lemma duration_eq sample st :
  sample_telemetry_id sample = input_point_id binding ->
  let entry := duration_by_alias st !! dc_source c in
  let entry' := duration_by_alias (fst (apply_duration_condition algorithm sample st)) !! dc_source c in
  let out := snd (apply_duration_condition algorithm sample st) in
  match as_f64 (sample_value sample) with
  | None => entry' = entry /\ out = Ok []
  | Some v =>
      if compare v (dc_operator c) (dc_threshold c) then
        let current := current_entry sample entry in
        if duration_reached sample current
        then entry' = Some {| duration_since := duration_since current; duration_emitted := true |} /\
             out = Ok [derived_sample (output_point_id output) (sample_value sample) sample sample]
        else entry' = Some current /\ out = Ok []
      else entry' = None /\ out = Ok []
  end.
Proof using Hstep Hbinding Houtput.
  intros Hid. unfold apply_duration_condition. rewrite Hstep, lift_bind, Hbinding.
  rewrite bool_decide_true by done. cbn [negb].
  destruct (as_f64 (sample_value sample)) as [v|]; [|done].
  destruct (compare v _ _); cbn [negb].
  - rewrite M_bind_eq. cbn [gets]. fold (fresh_entry sample).
    set (current := current_entry sample (duration_by_alias st !! dc_source c)).
    change (if sample_timestamp sample <? _ then fresh_entry sample else _) with current.
    unfold duration_reached. rewrite Z.leb_antisym. destruct (duration_emitted current); cbn [negb orb andb].
    { simpl. by rewrite lookup_insert_eq. }
    destruct (_ <? _); cbn [negb].
    + simpl. by rewrite lookup_insert_eq.
    + rewrite M_bind_eq. cbn [modify]. rewrite lift_bind, Houtput. simpl. by rewrite lookup_insert_eq.
  - simpl. by rewrite lookup_delete_eq.
Qed.

(** *** The run being timed *)

Definition satisfied (s : TelemetrySample) : bool :=
  match as_f64 (sample_value s) with
  | Some v => compare v (dc_operator c) (dc_threshold c)
  | None => false
  end.

Definition violated (s : TelemetrySample) : bool :=
  match as_f64 (sample_value s) with
  | Some v => negb (compare v (dc_operator c) (dc_threshold c))
  | None => false
  end.

(** A failing sample ends the run, a matching one joins it, or begins it anew
    where it is dated before the run's first. *)
Definition step_run (run : list TelemetrySample) (s : TelemetrySample) : list TelemetrySample :=
  if violated s then []
  else if negb (satisfied s) then run
  else match run with
       | [] => [s]
       | first :: _ => if sample_timestamp s <? sample_timestamp first then [s] else run ++ [s]
       end.

Definition timed_run (history : list TelemetrySample) : list TelemetrySample := fold_left step_run history [].

Lemma timed_run_snoc history s : timed_run (history ++ [s]) = step_run (timed_run history) s.
Proof using. unfold timed_run. by rewrite fold_left_app. Qed.

Definition elapsed_since (first s : TelemetrySample) : Z :=
  wrap 64 (num_milliseconds (sample_timestamp s) (sample_timestamp first)).

Definition lasted (first s : TelemetrySample) : bool := dc_duration_ms c <=? elapsed_since first s.

(** [s] is the first sample of its run that comes the configured time after the
    run's first. *)
Definition completes (run : list TelemetrySample) (s : TelemetrySample) : bool :=
  satisfied s &&
  match step_run run s with
  | [] => false
  | first :: _ => lasted first s && forallb (fun e => negb (lasted first e)) (removelast (step_run run s))
  end.

(** What a run is to the state. *)
Definition run_entry (run : list TelemetrySample) : option DurationConditionState :=
  match run with
  | [] => None
  | first :: _ =>
      Some {| duration_since := sample_timestamp first; duration_emitted := existsb (lasted first) run |}
  end.

Lemma forallb_negb {A} (p : A -> bool) l : forallb (fun x => negb (p x)) l = negb (existsb p l).
Proof using. induction l as [|x l IH]; [done|]. simpl. by rewrite IH, negb_orb. Qed.

Lemma current_of_run s run :
  satisfied s = true ->
  let current := current_entry s (run_entry run) in
  duration_reached s current = completes run s /\
  run_entry (step_run run s) =
    Some {| duration_since := duration_since current;
            duration_emitted := duration_emitted current || completes run s |}.
Proof using.
  intros Hs. unfold completes, step_run, current_entry. rewrite Hs.
  replace (violated s) with false.
  2: { unfold violated, satisfied in *. destruct (as_f64 _); [by rewrite Hs | done]. }
  cbn [negb andb]. destruct run as [|first run].
  { cbn [run_entry default from_option id fresh_entry duration_since]. rewrite Z.ltb_irrefl.
    simpl. by rewrite andb_true_r, orb_false_r. }
  cbn [run_entry default from_option id duration_since].
  destruct (sample_timestamp s <? sample_timestamp first).
  { simpl. by rewrite andb_true_r, orb_false_r. }
  cbn [app run_entry]. rewrite app_comm_cons, removelast_last, forallb_negb.
  unfold duration_reached. cbn [duration_emitted duration_since]. split; [apply andb_comm|].
  f_equal. f_equal. rewrite existsb_app. generalize (existsb (lasted first) (first :: run)) as b. intros b.
  cbn [existsb]. by destruct b, (lasted first s).
Qed.

(** One step, in terms of the run. *)
Lemma duration_step_run sample st run :
  sample_telemetry_id sample = input_point_id binding ->
  duration_by_alias st !! dc_source c = run_entry run ->
  duration_by_alias (fst (apply_duration_condition algorithm sample st)) !! dc_source c =
    run_entry (step_run run sample) /\
  snd (apply_duration_condition algorithm sample st) =
    Ok (if completes run sample
        then [derived_sample (output_point_id output) (sample_value sample) sample sample] else []).
Proof using Hstep Hbinding Houtput.
  intros Hid Hrun. pose proof (duration_eq sample st Hid) as Heq. cbv zeta in Heq. rewrite Hrun in Heq.
  destruct (satisfied sample) eqn:Hs.
  - destruct (current_of_run sample run Hs) as [Hr He]. rewrite Hr in Heq. rewrite He.
    unfold satisfied in Hs. destruct (as_f64 _); [|done]. rewrite Hs in Heq.
    destruct (completes run sample); destruct Heq as [-> ->]; [by rewrite orb_true_r|].
    rewrite orb_false_r. by destruct (current_entry _ _).
  - unfold completes, step_run, violated. rewrite Hs. unfold satisfied in Hs. cbn [andb negb].
    destruct (as_f64 _); [rewrite Hs in Heq |- *|]; exact Heq.
Qed.

Lemma duration_entry history :
  Forall (fun s => sample_telemetry_id s = input_point_id binding) history ->
  duration_by_alias (feed (apply_duration_condition algorithm) history) !! dc_source c =
    run_entry (timed_run history).
Proof using Hstep Hbinding Houtput.
  induction history as [|s history IH] using rev_ind; intros Hall; [apply lookup_empty|].
  apply Forall_app in Hall as [Hh [Hs _]%Forall_cons_iff]. rewrite feed_snoc, timed_run_snoc.
  by apply duration_step_run; [|apply IH].
Qed.

(** *** A run that is not interrupted *)

(** The comparison starts anew after [before]. *)
Definition run_boundary (before : list TelemetrySample) : Prop :=
  before = [] \/ exists b low, before = b ++ [low] /\ violated low = true.

(** What is reported on [l], fed after [before]. *)
Fixpoint reports (before l : list TelemetrySample) : list TelemetrySample :=
  match l with
  | [] => []
  | s :: l =>
      match snd (apply_duration_condition algorithm s (feed (apply_duration_condition algorithm) before)) with
      | Ok out => out
      | _ => []
      end ++ reports (before ++ [s]) l
  end.

(** The report of a run: its first sample, in order, that comes the configured
    time after its first one. *)
Definition report_of (matching : list TelemetrySample) : list TelemetrySample :=
  match matching with
  | [] => []
  | first :: _ =>
      match find_first (lasted first) matching with
      | Some s => [derived_sample (output_point_id output) (sample_value s) s s]
      | None => []
      end
  end.

(** No sample is dated before the first. *)
Definition not_before_first (matching : list TelemetrySample) : Prop :=
  forall first rest, matching = first :: rest ->
    Forall (fun s => sample_timestamp first <= sample_timestamp s) rest.

Lemma reports_snoc before l s :
  reports before (l ++ [s]) = reports before l ++ reports (before ++ l) [s].
Proof using.
  revert before. induction l as [|x l IH]; intros before; [by rewrite app_nil_r|].
  cbn [app reports]. by rewrite IH, <- !app_assoc.
Qed.

Lemma boundary_run before : run_boundary before -> timed_run before = [].
Proof using.
  intros [-> | (b & low & -> & Hv)]; [done|]. rewrite timed_run_snoc. unfold step_run. by rewrite Hv.
Qed.

Lemma not_before_first_snoc l s : not_before_first (l ++ [s]) -> not_before_first l.
Proof using.
  intros H first rest ->. specialize (H first (rest ++ [s]) eq_refl).
  by apply Forall_app in H as [? _].
Qed.

(** The run being timed is the matching samples since the boundary. *)
Lemma uninterrupted_run before l :
  run_boundary before -> Forall (fun s => violated s = false) l ->
  not_before_first (List.filter satisfied l) ->
  timed_run (before ++ l) = List.filter satisfied l.
Proof using.
  intros Hb. induction l as [|s l IH] using rev_ind; intros Hv Hn.
  { by rewrite app_nil_r, boundary_run. }
  apply Forall_app in Hv as [Hv [Hs _]%Forall_cons_iff]. rewrite app_assoc, timed_run_snoc.
  rewrite List.filter_app in Hn |- *. cbn [List.filter] in Hn |- *. unfold step_run. rewrite Hs.
  destruct (satisfied s) eqn:Es; cbn [negb].
  - rewrite IH by (done || by eapply not_before_first_snoc).
    destruct (List.filter satisfied l) as [|first rest]; [done|].
    specialize (Hn first (rest ++ [s]) eq_refl). apply Forall_app in Hn as [_ [Hle _]%Forall_cons_iff].
    by rewrite (proj2 (Z.ltb_ge _ _) Hle).
  - rewrite app_nil_r in Hn |- *. by apply IH.
Qed.

(** One more sample of an uninterrupted run. *)
Lemma report_of_snoc l s :
  satisfied s = true -> step_run l s = l ++ [s] ->
  report_of (l ++ [s]) = report_of l ++
    (if completes l s then [derived_sample (output_point_id output) (sample_value s) s s] else []).
Proof using.
  intros Hs Hstep'. unfold completes, report_of. rewrite Hs, Hstep', removelast_last. cbn [andb].
  destruct l as [|first l]; cbn [app].
  { cbn [find_first forallb]. rewrite andb_true_r. by destruct (lasted s s). }
  rewrite forallb_negb, app_comm_cons. generalize (first :: l) as m. intros m.
  induction m as [|x m IH]; cbn [app find_first existsb].
  - cbn [negb]. rewrite andb_true_r. by destruct (lasted first s).
  - destruct (lasted first x); [|exact IH]. simpl. by rewrite andb_false_r.
Qed.

Lemma reports_once before l :
  Forall (fun s => sample_telemetry_id s = input_point_id binding) (before ++ l) ->
  run_boundary before -> Forall (fun s => violated s = false) l ->
  not_before_first (List.filter satisfied l) ->
  reports before l = report_of (List.filter satisfied l).
Proof using Hstep Hbinding Houtput.
  intros Hall Hb. induction l as [|s l IH] using rev_ind; intros Hv Hn; [done|].
  pose proof (uninterrupted_run before (l ++ [s]) Hb Hv Hn) as Hrun'.
  rewrite app_assoc in Hall, Hrun'. rewrite timed_run_snoc in Hrun'.
  apply Forall_app in Hall as [Hall [Hs _]%Forall_cons_iff]. apply Forall_app in Hv as [Hv _].
  rewrite reports_snoc. rewrite List.filter_app in Hn, Hrun' |- *.
  assert (Hn' : not_before_first (List.filter satisfied l)).
  { cbn [List.filter] in Hn. destruct (satisfied s); [by eapply not_before_first_snoc|].
    by rewrite app_nil_r in Hn. }
  rewrite IH by done. cbn [reports]. rewrite app_nil_r.
  destruct (duration_step_run s _ _ Hs (duration_entry _ Hall)) as [_ ->].
  rewrite (uninterrupted_run before l Hb Hv Hn') in Hrun' |- *. cbn [List.filter] in Hrun' |- *.
  destruct (satisfied s) eqn:Es.
  - by rewrite report_of_snoc.
  - unfold completes. rewrite Es. cbn [andb]. by rewrite !app_nil_r.
Qed.

(** [C35] A duration condition reports a run of matching samples once, when it
    has lasted, and is armed again only by a failing comparison or by a sample
    dated before the run's beginning.  After any history of samples of the
    point, a sample of the point is reported exactly when it matches and is the
    first of the run being timed that comes the configured time after the run's
    first sample; the run is the matching samples since the comparison last
    failed, or since the last of them that was dated before the run's first, and
    values that are not numbers do not touch it.  So on all the samples that
    follow a failing one (or the start), as long as none fails and no matching
    one is dated before the first of them, the reports are the single sample
    that first reaches the configured time after the first matching one, or none
    where there is no such sample. *)
Theorem duration_condition_contract :
  (forall history s,
     Forall (fun s => sample_telemetry_id s = input_point_id binding) (history ++ [s]) ->
     snd (apply_duration_condition algorithm s (feed (apply_duration_condition algorithm) history)) =
       Ok (if completes (timed_run history) s
           then [derived_sample (output_point_id output) (sample_value s) s s] else [])) /\
  (forall before l,
     Forall (fun s => sample_telemetry_id s = input_point_id binding) (before ++ l) ->
     run_boundary before -> Forall (fun s => violated s = false) l ->
     not_before_first (List.filter satisfied l) ->
     reports before l = report_of (List.filter satisfied l)).
Proof using Hstep Hbinding Houtput.
  split; [|by apply reports_once]. intros history s [Hh [Hs _]%Forall_cons_iff]%Forall_app.
  by apply duration_step_run; [|apply duration_entry].
Qed.
End duration.

(** ** Concrete engines *)

Definition example_spec (kind : AlgorithmKind) (step : AlgorithmStep) : AlgorithmSpec :=
  {| algo_id := "rule"; algo_version := "1"; algo_kind := kind;
     algo_dsl := {| dsl_inputs := [{| alias := "x"; input_point_id := "temp" |}];
                    dsl_trigger := OnSample; dsl_steps := [step];
                    dsl_outputs := [{| output_name := "y"; output_point_id := "derived" |}];
                    dsl_report := {| report_mode := OnOutput; report_sink := "cloud" |} |};
     algo_runtime := Runtime_Rule; algo_inputs_field := []; algo_outputs_field := [] |}.

(** A sample of the point, [ms] milliseconds after the epoch. *)
Definition example_sample (value ms : Z) : TelemetrySample :=
  new_sample "device" "temp" (VInteger value) Q_Good (ms * 1000000).

Definition example_binding : AlgorithmInputBinding := {| alias := "x"; input_point_id := "temp" |}.
Definition example_output : AlgorithmOutput := {| output_name := "y"; output_point_id := "derived" |}.

Ltac all_of_point := repeat (constructor; [reflexivity|]); constructor.

(** An average over 100 ms windows. *)
Definition average_example : AlgorithmSpec :=
  {| algo_id := "average"; algo_version := "1"; algo_kind := WindowAggregate;
     algo_dsl := {| dsl_inputs := [example_binding]; dsl_trigger := Window 100;
                    dsl_steps := [StepWindowAggregate "x" [Avg "y"]]; dsl_outputs := [example_output];
                    dsl_report := {| report_mode := OnOutput; report_sink := "cloud" |} |};
     algo_runtime := Runtime_Rule; algo_inputs_field := []; algo_outputs_field := [] |}.

(** The second sample is the last known value, which the average of the window
    then says of itself. *)
Definition stale_sample : TelemetrySample := with_quality_code (example_sample 6 50) UncertainLastKnown.

Lemma engine_inherits_quality_witness :
  exists out report,
    snd (run_algorithm (fun x _ => x) 0 average_example (example_sample 7 120)
      (feed (run_algorithm (fun x _ => x) 0 average_example) [example_sample 5 0; stale_sample])) = Ok ([out], []) /\
    sample_quality_code out = Some UncertainLastKnown /\
    worst_of [example_sample 5 0; stale_sample; example_sample 7 120] (example_sample 7 120) out /\
    snd (apply_samples (fun x _ => x) 0 (fun _ _ => 1000) [stale_sample]
      {| algorithms := [example_spec ChangeReport (StepChangeFilter "x" (f64_of_Z 2))];
         states := ∅; execution := ∅ |}) = Ok (Some report) /\
    report_samples report <> [] /\
    Forall (has_origin [stale_sample]
      {| algorithms := [example_spec ChangeReport (StepChangeFilter "x" (f64_of_Z 2))];
         states := ∅; execution := ∅ |}) (report_samples report).
Proof.
  destruct (engine_inherits_quality (fun x _ => x) 0 (fun _ _ => 1000)) as [Hone Hbatch].
  eexists _, _. split; [vm_compute; reflexivity|]. split; [reflexivity|]. split.
  { pose proof (Hone average_example [example_sample 5 0; stale_sample] (example_sample 7 120) _ _
      ltac:(vm_compute; reflexivity)) as H. by apply Forall_cons_iff in H as [H _]. }
  split; [vm_compute; reflexivity|]. split; [discriminate|].
  eapply Hbatch. vm_compute. reflexivity.
Defined.

(** The sum of two points: the second is bad, the sum is good. *)
Definition sum_example : AlgorithmSpec :=
  {| algo_id := "sum"; algo_version := "1"; algo_kind := ExpressionAggregate;
     algo_dsl := {| dsl_inputs := [example_binding; {| alias := "z"; input_point_id := "other" |}];
                    dsl_trigger := OnSample; dsl_steps := [StepExpression "y" "x + z"];
                    dsl_outputs := [example_output];
                    dsl_report := {| report_mode := OnOutput; report_sink := "cloud" |} |};
     algo_runtime := Runtime_Rule; algo_inputs_field := []; algo_outputs_field := [] |}.

Example expression_ignores_other_quality :
  match snd (apply_transform (fun x _ => x) sum_example (example_sample 5 10)
    (feed (apply_transform (fun x _ => x) sum_example)
      [new_sample "device" "other" (VInteger 1) Q_Bad 0])) with
  | Ok [o] => sample_value o = VFloat (f64_of_Z 6) /\ sample_quality o = Q_Good
  | _ => False
  end.
Proof. vm_compute. split; reflexivity. Qed.

Lemma change_filter_tracks_witness :
  let algorithm := example_spec ChangeReport (StepChangeFilter "x" (f64_of_Z 2)) in
  exists reported,
    last_reported (feed (apply_change_report algorithm) [example_sample 5 0; example_sample 6 1])
      !! "derived" = Some reported /\
    (reported = VInteger 6 \/ value_changed reported (VInteger 6) (f64_of_Z 2) = false).
Proof.
  cbv zeta.
  destruct (change_filter_tracks (example_spec ChangeReport (StepChangeFilter "x" (f64_of_Z 2)))
    "x" (f64_of_Z 2) example_binding example_output eq_refl eq_refl eq_refl
    [example_sample 5 0] (example_sample 6 1) ltac:(all_of_point)) as (reported & H1 & _ & H2).
  exists reported. split; [exact H1 | exact H2].
Defined.

Lemma debounce_reports_stable_values_witness :
  let algorithm := example_spec Debounce (StepDebounce "x" 100) in
  let history := [example_sample 4 0; example_sample 5 10; example_sample 5 60] in
  exists before first run,
    history ++ [example_sample 5 120] = before ++ first :: run /\ Forall (same_value first) run /\
    100 <= num_milliseconds (120 * 1000000) (sample_timestamp first).
Proof.
  cbv zeta.
  destruct (debounce_reports_stable_values (example_spec Debounce (StepDebounce "x" 100))
    "x" 100 example_binding example_output eq_refl eq_refl eq_refl
    [example_sample 4 0; example_sample 5 10; example_sample 5 60] (example_sample 5 120)
    [derived_sample "derived" (VInteger 5) (example_sample 5 120) (example_sample 5 120)]
    ltac:(all_of_point) ltac:(vm_compute; reflexivity) ltac:(discriminate))
    as (before & first & run & H1 & H2 & H3 & _).
  exists before, first, run. split; [exact H1|]. split; [exact H2 | exact H3].
Defined.

(** The condition [x > 50] for 100 ms, over a failing sample and a run of four:
    the third is reported and the fourth is not. *)
Definition example_condition : DurationCondition :=
  {| dc_source := "x"; dc_operator := Op_Gt; dc_threshold := f64_of_Z 50; dc_duration_ms := 100; dc_output := "y" |}.

Definition duration_example : AlgorithmSpec :=
  example_spec DurationRule (StepDurationCondition "x" Op_Gt (f64_of_Z 50) 100 "y").

Definition derived_example (value ms : Z) : TelemetrySample :=
  derived_sample "derived" (VInteger value) (example_sample value ms) (example_sample value ms).

Lemma duration_condition_contract_witness :
  let run := [example_sample 60 10; example_sample 61 60; example_sample 62 120; example_sample 63 400] in
  reports duration_example [example_sample 40 0] run = [derived_example 62 120] /\
  snd (apply_duration_condition duration_example (example_sample 62 120)
    (feed (apply_duration_condition duration_example)
      [example_sample 40 0; example_sample 60 10; example_sample 61 60])) = Ok [derived_example 62 120].
Proof.
  cbv zeta.
  destruct (duration_condition_contract duration_example example_condition example_binding example_output
    eq_refl eq_refl eq_refl) as [Hstep Honce].
  split.
  - rewrite Honce; [vm_compute; reflexivity | all_of_point | | all_of_point |].
    + right. exists [], (example_sample 40 0). split; reflexivity.
    + intros first rest [= <- <-]. repeat (constructor; [vm_compute; discriminate|]). constructor.
  - rewrite Hstep; [vm_compute; reflexivity | all_of_point].
Defined.

(** A matching sample dated before the run's first arms the condition again,
    though the comparison never failed: the second report comes 150 ms after
    that sample. *)
Example earlier_sample_rearms :
  reports duration_example [] [example_sample 60 100; example_sample 62 300; example_sample 63 50;
                               example_sample 64 200] = [derived_example 62 300; derived_example 64 200].
Proof. vm_compute. reflexivity. Qed.

(** A clamp whose lower limit exceeds its upper one panics on the first number:
    nothing between the configuration and [f64::clamp] compares the two. *)
Example clamp_panics_on_inverted_limits :
  snd (apply_transform (fun x _ => x)
         (example_spec ExpressionAggregate (StepClamp "x" "y" (f64_of_Z 10) (f64_of_Z 0)))
         (example_sample 5 0) default_state) = Panic "min > max, or either was NaN".
Proof. vm_compute. reflexivity. Qed.
