(* ===== verification/FloatFmt.v ===== *)
(** [Display] of [f64]: the shortest decimal that parses back to the number, the
    closest one among those of that length, printed without an exponent. *)

From Stdlib Require Import ZArith Lia SpecFloat.
From S2P Require Import Prelude RustStr Floats.

Open Scope Z_scope.

(** The decimal exponent of [num / den]: the greatest [p] with
    [10^p <= num / den]. *)
Definition decimal_exponent (num den : Z) : Z :=
  if den <=? num then Z.of_nat (length (dec_bytes (num / den))) - 1
  else - Z.of_nat (length (dec_bytes ((den - 1) / num))).

(** A decimal [c * 10^-scale] with [n] digits for [num / den], when there is one
    that parses back to [x]. *)
Definition digits_candidate (x : f64) (num den : Z) (n : nat) : option (Z * Z) :=
  let scale := Z.of_nat n - 1 - decimal_exponent num den in
  let num := num * 10 ^ Z.max scale 0 in
  let den := den * 10 ^ Z.max (- scale) 0 in
  let lo := num / den in
  let exact c := f64_eq (f64_of_decimal c (- scale)) x in
  match exact lo, exact (lo + 1) with
  | false, false => None
  | true, false => Some (lo, scale)
  | false, true => Some (lo + 1, scale)
  | true, true => Some (if den <=? 2 * (num mod den) then lo + 1 else lo, scale)
  end.

(** The fewest digits: 17 are always enough. *)
Fixpoint shortest (x : f64) (num den : Z) (n fuel : nat) : Z * Z :=
  match fuel with
  | O => (0, 0)
  | S fuel =>
      match digits_candidate x num den n with
      | Some c => c
      | None => shortest x num den (S n) fuel
      end
  end.

Fixpoint strip_zeros (fuel : nat) (c scale : Z) : Z * Z :=
  match fuel with
  | S fuel => if (c mod 10 =? 0) && negb (c =? 0) then strip_zeros fuel (c / 10) (scale - 1) else (c, scale)
  | O => (c, scale)
  end.

(** [c * 10^-scale] in positional notation. *)
Definition show_decimal (c scale : Z) : bytes :=
  let digits := dec_bytes c in
  let len := Z.of_nat (length digits) in
  if scale <=? 0 then digits ++ replicate (Z.to_nat (- scale)) 48
  else if scale <? len then
    take (Z.to_nat (len - scale)) digits ++ [46] ++ drop (Z.to_nat (len - scale)) digits
  else [48; 46] ++ replicate (Z.to_nat (scale - len)) 48 ++ digits.

Definition show_f64 (x : f64) : string :=
  let sign (s : bool) (text : bytes) := str_of_bytes (if s then 45 :: text else text) in
  match x with
  | S754_nan => "NaN"
  | S754_infinity s => sign s (str_bytes "inf")
  | S754_zero s => sign s [48]
  | S754_finite s m e =>
      let num := Zpos m * 2 ^ Z.max e 0 in
      let den := 2 ^ Z.max (- e) 0 in
      let '(c, scale) := shortest (S754_finite false m e) num den 1 17 in
      let '(c, scale) := strip_zeros 20 c scale in
      sign s (show_decimal c scale)
  end.

(** [Debug] of [f64]: as [Display] with at least one decimal, or with an exponent
    below [1e-5] and from [1e16] on. *)
Definition show_scientific (c scale : Z) : bytes :=
  let digits := dec_bytes c in
  let exponent := Z.of_nat (length digits) - 1 - scale in
  take 1 digits ++ (if bool_decide (length digits = 1%nat) then [] else 46 :: drop 1 digits)
    ++ [101] ++ str_bytes (show_Z exponent).

Definition debug_f64 (x : f64) : string :=
  match x with
  | S754_finite s m e =>
      let small := f64_lt (f64_abs x) (f64_of_decimal 1 (-5)) || f64_ge (f64_abs x) (f64_of_decimal 1 16) in
      if small then
        let '(c, scale) := shortest (S754_finite false m e) (Zpos m * 2 ^ Z.max e 0) (2 ^ Z.max (- e) 0) 1 17 in
        let '(c, scale) := strip_zeros 20 c scale in
        str_of_bytes ((if s then [45] else []) ++ show_scientific c scale)
      else
        let text := show_f64 x in
        if bool_decide (46 ∈ str_bytes text) then text else (text ++ ".0")%string
  | S754_zero s => if s then "-0.0" else "0.0"
  | _ => show_f64 x
  end%string.

Example debug_f64_examples :
  debug_f64 <$> [f64_of_Z 12; f64_of_decimal 1 (-1); f64_of_decimal 15 299; f64_of_decimal 1 (-7); f64_of_decimal 1 16]
  = ["12.0"; "0.1"; "1.5e300"; "1e-7"; "1e16"]%string.
Proof. vm_compute. reflexivity. Qed.

Example show_f64_examples :
  show_f64 <$> [f64_of_Z 12; f64_of_decimal 1 (-1); f64_add (f64_of_decimal 1 (-1)) (f64_of_decimal 2 (-1));
                f64_neg (f64_of_decimal 25 (-1)); f64_of_decimal 1 21; f64_of_decimal 1 (-7);
                f64_of_decimal 999999999 (-3); f64_zero]
  = ["12"; "0.1"; "0.30000000000000004"; "-2.5"; "1000000000000000000000"; "0.0000001";
     "999999.999"; "0"]%string.
Proof. vm_compute. reflexivity. Qed.
