(* ===== verification/KvStore.v ===== *)
(** The key-value database under [crates/edge-runtime/src/local_db.rs].

    RocksDB, [serde_json] and SHA-256 are not part of the repository: the class
    [RocksDb] has the calls the store makes, [RocksDbLaws] what the store relies
    on (a batch is applied as a whole or not at all, an iterator visits the keys
    in byte order from where it starts), [JsonCodec] and [JsonRoundTrip] the
    encoding of records.  A database that is not [db_healthy] may answer any
    call with an error.  [MemoryDb] is an instance that never fails. *)

From Stdlib Require Import ZArith Lia.
From stdpp Require Import sorting.
From S2P Require Import Prelude RustStr BTree.

Open Scope Z_scope.

(** ** The interface *)

Inductive WriteOp :=
| Put (key : string) (value : bytes)
| Delete (key : string).

Definition apply_op (m : gmap string bytes) (op : WriteOp) : gmap string bytes :=
  match op with
  | Put key value => <[key := value]> m
  | Delete key => delete key m
  end.

Definition apply_batch (ops : list WriteOp) (m : gmap string bytes) : gmap string bytes :=
  fold_left apply_op ops m.

(** [db.get], [db.write] of a [WriteBatch] ([db.put] is a batch of one entry)
    and [db.iterator(IteratorMode::From(start, Forward))]. *)
Class RocksDb (D : Type) := {
  db_get : string -> D -> Result (option bytes);
  db_write : list WriteOp -> M D ();
  db_scan : string -> D -> list (Result (string * bytes));
}.

(** ** Listings

    The entries in the order of their keys. *)

Definition entry_leb {A} (a b : string * A) : bool := str_leb (fst a) (fst b).

Definition entries {A} (m : gmap string A) : list (string * A) :=
  sort_by entry_leb (map_to_list m).

Definition entries_from (start : string) (m : gmap string bytes) : list (string * bytes) :=
  filter (fun e => str_leb start (fst e) = true) (entries m).

(** [key.starts_with(prefix.as_bytes())]. *)
Definition has_prefix (prefix key : string) : bool :=
  starts_with (str_bytes key) (str_bytes prefix).

Class RocksDbLaws (D : Type) `{RocksDb D} := {
  db_contents : D -> gmap string bytes;
  db_healthy : D -> Prop;
  db_get_spec : forall key d,
    db_get key d = Ok (db_contents d !! key) \/
    (~ db_healthy d /\ exists e, db_get key d = Err e);
  db_write_spec : forall ops d,
    (snd (db_write ops d) = Ok () /\
     db_contents (fst (db_write ops d)) = apply_batch ops (db_contents d)) \/
    (~ db_healthy d /\ (exists e, snd (db_write ops d) = Err e) /\
     (db_contents (fst (db_write ops d)) = db_contents d \/
      db_contents (fst (db_write ops d)) = apply_batch ops (db_contents d)));
  db_write_healthy : forall ops d, db_healthy d -> db_healthy (fst (db_write ops d));
  db_scan_spec : forall start d,
    db_scan start d = (Ok <$> entries_from start (db_contents d)) \/
    (~ db_healthy d /\ exists n e,
      db_scan start d = (Ok <$> take n (entries_from start (db_contents d))) ++ [Err e]);
}.

(** [serde_json::to_vec] and [serde_json::from_slice]. *)
Class JsonCodec (T : Type) := {
  to_vec : T -> Result bytes;
  from_slice : bytes -> Result T;
}.

(** The [storable] records are read back as they were written. *)
Class JsonRoundTrip (T : Type) (storable : T -> Prop) `{JsonCodec T} : Prop :=
  json_round_trip : forall x, storable x ->
    exists payload, to_vec x = Ok payload /\ from_slice payload = Ok x.

(** ** Reads and writes with a context *)

Definition m_context {S A} (m : M S A) (msg : string) : M S A := fun s =>
  let '(s', r) := m s in (s', with_context r msg).

Definition read {D} `{RocksDb D} (key msg : string) : M D (option bytes) := fun d =>
  (d, with_context (db_get key d) msg).

Definition write {D} `{RocksDb D} (ops : list WriteOp) (msg : string) : M D () :=
  m_context (db_write ops) msg.

(** The items of an iterator up to the first key without the prefix. *)
Fixpoint take_prefix (prefix msg : string) (items : list (Result (string * bytes)))
    : list (Result (string * bytes)) :=
  match items with
  | [] => []
  | item :: rest =>
      match item with
      | Ok (key, payload) =>
          if has_prefix prefix key then Ok (key, payload) :: take_prefix prefix msg rest else []
      | Err _ => [Err msg]
      | Panic e => [Panic e]
      end
  end.

Definition scan_prefix {D} `{RocksDb D} (prefix msg : string) : M D (list (Result (string * bytes))) :=
  gets (fun d => take_prefix prefix msg (db_scan prefix d)).

(** ** The byte order *)

Definition bytes_ltb (a b : bytes) : bool := bytes_leb a b && negb (bool_decide (a = b)).

Lemma str_leb_total a b : str_leb a b = true \/ str_leb b a = true.
Proof. apply bytes_leb_total. Qed.

Lemma str_leb_trans a b c : str_leb a b = true -> str_leb b c = true -> str_leb a c = true.
Proof. apply bytes_leb_trans. Qed.

Lemma str_leb_antisym a b : str_leb a b = true -> str_leb b a = true -> a = b.
Proof. intros H1 H2. apply str_bytes_inj. by apply bytes_leb_antisym. Qed.

Lemma bytes_prefix_app p l : bytes_prefix p l = true <-> exists r, l = p ++ r.
Proof.
  revert l. induction p as [|x p IH]; intros l; simpl.
  - split; [intros _; by exists l | done].
  - destruct l as [|y l].
    + split; [done|]. by intros [r ?].
    + rewrite andb_true_iff, Z.eqb_eq, IH. split.
      * intros [-> [r ->]]. by exists r.
      * intros [r [= -> ->]]. split; [done | by exists r].
Qed.

Lemma bytes_leb_app p r : bytes_leb p (p ++ r) = true.
Proof. induction p as [|x p IH]; [done|]. simpl. by rewrite Z.eqb_refl, IH, orb_true_r. Qed.

Lemma bytes_leb_app_same p a b : bytes_leb (p ++ a) (p ++ b) = bytes_leb a b.
Proof. induction p as [|x p IH]; [done|]. simpl. by rewrite Z.eqb_refl, Z.ltb_irrefl, IH. Qed.

(** Keys with a prefix form an interval: what lies between two of them has the
    prefix too. *)
Lemma prefix_interval p a b :
  bytes_prefix p b = true -> bytes_leb p a = true -> bytes_leb a b = true ->
  bytes_prefix p a = true.
Proof.
  revert a b. induction p as [|x p IH]; intros [|y a] [|z b]; simpl; try done.
  intros [->%Z.eqb_eq Hb]%andb_true_iff [Hxy%Z.ltb_lt | [Heq%Z.eqb_eq Ha]%andb_true_iff]%orb_true_iff
    [Hyz%Z.ltb_lt | [Heq'%Z.eqb_eq Hab]%andb_true_iff]%orb_true_iff; try lia.
  subst. rewrite Z.eqb_refl. by apply (IH a b).
Qed.

(** ** Listings of a prefix *)

(** [l] are the entries of [m] whose key has the prefix, in order. *)
Record is_listing (prefix : string) (m : gmap string bytes) (l : list (string * bytes)) : Prop := {
  listing_sorted : StronglySorted (fun a b => entry_leb a b = true) l;
  listing_NoDup : NoDup (fst <$> l);
  listing_elem : forall k v, (k, v) ∈ l <-> m !! k = Some v /\ has_prefix prefix k = true;
}.

Lemma entry_leb_total {A} (a b : string * A) : entry_leb a b = true \/ entry_leb b a = true.
Proof. apply str_leb_total. Qed.

Lemma entry_leb_trans {A} (a b c : string * A) :
  entry_leb a b = true -> entry_leb b c = true -> entry_leb a c = true.
Proof. apply str_leb_trans. Qed.

Lemma StronglySorted_filter {A} (R : A -> A -> Prop) (P : A -> Prop) `{!forall x, Decision (P x)} l :
  StronglySorted R l -> StronglySorted R (filter P l).
Proof.
  induction 1 as [|x l Hs IH Hall]; [constructor|]. rewrite filter_cons.
  case_decide; [|done]. constructor; [done|]. apply list.Forall_forall. intros y Hy.
  apply list_elem_of_filter in Hy as [_ Hy]. exact (Forall_elem _ _ _ Hall Hy).
Qed.

Lemma entries_sorted {A} (m : gmap string A) :
  StronglySorted (fun a b => entry_leb a b = true) (entries m).
Proof. apply sort_by_sorted; [apply entry_leb_total | apply entry_leb_trans]. Qed.

Lemma elem_of_entries {A} (m : gmap string A) k v : (k, v) ∈ entries m <-> m !! k = Some v.
Proof. unfold entries. by rewrite sort_by_perm, elem_of_map_to_list. Qed.

Lemma entries_NoDup {A} (m : gmap string A) : NoDup (fst <$> entries m).
Proof. unfold entries. rewrite sort_by_perm. apply NoDup_fst_map_to_list. Qed.

Definition listing (prefix : string) (m : gmap string bytes) : list (string * bytes) :=
  filter (fun e => has_prefix prefix (fst e) = true) (entries m).

Lemma NoDup_fst_filter {A B} (P : A * B -> Prop) `{!forall x, Decision (P x)} (l : list (A * B)) :
  NoDup (fst <$> l) -> NoDup (fst <$> filter P l).
Proof.
  induction l as [|x l IH]; [done|]. rewrite fmap_cons, filter_cons.
  intros [Hnin Hnd]%list.NoDup_cons. case_decide; [|by apply IH].
  rewrite fmap_cons. apply list.NoDup_cons. split; [|by apply IH].
  intros Hin. apply Hnin. apply list_elem_of_fmap in Hin as (y & -> & Hy).
  apply list_elem_of_filter in Hy as [_ Hy]. by apply list_elem_of_fmap_2.
Qed.

Lemma listing_is_listing prefix m : is_listing prefix m (listing prefix m).
Proof.
  constructor.
  - apply StronglySorted_filter, entries_sorted.
  - apply NoDup_fst_filter, entries_NoDup.
  - intros k v. unfold listing. rewrite list_elem_of_filter, elem_of_entries. naive_solver.
Qed.

Lemma NoDup_fst {A B} (l : list (A * B)) : NoDup (fst <$> l) -> NoDup l.
Proof.
  induction l as [|x l IH]; [constructor|]. rewrite fmap_cons.
  intros [Hnin Hnd]%list.NoDup_cons. apply list.NoDup_cons. split; [|by apply IH].
  intros Hin. apply Hnin. by apply list_elem_of_fmap_2.
Qed.

Lemma listing_unique prefix m l1 l2 : is_listing prefix m l1 -> is_listing prefix m l2 -> l1 = l2.
Proof.
  intros H1 H2. eapply StronglySorted_unique_strong; [| apply H1 | apply H2 |].
  - intros [k1 v1] [k2 v2] Hin1 Hin2 Hle Hge. unfold entry_leb in *. simpl in *.
    assert (k1 = k2) as <- by by apply str_leb_antisym.
    apply H1 in Hin1 as [Hv1 _]. apply H2 in Hin2 as [Hv2 _]. congruence.
  - apply NoDup_Permutation.
    + by apply NoDup_fst, H1.
    + by apply NoDup_fst, H2.
    + intros [k v]. by rewrite (listing_elem _ _ _ H1), (listing_elem _ _ _ H2).
Qed.

Lemma has_prefix_leb prefix key : has_prefix prefix key = true -> str_leb prefix key = true.
Proof.
  unfold has_prefix, starts_with, str_leb. intros [r ->]%bytes_prefix_app. apply bytes_leb_app.
Qed.

(** An ordered iteration from the prefix, cut at the first other key, visits
    the listing. *)
Lemma take_prefix_sorted prefix msg l :
  StronglySorted (fun a b => entry_leb a b = true) l ->
  Forall (fun e => str_leb prefix (fst e) = true) l ->
  take_prefix prefix msg (Ok <$> l) = Ok <$> filter (fun e => has_prefix prefix (fst e) = true) l.
Proof.
  induction 1 as [|[k v] l Hs IH Hall]; intros Hge; [done|].
  apply Forall_cons_iff in Hge as [Hk Hge]. rewrite fmap_cons, filter_cons. cbn [take_prefix fst].
  destruct (has_prefix prefix k) eqn:E.
  - rewrite decide_True, fmap_cons by done. f_equal. by apply IH.
  - rewrite decide_False by done. rewrite filter_none; [done|].
    intros [k' v'] Hin Hp. simpl in Hp.
    pose proof (Forall_elem _ _ _ Hall Hin) as Hle. simpl in Hle. unfold entry_leb in Hle.
    unfold has_prefix, starts_with in *.
    rewrite (prefix_interval _ (str_bytes k) (str_bytes k')) in E; done.
Qed.

(** The same when the iteration fails midway. *)
Lemma take_prefix_fault prefix msg l n e :
  StronglySorted (fun a b => entry_leb a b = true) l ->
  Forall (fun e => str_leb prefix (fst e) = true) l ->
  let found := filter (fun e => has_prefix prefix (fst e) = true) l in
  take_prefix prefix msg ((Ok <$> take n l) ++ [Err e]) = (Ok <$> found) \/
  exists k, take_prefix prefix msg ((Ok <$> take n l) ++ [Err e]) = (Ok <$> take k found) ++ [Err msg].
Proof.
  intros Hs. revert n. induction Hs as [|[k v] l Hs IH Hall]; intros n Hge found.
  { right. exists O. by rewrite take_nil. }
  destruct n as [|n]; [right; by exists O|].
  pose proof (take_prefix_sorted prefix msg ((k, v) :: l) (SSorted_cons _ Hs Hall) Hge) as Hfull.
  rewrite fmap_cons in Hfull. unfold found in *.
  apply Forall_cons_iff in Hge as [Hk Hge]. cbn [take app fmap list_fmap take_prefix] in *.
  destruct (has_prefix prefix k) eqn:E; [|left; done].
  rewrite filter_cons_True by done. destruct (IH n Hge) as [->|[j ->]].
  - left. by rewrite fmap_cons.
  - right. by exists (S j).
Qed.

Section laws.
Context {D : Type} `{RocksDbLaws D}.

Lemma read_spec key msg d :
  read key msg d = (d, Ok (db_contents d !! key)) \/ (~ db_healthy d /\ read key msg d = (d, Err msg)).
Proof using Type*.
  unfold read. destruct (db_get_spec key d) as [->|[Hbad [e ->]]]; [by left | by right].
Qed.

Lemma write_spec ops msg d :
  (snd (write ops msg d) = Ok () /\
   db_contents (fst (write ops msg d)) = apply_batch ops (db_contents d)) \/
  (~ db_healthy d /\ snd (write ops msg d) = Err msg /\
   (db_contents (fst (write ops msg d)) = db_contents d \/
    db_contents (fst (write ops msg d)) = apply_batch ops (db_contents d))).
Proof using Type*.
  unfold write, m_context. pose proof (db_write_spec ops d) as Hw.
  destruct (db_write ops d) as [d' r]. simpl in *.
  destruct Hw as [[-> Hc] | (Hbad & [e ->] & Hc)]; [by left | by right].
Qed.

Lemma scan_spec prefix msg d :
  scan_prefix prefix msg d = (d, Ok (Ok <$> listing prefix (db_contents d))) \/
  (~ db_healthy d /\ exists k, scan_prefix prefix msg d =
     (d, Ok ((Ok <$> take k (listing prefix (db_contents d))) ++ [Err msg]))).
Proof using Type*.
  set (l := entries_from prefix (db_contents d)).
  assert (Hs : StronglySorted (fun a b => entry_leb a b = true) l)
    by apply StronglySorted_filter, entries_sorted.
  assert (Hge : Forall (fun e => str_leb prefix (fst e) = true) l).
  { apply list.Forall_forall. intros e He. by apply list_elem_of_filter in He as [? _]. }
  assert (Hfound : filter (fun e => has_prefix prefix (fst e) = true) l = listing prefix (db_contents d)).
  { unfold l, entries_from, listing. rewrite list_filter_filter. apply list_filter_iff.
    intros [k v]. simpl. split; [naive_solver|]. intros Hp. split; [done | by apply has_prefix_leb]. }
  unfold scan_prefix, gets. destruct (db_scan_spec prefix d) as [->|(Hbad & n & e & ->)]; fold l.
  - left. by rewrite take_prefix_sorted, Hfound by done.
  - destruct (take_prefix_fault prefix msg l n e Hs Hge) as [->|[k ->]]; rewrite Hfound; [by left|].
    right. split; [done|]. by exists k.
Qed.

(** A computation that only reads: it answers [r] or, when the database fails,
    an error. *)
Definition reads {A} (m : M D A) (d : D) (r : Result A) : Prop :=
  m d = (d, r) \/ (~ db_healthy d /\ exists e, m d = (d, Err e)).

Lemma reads_ret {A} (a : A) d : reads (mret a) d (Ok a).
Proof using. by left. Qed.

Lemma reads_lift {A} (r : Result A) d : reads (lift r) d r.
Proof using. by left. Qed.

Lemma reads_bind {A B} (m : M D A) (f : A -> M D B) d a r :
  reads m d (Ok a) -> reads (f a) d r -> reads (m ≫= f) d r.
Proof using.
  intros [Hm|(Hbad & e & Hm)] Hf; unfold reads; rewrite M_bind_eq, Hm; [done|].
  right. eauto.
Qed.

Lemma reads_bind_Err {A B} (m : M D A) (f : A -> M D B) d e :
  reads m d (Err e) -> reads (m ≫= f) d (Err e).
Proof using.
  intros [Hm|(Hbad & e' & Hm)]; unfold reads; rewrite M_bind_eq, Hm; [by left|].
  right. eauto.
Qed.

Lemma reads_read key msg d : reads (read key msg) d (Ok (db_contents d !! key)).
Proof using Type*. destruct (read_spec key msg d) as [?|[? ?]]; [by left | right; eauto]. Qed.

(** A loop over the entries of a prefix that stops at the first error. *)
Lemma reads_scan {A} (body : list (Result (string * bytes)) -> Result A) prefix msg d r :
  body (Ok <$> listing prefix (db_contents d)) = r ->
  (forall k, body ((Ok <$> take k (listing prefix (db_contents d))) ++ [Err msg]) = r \/
             exists e, body ((Ok <$> take k (listing prefix (db_contents d))) ++ [Err msg]) = Err e) ->
  reads (items ← scan_prefix prefix msg; lift (body items)) d r.
Proof using Type*.
  intros Hall Hfault. unfold reads. rewrite M_bind_eq.
  destruct (scan_spec prefix msg d) as [-> | (Hbad & k & ->)]; unfold lift.
  - left. by rewrite Hall.
  - destruct (Hfault k) as [-> | [e ->]]; [by left | right; eauto].
Qed.
End laws.

(** ** How a listing changes *)

Lemma listing_other prefix m l key op :
  is_listing prefix m l -> has_prefix prefix key = false ->
  (exists v, op = Put key v) \/ op = Delete key -> is_listing prefix (apply_op m op) l.
Proof.
  intros [Hs Hnd Hel] Hp Hop. constructor; [done..|]. intros k v. rewrite Hel.
  assert (Hne : has_prefix prefix k = true -> key <> k) by congruence.
  destruct Hop as [[v' ->] | ->]; simpl; split; intros [Hk Hpk]; (split; [|done]).
  - by rewrite lookup_insert_ne by auto.
  - by rewrite lookup_insert_ne in Hk by auto.
  - by rewrite lookup_delete_ne by auto.
  - by rewrite lookup_delete_ne in Hk by auto.
Qed.

Lemma listing_insert prefix m l key value :
  is_listing prefix m l -> has_prefix prefix key = true -> m !! key = None ->
  is_listing prefix (<[key := value]> m) (insert_by entry_leb (key, value) l).
Proof.
  intros [Hs Hnd Hel] Hp Hnew. constructor.
  - apply insert_by_sorted; [apply entry_leb_total | apply entry_leb_trans | done].
  - rewrite insert_by_perm, fmap_cons. apply list.NoDup_cons. split; [|done].
    intros Hin. apply list_elem_of_fmap in Hin as ([k v] & Hk & Hin). simpl in Hk. subst k.
    apply Hel in Hin as [Hv _]. congruence.
  - intros k v. rewrite insert_by_perm, elem_of_cons, Hel.
    destruct (decide (key = k)) as [<-|Hne].
    + rewrite lookup_insert_eq. naive_solver.
    + rewrite lookup_insert_ne by done. naive_solver.
Qed.

Lemma listing_delete prefix m l key :
  is_listing prefix m l -> is_listing prefix (delete key m) (filter (fun e => fst e <> key) l).
Proof.
  intros [Hs Hnd Hel]. constructor.
  - by apply StronglySorted_filter.
  - by apply NoDup_fst_filter.
  - intros k v. rewrite list_elem_of_filter, Hel, lookup_delete_Some. simpl. naive_solver.
Qed.

Lemma listing_update prefix m l key value :
  is_listing prefix m l -> is_Some (m !! key) ->
  is_listing prefix (<[key := value]> m)
    ((fun e => if bool_decide (fst e = key) then (key, value) else e) <$> l).
Proof.
  intros [Hs Hnd Hel] [v0 Hv0].
  set (f := fun e : string * bytes => if bool_decide (fst e = key) then (key, value) else e).
  assert (Hf : forall e, fst (f e) = fst e) by (intros e; unfold f; by case_bool_decide).
  constructor.
  - clear Hnd Hel. induction Hs as [|x l Hs IH Hall]; [constructor|]. rewrite fmap_cons.
    constructor; [done|]. apply list.Forall_forall. intros y Hy.
    apply list_elem_of_fmap in Hy as (z & -> & Hz). unfold entry_leb. rewrite !Hf.
    exact (Forall_elem _ _ _ Hall Hz).
  - rewrite <- list_fmap_compose. by erewrite list_fmap_ext; [exact Hnd | intros; apply Hf].
  - intros k v. rewrite list_elem_of_fmap. split.
    + intros ([k' v'] & Heq & Hin). apply Hel in Hin as [Hv' Hp]. unfold f in Heq. simpl in Heq.
      case_bool_decide as Hk; simplify_eq.
      * rewrite lookup_insert_eq. done.
      * rewrite lookup_insert_ne by done. done.
    + intros [Hk Hp]. destruct (decide (key = k)) as [<-|Hne].
      * rewrite lookup_insert_eq in Hk. simplify_eq. exists (key, v0). split; [|by apply Hel].
        unfold f. by rewrite bool_decide_true.
      * rewrite lookup_insert_ne in Hk by done. exists (k, v). split; [|by apply Hel].
        unfold f. by rewrite bool_decide_false by (simpl; congruence).
Qed.

(** ** Fixed-width decimal keys *)

(** [format!("{n:020}")]: zeros in front up to the width. *)
Definition pad_dec (width : nat) (n : Z) : bytes :=
  replicate (width - length (dec_bytes n)) 48 ++ dec_bytes n.

(** The [width] low decimal digits. *)
Fixpoint fixed_dec (width : nat) (n : Z) : bytes :=
  match width with
  | O => []
  | S width => fixed_dec width (n / 10) ++ [48 + n mod 10]
  end.

Lemma length_fixed_dec width n : length (fixed_dec width n) = width.
Proof. revert n. induction width as [|w IH]; intros n; [done|]. simpl. rewrite length_app, IH. simpl. lia. Qed.

Lemma fixed_dec_zero width : fixed_dec width 0 = replicate width 48.
Proof.
  induction width as [|w IH]; [done|]. rewrite replicate_S_end. simpl.
  by rewrite Z.div_0_l, Z.mod_0_l, IH by lia.
Qed.

(** The digits without leading zeros are the fixed-width ones at the least
    width. *)
Lemma dec_digits_fixed fuel n acc :
  0 <= n < 10 ^ Z.of_nat fuel ->
  exists w, ((w <= 1)%nat \/ 10 ^ (Z.of_nat w - 1) <= n) /\
    dec_digits fuel n acc = fixed_dec w n ++ acc /\
    forall width, (w <= width)%nat -> fixed_dec width n = replicate (width - w) 48 ++ fixed_dec w n.
Proof.
  revert n acc. induction fuel as [|fuel IH]; intros n acc Hn.
  { simpl in Hn. assert (n = 0) as -> by lia. exists O. split; [lia|]. split; [done|].
    intros width _. by rewrite fixed_dec_zero, app_nil_r, Nat.sub_0_r. }
  cbn [dec_digits]. destruct (Z.ltb_spec n 10).
  - exists 1%nat. split; [lia|]. cbn [fixed_dec]. rewrite Z.mod_small by lia. split; [done|].
    intros [|width] Hw; [lia|].
    cbn [fixed_dec]. rewrite Z.div_small, fixed_dec_zero, Z.mod_small by lia. simpl.
    by rewrite Nat.sub_0_r.
  - assert (Hdiv : 0 <= n / 10 < 10 ^ Z.of_nat fuel).
    { split; [apply Z.div_pos; lia|]. apply Z.div_lt_upper_bound; [lia|].
      rewrite Nat2Z.inj_succ, Z.pow_succ_r in Hn by lia. lia. }
    destruct (IH (n / 10) ((48 + n mod 10) :: acc) Hdiv) as (w & Hw & -> & Hwidth).
    exists (S w). split; [|split; [cbn [fixed_dec]; by rewrite <- app_assoc|]].
    + right. pose proof (Z.mul_div_le n 10 ltac:(lia)).
      replace (Z.of_nat (S w) - 1) with (Z.of_nat w) by lia.
      destruct w as [|w]; [simpl; lia|]. destruct Hw as [Hw|Hw].
      * assert (w = O) as -> by lia. simpl Z.of_nat. lia.
      * replace (Z.of_nat (S w)) with (Z.succ (Z.of_nat (S w) - 1)) by lia.
        rewrite Z.pow_succ_r by lia. lia.
    + intros [|width] Hle; [lia|]. cbn [fixed_dec]. rewrite (Hwidth width) by lia.
      by rewrite app_assoc.
Qed.

Lemma pad_dec_fixed width n :
  (0 < width)%nat -> 0 <= n < 10 ^ Z.of_nat width -> pad_dec width n = fixed_dec width n.
Proof.
  intros Hpos Hn. unfold pad_dec, dec_bytes.
  destruct (dec_digits_fixed (S (Z.to_nat (Z.log2 n))) n []) as (w & Hw & Heq & Hwidth).
  { split; [lia|]. rewrite Nat2Z.inj_succ, Z2Nat.id by apply Z.log2_nonneg.
    destruct (decide (n = 0)) as [->|]; [done|].
    pose proof (Z.log2_spec n ltac:(lia)) as [_ Hlt]. eapply Z.lt_le_trans; [exact Hlt|].
    apply Z.pow_le_mono_l. lia. }
  rewrite Heq, app_nil_r, length_fixed_dec.
  destruct (decide (w <= width)%nat) as [Hle|Hgt]; [by rewrite (Hwidth width) by lia|].
  destruct Hw as [Hw|Hw]; [lia|].
  pose proof (Z.pow_le_mono_r 10 (Z.of_nat width) (Z.of_nat w - 1)). lia.
Qed.

Lemma bytes_leb_app_length a b c d :
  length a = length b ->
  bytes_leb (a ++ c) (b ++ d) = bytes_ltb a b || (bool_decide (a = b) && bytes_leb c d).
Proof.
  unfold bytes_ltb. revert b. induction a as [|x a IH]; intros [|y b] Hlen; [done..|].
  injection Hlen as Hlen. simpl. rewrite IH by done.
  destruct (Z.ltb_spec x y) as [Hlt|Hge]; simpl.
  - by rewrite bool_decide_false by (intros [= -> ?]; lia).
  - destruct (Z.eqb_spec x y) as [->|Hne]; simpl.
    + f_equal; [f_equal; f_equal|f_equal]; apply bool_decide_ext; split; congruence.
    + by rewrite (bool_decide_false (x :: a = y :: b)) by congruence.
Qed.

(** Fixed-width decimals are ordered as the numbers. *)
Lemma fixed_dec_order width a b :
  0 <= a < 10 ^ Z.of_nat width -> 0 <= b < 10 ^ Z.of_nat width ->
  bytes_leb (fixed_dec width a) (fixed_dec width b) = (a <=? b) /\
  (fixed_dec width a = fixed_dec width b -> a = b).
Proof.
  revert a b. induction width as [|w IH]; intros a b Ha Hb.
  { simpl in *. assert (a = 0) as -> by lia. assert (b = 0) as -> by lia. done. }
  rewrite Nat2Z.inj_succ, Z.pow_succ_r in Ha, Hb by lia. cbn [fixed_dec].
  assert (Ha' : 0 <= a / 10 < 10 ^ Z.of_nat w)
    by (split; [apply Z.div_pos; lia | apply Z.div_lt_upper_bound; lia]).
  assert (Hb' : 0 <= b / 10 < 10 ^ Z.of_nat w)
    by (split; [apply Z.div_pos; lia | apply Z.div_lt_upper_bound; lia]).
  pose proof (Z.div_mod a 10 ltac:(lia)). pose proof (Z.div_mod b 10 ltac:(lia)).
  pose proof (Z.mod_pos_bound a 10 ltac:(lia)). pose proof (Z.mod_pos_bound b 10 ltac:(lia)).
  destruct (IH _ _ Ha' Hb') as [Hleb Hinj]. split.
  - rewrite bytes_leb_app_length by by rewrite !length_fixed_dec.
    unfold bytes_ltb. rewrite Hleb. cbn [bytes_leb].
    destruct (bool_decide (fixed_dec w (a / 10) = fixed_dec w (b / 10))) eqn:E.
    + apply bool_decide_eq_true in E. specialize (Hinj E).
      rewrite andb_false_r, andb_true_r. cbn [orb andb].
      destruct (Z.ltb_spec (48 + a mod 10) (48 + b mod 10)), (Z.eqb_spec (48 + a mod 10) (48 + b mod 10)),
        (Z.leb_spec a b); simpl; lia.
    + apply bool_decide_eq_false in E. assert (a / 10 <> b / 10) by congruence.
      apply eq_true_iff_eq. cbn [negb]. rewrite !orb_true_iff, andb_true_r, !Z.leb_le. simpl. lia.
  - intros [Heq1 [= Heq2]]%app_inj_2; [|done]. specialize (Hinj Heq1). lia.
Qed.

(** ** A database in memory *)

Module MemoryDb.

#[export] Instance memory_db : RocksDb (gmap string bytes) := {
  db_get key m := Ok (m !! key);
  db_write ops m := (apply_batch ops m, Ok ());
  db_scan start m := Ok <$> entries_from start m;
}.

#[export] Program Instance memory_db_laws : RocksDbLaws (gmap string bytes) := {
  db_contents m := m;
  db_healthy _ := True;
}.
Next Obligation. intros key m. by left. Qed.
Next Obligation. intros ops m. by left. Qed.
Next Obligation. done. Qed.
Next Obligation. intros start m. by left. Qed.

(** An encoding of any countable type: the bits of its code. *)
Fixpoint bits (p : positive) : bytes :=
  match p with
  | xH => []
  | xO p => 0 :: bits p
  | xI p => 1 :: bits p
  end.

Fixpoint of_bits (l : bytes) : positive :=
  match l with
  | [] => xH
  | b :: l => if b =? 0 then xO (of_bits l) else xI (of_bits l)
  end.

Lemma of_bits_bits p : of_bits (bits p) = p.
Proof. induction p as [p IH|p IH|]; simpl; by rewrite ?IH. Qed.

Definition countable_codec (T : Type) `{Countable T} : JsonCodec T := {|
  to_vec x := Ok (bits (encode x));
  from_slice payload := ok_or (decode (of_bits payload)) "invalid record";
|}.

Lemma countable_round_trip (T : Type) `{Countable T} (storable : T -> Prop) :
  @JsonRoundTrip T storable (countable_codec T).
Proof.
  intros x _. exists (bits (encode x)). split; [done|]. simpl.
  by rewrite of_bits_bits, decode_encode.
Qed.
End MemoryDb.
