(* ===== verification/SeqKeys.v ===== *)
(** Collections of records kept under numbered keys: [prefix ++ format!("{n:020}")].

    The outbox and the acknowledgements of [local_db.rs] are such collections.
    [held prefix seq l m] says that the entries of the database with this prefix
    are the records [l], in the order of their numbers. *)

From Stdlib Require Import ZArith Lia.
From S2P Require Import Prelude RustStr BTree KvStore.

Open Scope Z_scope.

(** [format!("{prefix}{n:020}")]. *)
Definition seq_key (prefix : string) (n : Z) : string :=
  (prefix ++ str_of_bytes (pad_dec 20 n))%string.

Lemma u64_digits n : u_ok 64 n -> 0 <= n < 10 ^ Z.of_nat 20.
Proof. unfold u_ok. change (2 ^ 64) with 18446744073709551616. change (10 ^ Z.of_nat 20) with 100000000000000000000. lia. Qed.

Lemma fixed_dec_ok width n : bytes_ok (fixed_dec width n).
Proof.
  revert n. induction width as [|w IH]; intros n; [constructor|]. simpl.
  apply Forall_app. split; [apply IH|]. apply Forall_singleton.
  pose proof (Z.mod_pos_bound n 10 ltac:(lia)). unfold byte_ok. lia.
Qed.

Lemma seq_key_bytes prefix n :
  u_ok 64 n -> str_bytes (seq_key prefix n) = str_bytes prefix ++ fixed_dec 20 n.
Proof.
  intros Hn. unfold seq_key.
  rewrite str_bytes_app, pad_dec_fixed by (try apply u64_digits; first [done | lia]).
  by rewrite str_bytes_of_bytes by apply fixed_dec_ok.
Qed.

Lemma seq_key_inj prefix a b :
  u_ok 64 a -> u_ok 64 b -> seq_key prefix a = seq_key prefix b -> a = b.
Proof.
  intros Ha Hb Heq. apply (f_equal str_bytes) in Heq. rewrite !seq_key_bytes in Heq by done.
  apply app_inv_head in Heq.
  by eapply fixed_dec_order; [apply u64_digits.. | exact Heq].
Qed.

Lemma seq_key_leb prefix a b :
  u_ok 64 a -> u_ok 64 b -> str_leb (seq_key prefix a) (seq_key prefix b) = (a <=? b).
Proof.
  intros Ha Hb. unfold str_leb. rewrite !seq_key_bytes, bytes_leb_app_same by done.
  by apply fixed_dec_order; apply u64_digits.
Qed.

Lemma seq_key_prefix prefix n : has_prefix prefix (seq_key prefix n) = true.
Proof.
  unfold has_prefix, starts_with, seq_key. rewrite str_bytes_app. apply bytes_prefix_app. eauto.
Qed.

(** ** Insertion in related lists *)

Lemma insert_by_Forall2 {A B} (leA : A -> A -> bool) (leB : B -> B -> bool)
    (R : A -> B -> Prop) x y l k :
  (forall a b, R a b -> a ∈ l -> leA x a = leB y b) ->
  R x y -> Forall2 R l k -> Forall2 R (insert_by leA x l) (insert_by leB y k).
Proof.
  intros Hle Hxy. induction 1 as [|a b l k Hab Hlk IH]; [by repeat constructor|]. simpl.
  rewrite (Hle a b) by (done || by left). destruct (leB y b).
  - by repeat constructor.
  - constructor; [done|]. apply IH. intros a' b' Hr Hin. apply Hle; [done | by right].
Qed.

Lemma filter_Forall2 {A B} (P : A -> Prop) (Q : B -> Prop)
    `{!forall x, Decision (P x)} `{!forall x, Decision (Q x)} (R : A -> B -> Prop) l k :
  (forall a b, R a b -> a ∈ l -> P a <-> Q b) ->
  Forall2 R l k -> Forall2 R (filter P l) (filter Q k).
Proof.
  intros Hpq. induction 1 as [|a b l k Hab Hlk IH]; [constructor|]. rewrite !filter_cons.
  assert (Hiff : P a <-> Q b) by (apply Hpq; [done | by left]).
  assert (IH' : Forall2 R (filter P l) (filter Q k)).
  { apply IH. intros a' b' Hr Hin. apply Hpq; [done | by right]. }
  destruct (decide (P a)), (decide (Q b)); try tauto. by constructor.
Qed.

Lemma insert_by_last {A} (le : A -> A -> bool) x l :
  Forall (fun a => le x a = false) l -> insert_by le x l = l ++ [x].
Proof. induction 1 as [|a l Ha Hl IH]; [done|]. simpl. by rewrite Ha, IH. Qed.

Lemma listing_eq prefix m l : is_listing prefix m l -> listing prefix m = l.
Proof. intros Hl. eapply listing_unique; [apply listing_is_listing | done]. Qed.

Section held.
Context {T : Type} `{JsonCodec T} (prefix : string) (seq : T -> Z).

Definition seq_leb (x y : T) : bool := seq x <=? seq y.

(** The database entry of a record. *)
Definition stored (x : T) (e : string * bytes) : Prop :=
  u_ok 64 (seq x) /\ fst e = seq_key prefix (seq x) /\ from_slice (snd e) = Ok x.

Definition held (l : list T) (m : gmap string bytes) : Prop :=
  Forall2 stored l (listing prefix m).

Lemma held_u64 l m x : held l m -> x ∈ l -> u_ok 64 (seq x).
Proof using.
  intros Hh (i & Hi)%list_elem_of_lookup. destruct (Forall2_lookup_l _ _ _ _ _ Hh Hi) as (e & _ & Hs).
  apply Hs.
Qed.

Lemma held_lookup l m x :
  held l m -> x ∈ l -> exists p, m !! seq_key prefix (seq x) = Some p /\ from_slice p = Ok x.
Proof using.
  intros Hh (i & Hi)%list_elem_of_lookup.
  destruct (Forall2_lookup_l _ _ _ _ _ Hh Hi) as ([k p] & He & Hu & Hk & Hp). simpl in *. subst k.
  exists p. split; [|done]. eapply listing_is_listing. by eapply list_elem_of_lookup_2.
Qed.

Lemma held_lookup_inv l m n p :
  held l m -> u_ok 64 n -> m !! seq_key prefix n = Some p ->
  exists x, x ∈ l /\ seq x = n /\ from_slice p = Ok x.
Proof using.
  intros Hh Hn Hp.
  assert (Hin : (seq_key prefix n, p) ∈ listing prefix m).
  { apply listing_is_listing. split; [done | apply seq_key_prefix]. }
  apply list_elem_of_lookup in Hin as [i Hi].
  destruct (Forall2_lookup_r _ _ _ _ _ Hh Hi) as (x & Hx & Hu & Hk & Hd). simpl in *.
  exists x. split; [by eapply list_elem_of_lookup_2|]. split; [|done].
  symmetry. by apply (seq_key_inj prefix).
Qed.

Lemma held_fresh l m n :
  held l m -> u_ok 64 n -> (forall x, x ∈ l -> seq x <> n) -> m !! seq_key prefix n = None.
Proof using.
  intros Hh Hn Hfresh. apply eq_None_not_Some. intros [p Hp].
  destruct (held_lookup_inv l m n p Hh Hn Hp) as (x & Hin & Hx & _). by apply (Hfresh x).
Qed.

(** The records are in strictly increasing order of their numbers. *)
Lemma held_sorted l m : held l m -> StronglySorted (fun x y => seq x < seq y) l.
Proof using.
  unfold held. pose proof (listing_is_listing prefix m) as [Hs Hnd _].
  generalize dependent (listing prefix m). intros k Hs Hnd Hh. revert Hs Hnd.
  induction Hh as [|x e l k Hxe Hlk IH]; intros Hs Hnd; [constructor|].
  apply StronglySorted_inv in Hs as [Hs Hall]. rewrite fmap_cons in Hnd.
  apply list.NoDup_cons in Hnd as [Hnin Hnd]. constructor; [by apply IH|].
  apply list.Forall_forall. intros y (i & Hi)%list_elem_of_lookup.
  destruct (Forall2_lookup_l _ _ _ _ _ Hlk Hi) as (e' & He' & Huy & Hky & _).
  destruct Hxe as (Hux & Hkx & _). apply list_elem_of_lookup_2 in He'.
  pose proof (Forall_elem _ _ _ Hall He') as Hle. unfold entry_leb in Hle.
  rewrite Hkx, Hky, seq_key_leb in Hle by done. apply Z.leb_le in Hle.
  assert (seq x <> seq y); [|lia]. intros Heq. apply Hnin.
  apply list_elem_of_fmap. exists e'. by rewrite Hkx, Hky, Heq.
Qed.

Lemma held_inj l m x y : held l m -> x ∈ l -> y ∈ l -> seq x = seq y -> x = y.
Proof using.
  intros Hh Hx Hy Heq.
  destruct (held_lookup l m x Hh Hx) as (p & Hp & Hdx).
  destruct (held_lookup l m y Hh Hy) as (q & Hq & Hdy). rewrite Heq in Hp. congruence.
Qed.

(** *** What a write does to a collection *)

Lemma held_other l m key op :
  held l m -> has_prefix prefix key = false ->
  (exists v, op = Put key v) \/ op = Delete key -> held l (apply_op m op).
Proof using.
  intros Hh Hp Hop. unfold held.
  by rewrite (listing_eq _ _ _ (listing_other _ _ _ _ _ (listing_is_listing _ _) Hp Hop)).
Qed.

Lemma held_put l m x p :
  held l m -> u_ok 64 (seq x) -> from_slice p = Ok x -> (forall y, y ∈ l -> seq y <> seq x) ->
  held (insert_by seq_leb x l) (<[seq_key prefix (seq x) := p]> m).
Proof using.
  intros Hh Hu Hp Hfresh. unfold held.
  erewrite listing_eq;
    [| apply listing_insert; [apply listing_is_listing | apply seq_key_prefix | by eapply held_fresh]].
  apply insert_by_Forall2; [|done..]. intros y e (Huy & Hk & _) _.
  unfold seq_leb, entry_leb. simpl. by rewrite Hk, seq_key_leb.
Qed.

Lemma held_delete l m n :
  held l m -> u_ok 64 n ->
  held (filter (fun x => seq x <> n) l) (delete (seq_key prefix n) m).
Proof using.
  intros Hh Hn. unfold held.
  rewrite (listing_eq _ _ _ (listing_delete _ _ _ (seq_key prefix n) (listing_is_listing _ _))).
  apply filter_Forall2; [|done]. intros x e (Hu & Hk & _) _. rewrite Hk.
  split; [intros Hne Heq; by apply Hne, (seq_key_inj prefix) | congruence].
Qed.

Lemma held_update l m x p :
  held l m -> from_slice p = Ok x -> (exists y, y ∈ l /\ seq y = seq x) ->
  held ((fun y => if seq y =? seq x then x else y) <$> l) (<[seq_key prefix (seq x) := p]> m).
Proof using.
  intros Hh Hp (y & Hy & Hseq). unfold held.
  assert (Hu : u_ok 64 (seq x)) by (rewrite <- Hseq; by eapply held_u64).
  erewrite listing_eq; [| apply listing_update; [apply listing_is_listing|]].
  2: { destruct (held_lookup l m y Hh Hy) as (q & Hq & _). rewrite <- Hseq. by exists q. }
  apply Forall2_fmap. eapply Forall2_impl; [|exact Hh]. intros z e (Huz & Hk & Hd).
  destruct (Z.eqb_spec (seq z) (seq x)) as [Heq|Hne].
  - by rewrite bool_decide_true by (by rewrite Hk, Heq).
  - rewrite bool_decide_false; [done|]. rewrite Hk. intros Heq.
    by apply Hne, (seq_key_inj prefix).
Qed.

Lemma held_find l m n :
  held l m -> u_ok 64 n ->
  match find_first (fun x => seq x =? n) l with
  | Some x => x ∈ l /\ seq x = n /\
      exists p, m !! seq_key prefix n = Some p /\ from_slice p = Ok x
  | None => m !! seq_key prefix n = None
  end.
Proof using.
  intros Hh Hn. destruct (find_first _ l) as [x|] eqn:E.
  - apply find_first_Some in E as [Hin Hx%Z.eqb_eq]. subst n. split; [done|]. split; [done|].
    by eapply held_lookup.
  - eapply held_fresh; [done..|]. intros x Hin Hx. apply find_first_None in E as Hf.
    pose proof (Forall_elem _ _ _ Hf Hin) as Hne. simpl in Hne. by rewrite Hx, Z.eqb_refl in Hne.
Qed.
End held.
