(* ===== verification/Outbox.v ===== *)
(** The durable MQTT outbox: the outbox methods of [RocksEdgeRuntimeStore]
    ([crates/edge-runtime/src/local_db.rs]) and [flush_mqtt_outbox]
    ([crates/edge-runtime/src/mqtt_uplink.rs]).

    A method that takes a write lock is one atomic step; the readings of
    [Utc::now()] are arguments.  [Outbox] is the queue the store promises:
    [refines] relates every method to the step of the queue, whatever the
    database answers. *)

From Stdlib Require Import ZArith Lia.
From S2P Require Import Prelude RustStr Model BTree KvStore SeqKeys.

Open Scope string_scope.
Open Scope Z_scope.

(** ** Data *)

Record MqttPublishMessage := {
  msg_sink_id : string;
  msg_broker : string;
  msg_client_id : string;
  msg_topic : string;
  msg_qos : Z;
  msg_payload : bytes;
}.

Record MqttOutboxEntry := {
  entry_sequence : Z;
  entry_enqueued_at : DateTime;
  entry_attempts : Z;
  entry_last_error : option string;
  entry_message : MqttPublishMessage;
}.

Record MqttPublishAcknowledgement := {
  ack_sequence : Z;
  ack_acknowledged_at : DateTime;
  ack_sink_id : string;
  ack_broker : string;
  ack_client_id : string;
  ack_topic : string;
  ack_qos : Z;
  ack_payload_bytes : Z;
}.

Record MqttOutboxStats := {
  pending_messages : Z;
  oldest_message_age_seconds : Z;
}.

Definition MQTT_OUTBOX_PREFIX : string := "mqtt-outbox/".
Definition MQTT_OUTBOX_SEQUENCE_KEY : string := "mqtt-outbox-sequence".
Definition MQTT_ACK_PREFIX : string := "mqtt-ack/".
Definition MQTT_ACK_COUNT_KEY : string := "mqtt-ack-count".
Definition MQTT_ACK_RETENTION : Z := 1000.

Definition mqtt_outbox_key (sequence : Z) : string := seq_key MQTT_OUTBOX_PREFIX sequence.
Definition mqtt_ack_key (sequence : Z) : string := seq_key MQTT_ACK_PREFIX sequence.

(** [value.as_slice().try_into().map(u64::from_be_bytes)]. *)
Definition u64_from_be (value : bytes) (msg : string) : Result Z :=
  if bool_decide (length value = 8%nat) then Ok (from_be_bytes value) else Err msg.

Definition u64_to_be (n : Z) : bytes := to_be_bytes 8 n.

(** [duration.num_seconds()]. *)
Definition num_seconds (a b : DateTime) : Z := Z.quot (a - b) 1000000000.

(** The entry after an attempt that failed. *)
Definition failed_entry (entry : MqttOutboxEntry) (error : string) : MqttOutboxEntry :=
  {| entry_sequence := entry_sequence entry; entry_enqueued_at := entry_enqueued_at entry;
     entry_attempts := sat_add 32 (entry_attempts entry) 1;
     entry_last_error := Some error; entry_message := entry_message entry |}.

Definition acknowledgement_of (sequence : Z) (now : DateTime) (message : MqttPublishMessage)
    : MqttPublishAcknowledgement :=
  {| ack_sequence := sequence; ack_acknowledged_at := now;
     ack_sink_id := msg_sink_id message; ack_broker := msg_broker message;
     ack_client_id := msg_client_id message; ack_topic := msg_topic message;
     ack_qos := msg_qos message; ack_payload_bytes := Z.of_nat (length (msg_payload message)) |}.

(** ** Operations *)

Section operations.
Context {D : Type} `{RocksDb D} `{JsonCodec MqttOutboxEntry} `{JsonCodec MqttPublishAcknowledgement}.

Definition next_mqtt_sequence : M D Z :=
  value ← read MQTT_OUTBOX_SEQUENCE_KEY "failed to read mqtt outbox sequence";
  current ← lift (match value with
                  | Some value => u64_from_be value "mqtt outbox sequence is invalid"
                  | None => Ok 0
                  end);
  lift (ok_or (checked_add 64 current 1) "mqtt outbox sequence is exhausted").

Definition enqueue_mqtt_message (now : DateTime) (message : MqttPublishMessage) : M D Z :=
  sequence ← next_mqtt_sequence;
  let entry := {| entry_sequence := sequence; entry_enqueued_at := now; entry_attempts := 0;
                  entry_last_error := None; entry_message := message |} in
  payload ← lift (with_context (to_vec entry) "failed to encode mqtt outbox entry");
  _ ← write [Put MQTT_OUTBOX_SEQUENCE_KEY (u64_to_be sequence); Put (mqtt_outbox_key sequence) payload]
        "failed to persist mqtt outbox entry";
  mret sequence.

Fixpoint pending_loop (limit : Z) (entries : list MqttOutboxEntry)
    (items : list (Result (string * bytes))) : Result (list MqttOutboxEntry) :=
  match items with
  | [] => Ok entries
  | item :: items =>
      '(_, payload) ← item;
      entry ← with_context (from_slice payload) "failed to decode mqtt outbox entry";
      let entries := (entries ++ [entry])%list in
      if Z.of_nat (length entries) =? limit then Ok entries else pending_loop limit entries items
  end.

Definition pending_mqtt_messages (limit : Z) : M D (list MqttOutboxEntry) :=
  items ← scan_prefix MQTT_OUTBOX_PREFIX "failed to iterate mqtt outbox";
  lift (pending_loop limit [] items).

Fixpoint count_loop (count : Z) (items : list (Result (string * bytes))) : Result Z :=
  match items with
  | [] => Ok count
  | item :: items => _ ← item; count_loop (sat_add 64 count 1) items
  end.

Definition mqtt_acknowledgement_count : M D Z :=
  value ← read MQTT_ACK_COUNT_KEY "failed to read mqtt acknowledgement count";
  match value with
  | Some value => lift (u64_from_be value "mqtt acknowledgement count is invalid")
  | None =>
      items ← scan_prefix MQTT_ACK_PREFIX "failed to count mqtt acknowledgements";
      lift (count_loop 0 items)
  end.

Definition oldest_mqtt_acknowledgement_key : M D (option string) :=
  items ← scan_prefix MQTT_ACK_PREFIX "failed to read oldest mqtt acknowledgement";
  match items with
  | [] => mret None
  | item :: _ => '(key, _) ← lift item; mret (Some key)
  end.

Definition read_entry (sequence : Z) (msg : string) : M D MqttOutboxEntry :=
  value ← read (mqtt_outbox_key sequence) msg;
  match value with
  | None => lift (bail ("mqtt outbox entry " ++ show_Z sequence ++ " does not exist"))
  | Some payload => lift (with_context (from_slice payload) "failed to decode mqtt outbox entry")
  end.

Definition acknowledge_mqtt_message (now : DateTime) (sequence : Z) : M D MqttPublishAcknowledgement :=
  entry ← read_entry sequence "failed to read acknowledged mqtt outbox entry";
  let acknowledgement := acknowledgement_of sequence now (entry_message entry) in
  acknowledgement_payload ←
    lift (with_context (to_vec acknowledgement) "failed to encode mqtt acknowledgement");
  acknowledgement_count ← mqtt_acknowledgement_count;
  oldest_key ← (if MQTT_ACK_RETENTION <=? acknowledgement_count
                then oldest_mqtt_acknowledgement_key else mret None);
  let retained_count := if MQTT_ACK_RETENTION <=? acknowledgement_count
                        then acknowledgement_count else sat_add 64 acknowledgement_count 1 in
  _ ← write ([Delete (mqtt_outbox_key sequence); Put (mqtt_ack_key sequence) acknowledgement_payload]
             ++ match oldest_key with Some key => [Delete key] | None => [] end
             ++ [Put MQTT_ACK_COUNT_KEY (u64_to_be retained_count)])%list
        "failed to persist mqtt acknowledgement";
  mret acknowledgement.

Fixpoint acknowledgement_loop (acknowledgements : list MqttPublishAcknowledgement)
    (items : list (Result (string * bytes))) : Result (list MqttPublishAcknowledgement) :=
  match items with
  | [] => Ok acknowledgements
  | item :: items =>
      '(_, payload) ← item;
      acknowledgement ← with_context (from_slice payload) "failed to decode mqtt acknowledgement";
      acknowledgement_loop (acknowledgements ++ [acknowledgement])%list items
  end.

Definition mqtt_publish_acknowledgements (limit : Z) : M D (list MqttPublishAcknowledgement) :=
  if limit =? 0 then mret []
  else
    items ← scan_prefix MQTT_ACK_PREFIX "failed to iterate mqtt acknowledgements";
    acknowledgements ← lift (acknowledgement_loop [] items);
    let len := Z.of_nat (length acknowledgements) in
    mret (if limit <? len then drop (Z.to_nat (len - limit)) acknowledgements else acknowledgements).

Definition mark_mqtt_message_failed (sequence : Z) (error : string) : M D () :=
  entry ← read_entry sequence "failed to read failed mqtt outbox entry";
  payload ← lift (with_context (to_vec (failed_entry entry error)) "failed to encode mqtt outbox entry");
  write [Put (mqtt_outbox_key sequence) payload] "failed to update failed mqtt outbox entry".

Definition mqtt_outbox_len : M D Z :=
  entries ← pending_mqtt_messages usize_max;
  mret (Z.of_nat (length entries)).

Definition mqtt_outbox_stats (now : DateTime) : M D MqttOutboxStats :=
  entries ← pending_mqtt_messages usize_max;
  mret {| pending_messages := Z.min (Z.of_nat (length entries)) (u_max 64);
          oldest_message_age_seconds :=
            match head entries with
            | Some entry => Z.max (num_seconds now (entry_enqueued_at entry)) 0
            | None => 0
            end |}.
End operations.

(** ** Publishing the queue *)

(** The trait [MqttPublisher]. *)
Class MqttPublisher (P : Type) := publish : MqttPublishMessage -> M P ().

Section flush.
Context {D P : Type} `{RocksDb D} `{JsonCodec MqttOutboxEntry} `{JsonCodec MqttPublishAcknowledgement}
        `{MqttPublisher P}.

Definition on_store {A} (m : M D A) : M (D * P) A := fun s =>
  let '(d, r) := m (fst s) in ((d, snd s), r).

Definition on_publisher {A} (m : M P A) : M (D * P) A := fun s =>
  let '(p, r) := m (snd s) in ((fst s, p), r).

(** The readings of the clock while the entries are acknowledged. *)
Context (clock : Z -> DateTime).

Fixpoint flush_loop (published : Z) (entries : list MqttOutboxEntry) : M (D * P) Z :=
  match entries with
  | [] => mret published
  | entry :: entries => fun s =>
      match on_publisher (publish (entry_message entry)) s with
      | (s, Ok ()) =>
          (_ ← on_store (acknowledge_mqtt_message (clock (entry_sequence entry)) (entry_sequence entry));
           flush_loop (published + 1) entries) s
      | (s, Err error) =>
          (_ ← on_store (mark_mqtt_message_failed (entry_sequence entry) error);
           lift (Err ("failed to publish queued mqtt message " ++ show_Z (entry_sequence entry)
                      ++ " to " ++ msg_topic (entry_message entry)))) s
      | (s, Panic error) => (s, Panic error)
      end
  end.

Definition flush_mqtt_outbox : M (D * P) Z :=
  entries ← on_store (pending_mqtt_messages usize_max);
  flush_loop 0 entries.
End flush.

(** ** The queue *)

Record Outbox := {
  last_sequence : Z;
  pending : list MqttOutboxEntry;
  acknowledged : list MqttPublishAcknowledgement;
}.

Module Queue.

Definition enqueue (now : DateTime) (message : MqttPublishMessage) : M Outbox Z := fun o =>
  if last_sequence o =? u_max 64 then (o, Err "mqtt outbox sequence is exhausted")
  else
    let sequence := last_sequence o + 1 in
    let entry := {| entry_sequence := sequence; entry_enqueued_at := now; entry_attempts := 0;
                    entry_last_error := None; entry_message := message |} in
    ({| last_sequence := sequence; pending := (pending o ++ [entry])%list;
        acknowledged := acknowledged o |}, Ok sequence).

Definition find (sequence : Z) (o : Outbox) : option MqttOutboxEntry :=
  find_first (fun e => entry_sequence e =? sequence) (pending o).

Definition missing (sequence : Z) : string :=
  "mqtt outbox entry " ++ show_Z sequence ++ " does not exist".

(** An acknowledged entry leaves the queue; of the acknowledgements the oldest
    goes when there are already as many as are retained. *)
Definition acknowledge (now : DateTime) (sequence : Z) : M Outbox MqttPublishAcknowledgement := fun o =>
  match find sequence o with
  | None => (o, Err (missing sequence))
  | Some entry =>
      let ack := acknowledgement_of sequence now (entry_message entry) in
      let kept := if MQTT_ACK_RETENTION <=? Z.of_nat (length (acknowledged o))
                  then tail (acknowledged o) else acknowledged o in
      ({| last_sequence := last_sequence o;
          pending := filter (fun e => entry_sequence e <> sequence) (pending o);
          acknowledged := insert_by (seq_leb ack_sequence) ack kept |}, Ok ack)
  end.

Definition mark_failed (sequence : Z) (error : string) : M Outbox () := fun o =>
  match find sequence o with
  | None => (o, Err (missing sequence))
  | Some entry =>
      ({| last_sequence := last_sequence o;
          pending := (fun e => if entry_sequence e =? sequence then failed_entry e error else e)
                       <$> pending o;
          acknowledged := acknowledged o |}, Ok ())
  end.

(** A limit of zero is no limit. *)
Definition bounded {A} (limit : Z) (l : list A) : list A :=
  if limit =? 0 then l else take (Z.to_nat limit) l.

Definition list_pending (limit : Z) : M Outbox (list MqttOutboxEntry) :=
  gets (fun o => bounded limit (pending o)).

(** The [limit] most recent ones. *)
Definition list_acknowledged (limit : Z) : M Outbox (list MqttPublishAcknowledgement) :=
  gets (fun o => drop (length (acknowledged o) - Z.to_nat limit) (acknowledged o)).

Definition len : M Outbox Z := gets (fun o => Z.of_nat (length (pending o))).

Definition stats (now : DateTime) : M Outbox MqttOutboxStats := gets (fun o =>
  {| pending_messages := Z.of_nat (length (pending o));
     oldest_message_age_seconds :=
       match head (pending o) with
       | Some entry => Z.max (num_seconds now (entry_enqueued_at entry)) 0
       | None => 0
       end |}).
End Queue.

(** *** Calls *)

Inductive OutboxCall :=
| Enqueue (now : DateTime) (message : MqttPublishMessage)
| Acknowledge (now : DateTime) (sequence : Z)
| MarkFailed (sequence : Z) (error : string)
| ListPending (limit : Z)
| ListAcknowledged (limit : Z)
| Len
| Stats (now : DateTime).

Inductive OutboxAnswer :=
| ASequence (sequence : Z)
| AAcknowledged (ack : MqttPublishAcknowledgement)
| AMarked
| AEntries (entries : list MqttOutboxEntry)
| AAcknowledgements (acks : list MqttPublishAcknowledgement)
| ALen (n : Z)
| AStats (stats : MqttOutboxStats).

(** [sequence: u64], [limit: usize]. *)
Definition call_ok (c : OutboxCall) : Prop :=
  match c with
  | Acknowledge _ sequence | MarkFailed sequence _ => u_ok 64 sequence
  | ListPending limit | ListAcknowledged limit => u_ok 64 limit
  | Enqueue _ _ | Len | Stats _ => True
  end.

Definition answer {S A} (m : M S A) (f : A -> OutboxAnswer) : M S OutboxAnswer :=
  a ← m; mret (f a).

Definition run_call {D} `{RocksDb D} `{JsonCodec MqttOutboxEntry} `{JsonCodec MqttPublishAcknowledgement}
    (c : OutboxCall) : M D OutboxAnswer :=
  match c with
  | Enqueue now message => answer (enqueue_mqtt_message now message) ASequence
  | Acknowledge now sequence => answer (acknowledge_mqtt_message now sequence) AAcknowledged
  | MarkFailed sequence error => answer (mark_mqtt_message_failed sequence error) (fun _ => AMarked)
  | ListPending limit => answer (pending_mqtt_messages limit) AEntries
  | ListAcknowledged limit => answer (mqtt_publish_acknowledgements limit) AAcknowledgements
  | Len => answer mqtt_outbox_len ALen
  | Stats now => answer (mqtt_outbox_stats now) AStats
  end.

Definition queue_call (c : OutboxCall) : M Outbox OutboxAnswer :=
  match c with
  | Enqueue now message => answer (Queue.enqueue now message) ASequence
  | Acknowledge now sequence => answer (Queue.acknowledge now sequence) AAcknowledged
  | MarkFailed sequence error => answer (Queue.mark_failed sequence error) (fun _ => AMarked)
  | ListPending limit => answer (Queue.list_pending limit) AEntries
  | ListAcknowledged limit => answer (Queue.list_acknowledged limit) AAcknowledgements
  | Len => answer Queue.len ALen
  | Stats now => answer (Queue.stats now) AStats
  end.

(** The calls one after another, with their answers. *)
Fixpoint run_calls {S} (call : OutboxCall -> M S OutboxAnswer) (cs : list OutboxCall) (s : S)
    : S * list (Result OutboxAnswer) :=
  match cs with
  | [] => (s, [])
  | c :: cs =>
      let '(s, r) := call c s in
      let '(s, rs) := run_calls call cs s in (s, r :: rs)
  end.

Definition empty_outbox : Outbox := {| last_sequence := 0; pending := []; acknowledged := [] |}.

(** ** Refinement *)

Section refinement.
Context {D : Type} `{RocksDbLaws D}
        `{JsonRoundTrip MqttOutboxEntry (fun _ => True)}
        `{JsonRoundTrip MqttPublishAcknowledgement (fun _ => True)}.

(** The contents [m] of the database represent the queue [o]. *)
Record sim (m : gmap string bytes) (o : Outbox) : Prop := {
  sim_u64 : u_ok 64 (last_sequence o);
  sim_sequence : match m !! MQTT_OUTBOX_SEQUENCE_KEY with
                 | Some v => u64_from_be v "" = Ok (last_sequence o)
                 | None => last_sequence o = 0
                 end;
  sim_pending : held MQTT_OUTBOX_PREFIX entry_sequence (pending o) m;
  sim_acknowledged : held MQTT_ACK_PREFIX ack_sequence (acknowledged o) m;
  sim_issued : Forall (fun e => 1 <= entry_sequence e <= last_sequence o) (pending o);
  sim_acked_issued : Forall (fun a => ack_sequence a <= last_sequence o) (acknowledged o);
  sim_disjoint : forall e a, e ∈ pending o -> a ∈ acknowledged o -> entry_sequence e <> ack_sequence a;
  sim_count : match m !! MQTT_ACK_COUNT_KEY with
              | Some v => u64_from_be v "" = Ok (Z.of_nat (length (acknowledged o)))
              | None => True
              end;
  sim_count_u64 : u_ok 64 (Z.of_nat (length (acknowledged o)));
}.

(** What a method may do: the step of the queue or, when the database fails, an
    error that leaves the queue as it was or as after the step. *)
Definition outcome {A} (d : D) (o : Outbox) (res : D * Result A) (res' : Outbox * Result A) : Prop :=
  (sim (db_contents (fst res)) (fst res') /\ snd res = snd res' /\
   (db_healthy d -> db_healthy (fst res))) \/
  (~ db_healthy d /\ (exists e, snd res = Err e) /\
   (sim (db_contents (fst res)) o \/ sim (db_contents (fst res)) (fst res'))).

Definition refines {A} (impl : M D A) (spec : M Outbox A) : Prop :=
  forall d o, sim (db_contents d) o -> outcome d o (impl d) (spec o).

Lemma outcome_fault {A} d o e (res' : Outbox * Result A) :
  ~ db_healthy d -> sim (db_contents d) o -> outcome d o (d, Err e) res'.
Proof using Type*. intros Hbad Hsim. right. split; [done|]. split; [eauto | by left]. Qed.

Lemma outcome_same {A} d o (r : Result A) :
  sim (db_contents d) o -> outcome d o (d, r) (o, r).
Proof using Type*. intros Hsim. by left. Qed.

(** A batch followed by a value. *)
Lemma outcome_write {A} d o o' ops msg (a : A) :
  sim (db_contents d) o -> sim (apply_batch ops (db_contents d)) o' ->
  outcome d o ((write ops msg ≫= fun _ => mret a) d) (o', Ok a).
Proof using Type*.
  intros Hsim Hsim'. rewrite M_bind_eq. pose proof (write_spec ops msg d) as Hw.
  pose proof (db_write_healthy ops d) as Hh. unfold write, m_context in *.
  destruct (db_write ops d) as [d' r]. simpl in *.
  destruct Hw as [[-> Hc] | (Hbad & -> & Hc)].
  - left. simpl. by rewrite Hc.
  - right. simpl. split; [done|]. split; [eauto|]. destruct Hc as [-> | ->]; [by left | by right].
Qed.

Lemma bind_mret_unit (m : M D ()) d : (m ≫= fun _ => mret ()) d = m d.
Proof using. rewrite M_bind_eq. destruct (m d) as [d' [[]|e|e]]; done. Qed.

Lemma outcome_reads {A B} d o (m : M D A) (f : A -> M D B) a res' :
  sim (db_contents d) o -> reads m d (Ok a) -> outcome d o (f a d) res' ->
  outcome d o ((m ≫= f) d) res'.
Proof using Type*.
  intros Hsim [Hm|(Hbad & e & Hm)] Hf; rewrite M_bind_eq, Hm; [done | by apply outcome_fault].
Qed.

Lemma outcome_reads_Err {A B} d o (m : M D A) (f : A -> M D B) e :
  sim (db_contents d) o -> reads m d (Err e) -> outcome d o ((m ≫= f) d) (o, Err e).
Proof using Type*.
  intros Hsim [Hm|(Hbad & e' & Hm)]; rewrite M_bind_eq, Hm;
    [by apply outcome_same | by apply outcome_fault].
Qed.

Lemma refines_reads {A} (m : M D A) (f : Outbox -> A) :
  (forall d o, sim (db_contents d) o -> reads m d (Ok (f o))) -> refines m (gets f).
Proof using Type*.
  intros Hm d o Hsim. destruct (Hm d o Hsim) as [-> | (Hbad & e & ->)];
    [by apply outcome_same | by apply outcome_fault].
Qed.

Lemma u64_from_to_be n msg : u_ok 64 n -> u64_from_be (u64_to_be n) msg = Ok n.
Proof using.
  intros Hn. unfold u64_from_be, u64_to_be.
  rewrite bool_decide_true by apply length_to_be_bytes.
  rewrite from_be_to_be; [done|]. exact Hn.
Qed.

Lemma u64_from_be_msg v msg n : u64_from_be v "" = Ok n -> u64_from_be v msg = Ok n.
Proof using. unfold u64_from_be. by case_bool_decide. Qed.

Lemma next_mqtt_sequence_reads d o :
  sim (db_contents d) o ->
  reads next_mqtt_sequence d
    (if last_sequence o =? u_max 64 then Err "mqtt outbox sequence is exhausted"
     else Ok (last_sequence o + 1)).
Proof using Type*.
  intros Hsim. pose proof (sim_sequence _ _ Hsim) as Hseq. pose proof (sim_u64 _ _ Hsim) as Hu.
  unfold next_mqtt_sequence. eapply reads_bind; [apply reads_read|].
  eapply (reads_bind _ _ _ (last_sequence o)).
  { destruct (_ !! _) as [v|]; [|by rewrite Hseq; left].
    rewrite (u64_from_be_msg _ _ _ Hseq). apply reads_lift. }
  left. unfold lift, checked_add. unfold u_ok, u_max in *.
  destruct (Z.eqb_spec (last_sequence o) (2 ^ 64 - 1)), (Z.leb_spec (last_sequence o + 1) (2 ^ 64 - 1));
    try lia; done.
Qed.

(** *** Listings *)

Lemma pending_loop_spec limit acc l kvs items :
  Forall2 (stored MQTT_OUTBOX_PREFIX entry_sequence) l kvs ->
  limit = 0 \/ Z.of_nat (length acc) < limit ->
  pending_loop limit acc ((Ok <$> kvs) ++ items)%list =
  if (0 <? limit) && (limit <=? Z.of_nat (length acc + length l))
  then Ok (acc ++ take (Z.to_nat limit - length acc) l)%list
  else pending_loop limit (acc ++ l)%list items.
Proof using.
  intros Hl. revert acc. induction Hl as [|x [k p] l kvs (_ & _ & Hd) Hl IH]; intros acc Hacc.
  { rewrite app_nil_r. simpl length. rewrite Nat.add_0_r.
    destruct (Z.ltb_spec 0 limit), (Z.leb_spec limit (Z.of_nat (length acc))); done || lia. }
  simpl in Hd. cbn [pending_loop fmap list_fmap app mbind Result_bind length]. rewrite Hd. cbn [with_context mbind Result_bind].
  rewrite length_app. cbn [length].
  destruct (Z.eqb_spec (Z.of_nat (length acc + 1)) limit) as [Heq|Hne].
  - rewrite (proj2 (Z.ltb_lt _ _)), (proj2 (Z.leb_le _ _)) by lia. cbn [andb].
    by replace (Z.to_nat limit - length acc)%nat with 1%nat by lia.
  - rewrite IH by (rewrite length_app; simpl; lia). rewrite length_app, <- !app_assoc. cbn [length app].
    replace (length acc + 1 + length l)%nat with (length acc + S (length l))%nat by lia.
    destruct (Z.ltb_spec 0 limit); [|done].
    destruct (Z.leb_spec limit (Z.of_nat (length acc + S (length l)))); [|done]. cbn [andb].
    by replace (Z.to_nat limit - length acc)%nat with (S (Z.to_nat limit - (length acc + 1)))%nat by lia.
Qed.

Lemma pending_reads limit d o :
  sim (db_contents d) o -> 0 <= limit ->
  reads (pending_mqtt_messages limit) d (Ok (Queue.bounded limit (pending o))).
Proof using Type*.
  intros Hsim Hlimit. pose proof (sim_pending _ _ Hsim) as Hh. unfold held in Hh.
  unfold Queue.bounded. apply reads_scan.
  - rewrite <- (app_nil_r (Ok <$> _)).
    rewrite (pending_loop_spec _ _ _ _ _ Hh) by (simpl; lia). cbn [app length pending_loop].
    destruct (Z.eqb_spec limit 0) as [->|Hne]; [done|].
    rewrite Nat.sub_0_r. destruct (Z.ltb_spec 0 limit); [|lia]. cbn [andb].
    destruct (Z.leb_spec limit (Z.of_nat (0 + length (pending o)))); [done|].
    by rewrite take_ge by lia.
  - intros k. rewrite (pending_loop_spec limit [] (take k (pending o))) by
      (simpl; first [lia | by apply Forall2_take]).
    destruct (Z.ltb_spec 0 limit); [|right; eexists; by simpl]. cbn [andb].
    destruct (Z.leb_spec limit (Z.of_nat (length (@nil MqttOutboxEntry) + length (take k (pending o)))));
      [|right; by eexists].
    left. cbn [app length] in *. rewrite Nat.sub_0_r, take_take.
    rewrite length_take in *. destruct (Z.eqb_spec limit 0); [lia|]. do 2 f_equal. lia.
Qed.

Lemma acknowledgement_loop_spec acc l kvs items :
  Forall2 (stored MQTT_ACK_PREFIX ack_sequence) l kvs ->
  acknowledgement_loop acc ((Ok <$> kvs) ++ items)%list = acknowledgement_loop (acc ++ l)%list items.
Proof using.
  intros Hl. revert acc. induction Hl as [|x [k p] l kvs (_ & _ & Hd) Hl IH]; intros acc.
  { by rewrite app_nil_r. }
  simpl in Hd. cbn [acknowledgement_loop fmap list_fmap app mbind Result_bind].
  rewrite Hd. cbn [with_context mbind Result_bind]. by rewrite IH, <- app_assoc.
Qed.

Lemma acknowledgements_reads limit d o :
  sim (db_contents d) o -> 0 <= limit ->
  reads (mqtt_publish_acknowledgements limit) d
    (Ok (drop (length (acknowledged o) - Z.to_nat limit) (acknowledged o))).
Proof using Type*.
  intros Hsim Hlimit. pose proof (sim_acknowledged _ _ Hsim) as Hh. unfold held in Hh.
  unfold mqtt_publish_acknowledgements. destruct (Z.eqb_spec limit 0) as [->|Hne].
  { left. by rewrite drop_ge by lia. }
  unfold reads. rewrite M_bind_eq.
  destruct (scan_spec MQTT_ACK_PREFIX "failed to iterate mqtt acknowledgements" d) as [-> | (Hbad & k & ->)].
  - left. rewrite <- (app_nil_r (Ok <$> _)), M_bind_eq. unfold lift.
    rewrite (acknowledgement_loop_spec _ _ _ _ Hh). cbn [app acknowledgement_loop].
    destruct (Z.ltb_spec limit (Z.of_nat (length (acknowledged o)))).
    + by replace (Z.to_nat (Z.of_nat (length (acknowledged o)) - limit))
        with (length (acknowledged o) - Z.to_nat limit)%nat by lia.
    + by replace (length (acknowledged o) - Z.to_nat limit)%nat with O by lia.
  - right. split; [done|]. rewrite M_bind_eq. unfold lift.
    rewrite (acknowledgement_loop_spec _ (take k (acknowledged o))) by by apply Forall2_take.
    by eexists.
Qed.

Lemma count_loop_spec count kvs items :
  u_ok 64 (count + Z.of_nat (length kvs)) -> 0 <= count ->
  count_loop count ((Ok <$> kvs) ++ items)%list = count_loop (count + Z.of_nat (length kvs)) items.
Proof using.
  revert count. induction kvs as [|e kvs IH]; intros count Hu Hc; cbn [length] in *; [by rewrite Z.add_0_r|].
  cbn [count_loop fmap list_fmap app mbind Result_bind].
  assert (Hone : sat_add 64 count 1 = count + 1) by (unfold sat_add, u_ok, u_max in *; lia).
  rewrite Hone, IH; [f_equal; lia | unfold u_ok in *; lia | lia].
Qed.

Lemma acknowledgement_count_reads d o :
  sim (db_contents d) o ->
  reads mqtt_acknowledgement_count d (Ok (Z.of_nat (length (acknowledged o)))).
Proof using Type*.
  intros Hsim. pose proof (sim_count _ _ Hsim) as Hc. pose proof (sim_count_u64 _ _ Hsim) as Hu.
  pose proof (Forall2_length (sim_acknowledged _ _ Hsim)) as Hlen.
  unfold mqtt_acknowledgement_count. eapply reads_bind; [apply reads_read|].
  destruct (_ !! _) as [v|].
  { rewrite (u64_from_be_msg _ _ _ Hc). apply reads_lift. }
  apply reads_scan.
  - rewrite <- (app_nil_r (Ok <$> _)), count_loop_spec, <- Hlen by (rewrite <- ?Hlen; done || lia).
    done.
  - intros k. right. rewrite count_loop_spec; [by eexists | | lia].
    rewrite length_take, <- Hlen. unfold u_ok in *. lia.
Qed.

Lemma oldest_key_reads d o :
  sim (db_contents d) o ->
  reads oldest_mqtt_acknowledgement_key d
    (Ok ((fun a => mqtt_ack_key (ack_sequence a)) <$> head (acknowledged o))).
Proof using Type*.
  intros Hsim. pose proof (sim_acknowledged _ _ Hsim) as Hh. unfold held in Hh.
  unfold reads, oldest_mqtt_acknowledgement_key. rewrite M_bind_eq.
  destruct (scan_spec MQTT_ACK_PREFIX "failed to read oldest mqtt acknowledgement" d)
    as [-> | (Hbad & k & ->)].
  - left. destruct Hh as [|a [k p] l kvs (_ & Hk & _) _]; [done|]. simpl in Hk. by subst k.
  - destruct Hh as [|a [k' p] l kvs (_ & Hk & _) _]; [right; rewrite take_nil; eauto|].
    destruct k as [|k]; [right; eauto|]. left. simpl in Hk. by subst k'.
Qed.

Lemma read_entry_reads sequence msg d o :
  sim (db_contents d) o -> u_ok 64 sequence ->
  reads (read_entry sequence msg) d
    (match Queue.find sequence o with
     | Some e => Ok e
     | None => Err (Queue.missing sequence)
     end).
Proof using Type*.
  intros Hsim Hu. pose proof (held_find _ _ _ _ sequence (sim_pending _ _ Hsim) Hu) as Hf.
  unfold read_entry. eapply reads_bind; [apply reads_read|]. unfold mqtt_outbox_key, Queue.find.
  destruct (find_first _ _) as [e|].
  - destruct Hf as (_ & _ & p & -> & Hp). rewrite Hp. apply reads_lift.
  - rewrite Hf. apply reads_lift.
Qed.

(** *** The steps *)

(** The keys of one group do not have the prefix of another. *)
Ltac key_tac :=
  unfold mqtt_outbox_key, mqtt_ack_key;
  first [ apply seq_key_prefix
        | unfold has_prefix, starts_with, seq_key; rewrite ?str_bytes_app; reflexivity ].

Lemma key_ne prefix a b : has_prefix prefix a = true -> has_prefix prefix b = false -> a <> b.
Proof using. congruence. Qed.

Lemma held_put_other {T} `{JsonCodec T} prefix (seq : T -> Z) l m key v :
  has_prefix prefix key = false -> held prefix seq l m -> held prefix seq l (<[key := v]> m).
Proof using. intros Hp Hh. apply (held_other prefix seq l m key (Put key v)); eauto. Qed.

Lemma held_delete_other {T} `{JsonCodec T} prefix (seq : T -> Z) l m key :
  has_prefix prefix key = false -> held prefix seq l m -> held prefix seq l (delete key m).
Proof using. intros Hp Hh. apply (held_other prefix seq l m key (Delete key)); eauto. Qed.

Lemma outbox_key_ne n : mqtt_outbox_key n <> MQTT_OUTBOX_SEQUENCE_KEY /\ mqtt_outbox_key n <> MQTT_ACK_COUNT_KEY.
Proof using. split; apply (key_ne MQTT_OUTBOX_PREFIX); key_tac. Qed.

Lemma ack_key_ne n : mqtt_ack_key n <> MQTT_OUTBOX_SEQUENCE_KEY /\ mqtt_ack_key n <> MQTT_ACK_COUNT_KEY.
Proof using. split; apply (key_ne MQTT_ACK_PREFIX); key_tac. Qed.

Lemma sim_enqueue m o now message p :
  let sequence := last_sequence o + 1 in
  let entry := {| entry_sequence := sequence; entry_enqueued_at := now; entry_attempts := 0;
                  entry_last_error := None; entry_message := message |} in
  sim m o -> u_ok 64 sequence -> from_slice p = Ok entry ->
  sim (<[mqtt_outbox_key sequence := p]> (<[MQTT_OUTBOX_SEQUENCE_KEY := u64_to_be sequence]> m))
    {| last_sequence := sequence; pending := (pending o ++ [entry])%list;
       acknowledged := acknowledged o |}.
Proof using.
  intros sequence entry Hsim Hu Hp. destruct (outbox_key_ne sequence) as [Hne1 Hne2].
  pose proof (sim_issued _ _ Hsim) as Hissued.
  assert (Hold : forall e, e ∈ pending o -> 1 <= entry_sequence e < sequence).
  { intros e He. pose proof (Forall_elem _ _ _ Hissued He). simpl in *. unfold sequence. lia. }
  constructor; cbn [last_sequence pending acknowledged].
  - done.
  - rewrite lookup_insert_ne, lookup_insert_eq by done. by apply u64_from_to_be.
  - rewrite <- (insert_by_last (seq_leb entry_sequence) entry (pending o)).
    + apply (held_put MQTT_OUTBOX_PREFIX entry_sequence _ _ entry); [|done..|].
      * apply held_put_other; [key_tac | apply Hsim].
      * intros y Hy Heq. specialize (Hold y Hy). simpl in Heq. lia.
    + apply list.Forall_forall. intros e He. specialize (Hold e He). unfold seq_leb. simpl.
      apply Z.leb_gt. lia.
  - do 2 (apply held_put_other; [key_tac|]). apply Hsim.
  - apply Forall_app. split; [|apply Forall_singleton; simpl; pose proof (sim_u64 _ _ Hsim); unfold u_ok in *; lia].
    eapply Forall_impl; [|exact Hissued]. intros e He. simpl in *. unfold sequence. lia.
  - eapply Forall_impl; [|apply Hsim]. intros a Ha. simpl in *. unfold sequence. lia.
  - intros e a [He | ->%list_elem_of_singleton]%elem_of_app Ha; [by apply Hsim|].
    pose proof (Forall_elem _ _ _ (sim_acked_issued _ _ Hsim) Ha). simpl in *. unfold sequence. lia.
  - rewrite !lookup_insert_ne by done. apply Hsim.
  - apply Hsim.
Qed.

Lemma enqueue_refines now message :
  refines (enqueue_mqtt_message now message) (Queue.enqueue now message).
Proof using Type*.
  intros d o Hsim. pose proof (next_mqtt_sequence_reads d o Hsim) as Hnext.
  pose proof (sim_u64 _ _ Hsim) as Hu.
  unfold enqueue_mqtt_message, Queue.enqueue. destruct (Z.eqb_spec (last_sequence o) (u_max 64)).
  { by apply outcome_reads_Err. }
  eapply outcome_reads; [done..|].
  set (entry := {| entry_sequence := _; entry_enqueued_at := now; entry_attempts := 0;
                   entry_last_error := None; entry_message := message |}).
  destruct (json_round_trip (storable := fun _ => True) entry I) as (p & Hp & Hd).
  rewrite lift_bind, Hp. cbn [with_context]. apply outcome_write; [done|].
  apply sim_enqueue; [done | | done]. unfold u_ok, u_max in *. lia.
Qed.

Lemma fmap_if_eq {A} (f : A -> A) (key : A -> Z) n (l : list A) x :
  (forall y, y ∈ l -> key y = n -> f y = x) ->
  (fun y => if key y =? n then x else y) <$> l = (fun y => if key y =? n then f y else y) <$> l.
Proof using.
  intros Hf. apply list_fmap_ext. intros i y Hy%list_elem_of_lookup_2.
  destruct (Z.eqb_spec (key y) n) as [Heq|]; [by rewrite Hf|done].
Qed.

Lemma find_unique m o sequence e :
  sim m o -> Queue.find sequence o = Some e ->
  e ∈ pending o /\ entry_sequence e = sequence /\
  forall y, y ∈ pending o -> entry_sequence y = sequence -> y = e.
Proof using.
  intros Hsim [He Hs%Z.eqb_eq]%find_first_Some. split; [done|]. split; [done|].
  intros y Hy Heq. eapply held_inj; [apply Hsim | done..|]. by rewrite Heq.
Qed.

Lemma mark_failed_refines sequence error :
  u_ok 64 sequence ->
  refines (mark_mqtt_message_failed sequence error) (Queue.mark_failed sequence error).
Proof using Type*.
  intros Hu d o Hsim.
  pose proof (read_entry_reads sequence "failed to read failed mqtt outbox entry" d o Hsim Hu) as Hread.
  unfold mark_mqtt_message_failed, Queue.mark_failed.
  destruct (Queue.find sequence o) as [e|] eqn:Ef; [|by apply outcome_reads_Err].
  destruct (find_unique _ _ _ _ Hsim Ef) as (He & <- & Huniq).
  eapply outcome_reads; [done..|].
  destruct (json_round_trip (storable := fun _ => True) (failed_entry e error) I) as (p & Hp & Hd).
  rewrite lift_bind, Hp. cbn [with_context]. rewrite <- bind_mret_unit. apply outcome_write; [done|].
  assert (Hin : forall e', e' ∈ (fun y => if entry_sequence y =? entry_sequence e then failed_entry y error else y)
                  <$> pending o -> exists y, y ∈ pending o /\ entry_sequence e' = entry_sequence y).
  { intros e' (y & -> & Hy)%list_elem_of_fmap. exists y. split; [done|]. by destruct (_ =? _). }
  destruct (outbox_key_ne (entry_sequence e)) as [Hne1 Hne2].
  constructor; cbn [last_sequence pending acknowledged apply_batch fold_left apply_op].
  - apply Hsim.
  - rewrite lookup_insert_ne by done. apply Hsim.
  - rewrite <- (fmap_if_eq (fun y => failed_entry y error) entry_sequence (entry_sequence e) (pending o)
                  (failed_entry e error)) by (intros y Hy Heq; by rewrite (Huniq y)).
    apply (held_update MQTT_OUTBOX_PREFIX entry_sequence _ _ (failed_entry e error));
      [apply Hsim | done | by exists e].
  - apply held_put_other; [key_tac | apply Hsim].
  - apply list.Forall_forall. intros e' (y & Hy & ->)%Hin. exact (Forall_elem _ _ _ (sim_issued _ _ Hsim) Hy).
  - apply Hsim.
  - intros e' a (y & Hy & ->)%Hin Ha. by apply Hsim.
  - rewrite lookup_insert_ne by done. apply Hsim.
  - apply Hsim.
Qed.

(** The acknowledgement [ack] is added to the [kept] ones. *)
Lemma sim_acknowledge m m1 o kept ack p :
  sim m o -> u_ok 64 (ack_sequence ack) -> ack_sequence ack <= last_sequence o ->
  from_slice p = Ok ack ->
  (forall a, a ∈ acknowledged o -> ack_sequence a <> ack_sequence ack) ->
  (forall a, a ∈ kept -> a ∈ acknowledged o) ->
  held MQTT_ACK_PREFIX ack_sequence kept m1 ->
  held MQTT_OUTBOX_PREFIX entry_sequence
    (filter (fun e => entry_sequence e <> ack_sequence ack) (pending o)) m1 ->
  m1 !! MQTT_OUTBOX_SEQUENCE_KEY = m !! MQTT_OUTBOX_SEQUENCE_KEY ->
  u_ok 64 (Z.of_nat (S (length kept))) ->
  sim (<[MQTT_ACK_COUNT_KEY := u64_to_be (Z.of_nat (S (length kept)))]>
        (<[mqtt_ack_key (ack_sequence ack) := p]> m1))
    {| last_sequence := last_sequence o;
       pending := filter (fun e => entry_sequence e <> ack_sequence ack) (pending o);
       acknowledged := insert_by (seq_leb ack_sequence) ack kept |}.
Proof using.
  intros Hsim Hu Hle Hp Hfresh Hkept Hacks Hpending Hseq Hlen.
  destruct (ack_key_ne (ack_sequence ack)) as [Hne1 Hne2].
  assert (Hperm : insert_by (seq_leb ack_sequence) ack kept ≡ₚ ack :: kept) by apply insert_by_perm.
  constructor; cbn [last_sequence pending acknowledged]; rewrite ?Hperm.
  - apply Hsim.
  - rewrite !lookup_insert_ne, Hseq by done. apply Hsim.
  - do 2 (apply held_put_other; [key_tac|]). done.
  - apply held_put_other; [key_tac|]. apply held_put; [done..|].
    intros y Hy. by apply Hfresh, Hkept.
  - apply list.Forall_forall. intros e [_ He]%list_elem_of_filter.
    exact (Forall_elem _ _ _ (sim_issued _ _ Hsim) He).
  - constructor; [done|]. apply list.Forall_forall. intros a Ha.
    exact (Forall_elem _ _ _ (sim_acked_issued _ _ Hsim) (Hkept a Ha)).
  - intros e a [Hne He]%list_elem_of_filter. rewrite Hperm.
    intros [-> | Ha]%elem_of_cons; [done|]. by apply Hsim; [|apply Hkept].
  - rewrite lookup_insert_eq, Hperm. by apply u64_from_to_be.
  - done.
Qed.

Lemma held_tail {T} `{JsonCodec T} prefix (seq : T -> Z) x l m :
  held prefix seq (x :: l) m -> held prefix seq l (delete (seq_key prefix (seq x)) m).
Proof using.
  intros Hh. pose proof (held_sorted _ _ _ _ Hh) as [_ Hall]%StronglySorted_inv.
  pose proof (held_u64 _ _ _ _ x Hh ltac:(by left)) as Hu.
  pose proof (held_delete _ _ _ _ _ Hh Hu) as Hd. rewrite filter_cons_False in Hd by tauto.
  rewrite filter_all in Hd; [done|]. intros y Hy.
  pose proof (Forall_elem _ _ _ Hall Hy). simpl in *. lia.
Qed.

(** The acknowledged entry was issued and had no acknowledgement yet. *)
Lemma pending_not_acked m o e :
  sim m o -> e ∈ pending o ->
  entry_sequence e <= last_sequence o /\
  forall a, a ∈ acknowledged o -> ack_sequence a <> entry_sequence e.
Proof using.
  intros Hsim He. split; [apply (Forall_elem _ _ _ (sim_issued _ _ Hsim) He)|].
  intros a Ha Heq. by apply (sim_disjoint _ _ Hsim e a He Ha).
Qed.

Lemma acknowledge_refines now sequence :
  u_ok 64 sequence -> refines (acknowledge_mqtt_message now sequence) (Queue.acknowledge now sequence).
Proof using Type*.
  intros Hu d o Hsim.
  pose proof (read_entry_reads sequence "failed to read acknowledged mqtt outbox entry" d o Hsim Hu) as Hread.
  unfold acknowledge_mqtt_message, Queue.acknowledge.
  destruct (Queue.find sequence o) as [e|] eqn:Ef; [|by apply outcome_reads_Err].
  destruct (find_unique _ _ _ _ Hsim Ef) as (He & Hes & _).
  destruct (pending_not_acked _ _ _ Hsim He) as [Hle Hfresh]. rewrite Hes in Hle, Hfresh.
  eapply outcome_reads; [done..|].
  set (ack := acknowledgement_of sequence now (entry_message e)).
  destruct (json_round_trip (storable := fun _ => True) ack I) as (p & Hp & Hd).
  rewrite lift_bind, Hp. cbn [with_context].
  eapply outcome_reads; [done | by apply acknowledgement_count_reads|].
  pose proof (sim_count_u64 _ _ Hsim) as Hcount.
  pose proof (held_delete _ _ _ _ sequence (sim_pending _ _ Hsim) Hu) as Hpending.
  pose proof (held_delete_other MQTT_ACK_PREFIX ack_sequence _ _ (mqtt_outbox_key sequence)
                ltac:(key_tac) (sim_acknowledged _ _ Hsim)) as Hacks.
  destruct (outbox_key_ne sequence) as [Hne1 Hne2].
  destruct (Z.leb_spec MQTT_ACK_RETENTION (Z.of_nat (length (acknowledged o)))) as [Hfull|Hroom].
  - eapply outcome_reads; [done | by apply oldest_key_reads|]. apply outcome_write; [done|].
    destruct (acknowledged o) as [|a0 tl] eqn:Ea; [done|]. cbn [head fmap option_fmap option_map app tail].
    cbn [apply_batch fold_left apply_op].
    assert (Hold : mqtt_ack_key (ack_sequence a0) <> mqtt_ack_key sequence).
    { intros Heq%seq_key_inj; [|eapply held_u64; [exact Hacks | by left] | done].
      apply (Hfresh a0); [by left | done]. }
    rewrite delete_insert_ne by congruence.
    apply (sim_acknowledge (db_contents d) _ o tl ack p); rewrite ?Ea; try done.
    + intros a Ha. by right.
    + by apply held_tail.
    + apply held_delete_other; [key_tac | done].
    + rewrite !lookup_delete_ne; [done | done | apply ack_key_ne].
  - rewrite M_bind_eq. cbn [mret M_ret]. apply outcome_write; [done|].
    cbn [app apply_batch fold_left apply_op].
    replace (sat_add 64 (Z.of_nat (length (acknowledged o))) 1)
      with (Z.of_nat (S (length (acknowledged o))))
      by (unfold sat_add, u_max, MQTT_ACK_RETENTION in *; lia).
    apply (sim_acknowledge (db_contents d) _ o (acknowledged o) ack p); try done.
    + by rewrite lookup_delete_ne.
    + unfold u_ok, MQTT_ACK_RETENTION in *. lia.
Qed.

(** *** All calls *)

Lemma strictly_sorted_length {A} (key : A -> Z) l lo hi :
  StronglySorted (fun x y => key x < key y) l -> Forall (fun x => lo <= key x <= hi) l ->
  lo <= hi + 1 -> Z.of_nat (length l) <= hi + 1 - lo.
Proof using.
  intros Hs. revert lo. induction Hs as [|x l Hs IH Hall]; intros lo Hb Hle; [simpl; lia|].
  apply Forall_cons_iff in Hb as [Hx Hb]. cbn [length].
  assert (Z.of_nat (length l) <= hi + 1 - (key x + 1)); [|lia]. apply IH; [|lia].
  apply list.Forall_forall. intros y Hy.
  pose proof (Forall_elem _ _ _ Hall Hy). pose proof (Forall_elem _ _ _ Hb Hy). simpl in *. lia.
Qed.

Lemma pending_length m o : sim m o -> Z.of_nat (length (pending o)) <= u_max 64.
Proof using.
  intros Hsim. pose proof (sim_u64 _ _ Hsim) as Hu. unfold u_ok, u_max in *.
  pose proof (strictly_sorted_length entry_sequence (pending o) 1 (last_sequence o)
    (held_sorted _ _ _ _ (sim_pending _ _ Hsim)) (sim_issued _ _ Hsim) ltac:(lia)). lia.
Qed.

Lemma all_pending_reads d o :
  sim (db_contents d) o -> reads (pending_mqtt_messages usize_max) d (Ok (pending o)).
Proof using Type*.
  intros Hsim. pose proof (pending_length _ _ Hsim) as Hlen.
  assert (Hb : pending o = Queue.bounded usize_max (pending o)).
  { unfold Queue.bounded, usize_max. rewrite take_ge by lia. by destruct (_ =? 0). }
  rewrite Hb at 1. by apply pending_reads.
Qed.

Lemma refines_answer {A} (m : M D A) (spec : M Outbox A) f :
  refines m spec -> refines (answer m f) (answer spec f).
Proof using.
  intros Hm d o Hsim. specialize (Hm d o Hsim). unfold answer. rewrite !M_bind_eq.
  destruct (m d) as [d' [a|e|e]], (spec o) as [o' [a'|e'|e']];
    destruct Hm as [(Hs & Heq & Hh) | (Hbad & [e0 He] & Hs)]; simpl in *; simplify_eq.
  all: first [by left | right; split; [done|]; split; [by eexists | done]].
Qed.

Lemma call_refines c : call_ok c -> refines (run_call c) (queue_call c).
Proof using Type*.
  destruct c as [now message|now sequence|sequence error|limit|limit| |now]; intros Hok; apply refines_answer.
  - apply enqueue_refines.
  - by apply acknowledge_refines.
  - by apply mark_failed_refines.
  - apply refines_reads. intros d o Hsim. apply pending_reads; [done | apply Hok].
  - apply refines_reads. intros d o Hsim. apply acknowledgements_reads; [done | apply Hok].
  - apply refines_reads. intros d o Hsim. eapply reads_bind; [by apply all_pending_reads | apply reads_ret].
  - apply refines_reads. intros d o Hsim. eapply reads_bind; [by apply all_pending_reads|].
    pose proof (pending_length _ _ Hsim). rewrite Z.min_l by done. apply reads_ret.
Qed.

Lemma calls_refine cs d o :
  Forall call_ok cs -> sim (db_contents d) o -> db_healthy d ->
  let res := run_calls run_call cs d in
  let res' := run_calls queue_call cs o in
  snd res = snd res' /\ sim (db_contents (fst res)) (fst res') /\ db_healthy (fst res).
Proof using Type*.
  intros Hok. revert d o. induction Hok as [|c cs Hc Hcs IH]; intros d o Hsim Hh; [done|].
  cbn [run_calls].
  destruct (call_refines c Hc d o Hsim) as [(Hs & Heq & Hh') | (Hbad & _)]; [|done].
  destruct (run_call c d) as [d' r], (queue_call c o) as [o' r']. simpl in *. subst r'.
  specialize (IH d' o' Hs (Hh' Hh)).
  destruct (run_calls run_call cs d') as [d2 rs], (run_calls queue_call cs o') as [o2 rs'].
  simpl in *. destruct IH as (-> & ? & ?). done.
Qed.

Lemma listing_empty prefix : listing prefix ∅ = [].
Proof using. unfold listing, entries. by rewrite map_to_list_empty. Qed.

Lemma sim_empty : sim ∅ empty_outbox.
Proof using.
  constructor; simpl; try done; unfold held; rewrite ?listing_empty; try constructor.
  intros e a He. by apply not_elem_of_nil in He.
Qed.
End refinement.

(** ** Nothing is lost *)

(** The sequence numbers that the enqueueing calls returned, and those that
    were acknowledged. *)
Fixpoint issued (rs : list (Result OutboxAnswer)) : list Z :=
  match rs with
  | [] => []
  | Ok (ASequence n) :: rs => n :: issued rs
  | _ :: rs => issued rs
  end.

Fixpoint acked (rs : list (Result OutboxAnswer)) : list Z :=
  match rs with
  | [] => []
  | Ok (AAcknowledged a) :: rs => ack_sequence a :: acked rs
  | _ :: rs => acked rs
  end.

Record queue_ok (o : Outbox) : Prop := {
  queue_sorted : StronglySorted Z.lt (entry_sequence <$> pending o);
  queue_bound : Forall (fun n => 1 <= n <= last_sequence o) (entry_sequence <$> pending o);
  queue_last : 0 <= last_sequence o;
  queue_retention : Z.of_nat (length (acknowledged o)) <= MQTT_ACK_RETENTION;
}.

Definition sequences (o : Outbox) : list Z := entry_sequence <$> pending o.

Lemma StronglySorted_snoc l n :
  StronglySorted Z.lt l -> Forall (fun x => x < n) l -> StronglySorted Z.lt (l ++ [n])%list.
Proof.
  induction 1 as [|x l Hs IH Hall]; intros Hb; [by repeat constructor|].
  apply Forall_cons_iff in Hb as [Hx Hb]. simpl. constructor; [by apply IH|].
  apply Forall_app. split; [done|]. by constructor.
Qed.

(** How a call changes the numbers in the queue. *)
Lemma queue_call_sequences c o :
  queue_ok o ->
  let '(o', r) := queue_call c o in
  last_sequence o <= last_sequence o' /\
  Forall (fun n => last_sequence o < n <= last_sequence o') (issued [r]) /\
  Forall (fun n => n <= last_sequence o) (acked [r]) /\
  sequences o' = filter (fun n => n ∉ acked [r]) (sequences o ++ issued [r])%list /\
  Z.of_nat (length (acknowledged o')) <= MQTT_ACK_RETENTION.
Proof.
  intros [Hs Hb Hl Hr].
  assert (Hnone : sequences o = filter (fun n => n ∉ []) (sequences o ++ [])%list).
  { rewrite app_nil_r, filter_all; [done|]. intros n _. apply not_elem_of_nil. }
  destruct c as [now message|now sequence|sequence error|limit|limit| |now]; unfold queue_call, answer;
    rewrite M_bind_eq; try (simpl; split; [lia|]; by repeat constructor).
  - unfold Queue.enqueue. destruct (Z.eqb_spec (last_sequence o) (u_max 64)).
    { simpl. split; [lia|]. by repeat constructor. }
    simpl. split; [lia|]. split; [repeat constructor; lia|]. split; [constructor|].
    split; [|done]. rewrite filter_all by (intros n' _; apply not_elem_of_nil).
    unfold sequences. simpl. by rewrite fmap_app.
  - unfold Queue.acknowledge. destruct (Queue.find sequence o) as [e|] eqn:E.
    2: { simpl. split; [lia|]. by repeat constructor. }
    apply find_first_Some in E as [He Hes%Z.eqb_eq].
    simpl. split; [lia|]. split; [constructor|].
    assert (Hn : 1 <= sequence <= last_sequence o).
    { eapply (Forall_elem _ _ _ Hb). subst sequence. by apply list_elem_of_fmap_2. }
    split; [repeat constructor; lia|]. split.
    + unfold sequences. simpl. rewrite app_nil_r, filter_fmap. f_equal. apply list_filter_iff.
      intros x. simpl. rewrite list_elem_of_singleton. done.
    + assert (Hp : forall kept, length (insert_by (seq_leb ack_sequence)
          (acknowledgement_of sequence now (entry_message e)) kept) = S (length kept))
        by (intros kept; by rewrite (insert_by_perm _ _ kept)).
      rewrite Hp. destruct (Z.leb_spec MQTT_ACK_RETENTION (Z.of_nat (length (acknowledged o)))); [|lia].
      destruct (acknowledged o); simpl in *; [unfold MQTT_ACK_RETENTION in *; lia | lia].
  - unfold Queue.mark_failed. destruct (Queue.find sequence o) as [e|] eqn:E.
    2: { simpl. split; [lia|]. by repeat constructor. }
    simpl. split; [lia|]. do 2 (split; [constructor|]). split; [|done].
    rewrite app_nil_r, filter_all by (intros n _; apply not_elem_of_nil). unfold sequences. simpl. rewrite <- list_fmap_compose.
    apply list_fmap_ext. intros i x _. simpl. by destruct (_ =? _).
Qed.

Lemma queue_call_ok c o : queue_ok o -> queue_ok (fst (queue_call c o)).
Proof.
  intros Hok. pose proof (queue_call_sequences c o Hok) as Hc.
  destruct (queue_call c o) as [o' r]. destruct Hc as (Hl & Hi & Ha & Hseq & Hret).
  destruct Hok as [Hs Hb Hlast Hr]. fold (sequences o) in Hs, Hb. simpl.
  assert (Hsorted : StronglySorted Z.lt (sequences o ++ issued [r])%list).
  { simpl in *. destruct r as [[n| | | | | |]|e|e]; rewrite ?app_nil_r; try done.
    apply Forall_cons_iff in Hi as [Hn _]. apply StronglySorted_snoc; [done|].
    eapply Forall_impl; [|exact Hb]. simpl. lia. }
  constructor; [fold (sequences o').. | lia | done]; rewrite Hseq.
  - by apply StronglySorted_filter.
  - apply list.Forall_forall. intros n [_ Hn]%list_elem_of_filter.
    apply elem_of_app in Hn as [Hn|Hn].
    + pose proof (Forall_elem _ _ _ Hb Hn). simpl in *. lia.
    + pose proof (Forall_elem _ _ _ Hi Hn). simpl in *. lia.
Qed.

Lemma issued_cons r rs : issued (r :: rs) = (issued [r] ++ issued rs)%list.
Proof. by destruct r as [[]| |]. Qed.

Lemma acked_cons r rs : acked (r :: rs) = (acked [r] ++ acked rs)%list.
Proof. by destruct r as [[]| |]. Qed.

Lemma queue_calls_sequences cs o :
  queue_ok o ->
  let '(o', rs) := run_calls queue_call cs o in
  queue_ok o' /\ Forall (fun n => last_sequence o < n) (issued rs) /\
  sequences o' = filter (fun n => n ∉ acked rs) (sequences o ++ issued rs)%list.
Proof.
  revert o. induction cs as [|c cs IH]; intros o Hok; cbn [run_calls].
  { split; [done|]. split; [constructor|]. simpl. rewrite app_nil_r, filter_all; [done|].
    intros n _. apply not_elem_of_nil. }
  pose proof (queue_call_sequences c o Hok) as Hc. pose proof (queue_call_ok c o Hok) as Hok'.
  destruct (queue_call c o) as [o1 r]. destruct Hc as (Hl & Hi & Ha & Hseq & _). simpl in Hok'.
  specialize (IH o1 Hok'). destruct (run_calls queue_call cs o1) as [o2 rs].
  destruct IH as (Hok2 & Hrs & Hseq2). rewrite issued_cons, acked_cons.
  split; [done|]. split.
  { apply Forall_app. split; [eapply Forall_impl; [|exact Hi] | eapply Forall_impl; [|exact Hrs]];
      simpl; lia. }
  rewrite Hseq2, Hseq, app_assoc, !(list.filter_app _ _ (issued rs)), list_filter_filter.
  f_equal.
  - apply list_filter_iff. intros n. rewrite not_elem_of_app. tauto.
  - apply filter_iff_elem. intros n Hn. rewrite not_elem_of_app.
    split; [|tauto]. intros Hn2. split; [|done]. intros Hn1.
    pose proof (Forall_elem _ _ _ Hrs Hn). pose proof (Forall_elem _ _ _ Ha Hn1). simpl in *. lia.
Qed.

Lemma queue_ok_empty : queue_ok empty_outbox.
Proof. constructor; simpl; by try constructor. Qed.

(** ** Flushing *)

Section flushing.
Context {D P : Type} `{RocksDbLaws D} `{MqttPublisher P}
        `{JsonRoundTrip MqttOutboxEntry (fun _ => True)}
        `{JsonRoundTrip MqttPublishAcknowledgement (fun _ => True)}.

(** The publisher accepts the messages one after another. *)
Fixpoint accepts (messages : list MqttPublishMessage) (p p' : P) : Prop :=
  match messages with
  | [] => p' = p
  | message :: messages => exists p1, publish message p = (p1, Ok ()) /\ accepts messages p1 p'
  end.

Definition messages (o : Outbox) : list MqttPublishMessage := entry_message <$> pending o.

(** The head of the queue is acknowledged. *)
Lemma acknowledge_head m o e l now :
  sim m o -> pending o = e :: l ->
  pending (fst (Queue.acknowledge now (entry_sequence e) o)) = l /\
  snd (Queue.acknowledge now (entry_sequence e) o) =
    Ok (acknowledgement_of (entry_sequence e) now (entry_message e)).
Proof using.
  intros Hsim Hp. pose proof (held_sorted _ _ _ _ (sim_pending _ _ Hsim)) as Hs. rewrite Hp in Hs.
  apply StronglySorted_inv in Hs as [_ Hall].
  unfold Queue.acknowledge, Queue.find. rewrite Hp. simpl. rewrite Z.eqb_refl. simpl.
  split; [|done]. rewrite filter_cons_False by tauto. apply filter_all. intros y Hy.
  pose proof (Forall_elem _ _ _ Hall Hy). simpl in *. lia.
Qed.

Lemma mark_failed_messages sequence error o :
  messages (fst (Queue.mark_failed sequence error o)) = messages o.
Proof using.
  unfold Queue.mark_failed. destruct (Queue.find sequence o); [|done]. unfold messages. simpl.
  rewrite <- list_fmap_compose. apply list_fmap_ext. intros i x _. simpl. by destruct (_ =? _).
Qed.

(** What a flush may leave: the publisher accepted the first [k] messages, in order,
    and the first [j] of them are gone.  Then the flush was done, or the publisher
    refused the next message, or the database failed. *)
Definition flushed (d : D) (p : P) (o : Outbox) (published : Z) (res : (D * P) * Result Z) : Prop :=
  exists j k p1 o',
    (j <= k <= length (pending o))%nat /\ accepts (take k (messages o)) p p1 /\
    sim (db_contents (fst (fst res))) o' /\ messages o' = drop j (messages o) /\
    (db_healthy d -> j = k) /\
    ((snd res = Ok (published + Z.of_nat k) /\ k = length (pending o) /\ snd (fst res) = p1 /\ pending o' = []) \/
     (is_ok (snd res) = false /\ exists message answer,
        messages o !! k = Some message /\ publish message p1 = (snd (fst res), answer) /\ is_ok answer = false) \/
     (is_ok (snd res) = false /\ ~ db_healthy d /\ snd (fst res) = p1)).

(** The publisher refuses the first message. *)
Lemma flushed_refused d p o published res o' message answer :
  sim (db_contents (fst (fst res))) o' -> messages o' = messages o -> is_ok (snd res) = false ->
  messages o !! 0%nat = Some message -> publish message p = (snd (fst res), answer) -> is_ok answer = false ->
  flushed d p o published res.
Proof using.
  intros Hsim Hm Hr Hfirst Hpub Ha. exists O, O, p, o'. split; [lia|]. split; [done|].
  split; [done|]. split; [done|]. split; [done|]. right. left. split; [done|]. by exists message, answer.
Qed.

(** The database fails before anything is published. *)
Lemma flushed_unread d p o published res :
  sim (db_contents (fst (fst res))) o -> is_ok (snd res) = false -> ~ db_healthy d -> snd (fst res) = p ->
  flushed d p o published res.
Proof using.
  intros Hsim Hr Hbad Hp. exists O, O, p, o. split; [lia|]. split; [done|].
  split; [done|]. split; [done|]. split; [done|]. by right; right.
Qed.

(** An accepted message that is acknowledged, then the rest of the flush. *)
Lemma flushed_cons d d' p p1 o o' e published res :
  publish (entry_message e) p = (p1, Ok ()) -> pending o = e :: pending o' ->
  (db_healthy d -> db_healthy d') -> flushed d' p1 o' (published + 1) res ->
  flushed d p o published res.
Proof using.
  intros Hpub Hp Hh (j & k & p2 & o2 & Hjk & Hacc & Hs2 & Hm2 & Hj & Hcase).
  exists (S j), (S k), p2, o2. unfold messages. rewrite Hp, fmap_cons. cbn [length take drop].
  split; [lia|]. split; [by exists p1|]. split; [done|]. split; [done|]. split.
  { intros Hd. f_equal. auto. }
  destruct Hcase as [(Hn & Hk & ? & ?)|[Hrefused|(? & Hbad & ?)]].
  - left. split; [rewrite Hn; f_equal; lia|]. split; [lia | done].
  - right. left. exact Hrefused.
  - right. right. split; [done|]. split; [|done]. intros Hd. by apply Hbad, Hh.
Qed.

(** An accepted message whose acknowledgement fails. *)
Lemma flushed_fault d p p1 o o' e published res :
  publish (entry_message e) p = (p1, Ok ()) -> pending o = e :: pending o' -> ~ db_healthy d ->
  sim (db_contents (fst (fst res))) o \/ sim (db_contents (fst (fst res))) o' ->
  is_ok (snd res) = false -> snd (fst res) = p1 -> flushed d p o published res.
Proof using.
  intros Hpub Hp Hbad Hs Hr Hlast.
  destruct Hs as [Hs|Hs]; [exists O, 1%nat, p1, o | exists 1%nat, 1%nat, p1, o'];
    unfold messages; rewrite Hp, fmap_cons; cbn [length take drop]; rewrite ?drop_0; (split; [lia|]);
    (split; [by exists p1|]); (split; [done|]); (split; [done|]); (split; [done|]); by right; right.
Qed.

Context (clock : Z -> DateTime).

Lemma flush_loop_spec entries published d p o :
  sim (db_contents d) o -> pending o = entries ->
  flushed d p o published (flush_loop clock published entries (d, p)).
Proof using Type*.
  revert published d p o. induction entries as [|e entries IH]; intros published d p o Hsim Hp.
  { exists O, O, p, o. rewrite Hp. split; [simpl; lia|]. split; [done|]. split; [done|].
    split; [done|]. split; [done|]. left. cbn. by rewrite Z.add_0_r. }
  assert (Hu : u_ok 64 (entry_sequence e))
    by (eapply held_u64; [apply Hsim | rewrite Hp; by left]).
  assert (Hfirst : messages o !! 0%nat = Some (entry_message e)) by (unfold messages; by rewrite Hp).
  cbn [flush_loop]. unfold on_publisher. cbn [fst snd].
  destruct (publish (entry_message e) p) as [p1 [[]|error|error]] eqn:Epub.
  - destruct (acknowledge_head _ _ _ _ (clock (entry_sequence e)) Hsim Hp) as [Hp' Hr'].
    pose proof (acknowledge_refines (clock (entry_sequence e)) _ Hu d o Hsim) as Hack.
    rewrite M_bind_eq. unfold on_store at 1. cbn [fst snd].
    destruct (acknowledge_mqtt_message (clock (entry_sequence e)) (entry_sequence e) d) as [d' r].
    destruct (Queue.acknowledge (clock (entry_sequence e)) (entry_sequence e) o) as [o' r'].
    unfold outcome in Hack. simpl in Hp', Hr', Hack. subst r'.
    rewrite <- Hp' in Hp. destruct Hack as [(Hs & -> & Hh) | (Hbad & [msg Hmsg] & Hs)].
    + eapply flushed_cons; [done..|]. by apply IH.
    + simpl in Hmsg. subst r. by eapply flushed_fault.
  - pose proof (mark_failed_refines _ error Hu d o Hsim) as Hmark.
    pose proof (mark_failed_messages (entry_sequence e) error o) as Hm.
    rewrite M_bind_eq. unfold on_store at 1. cbn [fst snd].
    destruct (mark_mqtt_message_failed (entry_sequence e) error d) as [d' r].
    destruct (Queue.mark_failed (entry_sequence e) error o) as [o' r'].
    destruct Hmark as [(Hs & _ & _) | (_ & [msg Hmsg] & [Hs|Hs])]; simpl in *.
    + destruct r as [[]|?|?]; by eapply flushed_refused.
    + subst r. by eapply flushed_refused.
    + subst r. by eapply flushed_refused.
  - by eapply flushed_refused.
Qed.
End flushing.

(** ** Properties *)

Section properties.
Context {D P : Type} `{RocksDbLaws D} `{MqttPublisher P}
        `{JsonRoundTrip MqttOutboxEntry (fun _ => True)}
        `{JsonRoundTrip MqttPublishAcknowledgement (fun _ => True)}.

(** [C2] The outbox methods of the store implement a first-in first-out queue
    with numbered entries.  Whatever the database answers, a call on a store
    that represents the queue [o] either does exactly the queue's step and
    returns its answer, or reports an error after which the store represents
    [o] or the queue after the step: never anything in between. *)
Theorem outbox_refines_queue (c : OutboxCall) (d : D) (o : Outbox) :
  call_ok c -> sim (db_contents d) o -> outcome d o (run_call c d) (queue_call c o).
Proof using Type*. intros Hc Hsim. by apply call_refines. Qed.

(** [C30] Nothing is lost, duplicated or reordered: after any sequence of calls
    on a new store whose database does not fail, the pending entries are the
    ones whose numbers were returned by [enqueue_mqtt_message] and not yet
    acknowledged, in the order of those numbers, and at most
    [MQTT_ACK_RETENTION] acknowledgements are kept. *)
Theorem outbox_loses_nothing (cs : list OutboxCall) (d : D) :
  Forall call_ok cs -> db_healthy d -> db_contents d = ∅ ->
  let '(d', rs) := run_calls run_call cs d in
  exists entries acks,
    pending_mqtt_messages usize_max d' = (d', Ok entries) /\
    entry_sequence <$> entries = filter (fun n => n ∉ acked rs) (issued rs) /\
    StronglySorted Z.lt (entry_sequence <$> entries) /\
    mqtt_publish_acknowledgements usize_max d' = (d', Ok acks) /\
    Z.of_nat (length acks) <= MQTT_ACK_RETENTION.
Proof using Type*.
  intros Hcs Hh Hempty. assert (Hsim : sim (db_contents d) empty_outbox) by (rewrite Hempty; apply sim_empty).
  pose proof (calls_refine cs d empty_outbox Hcs Hsim Hh) as Hrun.
  pose proof (queue_calls_sequences cs empty_outbox queue_ok_empty) as Hseq.
  destruct (run_calls run_call cs d) as [d' rs], (run_calls queue_call cs empty_outbox) as [o rs'].
  destruct Hrun as (Hrs & Hsim' & Hh'). simpl in Hrs, Hsim', Hh'. subst rs'.
  destruct Hseq as (Hok & _ & Hseq).
  destruct (all_pending_reads d' o Hsim') as [Hp | [Hbad _]]; [|done].
  destruct (acknowledgements_reads usize_max d' o Hsim' ltac:(done)) as [Ha | [Hbad _]]; [|done].
  eexists _, _. split; [exact Hp|]. split; [exact Hseq|]. split; [apply Hok|]. split; [exact Ha|].
  rewrite length_drop. pose proof (queue_retention _ Hok). lia.
Qed.

(** [C29] At-least-once delivery in order: whatever the publisher and the
    database answer, a flush offers the pending messages to the publisher from
    the oldest on, removes from the store only messages the publisher has
    accepted, and leaves the others in their order.  It goes on until all are
    accepted, the publisher refuses one, or the database fails; when the database
    does not fail it has removed exactly the messages accepted up to there, also when
    a later one is refused; and when it returns a count, that is the number of
    pending messages, all of them accepted and none pending. *)
Theorem flush_delivers_in_order (clock : Z -> DateTime) (d : D) (p : P) (o : Outbox) :
  sim (db_contents d) o -> flushed d p o 0 (flush_mqtt_outbox clock (d, p)).
Proof using Type*.
  intros Hsim. unfold flush_mqtt_outbox. rewrite M_bind_eq. unfold on_store. cbn [fst snd].
  destruct (all_pending_reads d o Hsim) as [-> | (Hbad & e & ->)].
  - by apply flush_loop_spec.
  - by eapply flushed_unread.
Qed.
End properties.

(** ** Examples *)

(** Concrete encodings of the records. *)
Module Codecs.
Import MemoryDb.

#[export] Instance message_eq_dec : EqDecision MqttPublishMessage.
Proof. solve_decision. Defined.

#[export] Program Instance message_countable : Countable MqttPublishMessage :=
  inj_countable'
    (fun m => (msg_sink_id m, msg_broker m, msg_client_id m, msg_topic m, msg_qos m, msg_payload m))
    (fun '(a, b, c, d, e, f) => Build_MqttPublishMessage a b c d e f) _.
Next Obligation. by intros []. Qed.

#[export] Instance entry_eq_dec : EqDecision MqttOutboxEntry.
Proof. solve_decision. Defined.

#[export] Program Instance entry_countable : Countable MqttOutboxEntry :=
  inj_countable'
    (fun e => (entry_sequence e, entry_enqueued_at e, entry_attempts e, entry_last_error e, entry_message e))
    (fun '(a, b, c, d, e) => Build_MqttOutboxEntry a b c d e) _.
Next Obligation. by intros []. Qed.

#[export] Instance ack_eq_dec : EqDecision MqttPublishAcknowledgement.
Proof. solve_decision. Defined.

#[export] Program Instance ack_countable : Countable MqttPublishAcknowledgement :=
  inj_countable'
    (fun a => (ack_sequence a, ack_acknowledged_at a, ack_sink_id a, ack_broker a, ack_client_id a,
               ack_topic a, ack_qos a, ack_payload_bytes a))
    (fun '(a, b, c, d, e, f, g, h) => Build_MqttPublishAcknowledgement a b c d e f g h) _.
Next Obligation. by intros []. Qed.

#[export] Instance entry_codec : JsonCodec MqttOutboxEntry := countable_codec _.
#[export] Instance entry_round_trip : JsonRoundTrip MqttOutboxEntry (fun _ => True) := countable_round_trip _ _.
#[export] Instance ack_codec : JsonCodec MqttPublishAcknowledgement := countable_codec _.
#[export] Instance ack_round_trip : JsonRoundTrip MqttPublishAcknowledgement (fun _ => True) :=
  countable_round_trip _ _.
End Codecs.

Section examples.
Import MemoryDb Codecs.

(** A publisher that records what it is given. *)
#[local] Instance recording_publisher : MqttPublisher (list MqttPublishMessage) :=
  fun message sent => ((sent ++ [message])%list, Ok ()).

Definition example_message (topic : string) : MqttPublishMessage :=
  {| msg_sink_id := "cloud"; msg_broker := "mqtt://broker:1883"; msg_client_id := "edge-1";
     msg_topic := topic; msg_qos := 1; msg_payload := [123; 125] |}.

Definition example_calls : list OutboxCall :=
  [Enqueue 5 (example_message "a"); Enqueue 6 (example_message "b"); Acknowledge 7 1;
   Enqueue 8 (example_message "c"); MarkFailed 2 "timeout"].

Lemma outbox_refines_queue_witness :
  call_ok (Enqueue 5 (example_message "a")) /\
  outcome (∅ : gmap string bytes) empty_outbox
    (run_call (Enqueue 5 (example_message "a")) ∅)
    (queue_call (Enqueue 5 (example_message "a")) empty_outbox).
Proof.
  split; [exact I|].
  apply (outbox_refines_queue (D := gmap string bytes)); [exact I | apply sim_empty].
Defined.

Lemma outbox_loses_nothing_witness :
  exists d' rs entries, run_calls run_call example_calls (∅ : gmap string bytes) = (d', rs) /\
    pending_mqtt_messages usize_max d' = (d', Ok entries) /\ entry_sequence <$> entries = [2; 3].
Proof.
  pose proof (outbox_loses_nothing (D := gmap string bytes) example_calls ∅
    ltac:(repeat constructor; vm_compute; congruence) I eq_refl) as Hw.
  destruct (run_calls run_call example_calls (∅ : gmap string bytes)) as [d' rs] eqn:E.
  destruct Hw as (entries & acks & Hp & Hs & _). exists d', rs, entries. split; [done|]. split; [done|].
  rewrite Hs. apply (f_equal snd) in E. simpl snd in E at 2. rewrite <- E. vm_compute. reflexivity.
Defined.

Lemma flush_delivers_in_order_witness :
  let d := fst (run_calls run_call example_calls (∅ : gmap string bytes)) in
  let o := fst (run_calls queue_call example_calls empty_outbox) in
  flushed d [] o 0 (flush_mqtt_outbox (fun _ => 9) (d, [])).
Proof.
  intros d o. apply (flush_delivers_in_order (D := gmap string bytes)).
  apply (calls_refine (D := gmap string bytes) example_calls ∅ empty_outbox);
    [repeat constructor; vm_compute; congruence | apply sim_empty | exact I].
Defined.

(** The flush empties the queue and publishes both messages. *)
Example flush_example :
  let d := fst (run_calls run_call example_calls (∅ : gmap string bytes)) in
  let res := flush_mqtt_outbox (fun _ => 9) (d, []) in
  (msg_topic <$> snd (fst res), snd res, snd (mqtt_outbox_len (fst (fst res)))) =
  (["b"; "c"], Ok 2, Ok 0).
Proof. vm_compute. reflexivity. Qed.
End examples.
