(* ===== verification/CommandPlan.v ===== *)
(** The command planner: [crates/edge-runtime/src/command.rs].

    [plan_command_execution] walks the graph of a command flow breadth first
    and collects the writes, replies and safety gates of the nodes the document
    selects.  JSON parsing, [DateTime::parse_from_rfc3339] and the JSON encoding
    of a reply belong to libraries and are parameters; [clock] gives the readings
    of [Utc::now()], by the node that reads it. *)

From Stdlib Require Import ZArith Lia.
From S2P Require Import Prelude RustStr Floats FloatFmt Json Model ConfigTypes BTree Graph CommandFlow Outbox.

Open Scope string_scope.
Open Scope Z_scope.

(** ** Data *)

Inductive CommandWriteVerification := Response | Readback.
Inductive CommandExecutionStatus := Succeeded | Failed.

#[export] Instance verification_eq_dec : EqDecision CommandWriteVerification.
Proof. solve_decision. Defined.
#[export] Instance status_eq_dec : EqDecision CommandExecutionStatus.
Proof. solve_decision. Defined.

Record PlannedPointWrite := {
  pw_node_id : string;
  pw_mapping : TelemetryPointMapping;
  pw_value : TelemetryValue;
  pw_verification : CommandWriteVerification;
  pw_readback_tolerance : f64;
}.

Record PlannedCommandSafetyGate := {
  gate_node_id : string;
  gate_source_path : string;
  gate_source : option string;
  gate_allowed_sources : list string;
  gate_max_commands : option Z;
  gate_window_ms : option Z;
}.

Record CommandExecutionPlan := {
  plan_flow : CommandFlowConfig;
  plan_command_id : string;
  plan_command_source : option string;
  plan_writes : list PlannedPointWrite;
  plan_reply_node_ids : list string;
  plan_safety_gates : list PlannedCommandSafetyGate;
}.

Record CommandWriteRecord := {
  wr_node_id : string;
  wr_point_id : string;
  wr_device_id : string;
  wr_value : TelemetryValue;
  wr_verified : bool;
  wr_verification : CommandWriteVerification;
  wr_readback_value : option TelemetryValue;
}.

Record CommandExecutionReport := {
  rep_flow_id : string;
  rep_command_id : string;
  rep_source : option string;
  rep_status : CommandExecutionStatus;
  rep_writes : list CommandWriteRecord;
  rep_error : option string;
  rep_completed_at : DateTime;
  rep_duplicate : bool;
  rep_replies : list MqttPublishMessage;
}.

(** [crates/edge-runtime/src/protocol.rs]. *)
Record ProtocolWriteResult := {
  res_point_id : string;
  res_value : TelemetryValue;
  res_verified : bool;
  res_readback_value : option TelemetryValue;
}.

(** [{:?}] of a value; of a text it depends on the Unicode tables. *)
Definition debug_value (debug_str : string -> string) (v : TelemetryValue) : string :=
  match v with
  | VFloat x => "Float(" ++ debug_f64 x ++ ")"
  | VInteger n => "Integer(" ++ show_Z n ++ ")"
  | VBoolean b => "Boolean(" ++ (if b then "true" else "false") ++ ")"
  | VText t => "Text(" ++ debug_str t ++ ")"
  end.

Definition new_report (flow_id command_id : string) (now : DateTime) : CommandExecutionReport :=
  {| rep_flow_id := flow_id; rep_command_id := command_id; rep_source := None;
     rep_status := Succeeded; rep_writes := []; rep_error := None; rep_completed_at := now;
     rep_duplicate := false; rep_replies := [] |}.

Definition record_write (report : CommandExecutionReport) (write : PlannedPointWrite)
    (result : ProtocolWriteResult) : CommandExecutionReport :=
  {| rep_flow_id := rep_flow_id report; rep_command_id := rep_command_id report;
     rep_source := rep_source report; rep_status := rep_status report;
     rep_writes := (rep_writes report ++
       [{| wr_node_id := pw_node_id write; wr_point_id := res_point_id result;
           wr_device_id := map_device_id (pw_mapping write); wr_value := res_value result;
           wr_verified := res_verified result; wr_verification := pw_verification write;
           wr_readback_value := res_readback_value result |}])%list;
     rep_error := rep_error report; rep_completed_at := rep_completed_at report;
     rep_duplicate := rep_duplicate report; rep_replies := rep_replies report |}.

Definition fail (report : CommandExecutionReport) (error : string) (now : DateTime)
    : CommandExecutionReport :=
  {| rep_flow_id := rep_flow_id report; rep_command_id := rep_command_id report;
     rep_source := rep_source report; rep_status := Failed; rep_writes := rep_writes report;
     rep_error := Some error; rep_completed_at := now; rep_duplicate := rep_duplicate report;
     rep_replies := rep_replies report |}.

Definition DEFAULT_MAX_CONFIRMATION_AGE_MS : Z := 15 * 60 * 1000.
Definition MAX_COMMAND_TTL_MS : Z := 5 * 60 * 1000.
Definition MIN_CONFIRMATION_TOKEN_LENGTH : nat := 24.

(** ** Time *)

Definition ms : Z := 1000000.

(** [DateTime::<Utc>::MIN_UTC] and [MAX_UTC]; the operators [+] and [-] panic
    outside of them. *)
Definition MIN_UTC : DateTime := -8334601228800 * 1000000000.
Definition MAX_UTC : DateTime := 8210266876799 * 1000000000 + 999999999.

Definition shift_time (t : DateTime) (delta : Z) : Result DateTime :=
  if (MIN_UTC <=? t + delta) && (t + delta <=? MAX_UTC) then Ok (t + delta)
  else Panic "DateTime + TimeDelta overflowed".

(** ** Values *)

Definition telemetry_value (value : Json) (value_type : TelemetryType) : Result TelemetryValue :=
  match value_type with
  | Ty_Float => VFloat <$> ok_or (json_as_f64 value) "float point requires a JSON number"
  | Ty_Integer => VInteger <$> ok_or (json_as_i64 value) "integer point requires a JSON integer"
  | Ty_Boolean => VBoolean <$> ok_or (json_as_bool value) "boolean point requires true or false"
  | Ty_Text => VText <$> ok_or (json_as_str value) "text point requires a JSON string"
  end.

Definition command_values_match (expected actual : TelemetryValue) (tolerance : f64) : bool :=
  match as_f64 expected, as_f64 actual with
  | Some expected, Some actual => f64_le (f64_abs (f64_sub expected actual)) tolerance
  | _, _ => value_eqb expected actual
  end.

Definition param_str (node : CommandGraphNode) (key : string) : option string :=
  cnode_params node !! key ≫= json_as_str.

Definition evaluate_condition (node : CommandGraphNode) (document : Json) : Result bool :=
  let path := default "value" (param_str node "path") in
  let operator := default "eq" (param_str node "operator") in
  actual ← ok_or (value_at document path)
    ("condition node " ++ cnode_id node ++ " path not found: " ++ path);
  let expected := default (JBool true) (cnode_params node !! "value") in
  let numeric (test : f64 -> f64 -> bool) :=
    actual ← ok_or (json_as_f64 actual) "numeric condition actual value must be a number";
    expected ← ok_or (json_as_f64 expected) "numeric condition expected value must be a number";
    Ok (test actual expected) in
  if bool_decide (operator = "eq") then Ok (json_eqb actual expected)
  else if bool_decide (operator = "ne") then Ok (negb (json_eqb actual expected))
  else if bool_decide (operator = "gt") then numeric f64_gt
  else if bool_decide (operator = "gte") then numeric f64_ge
  else if bool_decide (operator = "lt") then numeric f64_lt
  else if bool_decide (operator = "lte") then numeric f64_le
  else bail ("condition node " ++ cnode_id node ++ " operator is unsupported: " ++ operator).

Definition MappingMap : Type := gmap string TelemetryPointMapping.

Definition check_requested_device (document : Json) (point_id : string)
    (mapping : TelemetryPointMapping) : Result () :=
  match string_at document "deviceId" with
  | Some requested_device =>
      ensure (bool_decide (requested_device = map_device_id mapping))
        ("command device " ++ requested_device ++ " does not match point " ++ point_id ++
         " device " ++ map_device_id mapping)
  | None => Ok ()
  end.

Definition check_range (mapping : TelemetryPointMapping) (point_id : string) (value : TelemetryValue)
    : Result () :=
  match map_range mapping, as_f64 value with
  | Some range, Some numeric =>
      ensure (range_contains range numeric)
        ("command value " ++ show_f64 numeric ++ " for point " ++ point_id ++ " is outside [" ++
         show_f64 (range_min range) ++ ", " ++ show_f64 (range_max range) ++ "]")
  | _, _ => Ok ()
  end.

Definition write_verification (node : CommandGraphNode) : Result CommandWriteVerification :=
  match verification_param node ≫= json_as_str with
  | None => Ok Response
  | Some value =>
      if bool_decide (value = "response") then Ok Response
      else if bool_decide (value = "readback") then Ok Readback
      else bail ("write node " ++ cnode_id node ++ " verification mode is unsupported: " ++ value)
  end.

Definition write_tolerance (node : CommandGraphNode) (mapping : TelemetryPointMapping) : Result f64 :=
  readback_tolerance ←
    match cnode_params node !! "readback_tolerance" with
    | Some value =>
        ok_or (json_as_f64 value) ("write node " ++ cnode_id node ++ " readback_tolerance must be a number")
    | None =>
        Ok (if bool_decide (map_value_type mapping = Ty_Float) then f64_of_decimal 1 (-6) else f64_zero)
    end;
  ensure (is_finite readback_tolerance && negb (f64_lt readback_tolerance f64_zero))
    ("write node " ++ cnode_id node ++ " readback_tolerance must be finite and non-negative");;
  Ok readback_tolerance.

Definition plan_point_write (node : CommandGraphNode) (document : Json) (mappings : MappingMap)
    : Result (option PlannedPointWrite) :=
  let point_id := default "" (cnode_ref_id node) in
  mapping ← ok_or (mappings !! point_id)
    ("write node " ++ cnode_id node ++ " point not found: " ++ point_id);
  ensure (is_writable (map_access mapping)) ("point " ++ point_id ++ " is not writable");;
  if match string_at document "pointId" with
     | Some requested_point => negb (bool_decide (requested_point = point_id))
     | None => false
     end
  then Ok None
  else
    check_requested_device document point_id mapping;;
    let value_path := default ("values." ++ point_id) (param_str node "value_path") in
    raw_value ← ok_or (match value_at document value_path with
                       | Some v => Some v
                       | None => value_at document "value"
                       end)
      ("command payload has no value for point " ++ point_id ++ "; expected `" ++ value_path ++
       "` or `value`");
    value ← with_context (telemetry_value raw_value (map_value_type mapping))
      ("invalid command value for point " ++ point_id);
    check_range mapping point_id value;;
    verification ← write_verification node;
    readback_tolerance ← write_tolerance node mapping;
    Ok (Some {| pw_node_id := cnode_id node; pw_mapping := mapping; pw_value := value;
                pw_verification := verification; pw_readback_tolerance := readback_tolerance |}).

Section planner.
Context (parse_json : bytes -> option Json) (parse_rfc3339 : string -> option DateTime)
        (clock : option string -> nat -> DateTime).

Definition check_not_expired (text : string) (now : DateTime) : Result DateTime :=
  expires_at ← ok_or (parse_rfc3339 text) "command expiresAt must use RFC3339";
  ensure (negb (expires_at <=? now)) "command has expired";;
  Ok expires_at.

Definition validate_expiry (document : Json) (now : DateTime) : Result () :=
  match string_at document "expiresAt" with
  | None => Ok ()
  | Some text => check_not_expired text now;; Ok ()
  end.

Definition required_expiry (document : Json) (now : DateTime) : Result DateTime :=
  text ← ok_or (string_at document "expiresAt") "human-confirmed command requires expiresAt";
  check_not_expired text now.

(** The [approvedBy] that counts as a human operator. *)
Definition human_operator (actor : string) : bool :=
  let actor := str_trim actor in
  negb (str_is_empty actor) &&
  negb (starts_with (str_bytes actor) (str_bytes "agent:")) &&
  negb (starts_with (str_bytes actor) (str_bytes "model:")) &&
  negb (bool_decide (str_to_ascii_lowercase actor = "system")).

Definition gate_msg (node : CommandGraphNode) (text : string) : string :=
  "safety gate " ++ cnode_id node ++ text.

Definition max_confirmation_age (node : CommandGraphNode) : Z :=
  match cnode_params node !! "max_confirmation_age_ms" ≫= json_as_u64 with
  | Some value => if value <=? i_max 64 then value else DEFAULT_MAX_CONFIRMATION_AGE_MS
  | None => DEFAULT_MAX_CONFIRMATION_AGE_MS
  end.

(** [now] is read once, [now2] again by [required_expiry]. *)
Definition validate_confirmation (node : CommandGraphNode) (document : Json) (now now2 : DateTime)
    : Result () :=
  token ← ok_or
    (match str_trim <$> string_at document "confirmationToken" with
     | Some token =>
         if bool_decide (MIN_CONFIRMATION_TOKEN_LENGTH <= length (str_bytes token))%nat
         then Some token else None
     | None => None
     end)
    (gate_msg node " requires a confirmationToken of at least 24 characters");
  ensure (negb (has_whitespace (str_bytes token)))
    (gate_msg node " confirmationToken must not contain whitespace");;
  ensure (match string_at document "approvedBy" with
          | Some actor => human_operator actor
          | None => false
          end) (gate_msg node " requires approvedBy from a human operator");;
  approved_at ← ok_or (string_at document "approvedAt")
    (gate_msg node " requires an RFC3339 approvedAt timestamp");
  approved_at ← ok_or (parse_rfc3339 approved_at) "command approvedAt must use RFC3339";
  latest ← shift_time now (30 * 1000 * ms);
  ensure (negb (latest <? approved_at)) (gate_msg node " approval timestamp is in the future");;
  earliest ← shift_time now (- (max_confirmation_age node * ms));
  ensure (negb (approved_at <? earliest)) (gate_msg node " approval has expired");;
  expires_at ← required_expiry document now2;
  deadline ← shift_time now (MAX_COMMAND_TTL_MS * ms);
  ensure (negb (deadline <? expires_at))
    (gate_msg node " command expiry exceeds the local five minute limit").

Definition requires_confirmation (node : CommandGraphNode) : bool :=
  default false (cnode_params node !! "require_confirmation" ≫= json_as_bool).

Definition plan_safety_gate (node : CommandGraphNode) (document : Json)
    : Result PlannedCommandSafetyGate :=
  let reading := clock (Some (cnode_id node)) in
  validate_expiry document (reading 0%nat);;
  (if requires_confirmation node
   then validate_confirmation node document (reading 1%nat) (reading 2%nat) else Ok ());;
  let source_path := default "requestedBy" (param_str node "source_path") in
  max_commands ←
    match cnode_params node !! "max_commands" ≫= json_as_u64 with
    | Some n =>
        if n <=? u_max 32 then Ok (Some n)
        else Err (gate_msg node " max_commands is too large")
    | None => Ok None
    end;
  Ok {| gate_node_id := cnode_id node; gate_source_path := source_path;
        gate_source := string_at document source_path;
        gate_allowed_sources :=
          match cnode_params node !! "allowed_sources" ≫= json_as_array with
          | Some values => omap json_as_str values
          | None => []
          end;
        gate_max_commands := max_commands;
        gate_window_ms := cnode_params node !! "window_ms" ≫= json_as_u64 |}.

(** ** The walk *)

(** What a visited node contributes: the port the walk continues through, or
    that it does not continue. *)
Inductive Visit :=
| VPort (port : option string)
| VGate (gate : PlannedCommandSafetyGate)
| VWrite (write : PlannedPointWrite)
| VSkip
| VReply.

Definition visit (document : Json) (mappings : MappingMap) (node : CommandGraphNode) : Result Visit :=
  match cnode_kind node with
  | MqttInput | JsonParse => Ok (VPort None)
  | Condition =>
      holds ← evaluate_condition node document;
      Ok (VPort (Some (if holds : bool then "true" else "false")))
  | SafetyGate => VGate <$> plan_safety_gate node document
  | PointWrite =>
      write ← plan_point_write node document mappings;
      Ok (match write with Some write => VWrite write | None => VSkip end)
  | MqttReply => Ok VReply
  end.

(** The targets of the edges that leave the node through the selected port. *)
Definition successors (flow : CommandFlowConfig) (node_id : string) (v : Visit) : list string :=
  let follow (selected : option string) :=
    cedge_to <$> filter (fun edge => cedge_from edge = node_id /\
      (cedge_from_port edge = None \/ selected = None \/ cedge_from_port edge = selected))
      (flow_edges flow) in
  match v with
  | VPort port => follow port
  | VGate _ | VWrite _ => follow None
  | VSkip | VReply => []
  end.

Record Walk := {
  w_visited : gset string;
  w_writes : list PlannedPointWrite;
  w_replies : list string;
  w_gates : list PlannedCommandSafetyGate;
}.

Definition record_visit (w : Walk) (node_id : string) (v : Visit) : Walk :=
  {| w_visited := {[node_id]} ∪ w_visited w;
     w_writes := match v with VWrite write => (w_writes w ++ [write])%list | _ => w_writes w end;
     w_replies := match v with VReply => (w_replies w ++ [node_id])%list | _ => w_replies w end;
     w_gates := match v with VGate gate => (w_gates w ++ [gate])%list | _ => w_gates w end |}.

(** The [while let Some(node_id) = queue.pop_front()] loop; [None] when the fuel
    is used up. *)
Fixpoint walk (fuel : nat) (flow : CommandFlowConfig) (nodes : gmap string CommandGraphNode)
    (mappings : MappingMap) (document : Json) (queue : list string) (w : Walk) : option (Result Walk) :=
  match fuel with
  | O => None
  | S fuel =>
      match queue with
      | [] => Some (Ok w)
      | node_id :: queue =>
          if bool_decide (node_id ∈ w_visited w)
          then walk fuel flow nodes mappings document queue w
          else
            match
              node ← ok_or (nodes !! node_id) ("command graph node not found: " ++ node_id);
              visit document mappings node
            with
            | Ok v =>
                walk fuel flow nodes mappings document
                  (queue ++ successors flow node_id v)%list (record_visit w node_id v)
            | Err e => Some (Err e)
            | Panic e => Some (Panic e)
            end
      end
  end.

Definition empty_walk : Walk := {| w_visited := ∅; w_writes := []; w_replies := []; w_gates := [] |}.

Definition input_ids (flow : CommandFlowConfig) : list string :=
  cnode_id <$> filter (fun node => cnode_kind node = MqttInput) (flow_nodes flow).

(** Every node enters the queue as an input or once per edge. *)
Definition walk_fuel (flow : CommandFlowConfig) : nat :=
  S (length (input_ids flow) + length (flow_edges flow)).

Definition node_map (flow : CommandFlowConfig) : gmap string CommandGraphNode :=
  collect_map ((fun node => (cnode_id node, node)) <$> flow_nodes flow).

Definition mapping_map (package : EdgeConfigPackage) : MappingMap :=
  collect_map ((fun mapping => (map_point_id mapping, mapping)) <$> pkg_point_mappings package).

Definition walk_flow (package : EdgeConfigPackage) (flow : CommandFlowConfig) (document : Json)
    : option (Result Walk) :=
  walk (walk_fuel flow) flow (node_map flow) (mapping_map package) document (input_ids flow) empty_walk.

(** What comes before the walk: the flow, the document and the command id. *)
Definition plan_header (package : EdgeConfigPackage) (id : string) (payload : bytes)
    : Result (CommandFlowConfig * Json * string) :=
  flow ← ok_or (find_first (fun flow => bool_decide (flow_id flow = id)) (pkg_command_flows package))
    ("command flow not found: " ++ id);
  ensure (flow_enabled flow) ("command flow " ++ id ++ " is disabled");;
  document ← ok_or (parse_json payload) "command payload must be valid JSON";
  command_id ← ok_or
    (match (match string_at document "commandId" with
            | Some value => Some value
            | None => string_at document "command_id"
            end) with
     | Some value => if is_blank value then None else Some value
     | None => None
     end) "command payload requires commandId";
  validate_expiry document (clock None 0%nat);;
  Ok (flow, document, command_id).

(** What comes after it. *)
Definition plan_of_walk (id : string) (flow : CommandFlowConfig) (document : Json)
    (command_id : string) (w : Walk) : Result CommandExecutionPlan :=
  ensure (negb (bool_decide (length (w_writes w) = O)))
    ("command flow " ++ id ++ " did not select a writable point");;
  ensure (negb (bool_decide (length (w_replies w) = O)))
    ("command flow " ++ id ++ " did not reach a reply node");;
  Ok {| plan_flow := flow; plan_command_id := command_id;
        plan_command_source :=
          match find_map gate_source (w_gates w) with
          | Some source => Some source
          | None => string_at document "requestedBy"
          end;
        plan_writes := w_writes w; plan_reply_node_ids := w_replies w;
        plan_safety_gates := w_gates w |}.

Definition plan_command_execution (package : EdgeConfigPackage) (id : string) (payload : bytes)
    : option (Result CommandExecutionPlan) :=
  match plan_header package id payload with
  | Ok (flow, document, command_id) =>
      match walk_flow package flow document with
      | Some w => Some (w ≫= plan_of_walk id flow document command_id)
      | None => None
      end
  | Err e => Some (Err e)
  | Panic e => Some (Panic e)
  end.
End planner.

(** ** Replies *)

(** [text.replace(from, to)]: the occurrences from left to right. *)
Fixpoint replace_bytes (fuel : nat) (from to l : bytes) : bytes :=
  match fuel, l with
  | S fuel, b :: rest =>
      if bytes_prefix from l then to ++ replace_bytes fuel from to (drop (length from) l)
      else b :: replace_bytes fuel from to rest
  | _, _ => l
  end%list.

Definition str_replace (text from to : string) : string :=
  str_of_bytes (replace_bytes (length (str_bytes text)) (str_bytes from) (str_bytes to) (str_bytes text)).

Section replies.
(** [serde_json::to_vec(&json!({ ... }))] of the fields of a report. *)
Context (encode_reply : string -> string -> option string -> CommandExecutionStatus ->
                        list CommandWriteRecord -> option string -> DateTime -> Result bytes).

Definition build_command_reply_messages (package : EdgeConfigPackage) (plan : CommandExecutionPlan)
    (report : CommandExecutionReport) : Result (list MqttPublishMessage) :=
  let flow := plan_flow plan in
  uplink ← ok_or (find_first (fun uplink => bool_decide (up_sink_id uplink = flow_mqtt_connection_id flow))
                    (pkg_mqtt_uplinks package))
    ("command flow " ++ flow_id flow ++ " MQTT connection not found: " ++ flow_mqtt_connection_id flow);
  payload ← encode_reply (rep_flow_id report) (rep_command_id report) (rep_source report)
    (rep_status report) (rep_writes report) (rep_error report) (rep_completed_at report);
  let point_id := match head (rep_writes report) with Some w => wr_point_id w | None => "unknown" end in
  let device_id := match head (rep_writes report) with Some w => wr_device_id w | None => "unknown" end in
  let topic :=
    str_replace (str_replace (str_replace (str_replace (flow_reply_topic_template flow)
      "{edge_id}" (pkg_edge_id package)) "{command_id}" (rep_command_id report))
      "{device_id}" device_id) "{point_id}" point_id in
  Ok ((fun _ => {| msg_sink_id := up_sink_id uplink; msg_broker := up_broker uplink;
                   msg_client_id := up_client_id uplink; msg_topic := topic;
                   msg_qos := flow_qos flow; msg_payload := payload |}) <$> plan_reply_node_ids plan).
End replies.

(** *** What a planned write is *)

Definition has_type (value : TelemetryValue) (t : TelemetryType) : Prop :=
  match value, t with
  | VFloat _, Ty_Float | VInteger _, Ty_Integer | VBoolean _, Ty_Boolean | VText _, Ty_Text => True
  | _, _ => False
  end.

Lemma telemetry_value_type v t value : telemetry_value v t = Ok value -> has_type value t.
Proof.
  destruct t; simpl; intros Hv; destruct (ok_or _ _) in Hv; by simplify_eq/=.
Qed.

(** The write respects the configuration of its point and what the document
    asks for. *)
Record write_ok (mappings : MappingMap) (document : Json) (w : PlannedPointWrite) : Prop := {
  wok_point : exists point_id, mappings !! point_id = Some (pw_mapping w) /\
    forall p, string_at document "pointId" = Some p -> p = point_id;
  wok_writable : is_writable (map_access (pw_mapping w)) = true;
  wok_device : forall device, string_at document "deviceId" = Some device ->
    device = map_device_id (pw_mapping w);
  wok_type : has_type (pw_value w) (map_value_type (pw_mapping w));
  wok_range : forall range x, map_range (pw_mapping w) = Some range -> as_f64 (pw_value w) = Some x ->
    range_contains range x = true;
  wok_tolerance : is_finite (pw_readback_tolerance w) = true /\
    f64_lt (pw_readback_tolerance w) f64_zero = false;
}.

Lemma write_tolerance_ok node mapping t :
  write_tolerance node mapping = Ok t -> is_finite t = true /\ f64_lt t f64_zero = false.
Proof.
  unfold write_tolerance. intros (t' & _ & H)%bind_Ok. apply bind_Ok in H as (u & H & [= <-]).
  apply ensure_Ok in H as [Hf Hn%negb_true_iff]%andb_true_iff. done.
Qed.

Lemma plan_point_write_ok node document mappings w :
  plan_point_write node document mappings = Ok (Some w) ->
  write_ok mappings document w /\ pw_node_id w = cnode_id node.
Proof.
  unfold plan_point_write. intros (mapping & Hm%ok_or_Ok & H)%bind_Ok.
  apply bind_Ok in H as (u1 & Hacc%ensure_Ok & H).
  destruct (match string_at document "pointId" with Some _ => _ | None => _ end) eqn:Ep in H; [done|].
  apply bind_Ok in H as (u2 & Hdev & H). apply bind_Ok in H as (raw & _ & H).
  apply bind_Ok in H as (value & Hval & H). apply with_context_Ok in Hval.
  apply bind_Ok in H as (u3 & Hrange & H). apply bind_Ok in H as (ver & _ & H).
  apply bind_Ok in H as (tol & Htol%write_tolerance_ok & [= <-]).
  split; [|done]. constructor; cbn [pw_mapping pw_value pw_readback_tolerance]; [..|done].
  - exists (default "" (cnode_ref_id node)). split; [done|]. intros p Hp. rewrite Hp in Ep.
    by apply negb_false_iff, bool_decide_eq_true in Ep.
  - done.
  - intros device Hd. unfold check_requested_device in Hdev. rewrite Hd in Hdev.
    by apply ensure_Ok, bool_decide_eq_true in Hdev.
  - by eapply telemetry_value_type.
  - intros range x Hr Hx. unfold check_range in Hrange. rewrite Hr, Hx in Hrange. by apply ensure_Ok in Hrange.
Qed.

(** ** Correctness of the walk *)

Lemma open_edges_visit (l : list CommandGraphEdge) (visited : gset string) id :
  id ∉ visited ->
  (length (filter (fun edge => cedge_from edge ∉ ({[id]} ∪ visited)) l) +
   length (filter (fun edge => cedge_from edge = id) l) =
   length (filter (fun edge => cedge_from edge ∉ visited) l))%nat.
Proof.
  intros Hid. induction l as [|edge l IH]; [done|]. rewrite !filter_cons.
  repeat case_decide; cbn [length]; subst; try set_solver; lia.
Qed.

Section walk_spec.
Context (parse_rfc3339 : string -> option DateTime) (clock : option string -> nat -> DateTime)
        (flow : CommandFlowConfig) (nodes : gmap string CommandGraphNode) (mappings : MappingMap)
        (document : Json).
Hypothesis node_keys : forall id node, nodes !! id = Some node -> cnode_id node = id.

Abbreviation visit := (visit parse_rfc3339 clock document mappings).
Abbreviation walk fuel queue w := (walk parse_rfc3339 clock fuel flow nodes mappings document queue w).

(** A node contributes [v]. *)
Definition contributes (id : string) (v : Visit) : Prop :=
  exists node, nodes !! id = Some node /\ visit node = Ok v.

(** The nodes the document selects: the inputs, and what the edges lead to
    through the ports the visited nodes select. *)
Inductive Reached : string -> Prop :=
| reached_input id : id ∈ input_ids flow -> Reached id
| reached_edge id v target :
    Reached id -> contributes id v -> target ∈ successors flow id v -> Reached target.

Record walk_inv (queue : list string) (w : Walk) : Prop := {
  inv_reached : forall id, id ∈ queue \/ id ∈ w_visited w -> Reached id;
  inv_inputs : forall id, id ∈ input_ids flow -> id ∈ queue \/ id ∈ w_visited w;
  inv_closed : forall id, id ∈ w_visited w -> exists v, contributes id v /\
    forall target, target ∈ successors flow id v -> target ∈ queue \/ target ∈ w_visited w;
  inv_writes : forall write, write ∈ w_writes w <->
    exists id, id ∈ w_visited w /\ contributes id (VWrite write);
  inv_gates : forall gate, gate ∈ w_gates w <->
    exists id, id ∈ w_visited w /\ contributes id (VGate gate);
  inv_replies : forall id, id ∈ w_replies w <-> id ∈ w_visited w /\ contributes id VReply;
  inv_once : NoDup (pw_node_id <$> w_writes w);
}.

Lemma contributes_fun id v1 v2 : contributes id v1 -> contributes id v2 -> v1 = v2.
Proof using. intros (n1 & H1 & E1) (n2 & H2 & E2). congruence. Qed.

Lemma contributes_write id w :
  contributes id (VWrite w) -> pw_node_id w = id /\ write_ok mappings document w.
Proof using node_keys.
  intros (node & Hn & Hv). apply node_keys in Hn as Hid. unfold CommandPlan.visit in Hv.
  destruct (cnode_kind node); try (by destruct (plan_safety_gate _ _ _ _) in Hv);
    try discriminate; apply bind_Ok in Hv as (x & Hx & Heq); simplify_eq.
  destruct x as [w'|]; simplify_eq. apply plan_point_write_ok in Hx as [Hok Heq].
  by rewrite Heq.
Qed.

Lemma walk_inv_initial : walk_inv (input_ids flow) empty_walk.
Proof using.
  constructor; simpl.
  - intros id [Hin|[]%elem_of_empty]. by apply reached_input.
  - by left.
  - by intros id []%elem_of_empty.
  - intros write. split; [by intros []%not_elem_of_nil | by intros (id & []%elem_of_empty & _)].
  - intros gate. split; [by intros []%not_elem_of_nil | by intros (id & []%elem_of_empty & _)].
  - intros id. split; [by intros []%not_elem_of_nil | by intros [[]%elem_of_empty _]].
  - constructor.
Qed.

Lemma walk_inv_skip id queue w :
  walk_inv (id :: queue) w -> id ∈ w_visited w -> walk_inv queue w.
Proof using.
  intros [Hr Hi Hc Hw Hg Hp Ho] Hv.
  assert (Hmove : forall x, x ∈ id :: queue \/ x ∈ w_visited w -> x ∈ queue \/ x ∈ w_visited w).
  { intros x [[-> | Hx]%elem_of_cons | Hx]; auto. }
  constructor; [|..|done|done|done|done].
  - intros x [Hx|Hx]; apply Hr; [left; by right | by right].
  - intros x Hx. by apply Hmove, Hi.
  - intros x Hx. destruct (Hc x Hx) as (v & Hcv & Hs). exists v. split; [done|].
    intros t Ht. by apply Hmove, Hs.
Qed.

Lemma walk_inv_visit id queue w v :
  walk_inv (id :: queue) w -> id ∉ w_visited w -> contributes id v ->
  walk_inv (queue ++ successors flow id v)%list (record_visit w id v).
Proof using node_keys.
  intros [Hr Hi Hc Hw Hg Hp Ho] Hv Hcv. constructor; cbn [record_visit w_visited w_writes w_gates w_replies].
  - intros x. rewrite elem_of_app, elem_of_union, elem_of_singleton.
    assert (Hid : Reached id) by (apply Hr; left; by left).
    intros [[Hx|Hx] | [->|Hx]]; [apply Hr; left; by right | by eapply reached_edge | done | apply Hr; by right].
  - intros x Hx. rewrite elem_of_app, elem_of_union, elem_of_singleton.
    destruct (Hi x Hx) as [[-> | ?]%elem_of_cons | ?]; auto.
  - intros x. rewrite elem_of_union, elem_of_singleton. intros [->|Hx].
    + exists v. split; [done|]. intros t Ht. left. rewrite elem_of_app. by right.
    + destruct (Hc x Hx) as (v' & Hcv' & Hs). exists v'. split; [done|]. intros t Ht.
      rewrite elem_of_app, elem_of_union, elem_of_singleton.
      destruct (Hs t Ht) as [[-> | ?]%elem_of_cons | ?]; auto.
  - intros write. setoid_rewrite elem_of_union. setoid_rewrite elem_of_singleton.
    assert (Hold : write ∈ w_writes w <-> exists x, x ∈ w_visited w /\ contributes x (VWrite write)) by apply Hw.
    destruct v as [port|gate|write'| |]; rewrite ?elem_of_app, ?list_elem_of_singleton, Hold;
      (split; [naive_solver|]); intros (x & [->|Hx] & Hcx); try (pose proof (contributes_fun _ _ _ Hcv Hcx)); naive_solver.
  - intros gate. setoid_rewrite elem_of_union. setoid_rewrite elem_of_singleton.
    assert (Hold : gate ∈ w_gates w <-> exists x, x ∈ w_visited w /\ contributes x (VGate gate)) by apply Hg.
    destruct v as [port|gate'|write| |]; rewrite ?elem_of_app, ?list_elem_of_singleton, Hold;
      (split; [naive_solver|]); intros (x & [->|Hx] & Hcx); try (pose proof (contributes_fun _ _ _ Hcv Hcx)); naive_solver.
  - intros x. rewrite elem_of_union, elem_of_singleton.
    assert (Hold : x ∈ w_replies w <-> x ∈ w_visited w /\ contributes x VReply) by apply Hp.
    destruct v as [port|gate|write| |]; rewrite ?elem_of_app, ?list_elem_of_singleton, Hold;
      (split; [naive_solver|]); intros [[->|Hx] Hcx]; try (pose proof (contributes_fun _ _ _ Hcv Hcx)); naive_solver.
  - destruct v as [port|gate|write| |]; try done. rewrite fmap_app. apply list.NoDup_app.
    split; [done|]. split; [|apply list.NoDup_singleton].
    intros x (w' & -> & (y & Hy & Hcy)%Hw)%list_elem_of_fmap Hx%list_elem_of_singleton.
    apply contributes_write in Hcv as [Hid _], Hcy as [Hid' _]. congruence.
Qed.

(** When the queue is empty, the visited nodes are the reached ones. *)
Lemma walk_inv_final w id : walk_inv [] w -> id ∈ w_visited w <-> Reached id.
Proof using.
  intros [Hr Hi Hc _ _ _ _]. split; [by auto|]. induction 1 as [id Hin|id v target _ IH Hcv Ht].
  - by destruct (Hi id Hin) as [[]%not_elem_of_nil|].
  - destruct (Hc id IH) as (v' & Hcv' & Hs). rewrite (contributes_fun _ _ _ Hcv Hcv') in Ht.
    by destruct (Hs target Ht) as [[]%not_elem_of_nil|].
Qed.

(** *** Termination *)

(** The edges that may still add to the queue. *)
Definition open_edges (w : Walk) : list CommandGraphEdge :=
  filter (fun edge => cedge_from edge ∉ w_visited w) (flow_edges flow).

Lemma successors_bound id v :
  (length (successors flow id v) <= length (filter (fun edge => cedge_from edge = id) (flow_edges flow)))%nat.
Proof using.
  destruct v; simpl; rewrite ?length_fmap; try lia; by apply length_filter_le; intros edge [? _].
Qed.

Lemma open_edges_record id v w :
  id ∉ w_visited w ->
  (length (open_edges (record_visit w id v)) + length (successors flow id v) <= length (open_edges w))%nat.
Proof using.
  intros Hid. pose proof (open_edges_visit (flow_edges flow) (w_visited w) id Hid).
  pose proof (successors_bound id v). unfold open_edges. cbn [record_visit w_visited]. lia.
Qed.

(** Enough fuel gives a result, and a walk that ends well has visited the
    reached nodes. *)
Lemma walk_result fuel queue w :
  walk_inv queue w -> (length queue + length (open_edges w) < fuel)%nat ->
  exists r, walk fuel queue w = Some r /\
    (forall w', r = Ok w' -> walk_inv [] w') /\
    (no_panic r \/ exists id node e, Reached id /\ nodes !! id = Some node /\ visit node = Panic e).
Proof using node_keys.
  revert queue w. induction fuel as [|fuel IH]; intros queue w Hinv Hfuel; [lia|].
  cbn [CommandPlan.walk]. destruct queue as [|id queue].
  { exists (Ok w). split; [done|]. split; [by intros w' [= <-] | by left]. }
  cbn [length] in Hfuel. case_bool_decide as Hv.
  { apply IH; [by eapply walk_inv_skip | lia]. }
  destruct (nodes !! id) as [node|] eqn:En; cbn [ok_or mbind Result_bind].
  2: { eexists. split; [done|]. split; [done | by left]. }
  destruct (visit node) as [v|e|e] eqn:Ev.
  - pose proof (open_edges_record id v w Hv). apply IH.
    + apply walk_inv_visit; [done..|]. by exists node.
    + rewrite length_app. lia.
  - eexists. split; [done|]. split; [done | by left].
  - eexists. split; [done|]. split; [done|]. right. exists id, node, e.
    split; [|done]. apply (inv_reached _ _ Hinv). left. by left.
Qed.
End walk_spec.


(** ** Confirmations *)

(** A human has confirmed the command for this gate, recently, and the command
    expires soon. *)
Record confirmed (parse_rfc3339 : string -> option DateTime) (node : CommandGraphNode) (document : Json)
    (now now2 : DateTime) : Prop := {
  conf_token : exists token, string_at document "confirmationToken" = Some token /\
    (MIN_CONFIRMATION_TOKEN_LENGTH <= length (str_bytes (str_trim token)))%nat /\
    has_whitespace (str_bytes (str_trim token)) = false;
  conf_operator : exists actor, string_at document "approvedBy" = Some actor /\ human_operator actor = true;
  conf_approved : exists text t, string_at document "approvedAt" = Some text /\ parse_rfc3339 text = Some t /\
    now - max_confirmation_age node * ms <= t <= now + 30 * 1000 * ms;
  conf_expiry : exists text t, string_at document "expiresAt" = Some text /\ parse_rfc3339 text = Some t /\
    now2 < t <= now + MAX_COMMAND_TTL_MS * ms;
}.

Lemma shift_time_Ok t delta t' : shift_time t delta = Ok t' -> t' = t + delta.
Proof. unfold shift_time. destruct (_ && _); by intros [= <-]. Qed.

Lemma check_not_expired_Ok parse_rfc3339 text now t :
  check_not_expired parse_rfc3339 text now = Ok t <-> parse_rfc3339 text = Some t /\ now < t.
Proof.
  unfold check_not_expired. rewrite bind_Ok. setoid_rewrite ok_or_Ok. setoid_rewrite bind_Ok.
  setoid_rewrite ensure_Ok. setoid_rewrite negb_true_iff. setoid_rewrite Z.leb_gt. split.
  - by intros (t' & Hp & [] & Hlt & [= <-]).
  - intros [Hp Hlt]. exists t. split; [done|]. by exists ().
Qed.

Lemma validate_confirmation_Ok parse_rfc3339 node document now now2 :
  validate_confirmation parse_rfc3339 node document now now2 = Ok () ->
  confirmed parse_rfc3339 node document now now2.
Proof.
  unfold validate_confirmation. intros (token & Ht%ok_or_Ok & H)%bind_Ok.
  apply bind_Ok in H as ([] & Hws%ensure_Ok%negb_true_iff & H).
  apply bind_Ok in H as ([] & Hactor%ensure_Ok & H).
  apply bind_Ok in H as (text & Htext%ok_or_Ok & H). apply bind_Ok in H as (t & Hp%ok_or_Ok & H).
  apply bind_Ok in H as (latest & Hl%shift_time_Ok & H).
  apply bind_Ok in H as ([] & Hle%ensure_Ok%negb_true_iff%Z.ltb_ge & H).
  apply bind_Ok in H as (earliest & He%shift_time_Ok & H).
  apply bind_Ok in H as ([] & Hge%ensure_Ok%negb_true_iff%Z.ltb_ge & H).
  apply bind_Ok in H as (exp & Hexp & H). apply bind_Ok in Hexp as (etext & Hetext%ok_or_Ok & Hexp).
  apply check_not_expired_Ok in Hexp as [Hpe Hnow2].
  apply bind_Ok in H as (deadline & Hd%shift_time_Ok & Hdl%ensure_Ok%negb_true_iff%Z.ltb_ge).
  constructor.
  - destruct (string_at document "confirmationToken") as [token0|]; [|done].
    cbn [fmap option_fmap option_map] in Ht.
    case_bool_decide; [|done]. injection Ht as <-. by exists token0.
  - destruct (string_at document "approvedBy") as [actor|]; [|done]. by exists actor.
  - exists text, t. split; [done|]. split; [done|]. lia.
  - exists etext, exp. split; [done|]. split; [done|]. lia.
Qed.

Section properties.
Context (parse_json : bytes -> option Json) (parse_rfc3339 : string -> option DateTime)
        (clock : option string -> nat -> DateTime).

Lemma node_map_keys flow id node : node_map flow !! id = Some node -> cnode_id node = id.
Proof using. intros Hn%collect_map_Some. apply list_elem_of_fmap in Hn as (n & [= -> ->] & _). done. Qed.

Lemma mapping_map_elem package id mapping :
  mapping_map package !! id = Some mapping -> mapping ∈ pkg_point_mappings package /\ map_point_id mapping = id.
Proof using. intros Hn%collect_map_Some. apply list_elem_of_fmap in Hn as (m & [= -> ->] & ?). done. Qed.

Abbreviation plan := (plan_command_execution parse_json parse_rfc3339 clock).
Abbreviation reached package flow := (Reached parse_rfc3339 clock flow (node_map flow) (mapping_map package)).
Abbreviation yields package flow := (contributes parse_rfc3339 clock (node_map flow) (mapping_map package)).

Lemma walk_flow_result package flow document :
  exists r, walk_flow parse_rfc3339 clock package flow document = Some r /\
    (forall w, r = Ok w -> walk_inv parse_rfc3339 clock flow (node_map flow) (mapping_map package) document [] w) /\
    (no_panic r \/ exists id node e, reached package flow document id /\ node_map flow !! id = Some node /\
       visit parse_rfc3339 clock document (mapping_map package) node = Panic e).
Proof using.
  apply (walk_result parse_rfc3339 clock flow (node_map flow) (mapping_map package) document).
  - apply node_map_keys.
  - apply walk_inv_initial.
  - unfold walk_fuel.
    assert (length (open_edges flow empty_walk) <= length (flow_edges flow))%nat; [|lia].
    unfold open_edges. rewrite <- (filter_all (fun _ => True) (flow_edges flow)) at 2 by done.
    by apply length_filter_le.
Qed.

Lemma plan_Ok package id payload p :
  plan package id payload = Some (Ok p) ->
  exists flow document command_id w,
    plan_header parse_json parse_rfc3339 clock package id payload = Ok (flow, document, command_id) /\
    plan_of_walk id flow document command_id w = Ok p /\
    walk_inv parse_rfc3339 clock flow (node_map flow) (mapping_map package) document [] w.
Proof using.
  unfold plan_command_execution.
  destruct (plan_header _ _ _ _ _ _) as [[[flow document] command_id]|e|e]; [|done..].
  destruct (walk_flow_result package flow document) as (r & -> & Hinv & _). intros [= Hp].
  apply bind_Ok in Hp as (w & -> & Hp). exists flow, document, command_id, w. auto.
Qed.

Lemma plan_of_walk_Ok id flow document command_id w p :
  plan_of_walk id flow document command_id w = Ok p ->
  plan_flow p = flow /\ plan_command_id p = command_id /\ plan_writes p = w_writes w /\
  plan_reply_node_ids p = w_replies w /\ plan_safety_gates p = w_gates w /\
  plan_writes p <> [] /\ plan_reply_node_ids p <> [].
Proof using.
  unfold plan_of_walk. intros ([] & Hw%ensure_Ok%negb_true_iff%bool_decide_eq_false & H)%bind_Ok.
  apply bind_Ok in H as ([] & Hr%ensure_Ok%negb_true_iff%bool_decide_eq_false & [= <-]). simpl.
  repeat split; try done; intros E; by rewrite E in *.
Qed.

(** *** No panic on accepted flows *)

(** The clock is far enough from the ends of the calendar. *)
Definition clock_in_range : Prop := forall who n,
  MIN_UTC + 7 * 24 * 60 * 60 * 1000 * ms <= clock who n <= MAX_UTC - MAX_COMMAND_TTL_MS * ms.

Lemma no_panic_fmap {A B} (f : A -> B) (r : Result A) : no_panic r -> no_panic (f <$> r).
Proof using. by destruct r. Qed.

Lemma no_panic_plan_point_write node document mappings : no_panic (plan_point_write node document mappings).
Proof using.
  unfold plan_point_write, check_requested_device, check_range, write_verification, write_tolerance, telemetry_value.
  repeat first [ progress no_panic_tac
               | apply no_panic_bind; [|intros] | apply no_panic_with_context | apply no_panic_fmap
               | match goal with |- no_panic (match ?x with _ => _ end) => destruct x end ].
Qed.

Lemma no_panic_evaluate_condition node document : no_panic (evaluate_condition node document).
Proof using.
  unfold evaluate_condition. apply no_panic_bind; [no_panic_tac|]. intros actual _. cbv zeta.
  repeat (match goal with |- no_panic (if ?x then _ else _) => destruct x end; [no_panic_tac|]). done.
Qed.

Lemma no_panic_check_not_expired text now : no_panic (check_not_expired parse_rfc3339 text now).
Proof using. unfold check_not_expired. no_panic_tac. Qed.

Lemma no_panic_shift_time t delta : MIN_UTC <= t + delta <= MAX_UTC -> no_panic (shift_time t delta).
Proof using.
  intros H. unfold shift_time.
  by rewrite (proj2 (Z.leb_le _ _)), (proj2 (Z.leb_le _ _)) by lia.
Qed.

Lemma no_panic_safety_gate node document :
  clock_in_range -> 0 <= max_confirmation_age node <= 7 * 24 * 60 * 60 * 1000 ->
  no_panic (plan_safety_gate parse_rfc3339 clock node document).
Proof using.
  intros Hclock Hage. unfold plan_safety_gate, validate_expiry, validate_confirmation, required_expiry.
  pose proof (Hclock (Some (cnode_id node)) 1%nat) as Hnow.
  unfold MAX_COMMAND_TTL_MS, ms, MIN_UTC, MAX_UTC in *.
  repeat first [ progress no_panic_tac
               | apply no_panic_check_not_expired
               | apply no_panic_shift_time; unfold MIN_UTC, MAX_UTC; lia
               | apply no_panic_bind; [|intros]
               | match goal with |- no_panic (match ?x with _ => _ end) => destruct x end ].
Qed.

Lemma accepted_confirmation_age flow mappings node :
  nodes_ok flow mappings -> node ∈ flow_nodes flow -> cnode_kind node = SafetyGate ->
  0 <= max_confirmation_age node <= 7 * 24 * 60 * 60 * 1000.
Proof using.
  intros (_ & Hall & _) Hin Hk. destruct (Forall_elem _ _ _ Hall Hin) as [_ Hcheck].
  unfold check_node, check_safety_node in Hcheck. rewrite Hk in Hcheck.
  rewrite (bool_decide_false (SafetyGate = PointWrite)), (bool_decide_true (SafetyGate = SafetyGate)) in Hcheck by done.
  apply bind_Ok in Hcheck as ([] & _ & Hcheck). apply bind_Ok in Hcheck as ([] & _ & Hcheck).
  apply bind_Ok in Hcheck as ([] & _ & Hcheck). apply bind_Ok in Hcheck as ([] & Hage & _).
  unfold check_param in Hage. unfold max_confirmation_age, DEFAULT_MAX_CONFIRMATION_AGE_MS.
  destruct (cnode_params node !! _) as [v|]; cbn [mbind option_bind]; [|lia].
  apply ensure_Ok in Hage. destruct (json_as_u64 v) as [n|]; [|lia].
  apply andb_true_iff in Hage as [Hlo%Z.ltb_lt Hhi%Z.leb_le]. destruct (_ <=? _); lia.
Qed.

Lemma no_panic_visit flow mappings points document node :
  clock_in_range -> nodes_ok flow mappings -> node ∈ flow_nodes flow ->
  no_panic (visit parse_rfc3339 clock document points node).
Proof using.
  intros Hclock Hok Hin. unfold visit. destruct (cnode_kind node) eqn:Hk; try done.
  - apply no_panic_bind; [apply no_panic_evaluate_condition | done].
  - apply no_panic_fmap, no_panic_safety_gate; [done|]. by eapply accepted_confirmation_age.
  - apply no_panic_bind; [apply no_panic_plan_point_write | done].
Qed.

Lemma plan_header_Ok package id payload flow document command_id :
  plan_header parse_json parse_rfc3339 clock package id payload = Ok (flow, document, command_id) ->
  flow ∈ pkg_command_flows package /\ flow_id flow = id /\ flow_enabled flow = true /\
  parse_json payload = Some document /\
  forall text, string_at document "expiresAt" = Some text ->
    exists t, parse_rfc3339 text = Some t /\ clock None 0%nat < t.
Proof using.
  unfold plan_header. intros (f & Hf%ok_or_Ok & H)%bind_Ok.
  apply bind_Ok in H as ([] & He%ensure_Ok & H). apply bind_Ok in H as (doc & Hd%ok_or_Ok & H).
  apply bind_Ok in H as (cid & _ & H). apply bind_Ok in H as ([] & Hx & [= -> -> ->]).
  apply find_first_Some in Hf as [Hin Hid%bool_decide_eq_true].
  split; [done|]. split; [done|]. split; [done|]. split; [done|]. intros text Ht.
  unfold validate_expiry in Hx. rewrite Ht in Hx. apply bind_Ok in Hx as (t & Hx & _).
  apply check_not_expired_Ok in Hx. by exists t.
Qed.

Lemma no_panic_header package id payload :
  no_panic (plan_header parse_json parse_rfc3339 clock package id payload).
Proof using.
  unfold plan_header, validate_expiry. no_panic_tac. destruct (string_at _ "expiresAt"); [|exact I].
  no_panic_tac. apply no_panic_check_not_expired.
Qed.

(** Planning a command always ends with an answer: the walk over the graph
    of the flow terminates on every graph, cyclic ones included.  It never
    panics when the flows of the package were accepted by the configuration
    check and the clock is not at the end of the calendar. *)
Theorem planning_ends package id payload :
  exists r, plan package id payload = Some r /\
    (clock_in_range ->
     (forall flow, flow ∈ pkg_command_flows package -> nodes_ok flow (pkg_point_mappings package)) ->
     no_panic r).
Proof using.
  unfold plan_command_execution. pose proof (no_panic_header package id payload) as Hh.
  destruct (plan_header _ _ _ _ _ _) as [[[flow document] command_id]|e|e] eqn:E;
    [|eexists; (split; [done|]); done..].
  apply plan_header_Ok in E as (Hin & _).
  destruct (walk_flow_result package flow document) as (r & -> & _ & Hr). eexists. split; [done|].
  intros Hclock Hflows. apply no_panic_bind; [|intros w _; unfold plan_of_walk; no_panic_tac].
  destruct Hr as [Hr|(nid & node & e & _ & Hn & Hv)]; [done|].
  apply collect_map_Some, list_elem_of_fmap in Hn as (n & [= -> ->] & Hn).
  pose proof (no_panic_visit flow _ (mapping_map package) document n Hclock (Hflows flow Hin) Hn) as Hnp.
  by rewrite Hv in Hnp.
Qed.

(** [C6] A plan holds exactly the writes the command selects: one for every
    write node that is reached from an MQTT input through the ports the
    document selects, each node once; every such write goes to a writable point
    of the package, carries a value of the point's type within its range, and
    agrees with the device and the point the command names.  An expired command
    has no plan, nor one that selects no write or no reply. *)
Theorem plan_selects_reached_writes package id payload p :
  plan package id payload = Some (Ok p) ->
  exists document,
    parse_json payload = Some document /\
    plan_flow p ∈ pkg_command_flows package /\ flow_enabled (plan_flow p) = true /\
    (forall text, string_at document "expiresAt" = Some text ->
       exists t, parse_rfc3339 text = Some t /\ clock None 0%nat < t) /\
    (forall w, w ∈ plan_writes p <->
       exists nid, reached package (plan_flow p) document nid /\ yields package (plan_flow p) document nid (VWrite w)) /\
    NoDup (pw_node_id <$> plan_writes p) /\
    Forall (fun w => write_ok (mapping_map package) document w /\
                     pw_mapping w ∈ pkg_point_mappings package) (plan_writes p) /\
    plan_writes p <> [] /\ plan_reply_node_ids p <> [].
Proof using.
  intros (flow & document & cid & w & Hh & Hp & Hinv)%plan_Ok.
  apply plan_header_Ok in Hh as (Hin & _ & Hen & Hdoc & Hexp).
  apply plan_of_walk_Ok in Hp as (-> & _ & Hw & Hr & _ & Hne & Hnr). exists document.
  assert (Hwrites : forall wr, wr ∈ plan_writes p <-> exists nid,
    reached package flow document nid /\ yields package flow document nid (VWrite wr)).
  { intros wr. rewrite Hw, (inv_writes _ _ _ _ _ _ _ _ Hinv). by setoid_rewrite walk_inv_final. }
  split_and!; try done.
  - rewrite Hw. apply Hinv.
  - apply list.Forall_forall. intros wr (nid & _ & Hc)%Hwrites.
    apply contributes_write in Hc as [_ Hok]; [|apply node_map_keys]. split; [done|].
    destruct Hok as [(pid & Hm & _) _ _ _ _ _]. by apply mapping_map_elem in Hm as [? _].
Qed.

(** [C4] No plan passes a safety gate that demands a confirmation without one:
    every gate on the selected part of the graph is planned, and if it requires
    a confirmation the document carries a token of at least 24 characters, the
    approval of a human operator within the gate's age limit, and an expiry at
    most five minutes ahead. *)
Theorem reached_gates_are_confirmed package id payload p nid node :
  plan package id payload = Some (Ok p) ->
  forall document, parse_json payload = Some document ->
  reached package (plan_flow p) document nid -> node_map (plan_flow p) !! nid = Some node ->
  cnode_kind node = SafetyGate ->
  (exists gate, gate ∈ plan_safety_gates p /\ gate_node_id gate = nid) /\
  (requires_confirmation node = true ->
   confirmed parse_rfc3339 node document (clock (Some nid) 1%nat) (clock (Some nid) 2%nat)).
Proof using.
  intros (flow & document' & cid & w & Hh & Hp & Hinv)%plan_Ok document Hdoc.
  apply plan_header_Ok in Hh as (_ & _ & _ & Hdoc' & _). rewrite Hdoc' in Hdoc. injection Hdoc as ->.
  apply plan_of_walk_Ok in Hp as (-> & _ & _ & _ & -> & _). intros Hreach Hn Hk.
  apply (proj2 (walk_inv_final _ _ _ _ _ _ _ nid Hinv)) in Hreach as Hvis.
  destruct (inv_closed _ _ _ _ _ _ _ _ Hinv nid Hvis) as (v & (node' & Hn' & Hv) & _).
  rewrite Hn in Hn'. injection Hn' as <-. apply node_map_keys in Hn as Hid.
  assert (Hgate : exists gate, plan_safety_gate parse_rfc3339 clock node document = Ok gate /\ v = VGate gate).
  { unfold visit in Hv. rewrite Hk in Hv. destruct (plan_safety_gate _ _ _ _) as [gate| |]; try done.
    injection Hv as <-. by exists gate. }
  destruct Hgate as (gate & Eg & ->).
  assert (Hin : gate ∈ w_gates w).
  { apply (inv_gates _ _ _ _ _ _ _ _ Hinv). exists nid. split; [done|]. by exists node. }
  unfold plan_safety_gate in Eg. rewrite Hid in Eg.
  apply bind_Ok in Eg as ([] & _ & Eg). apply bind_Ok in Eg as ([] & Hconf & Eg).
  apply bind_Ok in Eg as (max & _ & [= Hgate]). split.
  - exists gate. split; [done | by rewrite <- Hgate].
  - intros Hreq. rewrite Hreq in Hconf. by apply validate_confirmation_Ok.
Qed.
End properties.

(** ** Examples *)

Section examples.
Definition confirming_gate : CommandGraphNode :=
  {| cnode_id := "gate"; cnode_kind := SafetyGate; cnode_label := "gate"; cnode_ref_id := None;
     cnode_params := {["require_confirmation" := JBool true]}; cnode_x := 0; cnode_y := 0 |}.

Definition confirming_flow : CommandFlowConfig :=
  {| flow_id := "flow-1"; flow_name := "write"; flow_enabled := true;
     flow_protocol_connection_id := ""; flow_mqtt_connection_id := "commands";
     flow_subscribe_topic := "edge/command"; flow_qos := 1;
     flow_reply_topic_template := "edge/{edge_id}/reply/{command_id}";
     flow_nodes := [example_node "input" MqttInput None; confirming_gate;
                    example_node "write" PointWrite (Some "setpoint");
                    example_node "reply" MqttReply None];
     flow_edges := example_edges |}.

Definition example_package : EdgeConfigPackage :=
  {| pkg_edge_id := "edge-1"; pkg_version := "v1"; pkg_device_models := []; pkg_devices := [];
     pkg_protocol_connections := []; pkg_mqtt_uplinks := []; pkg_data_configs := [];
     pkg_command_flows := [confirming_flow]; pkg_point_mappings := [setpoint_mapping];
     pkg_collection_tasks := []; pkg_algorithms := [] |}.

Definition example_document (confirmation : list (string * Json)) : Json :=
  JObject ([("commandId", JString "c1"); ("value", JInt 42)] ++ confirmation)%list.

Definition example_confirmation : list (string * Json) :=
  [("confirmationToken", JString "0123456789abcdef01234567"); ("approvedBy", JString "operator-7");
   ("approvedAt", JString "10"); ("expiresAt", JString "20")].

(** Timestamps written as whole seconds. *)
Definition seconds (text : string) : option DateTime :=
  (fun n => n * 1000000000) <$> parse_dec (u_max 32) (str_bytes text).

Definition example_plan (document : Json) : option (Result CommandExecutionPlan) :=
  plan_command_execution (fun _ => Some document) seconds (fun _ _ => 12000000000) example_package
    "flow-1" [].

(** Without the confirmation the gate stops the command. *)
Example unconfirmed_is_refused :
  example_plan (example_document []) =
  Some (Err "safety gate gate requires a confirmationToken of at least 24 characters").
Proof. vm_compute. reflexivity. Qed.

Definition example_write : PlannedPointWrite :=
  {| pw_node_id := "write"; pw_mapping := setpoint_mapping; pw_value := VFloat (f64_of_Z 42);
     pw_verification := Response; pw_readback_tolerance := f64_of_decimal 1 (-6) |}.

Definition example_gate : PlannedCommandSafetyGate :=
  {| gate_node_id := "gate"; gate_source_path := "requestedBy"; gate_source := None;
     gate_allowed_sources := []; gate_max_commands := None; gate_window_ms := None |}.

Definition confirmed_plan : CommandExecutionPlan :=
  {| plan_flow := confirming_flow; plan_command_id := "c1"; plan_command_source := None;
     plan_writes := [example_write]; plan_reply_node_ids := ["reply"];
     plan_safety_gates := [example_gate] |}.

Example confirmed_is_planned :
  example_plan (example_document example_confirmation) = Some (Ok confirmed_plan).
Proof. vm_compute. reflexivity. Qed.

Lemma plan_selects_reached_writes_witness :
  example_plan (example_document example_confirmation) = Some (Ok confirmed_plan) /\
  pw_mapping example_write ∈ pkg_point_mappings example_package.
Proof.
  split; [exact confirmed_is_planned|].
  destruct (plan_selects_reached_writes (fun _ => Some (example_document example_confirmation)) seconds
    (fun _ _ => 12000000000) example_package "flow-1" [] confirmed_plan confirmed_is_planned)
    as (document & _ & _ & _ & _ & _ & _ & Hall & _).
  apply (Forall_elem _ _ example_write Hall). left.
Defined.

Lemma reached_gates_are_confirmed_witness :
  confirmed seconds confirming_gate (example_document example_confirmation) 12000000000 12000000000.
Proof.
  eapply (reached_gates_are_confirmed (fun _ => Some (example_document example_confirmation)) seconds
    (fun _ _ => 12000000000) example_package "flow-1" [] confirmed_plan "gate" confirming_gate
    confirmed_is_planned _ eq_refl); [| |reflexivity|reflexivity].
  - apply (reached_edge _ _ _ _ _ _ "input" (VPort None)).
    + apply reached_input. vm_compute. left.
    + exists (example_node "input" MqttInput None). split; vm_compute; reflexivity.
    + vm_compute. left.
  - vm_compute. reflexivity.
Defined.
End examples.
