(* ===== verification/NetSession.v ===== *)
(** The session of an adapter with a device on the network: the connection is
    opened on demand, kept between the calls and dropped when an exchange fails.

    The adapters of IEC 60870-5-104 ([iec104.rs]), Siemens S7 ([siemens_s7.rs]) and
    Omron FINS ([omron_fins.rs]) under [crates/edge-runtime/src] have these fields
    and steps; a client is a handle into the state of the network.  The class
    [TcpStream] is the byte stream of the TCP clients. *)

From Stdlib Require Import ZArith Lia.
From S2P Require Import Prelude Model ConfigTypes.

Open Scope Z_scope.

(** ** Streams *)

(** A TCP stream: [connect] with its timeout and [set_nodelay], [write_all],
    and [read_exact] of a number of bytes. *)
Class TcpStream (T : Type) := {
  tcp_connect : string -> M T ();
  tcp_write_all : bytes -> M T ();
  tcp_read_exact : nat -> M T bytes;
}.

(** ** Sessions *)

Record NetSession (W C : Type) := {
  session_net : W;
  session_mappings : list TelemetryPointMapping;
  session_client : option C;
  connection_generation : Z;
}.
Arguments session_net {W C} _.
Arguments session_mappings {W C} _.
Arguments session_client {W C} _.
Arguments connection_generation {W C} _.

Section session.
Context {W C : Type}.

(** A call on the network. *)
Definition on_net {A} (call : M W A) : M (NetSession W C) A := fun a =>
  let '(net, r) := call (session_net a) in
  ({| session_net := net; session_mappings := session_mappings a; session_client := session_client a;
      connection_generation := connection_generation a |}, r).

Definition set_client (client : option C) : M (NetSession W C) () :=
  modify (fun a => {| session_net := session_net a; session_mappings := session_mappings a;
                      session_client := client; connection_generation := connection_generation a |}).

Definition clear_client : M (NetSession W C) () := set_client None.

(** [self.connection_generation.saturating_add(1)] and [self.client = Some(client)]. *)
Definition install_client (client : C) : M (NetSession W C) () :=
  modify (fun a => {| session_net := session_net a; session_mappings := session_mappings a;
                      session_client := Some client; connection_generation := sat_add 64 (connection_generation a) 1 |}).

(** [self.mappings = mappings] after their validation. *)
Definition put_mappings (mappings : list TelemetryPointMapping) : M (NetSession W C) () :=
  modify (fun a => {| session_net := session_net a; session_mappings := mappings;
                      session_client := session_client a; connection_generation := connection_generation a |}).

(** [if let Err(error) = r { cleanup; return Err(error) }], with the context added
    to the error. *)
Definition on_error {A} (m : M (NetSession W C) A) (cleanup : M (NetSession W C) ())
    (context : string -> string) : M (NetSession W C) A := fun a =>
  match m a with
  | (a, Err e) => (fst (cleanup a), Err (context e))
  | r => r
  end.

Definition new_session (net : W) (mappings : list TelemetryPointMapping) : NetSession W C :=
  {| session_net := net; session_mappings := mappings; session_client := None; connection_generation := 0 |}.
End session.
