(* ===== verification/ModbusAdapter.v ===== *)
(** What the Modbus RTU and TCP adapters share,
    [crates/edge-runtime/src/modbus_rtu.rs] and [crates/edge-runtime/src/modbus_tcp.rs].

    The two files repeat each other for addresses, write commands, write batches
    and the loop over the read windows; this file has that part once, the
    section [adapter] over the parser of addresses, and proves that the loop over
    the windows yields what reading every point on its own yields.  The frames
    and the exchange with the device are in [ModbusRtu] and [ModbusTcp]. *)

From Stdlib Require Import ZArith Lia.
From S2P Require Import Prelude RustStr Floats Model ConfigTypes ConfigParse ModbusBatch.
From S2P Require Import ModbusCodec SerialBus CustomSerial CommandPlan.

Open Scope string_scope.
Open Scope Z_scope.

Definition READ_COILS : Z := 0x01.
Definition READ_DISCRETE_INPUTS : Z := 0x02.
Definition READ_HOLDING_REGISTERS : Z := 0x03.
Definition READ_INPUT_REGISTERS : Z := 0x04.
Definition WRITE_SINGLE_COIL : Z := 0x05.
Definition WRITE_SINGLE_REGISTER : Z := 0x06.
Definition WRITE_MULTIPLE_COILS : Z := 0x0F.
Definition WRITE_MULTIPLE_REGISTERS : Z := 0x10.
Definition MAX_PDU_BYTES : Z := 253.

Record ModbusAddress := { ma_unit_id : Z; ma_function : Z; ma_offset : Z }.
Record ModbusWriteCommand := { wc_function : Z; wc_values : list Z }.
Record ProtocolPointWrite := { ppw_mapping : TelemetryPointMapping; ppw_value : TelemetryValue }.

Definition is_bit_function (function : Z) : bool :=
  (function =? READ_COILS) || (function =? READ_DISCRETE_INPUTS).

(** ** Addresses *)

(** The function and the reference base of an address kind; [protocol] is the
    name in the message. *)
Definition address_area (protocol kind : string) : Result (Z * Z) :=
  if bool_decide (kind = "holding_register") then Ok (READ_HOLDING_REGISTERS, 40001)
  else if bool_decide (kind = "input_register") then Ok (READ_INPUT_REGISTERS, 30001)
  else if bool_decide (kind = "coil") then Ok (READ_COILS, 1)
  else if bool_decide (kind = "discrete_input") then Ok (READ_DISCRETE_INPUTS, 10001)
  else bail ("Modbus " ++ protocol ++ " address kind is not supported: " ++ kind).

(** The unit before the colon, and the text of the address. *)
Definition address_unit (unit_name value : string) (default_unit : Z) : Result (Z * string) :=
  match split_once 58 (str_bytes value) with
  | Some (unit, address) =>
      unit_id ← ok_or (parse_dec (u_max 8) unit)
        ("invalid Modbus " ++ unit_name ++ " id: " ++ str_of_bytes unit);
      Ok (unit_id, str_of_bytes address)
  | None => Ok (default_unit, value)
  end.

Definition address_offset (function reference_base : Z) (text : string) : Result Z :=
  raw_address ← ok_or (parse_dec (u_max 32) (str_bytes text)) ("invalid Modbus address: " ++ text);
  let offset :=
    if reference_base <=? raw_address then raw_address - reference_base
    else if is_bit_function function && (0 <? raw_address) then raw_address - 1
    else raw_address in
  ensure (offset <=? u_max 16) "Modbus address exceeds u16 range";;
  Ok offset.

Definition rtu_parse_address (kind value : string) (default_slave_id : Z) : Result ModbusAddress :=
  '(function, reference_base) ← address_area "RTU" kind;
  '(slave_id, text) ← address_unit "slave" value default_slave_id;
  ensure ((1 <=? slave_id) && (slave_id <=? 247)) "Modbus slave id must be between 1 and 247";;
  offset ← address_offset function reference_base text;
  Ok {| ma_unit_id := slave_id; ma_function := function; ma_offset := offset |}.

Definition tcp_parse_address (kind value : string) (default_unit_id : Z) : Result ModbusAddress :=
  '(function, reference_base) ← address_area "TCP" kind;
  '(unit_id, text) ← address_unit "unit" value default_unit_id;
  offset ← address_offset function reference_base text;
  Ok {| ma_unit_id := unit_id; ma_function := function; ma_offset := offset |}.

(** ** Write commands *)

Definition encode_write_command (address : ModbusAddress) (point_address : PointAddress)
    (value_type : TelemetryType) (value : TelemetryValue) : Result ModbusWriteCommand :=
  let function := ma_function address in
  if function =? READ_COILS then
    match value with
    | VBoolean b => Ok {| wc_function := WRITE_SINGLE_COIL; wc_values := [if b then 0xFF00 else 0x0000] |}
    | _ => bail "Modbus coil writes require a boolean value"
    end
  else if function =? READ_HOLDING_REGISTERS then
    values ← encode_modbus_register_values value_type point_address value;
    Ok {| wc_function := if bool_decide (length values = 1%nat)
                         then WRITE_SINGLE_REGISTER else WRITE_MULTIPLE_REGISTERS;
          wc_values := values |}
  else if (function =? READ_DISCRETE_INPUTS) || (function =? READ_INPUT_REGISTERS)
  then bail "Modbus input and discrete input areas are read-only"
  else bail "unsupported Modbus write target".

(** The loop that packs coils; an index past the packed bytes panics. *)
Fixpoint pack_coils (index : nat) (values : list Z) (packed : bytes) : Result bytes :=
  match values with
  | [] => Ok packed
  | value :: values =>
      if value =? 0 then pack_coils (S index) values packed
      else if bool_decide (index / 8 < length packed)%nat
      then pack_coils (S index) values (set_bit packed index)
      else Panic "index out of bounds"
  end.

(** The part of a write request after the unit: the function, the address and
    the data. *)
Definition write_pdu (offset : Z) (command : ModbusWriteCommand) : Result bytes :=
  let function := wc_function command in
  let values := wc_values command in
  let quantity := Z.min (Z.of_nat (length values)) (u_max 16) in
  data ←
    (if (function =? WRITE_SINGLE_COIL) || (function =? WRITE_SINGLE_REGISTER) then
       value ← expect (head values) "index out of bounds";
       Ok (to_be_bytes 2 value)
     else if function =? WRITE_MULTIPLE_COILS then
       packed ← pack_coils 0 values (replicate (div_ceil8 (Z.to_nat quantity)) 0);
       Ok (to_be_bytes 2 quantity ++ [wrap 8 (Z.of_nat (length packed))] ++ packed)%list
     else if function =? WRITE_MULTIPLE_REGISTERS then
       Ok (to_be_bytes 2 quantity ++ [wrap 8 (Z.of_nat (length values) * 2)]
           ++ concat (to_be_bytes 2 <$> values))%list
     else Panic "write command function is validated when encoded");
  Ok (function :: to_be_bytes 2 offset ++ data)%list.

(** What a response to the command echoes. *)
Definition expected_echo (command : ModbusWriteCommand) : Result Z :=
  let function := wc_function command in
  if (function =? WRITE_SINGLE_COIL) || (function =? WRITE_SINGLE_REGISTER)
  then expect (head (wc_values command)) "index out of bounds"
  else if (function =? WRITE_MULTIPLE_COILS) || (function =? WRITE_MULTIPLE_REGISTERS)
  then Ok (wrap 16 (Z.of_nat (length (wc_values command))))
  else Panic "write command function is validated when encoded".

Section adapter.
Context (parse_address : string -> string -> Result ModbusAddress) (connection_id : string).

Definition point_address (mapping : TelemetryPointMapping) : Result ModbusAddress :=
  with_context (parse_address (addr_kind (map_address mapping)) (addr_value (map_address mapping)))
    ("invalid point address for " ++ map_point_id mapping).

Definition prepare_point_write (mapping : TelemetryPointMapping) (value : TelemetryValue)
    : Result (ModbusAddress * ModbusWriteCommand) :=
  ensure (bool_decide (map_protocol_connection_id mapping = connection_id))
    ("point " ++ map_point_id mapping ++ " is not bound to connection " ++ connection_id);;
  ensure (is_writable (map_access mapping))
    ("point " ++ map_point_id mapping ++ " is not configured as writable");;
  address ← point_address mapping;
  validate_modbus_point_options (map_address mapping) (map_value_type mapping) (map_access mapping);;
  command ← encode_write_command address (map_address mapping) (map_value_type mapping) value;
  Ok (address, command).

(** The loop over the coils of a batch; [None] when the batch is refused. *)
Fixpoint batch_coils (expected_offset : Z) (prepared : list (ModbusAddress * ModbusWriteCommand))
    : Result (option (list Z)) :=
  match prepared with
  | [] => Ok (Some [])
  | (address, command) :: prepared =>
      if negb (ma_offset address =? expected_offset) || negb (wc_function command =? WRITE_SINGLE_COIL)
      then Ok None
      else
        value ← expect (head (wc_values command)) "index out of bounds";
        next ← ok_or (checked_add 16 expected_offset 1) "Modbus coil batch exceeds address range";
        values ← batch_coils next prepared;
        Ok (option_map (cons (if value =? 0 then 0 else 1)) values)
  end.

(** The loop over the registers of a batch. *)
Fixpoint batch_registers (expected_offset : Z) (prepared : list (ModbusAddress * ModbusWriteCommand))
    : Result (option (list Z)) :=
  match prepared with
  | [] => Ok (Some [])
  | (address, command) :: prepared =>
      if negb (ma_offset address =? expected_offset) ||
         negb ((wc_function command =? WRITE_SINGLE_REGISTER) ||
               (wc_function command =? WRITE_MULTIPLE_REGISTERS))
      then Ok None
      else
        next ← ok_or (checked_add 16 expected_offset (wrap 16 (Z.of_nat (length (wc_values command)))))
          "Modbus register batch exceeds address range";
        values ← batch_registers next prepared;
        Ok (option_map (app (wc_values command)) values)
  end.

Definition limited (limit : nat) (function : Z) (values : option (list Z)) : option ModbusWriteCommand :=
  values ← values;
  if bool_decide (limit < length values)%nat then None
  else Some {| wc_function := function; wc_values := values |}.

(** The batch of writes that were prepared one by one. *)
Definition join_writes (prepared : list (ModbusAddress * ModbusWriteCommand))
    : Result (option (ModbusAddress * ModbusWriteCommand)) :=
  match prepared with
  | [] => Panic "index out of bounds"
  | (first, _) :: _ =>
      if existsb (fun x => negb (ma_unit_id (fst x) =? ma_unit_id first) ||
                           negb (ma_function (fst x) =? ma_function first)) prepared
      then Ok None
      else if ma_function first =? READ_COILS then
        values ← batch_coils (ma_offset first) prepared;
        Ok (option_map (pair first) (limited 1968 WRITE_MULTIPLE_COILS values))
      else if ma_function first =? READ_HOLDING_REGISTERS then
        values ← batch_registers (ma_offset first) prepared;
        Ok (option_map (pair first) (limited 123 WRITE_MULTIPLE_REGISTERS values))
      else Ok None
  end.

Definition prepare_write_batch (writes : list ProtocolPointWrite)
    : Result (option (ModbusAddress * ModbusWriteCommand)) :=
  if bool_decide (length writes < 2)%nat then Ok None
  else
    prepared ← collect_results ((fun w => prepare_point_write (ppw_mapping w) (ppw_value w)) <$> writes);
    join_writes prepared.

(** The search for the longest prefix, from [length] writes down to two. *)
Fixpoint longest_batch (length : nat) (writes : list ProtocolPointWrite) : Result (option nat) :=
  match length with
  | S (S _ as shorter) =>
      match prepare_write_batch (take length writes) with
      | Ok (Some _) => Ok (Some length)
      | Panic e => Panic e
      | _ => longest_batch shorter writes
      end
  | _ => Ok None
  end.

Definition batchable_write_prefix (writes : list ProtocolPointWrite) : Result nat :=
  found ← longest_batch (length writes) writes;
  Ok (default (Nat.min 1 (length writes)) found).

(** ** Reads *)

(** The points of the connection with their addresses and quantities. *)
Fixpoint planned_mappings (mappings : list TelemetryPointMapping)
    : Result (list (TelemetryPointMapping * ModbusAddress * Z)) :=
  match mappings with
  | [] => Ok []
  | mapping :: mappings =>
      if negb (bool_decide (map_protocol_connection_id mapping = connection_id))
      then planned_mappings mappings
      else
        address ← point_address mapping;
        validate_modbus_point_options (map_address mapping) (map_value_type mapping) (map_access mapping);;
        quantity ← modbus_quantity (is_bit_function (ma_function address)) (map_value_type mapping)
                     (map_address mapping);
        rest ← planned_mappings mappings;
        Ok ((mapping, address, quantity) :: rest)
  end.

Definition read_point (index : nat) (planned : TelemetryPointMapping * ModbusAddress * Z) : ModbusReadPoint :=
  let '(_, address, quantity) := planned in
  {| rp_mapping_index := Z.of_nat index; rp_station_id := ma_unit_id address;
     rp_function := ma_function address; rp_offset := ma_offset address; rp_quantity := quantity;
     rp_is_bit := is_bit_function (ma_function address) |}.

(** The sample of a point, out of the payload of its window. *)
Definition point_sample (now : DateTime) (planned : list (TelemetryPointMapping * ModbusAddress * Z))
    (window : ModbusReadWindow) (payload : bytes) (point : ModbusReadPoint) : Result TelemetrySample :=
  '(mapping, _, _) ← expect (planned !! Z.to_nat (rp_mapping_index point)) "index out of bounds";
  point_payload ← extract_point_payload window point payload;
  value ← decode_modbus_value (is_bit_function (rw_function window)) (map_value_type mapping)
            (map_address mapping) point_payload;
  Ok (new_sample (map_device_id mapping) (map_point_id mapping) value Q_Good now).

Section exchange.
(** [exchange] sends the request of a window and returns the data of the
    response; [clock] is read for every point. *)
Context {S : Type} (exchange : ModbusReadWindow -> M S bytes) (clock : Z -> DateTime)
        (planned : list (TelemetryPointMapping * ModbusAddress * Z)).

(** [samples[point.mapping_index] = Some(..)] for the points of a window. *)
Fixpoint fill_samples (window : ModbusReadWindow) (payload : bytes) (points : list ModbusReadPoint)
    (samples : list (option TelemetrySample)) : Result (list (option TelemetrySample)) :=
  match points with
  | [] => Ok samples
  | point :: points =>
      sample ← point_sample (clock (rp_mapping_index point)) planned window payload point;
      fill_samples window payload points (<[Z.to_nat (rp_mapping_index point) := Some sample]> samples)
  end.

Fixpoint read_windows (windows : list ModbusReadWindow) (samples : list (option TelemetrySample))
    : M S (list (option TelemetrySample)) :=
  match windows with
  | [] => mret samples
  | window :: windows =>
      payload ← exchange window;
      samples ← lift (fill_samples window payload (rw_points window) samples);
      read_windows windows samples
  end.

(** From the plan to the samples. *)
Definition read_planned (windows : list ModbusReadWindow) : M S (list TelemetrySample) :=
  samples ← read_windows windows (replicate (length planned) None);
  mret (omap id samples).
End exchange.
End adapter.

Definition write_result (mapping : TelemetryPointMapping) (value : TelemetryValue) : ProtocolWriteResult :=
  {| res_point_id := map_point_id mapping; res_value := value; res_verified := true;
     res_readback_value := None |}.

(** The function of an exception response. *)
Definition exception_function (function : Z) : Z := Z.lor function 0x80.

(** The data bytes of a response to a read. *)
Definition expected_bytes (function quantity : Z) : Z :=
  if is_bit_function function then Z.of_nat (div_ceil8 (Z.to_nat quantity)) else quantity * 2.

(** [u16::from_be_bytes([l[i], l[i + 1]])]. *)
Definition word_at (l : bytes) (i : nat) : Z := from_be_bytes [byte_at l i; byte_at l (S i)].

(** ** A batched read equals direct reads *)

Section read_facts.
Context {S : Type} (exchange : ModbusReadWindow -> M S bytes) (clock : Z -> DateTime)
        (planned : list (TelemetryPointMapping * ModbusAddress * Z)) (windows : list ModbusReadWindow)
        (memory : Z -> Z -> DeviceMemory) (I : S -> Prop).

(** The value of a point read on its own: [memory] is the area of a function of
    a station. *)
Definition direct_value (x : TelemetryPointMapping * ModbusAddress * Z) : Result TelemetryValue :=
  let '(mapping, address, quantity) := x in
  let function := ma_function address in
  decode_modbus_value (is_bit_function function) (map_value_type mapping) (map_address mapping)
    (device_read (memory (ma_unit_id address) function) (is_bit_function function) (ma_offset address) quantity).

Definition planned_sample (i : nat) (xv : (TelemetryPointMapping * ModbusAddress * Z) * TelemetryValue)
    : TelemetrySample :=
  let '((mapping, _, _), value) := xv in
  new_sample (map_device_id mapping) (map_point_id mapping) value Q_Good (clock (Z.of_nat i)).

Definition direct_samples (values : list TelemetryValue) : list TelemetrySample :=
  imap planned_sample (zip planned values).

(** The device answers a window with the contents of its memory. *)
Definition serves (window : ModbusReadWindow) : Prop :=
  forall s, I s -> exists s',
    exchange window s = (s', Ok (device_read (memory (rw_station_id window) (rw_function window))
                                   (rw_is_bit window) (rw_offset window) (rw_quantity window))) /\ I s'.

Abbreviation points := (imap read_point planned).

Lemma lookup_points i p :
  points !! i = Some p -> exists mapping address quantity,
    planned !! i = Some (mapping, address, quantity) /\
    p = {| rp_mapping_index := Z.of_nat i; rp_station_id := ma_unit_id address;
           rp_function := ma_function address; rp_offset := ma_offset address; rp_quantity := quantity;
           rp_is_bit := is_bit_function (ma_function address) |}.
Proof using.
  rewrite list_lookup_imap. destruct (planned !! i) as [[[mapping address] quantity]|]; [|done].
  intros [= <-]. by exists mapping, address, quantity.
Qed.

Definition put_sample (values : list TelemetryValue) (samples : list (option TelemetrySample))
    (p : ModbusReadPoint) : list (option TelemetrySample) :=
  <[Z.to_nat (rp_mapping_index p) := direct_samples values !! Z.to_nat (rp_mapping_index p)]> samples.

Hypothesis Hwidth : Forall point_width points.
Context (values : list TelemetryValue).
Hypothesis Hvalues : Forall2 (fun x v => direct_value x = Ok v) planned values.

Lemma point_sample_direct w p :
  window_ok w -> p ∈ rw_points w -> p ∈ points ->
  exists sample, direct_samples values !! Z.to_nat (rp_mapping_index p) = Some sample /\
    point_sample (clock (rp_mapping_index p)) planned w
      (device_read (memory (rw_station_id w) (rw_function w)) (rw_is_bit w) (rw_offset w) (rw_quantity w)) p = Ok sample.
Proof using Hwidth Hvalues.
  intros Hw Hin Hp. pose proof (Forall_elem _ _ _ (wk_points _ Hw) Hin) as (Hkey & Ho & He).
  pose proof (Forall_elem _ _ _ Hwidth Hp) as [_ [Hq _]].
  apply list_elem_of_lookup in Hp as [i Hi].
  destruct (lookup_points i p Hi) as (mapping & address & quantity & Hpl & Heq).
  destruct (Forall2_lookup_l _ _ _ _ _ Hvalues Hpl) as (v & Hv & Hdir).
  injection Hkey as Hst Hfn Hbit.
  exists (new_sample (map_device_id mapping) (map_point_id mapping) v Q_Good (clock (rp_mapping_index p))).
  assert (Hidx : Z.to_nat (rp_mapping_index p) = i) by (rewrite Heq; simpl; lia).
  rewrite Hidx. split.
  - unfold direct_samples. rewrite list_lookup_imap, (proj2 (lookup_zip_Some _ _ _ _ _) (conj Hpl Hv)).
    simpl. by rewrite Heq.
  - unfold point_sample. rewrite Hidx, Hpl. cbn [expect mbind Result_bind].
    rewrite extract_spec by done. cbn [mbind Result_bind].
    unfold direct_value in Hdir. rewrite <- Hfn, <- Hst.
    assert (Hfn' : rp_function p = ma_function address) by by rewrite Heq.
    assert (Hb' : rp_is_bit p = is_bit_function (ma_function address)) by by rewrite Heq.
    assert (Hof : rp_offset p = ma_offset address) by by rewrite Heq.
    assert (Hqu : rp_quantity p = quantity) by by rewrite Heq.
    assert (Hst' : rp_station_id p = ma_unit_id address) by by rewrite Heq.
    rewrite Hfn', Hst', Hb', Hof, Hqu, Hdir. done.
Qed.

Lemma fill_samples_direct w ps samples :
  window_ok w -> (forall p, p ∈ ps -> p ∈ rw_points w /\ p ∈ points) ->
  fill_samples clock planned w
    (device_read (memory (rw_station_id w) (rw_function w)) (rw_is_bit w) (rw_offset w) (rw_quantity w)) ps samples =
  Ok (fold_left (put_sample values) ps samples).
Proof using Hwidth Hvalues.
  intros Hw. revert samples. induction ps as [|p ps IH]; intros samples Hps; [done|]. cbn [fill_samples fold_left].
  destruct (Hps p ltac:(left)) as [Hp1 Hp2].
  destruct (point_sample_direct w p Hw Hp1 Hp2) as (sample & Hs & ->). cbn [mbind Result_bind].
  unfold put_sample at 2. rewrite Hs. apply IH. intros q Hq. apply Hps. by right.
Qed.

Lemma read_windows_direct samples s :
  Forall window_ok windows -> Forall serves windows -> (forall p, p ∈ window_points windows -> p ∈ points) ->
  I s ->
  exists s', read_windows exchange clock planned windows samples s =
    (s', Ok (fold_left (put_sample values) (window_points windows) samples)) /\ I s'.
Proof using Hwidth Hvalues.
  intros Hok Hserve. revert samples s. induction Hok as [|w ws Hw Hok IH]; intros samples s Hin Hs.
  { exists s. done. }
  apply Forall_cons_1 in Hserve as [Hsw Hserve]. cbn [read_windows]. destruct (Hsw s Hs) as (s1 & Hex & Hs1).
  rewrite M_bind_eq, Hex, lift_bind.
  assert (Hhere : forall p, p ∈ rw_points w -> p ∈ rw_points w /\ p ∈ points).
  { intros p Hp. split; [done|]. apply Hin. unfold window_points. rewrite fmap_cons, concat_cons.
    apply elem_of_app. by left. }
  rewrite (fill_samples_direct w (rw_points w) samples Hw Hhere).
  destruct (IH Hserve (fold_left (put_sample values) (rw_points w) samples) s1) as (s' & Hrun & Hs'); [|done|].
  { intros p Hp. apply Hin. unfold window_points. rewrite fmap_cons, concat_cons. apply elem_of_app. by right. }
  exists s'. split; [|done]. rewrite Hrun. unfold window_points. by rewrite fmap_cons, concat_cons, fold_left_app.
Qed.

Lemma lookup_put_samples ps samples i :
  (i < length samples)%nat ->
  fold_left (put_sample values) ps samples !! i =
  if bool_decide (Exists (fun p => Z.to_nat (rp_mapping_index p) = i) ps)
  then Some (direct_samples values !! i) else samples !! i.
Proof using.
  revert samples. induction ps as [|p ps IH]; intros samples Hi; [done|]. cbn [fold_left].
  rewrite IH by (unfold put_sample; by rewrite length_insert).
  case_bool_decide as H1; [rewrite bool_decide_true; [done | by apply Exists_cons_tl]|].
  unfold put_sample. destruct (decide (Z.to_nat (rp_mapping_index p) = i)) as [Heq|Hne].
  - rewrite bool_decide_true by by apply Exists_cons_hd. by rewrite Heq, list_lookup_insert_eq.
  - rewrite bool_decide_false by (intros [?|?]%Exists_cons; done). by rewrite list_lookup_insert_ne.
Qed.

(** The adapter reads the device: the samples of a batched read are those of
    reading every point on its own, in the order of the points. *)
Lemma read_planned_direct s :
  plan_read_windows points = Ok windows -> Forall serves windows -> I s ->
  exists s', read_planned exchange clock planned windows s = (s', Ok (direct_samples values)) /\ I s'.
Proof using Hwidth Hvalues.
  intros Hplan Hserve Hs. destruct (plan_windows_ok _ _ Hwidth Hplan) as [Hok Hperm].
  destruct (read_windows_direct (replicate (length planned) None) s Hok Hserve) as (s' & Hrun & Hs'); [|done|].
  { intros p Hp. by rewrite <- Hperm. }
  exists s'. split; [|done]. unfold read_planned. rewrite M_bind_eq, Hrun.
  assert (Hlen : length (direct_samples values) = length planned).
  { unfold direct_samples. rewrite length_imap, length_zip_with. apply Forall2_length in Hvalues. lia. }
  assert (Hall : fold_left (put_sample values) (window_points windows) (replicate (length planned) None) =
    Some <$> direct_samples values).
  { apply list_eq. intros i. rewrite list_lookup_fmap.
    destruct (decide (i < length planned)%nat) as [Hi|Hi].
    - rewrite lookup_put_samples by by rewrite length_replicate. rewrite bool_decide_true.
      + destruct (lookup_lt_is_Some_2 (direct_samples values) i) as [x Hx]; [by rewrite Hlen | by rewrite Hx].
      + destruct (lookup_lt_is_Some_2 points i) as [p Hp]; [by rewrite length_imap|].
        apply list.Exists_exists. exists p. split.
        * rewrite Hperm. by apply list_elem_of_lookup_2 in Hp.
        * destruct (lookup_points i p Hp) as (? & ? & ? & _ & ->). simpl. lia.
    - rewrite (lookup_ge_None_2 (direct_samples values)) by lia. apply lookup_ge_None_2.
      assert (Hl : forall ps l, length (fold_left (put_sample values) ps l) = length l).
      { intros ps. induction ps as [|p ps IH]; intros l; [done|]. cbn [fold_left]. rewrite IH.
        unfold put_sample. apply length_insert. }
      rewrite Hl, length_replicate. lia. }
  assert (Hom : forall l : list TelemetrySample, omap id (Some <$> l) = l).
  { intros l. induction l as [|x l IH]; [done|]. rewrite fmap_cons.
    change (x :: omap id (Some <$> l) = x :: l). by rewrite IH. }
  rewrite Hall, Hom. done.
Qed.
End read_facts.

(** ** What the parsers and the planner guarantee *)

(** The fields of an address at their widths. *)
Definition modbus_address_ok (a : ModbusAddress) : Prop :=
  u_ok 8 (ma_unit_id a) /\ 1 <= ma_function a <= 4 /\ u_ok 16 (ma_offset a).

Lemma address_area_function protocol kind function base :
  address_area protocol kind = Ok (function, base) -> 1 <= function <= 4 /\ 1 <= base.
Proof.
  unfold address_area. repeat case_bool_decide; intros Ha0; inv_result; simplify_eq/=;
    unfold READ_COILS, READ_DISCRETE_INPUTS, READ_HOLDING_REGISTERS, READ_INPUT_REGISTERS; lia.
Qed.

Lemma address_unit_byte name value default id text :
  u_ok 8 default -> address_unit name value default = Ok (id, text) -> u_ok 8 id.
Proof.
  intros Hd. unfold address_unit. case_match; [case_match|]; intros H'; inv_result; simplify_eq/=.
  - match goal with H : parse_dec _ _ = Some _ |- _ => apply parse_dec_range in H end.
    unfold u_max, u_ok in *. lia.
  - done.
Qed.

Lemma address_offset_range function base text offset :
  1 <= base -> address_offset function base text = Ok offset -> u_ok 16 offset.
Proof.
  intros Hb. unfold address_offset. intros H. inv_result. simp_bool.
  match goal with H : parse_dec _ _ = Some _ |- _ => apply parse_dec_range in H end.
  unfold u_max, u_ok in *. destruct (base <=? a) eqn:Hle; simp_bool; [lia|].
  destruct (is_bit_function function && (0 <? a)) eqn:Hbit; [|lia].
  apply andb_prop in Hbit as [_ ?]. simp_bool. lia.
Qed.

Lemma tcp_address_ok kind value default a :
  u_ok 8 default -> tcp_parse_address kind value default = Ok a -> modbus_address_ok a.
Proof.
  intros Hd. unfold tcp_parse_address. intros H. inv_result. destruct a0 as [function base].
  inv_result. destruct a0 as [id text]. inv_result.
  match goal with H : address_area _ _ = _ |- _ => apply address_area_function in H as [? ?] end.
  split_and!; [by eapply address_unit_byte | simpl; lia.. | by eapply address_offset_range].
Qed.

Lemma rtu_address_ok kind value default a :
  u_ok 8 default -> rtu_parse_address kind value default = Ok a -> modbus_address_ok a.
Proof.
  intros Hd. unfold rtu_parse_address. intros H. inv_result. destruct a0 as [function base].
  inv_result. destruct a0 as [id text]. inv_result.
  match goal with H : address_area _ _ = _ |- _ => apply address_area_function in H as [? ?] end.
  split_and!; [by eapply address_unit_byte | simpl; lia.. | by eapply address_offset_range].
Qed.

Definition planned_ok (x : TelemetryPointMapping * ModbusAddress * Z) : Prop :=
  let '(_, address, quantity) := x in modbus_address_ok address /\ 1 <= quantity <= 4.

Lemma modbus_quantity_range is_bit value_type address quantity :
  modbus_quantity is_bit value_type address = Ok quantity -> 1 <= quantity <= 4.
Proof.
  unfold modbus_quantity. repeat case_match; intros; inv_result; try lia.
  destruct a; simpl; lia.
Qed.

Lemma planned_mappings_ok parse_address connection_id mappings planned :
  (forall kind value a, parse_address kind value = Ok a -> modbus_address_ok a) ->
  planned_mappings parse_address connection_id mappings = Ok planned -> Forall planned_ok planned.
Proof.
  intros Hparse. revert planned. induction mappings as [|m ms IH]; intros planned; cbn [planned_mappings].
  { intros [= <-]. constructor. }
  case_bool_decide; cbn [negb]; [|by apply IH]. intros H'. inv_result. constructor; [|by apply IH].
  split; [|by eapply modbus_quantity_range]. unfold point_address in *. inv_result. by eapply Hparse.
Qed.

Lemma planned_width planned : Forall planned_ok planned -> Forall point_width (imap read_point planned).
Proof.
  intros Hall. apply Forall_lookup. intros i p. rewrite list_lookup_imap.
  destruct (planned !! i) as [[[m a] q]|] eqn:Hi; [|done]. intros [= <-].
  pose proof (Forall_lookup_1 _ _ _ _ Hall Hi) as [(? & ? & ?) ?].
  split; [done|]. unfold u_ok. simpl. lia.
Qed.

(** A window of a plan is a request the protocol allows. *)
Definition request_ok (w : ModbusReadWindow) : Prop :=
  u_ok 8 (rw_station_id w) /\ 1 <= rw_function w <= 4 /\ u_ok 16 (rw_offset w) /\
  rw_is_bit w = is_bit_function (rw_function w) /\
  0 < rw_quantity w <= read_limit (rw_is_bit w) /\ rw_offset w + rw_quantity w <= 2 ^ 16.

Lemma window_request_ok planned w :
  Forall planned_ok planned -> window_ok w ->
  (forall p, p ∈ rw_points w -> p ∈ imap read_point planned) ->
  request_ok w /\ exists mapping address quantity,
    (mapping, address, quantity) ∈ planned /\ ma_unit_id address = rw_station_id w.
Proof.
  intros Hall [Hpts Htight Hlimit (Ho & Hq & He)] Hin. unfold window_end in *.
  assert (Hat : forall a, rw_offset w <= a < rw_offset w + rw_quantity w ->
    exists p, p ∈ rw_points w /\ rp_offset p <= a < point_end p).
  { intros a Ha. apply list.Exists_exists, Htight, Ha. }
  destruct (Hat (rw_offset w)) as (p & Hp & Hp'); [lia|].
  pose proof (Forall_elem _ _ _ Hpts Hp) as (Hkey & _ & _). injection Hkey as Hst Hfn Hbit.
  pose proof (Hin p Hp) as Hpl. apply list_elem_of_lookup in Hpl as [i Hi].
  rewrite list_lookup_imap in Hi. destruct (planned !! i) as [[[m a] q]|] eqn:Hpi; [|done].
  injection Hi as <-. pose proof (Forall_lookup_1 _ _ _ _ Hall Hpi) as [(? & ? & ?) Hqr].
  simpl in *. split; [|exists m, a, q; split; [by eapply list_elem_of_lookup_2 | done]].
  unfold request_ok. rewrite <- Hst, <- Hfn, <- Hbit.
  split_and!; try done; try lia; [unfold u_ok; lia|].
  destruct Hlimit as [Hl|[p1 Hp1]]; [by rewrite Hbit in *|]. rewrite Hp1 in *.
  apply list_elem_of_singleton in Hp as Heq. destruct (Hat (rw_offset w + rw_quantity w - 1)) as (p2 & Hp2 & Hp2'); [lia|].
  apply list_elem_of_singleton in Hp2 as ->. subst p1. unfold point_end in *. simpl in *.
  destruct (is_bit_function _); unfold read_limit, MAX_BIT_READ_QUANTITY, MAX_REGISTER_READ_QUANTITY; lia.
Qed.

Lemma length_device_read memory w :
  request_ok w ->
  Z.of_nat (length (device_read memory (rw_is_bit w) (rw_offset w) (rw_quantity w))) =
  expected_bytes (rw_function w) (rw_quantity w) /\
  expected_bytes (rw_function w) (rw_quantity w) <= 250.
Proof.
  intros (_ & _ & _ & Hb & Hq & _). unfold device_read, expected_bytes. rewrite <- Hb.
  unfold read_limit, MAX_BIT_READ_QUANTITY, MAX_REGISTER_READ_QUANTITY in Hq. destruct (rw_is_bit w).
  - rewrite length_pack_bits. split; [done|]. unfold div_ceil8.
    assert ((Z.to_nat (rw_quantity w) + 7) / 8 <= 2007 / 8)%nat by (apply Nat.Div0.div_le_mono; lia).
    change (2007 / 8)%nat with 250%nat in *. lia.
  - rewrite (length_concat_fixed _ 2) by (intros; apply length_to_be_bytes). rewrite length_addresses. lia.
Qed.

Lemma device_read_ok memory is_bit offset quantity : bytes_ok (device_read memory is_bit offset quantity).
Proof.
  unfold device_read. destruct is_bit; [apply pack_bits_ok|].
  apply Forall_concat, list.Forall_forall. intros l Hl. apply list_elem_of_fmap in Hl as (a & -> & _).
  apply to_be_bytes_ok.
Qed.

(** What both adapters prove of a read: a device that answers every request the
    protocol allows gets the plan executed. *)
Lemma planned_read_direct {S} (exchange : ModbusReadWindow -> M S bytes) clock planned memory (I : S -> Prop)
    values :
  Forall planned_ok planned ->
  Forall (fun p => point_end p <= 2 ^ 16) (imap read_point planned) ->
  Forall2 (fun x v => direct_value memory x = Ok v) planned values ->
  (forall w mapping address quantity, request_ok w -> (mapping, address, quantity) ∈ planned ->
     ma_unit_id address = rw_station_id w -> serves exchange memory I w) ->
  exists windows, plan_read_windows (imap read_point planned) = Ok windows /\
    forall s, I s -> exists s',
      read_planned exchange clock planned windows s = (s', Ok (direct_samples clock planned values)) /\ I s'.
Proof.
  intros Hall Hend Hvalues Hserve. pose proof (planned_width planned Hall) as Hwidth.
  assert (Hplan : exists windows, plan_read_windows (imap read_point planned) = Ok windows).
  { unfold plan_read_windows. rewrite (proj2 (check_points_Ok _)); [by eexists|].
    apply Forall_lookup. intros i p Hp. split; [|exact (Forall_lookup_1 _ _ _ _ Hend Hp)].
    rewrite list_lookup_imap in Hp. destruct (planned !! i) as [[[m a] q]|] eqn:Hi; [|done].
    injection Hp as <-. pose proof (Forall_lookup_1 _ _ _ _ Hall Hi) as [_ ?]. simpl. lia. }
  destruct Hplan as [windows Hplan]. exists windows. split; [done|]. intros s Hs.
  destruct (plan_windows_ok _ _ Hwidth Hplan) as [Hok Hperm].
  eapply read_planned_direct; try done. apply list.Forall_forall. intros w Hw.
  destruct (window_request_ok planned w Hall (Forall_elem _ _ _ Hok Hw)) as (Hreq & m & a & q & Hin & Heq);
    [|by eapply Hserve]. intros p Hp.
  rewrite <- Hperm. unfold window_points. apply list_elem_of_In, in_concat. exists (rw_points w).
  split; apply list_elem_of_In; [by apply list_elem_of_fmap_2 | done].
Qed.

(** The two bytes of a word. *)
Lemma be_word x :
  exists a b, to_be_bytes 2 x = [a; b] /\ byte_ok a /\ byte_ok b /\
    (u_ok 16 x -> from_be_bytes [a; b] = x).
Proof.
  pose proof (length_to_be_bytes 2 x) as Hl. pose proof (to_be_bytes_ok 2 x) as Hok.
  pose proof (from_be_to_be 2 x) as Hx.
  destruct (to_be_bytes 2 x) as [|a [|b [|c l]]]; try done. exists a, b.
  apply Forall_cons_1 in Hok as [Ha Hok]. apply Forall_cons_1 in Hok as [Hb _].
  by split_and!.
Qed.

Lemma exception_ne function : 0 <= function < 128 -> exception_function function <> function.
Proof.
  intros Hf Heq. assert (Ht : Z.testbit (exception_function function) 7 = true).
  { unfold exception_function. rewrite Z.lor_spec. change (Z.testbit 0x80 7) with true. apply orb_true_r. }
  rewrite Heq in Ht. rewrite (testbit_high 7 function 7) in Ht; [done | split; lia | lia].
Qed.

(** ** Example: a bus and its points *)

Definition example_connection (protocol : ProtocolType) (endpoint : option string) : ProtocolConnection :=
  {| conn_id := "plc"; conn_protocol := protocol; conn_endpoint := endpoint; conn_serial := None;
     conn_iec101 := None; conn_iec104 := None; conn_opc_ua := None; conn_bacnet_ip := None;
     conn_siemens_s7 := None; conn_omron_fins := None; conn_circuit_breaker := default_circuit_breaker |}.

Definition example_mapping (point kind address : string) (encoding : option ModbusRegisterEncoding)
    (value_type : TelemetryType) : TelemetryPointMapping :=
  let mapping := new_mapping point "pump" ("pump." ++ point) "plc"
    {| addr_kind := kind; addr_value := address;
       addr_modbus := option_map (fun e => {| mb_encoding := Some e; mb_byte_order := BigEndian;
         mb_word_order := HighWordFirst; mb_scale := f64_one; mb_offset := f64_zero; mb_bit_index := None |})
         encoding |} value_type in
  {| map_point_id := map_point_id mapping; map_device_id := map_device_id mapping;
     map_semantic_id := map_semantic_id mapping;
     map_protocol_connection_id := map_protocol_connection_id mapping;
     map_address := map_address mapping; map_value_type := map_value_type mapping; map_access := ReadWrite;
     map_opc_ua := None; map_iec101 := None; map_iec104 := None; map_bacnet := None; map_unit := None;
     map_range := None; map_read_transforms := []; map_interval_ms := 1000 |}.

Definition example_mappings : list TelemetryPointMapping :=
  [example_mapping "level" "holding_register" "40002" (Some U16) Ty_Integer;
   example_mapping "running" "coil" "1" None Ty_Boolean;
   example_mapping "pressure" "holding_register" "1:40003" (Some I32) Ty_Integer].
