(* ===== verification/ModbusRtu.v ===== *)
(** The Modbus RTU adapter, [crates/edge-runtime/src/modbus_rtu.rs]: the frames
    with their check sum, and the exchange over a [SerialBus].  The theorems say
    which responses are accepted and that the adapter reads what the devices of
    the bus hold. *)

From Stdlib Require Import ZArith Lia.
From S2P Require Import Prelude RustStr Floats Model ConfigTypes ConfigParse ModbusBatch.
From S2P Require Import ModbusCodec SerialBus CustomSerial CommandPlan ModbusAdapter.

Open Scope string_scope.
Open Scope Z_scope.

Definition modbus_rtu_crc (l : bytes) : Z := fold_left modbus_crc_byte l 0xFFFF.

Definition append_modbus_rtu_crc (frame : bytes) : bytes :=
  (frame ++ to_le_bytes 2 (modbus_rtu_crc frame))%list.

Definition verify_modbus_rtu_crc (frame : bytes) : Result () :=
  ensure (bool_decide (3 <= length frame)%nat) "Modbus RTU frame is too short for CRC";;
  let payload_len := (length frame - 2)%nat in
  ensure (from_le_bytes (drop payload_len frame) =? modbus_rtu_crc (take payload_len frame))
    "Modbus RTU CRC mismatch".

Definition build_read_request (slave_id function offset quantity : Z) : bytes :=
  append_modbus_rtu_crc ([slave_id; function] ++ to_be_bytes 2 offset ++ to_be_bytes 2 quantity)%list.

Definition build_read_holding_registers_request (slave_id register count : Z) : bytes :=
  build_read_request slave_id READ_HOLDING_REGISTERS register count.

Definition build_write_request (slave_id offset : Z) (command : ModbusWriteCommand) : Result bytes :=
  pdu ← write_pdu offset command;
  Ok (append_modbus_rtu_crc (slave_id :: pdu)).

Definition parse_write_response (response : bytes) (expected_slave_id expected_offset : Z)
    (command : ModbusWriteCommand) : Result () :=
  ensure (bool_decide (length response = 8%nat)) "Modbus RTU write response must contain 8 bytes";;
  verify_modbus_rtu_crc response;;
  ensure (byte_at response 0 =? expected_slave_id)
    "Modbus RTU write response slave id does not match request";;
  ensure (negb (byte_at response 1 =? exception_function (wc_function command)))
    ("Modbus RTU exception code " ++ show_Z (byte_at response 2));;
  ensure (byte_at response 1 =? wc_function command)
    "Modbus RTU write response function does not match request";;
  ensure (word_at response 2 =? expected_offset)
    "Modbus RTU write response address does not match request";;
  expected ← expected_echo command;
  ensure (word_at response 4 =? expected)
    "Modbus RTU write response value or quantity does not match request".

Definition parse_read_response (response : bytes) (expected_slave_id expected_function expected_quantity : Z)
    : Result bytes :=
  ensure (bool_decide (5 <= length response)%nat) "Modbus RTU response is too short";;
  verify_modbus_rtu_crc response;;
  ensure (byte_at response 0 =? expected_slave_id) "Modbus RTU response slave id does not match request";;
  ensure (negb (byte_at response 1 =? exception_function expected_function))
    ("Modbus RTU exception code " ++ show_Z (byte_at response 2));;
  ensure (byte_at response 1 =? expected_function) "Modbus RTU response function does not match request";;
  let byte_count := byte_at response 2 in
  ensure (byte_count =? expected_bytes expected_function expected_quantity)
    "Modbus RTU response byte count does not match request";;
  ensure (Z.of_nat (length response) =? byte_count + 5)
    "Modbus RTU response length does not match byte count";;
  Ok (take (Z.to_nat byte_count) (drop 3 response)).

Definition parse_read_holding_registers_response (response : bytes)
    (expected_slave_id expected_registers : Z) : Result (list Z) :=
  payload ← parse_read_response response expected_slave_id READ_HOLDING_REGISTERS expected_registers;
  Ok (words payload).

Section bus.
Context {B : Type} `{SerialBus B} (connection : ProtocolConnection) (default_slave_id : Z).

Definition parse_address (kind value : string) : Result ModbusAddress :=
  rtu_parse_address kind value default_slave_id.

Definition check_protocol : Result () :=
  ensure (bool_decide (conn_protocol connection = ModbusRtu))
    "Modbus RTU adapter requires a ModbusRtu protocol connection".

(** The request of a window and the check of its response. *)
Definition exchange (window : ModbusReadWindow) : M B bytes :=
  response ← transact (build_read_request (rw_station_id window) (rw_function window)
                         (rw_offset window) (rw_quantity window));
  lift (parse_read_response response (rw_station_id window) (rw_function window) (rw_quantity window)).

Definition read_telemetry (clock : Z -> DateTime) (mappings : list TelemetryPointMapping)
    : M B (list TelemetrySample) :=
  _ ← lift check_protocol;
  planned ← lift (planned_mappings parse_address (conn_id connection) mappings);
  windows ← lift (plan_read_windows (imap read_point planned));
  read_planned exchange clock planned windows.

Definition send_command (address : ModbusAddress) (command : ModbusWriteCommand) : M B () :=
  request ← lift (build_write_request (ma_unit_id address) (ma_offset address) command);
  response ← transact request;
  lift (parse_write_response response (ma_unit_id address) (ma_offset address) command).

Definition write_point (mapping : TelemetryPointMapping) (value : TelemetryValue) : M B ProtocolWriteResult :=
  _ ← lift check_protocol;
  '(address, command) ← lift (prepare_point_write parse_address (conn_id connection) mapping value);
  _ ← send_command address command;
  mret (write_result mapping value).

Fixpoint write_each (writes : list ProtocolPointWrite) : M B (list ProtocolWriteResult) :=
  match writes with
  | [] => mret []
  | w :: writes =>
      result ← write_point (ppw_mapping w) (ppw_value w);
      results ← write_each writes;
      mret (result :: results)
  end.

Definition write_points (writes : list ProtocolPointWrite) : M B (list ProtocolWriteResult) :=
  _ ← lift check_protocol;
  batch ← lift (prepare_write_batch parse_address (conn_id connection) writes);
  match batch with
  | None => write_each writes
  | Some (address, command) =>
      _ ← send_command address command;
      mret ((fun w => write_result (ppw_mapping w) (ppw_value w)) <$> writes)
  end.
End bus.

(** ** RTU frames *)

Section rtu_frames.

Lemma rtu_crc_ok l : bytes_ok l -> u_ok 16 (modbus_rtu_crc l).
Proof. intros Hl. apply (checksum_ok 16 modbus_crc_byte); [split; lia | done]. Qed.

(** A frame whose check sum verifies is its body with the check sum appended. *)
Lemma verify_crc_iff frame :
  bytes_ok frame ->
  verify_modbus_rtu_crc frame = Ok () <-> exists body, body <> [] /\ frame = append_modbus_rtu_crc body.
Proof.
  intros Hok. unfold verify_modbus_rtu_crc, append_modbus_rtu_crc. split.
  - intros H. inv_result. case_bool_decide as Hlen; [|done].
    apply Z.eqb_eq in H. exists (take (length frame - 2) frame). split.
    + intros Hnil%(f_equal length). rewrite length_take in Hnil. simpl in Hnil. lia.
    + rewrite <- H, <- (take_drop (length frame - 2) frame) at 1. f_equal.
      assert (Hd : length (drop (length frame - 2) frame) = 2%nat) by (rewrite length_drop; lia).
      rewrite <- Hd at 2. symmetry. apply to_le_from_le. by apply Forall_drop.
  - intros (body & Hne & ->). assert (Hlen : length (body ++ to_le_bytes 2 (modbus_rtu_crc body)) =
      (length body + 2)%nat) by by rewrite length_app, length_to_le_bytes.
    rewrite Hlen. rewrite bool_decide_true by (destruct body; [done | simpl; lia]). cbn [ensure mbind Result_bind].
    replace (length body + 2 - 2)%nat with (length body) by lia.
    rewrite drop_app_length, take_app_length. apply Forall_app in Hok as [Hb _].
    rewrite from_le_to_le by (apply rtu_crc_ok; done). by rewrite Z.eqb_refl.
Qed.

(** The response of a device to a read: the frame the protocol prescribes. *)
Definition data_response (slave_id function : Z) (payload : bytes) : bytes :=
  append_modbus_rtu_crc ([slave_id; function; Z.of_nat (length payload)] ++ payload)%list.

(** A non-empty list of at least three bytes. *)
Lemma three_bytes (l : bytes) :
  (3 <= length l)%nat -> l = byte_at l 0 :: byte_at l 1 :: byte_at l 2 :: drop 3 l.
Proof. destruct l as [|a [|b [|c l]]]; simpl; intros; try lia. done. Qed.

(** The response the protocol prescribes is accepted. *)
Lemma parse_own_read_response slave_id function quantity payload :
  bytes_ok (data_response slave_id function payload) -> 0 <= function < 128 ->
  Z.of_nat (length payload) = expected_bytes function quantity ->
  parse_read_response (data_response slave_id function payload) slave_id function quantity = Ok payload.
Proof.
  intros Hok Hfn Hlen. unfold parse_read_response, data_response in *. set (body := ([slave_id; function; Z.of_nat (length payload)] ++ payload)%list) in *.
  rewrite (proj2 (verify_crc_iff (append_modbus_rtu_crc body) Hok)) by by exists body.
  unfold append_modbus_rtu_crc. set (crc := to_le_bytes 2 (modbus_rtu_crc body)).
  assert (Hc : length crc = 2%nat) by apply length_to_le_bytes.
  assert (Hl : length (body ++ crc) = (length payload + 5)%nat) by (rewrite length_app, Hc; simpl; lia).
  rewrite Hl, bool_decide_true by lia. cbn [ensure mbind Result_bind].
  change (byte_at (body ++ crc)%list 0) with slave_id. change (byte_at (body ++ crc)%list 1) with function.
  change (byte_at (body ++ crc)%list 2) with (Z.of_nat (length payload)). rewrite Z.eqb_refl. cbn [ensure mbind Result_bind].
  rewrite (proj2 (Z.eqb_neq function (exception_function function))) by (symmetry; by apply exception_ne).
  cbn [negb ensure mbind Result_bind]. rewrite Z.eqb_refl, Hlen, Z.eqb_refl. cbn [ensure mbind Result_bind].
  rewrite (proj2 (Z.eqb_eq _ _)) by lia. cbn [ensure mbind Result_bind].
  change (drop 3 (body ++ crc)%list) with (payload ++ crc)%list. by rewrite <- Hlen, Nat2Z.id, take_app_length.
Qed.

(** A response to a read is accepted exactly when it is the frame the
  protocol prescribes: the slave and the function of the request, a byte count
  that fits the quantity asked for, that many data bytes and the check sum
  over all of it; the data bytes are what the parser returns. *)
Theorem rtu_read_response_iff response slave_id function quantity payload :
  bytes_ok response -> 0 <= function < 128 ->
  parse_read_response response slave_id function quantity = Ok payload <->
  response = data_response slave_id function payload /\
  Z.of_nat (length payload) = expected_bytes function quantity.
Proof.
  intros Hok Hfn. split; [|by intros [-> Hlen]; apply parse_own_read_response].
  unfold parse_read_response. intros H. inv_result.
  repeat match goal with H : (_ =? _) = true |- _ => apply Z.eqb_eq in H end.
  match goal with H : bool_decide _ = true |- _ => apply bool_decide_eq_true in H end.
  match goal with H : verify_modbus_rtu_crc _ = Ok _ |- _ =>
    apply (proj1 (verify_crc_iff response Hok)) in H as (body & _ & ->) end.
  unfold append_modbus_rtu_crc in *. set (crc := to_le_bytes 2 (modbus_rtu_crc body)) in *.
  assert (Hc : length crc = 2%nat) by apply length_to_le_bytes.
  rewrite length_app in *. destruct body as [|b0 [|b1 [|b2 data]]]; cbn [length] in *; try lia.
  change (byte_at ((b0 :: b1 :: b2 :: data) ++ crc)%list 0) with b0 in *.
  change (byte_at ((b0 :: b1 :: b2 :: data) ++ crc)%list 1) with b1 in *.
  change (byte_at ((b0 :: b1 :: b2 :: data) ++ crc)%list 2) with b2 in *. subst b0 b1.
  change (drop 3 ((slave_id :: function :: b2 :: data) ++ crc)%list) with (data ++ crc)%list.
  rewrite take_app_length' by lia. split; [|lia]. unfold data_response, append_modbus_rtu_crc.
  replace (Z.of_nat (length data)) with b2 by lia. done.
Qed.
End rtu_frames.

(** ** A bus with devices on it *)

Section rtu_device.
Context {B : Type} `{SerialBus B} (connection : ProtocolConnection) (default_slave_id : Z)
        (clock : Z -> DateTime) (memory : Z -> Z -> DeviceMemory) (I : B -> Prop).

(** The devices of the bus answer every read the protocol allows out of their
    memories. *)
Definition rtu_answers : Prop := forall w b, request_ok w -> I b ->
  exists b', transact (build_read_request (rw_station_id w) (rw_function w) (rw_offset w) (rw_quantity w)) b =
    (b', Ok (data_response (rw_station_id w) (rw_function w)
               (device_read (memory (rw_station_id w) (rw_function w)) (rw_is_bit w) (rw_offset w)
                  (rw_quantity w)))) /\ I b'.

Lemma data_response_ok slave_id function payload :
  byte_ok slave_id -> byte_ok function -> bytes_ok payload -> (length payload < 256)%nat ->
  bytes_ok (data_response slave_id function payload).
Proof using.
  intros Hs Hf Hp Hl. unfold data_response, append_modbus_rtu_crc. apply Forall_app. split.
  - repeat apply Forall_cons_2; try done. unfold byte_ok. lia.
  - apply to_le_bytes_ok.
Qed.

Lemma rtu_serves : rtu_answers -> forall w, request_ok w -> serves exchange memory I w.
Proof using.
  intros Hans w Hw b Hb. destruct (Hans w b Hw Hb) as (b' & Htr & Hb'). exists b'. split; [|done].
  unfold exchange. rewrite M_bind_eq, Htr. unfold lift.
  destruct (length_device_read (memory (rw_station_id w) (rw_function w)) w Hw) as [Hlen Hmax].
  destruct Hw as (Hst & Hfn & _).
  rewrite parse_own_read_response; [done | apply data_response_ok| lia | done].
  - exact Hst.
  - unfold byte_ok. lia.
  - apply device_read_ok.
  - lia.
Qed.

(** A Modbus RTU read of a configured connection returns what the devices
    hold: when the devices of the bus answer the protocol's requests from their
    memories, the adapter's batched requests yield, for every point of the
    connection in the order of the configuration, the value decoded from that
    point's own registers or bit. *)
Theorem rtu_reads_device mappings planned values b :
  u_ok 8 default_slave_id -> conn_protocol connection = ModbusRtu ->
  planned_mappings (parse_address default_slave_id) (conn_id connection) mappings = Ok planned ->
  Forall (fun p => point_end p <= 2 ^ 16) (imap read_point planned) ->
  Forall2 (fun x v => direct_value memory x = Ok v) planned values ->
  rtu_answers -> I b ->
  exists b', read_telemetry connection default_slave_id clock mappings b =
    (b', Ok (direct_samples clock planned values)) /\ I b'.
Proof using.
  intros Hid Hproto Hplanned Hend Hvalues Hans Hb.
  assert (Hall : Forall planned_ok planned).
  { eapply planned_mappings_ok; [|done]. intros kind value a. by apply rtu_address_ok. }
  destruct (planned_read_direct exchange clock planned memory I values Hall Hend Hvalues
    (fun w _ _ _ Hw _ _ => rtu_serves Hans w Hw)) as (windows & Hwin & Hrun).
  destruct (Hrun b Hb) as (b' & Hr & Hb'). exists b'. split; [|done].
  unfold read_telemetry, check_protocol. rewrite bool_decide_true by done.
  rewrite lift_bind. cbn [ensure]. rewrite lift_bind, Hplanned, lift_bind, Hwin. done.
Qed.
End rtu_device.

(** ** Example *)

Definition example_memory : DeviceMemory :=
  {| mem_register := fun a => if a =? 1 then 77 else if a =? 3 then 5 else 0; mem_bit := fun a => a =? 0 |}.

(** Devices that answer from the memory, on every slave and function. *)
Definition example_device : SerialBus () := fun request bus =>
  let function := byte_at request 1 in
  (bus, Ok (data_response (byte_at request 0) function
              (device_read example_memory (is_bit_function function) (word_at request 2) (word_at request 4)))).

Lemma example_device_answers :
  @rtu_answers () example_device (fun _ _ => example_memory) (fun _ => True).
Proof.
  intros w [] Hw _. exists (). split; [|done].
  pose proof (read_limit_bound (rw_is_bit w)). destruct Hw as (_ & _ & Ho & Hb & Hq & _).
  unfold transact, example_device, build_read_request, append_modbus_rtu_crc.
  set (crc := to_le_bytes 2 _).
  destruct (be_word (rw_offset w)) as (a & b & -> & _ & _ & Hab).
  destruct (be_word (rw_quantity w)) as (c & d & -> & _ & _ & Hcd).
  change (byte_at _ 0) with (rw_station_id w). change (byte_at _ 1) with (rw_function w).
  change (word_at _ 2) with (from_be_bytes [a; b]). change (word_at _ 4) with (from_be_bytes [c; d]).
  rewrite Hab, Hcd, Hb by (done || (unfold u_ok; lia)). done.
Qed.

Definition example_planned : list (TelemetryPointMapping * ModbusAddress * Z) :=
  match planned_mappings (parse_address 1) "plc" example_mappings with Ok planned => planned | _ => [] end.

Lemma rtu_reads_device_witness :
  length example_planned = 3%nat /\
    @read_telemetry () example_device (example_connection ModbusRtu None) 1 (fun _ => 0) example_mappings () =
      ((), Ok (direct_samples (fun _ => 0) example_planned [VInteger 77; VBoolean true; VInteger 5])).
Proof.
  split; [vm_compute; reflexivity|].
  destruct (@rtu_reads_device () example_device (example_connection ModbusRtu None) 1 (fun _ => 0)
    (fun _ _ => example_memory) (fun _ => True) example_mappings example_planned [VInteger 77; VBoolean true; VInteger 5] ())
    as ([] & Hr & _); [| | | | | | | exact Hr].
  - unfold u_ok. lia.
  - reflexivity.
  - vm_compute. reflexivity.
  - repeat constructor; vm_compute; discriminate.
  - repeat constructor.
  - exact example_device_answers.
  - exact I.
Defined.

Lemma rtu_read_response_iff_witness :
  parse_read_response (data_response 1 3 [0; 77]) 1 3 1 = Ok [0; 77].
Proof.
  apply (rtu_read_response_iff (data_response 1 3 [0; 77]) 1 3 1 [0; 77]).
  - vm_compute. repeat constructor; discriminate.
  - lia.
  - split; reflexivity.
Defined.

(** A slave that refuses a write answers with its exception frame of five
    bytes; the adapter does not get to the exception code. *)
Lemma rtu_write_exception_is_not_reported slave_id offset command code :
  parse_write_response
    (append_modbus_rtu_crc [slave_id; exception_function (wc_function command); code])
    slave_id offset command = Err "Modbus RTU write response must contain 8 bytes".
Proof. done. Qed.
