(* ===== verification/ModbusTcp.v ===== *)
(** The Modbus TCP adapter, [crates/edge-runtime/src/modbus_tcp.rs] up to its
    simulator: the frames with their header, and the exchange over a TCP stream,
    the class [TcpStream], whose errors carry the context the adapter gives
    them, timeouts included.  Its theorems are in [ModbusSimulator], where the
    other end of the stream is modelled. *)

From Stdlib Require Import ZArith Lia.
From S2P Require Import Prelude RustStr Floats Model ConfigTypes ConfigParse NetSession ModbusBatch.
From S2P Require Import ModbusCodec SerialBus CustomSerial CommandPlan ModbusAdapter.

Open Scope string_scope.
Open Scope Z_scope.

Definition parse_endpoint (endpoint : option string) : Result string :=
  endpoint ← ok_or (match endpoint with
                    | Some value => if is_blank value then None else Some (str_trim value)
                    | None => None
                    end) "Modbus TCP endpoint is required";
  let text := str_bytes endpoint in
  let target := str_of_bytes (default text (match strip_prefix (str_bytes "tcp://") text with
                                            | Some rest => Some rest
                                            | None => strip_prefix (str_bytes "modbus://") text
                                            end)) in
  ensure (negb (str_contains target "://" || negb (str_contains target ":")))
    ("invalid Modbus TCP endpoint: " ++ endpoint ++ "; expected host:port or tcp://host:port");;
  Ok target.

Definition build_request (transaction_id : Z) (address : ModbusAddress) (quantity : Z) : bytes :=
  (to_be_bytes 2 transaction_id ++ to_be_bytes 2 0 ++ to_be_bytes 2 6 ++ [ma_unit_id address; ma_function address]
   ++ to_be_bytes 2 (ma_offset address) ++ to_be_bytes 2 quantity)%list.

(** The MBAP header before a PDU. *)
Definition frame_pdu (transaction_id unit_id : Z) (pdu : bytes) : bytes :=
  (to_be_bytes 2 transaction_id ++ to_be_bytes 2 0
   ++ to_be_bytes 2 (wrap 16 (Z.of_nat (length pdu) + 1)) ++ [unit_id] ++ pdu)%list.

Definition build_write_request (transaction_id : Z) (address : ModbusAddress) (command : ModbusWriteCommand)
    : Result bytes :=
  pdu ← write_pdu (ma_offset address) command;
  Ok (frame_pdu transaction_id (ma_unit_id address) pdu).

Definition parse_response_pdu (pdu : bytes) (function quantity : Z) : Result bytes :=
  ensure (bool_decide (2 <= length pdu)%nat) "Modbus TCP response PDU is too short";;
  ensure (negb (byte_at pdu 0 =? exception_function function))
    ("Modbus TCP exception code " ++ show_Z (byte_at pdu 1));;
  ensure (byte_at pdu 0 =? function) "Modbus TCP response function does not match request";;
  let byte_count := byte_at pdu 1 in
  ensure ((byte_count =? expected_bytes function quantity) && (Z.of_nat (length pdu) =? byte_count + 2))
    "Modbus TCP response byte count does not match request";;
  Ok (drop 2 pdu).

Definition parse_write_response_pdu (pdu : bytes) (expected_offset : Z) (command : ModbusWriteCommand)
    : Result () :=
  ensure (bool_decide (2 <= length pdu)%nat) "Modbus TCP write response PDU is too short";;
  ensure (negb (byte_at pdu 0 =? exception_function (wc_function command)))
    ("Modbus TCP exception code " ++ show_Z (byte_at pdu 1));;
  ensure (bool_decide (length pdu = 5%nat) && (byte_at pdu 0 =? wc_function command))
    "Modbus TCP write response does not match request";;
  ensure (word_at pdu 1 =? expected_offset) "Modbus TCP write response address does not match request";;
  expected ← expected_echo command;
  ensure (word_at pdu 3 =? expected)
    "Modbus TCP write response value or quantity does not match request".

Section stream.
Context {T : Type} `{TcpStream T} (connection : ProtocolConnection) (default_unit_id : Z).

(** The transaction counter of the adapter and the stream. *)
Record Tcp := { transaction_id : Z; stream : T }.

Definition on_stream {A} (m : M T A) : M Tcp A := fun s =>
  let '(t, r) := m (stream s) in ({| transaction_id := transaction_id s; stream := t |}, r).

Definition next_transaction : M Tcp Z := fun s =>
  let id := wrap 16 (transaction_id s + 1) in ({| transaction_id := id; stream := stream s |}, Ok id).

Definition parse_address (kind value : string) : Result ModbusAddress :=
  tcp_parse_address kind value default_unit_id.

Definition check_protocol : Result () :=
  ensure (bool_decide (conn_protocol connection = ModbusTcp))
    "Modbus TCP adapter requires a ModbusTcp protocol connection".

Definition connect : M Tcp () :=
  target ← lift (parse_endpoint (conn_endpoint connection));
  on_stream (tcp_connect target).

(** The request, the checked header and the PDU of the response; [what] is
    empty or ["write "]. *)
Definition roundtrip (what : string) (id unit_id : Z) (request : bytes) : M Tcp bytes :=
  _ ← on_stream (tcp_write_all request);
  header ← on_stream (tcp_read_exact 7);
  _ ← lift (ensure (word_at header 0 =? id)
        ("Modbus TCP " ++ what ++ "response transaction id does not match request"));
  _ ← lift (ensure ((byte_at header 2 =? 0) && (byte_at header 3 =? 0))
        ("Modbus TCP " ++ what ++ "response protocol id must be zero"));
  _ ← lift (ensure (byte_at header 6 =? unit_id)
        ("Modbus TCP " ++ what ++ "response unit id does not match request"));
  let mbap_length := word_at header 4 in
  _ ← lift (ensure ((2 <=? mbap_length) && (mbap_length <=? MAX_PDU_BYTES + 1))
        ("Modbus TCP " ++ what ++ "response has invalid MBAP length " ++ show_Z mbap_length));
  on_stream (tcp_read_exact (Z.to_nat (mbap_length - 1))).

Definition transact (address : ModbusAddress) (quantity : Z) : M Tcp bytes :=
  id ← next_transaction;
  pdu ← roundtrip "" id (ma_unit_id address) (build_request id address quantity);
  lift (parse_response_pdu pdu (ma_function address) quantity).

Definition transact_write (address : ModbusAddress) (command : ModbusWriteCommand) : M Tcp () :=
  id ← next_transaction;
  request ← lift (build_write_request id address command);
  pdu ← roundtrip "write " id (ma_unit_id address) request;
  lift (parse_write_response_pdu pdu (ma_offset address) command).

Definition exchange (window : ModbusReadWindow) : M Tcp bytes :=
  transact {| ma_unit_id := rw_station_id window; ma_function := rw_function window;
              ma_offset := rw_offset window |} (rw_quantity window).

Definition read_telemetry (clock : Z -> DateTime) (mappings : list TelemetryPointMapping)
    : M Tcp (list TelemetrySample) :=
  _ ← lift check_protocol;
  planned ← lift (planned_mappings parse_address (conn_id connection) mappings);
  if bool_decide (length planned = 0%nat) then mret []
  else
    windows ← lift (plan_read_windows (imap read_point planned));
    _ ← connect;
    read_planned exchange clock planned windows.

Definition write_point (mapping : TelemetryPointMapping) (value : TelemetryValue) : M Tcp ProtocolWriteResult :=
  _ ← lift check_protocol;
  '(address, command) ← lift (prepare_point_write parse_address (conn_id connection) mapping value);
  _ ← connect;
  _ ← transact_write address command;
  mret (write_result mapping value).

Fixpoint write_each (writes : list ProtocolPointWrite) : M Tcp (list ProtocolWriteResult) :=
  match writes with
  | [] => mret []
  | w :: writes =>
      result ← write_point (ppw_mapping w) (ppw_value w);
      results ← write_each writes;
      mret (result :: results)
  end.

Definition write_points (writes : list ProtocolPointWrite) : M Tcp (list ProtocolWriteResult) :=
  _ ← lift check_protocol;
  batch ← lift (prepare_write_batch parse_address (conn_id connection) writes);
  match batch with
  | None => write_each writes
  | Some (address, command) =>
      _ ← connect;
      _ ← transact_write address command;
      mret ((fun w => write_result (ppw_mapping w) (ppw_value w)) <$> writes)
  end.
End stream.
Arguments Tcp T : clear implicits.
