(* ===== verification/ModbusSimulator.v ===== *)
(** The Modbus TCP simulator, the second half of
    [crates/edge-runtime/src/modbus_tcp.rs], and the adapter run against it.

    The simulator is a server: [serve_turn] is one turn of the loop of
    [serve_connection], [simulator_response_pdu] its handler, whose state are
    the options.  A connection to it is an instance of [TcpStream]: what the
    client has written and the server has not consumed, what the server has
    answered and the client has not read.  The server runs until it waits for
    input.  [unix_time] is a clock over the number of requests served, and the
    sine of the platform is a parameter. *)

From Stdlib Require Import ZArith Lia SpecFloat.
From S2P Require Import Prelude RustStr Floats Model ConfigTypes ConfigParse NetSession ModbusBatch.
From S2P Require Import ModbusCodec SerialBus CustomSerial CommandPlan ModbusAdapter ModbusTcp.

Open Scope string_scope.
Open Scope Z_scope.

(** ** Time and floats *)

Record Duration := { dur_secs : Z; dur_nanos : Z }.

Definition as_millis (d : Duration) : Z := dur_secs d * 1000 + dur_nanos d / 1000000.

Definition as_secs_f64 (d : Duration) : f64 :=
  f64_add (f64_of_Z (dur_secs d)) (f64_div (f64_of_Z (dur_nanos d)) (f64_of_Z 1000000000)).

(** [x % y]: exact, with the sign of the dividend. *)
Definition f64_rem (x y : f64) : f64 :=
  match x, y with
  | S754_nan, _ | _, S754_nan | S754_infinity _, _ | _, S754_zero _ => S754_nan
  | S754_zero s, _ => S754_zero s
  | _, S754_infinity _ => x
  | S754_finite s m e, S754_finite _ m' e' =>
      let e0 := Z.min e e' in
      let r := (Z.pos m * 2 ^ (e - e0)) mod (Z.pos m' * 2 ^ (e' - e0)) in
      binary_normalize 53 1024 (if s then - r else r) e0 s
  end.

Definition f64_rem_euclid (x y : f64) : f64 :=
  let r := f64_rem x y in
  if f64_lt r f64_zero then f64_add r (f64_abs y) else r.

Definition f64_TAU : f64 := f64_from_bits 0x401921FB54442D18.
Definition f32_add : f32 -> f32 -> f32 := SFadd 24 128.
Definition f32_mul : f32 -> f32 -> f32 := SFmul 24 128.

Example rem_euclid_wraps :
  f64_rem_euclid (f64_of_Z 17) (f64_of_Z 5) = f64_of_Z 2 /\
  f64_rem_euclid (f64_neg (f64_of_Z 1)) (f64_of_Z 5) = f64_of_Z 4.
Proof. split; vm_compute; reflexivity. Qed.

(** ** The simulator *)

Record DynamicFloatPoint := { dyn_base : f32; dyn_amplitude : f32; dyn_period : Duration }.

Record ModbusTcpSimulatorOptions := {
  sim_bind : string;
  sim_unit_id : Z;
  holding_registers : gmap Z Z;
  input_registers : gmap Z Z;
  coils : gmap Z bool;
  discrete_inputs : gmap Z bool;
  dynamic_holding_floats : gmap Z DynamicFloatPoint;
  toggling_coils : gmap Z Duration;
}.

Definition new_options (bind : string) : ModbusTcpSimulatorOptions :=
  {| sim_bind := bind; sim_unit_id := 1; holding_registers := ∅; input_registers := ∅; coils := ∅;
     discrete_inputs := ∅; dynamic_holding_floats := ∅; toggling_coils := ∅ |}.

Definition set_coil (coil : Z) (value : bool) (o : ModbusTcpSimulatorOptions) : ModbusTcpSimulatorOptions :=
  {| sim_bind := sim_bind o; sim_unit_id := sim_unit_id o; holding_registers := holding_registers o;
     input_registers := input_registers o; coils := <[coil := value]> (coils o);
     discrete_inputs := discrete_inputs o; dynamic_holding_floats := dynamic_holding_floats o;
     toggling_coils := toggling_coils o |}.

Definition set_register (register value : Z) (o : ModbusTcpSimulatorOptions) : ModbusTcpSimulatorOptions :=
  {| sim_bind := sim_bind o; sim_unit_id := sim_unit_id o;
     holding_registers := <[register := value]> (holding_registers o);
     input_registers := input_registers o; coils := coils o;
     discrete_inputs := discrete_inputs o; dynamic_holding_floats := dynamic_holding_floats o;
     toggling_coils := toggling_coils o |}.

Definition simulator_exception (function code : Z) : bytes := [exception_function function; code].

(** [u16::saturating_add]. *)
Definition saturating_add16 (a b : Z) : Z := Z.min (a + b) (u_max 16).

Section simulator.
Context (sin : f64 -> f64).

Definition point_value (point : DynamicFloatPoint) (now : Duration) : f32 :=
  let period := f64_max (as_secs_f64 (dyn_period point)) (f64_of_decimal 1 (-3)) in
  let elapsed := f64_rem_euclid (as_secs_f64 now) period in
  let phase := f64_mul (f64_div elapsed period) f64_TAU in
  f32_add (dyn_base point) (f32_mul (dyn_amplitude point) (f32_of_f64 (sin phase))).

Definition dynamic_float_register (o : ModbusTcpSimulatorOptions) (register : Z) (now : Duration) : option Z :=
  match dynamic_holding_floats o !! register with
  | Some point => Some (word_at (to_be_bytes 4 (f32_to_bits (point_value point now))) 0)
  | None =>
      start ← checked_sub register 1;
      point ← dynamic_holding_floats o !! start;
      Some (word_at (to_be_bytes 4 (f32_to_bits (point_value point now))) 2)
  end.

(** The value of a register and the state of a bit that a read reports. *)
Definition register_value (o : ModbusTcpSimulatorOptions) (now : Duration) (function register : Z) : Z :=
  if function =? READ_HOLDING_REGISTERS
  then default 0 (match dynamic_float_register o register now with
                  | Some value => Some value
                  | None => holding_registers o !! register
                  end)
  else default 0 (input_registers o !! register).

Definition bit_value (o : ModbusTcpSimulatorOptions) (now : Duration) (function coil : Z) : bool :=
  if function =? READ_COILS
  then match toggling_coils o !! coil with
       | Some period => Z.even (as_millis now / Z.max (as_millis period) 1)
       | None => default false (coils o !! coil)
       end
  else default false (discrete_inputs o !! coil).

(** [for index in 0..quantity] of the register read. *)
Definition read_registers (o : ModbusTcpSimulatorOptions) (now : Duration) (function offset : Z) (quantity : nat)
    : bytes :=
  concat ((fun index => to_be_bytes 2 (register_value o now function
            (saturating_add16 offset (Z.of_nat index)))) <$> seq 0 quantity).

(** [for index in 0..quantity] of the bit read. *)
Definition read_bits (o : ModbusTcpSimulatorOptions) (now : Duration) (function offset : Z) (quantity : nat)
    : bytes :=
  fold_left (fun l index =>
      if bit_value o now function (saturating_add16 offset (Z.of_nat index)) then set_bit l index else l)
    (seq 0 quantity) (replicate (div_ceil8 quantity) 0).

(** The two loops of the multiple writes; they stop with an exception at the
    end of the address space, after the writes before it. *)
Fixpoint write_coils (function offset : Z) (request : bytes) (indices : list nat) (o : ModbusTcpSimulatorOptions)
    : ModbusTcpSimulatorOptions * option bytes :=
  match indices with
  | [] => (o, None)
  | index :: indices =>
      match checked_add 16 offset (Z.of_nat index) with
      | None => (o, Some (simulator_exception function 0x02))
      | Some coil =>
          write_coils function offset request indices
            (set_coil coil (Z.testbit (byte_at request (6 + index / 8)) (Z.of_nat (index mod 8))) o)
      end
  end.

Fixpoint write_registers (function offset : Z) (request : bytes) (indices : list nat)
    (o : ModbusTcpSimulatorOptions) : ModbusTcpSimulatorOptions * option bytes :=
  match indices with
  | [] => (o, None)
  | index :: indices =>
      match checked_add 16 offset (Z.of_nat index) with
      | None => (o, Some (simulator_exception function 0x02))
      | Some register =>
          write_registers function offset request indices
            (set_register register (word_at request (6 + index * 2)) o)
      end
  end.

Definition acknowledged (request : bytes) (r : ModbusTcpSimulatorOptions * option bytes)
    : ModbusTcpSimulatorOptions * bytes :=
  let '(o, exception) := r in (o, default (take 5 request) exception).

(** The handler; the caller passes a request of at least one byte. *)
Definition simulator_response_pdu (now : Duration) (o : ModbusTcpSimulatorOptions) (request : bytes)
    : ModbusTcpSimulatorOptions * bytes :=
  let function := byte_at request 0 in
  if bool_decide (length request < 5)%nat then (o, simulator_exception function 0x03)
  else
    let offset := word_at request 1 in
    let quantity := word_at request 3 in
    let exact := bool_decide (length request = 5%nat) in
    if (function =? READ_HOLDING_REGISTERS) || (function =? READ_INPUT_REGISTERS) then
      if negb exact || (quantity =? 0) || (125 <? quantity) then (o, simulator_exception function 0x03)
      else (o, function :: wrap 8 (quantity * 2) :: read_registers o now function offset (Z.to_nat quantity))
    else if (function =? READ_COILS) || (function =? READ_DISCRETE_INPUTS) then
      if negb exact || (quantity =? 0) || (2000 <? quantity) then (o, simulator_exception function 0x03)
      else
        let l := read_bits o now function offset (Z.to_nat quantity) in
        (o, function :: wrap 8 (Z.of_nat (div_ceil8 (Z.to_nat quantity))) :: l)
    else if function =? WRITE_SINGLE_COIL then
      if negb exact || negb ((quantity =? 0x0000) || (quantity =? 0xFF00))
      then (o, simulator_exception function 0x03)
      else (set_coil offset (quantity =? 0xFF00) o, request)
    else if function =? WRITE_SINGLE_REGISTER then
      if negb exact then (o, simulator_exception function 0x03)
      else (set_register offset quantity o, request)
    else if function =? WRITE_MULTIPLE_COILS then
      if (quantity =? 0) || (1968 <? quantity) || bool_decide (length request < 6)%nat
      then (o, simulator_exception function 0x03)
      else
        let byte_count := byte_at request 5 in
        if negb (byte_count =? Z.of_nat (div_ceil8 (Z.to_nat quantity))) ||
           negb (Z.of_nat (length request) =? 6 + byte_count)
        then (o, simulator_exception function 0x03)
        else acknowledged request (write_coils function offset request (seq 0 (Z.to_nat quantity)) o)
    else if function =? WRITE_MULTIPLE_REGISTERS then
      if (quantity =? 0) || (123 <? quantity) || bool_decide (length request < 6)%nat
      then (o, simulator_exception function 0x03)
      else
        let byte_count := byte_at request 5 in
        if negb (byte_count =? quantity * 2) || negb (Z.of_nat (length request) =? 6 + byte_count)
        then (o, simulator_exception function 0x03)
        else acknowledged request (write_registers function offset request (seq 0 (Z.to_nat quantity)) o)
    else (o, simulator_exception function 0x01).

(** ** The connection *)

(** The simulator and the one connection to it. *)
Record Connection := {
  server : ModbusTcpSimulatorOptions;
  requests_total : Z;
  to_server : bytes;
  to_client : bytes;
  open : bool;
}.

Context (unix_time : Z -> Duration).

(** One turn of the loop of [serve_connection]; [None] while the server waits
    for more input. *)
Definition serve_turn (c : Connection) : option Connection :=
  if negb (open c) || bool_decide (length (to_server c) < 7)%nat then None
  else
    let header := take 7 (to_server c) in
    let rest := drop 7 (to_server c) in
    let transaction := take 2 header in
    let protocol_id := word_at header 2 in
    let length' := word_at header 4 in
    let unit := byte_at header 6 in
    if negb ((2 <=? length') && (length' <=? MAX_PDU_BYTES + 1))
    then Some {| server := server c; requests_total := requests_total c; to_server := []; to_client := to_client c;
                 open := false |}
    else if bool_decide (length rest < Z.to_nat (length' - 1))%nat then None
    else
      let request_pdu := take (Z.to_nat (length' - 1)) rest in
      let function := byte_at request_pdu 0 in
      let '(o, pdu) :=
        if negb (protocol_id =? 0) || negb (unit =? sim_unit_id (server c))
        then (server c, [exception_function function; 0x03])
        else simulator_response_pdu (unix_time (requests_total c)) (server c) request_pdu in
      let response := (transaction ++ to_be_bytes 2 0 ++ to_be_bytes 2 (wrap 16 (Z.of_nat (length pdu) + 1))
                       ++ [unit] ++ pdu)%list in
      Some {| server := o; requests_total := wrap 64 (requests_total c + 1);
              to_server := drop (Z.to_nat (length' - 1)) rest; to_client := (to_client c ++ response)%list;
              open := true |}.

(** The server runs until it waits; every turn consumes input, so the number
    of bytes waiting bounds the turns. *)
Fixpoint serve (fuel : nat) (c : Connection) : Connection :=
  match fuel with
  | O => c
  | S fuel => match serve_turn c with None => c | Some c => serve fuel c end
  end.

(** The client's side: a connection to the bound address is accepted, what is
    written is served, and a read of more than there is times out. *)
#[export] Instance simulator_stream : TcpStream Connection := {|
  tcp_connect target c :=
    if bool_decide (target = sim_bind (server c))
    then ({| server := server c; requests_total := requests_total c; to_server := []; to_client := [];
             open := true |}, Ok ())
    else (c, bail ("failed to connect to Modbus TCP endpoint " ++ target));
  tcp_write_all l c :=
    if negb (open c) then (c, bail "connection reset")
    else
      let pending := (to_server c ++ l)%list in
      (serve (S (length pending))
         {| server := server c; requests_total := requests_total c; to_server := pending;
            to_client := to_client c; open := true |}, Ok ());
  tcp_read_exact n c :=
    if bool_decide (n <= length (to_client c))%nat
    then ({| server := server c; requests_total := requests_total c; to_server := to_server c;
             to_client := drop n (to_client c); open := open c |}, Ok (take n (to_client c)))
    else (c, bail "Modbus TCP response timeout");
|}.
End simulator.

(** ** Packing bits *)

(** A loop that sets the bits of a predicate. *)
Lemma fold_set_bits (f : nat -> bool) k n acc :
  (k + n <= 8 * length acc)%nat -> bytes_ok acc ->
  let res := fold_left (fun l index => if f index then set_bit l index else l) (seq k n) acc in
  length res = length acc /\ bytes_ok res /\
  forall j, payload_bit res j = payload_bit acc j || (bool_decide (k <= j < k + n)%nat && f j).
Proof.
  revert k acc. induction n as [|n IH]; intros k acc Ha Hok; cbn [seq fold_left].
  { repeat split; [done|]. intros j. rewrite bool_decide_false by lia. by rewrite orb_false_r. }
  set (acc' := if f k then set_bit acc k else acc).
  assert (Hlen : length acc' = length acc).
  { unfold acc'. destruct (f k); [apply length_set_bit | done]. }
  destruct (IH (S k) acc') as (Hl & Hrok & Hbits); [lia | |].
  { unfold acc'. destruct (f k); [by apply set_bit_ok | done]. }
  split; [lia|]. split; [done|]. intros j. rewrite Hbits.
  assert (Hacc : payload_bit acc' j = payload_bit acc j || (bool_decide (k = j) && f k)).
  { unfold acc'. destruct (f k); [rewrite set_bit_bit by lia; by rewrite andb_true_r|].
    by rewrite andb_false_r, orb_false_r. }
  rewrite Hacc, <- orb_assoc. f_equal. destruct (decide (k = j)) as [<-|].
  - rewrite (bool_decide_true (k = k)), (bool_decide_true (k <= k < _)%nat) by lia.
    rewrite bool_decide_false by lia. by rewrite orb_false_r.
  - rewrite (bool_decide_false (k = j)) by done. simpl. f_equal. apply bool_decide_ext. lia.
Qed.

Lemma fold_set_bits_pack (f : nat -> bool) n :
  fold_left (fun l index => if f index then set_bit l index else l) (seq 0 n) (replicate (div_ceil8 n) 0) =
  pack_bits (div_ceil8 n) (f <$> seq 0 n).
Proof.
  destruct (fold_set_bits f 0 n (replicate (div_ceil8 n) 0)) as (Hl & Hok & Hbits).
  { rewrite length_replicate. apply div_ceil8_bound. }
  { apply Forall_replicate. split; lia. }
  rewrite length_replicate in Hl. apply payload_ext; [done | apply pack_bits_ok | by rewrite length_pack_bits|].
  rewrite Hl. intros i Hi. rewrite Hbits, payload_bit_zeros, pack_bits_bit, list_lookup_fmap by done.
  case_bool_decide as Hn.
  - by rewrite lookup_seq_lt by lia.
  - by rewrite lookup_seq_ge by lia.
Qed.

(** ** The simulator as a device memory *)

Section memory.
Context (sin : f64 -> f64).

Definition sim_memory (o : ModbusTcpSimulatorOptions) (now : Duration) (function : Z) : DeviceMemory :=
  {| mem_register := register_value sin o now function; mem_bit := bit_value o now function |}.

Lemma no_saturation offset index quantity :
  offset + quantity <= 2 ^ 16 -> Z.of_nat index < quantity ->
  saturating_add16 offset (Z.of_nat index) = offset + Z.of_nat index.
Proof using. intros. unfold saturating_add16, u_max. lia. Qed.

(** A read of the simulator is a read of its memory. *)
Lemma read_registers_memory o now function offset quantity :
  offset + quantity <= 2 ^ 16 ->
  read_registers sin o now function offset (Z.to_nat quantity) =
  device_read (sim_memory o now function) false offset quantity.
Proof using.
  intros Hend. unfold read_registers, device_read, addresses. f_equal. rewrite <- list_fmap_compose.
  apply list_fmap_ext. intros i x Hx. apply lookup_seq in Hx as [-> Hi]. unfold compose. simpl.
  rewrite (no_saturation _ _ quantity) by lia. done.
Qed.

Lemma read_bits_memory o now function offset quantity :
  offset + quantity <= 2 ^ 16 ->
  read_bits o now function offset (Z.to_nat quantity) =
  device_read (sim_memory o now function) true offset quantity.
Proof using.
  intros Hend. unfold read_bits, device_read, addresses. rewrite fold_set_bits_pack. f_equal.
  rewrite <- list_fmap_compose.
  apply list_fmap_ext. intros i x Hx. apply lookup_seq in Hx as [-> Hi]. unfold compose. simpl.
  rewrite (no_saturation _ _ quantity) by lia. done.
Qed.

(** The handler answers every read the protocol allows out of that memory. *)
Lemma simulator_read o now w :
  request_ok w ->
  let payload := device_read (sim_memory o now (rw_function w)) (rw_is_bit w) (rw_offset w) (rw_quantity w) in
  simulator_response_pdu sin now o
    (rw_function w :: to_be_bytes 2 (rw_offset w) ++ to_be_bytes 2 (rw_quantity w)) =
  (o, rw_function w :: Z.of_nat (length payload) :: payload).
Proof using.
  intros Hw payload. destruct (length_device_read (sim_memory o now (rw_function w)) w Hw) as [Hlen Hmax].
  fold payload in Hlen. destruct Hw as (_ & Hfn & Ho & Hb & Hq & He).
  pose proof (read_limit_bound (rw_is_bit w)).
  assert (Hq16 : u_ok 16 (rw_quantity w)) by (unfold u_ok; lia).
  destruct (be_word (rw_offset w)) as (a & b & -> & _ & _ & Hab).
  destruct (be_word (rw_quantity w)) as (c & d & -> & _ & _ & Hcd).
  specialize (Hab Ho). specialize (Hcd Hq16). unfold simulator_response_pdu.
  rewrite bool_decide_false by (simpl; lia).
  change (word_at _ 1) with (from_be_bytes [a; b]). change (word_at _ 3) with (from_be_bytes [c; d]).
  rewrite Hab, Hcd. change (byte_at _ 0) with (rw_function w).
  change (length (rw_function w :: ([a; b] ++ [c; d])%list)) with 5%nat. rewrite bool_decide_true by done.
  cbn [negb orb]. rewrite (proj2 (Z.eqb_neq (rw_quantity w) 0)) by lia. unfold expected_bytes in Hlen.
  unfold read_limit, MAX_BIT_READ_QUANTITY, MAX_REGISTER_READ_QUANTITY in Hq.
  assert (Hcases : rw_function w = 1 \/ rw_function w = 2 \/ rw_function w = 3 \/ rw_function w = 4) by lia.
  unfold payload in *. rewrite Hb in *.
  destruct Hcases as [Hf|[Hf|[Hf|Hf]]]; rewrite Hf in *; cbn in Hq;
    cbn -[Z.of_nat Z.mul div_ceil8] in Hmax; cbn -[Z.of_nat Z.mul wrap Z.ltb device_read div_ceil8];
    rewrite (proj2 (Z.ltb_ge _ _)) by lia;
    rewrite ?read_bits_memory, ?read_registers_memory by lia; do 3 f_equal;
    refine (eq_trans _ (eq_sym Hlen)); apply wrap_small; unfold u_ok; lia.
Qed.
End memory.

(** ** The adapter against the simulator *)

Section client.
Context (sin : f64 -> f64) (unix_time : Z -> Duration).
#[local] Instance simulator_connection : TcpStream Connection := simulator_stream sin unix_time.

(** A connection with nothing under way. *)
Definition idle (c : Connection) : Prop := open c = true /\ to_server c = [] /\ to_client c = [].

Lemma idle_eq c :
  idle c -> c = {| server := server c; requests_total := requests_total c; to_server := []; to_client := [];
                   open := true |}.
Proof using. destruct c. by intros (? & ? & ?); simpl in *; subst. Qed.

Lemma frame_bytes id unit_id pdu :
  (length pdu <= 253)%nat ->
  exists a b c d, frame_pdu id unit_id pdu = a :: b :: 0 :: 0 :: c :: d :: unit_id :: pdu /\
    (u_ok 16 id -> from_be_bytes [a; b] = id) /\ from_be_bytes [c; d] = Z.of_nat (length pdu) + 1.
Proof using.
  intros Hl. unfold frame_pdu. rewrite wrap_small by (unfold u_ok; lia).
  destruct (be_word id) as (a & b & -> & _ & _ & Hab).
  destruct (be_word (Z.of_nat (length pdu) + 1)) as (c & d & -> & _ & _ & Hcd).
  exists a, b, c, d. split; [done|]. split; [done|]. apply Hcd. unfold u_ok. lia.
Qed.

Lemma serve_once fuel c c' :
  serve_turn sin unix_time c = Some c' -> to_server c' = [] -> serve sin unix_time (S fuel) c = c'.
Proof using.
  intros Hc Hw. cbn [serve]. rewrite Hc. destruct fuel as [|fuel]; [done|]. cbn [serve].
  unfold serve_turn. rewrite Hw, (bool_decide_true (length [] < 7)%nat), orb_true_r by (simpl; lia). done.
Qed.

(** One request is served in one turn, after which the server waits. *)
Lemma serve_request id o n pdu :
  (1 <= length pdu <= 253)%nat ->
  let '(o', answer) := simulator_response_pdu sin (unix_time n) o pdu in
  serve sin unix_time (S (length (frame_pdu id (sim_unit_id o) pdu)))
    {| server := o; requests_total := n; to_server := frame_pdu id (sim_unit_id o) pdu; to_client := [];
       open := true |} =
  {| server := o'; requests_total := wrap 64 (n + 1); to_server := [];
     to_client := frame_pdu id (sim_unit_id o) answer; open := true |}.
Proof using.
  intros Hl. destruct (simulator_response_pdu sin (unix_time n) o pdu) as [o' answer] eqn:Hans.
  destruct (frame_bytes id (sim_unit_id o) pdu) as (a & b & c & d & Hframe & _ & Hcd); [lia|].
  assert (Hid : to_be_bytes 2 id = [a; b]).
  { unfold frame_pdu in Hframe. destruct (be_word id) as (a' & b' & Heq & _). rewrite Heq in *.
    injection Hframe. by intros; subst. }
  apply serve_once; [|done]. rewrite Hframe. unfold serve_turn. cbn [open negb orb to_server length].
  rewrite bool_decide_false by lia. cbn [take drop firstn skipn].
  change (word_at _ 4) with (from_be_bytes [c; d]). rewrite Hcd.
  rewrite (proj2 (Z.leb_le 2 _)), (proj2 (Z.leb_le _ (MAX_PDU_BYTES + 1))) by (unfold MAX_PDU_BYTES; lia).
  cbn [andb negb]. replace (Z.to_nat (Z.of_nat (length pdu) + 1 - 1)) with (length pdu) by lia.
  rewrite drop_0, bool_decide_false by lia. change (word_at _ 2) with 0. cbn [server].
  rewrite firstn_all, skipn_all. change (byte_at _ 6) with (sim_unit_id o). rewrite !Z.eqb_refl.
  cbn [negb orb requests_total]. rewrite Hans. cbn [to_client app].
  unfold frame_pdu. by rewrite Hid.
Qed.

(** A round trip to the simulator returns the answer of its handler. *)
Lemma simulator_roundtrip what id n o pdu :
  (1 <= length pdu <= 253)%nat -> u_ok 16 id ->
  let '(o', answer) := simulator_response_pdu sin (unix_time n) o pdu in
  (1 <= length answer <= 253)%nat ->
  forall t c, idle c -> server c = o -> requests_total c = n ->
  roundtrip what id (sim_unit_id o) (frame_pdu id (sim_unit_id o) pdu) {| transaction_id := t; stream := c |} =
  ({| transaction_id := t; stream :=
        {| server := o'; requests_total := wrap 64 (n + 1); to_server := []; to_client := []; open := true |} |},
   Ok answer).
Proof using.
  intros Hl Hid. pose proof (serve_request id o n pdu Hl) as Hserve.
  destruct (simulator_response_pdu sin (unix_time n) o pdu) as [o' answer].
  intros Ha t c Hc Ho Hn. rewrite (idle_eq c Hc), Ho, Hn. unfold roundtrip, on_stream.
  rewrite M_bind_eq. cbn [stream tcp_write_all simulator_connection simulator_stream open negb to_server app server
    requests_total to_client]. rewrite Hserve.
  destruct (frame_bytes id (sim_unit_id o) answer) as (a & b & c0 & d & -> & Hab & Hcd); [lia|].
  specialize (Hab Hid). rewrite M_bind_eq. cbn [stream tcp_read_exact simulator_connection simulator_stream to_client].
  rewrite bool_decide_true by (simpl; lia). cbn [take firstn drop skipn transaction_id server requests_total to_server open].
  rewrite lift_bind. change (word_at _ 0) with (from_be_bytes [a; b]). rewrite Hab, Z.eqb_refl.
  cbn [ensure]. rewrite lift_bind. change (byte_at _ 2) with 0. change (byte_at _ 3) with 0. cbn [Z.eqb andb ensure].
  rewrite lift_bind. change (byte_at _ 6) with (sim_unit_id o). rewrite Z.eqb_refl. cbn [ensure]. rewrite lift_bind.
  change (word_at _ 4) with (from_be_bytes [c0; d]). rewrite Hcd.
  rewrite (proj2 (Z.leb_le 2 _)), (proj2 (Z.leb_le _ (MAX_PDU_BYTES + 1))) by (unfold MAX_PDU_BYTES; lia).
  cbn [andb ensure stream to_client].
  replace (Z.to_nat (Z.of_nat (length answer) + 1 - 1)) with (length answer) by lia.
  rewrite drop_0, bool_decide_true by lia. cbn [server requests_total to_server open transaction_id].
  by rewrite firstn_all, skipn_all.
Qed.

(** *** Reads *)

(** The points that do not move with the clock: no register and no bit of the
    simulator changes from one request to the next on its own. *)
Definition static (o : ModbusTcpSimulatorOptions) : Prop := forall n function a,
  register_value sin o (unix_time n) function a = register_value sin o (unix_time 0) function a /\
  bit_value o (unix_time n) function a = bit_value o (unix_time 0) function a.

Lemma static_read o n function is_bit offset quantity :
  static o ->
  device_read (sim_memory sin o (unix_time n) function) is_bit offset quantity =
  device_read (sim_memory sin o (unix_time 0) function) is_bit offset quantity.
Proof using.
  intros Hs. unfold device_read. destruct is_bit; f_equal; apply list_fmap_ext; intros i a _;
    [apply Hs | simpl; f_equal; apply Hs].
Qed.

Definition simulator_at (o : ModbusTcpSimulatorOptions) (s : Tcp Connection) : Prop :=
  idle (stream s) /\ server (stream s) = o.

Lemma build_request_frame id address quantity :
  build_request id address quantity =
  frame_pdu id (ma_unit_id address)
    (ma_function address :: to_be_bytes 2 (ma_offset address) ++ to_be_bytes 2 quantity)%list.
Proof using.
  unfold build_request, frame_pdu.
  change (length (ma_function address :: _)) with
    (S (length (to_be_bytes 2 (ma_offset address) ++ to_be_bytes 2 quantity))).
  rewrite length_app, !length_to_be_bytes. done.
Qed.

Lemma simulator_serves o w :
  static o -> request_ok w -> rw_station_id w = sim_unit_id o ->
  serves exchange (fun _ function => sim_memory sin o (unix_time 0) function) (simulator_at o) w.
Proof using.
  intros Hst Hw Hunit [t c] [Hidle Ho]. cbn [stream] in *.
  unfold exchange, transact. rewrite M_bind_eq. unfold next_transaction. cbn [transaction_id stream].
  set (id := wrap 16 (t + 1)). rewrite build_request_frame. cbn [ma_unit_id ma_function ma_offset].
  pose proof (simulator_read sin o (unix_time (requests_total c)) w Hw) as Hread. cbv zeta in Hread.
  rewrite (static_read o (requests_total c)) in Hread by done.
  destruct (length_device_read (sim_memory sin o (unix_time 0) (rw_function w)) w Hw) as [Hlen Hmax].
  destruct Hw as (_ & Hfn & _). set (payload := device_read _ _ _ _) in *.
  pose proof (simulator_roundtrip "" id (requests_total c) o
    (rw_function w :: to_be_bytes 2 (rw_offset w) ++ to_be_bytes 2 (rw_quantity w))%list) as Hround.
  rewrite Hread in Hround. rewrite M_bind_eq, Hunit.
  rewrite (Hround ltac:(cbn [length]; rewrite length_app, !length_to_be_bytes; lia)
    (wrap_ok 16 _ ltac:(lia)) ltac:(cbn [length]; lia) id c Hidle Ho eq_refl).
  eexists. split; [unfold lift; f_equal | by repeat split]. unfold parse_response_pdu.
  rewrite bool_decide_true by (simpl; lia). cbn [ensure mbind Result_bind].
  change (byte_at _ 0) with (rw_function w). change (byte_at _ 1) with (Z.of_nat (length payload)).
  rewrite (proj2 (Z.eqb_neq (rw_function w) (exception_function (rw_function w)))) by (symmetry; apply exception_ne; lia).
  cbn [negb ensure mbind Result_bind]. rewrite Z.eqb_refl, Hlen, Z.eqb_refl. cbn [andb ensure mbind Result_bind length].
  rewrite (proj2 (Z.eqb_eq _ _)) by lia. done.
Qed.

(** Connecting leaves the simulator as it is. *)
Lemma simulator_connect connection t c :
  parse_endpoint (conn_endpoint connection) = Ok (sim_bind (server c)) ->
  connect connection {| transaction_id := t; stream := c |} =
  ({| transaction_id := t; stream := {| server := server c; requests_total := requests_total c;
       to_server := []; to_client := []; open := true |} |}, Ok ()).
Proof using.
  intros Hp. unfold connect. rewrite lift_bind, Hp. unfold on_stream. cbn [stream tcp_connect simulator_connection simulator_stream].
  by rewrite bool_decide_true.
Qed.

(** [C17] The Modbus TCP adapter reads the simulator of the same file faithfully,
    end to end: the requests it frames, the server's turns, the responses it
    checks and the windows it cuts yield for every point of the connection, in
    the order of the configuration, the value decoded from that point's own
    registers or bit, and the simulator is left as it was. *)
Theorem tcp_reads_simulator connection default_unit_id clock mappings planned values s :
  u_ok 8 default_unit_id -> conn_protocol connection = ModbusTcp ->
  parse_endpoint (conn_endpoint connection) = Ok (sim_bind (server (stream s))) ->
  planned_mappings (parse_address default_unit_id) (conn_id connection) mappings = Ok planned ->
  Forall (fun x => ma_unit_id (snd (fst x)) = sim_unit_id (server (stream s))) planned ->
  Forall (fun p => point_end p <= 2 ^ 16) (imap read_point planned) ->
  static (server (stream s)) ->
  Forall2 (fun x v => direct_value (fun _ => sim_memory sin (server (stream s)) (unix_time 0)) x = Ok v)
    planned values ->
  exists s', read_telemetry connection default_unit_id clock mappings s =
    (s', Ok (direct_samples clock planned values)) /\ server (stream s') = server (stream s).
Proof using.
  destruct s as [t c]. cbn [stream]. intros Hid Hproto Hend Hplanned Hunits Hends Hst Hvalues.
  assert (Hall : Forall planned_ok planned).
  { eapply planned_mappings_ok; [|done]. intros kind value a. by apply tcp_address_ok. }
  unfold read_telemetry, check_protocol. rewrite lift_bind, bool_decide_true by done. cbn [ensure].
  rewrite lift_bind, Hplanned. case_bool_decide as Hempty.
  { destruct planned; [|done]. eexists. by split. }
  destruct (planned_read_direct exchange clock planned
    (fun _ => sim_memory sin (server c) (unix_time 0)) (simulator_at (server c)) values Hall Hends Hvalues)
    as (windows & Hwin & Hrun).
  { intros w m a q Hw Hin Heq. apply simulator_serves; [done..|]. rewrite <- Heq.
    exact (Forall_elem _ _ _ Hunits Hin). }
  rewrite lift_bind, Hwin, M_bind_eq, (simulator_connect connection t c Hend).
  destruct (Hrun {| transaction_id := t; stream := {| server := server c; requests_total := requests_total c;
    to_server := []; to_client := []; open := true |} |}) as (s' & Hr & Hs'); [by split|].
  exists s'. split; [exact Hr | apply Hs'].
Qed.
End client.

(** *** Writes *)

(** What a write does to the simulator. *)
Fixpoint store_registers (offset : Z) (values : list Z) (o : ModbusTcpSimulatorOptions)
    : ModbusTcpSimulatorOptions :=
  match values with
  | [] => o
  | value :: values => store_registers (offset + 1) values (set_register offset value o)
  end.

Fixpoint store_coils (offset : Z) (values : list Z) (o : ModbusTcpSimulatorOptions)
    : ModbusTcpSimulatorOptions :=
  match values with
  | [] => o
  | value :: values => store_coils (offset + 1) values (set_coil offset (negb (value =? 0)) o)
  end.

Definition is_coil_command (command : ModbusWriteCommand) : bool :=
  (wc_function command =? WRITE_SINGLE_COIL) || (wc_function command =? WRITE_MULTIPLE_COILS).

Definition apply_command (offset : Z) (command : ModbusWriteCommand) (o : ModbusTcpSimulatorOptions)
    : ModbusTcpSimulatorOptions :=
  if is_coil_command command then store_coils offset (wc_values command) o
  else store_registers offset (wc_values command) o.

(** The commands the protocol allows. *)
Definition command_ok (offset : Z) (command : ModbusWriteCommand) : Prop :=
  u_ok 16 offset /\ offset + Z.of_nat (length (wc_values command)) <= 2 ^ 16 /\
  Forall (u_ok 16) (wc_values command) /\
  ((wc_function command = WRITE_SINGLE_COIL /\ (wc_values command = [0] \/ wc_values command = [0xFF00])) \/
   (wc_function command = WRITE_SINGLE_REGISTER /\ length (wc_values command) = 1%nat) \/
   (wc_function command = WRITE_MULTIPLE_COILS /\ (1 <= length (wc_values command) <= 1968)%nat) \/
   (wc_function command = WRITE_MULTIPLE_REGISTERS /\ (1 <= length (wc_values command) <= 123)%nat)).

Lemma word_at_wire pre values i v :
  Forall (u_ok 16) values -> values !! i = Some v ->
  word_at (pre ++ concat (to_be_bytes 2 <$> values)) (length pre + i * 2) = v.
Proof.
  intros Hok. revert pre i. induction values as [|x values IH]; intros pre i Hi; [done|].
  apply Forall_cons_1 in Hok as [Hx Hok]. destruct (be_word x) as (a & b & Heq & _ & _ & Hab).
  destruct i as [|i].
  - injection Hi as ->. rewrite fmap_cons, concat_cons, Heq. unfold word_at, byte_at.
    rewrite Nat.add_0_r. cbn [app]. rewrite list_lookup_middle by done.
    rewrite (cons_middle a), app_assoc, list_lookup_middle by (rewrite length_app; simpl; lia).
    by apply Hab.
  - rewrite fmap_cons, concat_cons, app_assoc. rewrite <- (IH Hok (pre ++ to_be_bytes 2 x)%list i Hi).
    f_equal. rewrite length_app, length_to_be_bytes. lia.
Qed.

Lemma write_registers_store function offset request values k o :
  (forall i v, values !! i = Some v -> word_at request (6 + (k + i) * 2) = v) ->
  0 <= offset -> offset + Z.of_nat k + Z.of_nat (length values) <= 2 ^ 16 ->
  write_registers function offset request (seq k (length values)) o =
  (store_registers (offset + Z.of_nat k) values o, None).
Proof.
  revert k o. induction values as [|v values IH]; intros k o Hat Ho Hend; [done|].
  cbn [length seq write_registers store_registers] in *. unfold checked_add.
  rewrite (proj2 (Z.leb_le _ _)) by (unfold u_max; lia).
  specialize (Hat 0%nat v eq_refl) as Hv. rewrite Nat.add_0_r in Hv. rewrite Hv.
  rewrite IH; [by replace (offset + Z.of_nat k + 1) with (offset + Z.of_nat (S k)) by lia | | done | lia].
  intros i w Hw. rewrite <- (Hat (S i) w Hw). f_equal. lia.
Qed.

Lemma write_coils_store function offset request values k o :
  (forall i v, values !! i = Some v ->
     Z.testbit (byte_at request (6 + (k + i) / 8)) (Z.of_nat ((k + i) mod 8)) = negb (v =? 0)) ->
  0 <= offset -> offset + Z.of_nat k + Z.of_nat (length values) <= 2 ^ 16 ->
  write_coils function offset request (seq k (length values)) o =
  (store_coils (offset + Z.of_nat k) values o, None).
Proof.
  revert k o. induction values as [|v values IH]; intros k o Hat Ho Hend; [done|].
  cbn [length seq write_coils store_coils] in *. unfold checked_add.
  rewrite (proj2 (Z.leb_le _ _)) by (unfold u_max; lia).
  specialize (Hat 0%nat v eq_refl) as Hv. rewrite Nat.add_0_r in Hv. rewrite Hv.
  rewrite IH; [by replace (offset + Z.of_nat k + 1) with (offset + Z.of_nat (S k)) by lia | | done | lia].
  intros i w Hw. rewrite <- (Hat (S i) w Hw). by replace (k + S i)%nat with (S k + i)%nat by lia.
Qed.

(** The packing loop sets the bits of the coils that are on. *)
Lemma pack_coils_fold (f : nat -> bool) values index packed :
  (forall i v, values !! i = Some v -> f (index + i)%nat = negb (v =? 0)) ->
  (index + length values <= 8 * length packed)%nat ->
  pack_coils index values packed =
  Ok (fold_left (fun l i => if f i then set_bit l i else l) (seq index (length values)) packed).
Proof.
  revert index packed. induction values as [|v values IH]; intros index packed Hf Hl; [done|].
  cbn [pack_coils length seq fold_left] in *.
  pose proof (Hf 0%nat v eq_refl) as H0. rewrite Nat.add_0_r in H0. rewrite H0.
  assert (Hf' : forall i v, values !! i = Some v -> f (S index + i)%nat = negb (v =? 0)).
  { intros i w Hw. rewrite <- (Hf (S i) w Hw). f_equal. lia. }
  destruct (v =? 0); cbn [negb]; [by apply IH; [|lia]|].
  rewrite bool_decide_true by (apply Nat.Div0.div_lt_upper_bound; lia).
  apply IH; [done|]. rewrite length_set_bit. lia.
Qed.

Lemma pack_coils_bits values :
  exists packed, pack_coils 0 values (replicate (div_ceil8 (length values)) 0) = Ok packed /\
    length packed = div_ceil8 (length values) /\ bytes_ok packed /\
    forall i v, values !! i = Some v -> payload_bit packed i = negb (v =? 0).
Proof.
  set (f := fun i => negb (default 0 (values !! i) =? 0)).
  destruct (fold_set_bits f 0 (length values) (replicate (div_ceil8 (length values)) 0)) as (Hl & Hok & Hbits).
  { rewrite length_replicate. apply div_ceil8_bound. }
  { apply Forall_replicate. split; lia. }
  eexists. split; [|split; [by rewrite Hl, length_replicate | split; [exact Hok|]]].
  - apply pack_coils_fold; [|rewrite length_replicate; apply div_ceil8_bound].
    intros i v Hi. unfold f. simpl. by rewrite Hi.
  - intros i v Hi. rewrite Hbits, payload_bit_zeros. apply lookup_lt_Some in Hi as Hlt.
    rewrite bool_decide_true by lia. unfold f. by rewrite Hi.
Qed.

(** The acknowledgement of a write is what the adapter expects. *)
Lemma acknowledgement_accepted a b c d offset command expected :
  wc_function command < 128 -> 0 <= wc_function command ->
  from_be_bytes [a; b] = offset -> from_be_bytes [c; d] = expected -> expected_echo command = Ok expected ->
  parse_write_response_pdu [wc_function command; a; b; c; d] offset command = Ok ().
Proof.
  intros Hlt Hge Hab Hcd Hecho. unfold parse_write_response_pdu.
  rewrite !bool_decide_true by (simpl; lia). cbn [ensure mbind Result_bind].
  change (byte_at _ 0) with (wc_function command).
  rewrite (proj2 (Z.eqb_neq _ (exception_function (wc_function command)))) by (symmetry; apply exception_ne; lia).
  cbn [negb ensure mbind Result_bind]. rewrite Z.eqb_refl.
  cbn [andb ensure mbind Result_bind]. change (word_at _ 1) with (from_be_bytes [a; b]).
  change (word_at _ 3) with (from_be_bytes [c; d]). rewrite Hab, Z.eqb_refl. cbn [ensure mbind Result_bind].
  rewrite Hecho. cbn [mbind Result_bind]. by rewrite Hcd, Z.eqb_refl.
Qed.

Section write_handler.
Context (sin : f64 -> f64) (now : Duration) (o : ModbusTcpSimulatorOptions).

(** A command is carried out: its frame fits a PDU, the simulator applies it
    and the adapter accepts the acknowledgement. *)
Definition carried_out (offset : Z) (command : ModbusWriteCommand) : Prop :=
  exists pdu echo, write_pdu offset command = Ok pdu /\ (1 <= length pdu <= 253)%nat /\
    simulator_response_pdu sin now o pdu = (apply_command offset command o, echo) /\
    (1 <= length echo <= 253)%nat /\ parse_write_response_pdu echo offset command = Ok ().

Lemma single_coil_carried_out offset v :
  u_ok 16 offset -> v = 0 \/ v = 0xFF00 ->
  carried_out offset {| wc_function := WRITE_SINGLE_COIL; wc_values := [v] |}.
Proof using.
  intros Ho Hv. destruct (be_word offset) as (a & b & Heq & _ & _ & Hab). specialize (Hab Ho).
  destruct (be_word v) as (c & d & Heqv & _ & _ & Hcd).
  assert (Hv16 : u_ok 16 v) by (unfold u_ok; lia). specialize (Hcd Hv16).
  exists [WRITE_SINGLE_COIL; a; b; c; d], [WRITE_SINGLE_COIL; a; b; c; d].
  split; [unfold write_pdu; cbn -[to_be_bytes]; by rewrite Heq, Heqv|]. split; [simpl; lia|]. split; [|split; [simpl; lia|]].
  - unfold simulator_response_pdu. change (word_at _ 1) with (from_be_bytes [a; b]).
    change (word_at _ 3) with (from_be_bytes [c; d]). rewrite Hab, Hcd. by destruct Hv as [-> | ->].
  - by apply (acknowledgement_accepted a b c d offset {| wc_function := WRITE_SINGLE_COIL; wc_values := [v] |} v).
Qed.

Lemma single_register_carried_out offset v :
  u_ok 16 offset -> u_ok 16 v ->
  carried_out offset {| wc_function := WRITE_SINGLE_REGISTER; wc_values := [v] |}.
Proof using.
  intros Ho Hv. destruct (be_word offset) as (a & b & Heq & _ & _ & Hab). specialize (Hab Ho).
  destruct (be_word v) as (c & d & Heqv & _ & _ & Hcd). specialize (Hcd Hv).
  exists [WRITE_SINGLE_REGISTER; a; b; c; d], [WRITE_SINGLE_REGISTER; a; b; c; d].
  split; [unfold write_pdu; cbn -[to_be_bytes]; by rewrite Heq, Heqv|]. split; [simpl; lia|]. split; [|split; [simpl; lia|]].
  - unfold simulator_response_pdu. change (word_at _ 1) with (from_be_bytes [a; b]).
    change (word_at _ 3) with (from_be_bytes [c; d]). by rewrite Hab, Hcd.
  - by apply (acknowledgement_accepted a b c d offset {| wc_function := WRITE_SINGLE_REGISTER; wc_values := [v] |} v).
Qed.

Lemma registers_carried_out offset values :
  u_ok 16 offset -> offset + Z.of_nat (length values) <= 2 ^ 16 -> Forall (u_ok 16) values ->
  (1 <= length values <= 123)%nat ->
  carried_out offset {| wc_function := WRITE_MULTIPLE_REGISTERS; wc_values := values |}.
Proof using.
  intros Ho Hend Hok Hl. set (q := Z.of_nat (length values)).
  destruct (be_word offset) as (a & b & Heq & _ & _ & Hab). specialize (Hab Ho).
  destruct (be_word q) as (c & d & Heqq & _ & _ & Hcd).
  assert (Hq : u_ok 16 q) by (unfold u_ok, q; lia). specialize (Hcd Hq).
  set (data := concat (to_be_bytes 2 <$> values)).
  assert (Hdata : length data = (length values * 2)%nat)
    by (apply length_concat_fixed; intros; apply length_to_be_bytes).
  exists (([WRITE_MULTIPLE_REGISTERS; a; b; c; d; q * 2] ++ data)%list), [WRITE_MULTIPLE_REGISTERS; a; b; c; d].
  split; [|split; [|split; [|split; [simpl; lia|]]]].
  - unfold write_pdu. cbn -[to_be_bytes Z.mul u_max wrap]. fold q data.
    rewrite Z.min_l by (unfold u_max, q; lia). rewrite Heq, Heqq, wrap_small by (unfold u_ok, q; lia). done.
  - rewrite length_app, Hdata. simpl. lia.
  - unfold simulator_response_pdu. rewrite bool_decide_false by (rewrite length_app; simpl; lia).
    change (word_at _ 1) with (from_be_bytes [a; b]). change (word_at _ 3) with (from_be_bytes [c; d]).
    rewrite Hab, Hcd. change (byte_at _ 0) with WRITE_MULTIPLE_REGISTERS. change (byte_at _ 5) with (q * 2).
    cbn -[Z.mul Z.of_nat length]. rewrite (proj2 (Z.eqb_neq q 0)), (proj2 (Z.ltb_ge 123 q)) by (unfold q; lia).
    rewrite bool_decide_false by (cbn [length]; lia). rewrite Z.eqb_refl. cbn [orb negb].
    rewrite (proj2 (Z.eqb_eq _ _)) by (cbn [length]; rewrite Hdata; unfold q; lia). cbn [negb].
    replace (Z.to_nat q) with (length values) by (unfold q; lia).
    rewrite (write_registers_store _ _ _ values 0); [simpl; by rewrite Z.add_0_r | | unfold u_ok in *; lia | lia].
    intros i v Hi. apply (word_at_wire [WRITE_MULTIPLE_REGISTERS; a; b; c; d; q * 2] values i v Hok Hi).
  - apply (acknowledgement_accepted a b c d offset
      {| wc_function := WRITE_MULTIPLE_REGISTERS; wc_values := values |} q); try done.
    unfold expected_echo. cbn -[wrap]. by rewrite wrap_small.
Qed.

Lemma coils_carried_out offset values :
  u_ok 16 offset -> offset + Z.of_nat (length values) <= 2 ^ 16 -> (1 <= length values <= 1968)%nat ->
  carried_out offset {| wc_function := WRITE_MULTIPLE_COILS; wc_values := values |}.
Proof using.
  intros Ho Hend Hl. set (q := Z.of_nat (length values)).
  destruct (be_word offset) as (a & b & Heq & _ & _ & Hab). specialize (Hab Ho).
  destruct (be_word q) as (c & d & Heqq & _ & _ & Hcd).
  assert (Hq : u_ok 16 q) by (unfold u_ok, q; lia). specialize (Hcd Hq).
  destruct (pack_coils_bits values) as (packed & Hpack & Hlen & _ & Hbits).
  assert (Hceil : (div_ceil8 (length values) <= 246)%nat).
  { unfold div_ceil8. change 246%nat with (1975 / 8)%nat. apply Nat.Div0.div_le_mono. lia. }
  set (n := Z.of_nat (length packed)).
  exists (([WRITE_MULTIPLE_COILS; a; b; c; d; n] ++ packed)%list), [WRITE_MULTIPLE_COILS; a; b; c; d].
  split; [|split; [|split; [|split; [simpl; lia|]]]].
  - unfold write_pdu. cbn -[to_be_bytes Z.mul u_max wrap div_ceil8]. fold q.
    rewrite Z.min_l by (unfold u_max, q; lia). replace (Z.to_nat q) with (length values) by (unfold q; lia). rewrite Hpack. cbn [mbind Result_bind].
    rewrite Heq, Heqq, wrap_small by (unfold u_ok; lia). done.
  - rewrite length_app, Hlen. simpl. lia.
  - unfold simulator_response_pdu. rewrite bool_decide_false by (rewrite length_app; simpl; lia).
    change (word_at _ 1) with (from_be_bytes [a; b]). change (word_at _ 3) with (from_be_bytes [c; d]).
    rewrite Hab, Hcd. change (byte_at _ 0) with WRITE_MULTIPLE_COILS. change (byte_at _ 5) with n.
    cbn -[Z.mul Z.of_nat length div_ceil8]. rewrite (proj2 (Z.eqb_neq q 0)), (proj2 (Z.ltb_ge 1968 q)) by (unfold q; lia).
    rewrite bool_decide_false by (cbn [length]; lia). cbn [orb].
    replace (Z.of_nat (div_ceil8 (Z.to_nat q))) with n by (unfold n, q; by rewrite Hlen, Nat2Z.id).
    rewrite Z.eqb_refl. cbn [orb negb].
    rewrite (proj2 (Z.eqb_eq _ _)) by (cbn [length]; unfold n; lia). cbn [negb].
    replace (Z.to_nat q) with (length values) by (unfold q; lia).
    rewrite (write_coils_store _ _ _ values 0); [simpl; by rewrite Z.add_0_r | | unfold u_ok in *; lia | lia].
    intros i v Hi. exact (Hbits i v Hi).
  - apply (acknowledgement_accepted a b c d offset
      {| wc_function := WRITE_MULTIPLE_COILS; wc_values := values |} q); try done.
    unfold expected_echo. cbn -[wrap]. by rewrite wrap_small.
Qed.

Lemma command_carried_out offset command : command_ok offset command -> carried_out offset command.
Proof using.
  destruct command as [function values]. intros (Ho & Hend & Hok & Hcases). cbn [wc_function wc_values] in *.
  destruct Hcases as [[-> [-> | ->]]|[[-> Hl]|[[-> Hl]|[-> Hl]]]].
  - apply single_coil_carried_out; [done | by left].
  - apply single_coil_carried_out; [done | by right].
  - destruct values as [|v [|]]; try done. apply Forall_cons_1 in Hok as [Hv _]. by apply single_register_carried_out.
  - by apply coils_carried_out.
  - by apply registers_carried_out.
Qed.
End write_handler.

(** ** Writes through the adapter *)

Lemma value_bytes_shape value_type encoding options value l :
  value_bytes value_type encoding options value = Ok l ->
  bytes_ok l /\ (length l = 2 \/ length l = 4 \/ length l = 8)%nat.
Proof.
  assert (Hbe : forall n x, l = to_be_bytes n x -> (n = 2 \/ n = 4 \/ n = 8)%nat ->
    bytes_ok l /\ (length l = 2 \/ length l = 4 \/ length l = 8)%nat).
  { intros n x -> Hn. split; [apply to_be_bytes_ok | by rewrite length_to_be_bytes]. }
  unfold value_bytes, encode_integer, checked_bytes. intros H.
  repeat case_match; inv_result; (eapply Hbe; [reflexivity | lia]).
Qed.

Lemma bytes_registers_ok order l :
  bytes_ok l -> Nat.even (length l) = true -> Forall (u_ok 16) (bytes_registers order l).
Proof.
  intros Hok He. revert Hok. pattern l. apply even_ind; [constructor | | done].
  clear. intros a b l IH [Ha [Hb Hl]%Forall_cons_iff]%Forall_cons_iff. constructor; [|by apply IH].
  simpl. destruct order.
  - apply (from_be_bytes_bound [a; b]). bytes_tac.
  - unfold swap_bytes. rewrite be_pair by done. apply (from_le_bytes_bound [a; b]). bytes_tac.
Qed.

Lemma encoded_values_ok value_type address value values :
  encode_modbus_register_values value_type address value = Ok values ->
  Forall (u_ok 16) values /\ (1 <= length values <= 4)%nat.
Proof.
  unfold encode_modbus_register_values. case_match; [done|]. intros Henc. inv_result.
  match goal with H : value_bytes _ _ _ _ = Ok ?l |- _ =>
    destruct (value_bytes_shape _ _ _ _ _ H) as [Hok Hlen]; rename l into l0 end.
  assert (Hev : Nat.even (length l0) = true) by (by destruct Hlen as [-> | [-> | ->]]).
  pose proof (bytes_registers_ok (mb_byte_order (options_of address)) l0 Hok Hev) as Hregs.
  assert (Hl : (1 <= length (bytes_registers (mb_byte_order (options_of address)) l0) <= 4)%nat).
  { unfold bytes_registers. rewrite length_fmap.
    destruct Hlen as [Hl|[Hl|Hl]];
      [rewrite (length_chunks2 l0 1) by lia | rewrite (length_chunks2 l0 2) by lia
      | rewrite (length_chunks2 l0 4) by lia]; lia. }
  destruct (mb_word_order (options_of address)); simpl; [done|].
  split; [by apply Forall_reverse | by rewrite length_reverse].
Qed.

(** What [prepare_point_write] guarantees, up to the end of the address space. *)
Lemma prepared_command parse_address connection_id mapping value a command :
  (forall kind v a, parse_address kind v = Ok a -> modbus_address_ok a) ->
  prepare_point_write parse_address connection_id mapping value = Ok (a, command) ->
  u_ok 16 (ma_offset a) /\ Forall (u_ok 16) (wc_values command) /\ (1 <= length (wc_values command) <= 4)%nat /\
  ((ma_function a = READ_COILS /\ wc_function command = WRITE_SINGLE_COIL /\
    (wc_values command = [0] \/ wc_values command = [0xFF00])) \/
   (ma_function a = READ_HOLDING_REGISTERS /\
    wc_function command = if bool_decide (length (wc_values command) = 1%nat)
                          then WRITE_SINGLE_REGISTER else WRITE_MULTIPLE_REGISTERS)).
Proof.
  intros Hparse. unfold prepare_point_write, point_address. intros Hprep. inv_result. simplify_eq.
  match goal with H : parse_address _ _ = Ok _ |- _ => apply Hparse in H as (_ & _ & Ho) end.
  match goal with H : encode_write_command _ _ _ _ = Ok _ |- _ => rename H into Henc end.
  split; [done|]. unfold encode_write_command in Henc.
  destruct (ma_function a =? READ_COILS) eqn:Hc.
  - apply Z.eqb_eq in Hc. destruct value; try done. inv_result. cbn [wc_values wc_function].
    destruct b; (split; [repeat constructor; lia | split; [simpl; lia | left; auto]]).
  - destruct (ma_function a =? READ_HOLDING_REGISTERS) eqn:Hh; [|by case_match].
    apply Z.eqb_eq in Hh. inv_result. cbn [wc_values wc_function].
    match goal with H : encode_modbus_register_values _ _ _ = Ok _ |- _ => apply encoded_values_ok in H as [Hu Hl] end.
    split; [done|]. split; [done|]. by right.
Qed.

Lemma prepared_command_ok parse_address connection_id mapping value a command :
  (forall kind v a, parse_address kind v = Ok a -> modbus_address_ok a) ->
  prepare_point_write parse_address connection_id mapping value = Ok (a, command) ->
  ma_offset a + Z.of_nat (length (wc_values command)) <= 2 ^ 16 -> command_ok (ma_offset a) command.
Proof.
  intros Hparse Hprep Hend.
  destruct (prepared_command _ _ _ _ _ _ Hparse Hprep) as (Ho & Hok & Hl & Hcases).
  split_and!; [done..|]. destruct Hcases as [(_ & Hf & Hv)|[_ Hf]]; [by left|].
  rewrite Hf. case_bool_decide as H1; [by right; left|]. right; right; right. split; [done | lia].
Qed.

Lemma existsb_Forall {A} (f : A -> bool) l : existsb f l = false <-> Forall (fun x => f x = false) l.
Proof.
  induction l as [|x l IH]; [done|]. cbn [existsb]. by rewrite orb_false_iff, Forall_cons_iff, IH.
Qed.

Definition apply_prepared (o : ModbusTcpSimulatorOptions) (x : ModbusAddress * ModbusWriteCommand)
    : ModbusTcpSimulatorOptions := apply_command (ma_offset (fst x)) (snd x) o.

Lemma store_registers_app offset a b o :
  store_registers offset (a ++ b) o = store_registers (offset + Z.of_nat (length a)) b (store_registers offset a o).
Proof.
  revert offset o. induction a as [|x a IH]; intros offset o; cbn [app store_registers length].
  - by rewrite Z.add_0_r.
  - rewrite IH. f_equal. lia.
Qed.

(** A write that was prepared on its own. *)
Definition prepared_ok (x : ModbusAddress * ModbusWriteCommand) : Prop :=
  Forall (u_ok 16) (wc_values (snd x)) /\ (1 <= length (wc_values (snd x)) <= 4)%nat.

(** The batch of register writes stores what the writes store one by one. *)
Lemma batch_registers_effect offset prepared values :
  u_ok 16 offset -> Forall prepared_ok prepared ->
  batch_registers offset prepared = Ok (Some values) ->
  (forall o, fold_left apply_prepared prepared o = store_registers offset values o) /\
  Forall (fun x => ma_offset (fst x) + Z.of_nat (length (wc_values (snd x))) <= 2 ^ 16) prepared /\
  offset + Z.of_nat (length values) <= 2 ^ 16 /\ Forall (u_ok 16) values /\
  (length prepared <= length values)%nat.
Proof.
  intros Ho Hall. revert offset values Ho. induction Hall as [|[a command] prepared [Hu Hl] Hall IH];
    intros offset values Ho; cbn [batch_registers].
  { intros [= <-]. split_and!; [done | constructor | unfold u_ok in Ho; simpl; lia | constructor | done]. }
  cbn [fst snd] in *. case_match eqn:Hguard; [done|]. apply orb_false_iff in Hguard as [Hoff Hfn].
  apply negb_false_iff, Z.eqb_eq in Hoff. subst offset. intros Hb. inv_result.
  match goal with H : checked_add _ _ _ = Some ?n |- _ => rename n into next; rename H into Hnext end.
  destruct a1 as [rest|]; [|done]. injection Hb as <-. unfold checked_add in Hnext.
  rewrite wrap_small in Hnext by (unfold u_ok; lia). case_match eqn:Hle; [|done].
  injection Hnext as <-. apply Z.leb_le in Hle. unfold u_max, u_ok in *.
  destruct (IH (ma_offset a + Z.of_nat (length (wc_values command))) rest) as (Heff & Hends & Hend & Hru & Hlen);
    [lia | done|].
  split_and!.
  - intros o. cbn [fold_left]. rewrite Heff, store_registers_app. f_equal. unfold apply_prepared, apply_command.
    cbn [fst snd]. apply negb_false_iff, orb_true_iff in Hfn.
    assert (is_coil_command command = false) as ->.
    { unfold is_coil_command. destruct Hfn as [Hf|Hf]; apply Z.eqb_eq in Hf; by rewrite Hf. }
    done.
  - constructor; [cbn [fst snd]; lia | done].
  - rewrite length_app. lia.
  - by apply Forall_app.
  - rewrite length_app. simpl. lia.
Qed.

Lemma batch_coils_effect offset prepared values :
  u_ok 16 offset -> Forall prepared_ok prepared ->
  Forall (fun x => wc_values (snd x) = [0] \/ wc_values (snd x) = [0xFF00]) prepared ->
  batch_coils offset prepared = Ok (Some values) ->
  (forall o, fold_left apply_prepared prepared o = store_coils offset values o) /\
  Forall (fun x => ma_offset (fst x) + Z.of_nat (length (wc_values (snd x))) <= 2 ^ 16) prepared /\
  offset + Z.of_nat (length values) <= 2 ^ 16 /\ Forall (u_ok 16) values /\
  (length prepared <= length values)%nat.
Proof.
  intros Ho Hall. revert offset values Ho. induction Hall as [|[a command] prepared [Hu Hl] Hall IH];
    intros offset values Ho Hv; cbn [batch_coils].
  { intros [= <-]. split_and!; [done | constructor | unfold u_ok in Ho; simpl; lia | constructor | done]. }
  apply Forall_cons_1 in Hv as [Hv Hvs]. cbn [fst snd] in *.
  case_match eqn:Hguard; [done|]. apply orb_false_iff in Hguard as [Hoff Hfn].
  apply negb_false_iff, Z.eqb_eq in Hoff, Hfn. subst offset. intros Hb. inv_result.
  match goal with H : checked_add _ _ _ = Some ?n |- _ => rename n into next; rename H into Hnext end.
  match goal with H : head _ = Some ?n |- _ => rename n into v; rename H into Hhead end.
  match goal with H : batch_coils _ _ = Ok ?r |- _ => rename r into rest0; rename H into Hrest end.
  destruct rest0 as [rest|]; [|done]. injection Hb as <-. unfold checked_add in Hnext.
  case_match eqn:Hle; [|done]. injection Hnext as <-. apply Z.leb_le in Hle. unfold u_max, u_ok in *.
  destruct (IH (ma_offset a + 1) rest) as (Heff & Hends & Hend & Hru & Hlen); [lia | done | done|].
  assert (Hone : wc_values command = [v]).
  { destruct Hv as [Hv|Hv]; rewrite Hv in *; by injection Hhead as <-. }
  split_and!.
  - intros o. cbn [fold_left store_coils]. rewrite Heff. f_equal. unfold apply_prepared, apply_command.
    cbn [fst snd]. unfold is_coil_command. rewrite Hfn, Hone. cbn [Z.eqb WRITE_SINGLE_COIL orb store_coils].
    simpl. f_equal. by destruct (v =? 0).
  - constructor; [cbn [fst snd]; rewrite Hone; simpl; lia | done].
  - cbn [length]. lia.
  - constructor; [destruct (v =? 0); lia | done].
  - simpl. lia.
Qed.

(** A batch is a command the protocol allows, and its effect is that of the
    writes it joins, in their order. *)
Lemma join_writes_effect parse_address connection_id writes prepared a command :
  (forall kind v a, parse_address kind v = Ok a -> modbus_address_ok a) ->
  Forall2 (fun w x => prepare_point_write parse_address connection_id (ppw_mapping w) (ppw_value w) = Ok x)
    writes prepared ->
  join_writes prepared = Ok (Some (a, command)) ->
  command_ok (ma_offset a) command /\
  (forall o, fold_left apply_prepared prepared o = apply_command (ma_offset a) command o) /\
  Forall (fun x => command_ok (ma_offset (fst x)) (snd x) /\ ma_unit_id (fst x) = ma_unit_id a) prepared.
Proof.
  intros Hparse Hprep Hjoin. destruct prepared as [|[first c0] prepared0] eqn:Hp; [done|].
  cbn [join_writes] in Hjoin. rewrite <- Hp in *.
  assert (Hhd : (first, c0) ∈ prepared) by (rewrite Hp; left).
  assert (Hne : (1 <= length prepared)%nat) by (rewrite Hp; simpl; lia). clear Hp prepared0.
  case_match eqn:Hsame; [done|].
  assert (Hok : Forall (fun x => u_ok 16 (ma_offset (fst x)) /\ prepared_ok x /\
    (ma_function (fst x) = READ_COILS -> wc_values (snd x) = [0] \/ wc_values (snd x) = [0xFF00]) /\
    (ma_offset (fst x) + Z.of_nat (length (wc_values (snd x))) <= 2 ^ 16 ->
     command_ok (ma_offset (fst x)) (snd x)) /\
    ma_unit_id (fst x) = ma_unit_id first /\ ma_function (fst x) = ma_function first) prepared).
  { apply Forall_lookup. intros i [a1 c1] Hi. cbn [fst snd].
    destruct (Forall2_lookup_r _ _ _ _ _ Hprep Hi) as (w & _ & Hw).
    destruct (prepared_command _ _ _ _ _ _ Hparse Hw) as (? & ? & ? & Hcases). split; [done|]. split; [by split|].
    split; [intros Hf; destruct Hcases as [(_ & _ & ?)|[Hf' _]]; [done | by rewrite Hf' in Hf]|].
    split; [by apply (prepared_command_ok _ _ _ _ _ _ Hparse Hw)|].
    pose proof (Forall_lookup_1 _ _ _ _ (proj1 (existsb_Forall _ _) Hsame) Hi) as Hx. cbn [fst] in Hx.
    by apply orb_false_iff in Hx as [Hx1%negb_false_iff%Z.eqb_eq Hx2%negb_false_iff%Z.eqb_eq]. }
  assert (Hpok : Forall prepared_ok prepared) by (eapply list.Forall_impl; [exact Hok | by intros x (_ & ? & _)]).
  assert (Hfirst : u_ok 16 (ma_offset first)) by exact (proj1 (Forall_elem _ _ _ Hok Hhd)).
  assert (Hends : Forall (fun x => ma_offset (fst x) + Z.of_nat (length (wc_values (snd x))) <= 2 ^ 16) prepared ->
    Forall (fun x => command_ok (ma_offset (fst x)) (snd x) /\ ma_unit_id (fst x) = ma_unit_id first) prepared).
  { intros He. apply Forall_lookup. intros i x Hi.
    pose proof (Forall_lookup_1 _ _ _ _ Hok Hi) as (_ & _ & _ & Hc & ? & _).
    split; [apply Hc; exact (Forall_lookup_1 _ _ _ _ He Hi) | done]. }
  destruct (ma_function first =? READ_COILS) eqn:Hcoil; [apply Z.eqb_eq in Hcoil|
    destruct (ma_function first =? READ_HOLDING_REGISTERS); [|done]]; inv_result;
    (destruct a0 as [values|]; [|done]); unfold limited in Hjoin; cbn [mbind option_bind] in Hjoin;
    case_bool_decide as Hlim; cbn [option_map] in Hjoin; try done; simplify_eq.
  - destruct (batch_coils_effect (ma_offset a) prepared values Hfirst Hpok) as (Heff & He & Hend & Hu & Hlen); [|done|].
    { eapply list.Forall_impl; [exact Hok|]. intros x (_ & _ & Hx & _ & _ & Hf). apply Hx. by rewrite Hf. }
    split; [|by split; [|apply Hends]]. split_and!; [done..|].
    right; right; left. split; [done|]. cbn [wc_values]. lia.
  - destruct (batch_registers_effect (ma_offset a) prepared values Hfirst Hpok) as (Heff & He & Hend & Hu & Hlen); [done|].
    split; [|by split; [|apply Hends]]. split_and!; [done..|].
    right; right; right. split; [done|]. cbn [wc_values]. lia.
Qed.

Section client_writes.
Context (sin : f64 -> f64) (unix_time : Z -> Duration).
#[local] Hint Extern 0 (TcpStream Connection) =>
  exact (simulator_connection sin unix_time) : typeclass_instances.

Definition apply_on (o : ModbusTcpSimulatorOptions) (c : Connection) : Connection :=
  {| server := o; requests_total := wrap 64 (requests_total c + 1); to_server := []; to_client := [];
     open := true |}.

(** A write of a connected adapter. *)
Lemma simulator_transact_write a command t c :
  command_ok (ma_offset a) command -> ma_unit_id a = sim_unit_id (server c) -> idle c ->
  transact_write a command {| transaction_id := t; stream := c |} =
  ({| transaction_id := wrap 16 (t + 1);
      stream := apply_on (apply_command (ma_offset a) command (server c)) c |}, Ok ()).
Proof using.
  intros Hcmd Hunit Hidle.
  destruct (command_carried_out sin (unix_time (requests_total c)) (server c) _ _ Hcmd)
    as (pdu & echo & Hpdu & Hl & Hresp & Hle & Hparse).
  unfold transact_write, next_transaction. rewrite M_bind_eq. cbn [transaction_id stream].
  rewrite lift_bind. unfold build_write_request. rewrite Hpdu, Hunit. cbn [mbind Result_bind].
  pose proof (simulator_roundtrip sin unix_time "write " (wrap 16 (t + 1)) (requests_total c) (server c) pdu Hl
    (wrap_ok 16 _ ltac:(lia))) as Hround. rewrite Hresp in Hround.
  rewrite M_bind_eq. erewrite (Hround Hle); [|done..]. unfold lift. by rewrite Hparse.
Qed.

(** One point write: connect, transact, report. *)
Lemma simulator_write_point connection default_unit_id mapping value a command t c :
  conn_protocol connection = ModbusTcp ->
  parse_endpoint (conn_endpoint connection) = Ok (sim_bind (server c)) ->
  prepare_point_write (parse_address default_unit_id) (conn_id connection) mapping value = Ok (a, command) ->
  command_ok (ma_offset a) command -> ma_unit_id a = sim_unit_id (server c) ->
  write_point connection default_unit_id mapping value {| transaction_id := t; stream := c |} =
  ({| transaction_id := wrap 16 (t + 1);
      stream := apply_on (apply_command (ma_offset a) command (server c)) c |},
   Ok (write_result mapping value)).
Proof using.
  intros Hproto Hend Hprep Hcmd Hunit. unfold write_point, check_protocol.
  rewrite lift_bind, bool_decide_true by done. cbn [ensure]. rewrite lift_bind, Hprep.
  rewrite M_bind_eq, (simulator_connect sin unix_time connection t c Hend), M_bind_eq.
  rewrite simulator_transact_write; [done | done | done | by repeat split].
Qed.

Lemma apply_command_kept offset command o :
  sim_bind (apply_command offset command o) = sim_bind o /\
  sim_unit_id (apply_command offset command o) = sim_unit_id o.
Proof using.
  unfold apply_command. case_match; revert offset o;
    (induction (wc_values command) as [|v values IH]; intros offset o; [done|]); cbn [store_coils store_registers];
    by destruct (IH (offset + 1) (set_coil offset (negb (v =? 0)) o)) as [-> ->] ||
    destruct (IH (offset + 1) (set_register offset v o)) as [-> ->].
Qed.

(** The writes one by one. *)
Lemma simulator_write_each connection default_unit_id writes prepared t c :
  conn_protocol connection = ModbusTcp ->
  parse_endpoint (conn_endpoint connection) = Ok (sim_bind (server c)) ->
  Forall2 (fun w x => prepare_point_write (parse_address default_unit_id) (conn_id connection)
                        (ppw_mapping w) (ppw_value w) = Ok x) writes prepared ->
  Forall (fun x => command_ok (ma_offset (fst x)) (snd x) /\ ma_unit_id (fst x) = sim_unit_id (server c)) prepared ->
  exists s', write_each connection default_unit_id writes {| transaction_id := t; stream := c |} =
    (s', Ok ((fun w => write_result (ppw_mapping w) (ppw_value w)) <$> writes)) /\
    server (stream s') = fold_left apply_prepared prepared (server c).
Proof using.
  intros Hproto Hend Hprep. revert t c Hend. induction Hprep as [|w [a command] writes prepared Hw Hprep IH];
    intros t c Hend Hall; cbn [write_each].
  { eexists. by split. }
  apply Forall_cons_1 in Hall as [[Hcmd Hunit] Hall]. cbn [fst snd] in *.
  destruct (apply_command_kept (ma_offset a) command (server c)) as [Hb Hu].
  rewrite M_bind_eq, (simulator_write_point connection default_unit_id _ _ a command t c) by done.
  destruct (IH (wrap 16 (t + 1)) (apply_on (apply_command (ma_offset a) command (server c)) c))
    as (s' & Hr & Hs'); [by cbn [server apply_on]; rewrite Hb | by cbn [server apply_on]; rewrite Hu |].
  exists s'. rewrite M_bind_eq, Hr. split; [done|]. rewrite Hs'. done.
Qed.

(** [C18] Batching writes is invisible to the device: when the adapter joins the
    writes into one request, the simulator ends in the state the separate
    writes leave, register for register and coil for coil, the same results are
    reported, and one request was sent instead of one per point. *)
Theorem batched_write_equals_single_writes connection default_unit_id writes a command s :
  u_ok 8 default_unit_id -> conn_protocol connection = ModbusTcp ->
  parse_endpoint (conn_endpoint connection) = Ok (sim_bind (server (stream s))) ->
  prepare_write_batch (parse_address default_unit_id) (conn_id connection) writes = Ok (Some (a, command)) ->
  ma_unit_id a = sim_unit_id (server (stream s)) ->
  exists s1 s2 results,
    write_points connection default_unit_id writes s = (s1, Ok results) /\
    write_each connection default_unit_id writes s = (s2, Ok results) /\
    server (stream s1) = server (stream s2) /\
    requests_total (stream s1) = wrap 64 (requests_total (stream s) + 1) /\
    results = (fun w => write_result (ppw_mapping w) (ppw_value w)) <$> writes.
Proof using.
  destruct s as [t c]. cbn [stream]. intros Hid Hproto Hend Hbatch Hunit.
  pose proof Hbatch as Hb. unfold prepare_write_batch in Hb. case_bool_decide; [done|]. inv_result.
  match goal with H : collect_results _ = Ok ?p |- _ =>
    rename p into prepared; apply collect_results_Forall2 in H as Hprep end.
  rewrite Forall2_fmap_l in Hprep.
  destruct (join_writes_effect (parse_address default_unit_id) (conn_id connection) writes prepared a command)
    as (Hcmd & Heff & Hall); [by intros ? ? ?; apply tcp_address_ok | done | done|].
  rewrite Hunit in Hall.
  destruct (simulator_write_each connection default_unit_id writes prepared t c Hproto Hend Hprep Hall)
    as (s2 & Hr2 & Hs2).
  eexists _, s2, _. split_and!; [| exact Hr2 | | | reflexivity].
  - unfold write_points, check_protocol. rewrite lift_bind, bool_decide_true by done. cbn [ensure].
    rewrite lift_bind, Hbatch. rewrite M_bind_eq, (simulator_connect sin unix_time connection t c Hend), M_bind_eq.
    rewrite simulator_transact_write; [done | done | done | by repeat split].
  - rewrite Hs2, Heff. done.
  - done.
Qed.
End client_writes.

(** ** Example: the simulator of the points of [ModbusAdapter] *)

Definition example_simulator : ModbusTcpSimulatorOptions :=
  {| sim_bind := "127.0.0.1:1502"; sim_unit_id := 1; holding_registers := {[ 1 := 77; 3 := 5 ]};
     input_registers := ∅; coils := {[ 0 := true ]}; discrete_inputs := ∅; dynamic_holding_floats := ∅;
     toggling_coils := ∅ |}.

Definition example_state : Tcp Connection :=
  {| transaction_id := 65535;
     stream := {| server := example_simulator; requests_total := 0; to_server := []; to_client := [];
                      open := false |} |}.

Definition example_endpoint : ProtocolConnection :=
  example_connection ModbusTcp (Some "tcp://127.0.0.1:1502").

(** The example has no moving points: its sine and its clock are not read. *)
Definition no_sin (x : f64) : f64 := x.
Definition some_time (n : Z) : Duration := {| dur_secs := n; dur_nanos := 0 |}.

Lemma example_static : static no_sin some_time example_simulator.
Proof.
  intros n function a. split; [|done]. unfold register_value, dynamic_float_register.
  cbn [dynamic_holding_floats example_simulator]. rewrite lookup_empty.
  destruct (checked_sub a 1); cbn [mbind option_bind]; [by rewrite lookup_empty | done].
Qed.

Definition simulator_planned : list (TelemetryPointMapping * ModbusAddress * Z) :=
  match planned_mappings (parse_address 1) "plc" example_mappings with Ok planned => planned | _ => [] end.

Lemma tcp_reads_simulator_witness :
  exists s', @read_telemetry Connection (simulator_connection no_sin some_time) example_endpoint 1
      (fun _ => 0) example_mappings example_state =
    (s', Ok (direct_samples (fun _ => 0) simulator_planned [VInteger 77; VBoolean true; VInteger 5])) /\
    server (stream s') = example_simulator.
Proof.
  apply (tcp_reads_simulator no_sin some_time example_endpoint 1 (fun _ => 0) example_mappings simulator_planned
    [VInteger 77; VBoolean true; VInteger 5] example_state).
  - unfold u_ok. lia.
  - reflexivity.
  - vm_compute. reflexivity.
  - vm_compute. reflexivity.
  - repeat constructor.
  - repeat constructor; vm_compute; discriminate.
  - exact example_static.
  - repeat constructor.
Defined.

(** The level and the pressure are adjacent holding registers. *)
Definition example_writes : list ProtocolPointWrite :=
  [{| ppw_mapping := example_mapping "level" "holding_register" "40002" (Some U16) Ty_Integer;
      ppw_value := VInteger 78 |};
   {| ppw_mapping := example_mapping "pressure" "holding_register" "40003" (Some I32) Ty_Integer;
      ppw_value := VInteger (-2) |}].

Lemma batched_write_equals_single_writes_witness :
  exists s1 s2 results,
    @write_points Connection (simulator_connection no_sin some_time) example_endpoint 1 example_writes
      example_state = (s1, Ok results) /\
    @write_each Connection (simulator_connection no_sin some_time) example_endpoint 1 example_writes
      example_state = (s2, Ok results) /\
    server (stream s1) = server (stream s2) /\ requests_total (stream s1) = 1 /\
    results = (fun w => write_result (ppw_mapping w) (ppw_value w)) <$> example_writes.
Proof.
  apply (batched_write_equals_single_writes no_sin some_time example_endpoint 1 example_writes
    {| ma_unit_id := 1; ma_function := 3; ma_offset := 1 |}
    {| wc_function := WRITE_MULTIPLE_REGISTERS; wc_values := [78; 65535; 65534] |} example_state).
  - unfold u_ok. lia.
  - reflexivity.
  - vm_compute. reflexivity.
  - vm_compute. reflexivity.
  - reflexivity.
Defined.
