(* ===== verification/Iec101.v ===== *)
(** The IEC 60870-5-101 adapter, [crates/edge-runtime/src/iec101.rs]: FT 1.2
    frames, the link layer with its frame count bit, the ASDU of a point read and
    of a control command, the information elements with their time tags, over any
    [SerialBus].

    [variable_frame_iff] says which responses carry which body, [iec101_reads_station]
    that the adapter reads what a station holds, [operate_needs_select] that an
    execute command is never sent before its select was confirmed, [cp24_nearest]
    that a time tag without a date is resolved to the nearest hour.  The calendar
    ([with_ymd_and_hms] of a fixed offset) and the clock are parameters. *)

From Stdlib Require Import ZArith Lia.
From S2P Require Import Prelude RustStr Floats FloatFmt Model ConfigTypes ConfigParse SerialBus CommandPlan.

Open Scope string_scope.
Open Scope Z_scope.

Definition VARIABLE_FRAME_START : Z := 0x68.
Definition FIXED_FRAME_START : Z := 0x10.
Definition FRAME_END : Z := 0x16.
Definition SINGLE_CHAR_ACK : Z := 0xE5.
Definition PRIMARY_RESET_REMOTE_LINK : Z := 0x40.
Definition PRIMARY_SEND_CONFIRMED_USER_DATA : Z := 0x53.
Definition PRIMARY_REQUEST_CLASS_1_DATA : Z := 0x5A.
Definition PRIMARY_REQUEST_CLASS_2_DATA : Z := 0x5B.
Definition C_RD_NA_1 : Z := 102.
Definition C_SC_NA_1 : Z := 45.
Definition C_DC_NA_1 : Z := 46.
Definition C_SE_NC_1 : Z := 50.
Definition COT_REQUEST : Z := 5.
Definition COT_ACTIVATION : Z := 6.
Definition COT_ACTIVATION_CONFIRMATION : Z := 7.

(** ** Frames *)

(** [frame[payload_start..]] panics where the range does not fit. *)
Definition append_iec101_checksum (frame : bytes) (payload_start : nat) : Result bytes :=
  if bool_decide (payload_start <= length frame)%nat
  then Ok (frame ++ [sum8 (drop payload_start frame)])%list
  else Panic "range start index out of range".

Definition build_variable_frame (body : bytes) : Result bytes :=
  let len := Z.of_nat (length body) in
  length ← expect (if len <=? u_max 8 then Some len else None) "IEC 101 FT1.2 body must fit one-byte length";
  frame ← append_iec101_checksum ([VARIABLE_FRAME_START; length; length; VARIABLE_FRAME_START] ++ body) 4;
  Ok (frame ++ [FRAME_END])%list.

Definition build_fixed_frame (control link_address : Z) : Result bytes :=
  frame ← append_iec101_checksum [FIXED_FRAME_START; control; link_address] 1;
  Ok (frame ++ [FRAME_END])%list.

Definition contains_variable_frame (response : bytes) : bool :=
  existsb (fun byte => byte =? VARIABLE_FRAME_START) response.

Definition validate_link_ack (response : bytes) (expected_link_address : Z) : Result () :=
  if bool_decide (response = [SINGLE_CHAR_ACK]) then Ok ()
  else
    start ← ok_or (position (fun byte => byte =? FIXED_FRAME_START) response)
      "IEC 101 response is not a link acknowledgement";
    frame ← ok_or (slice response start (start + 5)) "IEC 101 fixed frame is truncated";
    ensure (byte_at frame 4 =? FRAME_END) "IEC 101 fixed frame has an invalid end byte";;
    ensure (byte_at frame 2 =? expected_link_address) "IEC 101 fixed frame link address does not match request";;
    ensure (byte_at frame 3 =? wrapping_add8 (byte_at frame 1) (byte_at frame 2))
      "IEC 101 fixed frame checksum mismatch".

Definition parse_variable_frame (response : bytes) : Result bytes :=
  start ← ok_or (position (fun byte => byte =? VARIABLE_FRAME_START) response)
    "IEC 101 response has no variable frame";
  header ← ok_or (slice response start (start + 4)) "IEC 101 variable frame header is truncated";
  ensure ((byte_at header 1 =? byte_at header 2) && (byte_at header 3 =? VARIABLE_FRAME_START))
    "IEC 101 variable frame length header is invalid";;
  let body_len := Z.to_nat (byte_at header 1) in
  let frame_len := (body_len + 6)%nat in
  frame ← ok_or (slice response start (start + frame_len)) "IEC 101 variable frame is truncated";
  ensure (byte_at frame (frame_len - 1) =? FRAME_END) "IEC 101 variable frame has an invalid end byte";;
  let body := take body_len (drop 4 frame) in
  ensure (sum8 body =? byte_at frame (frame_len - 2)) "IEC 101 variable frame checksum mismatch";;
  Ok body.

(** ** Addresses and commands *)

Record Iec101PointAddress := {
  link_address : Z;
  common_address : Z;
  information_object_address : Z;
}.

Definition parse_point_address (kind value : string) : Result Iec101PointAddress :=
  ensure (bool_decide (kind = "iec101_ioa")) "IEC 101 adapter supports iec101_ioa addresses";;
  '(link, common, ioa) ← parse_iec101_point_address value;
  Ok {| link_address := link; common_address := common; information_object_address := ioa |}.

Inductive Iec101CommandValue :=
| CommandSingle (value : bool)
| CommandDouble (value : Z)
| CommandSetpoint (value : f32).

(** [f32::MIN as f64 <= x && x <= f32::MAX as f64]. *)
Definition f32_max : f64 := f64_of_Z ((2 ^ 24 - 1) * 2 ^ 104).

Definition in_f32_range (x : f64) : bool :=
  is_finite x && f64_ge x (f64_neg f32_max) && f64_le x f32_max.

(** [Iec101CommandValue::try_from]; the adapter of IEC 104 has the same one under
    its own label. *)
Definition command_value (debug_str : string -> string) (label : string) (control_type : Iec104ControlType)
    (value : TelemetryValue) : Result Iec101CommandValue :=
  match control_type, value with
  | SingleCommand, VBoolean value => Ok (CommandSingle value)
  | DoubleCommand, VInteger value =>
      if (value =? 1) || (value =? 2) then Ok (CommandDouble value)
      else bail (label ++ " double command value must be 1 (OFF) or 2 (ON), got " ++ show_Z value)
  | SetpointFloat, VFloat value =>
      if in_f32_range value then Ok (CommandSetpoint (f32_of_f64 value))
      else bail (label ++ " float setpoint must be a finite f32 value, got " ++ show_f64 value)
  | control_type, value =>
      bail (label ++ " control type " ++ show_control control_type ++ " cannot encode telemetry value " ++
            debug_value debug_str value)
  end.

Definition control_type_id (control_type : Iec104ControlType) : Z :=
  match control_type with SingleCommand => C_SC_NA_1 | DoubleCommand => C_DC_NA_1 | SetpointFloat => C_SE_NC_1 end.

(** The low three bytes of an information object address. *)
Definition object_address_bytes (ioa : Z) : bytes :=
  [wrap 8 ioa; wrap 8 (Z.shiftr ioa 8); wrap 8 (Z.shiftr ioa 16)].

(** The addressed ASDU with its link header. *)
Definition build_asdu (control : Z) (address : Iec101PointAddress) (type_id cause : Z) (information : bytes) : bytes :=
  ([control; link_address address; type_id; 1; cause; 0] ++ to_le_bytes 2 (common_address address) ++
   object_address_bytes (information_object_address address) ++ information)%list.

Definition command_information (control_type : Iec104ControlType) (command : Iec101CommandValue) (select : bool)
    : Result bytes :=
  let select_bit := if select then 0x80 else 0 in
  match control_type, command with
  | SingleCommand, CommandSingle value => Ok [Z.lor (if value then 1 else 0) select_bit]
  | DoubleCommand, CommandDouble value => Ok [Z.lor value select_bit]
  | SetpointFloat, CommandSetpoint value => Ok (to_le_bytes 4 (f32_to_bits value) ++ [select_bit])%list
  | _, _ => bail "IEC 101 command value does not match its configured control type"
  end.

Definition build_control_command (control : Z) (address : Iec101PointAddress) (control_type : Iec104ControlType)
    (command : Iec101CommandValue) (select : bool) : Result bytes :=
  information ← command_information control_type command select;
  build_variable_frame (build_asdu control address (control_type_id control_type) COT_ACTIVATION information).

Definition build_read_command (control : Z) (address : Iec101PointAddress) : Result bytes :=
  build_variable_frame (build_asdu control address C_RD_NA_1 COT_REQUEST []).

(** [asdu[6] as u32 | ((asdu[7] as u32) << 8) | ((asdu[8] as u32) << 16)]. *)
Definition asdu_object_address (asdu : bytes) : Z :=
  Z.lor (Z.lor (byte_at asdu 6) (Z.shiftl (byte_at asdu 7) 8)) (Z.shiftl (byte_at asdu 8) 16).

Definition asdu_common_address (asdu : bytes) : Z := from_le_bytes [byte_at asdu 4; byte_at asdu 5].

(** [qualifier & 0x7F != 1 || qualifier & 0x80 != 0]. *)
Definition not_one_object (qualifier : Z) : bool :=
  negb (Z.land qualifier 0x7F =? 1) || negb (Z.land qualifier 0x80 =? 0).

Definition parse_command_confirmation (response : bytes) (expected : Iec101PointAddress)
    (control_type : Iec104ControlType) (phase : string) : Result () :=
  let label := "IEC 101 " ++ phase in
  body ← parse_variable_frame response;
  ensure (bool_decide (11 <= length body)%nat) (label ++ " confirmation ASDU is too short");;
  ensure (byte_at body 1 =? link_address expected) (label ++ " confirmation link address does not match request");;
  let asdu := drop 2 body in
  ensure (byte_at asdu 0 =? control_type_id control_type) (label ++ " confirmation type does not match request");;
  ensure (negb (not_one_object (byte_at asdu 1)))
    (label ++ " confirmation must contain one explicit information object");;
  ensure (Z.land (byte_at asdu 2) 0x3F =? COT_ACTIVATION_CONFIRMATION)
    (label ++ " confirmation cause is not activation confirmation");;
  ensure (Z.land (byte_at asdu 2) 0x40 =? 0) (label ++ " command was rejected by the station");;
  ensure (asdu_common_address asdu =? common_address expected)
    (label ++ " confirmation common address does not match request");;
  ensure (asdu_object_address asdu =? information_object_address expected)
    (label ++ " confirmation information object address does not match request").

(** ** Time tags *)

Definition hour_ns : Z := 3600 * 1000 * ms.

(** [observed.with_minute(m).with_second(s).with_nanosecond(n)]: the minute, the
    second and the fraction of a UTC time. *)
Definition within_hour (observed : DateTime) (minute milliseconds : Z) : DateTime :=
  observed / hour_ns * hour_ns + minute * (60 * 1000 * ms) + milliseconds * ms.

(** [candidates.into_iter().min_by_key(key)]: the first of the least. *)
Fixpoint min_by_key {A} (key : A -> Z) (l : list A) : option A :=
  match l with
  | [] => None
  | x :: l =>
      match min_by_key key l with
      | Some y => Some (if key y <? key x then y else x)
      | None => Some x
      end
  end.

(** [(value - observed).num_milliseconds().abs()]. *)
Definition distance_ms (observed value : DateTime) : Z := Z.abs (Z.quot (value - observed) ms).

Definition parse_cp24_time2a (observed : DateTime) (time : bytes) : Result (option DateTime) :=
  ensure (bool_decide (length time = 3%nat)) "IEC 101 CP24Time2a must contain 3 bytes";;
  if negb (Z.land (byte_at time 2) 0x80 =? 0) then Ok None
  else
    let milliseconds := from_le_bytes (take 2 time) in
    let minute := Z.land (byte_at time 2) 0x3F in
    ensure (negb ((60000 <=? milliseconds) || (60 <=? minute)))
      "IEC 101 CP24Time2a contains an invalid clock value";;
    let candidate := within_hour observed minute milliseconds in
    earlier ← shift_time candidate (- hour_ns);
    later ← shift_time candidate hour_ns;
    Ok (min_by_key (distance_ms observed) [earlier; candidate; later]).

Section decode.
(** [FixedOffset::with_ymd_and_hms(..).single()] of a zone whose offset is given
    in seconds: the UTC instant of a date and a time of that zone. *)
Context (with_ymd_and_hms : Z -> Z -> Z -> Z -> Z -> Z -> Z -> option DateTime).

(** [FixedOffset::east_opt]. *)
Definition east_opt (seconds : Z) : option Z := if Z.abs seconds <? 86400 then Some seconds else None.

Definition parse_cp56_time2a (time : bytes) (timezone_offset_minutes : Z) : Result (option DateTime) :=
  ensure (bool_decide (length time = 7%nat)) "IEC 101 CP56Time2a must contain 7 bytes";;
  if negb (Z.land (byte_at time 2) 0x80 =? 0) then Ok None
  else
    let milliseconds := from_le_bytes (take 2 time) in
    let minute := Z.land (byte_at time 2) 0x3F in
    let hour := Z.land (byte_at time 3) 0x1F in
    let day := Z.land (byte_at time 4) 0x1F in
    let month := Z.land (byte_at time 5) 0x0F in
    let year := 2000 + Z.land (byte_at time 6) 0x7F in
    ensure (negb ((60000 <=? milliseconds) || (60 <=? minute) || (24 <=? hour)))
      "IEC 101 CP56Time2a contains an invalid clock value";;
    station_offset ← ok_or (east_opt (timezone_offset_minutes * 60)) "IEC 101 CP56Time2a timezone offset is invalid";
    local ← ok_or (with_ymd_and_hms station_offset year month day hour minute (milliseconds / 1000))
      "IEC 101 CP56Time2a contains an invalid date";
    timestamp ← shift_time local (milliseconds mod 1000 * ms);
    Ok (Some timestamp).

(** ** Information elements *)

Definition element_quality (descriptor : Z) : DataQuality :=
  if negb (Z.land descriptor 0x80 =? 0) then Q_Bad
  else if negb (Z.land descriptor 0x70 =? 0) then Q_Uncertain
  else Q_Good.

Definition coerce_value (value : TelemetryValue) (expected_type : TelemetryType) : Result TelemetryValue :=
  match value, expected_type with
  | VFloat _, Ty_Float | VInteger _, Ty_Integer | VBoolean _, Ty_Boolean | VText _, Ty_Text => Ok value
  | VInteger value, Ty_Float => Ok (VFloat (f64_of_Z value))
  | VBoolean value, Ty_Integer => Ok (VInteger (if value then 1 else 0))
  | VBoolean value, Ty_Float => Ok (VFloat (if value then f64_one else f64_zero))
  | VInteger value, Ty_Boolean => Ok (VBoolean (negb (value =? 0)))
  | VFloat value, Ty_Boolean => Ok (VBoolean (negb (f64_eq value f64_zero)))
  | VFloat value, Ty_Integer => Ok (VInteger (f64_as_i64 value))
  | VFloat value, Ty_Text => Ok (VText (show_f64 value))
  | VInteger value, Ty_Text => Ok (VText (show_Z value))
  | VBoolean value, Ty_Text => Ok (VText (if value then "true" else "false"))
  | VText _, _ => bail "IEC 101 text value cannot be coerced to numeric type"
  end.

Record DecodedIec101Value := {
  decoded_value : TelemetryValue;
  decoded_quality : DataQuality;
  decoded_timestamp : option DateTime;
}.

(** The base type and the size of the time tag of a monitoring type. *)
Definition MONITORING_TYPES : list (Z * (Z * nat)) :=
  [(1, (1, 0%nat)); (3, (3, 0%nat)); (9, (9, 0%nat)); (11, (11, 0%nat)); (13, (13, 0%nat));
   (2, (1, 3%nat)); (4, (3, 3%nat)); (10, (9, 3%nat)); (12, (11, 3%nat)); (14, (13, 3%nat));
   (30, (1, 7%nat)); (31, (3, 7%nat)); (34, (9, 7%nat)); (35, (11, 7%nat)); (36, (13, 7%nat))].

Fixpoint find_type (type_id : Z) (types : list (Z * (Z * nat))) : option (Z * nat) :=
  match types with
  | [] => None
  | (id, entry) :: types => if type_id =? id then Some entry else find_type type_id types
  end.

(** The value, its quality and its size; note the test on [type_id] where the
    arms match on the base type. *)
Definition decode_raw (type_id base_type_id : Z) (element : bytes) : Result (TelemetryValue * DataQuality * nat) :=
  if base_type_id =? 1 then
    siq ← ok_or (head element) "IEC 101 single-point value is missing";
    Ok (VBoolean (negb (Z.land siq 0x01 =? 0)), element_quality siq, 1%nat)
  else if base_type_id =? 3 then
    diq ← ok_or (head element) "IEC 101 double-point value is missing";
    Ok (VInteger (Z.land diq 0x03), element_quality diq, 1%nat)
  else if (base_type_id =? 9) || (base_type_id =? 11) then
    ensure (bool_decide (3 <= length element)%nat) "IEC 101 measured value is truncated";;
    let value := signed 16 (from_le_bytes (take 2 element)) in
    Ok ((if type_id =? 9 then VFloat (f64_div (f64_of_Z value) (f64_of_Z (i_max 16))) else VInteger value),
        element_quality (byte_at element 2), 3%nat)
  else if base_type_id =? 13 then
    ensure (bool_decide (5 <= length element)%nat) "IEC 101 short floating-point value is truncated";;
    Ok (VFloat (f64_of_f32 (f32_from_bits (from_le_bytes (take 4 element)))),
        element_quality (byte_at element 4), 5%nat)
  else Panic "time-tagged types map to a supported base type".

Definition decode_information_element (observed : DateTime) (type_id : Z) (element : bytes)
    (expected_type : TelemetryType) (timezone_offset_minutes : Z) : Result DecodedIec101Value :=
  '(base_type_id, time_size) ← ok_or (find_type type_id MONITORING_TYPES)
    ("unsupported IEC 101 monitoring type id: " ++ show_Z type_id);
  '(raw, quality, value_size) ← decode_raw type_id base_type_id element;
  ensure (bool_decide (value_size + time_size <= length element)%nat)
    "IEC 101 time-tagged information element is truncated";;
  let tag := take time_size (drop value_size element) in
  timestamp ← (if bool_decide (time_size = 0%nat) then Ok None
               else if bool_decide (time_size = 3%nat) then parse_cp24_time2a observed tag
               else if bool_decide (time_size = 7%nat) then parse_cp56_time2a tag timezone_offset_minutes
               else Panic "IEC 101 time tag size is known");
  let quality :=
    if bool_decide (0 < time_size)%nat && bool_decide (timestamp = None) && bool_decide (quality = Q_Good)
    then Q_Uncertain else quality in
  value ← coerce_value raw expected_type;
  Ok {| decoded_value := value; decoded_quality := quality; decoded_timestamp := timestamp |}.

Definition parse_read_response (observed : DateTime) (response : bytes) (expected : Iec101PointAddress)
    (expected_type : TelemetryType) (timezone_offset_minutes : Z) : Result DecodedIec101Value :=
  body ← parse_variable_frame response;
  ensure (bool_decide (11 <= length body)%nat) "IEC 101 response ASDU is too short";;
  ensure (byte_at body 1 =? link_address expected) "IEC 101 response link address does not match request";;
  let asdu := drop 2 body in
  ensure (negb (not_one_object (byte_at asdu 1)))
    "IEC 101 point read response must contain one explicit information object";;
  ensure (Z.land (byte_at asdu 2) 0x3F =? COT_REQUEST) "IEC 101 response cause of transmission is not request";;
  ensure (asdu_common_address asdu =? common_address expected)
    "IEC 101 response common address does not match request";;
  ensure (asdu_object_address asdu =? information_object_address expected)
    "IEC 101 response information object address does not match request";;
  decode_information_element observed (byte_at asdu 0) (drop 9 asdu) expected_type timezone_offset_minutes.
End decode.

(** ** The adapter *)

Record Iec101Adapter (B : Type) := {
  adapter_bus : B;
  initialized_link : option Z;
  frame_count_bit : bool;
}.
Arguments adapter_bus {B} _.
Arguments initialized_link {B} _.
Arguments frame_count_bit {B} _.

Definition new_adapter {B} (bus : B) : Iec101Adapter B :=
  {| adapter_bus := bus; initialized_link := None; frame_count_bit := false |}.

Section adapter.
Context {B : Type} `{SerialBus B} (connection : ProtocolConnection)
        (with_ymd_and_hms : Z -> Z -> Z -> Z -> Z -> Z -> Z -> option DateTime)
        (debug_str : string -> string).

Definition on_bus (request : bytes) : M (Iec101Adapter B) bytes := fun a =>
  let '(bus, response) := transact request (adapter_bus a) in
  ({| adapter_bus := bus; initialized_link := initialized_link a; frame_count_bit := frame_count_bit a |}, response).

(** [self.bus.transact(..).await.with_context(..)]. *)
Definition on_bus_context (request : bytes) (context : string) : M (Iec101Adapter B) bytes := fun a =>
  let '(a, response) := on_bus request a in (a, with_context response context).

Definition set_link (link : option Z) (bit : bool) : M (Iec101Adapter B) () :=
  modify (fun a => {| adapter_bus := adapter_bus a; initialized_link := link; frame_count_bit := bit |}).

Definition toggle_frame_count_bit : M (Iec101Adapter B) () :=
  modify (fun a => {| adapter_bus := adapter_bus a; initialized_link := initialized_link a;
                      frame_count_bit := negb (frame_count_bit a) |}).

Definition primary_control (bit : bool) (function : Z) : Z := if bit then Z.lor function 0x20 else function.

Definition ensure_link_initialized (link : Z) : M (Iec101Adapter B) () :=
  initialized ← gets initialized_link;
  if bool_decide (initialized = Some link) then mret ()
  else
    reset ← lift (build_fixed_frame PRIMARY_RESET_REMOTE_LINK link);
    response ← on_bus reset;
    _ ← lift (with_context (validate_link_ack response link) "IEC 101 remote link reset was not acknowledged");
    set_link (Some link) false.

(** The exchange of a point read: the data comes at once or, after an
    acknowledgement, with the class 2 poll. *)
Definition read_exchange (address : Iec101PointAddress) : M (Iec101Adapter B) bytes :=
  bit ← gets frame_count_bit;
  request ← lift (build_read_command (primary_control bit PRIMARY_SEND_CONFIRMED_USER_DATA) address);
  response ← on_bus request;
  _ ← toggle_frame_count_bit;
  if contains_variable_frame response then mret response
  else
    _ ← lift (validate_link_ack response (link_address address));
    bit ← gets frame_count_bit;
    poll ← lift (build_fixed_frame (primary_control bit PRIMARY_REQUEST_CLASS_2_DATA) (link_address address));
    response ← on_bus poll;
    _ ← lift (ensure (contains_variable_frame response) "IEC 101 class 2 response contains no ASDU data");
    mret response.

Definition read_mapping (observed now : DateTime) (mapping : TelemetryPointMapping)
    : M (Iec101Adapter B) TelemetrySample :=
  address ← lift (with_context
    (parse_point_address (addr_kind (map_address mapping)) (addr_value (map_address mapping)))
    ("invalid point address for " ++ map_point_id mapping));
  _ ← ensure_link_initialized (link_address address);
  response ← read_exchange address;
  let timezone := iec101_cp56_timezone_offset_minutes (default default_iec101_settings (conn_iec101 connection)) in
  decoded ← lift (parse_read_response with_ymd_and_hms observed response address (map_value_type mapping) timezone);
  mret (new_sample (map_device_id mapping) (map_point_id mapping) (decoded_value decoded) (decoded_quality decoded)
          (default now (decoded_timestamp decoded))).

(** The loop over the points; the two clocks are read once per point at most. *)
Fixpoint read_mappings (observed now : nat -> DateTime) (index : nat) (mappings : list TelemetryPointMapping)
    : M (Iec101Adapter B) (list TelemetrySample) :=
  match mappings with
  | [] => mret []
  | mapping :: mappings =>
      sample ← read_mapping (observed index) (now index) mapping;
      samples ← read_mappings observed now (S index) mappings;
      mret (sample :: samples)
  end.

Definition own_mappings (mappings : list TelemetryPointMapping) : list TelemetryPointMapping :=
  filter (fun mapping => map_protocol_connection_id mapping = conn_id connection) mappings.

Definition read_telemetry (observed now : nat -> DateTime) (mappings : list TelemetryPointMapping)
    : M (Iec101Adapter B) (list TelemetrySample) :=
  _ ← lift (ensure (bool_decide (conn_protocol connection = Iec101))
              "IEC 101 adapter requires an Iec101 protocol connection");
  read_mappings observed now 0 (own_mappings mappings).

(** The exchange of a command: the confirmation comes at once or, after an
    acknowledgement, with the class 1 poll. *)
Definition command_exchange (request : bytes) (link : Z) (phase : string) : M (Iec101Adapter B) bytes :=
  response ← on_bus_context request ("IEC 101 " ++ phase ++ " command transport failed");
  _ ← toggle_frame_count_bit;
  if contains_variable_frame response then mret response
  else
    _ ← lift (with_context (validate_link_ack response link) ("IEC 101 " ++ phase ++ " command was not acknowledged"));
    bit ← gets frame_count_bit;
    poll ← lift (build_fixed_frame (primary_control bit PRIMARY_REQUEST_CLASS_1_DATA) link);
    response ← on_bus_context poll ("IEC 101 " ++ phase ++ " confirmation poll failed");
    _ ← lift (ensure (contains_variable_frame response) ("IEC 101 " ++ phase ++ " confirmation contains no ASDU data"));
    mret response.

Definition send_command (address : Iec101PointAddress) (control_type : Iec104ControlType)
    (command : Iec101CommandValue) (select : bool) (phase : string) : M (Iec101Adapter B) () :=
  bit ← gets frame_count_bit;
  request ← lift (build_control_command (primary_control bit PRIMARY_SEND_CONFIRMED_USER_DATA) address control_type
                    command select);
  confirmation ← command_exchange request (link_address address) phase;
  lift (parse_command_confirmation confirmation address control_type phase).

(** The checks of a write before the bus is used. *)
Definition prepare_write (mapping : TelemetryPointMapping) (value : TelemetryValue)
    : Result (Iec101PointAddress * Iec104PointOptions * Iec101CommandValue) :=
  ensure (bool_decide (conn_protocol connection = Iec101))
    "IEC 101 adapter requires an Iec101 protocol connection";;
  ensure (bool_decide (map_protocol_connection_id mapping = conn_id connection))
    ("IEC 101 point " ++ map_point_id mapping ++ " references connection " ++ map_protocol_connection_id mapping ++
     " instead of " ++ conn_id connection);;
  ensure (is_writable (map_access mapping)) ("IEC 101 point " ++ map_point_id mapping ++ " is read-only");;
  validate_iec101_point (map_address mapping) (map_value_type mapping) (map_access mapping) (map_iec101 mapping);;
  address ← with_context
    (parse_point_address (addr_kind (map_address mapping)) (addr_value (map_address mapping)))
    ("invalid IEC 101 address for point " ++ map_point_id mapping);
  options ← ok_or (map_iec101 mapping) "writable IEC 101 point is missing control options";
  command ← command_value debug_str "IEC 101" (control_type options) value;
  Ok (address, options, command).

Definition write_point (mapping : TelemetryPointMapping) (value : TelemetryValue)
    : M (Iec101Adapter B) ProtocolWriteResult :=
  '(address, options, command) ← lift (prepare_write mapping value);
  _ ← ensure_link_initialized (link_address address);
  _ ← (if select_before_operate options
       then send_command address (control_type options) command true "select" else mret ());
  _ ← send_command address (control_type options) command false "execute";
  mret {| res_point_id := map_point_id mapping; res_value := value; res_verified := true;
          res_readback_value := None |}.
End adapter.

(** ** Frames carry their bodies *)

Definition no_start (l : bytes) : Prop := Forall (fun byte => byte <> VARIABLE_FRAME_START) l.

(** The frame of a body. *)
Definition variable_frame (body : bytes) : bytes :=
  let len := Z.of_nat (length body) in
  ([VARIABLE_FRAME_START; len; len; VARIABLE_FRAME_START] ++ body ++ [sum8 body; FRAME_END])%list.

Lemma build_variable_frame_Ok body :
  (length body <= 255)%nat -> build_variable_frame body = Ok (variable_frame body).
Proof.
  intros Hlen. unfold build_variable_frame. rewrite (proj2 (Z.leb_le _ _)) by (unfold u_max; lia).
  cbn [expect mbind Result_bind]. unfold append_iec101_checksum. rewrite bool_decide_true by (simpl; lia).
  cbn [mbind Result_bind]. unfold variable_frame. cbn [app drop]. by rewrite <- app_assoc.
Qed.

Lemma build_variable_frame_inv body frame :
  build_variable_frame body = Ok frame -> (length body <= 255)%nat /\ frame = variable_frame body.
Proof.
  intros Hb. destruct (decide (length body <= 255)%nat) as [Hlen|Hlen].
  - rewrite build_variable_frame_Ok in Hb by done. by injection Hb.
  - unfold build_variable_frame in Hb. rewrite (proj2 (Z.leb_gt _ _)) in Hb by (unfold u_max; lia). done.
Qed.

Lemma length_variable_frame body : length (variable_frame body) = (length body + 6)%nat.
Proof. unfold variable_frame. rewrite !length_app. simpl. lia. Qed.

Lemma no_start_position l1 l2 :
  no_start l1 ->
  position (fun byte => byte =? VARIABLE_FRAME_START) (l1 ++ VARIABLE_FRAME_START :: l2) = Some (length l1).
Proof.
  intros Hl. apply position_app; [|by rewrite Z.eqb_refl].
  revert Hl. apply Forall_impl. intros b Hb. by apply Z.eqb_neq.
Qed.

Lemma parse_variable_frame_app noise body rest :
  no_start noise -> (length body <= 255)%nat ->
  parse_variable_frame (noise ++ variable_frame body ++ rest) = Ok body.
Proof.
  intros Hn Hlen. unfold parse_variable_frame. set (response := (noise ++ variable_frame body ++ rest)%list).
  assert (Hpos : position (fun byte => byte =? VARIABLE_FRAME_START) response = Some (length noise)).
  { by apply no_start_position. }
  rewrite Hpos. cbn [ok_or mbind Result_bind].
  set (len := Z.of_nat (length body)).
  assert (Hh : slice response (length noise) (length noise + 4) =
               Some [VARIABLE_FRAME_START; len; len; VARIABLE_FRAME_START]).
  { unfold response, variable_frame. rewrite <- app_assoc. by apply slice_middle. }
  rewrite Hh. cbn [ok_or mbind Result_bind]. change (byte_at _ 1) with len. change (byte_at _ 2) with len.
  change (byte_at _ 3) with VARIABLE_FRAME_START. rewrite !Z.eqb_refl. cbn [andb ensure mbind Result_bind].
  replace (Z.to_nat len) with (length body) by (unfold len; lia).
  assert (Hf : slice response (length noise) (length noise + (length body + 6)) = Some (variable_frame body)).
  { unfold response. apply slice_middle; [done|]. rewrite length_variable_frame. lia. }
  rewrite Hf. cbn [ok_or mbind Result_bind].
  assert (Hat : forall k x, [sum8 body; FRAME_END] !! k = Some x ->
     byte_at (variable_frame body) (4 + (length body + k)) = x).
  { intros k x Hx. unfold byte_at, variable_frame. rewrite lookup_app_r by (simpl; lia).
    simpl length. replace (4 + (length body + k) - 4)%nat with (length body + k)%nat by lia.
    rewrite lookup_app_r by lia. replace (length body + k - length body)%nat with k by lia. by rewrite Hx. }
  replace (length body + 6 - 1)%nat with (4 + (length body + 1))%nat by lia.
  replace (length body + 6 - 2)%nat with (4 + (length body + 0))%nat by lia.
  rewrite (Hat 1%nat FRAME_END), (Hat 0%nat (sum8 body)) by done. rewrite Z.eqb_refl. cbn [ensure mbind Result_bind].
  assert (Hb : take (length body) (drop 4 (variable_frame body)) = body).
  { change (drop 4 (variable_frame body)) with (body ++ [sum8 body; FRAME_END])%list. by rewrite take_app_length. }
  rewrite Hb, Z.eqb_refl. done.
Qed.

Lemma split_frame (l : bytes) n :
  (n + 6 <= length l)%nat ->
  exists h body c e rest, l = (h ++ body ++ [c; e] ++ rest)%list /\ length h = 4%nat /\ length body = n.
Proof.
  intros Hl. exists (take 4 l), (take n (drop 4 l)).
  destruct (drop n (drop 4 l)) as [|c [|e rest]] eqn:Hd.
  - apply (f_equal length) in Hd. rewrite !length_drop in Hd. simpl in Hd. lia.
  - apply (f_equal length) in Hd. rewrite !length_drop in Hd. simpl in Hd. lia.
  - exists c, e, rest. split; [|rewrite !length_take, ?length_drop; lia].
    change ([c; e] ++ rest)%list with (c :: e :: rest). by rewrite <- Hd, take_drop, take_drop.
Qed.

Lemma parse_variable_frame_inv response body :
  bytes_ok response -> parse_variable_frame response = Ok body ->
  exists noise rest, response = (noise ++ variable_frame body ++ rest)%list /\ no_start noise /\
    (length body <= 255)%nat.
Proof.
  intros Hok Hp. unfold parse_variable_frame in Hp. inv_result.
  destruct (position_split _ _ _ Ha) as (noise & x & l & -> & <- & Hx%Z.eqb_eq & Hn).
  apply andb_true_iff in Ha1 as [H12%Z.eqb_eq H3%Z.eqb_eq]. apply Z.eqb_eq in Ha3, Ha4.
  rewrite slice_Some in Ha0, Ha2. destruct Ha0 as (_ & _ & ->), Ha2 as (_ & Hlen & ->).
  rewrite drop_app_length in *. rewrite !Nat.add_sub' in *.
  remember (Z.to_nat (byte_at (take 4 (x :: l)) 1)) as n eqn:En.
  rewrite length_app in Hlen.
  destruct (split_frame (x :: l) n ltac:(lia)) as (h & b & c & e & rest & Hl & Hh & Hb).
  rewrite Hl in *. destruct h as [|h0 [|h1 [|h2 [|h3 [|]]]]]; try discriminate Hh. clear Hh.
  injection Hl as Hx0 Hl. subst h0.
  change (n = Z.to_nat h1) in En. change (h1 = h2) in H12. change (h3 = VARIABLE_FRAME_START) in H3.
  assert (Htake : take (n + 6) ([x; h1; h2; h3] ++ b ++ [c; e] ++ rest) = ([x; h1; h2; h3] ++ b ++ [c; e])%list).
  { rewrite !app_assoc, <- (app_assoc [x; h1; h2; h3] b). rewrite take_app_le by (rewrite !length_app; simpl; lia).
    apply take_ge. rewrite !length_app. simpl. lia. }
  rewrite Htake in *.
  assert (Hbody : take n (drop 4 ([x; h1; h2; h3] ++ b ++ [c; e])) = b).
  { change (drop 4 _) with (b ++ [c; e])%list. by rewrite <- Hb, take_app_length. }
  rewrite Hbody in *.
  assert (Hat : forall k, (k < 2)%nat -> byte_at ([x; h1; h2; h3] ++ b ++ [c; e]) (n + 4 + k) = default 0 ([c; e] !! k)).
  { intros k Hk. unfold byte_at. rewrite !lookup_app_r by (simpl; lia). simpl length. f_equal. f_equal. lia. }
  replace (n + 6 - 1)%nat with (n + 4 + 1)%nat in Ha3 by lia.
  replace (n + 6 - 2)%nat with (n + 4 + 0)%nat in Ha4 by lia.
  rewrite Hat in Ha3, Ha4 by lia. simpl in Ha3, Ha4. subst.
  assert (Hh1 : byte_ok h2) by (apply Forall_app in Hok as [_ Hok]; by inversion_clear Hok as [|? ? ? Hok'];
    inversion_clear Hok').
  unfold byte_ok in Hh1.
  exists noise, rest. split_and!.
  - unfold variable_frame. rewrite Hb, Z2Nat.id by lia. cbn [app]. by rewrite <- app_assoc.
  - revert Hn. apply Forall_impl. intros y Hy. by apply Z.eqb_neq.
  - lia.
Qed.

(** An FT 1.2 response carries a body exactly when it contains the frame the
    adapter would build for that body, preceded by bytes none of which is the
    start character: the length octets, the check sum and the end character all
    decide. *)
Theorem variable_frame_iff response body :
  bytes_ok response ->
  parse_variable_frame response = Ok body <->
  exists noise frame rest, build_variable_frame body = Ok frame /\
    response = (noise ++ frame ++ rest)%list /\ Forall (fun byte => byte <> VARIABLE_FRAME_START) noise.
Proof.
  intros Hok. split.
  - intros (noise & rest & -> & Hn & Hlen)%parse_variable_frame_inv; [|done].
    exists noise, (variable_frame body), rest. by rewrite build_variable_frame_Ok.
  - intros (noise & frame & rest & [Hlen ->]%build_variable_frame_inv & -> & Hn).
    by apply parse_variable_frame_app.
Qed.

Lemma variable_frame_iff_witness :
  bytes_ok [0xE5; 0x68; 1; 1; 0x68; 8; 8; 0x16] /\
  parse_variable_frame [0xE5; 0x68; 1; 1; 0x68; 8; 8; 0x16] = Ok [8].
Proof.
  assert (Hok : bytes_ok [0xE5; 0x68; 1; 1; 0x68; 8; 8; 0x16]) by (repeat constructor; discriminate).
  split; [exact Hok|]. apply (variable_frame_iff _ _ Hok).
  exists [0xE5], [0x68; 1; 1; 0x68; 8; 8; 0x16], []. split_and!; [reflexivity..|].
  constructor; [discriminate | constructor].
Defined.

(** ** The ASDU of an address *)

Definition address_ok (a : Iec101PointAddress) : Prop :=
  u_ok 8 (link_address a) /\ u_ok 16 (common_address a) /\ 0 <= information_object_address a < 2 ^ 24.

Lemma parse_point_address_ok kind value a : parse_point_address kind value = Ok a -> address_ok a.
Proof.
  unfold parse_point_address. intros Hp. inv_result. destruct a1 as [[link common] ioa]. inv_result.
  unfold parse_iec101_point_address in Ha0. destruct (split_on _ _) as [|p0 [|p1 [|p2 [|]]]]; try discriminate Ha0.
  inv_result. apply parse_dec_range in Ha1, Ha3, Ha5. apply Z.leb_le in Ha6.
  unfold address_ok, u_ok, u_max in *. simpl. lia.
Qed.

Lemma lor_bytes a b c :
  byte_ok a -> byte_ok b -> byte_ok c ->
  Z.lor (Z.lor a (Z.shiftl b 8)) (Z.shiftl c 16) = from_le_bytes [a; b; c].
Proof.
  unfold byte_ok. intros. rewrite !Z.shiftl_mul_pow2 by lia.
  rewrite (Z.lor_comm a), (lor_shifted b 8 a) by lia.
  rewrite Z.lor_comm, (lor_shifted c 16) by lia. simpl. lia.
Qed.

Lemma object_address_le ioa : object_address_bytes ioa = to_le_bytes 3 ioa.
Proof.
  unfold object_address_bytes, wrap. rewrite !Z.shiftr_div_pow2 by lia. simpl.
  by rewrite Z.div_div by lia.
Qed.

Lemma asdu_shape control address type_id cause information :
  exists c0 c1 i0 i1 i2, to_le_bytes 2 (common_address address) = [c0; c1] /\
    to_le_bytes 3 (information_object_address address) = [i0; i1; i2] /\
    build_asdu control address type_id cause information =
      (control :: link_address address :: type_id :: 1 :: cause :: 0 :: c0 :: c1 :: i0 :: i1 :: i2 :: information).
Proof. unfold build_asdu. rewrite object_address_le. simpl. by do 5 eexists. Qed.

(** What the parsers see of it. *)
Lemma parse_asdu control address type_id cause information :
  address_ok address ->
  let body := build_asdu control address type_id cause information in
  let asdu := drop 2 body in
  (11 <= length body)%nat /\ byte_at body 1 = link_address address /\ byte_at asdu 0 = type_id /\
  not_one_object (byte_at asdu 1) = false /\ byte_at asdu 2 = cause /\
  asdu_common_address asdu = common_address address /\
  asdu_object_address asdu = information_object_address address /\ drop 9 asdu = information.
Proof.
  intros (Hl & Hc & Hi). unfold u_ok in *.
  destruct (asdu_shape control address type_id cause information) as (c0 & c1 & i0 & i1 & i2 & Ec & Ei & ->).
  pose proof (to_le_bytes_ok 3 (information_object_address address)) as Hok. rewrite Ei in Hok.
  apply Forall_cons_iff in Hok as [H0 Hok]. apply Forall_cons_iff in Hok as [H1 Hok].
  apply Forall_cons_iff in Hok as [H2 _].
  cbv zeta. split_and!; try done; [simpl; lia | |].
  - unfold asdu_common_address. change [_; _] with [c0; c1]. rewrite <- Ec.
    apply from_le_to_le. unfold u_ok. simpl. lia.
  - unfold asdu_object_address. change (byte_at _ 6) with i0. change (byte_at _ 7) with i1.
    change (byte_at _ 8) with i2. rewrite lor_bytes, <- Ei by done.
    apply from_le_to_le. unfold u_ok. simpl. lia.
Qed.

Lemma parse_read_response_asdu with_ymd_and_hms observed control address type_id element noise rest expected_type tz :
  address_ok address -> no_start noise -> (length element <= 244)%nat ->
  parse_read_response with_ymd_and_hms observed
    (noise ++ variable_frame (build_asdu control address type_id COT_REQUEST element) ++ rest) address expected_type tz =
  decode_information_element with_ymd_and_hms observed type_id element expected_type tz.
Proof.
  intros Hok Hn Hlen. unfold parse_read_response.
  rewrite parse_variable_frame_app by (done || (unfold build_asdu; rewrite !length_app, length_to_le_bytes; simpl; lia)).
  destruct (parse_asdu control address type_id COT_REQUEST element Hok) as (H11 & Hl & Ht & Hq & Hcot & Hc & Hi & He).
  cbn [mbind Result_bind]. rewrite bool_decide_true by done. cbn [ensure mbind Result_bind].
  cbv zeta. by rewrite Hl, Hq, Hcot, Hc, Hi, Ht, He, !Z.eqb_refl.
Qed.

Lemma contains_variable_frame_app noise body rest : contains_variable_frame (noise ++ variable_frame body ++ rest) = true.
Proof.
  unfold contains_variable_frame. apply existsb_exists. exists VARIABLE_FRAME_START. split; [|apply Z.eqb_refl].
  apply in_or_app. right. by left.
Qed.

Lemma build_fixed_frame_Ok control link :
  build_fixed_frame control link =
  Ok [FIXED_FRAME_START; control; link; sum8 [control; link]; FRAME_END].
Proof. done. Qed.

Lemma build_read_command_Ok control address :
  build_read_command control address = Ok (variable_frame (build_asdu control address C_RD_NA_1 COT_REQUEST [])).
Proof. apply build_variable_frame_Ok. unfold build_asdu. rewrite !length_app, length_to_le_bytes. simpl. lia. Qed.

(** ** A station

    What the adapter relies on of the stations of the bus: a reset of the link is
    acknowledged, and a read is answered with the element of the object, at once
    or to the class 2 poll that follows the acknowledgement, in any frame of the
    protocol. *)

Section station.
Context {B : Type} `{SerialBus B} (object : Iec101PointAddress -> option (Z * bytes)) (I : B -> Prop)
        (awaits : Iec101PointAddress -> B -> Prop).

Definition data_response (address : Iec101PointAddress) (response : bytes) : Prop :=
  exists noise control type_id element rest, object address = Some (type_id, element) /\
    (length element <= 244)%nat /\ no_start noise /\
    response = (noise ++ variable_frame (build_asdu control address type_id COT_REQUEST element) ++ rest)%list.

Lemma data_response_contains address response :
  data_response address response -> contains_variable_frame response = true.
Proof. intros (noise & control & type_id & element & rest & _ & _ & _ & ->). apply contains_variable_frame_app. Qed.

Record station_answers : Prop := {
  station_resets link b : I b -> exists b' response,
    transact [FIXED_FRAME_START; PRIMARY_RESET_REMOTE_LINK; link;
              sum8 [PRIMARY_RESET_REMOTE_LINK; link]; FRAME_END] b = (b', Ok response) /\
    validate_link_ack response link = Ok () /\ I b';
  station_reads address bit b : I b -> is_Some (object address) -> exists b' response,
    transact (variable_frame (build_asdu (primary_control bit PRIMARY_SEND_CONFIRMED_USER_DATA) address
                C_RD_NA_1 COT_REQUEST [])) b = (b', Ok response) /\
    (data_response address response /\ I b' \/
     contains_variable_frame response = false /\
     validate_link_ack response (link_address address) = Ok () /\ awaits address b');
  station_polls address bit b : awaits address b -> exists b' response,
    let control := primary_control bit PRIMARY_REQUEST_CLASS_2_DATA in
    transact [FIXED_FRAME_START; control; link_address address; sum8 [control; link_address address]; FRAME_END] b =
      (b', Ok response) /\
    data_response address response /\ I b';
}.

Hypothesis Hstation : station_answers.

Lemma link_initialized (a : Iec101Adapter B) link :
  I (adapter_bus a) -> exists a', ensure_link_initialized link a = (a', Ok ()) /\ I (adapter_bus a').
Proof.
  intros Ha. unfold ensure_link_initialized, gets. rewrite M_bind_eq. cbn beta iota.
  case_bool_decide; [by exists a|].
  rewrite build_fixed_frame_Ok, lift_bind, M_bind_eq. unfold on_bus.
  destruct (station_resets Hstation link (adapter_bus a) Ha) as (b & response & -> & Hack & Hb).
  rewrite lift_bind. rewrite Hack. cbn [with_context]. unfold set_link, modify. by eexists.
Qed.

Lemma read_exchange_data (a : Iec101Adapter B) address :
  I (adapter_bus a) -> is_Some (object address) ->
  exists a' response, read_exchange address a = (a', Ok response) /\ data_response address response /\
    I (adapter_bus a').
Proof.
  intros Ha Hobj. unfold read_exchange, gets. rewrite M_bind_eq. cbn beta iota.
  rewrite build_read_command_Ok, lift_bind, M_bind_eq. unfold on_bus at 1.
  destruct (station_reads Hstation address (frame_count_bit a) (adapter_bus a) Ha Hobj)
    as (b & response & -> & [[Hd Hb]|(Hno & Hack & Hw)]); unfold toggle_frame_count_bit, modify;
    rewrite M_bind_eq; cbn beta iota.
  - rewrite (data_response_contains _ _ Hd). do 2 eexists. split; [done|]. by split.
  - rewrite Hno, lift_bind, Hack, M_bind_eq. cbn beta iota. rewrite build_fixed_frame_Ok, lift_bind, M_bind_eq.
    unfold on_bus. cbn [adapter_bus frame_count_bit].
    destruct (station_polls Hstation address (negb (frame_count_bit a)) b Hw) as (b' & response' & -> & Hd & Hb').
    rewrite lift_bind, (data_response_contains _ _ Hd). cbn [ensure].
    do 2 eexists. split; [done|]. by split.
Qed.

(** What the reads of a list of mappings have to be. *)
Inductive reads_as (connection : ProtocolConnection)
    (with_ymd_and_hms : Z -> Z -> Z -> Z -> Z -> Z -> Z -> option DateTime)
    (observed now : nat -> DateTime) : nat -> list TelemetryPointMapping -> list TelemetrySample -> Prop :=
| reads_nil index : reads_as connection with_ymd_and_hms observed now index [] []
| reads_cons index mapping mappings samples address type_id element decoded :
    parse_point_address (addr_kind (map_address mapping)) (addr_value (map_address mapping)) = Ok address ->
    object address = Some (type_id, element) ->
    decode_information_element with_ymd_and_hms (observed index) type_id element (map_value_type mapping)
      (iec101_cp56_timezone_offset_minutes (default default_iec101_settings (conn_iec101 connection))) = Ok decoded ->
    reads_as connection with_ymd_and_hms observed now (S index) mappings samples ->
    reads_as connection with_ymd_and_hms observed now index (mapping :: mappings)
      (new_sample (map_device_id mapping) (map_point_id mapping) (decoded_value decoded) (decoded_quality decoded)
         (default (now index) (decoded_timestamp decoded)) :: samples).

Lemma read_mappings_station connection with_ymd_and_hms observed now index mappings samples (a : Iec101Adapter B) :
  reads_as connection with_ymd_and_hms observed now index mappings samples -> I (adapter_bus a) ->
  exists a', read_mappings connection with_ymd_and_hms observed now index mappings a = (a', Ok samples) /\
    I (adapter_bus a').
Proof.
  intros Hr. revert a. induction Hr as [index|index m ms samples address type_id element decoded Hp Ho Hd Hr IH];
    intros a Ha; [by exists a|].
  cbn [read_mappings]. rewrite M_bind_eq. unfold read_mapping. rewrite lift_bind, Hp. cbn [with_context].
  rewrite M_bind_eq. destruct (link_initialized a (link_address address) Ha) as (a1 & -> & Ha1).
  rewrite M_bind_eq.
  destruct (read_exchange_data a1 address Ha1 ltac:(by eexists)) as (a2 & response & -> & Hdata & Ha2).
  destruct Hdata as (noise & control & type_id' & element' & rest & Ho' & Hlen & Hn & ->).
  rewrite Ho in Ho'. injection Ho' as <- <-. rewrite lift_bind.
  rewrite (parse_read_response_asdu _ _ _ _ _ _ _ _ _ _ (parse_point_address_ok _ _ _ Hp) Hn Hlen), Hd.
  destruct (IH a2 Ha2) as (a3 & Hr3 & Ha3). exists a3. split; [|done]. cbn [mret M_ret].
  rewrite M_bind_eq, Hr3. done.
Qed.
End station.

(** An IEC 101 read returns what the stations hold: when the stations of the
    bus answer as the protocol says, at once or to the poll, whatever noise comes
    before a frame, the read of a connection yields for each of its points, in
    the order of the configuration, the value, the quality and the time tag of
    the information element of that point's own object. *)
Theorem iec101_reads_station {B} `{SerialBus B} object I awaits connection with_ymd_and_hms observed now mappings
    samples (a : Iec101Adapter B) :
  station_answers object I awaits -> conn_protocol connection = Iec101 -> I (adapter_bus a) ->
  reads_as object connection with_ymd_and_hms observed now 0 (own_mappings connection mappings) samples ->
  exists a', read_telemetry connection with_ymd_and_hms observed now mappings a = (a', Ok samples) /\
    I (adapter_bus a').
Proof.
  intros Hs Hp Ha Hr. unfold read_telemetry. rewrite lift_bind, bool_decide_true by done. cbn [ensure].
  by apply (read_mappings_station object I awaits Hs).
Qed.

(** ** Select before operate *)

(** A bus that keeps the exchanges made on another one. *)
Definition Recorded (B : Type) : Type := B * list (bytes * Result bytes).

#[export] Instance recorded_transact {B} `{SerialBus B} : SerialBus (Recorded B) := fun request '(bus, log) =>
  let '(bus, response) := transact request bus in ((bus, log ++ [(request, response)]), response)%list.

Section recorded.
Context {B : Type} `{SerialBus B}.
Implicit Types a : Iec101Adapter (Recorded B).

Definition log_of a : list (bytes * Result bytes) := snd (adapter_bus a).

Abbreviation emits_log := (emits log_of).

Lemma emits_on_bus request : emits_log (on_bus request) (fun n r => n = [(request, r)]).
Proof.
  intros [[bus log] link bit] a' r Hr. unfold on_bus in Hr. cbn [adapter_bus] in Hr.
  unfold transact at 1 in Hr. unfold recorded_transact in Hr. destruct (transact request bus) as [bus' response].
  simplify_eq/=. eexists. split; [reflexivity | done].
Qed.

Lemma emits_on_bus_context request context :
  emits_log (on_bus_context request context) (fun n r => exists r0, n = [(request, r0)] /\ r = with_context r0 context).
Proof.
  intros a a' r Hr. unfold on_bus_context in Hr. destruct (on_bus request a) as [a1 r0] eqn:E.
  injection Hr as <- <-. destruct (emits_on_bus _ _ _ _ E) as (n & Hn & ->). eauto.
Qed.

Lemma emits_set_link link bit : emits_log (set_link link bit) (fun n r => n = [] /\ r = Ok ()).
Proof. intros a a' r [= <- <-]. exists []. by rewrite app_nil_r. Qed.

Lemma emits_toggle : emits_log toggle_frame_count_bit (fun n r => n = [] /\ r = Ok ()).
Proof. intros a a' r [= <- <-]. exists []. by rewrite app_nil_r. Qed.

(** The frames the link layer makes: a reset or a poll. *)
Definition link_frame (request : bytes) : Prop := head request = Some FIXED_FRAME_START.

Lemma fixed_link_frame control link frame : build_fixed_frame control link = Ok frame -> link_frame frame.
Proof. by intros [= <-]. Qed.

Lemma emits_link link :
  emits_log (ensure_link_initialized link) (fun n r => Forall (fun e => link_frame (fst e)) n).
Proof.
  unfold ensure_link_initialized. apply emits_gets_bind. intros initialized.
  case_bool_decide; [by apply (emits_nothing _ (Ok ())) |].
  apply emits_lift_bind; [|by constructor..]. intros reset Hreset%fixed_link_frame.
  eapply emits_bind; [apply emits_on_bus | | by intros n e ->; repeat constructor..].
  intros response n ->. apply emits_lift_bind; [|by repeat constructor..].
  intros [] _. eapply emits_weaken; [apply emits_set_link|]. intros n r [-> _]. by repeat constructor.
Qed.

(** An exchange of a command: the frame of the command, then perhaps polls. *)
Definition command_log (request : bytes) (n : list (bytes * Result bytes)) : Prop :=
  exists r polls, n = (request, r) :: polls /\ Forall (fun e => link_frame (fst e)) polls.

Lemma command_log_one request r : command_log request [(request, r)].
Proof. by exists r, []. Qed.

Lemma command_log_poll request poll r r' : link_frame poll -> command_log request [(request, r); (poll, r')].
Proof. intros Hp. exists r, [(poll, r')]. split; [done|]. by repeat constructor. Qed.

Lemma emits_command_exchange request link phase :
  emits_log (command_exchange request link phase) (fun n r => command_log request n /\
    forall response, r = Ok response -> exists frame, list.last n = Some (frame, Ok response)).
Proof.
  pose proof command_log_one as H1. unfold command_exchange.
  eapply emits_bind; [apply emits_on_bus_context | | by intros n e (r0 & -> & _)..].
  intros response n (r0 & -> & Hr0). destruct r0 as [r0| |]; try discriminate Hr0. injection Hr0 as <-.
  eapply emits_bind; [apply emits_toggle | | by intros n e [-> ?]..]. intros [] n [-> _].
  destruct (contains_variable_frame response).
  { apply (emits_nothing _ (Ok response)). split; [apply H1|]. intros ? [= <-]. by eexists. }
  apply emits_lift_bind; [|by split; [apply H1|]..]. intros [] _. apply emits_gets_bind. intros bit.
  apply emits_lift_bind; [|by split; [apply H1|]..]. intros poll Hpoll%fixed_link_frame.
  pose proof (command_log_poll request poll) as H2.
  eapply emits_bind; [apply emits_on_bus_context | | by intros n e (r0 & -> & _); split; [apply H2|]..].
  intros response2 n (r0 & -> & Hr0). destruct r0 as [r0| |]; try discriminate Hr0. injection Hr0 as <-.
  apply emits_lift_bind; [|by split; [apply H2|]..]. intros [] _.
  apply (emits_nothing _ (Ok response2)). split; [by apply H2|]. intros ? [= <-]. by eexists.
Qed.

(** *** Commands and confirmations as the companion standard lays them out *)

(** The type identification and the information of a control command: the bit 0x80
    of the last octet tells a select from an execute. *)
Definition command_octets (command : Iec101CommandValue) (select : bool) : Z * bytes :=
  let bit := if select then 128 else 0 in
  match command with
  | CommandSingle value => (45, [(if value then 1 else 0) + bit])
  | CommandDouble value => (46, [value + bit])
  | CommandSetpoint value => (50, to_le_bytes 4 (f32_to_bits value) ++ [bit])%list
  end.

(** The frame of a control command: confirmed user data with either frame count bit,
    one object, cause activation, the addresses, the information. *)
Definition control_frame (address : Iec101PointAddress) (command : Iec101CommandValue) (select : bool) (frame : bytes) : Prop :=
  exists control, (control = 0x53 \/ control = 0x73) /\
    frame = variable_frame ([control; link_address address; fst (command_octets command select); 1; 6; 0] ++
              to_le_bytes 2 (common_address address) ++ object_address_bytes (information_object_address address) ++
              snd (command_octets command select))%list.

(** A positive confirmation of a command for the object: the first variable frame of
    the response has the type of the command, one object, the cause activation
    confirmation without the negative bit, and the addresses of the object. *)
Definition confirms (address : Iec101PointAddress) (command : Iec101CommandValue) (response : bytes) : Prop :=
  exists noise body rest,
    response = (noise ++ variable_frame body ++ rest)%list /\ Forall (fun byte => byte <> 0x68) noise /\
    (11 <= length body)%nat /\ byte_at body 1 = link_address address /\
    byte_at body 2 = fst (command_octets command false) /\ byte_at body 3 = 1 /\
    byte_at body 4 mod 64 = 7 /\ Z.testbit (byte_at body 4) 6 = false /\
    byte_at body 6 + 256 * byte_at body 7 = common_address address /\
    byte_at body 8 + 256 * byte_at body 9 + 65536 * byte_at body 10 = information_object_address address.

Lemma command_frame_spec debug_str label control_type value command bit address sel frame :
  command_value debug_str label control_type value = Ok command ->
  build_control_command (primary_control bit PRIMARY_SEND_CONFIRMED_USER_DATA) address control_type command sel = Ok frame ->
  control_frame address command sel frame.
Proof.
  intros Hc Hb. unfold build_control_command in Hb. inv_result. apply build_variable_frame_inv in Hb as [_ ->].
  exists (primary_control bit PRIMARY_SEND_CONFIRMED_USER_DATA). split; [destruct bit; [by right | by left]|].
  assert (Ht : control_type_id control_type = fst (command_octets command sel) /\ a = snd (command_octets command sel)).
  { unfold command_information in Ha. destruct control_type, command; try discriminate; injection Ha as <-; (split; [done|]); cbn.
    - by destruct value0, sel.
    - cbn [command_value] in Hc. destruct value as [|v| |]; try discriminate Hc.
      destruct ((v =? 1) || (v =? 2)) eqn:E; [|discriminate Hc]. injection Hc as <-.
      apply orb_true_iff in E as [->%Z.eqb_eq | ->%Z.eqb_eq]; by destruct sel.
    - done. }
  destruct Ht as [Ht ->]. unfold build_asdu. by rewrite Ht.
Qed.

(** A select frame is no execute frame. *)
Lemma select_differs address command frame :
  control_frame address command true frame -> control_frame address command false frame -> False.
Proof.
  intros (control & _ & ->) (control' & _ & He). apply (f_equal (drop 15)) in He. unfold variable_frame in He.
  destruct command; simpl in He; repeat (injection He as He || (apply app_inj_2 in He as [He _]; [|done])); try lia.
Qed.

Lemma confirmation_spec debug_str label control_type value command response address phase :
  command_value debug_str label control_type value = Ok command -> bytes_ok response ->
  parse_command_confirmation response address control_type phase = Ok () -> confirms address command response.
Proof.
  intros Hc Hok Hp. unfold parse_command_confirmation in Hp. inv_result. rename a into body.
  apply parse_variable_frame_inv in Ha as (noise & rest & Hresp & Hn & _); [|done].
  simp_bool.
  assert (Hb : bytes_ok body).
  { subst response. unfold variable_frame in Hok. apply Forall_app in Hok as [_ Hok]. apply Forall_app in Hok as [Hok _].
    do 4 (apply Forall_cons_iff in Hok as [_ Hok]). by apply Forall_app in Hok as [Hok _]. }
  assert (Hd : forall i, byte_at (drop 2 body) i = byte_at body (S (S i))) by (intros i; unfold byte_at; by rewrite lookup_drop).
  unfold asdu_common_address, asdu_object_address in *. rewrite !Hd in *.
  pose proof (byte_at_ok body 3 Hb) as H3. pose proof (byte_at_ok body 4 Hb) as H4. pose proof (byte_at_ok body 8 Hb) as H8.
  pose proof (byte_at_ok body 9 Hb) as H9. pose proof (byte_at_ok body 10 Hb) as H10. unfold byte_ok in *.
  exists noise, body, rest. split; [done|]. split; [exact Hn|]. split; [done|]. split; [done|]. split.
  { match goal with Hty : byte_at body 2 = _ |- _ => rewrite Hty end.
    destruct control_type, value; try discriminate Hc; cbn [command_value] in Hc; repeat case_match; by simplify_eq. }
  split; [|split; [|split; [|split]]].
  - match goal with Hq : not_one_object _ = false |- _ => unfold not_one_object in Hq; apply orb_false_iff in Hq as [Hq1 Hq2] end.
    apply negb_false_iff, Z.eqb_eq in Hq1, Hq2. change 127 with (Z.ones 7) in Hq1. rewrite Z.land_ones in Hq1 by lia.
    apply Z.eqb_eq in Hq2. change 128 with (2 ^ 7) in Hq2. rewrite land_pow2_zero in Hq2 by lia. apply negb_true_iff in Hq2.
    assert (byte_at body 3 < 128); [|rewrite Z.mod_small in Hq1 by lia; lia].
    destruct (Z.ltb_spec (byte_at body 3) 128) as [|Hge]; [done|]. exfalso.
    assert (Ht : Z.testbit (byte_at body 3) 7 = true); [|congruence].
    rewrite Z.testbit_true by lia. replace (byte_at body 3 / 2 ^ 7) with 1; [done|].
    apply Z.div_unique with (byte_at body 3 - 128); lia.
  - match goal with Hq : Z.land _ 63 = _ |- _ => change 63 with (Z.ones 6) in Hq; rewrite Z.land_ones in Hq by lia; exact Hq end.
  - match goal with Hq : Z.land _ 64 = 0 |- _ => apply Z.eqb_eq in Hq; change 64 with (2 ^ 6) in Hq;
      rewrite land_pow2_zero in Hq by lia; by apply negb_true_iff in Hq end.
  - match goal with Hq : from_le_bytes _ = _ |- _ => rewrite <- Hq end. cbn [from_le_bytes]. lia.
  - match goal with Hq : Z.lor _ _ = _ |- _ => rewrite <- Hq end. rewrite lor_bytes by done. cbn [from_le_bytes]. lia.
Qed.

Section phases.
Context (address : Iec101PointAddress) (command : Iec101CommandValue).

(** The exchanges of one phase: the frame of its command, then polls. *)
Definition phase_sent (sel : bool) (n : list (bytes * Result bytes)) : Prop :=
  exists frame r polls, n = (frame, r) :: polls /\ control_frame address command sel frame /\
    Forall (fun e => link_frame (fst e)) polls.

(** The last response confirms the command. *)
Definition phase_confirmed (n : list (bytes * Result bytes)) : Prop :=
  exists frame response, list.last n = Some (frame, Ok response) /\ (bytes_ok response -> confirms address command response).

Lemma emits_send_command debug_str label control_type value sel phase :
  command_value debug_str label control_type value = Ok command ->
  emits_log (send_command address control_type command sel phase) (fun n r =>
    (n = [] \/ phase_sent sel n) /\ (r = Ok () -> phase_confirmed n)).
Proof.
  intros Hc. unfold send_command. apply emits_gets_bind. intros bit.
  apply emits_lift_bind; [|by split; [left|]..]. intros request Hrequest.
  assert (Hlog : forall n, command_log request n -> n = [] \/ phase_sent sel n).
  { intros n (r & polls & -> & Hp). right. exists request, r, polls. split; [done|]. split; [|done]. by eapply command_frame_spec. }
  eapply emits_bind; [apply emits_command_exchange | | by intros n e [? _]; split; [auto|]..].
  intros response n [Hn Hl]. destruct (Hl response eq_refl) as [frame Hframe].
  apply emits_nothing. rewrite app_nil_r. split; [auto|]. intros Hconf. exists frame, response. split; [done|].
  intros Hok. by eapply confirmation_spec.
Qed.

(** The frames of the link layer are not those of commands. *)
Lemma link_no_command sel frame : link_frame frame -> ~ control_frame address command sel frame.
Proof. intros Hl (control & _ & ->). discriminate Hl. Qed.

Lemma phase_no_execute n e : n = [] \/ phase_sent true n -> e ∈ n -> ~ control_frame address command false (fst e).
Proof.
  intros [->|(frame & r & polls & -> & Hs & Hp)]; [by intros ?%not_elem_of_nil|]. intros [->|Hin]%elem_of_cons Hx.
  - by eapply select_differs.
  - pose proof (Forall_elem _ _ _ Hp Hin) as Hl. by apply link_no_command in Hx.
Qed.
End phases.
End recorded.

(** [C22] Select before operate on a bus that does anything: when a point is
    configured for it, the exchanges of a write are frames of the link layer, then
    the select command of the object, then its execute command, each with the polls
    for its confirmation.  An execute frame is sent only in that last part, and only
    when the response to the select was a positive activation confirmation of the
    command for that very object, so a select that is refused, lost or answered for
    another object keeps the execute command from being sent; and a write that
    succeeds sent the execute command and ended with its positive confirmation. *)
Theorem operate_needs_select {B} `{SerialBus B} connection debug_str mapping value address options command
    (a a' : Iec101Adapter (Recorded B)) r :
  prepare_write connection debug_str mapping value = Ok (address, options, command) ->
  select_before_operate options = true ->
  write_point connection debug_str mapping value a = (a', r) ->
  exists link selecting operating,
    snd (adapter_bus a') = (snd (adapter_bus a) ++ link ++ selecting ++ operating)%list /\
    Forall (fun e => link_frame (fst e)) link /\
    (selecting = [] \/ phase_sent address command true selecting) /\
    (operating = [] \/ phase_sent address command false operating) /\
    (forall e, e ∈ (link ++ selecting)%list -> ~ control_frame address command false (fst e)) /\
    (operating <> [] -> phase_sent address command true selecting /\ phase_confirmed address command selecting) /\
    (is_ok r = true -> phase_sent address command false operating /\ phase_confirmed address command operating).
Proof.
  intros Hprep Hsel Hrun.
  assert (Hcmd : command_value debug_str "IEC 101" (control_type options) value = Ok command).
  { unfold prepare_write in Hprep. inv_result. congruence. }
  assert (Hemits : emits log_of (write_point connection debug_str mapping value) (fun n r =>
    exists link selecting operating, n = (link ++ selecting ++ operating)%list /\
      Forall (fun e => link_frame (fst e)) link /\
      (selecting = [] \/ phase_sent address command true selecting) /\
      (operating = [] \/ phase_sent address command false operating) /\
      (operating <> [] -> phase_confirmed address command selecting) /\
      (is_ok r = true -> phase_confirmed address command operating))).
  { unfold write_point. apply emits_lift_bind; [|intros; exists [], [], []; split_and!; (done || by left)..].
    intros v Hv. rewrite Hprep in Hv. injection Hv as <-. rewrite Hsel.
    eapply emits_bind; [apply emits_link | | intros n e Hn; exists n, [], []; rewrite !app_nil_r; split_and!; (done || by left)..].
    intros [] n1 Hn1.
    eapply emits_bind; [by eapply emits_send_command | | intros n e [Hn _]; exists n1, n, []; rewrite app_nil_r;
      split_and!; (done || by left)..].
    intros [] n2 [Hn2 Hconf2]. specialize (Hconf2 eq_refl).
    eapply emits_bind; [by eapply emits_send_command | | intros n e [Hn _]; exists n1, n2, n; split_and!; done..].
    intros [] n3 [Hn3 Hconf3]. specialize (Hconf3 eq_refl).
    apply (emits_nothing _ (Ok _)). exists n1, n2, n3. rewrite app_nil_r. split_and!; done. }
  destruct (Hemits a a' r Hrun) as (n & Hlog & link & selecting & operating & -> & Hl & Hs & Ho & Hsc & Hoc).
  assert (Hne : forall n, phase_confirmed address command n -> n <> []) by by intros n (frame & response & Hlast & _) ->.
  exists link, selecting, operating. split; [exact Hlog|]. split; [done|]. split; [done|]. split; [done|]. split; [|split].
  - intros e [Hin|Hin]%elem_of_app.
    + apply link_no_command, (Forall_elem _ _ _ Hl Hin).
    + by eapply phase_no_execute.
  - intros Hop. specialize (Hsc Hop). split; [|done]. destruct Hs as [->|]; [by apply Hne in Hsc | done].
  - intros Hok. specialize (Hoc Hok). split; [|done]. destruct Ho as [->|]; [by apply Hne in Hoc | done].
Qed.

(** ** Time tags without a date *)

Lemma min_by_key_least {A} (key : A -> Z) l x :
  min_by_key key l = Some x -> x ∈ l /\ forall y, y ∈ l -> key x <= key y.
Proof.
  revert x. induction l as [|y l IH]; intros x; [done|]. cbn [min_by_key].
  destruct (min_by_key key l) as [z|] eqn:E.
  - destruct (IH z eq_refl) as [Hz Hleast]. intros [= <-]. destruct (Z.ltb_spec (key z) (key y)).
    + split; [by right|]. intros w [->|Hw]%elem_of_cons; [lia | auto].
    + split; [by left|]. intros w [->|Hw]%elem_of_cons; [lia|]. specialize (Hleast w Hw). lia.
  - intros [= <-]. destruct l; [|simpl in E; by destruct (min_by_key _ l); discriminate E].
    split; [by left|]. intros w [->|Hw%not_elem_of_nil]%elem_of_cons; [lia | done].
Qed.

Lemma distance_ms_abs observed t : distance_ms observed t = Z.quot (Z.abs (t - observed)) ms.
Proof. unfold distance_ms. by rewrite <- Z.quot_abs by done. Qed.

Lemma distance_ms_mono observed t t' :
  Z.abs (t - observed) <= Z.abs (t' - observed) -> distance_ms observed t <= distance_ms observed t'.
Proof. intros Hle. rewrite !distance_ms_abs. apply Z.quot_le_mono; [done | exact Hle]. Qed.

Lemma within_hour_mod observed minute milliseconds k :
  0 <= minute < 60 -> 0 <= milliseconds < 60000 ->
  (within_hour observed minute milliseconds + k * hour_ns) mod hour_ns = minute * (60 * 1000 * ms) + milliseconds * ms.
Proof.
  intros Hm Hs. unfold within_hour. rewrite Z.mod_add by done.
  rewrite <- Z.add_assoc, Z.add_comm, Z.mod_add by done. unfold hour_ns, ms. rewrite Z.mod_small; lia.
Qed.

(** A CP24Time2a tag carries a minute and a second but no date and no hour.
    The time the adapter gives it has exactly that minute and millisecond, and of
    all the times that have them it is one nearest to the time of reception. *)
Theorem cp24_nearest observed time t :
  bytes_ok time -> parse_cp24_time2a observed time = Ok (Some t) ->
  let tag := Z.land (byte_at time 2) 0x3F * (60 * 1000 * ms) + from_le_bytes (take 2 time) * ms in
  t mod hour_ns = tag /\
  forall t', t' mod hour_ns = tag -> distance_ms observed t <= distance_ms observed t'.
Proof.
  intros Hok Hp. unfold parse_cp24_time2a in Hp. inv_result.
  destruct (negb (Z.land (byte_at time 2) 128 =? 0)); [discriminate Hp|].
  apply bind_Ok in Hp as ([] & Ha0%ensure_Ok & Hp). apply bind_Ok in Hp as (earlier & Ha1%shift_time_Ok & Hp).
  apply bind_Ok in Hp as (later & Ha2%shift_time_Ok & Hp).
  apply negb_true_iff, orb_false_iff in Ha0 as [Hms%Z.leb_gt Hmin%Z.leb_gt].
  set (minute := Z.land (byte_at time 2) 63) in *. set (milliseconds := from_le_bytes (take 2 time)) in *.
  assert (Hmin0 : 0 <= minute) by (apply Z.land_nonneg; by right).
  assert (Hms0 : 0 <= milliseconds) by (apply from_le_bytes_bound, Forall_take; done).
  pose proof (within_hour_mod observed minute milliseconds) as Hmod.
  set (c := within_hour observed minute milliseconds) in *. cbv zeta.
  assert (Hmin_key : min_by_key (distance_ms observed) [earlier; c; later] = Some t) by congruence.
  subst earlier later. apply min_by_key_least in Hmin_key as [Hin Hleast].
  assert (Hc : Z.abs (c - observed) < hour_ns).
  { unfold c, within_hour. pose proof (Z.div_mod observed hour_ns ltac:(done)).
    pose proof (Z.mod_pos_bound observed hour_ns ltac:(done)). unfold hour_ns, ms in *. lia. }
  split.
  - rewrite !elem_of_cons in Hin. destruct Hin as [->|[->|[->|[]%not_elem_of_nil]]].
    + rewrite <- (Hmod (-1)) by lia. f_equal; lia.
    + rewrite <- (Hmod 0) by lia. f_equal; lia.
    + rewrite <- (Hmod 1) by lia. f_equal; lia.
  - intros t' Ht'. pose proof (Hmod 0 ltac:(lia) ltac:(lia)) as Hc0. rewrite Z.add_0_r in Hc0.
    assert (Hk : exists k, t' = c + k * hour_ns).
    { exists (t' / hour_ns - c / hour_ns). pose proof (Z.div_mod t' hour_ns ltac:(done)).
      pose proof (Z.div_mod c hour_ns ltac:(done)). lia. }
    destruct Hk as [k ->].
    destruct (Z_lt_le_dec k 0) as [Hneg|Hnn]; [|destruct (Z.eq_dec k 0) as [->|Hpos]].
    + transitivity (distance_ms observed (c + - hour_ns)); [apply Hleast; by left|].
      apply distance_ms_mono. unfold hour_ns, ms in *. nia.
    + rewrite Z.mul_0_l, Z.add_0_r. apply Hleast. right. by left.
    + transitivity (distance_ms observed (c + hour_ns)); [apply Hleast; right; right; by left|].
      apply distance_ms_mono. unfold hour_ns, ms in *. nia.
Qed.

(** ** Examples *)

Definition serial_link : ProtocolConnection :=
  iec101_serial "rtu" {| serial_port := "/dev/ttyS0"; serial_baud_rate := 9600; serial_data_bits := 8;
                         serial_stop_bits := 1; serial_parity := "even" |}.

Definition breaker_mapping (type : TelemetryType) (options : option Iec104PointOptions) : TelemetryPointMapping :=
  let m := new_mapping "breaker" "bay" "breaker" "rtu" (iec101_address 3 1 1001) type in
  {| map_point_id := map_point_id m; map_device_id := map_device_id m; map_semantic_id := map_semantic_id m;
     map_protocol_connection_id := map_protocol_connection_id m; map_address := map_address m;
     map_value_type := map_value_type m; map_access := ReadWrite; map_opc_ua := None; map_iec101 := options;
     map_iec104 := None; map_bacnet := None; map_unit := None; map_range := None; map_read_transforms := [];
     map_interval_ms := map_interval_ms m |}.

Definition no_calendar (offset year month day hour minute second : Z) : option DateTime := None.

(** A station that acknowledges link frames and answers every read with the
    scaled value 77. *)
Definition scaled_station : SerialBus () := fun request bus =>
  (bus, Ok (if bool_decide (head request = Some FIXED_FRAME_START) then [SINGLE_CHAR_ACK]
            else variable_frame ([8; byte_at request 5; 11; 1; COT_REQUEST; 0] ++ take 5 (drop 10 request) ++ [77; 0; 0]))).

Lemma scaled_station_answers :
  @station_answers () scaled_station (fun _ => Some (11, [77; 0; 0])) (fun _ => True) (fun _ _ => False).
Proof.
  constructor.
  - intros link [] _. by do 2 eexists.
  - intros address bit [] _ _. do 2 eexists. split; [reflexivity|]. left. split; [|done].
    exists [], 8, 11, [77; 0; 0], []. split_and!; [done | simpl; lia | constructor |].
    rewrite app_nil_r. unfold transact, scaled_station. simpl head. rewrite bool_decide_false by discriminate.
    cbn [app]. f_equal.
  - intros address bit [] [].
Qed.

Definition scaled_sample : TelemetrySample := new_sample "bay" "breaker" (VInteger 77) Q_Good 9.

Lemma iec101_reads_station_witness :
  @station_answers () scaled_station (fun _ => Some (11, [77; 0; 0])) (fun _ => True) (fun _ _ => False) /\
  exists a', @read_telemetry () scaled_station serial_link no_calendar (fun _ => 7) (fun _ => 9)
    [breaker_mapping Ty_Integer None] (new_adapter ()) = (a', Ok [scaled_sample]) /\ True.
Proof.
  split; [exact scaled_station_answers|].
  apply (@iec101_reads_station () scaled_station (fun _ => Some (11, [77; 0; 0])) (fun _ => True) (fun _ _ => False)
    serial_link no_calendar (fun _ => 7) (fun _ => 9) [breaker_mapping Ty_Integer None] [scaled_sample] (new_adapter ())).
  - exact scaled_station_answers.
  - reflexivity.
  - exact I.
  - replace (own_mappings serial_link [breaker_mapping Ty_Integer None]) with [breaker_mapping Ty_Integer None]
      by (vm_compute; reflexivity).
    apply (reads_cons (fun _ => Some (11, [77; 0; 0])) serial_link no_calendar (fun _ => 7) (fun _ => 9) 0
      (breaker_mapping Ty_Integer None) [] [] {| link_address := 3; common_address := 1; information_object_address := 1001 |}
      11 [77; 0; 0] {| decoded_value := VInteger 77; decoded_quality := Q_Good; decoded_timestamp := None |});
      [vm_compute; reflexivity | reflexivity | vm_compute; reflexivity | constructor].
Defined.

Definition breaker_options : Iec104PointOptions := {| control_type := SingleCommand; select_before_operate := true |}.
Definition breaker_address : Iec101PointAddress :=
  {| link_address := 3; common_address := 1; information_object_address := 1001 |}.

Definition confirmation (cause : Z) : bytes := variable_frame (build_asdu 8 breaker_address C_SC_NA_1 cause [1]).

Definition breaker_adapter (select_cause : Z) : Iec101Adapter (Recorded ScriptedSerialBus) :=
  new_adapter (new_scripted_bus [[SINGLE_CHAR_ACK]; confirmation select_cause; confirmation 7], []).

Definition breaker_run (select_cause : Z) : Iec101Adapter (Recorded ScriptedSerialBus) * Result ProtocolWriteResult :=
  write_point serial_link (fun s => s) (breaker_mapping Ty_Boolean (Some breaker_options)) (VBoolean true)
    (breaker_adapter select_cause).

Lemma operate_needs_select_witness :
  is_ok (snd (breaker_run 7)) = true /\
  exists link selecting operating,
    snd (adapter_bus (fst (breaker_run 7))) = ([] ++ link ++ selecting ++ operating)%list /\
    (is_ok (snd (breaker_run 7)) = true -> phase_sent breaker_address (CommandSingle true) false operating /\
       phase_confirmed breaker_address (CommandSingle true) operating).
Proof.
  split; [vm_compute; reflexivity|].
  destruct (@operate_needs_select ScriptedSerialBus _ serial_link (fun s => s)
    (breaker_mapping Ty_Boolean (Some breaker_options)) (VBoolean true) breaker_address breaker_options
    (CommandSingle true) (breaker_adapter 7) (fst (breaker_run 7)) (snd (breaker_run 7)))
    as (link & selecting & operating & Hlog & _ & _ & _ & _ & _ & Hlast);
    [vm_compute; reflexivity | reflexivity | apply surjective_pairing |].
  exists link, selecting, operating. exact (conj Hlog Hlast).
Defined.

(** A station that refuses the select (a negative confirmation) is sent nothing
    more. *)
Example refused_select_stops :
  length (snd (adapter_bus (fst (breaker_run 0x47)))) = 2%nat /\
  snd (breaker_run 0x47) = Err "IEC 101 select command was rejected by the station".
Proof. vm_compute. done. Qed.

Lemma cp24_nearest_witness :
  bytes_ok [0; 0; 59] /\
  parse_cp24_time2a (10 * hour_ns) [0; 0; 59] = Ok (Some (10 * hour_ns - 60 * 1000 * ms)) /\
  (10 * hour_ns - 60 * 1000 * ms) mod hour_ns = 59 * (60 * 1000 * ms) + 0 * ms.
Proof.
  assert (Hok : bytes_ok [0; 0; 59]) by (repeat constructor; discriminate).
  assert (Hp : parse_cp24_time2a (10 * hour_ns) [0; 0; 59] = Ok (Some (10 * hour_ns - 60 * 1000 * ms)))
    by (vm_compute; reflexivity).
  split_and!; [exact Hok | exact Hp|].
  exact (proj1 (cp24_nearest (10 * hour_ns) [0; 0; 59] (10 * hour_ns - 60 * 1000 * ms) Hok Hp)).
Defined.

(** ** Where the code deviates *)

(** The test on the type, not on the base type: the time-tagged normalized values
    (types 10 and 34) are read as scaled integers. *)
Lemma time_tagged_normalized_is_scaled :
  decode_raw 9 9 [0xFF; 0x7F; 0] = Ok (VFloat f64_one, Q_Good, 3%nat) /\
  decode_raw 10 9 [0xFF; 0x7F; 0] = Ok (VInteger 32767, Q_Good, 3%nat) /\
  decode_raw 34 9 [0xFF; 0x7F; 0] = Ok (VInteger 32767, Q_Good, 3%nat).
Proof. vm_compute. done. Qed.

(** The acknowledgement of the station with link address 104 contains the start
    character of variable frames, so it is taken for data and refused. *)
Lemma ack_of_link_104_is_refused :
  let ack := [FIXED_FRAME_START; 0; 0x68; sum8 [0; 0x68]; FRAME_END] in
  validate_link_ack ack 0x68 = Ok () /\ contains_variable_frame ack = true /\
  parse_variable_frame ack = Err "IEC 101 variable frame header is truncated".
Proof. vm_compute. done. Qed.

(** The frame count bit does not alternate over a poll: the request after the
    class 2 poll repeats the bit of the poll. *)
Definition polled_run : Iec101Adapter ScriptedSerialBus * Result (list TelemetrySample) :=
  let data := variable_frame (build_asdu 8 breaker_address 11 COT_REQUEST [77; 0; 0]) in
  read_telemetry serial_link no_calendar (fun _ => 7) (fun _ => 9)
    [breaker_mapping Ty_Integer None; breaker_mapping Ty_Integer None]
    (new_adapter (new_scripted_bus [[SINGLE_CHAR_ACK]; [SINGLE_CHAR_ACK]; data; data])).

Lemma frame_count_bit_repeats_after_poll :
  is_ok (snd polled_run) = true /\
  (fun request => if byte_at request 0 =? FIXED_FRAME_START then byte_at request 1 else byte_at request 4)
    <$> bus_requests (adapter_bus (fst polled_run)) = [0x40; 0x53; 0x7B; 0x73].
Proof. vm_compute. done. Qed.
