(* ===== verification/Iec104.v ===== *)
(** The IEC 60870-5-104 adapter, [crates/edge-runtime/src/iec104.rs].

    The APCI session is the external client library's: the class [Iec104Net] has
    the calls the adapter makes on it, over a state of the network, and a type of
    monitored values with the library's conversions.  A poll that does not come
    before the request deadline is the end of the budget [polls], which is any
    number.

    [iec104_read_is_fresh] says that a read returns the points of its own
    interrogation, [iec104_failure_reconnects] that a failed exchange drops the
    client, [iec104_operates_after_select] that an execute command is sent only
    after the confirmation of its select, [good_sample_is_exact] what a sample of
    good quality guarantees. *)

From Stdlib Require Import ZArith Lia.
From S2P Require Import Prelude RustStr Floats FloatFmt Model BTree ConfigTypes ConfigParse PointAddresses SerialBus CommandPlan NetSession Iec101.

Open Scope string_scope.
Open Scope Z_scope.

(** ** The client library *)

Record Cp56Time2a := {
  cp_milliseconds : Z; cp_minutes : Z; cp_hours : Z; cp_day : Z; cp_month : Z; cp_year : Z; cp_invalid : bool;
}.

Inductive DoublePointValue := DoubleIndeterminate | DoubleOff | DoubleOn | DoubleFaulty.

Record PointQuality := {
  q_invalid : bool; q_blocked : bool; q_substituted : bool; q_not_topical : bool; q_overflow : bool;
  q_elapsed_time_invalid : bool;
}.

(** The monitored values of the library and their conversions; [as_double] is the
    pattern [DataValue::Double(v)]. *)
Class DataValue (D : Type) := {
  as_bool : D -> option bool;
  as_f64 : D -> option f64;
  as_double : D -> option DoublePointValue;
}.

Record DataPoint (D : Type) := {
  point_ioa : Z;
  point_value : D;
  point_quality : PointQuality;
  point_timestamp : option Cp56Time2a;
}.
Arguments point_ioa {D} _.
Arguments point_value {D} _.
Arguments point_quality {D} _.
Arguments point_timestamp {D} _.

Inductive Iec104Event (D : Type) :=
| DataUpdate (updates : list (DataPoint D))
| InterrogationComplete (common_address : Z)
| CommandConfirm (ioa : Z) (success : bool)
| ServerError (message : string)
| Disconnected
| OtherEvent.
Arguments DataUpdate {D} _.
Arguments InterrogationComplete {D} _.
Arguments CommandConfirm {D} _ _.
Arguments ServerError {D} _.
Arguments Disconnected {D}.
Arguments OtherEvent {D}.

(** The calls of [Iec104Client]: a client is a handle into the network. *)
Class Iec104Net (W C D : Type) := {
  net_connect : string -> M W C;
  net_active : C -> W -> bool;
  net_start_dt : C -> M W ();
  net_disconnect : C -> M W ();
  net_interrogate : C -> Z -> M W ();
  net_poll : C -> M W (option (Iec104Event D));
  net_command : C -> Z -> Z -> Iec101CommandValue -> bool -> M W ();
}.

(** ** Values *)

Section values.
Context {D : Type} `{DataValue D}
        (with_ymd_and_hms : Z -> Z -> Z -> Z -> Z -> Z -> Z -> option DateTime).

Definition telemetry_value (value : D) (expected_type : TelemetryType) : Result TelemetryValue :=
  match expected_type with
  | Ty_Boolean => value ← ok_or (as_bool value) "IEC 104 value is not boolean"; Ok (VBoolean value)
  | Ty_Integer =>
      match as_double value with
      | Some DoubleOff => Ok (VInteger 1)
      | Some DoubleOn => Ok (VInteger 2)
      | Some DoubleIndeterminate => bail "IEC 104 double-point value is indeterminate"
      | Some DoubleFaulty => bail "IEC 104 double-point value is indeterminate or faulty"
      | None =>
          value ← ok_or (as_f64 value) "IEC 104 value is not numeric";
          ensure (negb (negb (is_finite value) || f64_lt value (f64_of_Z (i_min 64)) ||
                        f64_gt value (f64_of_Z (i_max 64))))
            "IEC 104 numeric value is outside the integer range";;
          Ok (VInteger (f64_as_i64 value))
      end
  | Ty_Float =>
      value ← ok_or (as_f64 value) "IEC 104 value is not numeric";
      ensure (is_finite value) "IEC 104 floating-point value is not finite";;
      Ok (VFloat value)
  | Ty_Text => bail "IEC 104 monitoring values cannot be decoded as text"
  end.

Definition default_value (value_type : TelemetryType) : TelemetryValue :=
  match value_type with
  | Ty_Boolean => VBoolean false | Ty_Integer => VInteger 0 | Ty_Float => VFloat f64_zero | Ty_Text => VText ""
  end.

(** [with_nanosecond] replaces the fraction, which is zero, of the second. *)
Definition cp56_timestamp (time : Cp56Time2a) (timezone_offset_minutes : Z) : option DateTime :=
  if cp_invalid time || (60000 <=? cp_milliseconds time) || (60 <=? cp_minutes time) || (24 <=? cp_hours time)
  then None
  else
    timezone ← east_opt (timezone_offset_minutes * 60);
    second ← with_ymd_and_hms timezone (2000 + cp_year time) (cp_month time) (cp_day time) (cp_hours time)
      (cp_minutes time) (cp_milliseconds time / 1000);
    Some (second + cp_milliseconds time mod 1000 * ms).

Definition point_quality_code (quality : PointQuality) (decode_failed timestamp_invalid : bool) : DataQualityCode :=
  if decode_failed then BadDecode
  else if q_invalid quality then BadProtocol
  else if q_blocked quality then BadOutOfService
  else if q_substituted quality then UncertainSubstituted
  else if q_not_topical quality then UncertainLastKnown
  else if q_overflow quality then UncertainOverflow
  else if q_elapsed_time_invalid quality || timestamp_invalid then UncertainProtocol
  else QC_Good.

Definition point_to_sample (now : DateTime) (mapping : TelemetryPointMapping) (point : DataPoint D)
    (timezone_offset_minutes : Z) : TelemetrySample :=
  let decoded_timestamp := time ← point_timestamp point; cp56_timestamp time timezone_offset_minutes in
  let timestamp_invalid := is_some (point_timestamp point) && negb (is_some decoded_timestamp) in
  let '(value, decode_failed) :=
    match telemetry_value (point_value point) (map_value_type mapping) with
    | Ok value => (value, false)
    | _ => (default_value (map_value_type mapping), true)
    end in
  let quality_code := point_quality_code (point_quality point) decode_failed timestamp_invalid in
  with_quality_code
    (new_sample (map_device_id mapping) (map_point_id mapping) value (code_quality quality_code)
       (default now decoded_timestamp)) quality_code.
End values.

(** ** Mappings *)

Definition mapping_address (mapping : TelemetryPointMapping) : Result (Z * Z) :=
  ensure (bool_decide (addr_kind (map_address mapping) = "iec104_ioa"))
    ("IEC 104 point " ++ map_point_id mapping ++ " requires iec104_ioa address kind");;
  with_context (parse_iec104_point_address (addr_value (map_address mapping)))
    ("invalid IEC 104 address for point " ++ map_point_id mapping).

Definition station_address (mappings : list TelemetryPointMapping) : Result Z :=
  addresses ← collect_results (mapping_address <$> mappings);
  match fst <$> addresses with
  | [] => Ok 1
  | first :: rest =>
      ensure (negb (existsb (fun address => negb (address =? first)) rest))
        "one IEC 104 connection can target only one common address; use separate connections for multiple stations";;
      Ok first
  end.

Definition check_own_connection (connection : ProtocolConnection) (mapping : TelemetryPointMapping) : Result () :=
  ensure (bool_decide (map_protocol_connection_id mapping = conn_id connection))
    ("IEC 104 point " ++ map_point_id mapping ++ " references connection " ++ map_protocol_connection_id mapping ++
     " instead of " ++ conn_id connection).

Fixpoint check_mappings (connection : ProtocolConnection) (mappings : list TelemetryPointMapping) : Result () :=
  match mappings with
  | [] => Ok ()
  | mapping :: mappings =>
      check_own_connection connection mapping;;
      with_context (validate_iec104_point (map_address mapping) (map_value_type mapping) (map_access mapping)
                      (map_iec104 mapping)) ("invalid IEC 104 point " ++ map_point_id mapping);;
      mapping_address mapping;;
      check_mappings connection mappings
  end.

Definition validate_mappings (connection : ProtocolConnection) (mappings : list TelemetryPointMapping) : Result () :=
  check_mappings connection mappings;;
  station_address mappings;;
  Ok ().

(** ** The adapter *)

Section adapter.
Context {W C D : Type} `{Iec104Net W C D} `{DataValue D} (connection : ProtocolConnection)
        (with_ymd_and_hms : Z -> Z -> Z -> Z -> Z -> Z -> Z -> option DateTime)
        (debug_str : string -> string) (debug_addresses : list Z -> string).

Definition new_iec104 (net : W) (mappings : list TelemetryPointMapping) : Result (NetSession W C) :=
  ensure (bool_decide (conn_protocol connection = Iec104)) "IEC 104 adapter requires an IEC 104 connection";;
  validate_connection connection;;
  validate_mappings connection mappings;;
  Ok (new_session net mappings).

Definition timezone_offset : Z :=
  match conn_iec104 connection with Some settings => iec104_cp56_timezone_offset_minutes settings | None => 0 end.

Definition set_mappings (mappings : list TelemetryPointMapping) : M (NetSession W C) () :=
  _ ← lift (validate_mappings connection mappings);
  put_mappings mappings.

(** [endpoint.strip_prefix("tcp://").unwrap_or(endpoint)]. *)
Definition tcp_target (endpoint : string) : string :=
  match strip_prefix (str_bytes "tcp://") (str_bytes endpoint) with
  | Some target => str_of_bytes target
  | None => endpoint
  end.

(** The client in use; it is returned for the caller's [self.client.as_mut()]. *)
Definition ensure_active : M (NetSession W C) C :=
  current ← (fun a => (a, Ok (match session_client a with
                              | Some client => if net_active client (session_net a) then Some client else None
                              | None => None
                              end)));
  match current with
  | Some client => mret client
  | None =>
      endpoint ← lift (ok_or (conn_endpoint connection) "IEC 104 endpoint is required");
      client ← on_error (on_net (net_connect (tcp_target endpoint))) (mret ()) (fun _ => "IEC 104 TCP connection failed");
      _ ← on_error (on_net (net_start_dt client)) (on_net (net_disconnect client))
            (fun _ => "IEC 104 STARTDT handshake failed");
      _ ← install_client client;
      mret client
  end.

(** [points.insert(point.ioa, point)] for the requested ones, in order. *)
Definition take_updates (requested : list (Z * Z)) (updates : list (DataPoint D)) (points : gmap Z (DataPoint D))
    : gmap Z (DataPoint D) :=
  fold_left (fun points point =>
    if existsb (fun '(_, ioa) => ioa =? point_ioa point) requested then <[point_ioa point := point]> points else points)
    updates points.

Definition is_complete (requested : list (Z * Z)) (points : gmap Z (DataPoint D)) : bool :=
  forallb (fun '(_, ioa) => is_some (points !! ioa)) requested.

(** The receive loop of a read, with at most [polls] polls before the deadline. *)
Fixpoint read_loop (polls : nat) (client : C) (station : Z) (requested : list (Z * Z))
    (points : gmap Z (DataPoint D)) : M (NetSession W C) (gmap Z (DataPoint D)) :=
  match polls with
  | O => lift (bail "IEC 104 general interrogation timed out")
  | S polls =>
      event ← on_error (on_net (net_poll client)) (mret ()) (fun _ => "IEC 104 receive failed");
      match event with
      | Some (DataUpdate updates) =>
          let points := take_updates requested updates points in
          if is_complete requested points then mret points else read_loop polls client station requested points
      | Some (InterrogationComplete response_address) =>
          if response_address =? station then
            let missing := filter (fun ioa => points !! ioa = None) (snd <$> requested) in
            if bool_decide (missing = []) then mret points
            else lift (bail ("IEC 104 interrogation completed without IOAs " ++ debug_addresses missing))
          else read_loop polls client station requested points
      | Some (ServerError message) => lift (bail ("IEC 104 server error: " ++ message))
      | _ => read_loop polls client station requested points
      end
  end.

Definition sample_of (now : DateTime) (points : gmap Z (DataPoint D)) (mapping : TelemetryPointMapping)
    : Result TelemetrySample :=
  '(_, ioa) ← mapping_address mapping;
  point ← ok_or (points !! ioa) ("IEC 104 response is missing IOA " ++ show_Z ioa);
  Ok (point_to_sample with_ymd_and_hms now mapping point timezone_offset).

Definition read_telemetry (polls : nat) (now : nat -> DateTime) : M (NetSession W C) (list TelemetrySample) :=
  mappings ← gets session_mappings;
  if bool_decide (length mappings = 0%nat) then mret []
  else
    station ← lift (station_address mappings);
    requested ← lift (collect_results (mapping_address <$> mappings));
    client ← ensure_active;
    _ ← on_error (on_net (net_interrogate client station)) clear_client (fun _ => "IEC 104 general interrogation failed");
    points ← on_error (read_loop polls client station requested ∅) clear_client (fun e => e);
    lift (collect_results (imap (fun i mapping => sample_of (now i) points mapping) mappings)).

(** ** Commands *)

Definition send_command (client : C) (control_type : Iec104ControlType) (station ioa : Z) (value : Iec101CommandValue)
    (select : bool) : M (NetSession W C) () :=
  match control_type, value with
  | SingleCommand, CommandSingle _ | DoubleCommand, CommandDouble _ | SetpointFloat, CommandSetpoint _ =>
      on_net (net_command client station ioa value select)
  | _, _ => lift (bail "IEC 104 command value does not match its configured control type")
  end.

Fixpoint wait_for_command_confirmation (polls : nat) (client : C) (expected_ioa : Z) (phase : string)
    : M (NetSession W C) () :=
  match polls with
  | O => lift (bail ("IEC 104 " ++ phase ++ " confirmation timed out for IOA " ++ show_Z expected_ioa))
  | S polls =>
      event ← on_error (on_net (net_poll client)) (mret ()) (fun _ => "IEC 104 receive failed");
      match event with
      | Some (CommandConfirm ioa success) =>
          if ioa =? expected_ioa then
            lift (ensure success ("IEC 104 " ++ phase ++ " command was rejected for IOA " ++ show_Z expected_ioa))
          else wait_for_command_confirmation polls client expected_ioa phase
      | Some (ServerError message) => lift (bail ("IEC 104 server error during " ++ phase ++ ": " ++ message))
      | Some Disconnected => lift (bail ("IEC 104 connection closed during " ++ phase))
      | _ => wait_for_command_confirmation polls client expected_ioa phase
      end
  end.

Definition prepare_iec104_write (mapping : TelemetryPointMapping) (value : TelemetryValue)
    : Result (Z * Z * Iec104PointOptions * Iec101CommandValue) :=
  check_own_connection connection mapping;;
  ensure (is_writable (map_access mapping)) ("IEC 104 point " ++ map_point_id mapping ++ " is read-only");;
  validate_iec104_point (map_address mapping) (map_value_type mapping) (map_access mapping) (map_iec104 mapping);;
  '(station, ioa) ← mapping_address mapping;
  options ← ok_or (map_iec104 mapping) "writable IEC 104 point is missing control options";
  command ← command_value debug_str "IEC 104" (control_type options) value;
  Ok (station, ioa, options, command).

(** One phase of a command: send and wait. *)
Definition command_phase (polls : nat) (client : C) (options : Iec104PointOptions) (station ioa : Z)
    (command : Iec101CommandValue) (select : bool) (phase : string) : M (NetSession W C) () :=
  _ ← on_error (send_command client (control_type options) station ioa command select) (mret ())
        (fun _ => "IEC 104 " ++ phase ++ " command failed");
  wait_for_command_confirmation polls client ioa phase.

(** Each of the two waits has its own deadline. *)
Definition write_point (polls : bool -> nat) (mapping : TelemetryPointMapping) (value : TelemetryValue)
    : M (NetSession W C) ProtocolWriteResult :=
  '(station, ioa, options, command) ← lift (prepare_iec104_write mapping value);
  client ← ensure_active;
  _ ← on_error
        (_ ← (if select_before_operate options
              then command_phase (polls true) client options station ioa command true "select" else mret ());
         command_phase (polls false) client options station ioa command false "execute")
        clear_client (fun e => e);
  mret {| res_point_id := map_point_id mapping; res_value := value; res_verified := true; res_readback_value := None |}.
End adapter.

(** ** What happens on the network *)

Inductive NetEntry (D : Type) :=
| Polled (event : option (Iec104Event D))
| Commanded (station ioa : Z) (value : Iec101CommandValue) (select : bool).
Arguments Polled {D} _.
Arguments Commanded {D} _ _ _ _.

(** A network that keeps the events it delivered and the commands it was given. *)
Definition RecordedNet (W D : Type) : Type := W * list (NetEntry D).

Section recorded_net.
Context {W C D : Type} `{Iec104Net W C D}.

Definition recorded {A} (entries : Result A -> list (NetEntry D)) (call : M W A) : M (RecordedNet W D) A :=
  fun '(net, log) => let '(net, r) := call net in ((net, log ++ entries r), r)%list.

#[export] Instance recorded_net : Iec104Net (RecordedNet W D) C D := {|
  net_connect endpoint := recorded (fun _ => []) (net_connect endpoint);
  net_active client net := net_active client (fst net);
  net_start_dt client := recorded (fun _ => []) (net_start_dt client);
  net_disconnect client := recorded (fun _ => []) (net_disconnect client);
  net_interrogate client station := recorded (fun _ => []) (net_interrogate client station);
  net_poll client := recorded (fun r => match r with Ok event => [Polled event] | _ => [] end) (net_poll client);
  net_command client station ioa value select :=
    recorded (fun _ => [Commanded station ioa value select]) (net_command client station ioa value select);
|}.

Implicit Types a : NetSession (RecordedNet W D) C.
Definition net_log a : list (NetEntry D) := snd (session_net a).

Abbreviation emits_log := (emits net_log).

Lemma emits_recorded {A} entries (call : M W A) :
  emits_log (on_net (recorded entries call)) (fun n r => n = entries r).
Proof.
  intros [[net log] mappings client generation] a' r Hr. unfold on_net, recorded in Hr. cbn [session_net] in Hr.
  destruct (call net) as [net' r']. simplify_eq/=. by eexists.
Qed.

Lemma emits_on_error {A} (m : M (NetSession (RecordedNet W D) C) A) cleanup context
    (Q : list (NetEntry D) -> Result A -> Prop) :
  emits_log m Q -> (forall a, net_log (fst (cleanup a)) = net_log a) ->
  emits_log (on_error m cleanup context) (fun n r => Q n r \/ exists e, Q n (Err e) /\ r = Err (context e)).
Proof.
  intros Hm Hc a a' r Hr. unfold on_error in Hr. destruct (m a) as [a1 [v|e|e]] eqn:E;
    destruct (Hm _ _ _ E) as (n & Hn & HQ); injection Hr as <- <-; exists n; rewrite ?Hc; eauto.
Qed.

Lemma log_clear a : net_log (fst (clear_client a)) = net_log a.
Proof. done. Qed.

Lemma emits_ensure_active connection :
  emits_log (ensure_active connection) (fun n _ => n = []).
Proof.
  unfold ensure_active. eapply (emits_bind _ _ _ (fun n r => n = [])).
  { intros a a' r [= <- <-]. exists []. by rewrite app_nil_r. }
  2,3: done.
  intros current n ->. destruct current as [client|]; [by apply (emits_nothing _ (Ok client))|].
  apply emits_lift_bind; [|done..]. intros endpoint _.
  eapply emits_bind; [apply emits_on_error; [apply emits_recorded | done] | | by intros n e [->|(? & -> & _)]..].
  intros client n [->|(e & _ & [=])].
  eapply emits_bind; [apply emits_on_error; [apply emits_recorded |] | | by intros n e [->|(? & -> & _)]..].
  { intros a. destruct (emits_recorded (fun _ => []) (net_disconnect client) a _ _ (surjective_pairing _)) as (n & Hn & ->).
    by rewrite app_nil_r in Hn. }
  intros [] n [->|(e & _ & [=])].
  eapply emits_bind; [by apply (emits_silent _ _ () (fun n _ => n = [])) | | done..].
  intros [] n ->. by apply (emits_nothing _ (Ok client)).
Qed.

Lemma emits_poll client :
  emits_log (on_error (on_net (net_poll client)) (mret ()) (fun _ => "IEC 104 receive failed"))
    (fun n r => match r with Ok event => n = [Polled event] | _ => n = [] end).
Proof.
  eapply emits_weaken; [apply emits_on_error; [apply emits_recorded | done]|].
  intros n r [->|(e & -> & ->)]; [by destruct r | done].
Qed.

(** ** A read is fresh *)

(** The points of the data updates among the events, in order. *)
Definition updates_of (events : list (option (Iec104Event D))) : list (DataPoint D) :=
  mjoin ((fun event => match event with Some (DataUpdate updates) => updates | _ => [] end) <$> events).

Definition last_update (ioa : Z) (updates : list (DataPoint D)) : option (DataPoint D) :=
  list.last (filter (fun point => point_ioa point = ioa) updates).

Lemma take_updates_app requested (u1 u2 : list (DataPoint D)) points :
  take_updates requested (u1 ++ u2)%list points = take_updates requested u2 (take_updates requested u1 points).
Proof. apply fold_left_app. Qed.

Lemma take_updates_lookup requested (updates : list (DataPoint D)) ioa :
  ioa ∈ snd <$> requested -> take_updates requested updates ∅ !! ioa = last_update ioa updates.
Proof.
  intros Hin. unfold last_update. induction updates as [|u updates IH] using rev_ind; [done|].
  rewrite take_updates_app, list.filter_app, last_app. unfold take_updates at 1. cbn [fold_left].
  destruct (existsb _ requested) eqn:E.
  - destruct (decide (point_ioa u = ioa)) as [Heq|Hne].
    + rewrite filter_cons_True, filter_nil by done. simpl. rewrite Heq. by rewrite lookup_insert_eq.
    + rewrite filter_cons_False, filter_nil by done. simpl. rewrite lookup_insert_ne by done. rewrite IH.
      by destruct (list.last _).
  - rewrite IH. destruct (decide (point_ioa u = ioa)) as [Heq|Hne].
    + exfalso. apply list_elem_of_fmap in Hin as ([station ioa'] & -> & Hin).
      assert (Hex : existsb (fun '(_, ioa) => ioa =? point_ioa u) requested = true).
      { apply existsb_exists. exists (station, ioa'). split; [by apply list_elem_of_In|]. by rewrite Heq, Z.eqb_refl. }
      congruence.
    + rewrite filter_cons_False, filter_nil by done. simpl. by destruct (list.last _).
Qed.

Lemma emits_read_loop debug_addresses polls client station requested points :
  emits_log (read_loop debug_addresses polls client station requested points) (fun n r =>
    forall found, r = Ok found -> exists events, n = Polled <$> events /\
      found = take_updates requested (updates_of events) points).
Proof.
  revert points. induction polls as [|polls IH]; intros points; cbn [read_loop].
  { by apply emits_nothing. }
  eapply emits_bind; [apply emits_poll | | done..]. intros event n ->.
  assert (Hskip : match event with Some (DataUpdate _) => False | _ => True end ->
    emits_log (read_loop debug_addresses polls client station requested points) (fun n2 r =>
      forall found, r = Ok found -> exists events, ([Polled event] ++ n2)%list = Polled <$> events /\
        found = take_updates requested (updates_of events) points)).
  { intros He. eapply emits_weaken; [apply IH|]. intros n r Hn found Hr.
    destruct (Hn found Hr) as (events & -> & ->). exists (event :: events). split; [done|].
    unfold updates_of. rewrite fmap_cons. by destruct event as [[]|]. }
  destruct event as [[updates|response|ioa success|message| |]|]; try by apply Hskip.
  - destruct (is_complete _ _).
    + apply (emits_nothing _ (Ok _)). intros found [= <-]. exists [Some (DataUpdate updates)]. split; [done|].
      unfold updates_of. simpl. by rewrite app_nil_r.
    + eapply emits_weaken; [apply IH|]. intros n r Hn found Hr. destruct (Hn found Hr) as (events & -> & ->).
      exists (Some (DataUpdate updates) :: events). split; [done|]. unfold updates_of. rewrite fmap_cons. simpl.
      by rewrite take_updates_app.
  - case_bool; [|by apply Hskip]. case_bool_decide; [|by apply emits_nothing].
    apply (emits_nothing _ (Ok _)). intros found [= <-]. by exists [Some (InterrogationComplete response)].
  - by apply emits_nothing.
Qed.

(** ** Select before operate *)

Abbreviation is_execute entry := (match entry with Commanded _ _ _ false => True | _ => False end).

(** The wait for a confirmation only polls; it succeeds with the event that
    confirms the command of the object. *)
Lemma emits_wait polls client ioa phase :
  emits_log (wait_for_command_confirmation polls client ioa phase) (fun n r =>
    Forall (fun entry => ~ is_execute entry) n /\
    (r = Ok () -> list.last n = Some (Polled (Some (CommandConfirm ioa true))))).
Proof.
  induction polls as [|polls IH]; cbn [wait_for_command_confirmation].
  { by apply emits_nothing. }
  eapply emits_bind; [apply emits_poll | | by intros n e ->..]. intros event n ->.
  assert (Hskip : emits_log (wait_for_command_confirmation polls client ioa phase) (fun n2 r =>
    Forall (fun entry => ~ is_execute entry) ([Polled event] ++ n2)%list /\
    (r = Ok () -> list.last ([Polled event] ++ n2)%list = Some (Polled (Some (CommandConfirm ioa true)))))).
  { eapply emits_weaken; [apply IH|]. intros n r [Hn Hr]. split; [constructor; [by intros []|done]|].
    intros Hok. rewrite last_app, (Hr Hok). done. }
  assert (Hone : Forall (fun entry => ~ is_execute entry) ([Polled event] ++ [])%list).
  { constructor; [by intros [] | constructor]. }
  destruct event as [[updates|response|ioa' success|message| |]|]; try exact Hskip; try by apply emits_nothing.
  destruct (Z.eqb_spec ioa' ioa) as [->|Hne]; [|exact Hskip].
  apply emits_nothing. split; [done|]. by destruct success.
Qed.

Lemma emits_phase polls client options station ioa command select phase :
  emits_log (command_phase polls client options station ioa command select phase) (fun n r =>
    (exists waits, n = Commanded station ioa command select :: waits /\ Forall (fun entry => ~ is_execute entry) waits /\
      (r = Ok () -> list.last waits = Some (Polled (Some (CommandConfirm ioa true))))) \/
    (n = [] /\ r <> Ok ())).
Proof.
  unfold command_phase.
  assert (Hsend : emits_log (send_command client (control_type options) station ioa command select)
    (fun n r => n = [Commanded station ioa command select] \/ (n = [] /\ r <> Ok ()))).
  { unfold send_command. destruct (control_type options), command; try (apply emits_nothing; by right);
      (eapply emits_weaken; [apply emits_recorded|]; intros n r ->; by left). }
  eapply emits_bind; [apply emits_on_error; [exact Hsend | done] | |
    intros n e [[->|[-> _]]|(e' & [->|[-> _]] & _)]; [left; by exists [] | by right | left; by exists [] | by right]..].
  intros [] n [[->|[_ []]]|(e & _ & [=])]; [|done].
  eapply emits_weaken; [apply emits_wait|]. intros n r [Hn Hr]. left. by exists n.
Qed.
(** What a write with select before operate leaves. *)
Definition selected_first (station ioa : Z) (command : Iec101CommandValue) (n : list (NetEntry D)) : Prop :=
  forall i station' ioa' value', n !! i = Some (Commanded station' ioa' value' false) ->
  exists j k, (j < k < i)%nat /\ n !! j = Some (Commanded station ioa command true) /\
    n !! k = Some (Polled (Some (CommandConfirm ioa true))).

Lemma iec104_quiet_selected station ioa command n :
  Forall (fun entry => ~ is_execute entry) n -> selected_first station ioa command n.
Proof.
  intros Hn i station' ioa' value' Hi. eapply Forall_lookup_1 in Hn; [|done]. by destruct Hn.
Qed.

Lemma iec104_confirmed_selected station ioa command waits n :
  Forall (fun entry => ~ is_execute entry) waits ->
  list.last waits = Some (Polled (Some (CommandConfirm ioa true))) ->
  selected_first station ioa command ((Commanded station ioa command true :: waits) ++ n)%list.
Proof.
  intros Hw Hlast i station' ioa' value' Hi. rewrite last_lookup in Hlast.
  assert (0 < length waits)%nat by (destruct waits; [done | simpl; lia]).
  destruct (decide (i < S (length waits))%nat) as [Hlt|Hge].
  { rewrite lookup_app_l in Hi by done. destruct i as [|i]; [done|].
    eapply Forall_lookup_1 in Hw; [|done]. by destruct Hw. }
  exists 0%nat, (S (pred (length waits))). split; [lia|]. split; [done|].
  rewrite lookup_app_l by (simpl; lia). done.
Qed.

Lemma emits_select_execute (polls : bool -> nat) client options station ioa command :
  emits_log (_ ← command_phase (polls true) client options station ioa command true "select";
             command_phase (polls false) client options station ioa command false "execute")
    (fun n r => selected_first station ioa command n /\
       (r = Ok () -> list.last n = Some (Polled (Some (CommandConfirm ioa true))))).
Proof.
  assert (Hfail : forall n, (exists waits, n = Commanded station ioa command true :: waits /\
      Forall (fun entry => ~ is_execute entry) waits) -> selected_first station ioa command n).
  { intros n (waits & -> & Hw). apply iec104_quiet_selected. constructor; [by intros [] | done]. }
  eapply emits_bind; [apply emits_phase | |
    by intros n e [(waits & -> & Hw & _)|[-> _]]; (split; [|done]); [apply Hfail; eauto | apply iec104_quiet_selected]..].
  intros [] n1 [(waits & -> & Hw & Hlast)|[_ []]]; [|done].
  specialize (Hlast eq_refl). eapply emits_weaken; [apply emits_phase|].
  intros n2 r Hn2. split; [by apply iec104_confirmed_selected|]. intros ->.
  destruct Hn2 as [(waits2 & -> & _ & Hlast2)|[_ []]]; [|done]. rewrite last_app.
  rewrite last_cons. by rewrite (Hlast2 eq_refl).
Qed.
End recorded_net.

(** Select before operate over IEC 104, on a network that does anything: when
    a point is configured for it, a write gives the network an execute command
    only after the select command for the same object and value was given and a
    positive confirmation for that object was received in between; and a write
    that succeeds received the confirmation of its execute command last. *)
Theorem iec104_operates_after_select {W C D} `{Iec104Net W C D} connection debug_str polls mapping value station ioa
    options command (a a' : NetSession (RecordedNet W D) C) r :
  prepare_iec104_write connection debug_str mapping value = Ok (station, ioa, options, command) ->
  select_before_operate options = true ->
  write_point connection debug_str polls mapping value a = (a', r) ->
  exists entries, snd (session_net a') = (snd (session_net a) ++ entries)%list /\
    (forall i station' ioa' value', entries !! i = Some (Commanded station' ioa' value' false) ->
       exists j k, (j < k < i)%nat /\ entries !! j = Some (Commanded station ioa command true) /\
         entries !! k = Some (Polled (Some (CommandConfirm ioa true)))) /\
    (is_ok r = true -> list.last entries = Some (Polled (Some (CommandConfirm ioa true)))).
Proof.
  intros Hprep Hsel. revert a a' r.
  change (emits net_log (write_point connection debug_str polls mapping value) (fun entries r =>
    selected_first station ioa command entries /\
    (is_ok r = true -> list.last entries = Some (Polled (Some (CommandConfirm ioa true)))))).
  unfold write_point. apply emits_lift_bind; [|by split..]. intros v Hv. rewrite Hprep in Hv.
  injection Hv as <-. rewrite Hsel.
  eapply emits_bind; [apply emits_ensure_active | | by intros n e ->; split..]. intros client n ->.
  eapply emits_bind; [apply emits_on_error; [apply emits_select_execute | exact log_clear] | |
    by intros n e [[Hn _]|(e' & [Hn _] & _)]..].
  intros [] n [[Hn Hlast]|(e & _ & [=])].
  apply (emits_nothing _ (Ok _)). rewrite app_nil_r. split; [done|]. intros _. by apply Hlast.
Qed.

(** A read over IEC 104 is fresh, on a network that does anything: every
    sample a read returns, one per configured point and in their order, is made
    from the last data update for the point's object among the events received
    during that very read, never from an earlier one. *)
Theorem iec104_read_is_fresh {W C D} `{Iec104Net W C D} `{DataValue D} connection with_ymd_and_hms debug_addresses
    polls now (a a' : NetSession (RecordedNet W D) C) samples :
  read_telemetry connection with_ymd_and_hms debug_addresses polls now a = (a', Ok samples) ->
  exists events, snd (session_net a') = (snd (session_net a) ++ (Polled <$> events))%list /\
    length samples = length (session_mappings a) /\
    forall i mapping, session_mappings a !! i = Some mapping ->
    exists station ioa point, mapping_address mapping = Ok (station, ioa) /\
      last_update ioa (updates_of events) = Some point /\
      samples !! i = Some (point_to_sample with_ymd_and_hms (now i) mapping point (timezone_offset connection)).
Proof.
  intros Hrun. unfold read_telemetry, gets in Hrun. rewrite M_bind_eq in Hrun.
  set (mappings := session_mappings a) in *. cbn beta iota in Hrun.
  case_bool_decide as Hempty.
  { injection Hrun as <- <-. exists []. rewrite app_nil_r. split_and!; [done | by rewrite Hempty|].
    intros i m Hi. apply lookup_lt_Some in Hi. lia. }
  match type of Hrun with ?m _ = _ => assert (Hemit : emits net_log m (fun n r => forall samples, r = Ok samples ->
    exists events, n = Polled <$> events /\ length samples = length mappings /\
    forall i mapping, mappings !! i = Some mapping ->
    exists station ioa point, mapping_address mapping = Ok (station, ioa) /\
      last_update ioa (updates_of events) = Some point /\
      samples !! i = Some (point_to_sample with_ymd_and_hms (now i) mapping point (timezone_offset connection)))) end.
  { apply emits_lift_bind; [|done..]. intros station _. apply emits_lift_bind; [|done..]. intros requested Hreq.
    eapply emits_bind; [apply emits_ensure_active | | done..]. intros client n ->.
    eapply emits_bind; [apply emits_on_error; [apply emits_recorded | exact log_clear] | | done..].
    intros [] n [->|(e & _ & [=])].
    eapply emits_bind; [apply emits_on_error; [apply emits_read_loop | exact log_clear] | | done..].
    intros points n [Hn|(e & _ & [=])]. destruct (Hn points eq_refl) as (events & -> & ->).
    apply emits_nothing. intros found Hfound. rewrite app_nil_r. exists events. split; [done|].
    apply collect_results_Forall2 in Hfound. apply collect_results_Forall2 in Hreq.
    split; [by rewrite <- (list.Forall2_length _ _ _ Hfound), length_imap|]. intros i m Hi.
    eapply Forall2_lookup_l in Hfound as (sample & Hsample & Hs); [|rewrite list_lookup_imap, Hi; done].
    unfold sample_of in Hs. apply bind_Ok in Hs as ([st ioa] & Haddr & Hs).
    apply bind_Ok in Hs as (point & Hpoint%ok_or_Ok & [= <-]). exists st, ioa, point.
    split; [done|]. split; [|done]. rewrite take_updates_lookup in Hpoint; [done|].
    eapply Forall2_lookup_l in Hreq as (pair & Hpair & Hp); [|rewrite list_lookup_fmap, Hi; done].
    rewrite Haddr in Hp. injection Hp as <-. apply list_elem_of_fmap. exists (st, ioa). split; [done|].
    by eapply list_elem_of_lookup_2. }
  destruct (Hemit _ _ _ Hrun) as (n & Hlog & Hn). destruct (Hn samples eq_refl) as (events & -> & ?). by exists events.
Qed.

(** What a good sample is: the point's own value converted, no quality flag set,
    and a time tag that was understood or absent. *)
Lemma good_sample_is_exact {D} `{DataValue D} with_ymd_and_hms now mapping (point : DataPoint D) tz :
  let sample := point_to_sample with_ymd_and_hms now mapping point tz in
  sample_quality_code sample = Some QC_Good ->
  telemetry_value (point_value point) (map_value_type mapping) = Ok (sample_value sample) /\
  q_invalid (point_quality point) = false /\ q_substituted (point_quality point) = false /\
  q_not_topical (point_quality point) = false /\
  match point_timestamp point with
  | Some time => cp56_timestamp with_ymd_and_hms time tz = Some (sample_timestamp sample)
  | None => sample_timestamp sample = now
  end.
Proof.
  unfold point_to_sample, point_quality_code. cbv zeta.
  destruct (telemetry_value _ _); simpl; [|discriminate..].
  destruct (point_quality point) as [[] [] [] [] [] []]; simpl; try discriminate.
  destruct (point_timestamp point) as [time|]; simpl; [|done].
  by destruct (cp56_timestamp _ time tz).
Qed.

(** ** Examples *)

#[export] Instance float_values : DataValue f64 := {|
  as_bool _ := None; as_f64 x := Some x; as_double _ := None |}.

(** A network that accepts every call and delivers a script of events. *)
Definition scripted_poll (events : list (Iec104Event f64)) : list (Iec104Event f64) * Result (option (Iec104Event f64)) :=
  match events with event :: events => (events, Ok (Some event)) | [] => ([], Ok None) end.

#[export] Instance scripted_net : Iec104Net (list (Iec104Event f64)) () f64 := {|
  net_connect _ := mret (); net_active _ _ := false; net_start_dt _ := mret (); net_disconnect _ := mret ();
  net_interrogate _ _ := mret (); net_poll _ := scripted_poll; net_command _ _ _ _ _ := mret () |}.

Definition good_quality : PointQuality :=
  {| q_invalid := false; q_blocked := false; q_substituted := false; q_not_topical := false; q_overflow := false;
     q_elapsed_time_invalid := false |}.

Definition pressure_point (x : Z) : DataPoint f64 :=
  {| point_ioa := 16385; point_value := f64_of_Z x; point_quality := good_quality; point_timestamp := None |}.

Definition station_link : ProtocolConnection :=
  {| conn_id := "rtu"; conn_protocol := Iec104; conn_endpoint := Some "tcp://10.0.0.7:2404"; conn_serial := None;
     conn_iec101 := None; conn_iec104 := None; conn_opc_ua := None; conn_bacnet_ip := None;
     conn_siemens_s7 := None; conn_omron_fins := None; conn_circuit_breaker := default_circuit_breaker |}.

Definition setpoint_options : Iec104PointOptions := {| control_type := SetpointFloat; select_before_operate := true |}.

Definition pressure_mapping : TelemetryPointMapping :=
  let m := new_mapping "pressure" "pump" "pressure" "rtu" (iec104_address 1 16385) Ty_Float in
  {| map_point_id := map_point_id m; map_device_id := map_device_id m; map_semantic_id := map_semantic_id m;
     map_protocol_connection_id := map_protocol_connection_id m; map_address := map_address m;
     map_value_type := map_value_type m; map_access := ReadWrite; map_opc_ua := None; map_iec101 := None;
     map_iec104 := Some setpoint_options; map_bacnet := None; map_unit := None; map_range := None;
     map_read_transforms := []; map_interval_ms := map_interval_ms m |}.

Definition pump_adapter (events : list (Iec104Event f64)) : NetSession (RecordedNet (list (Iec104Event f64)) f64) () :=
  {| session_net := (events, []); session_mappings := [pressure_mapping]; session_client := None;
     connection_generation := 0 |}.

Definition no_debug_addresses (l : list Z) : string := "".

Definition pump_read := read_telemetry station_link no_calendar no_debug_addresses 5 (fun _ => 9)
  (pump_adapter [OtherEvent; DataUpdate [pressure_point 3; pressure_point 4]; DataUpdate [pressure_point 5]]).

Lemma iec104_read_is_fresh_witness :
  snd pump_read = Ok [new_sample "pump" "pressure" (VFloat (f64_of_Z 4)) Q_Good 9] /\
  exists events, snd (session_net (fst pump_read)) = ([] ++ (Polled <$> events))%list /\
    length [new_sample "pump" "pressure" (VFloat (f64_of_Z 4)) Q_Good 9] = 1%nat.
Proof.
  assert (Hrun : pump_read = (fst pump_read, Ok [new_sample "pump" "pressure" (VFloat (f64_of_Z 4)) Q_Good 9]))
    by (vm_compute; reflexivity).
  split; [vm_compute; reflexivity|].
  destruct (iec104_read_is_fresh station_link no_calendar no_debug_addresses 5 (fun _ => 9) _ _ _ Hrun)
    as (events & Hlog & Hlen & _).
  exists events. exact (conj Hlog Hlen).
Defined.

Definition pump_write := write_point station_link (fun s => s) (fun _ => 5%nat) pressure_mapping (VFloat (f64_of_Z 7))
  (pump_adapter [CommandConfirm 16385 true; OtherEvent; CommandConfirm 16385 true]).

Lemma iec104_operates_after_select_witness :
  is_ok (snd pump_write) = true /\
  exists entries, snd (session_net (fst pump_write)) = ([] ++ entries)%list /\
    (is_ok (snd pump_write) = true -> list.last entries = Some (Polled (Some (CommandConfirm 16385 true)))).
Proof.
  split; [vm_compute; reflexivity|].
  destruct (iec104_operates_after_select station_link (fun s => s) (fun _ => 5%nat) pressure_mapping (VFloat (f64_of_Z 7))
    1 16385 setpoint_options (CommandSetpoint (f32_of_f64 (f64_of_Z 7)))
    (pump_adapter [CommandConfirm 16385 true; OtherEvent; CommandConfirm 16385 true]) (fst pump_write) (snd pump_write))
    as (entries & Hlog & _ & Hlast); [vm_compute; reflexivity | reflexivity | apply surjective_pairing|].
  exists entries. exact (conj Hlog Hlast).
Defined.

(** The bound of the integer range is [2^63] as an [f64]: the value [2^63] passes
    and the cast saturates. *)
Lemma iec104_integer_saturates : telemetry_value (f64_of_Z (2 ^ 63)) Ty_Integer = Ok (VInteger (2 ^ 63 - 1)).
Proof. vm_compute. reflexivity. Qed.
