(* ===== verification/SiemensS7.v ===== *)
(** The Siemens S7 adapter, [crates/edge-runtime/src/siemens_s7.rs], over the
    external S7 client: the class [S7Net] has the calls the adapter makes on it.

    [s7_reads_plc] says that a read returns what the memory of the controller
    holds, [s7_write_effect] that a write makes its point hold the value and leaves
    every other point as it was, also a bit of the same byte. *)

From Stdlib Require Import ZArith Lia.
From S2P Require Import Prelude RustStr Floats Model ConfigTypes ConfigParse PointAddresses SerialBus CommandPlan.
From S2P Require Import NetSession Iec101.

Open Scope string_scope.
Open Scope Z_scope.

(** [MultiReadItem], always with the transport size of bytes. *)
Record MultiReadItem := {
  item_area : SiemensS7Area;
  item_db_number : Z;
  item_start : Z;
  item_length : Z;
}.

(** The resolver, [S7Client] and the printing of socket addresses. *)
Class S7Net (W C A : Type) := {
  s7_resolve : string -> Z -> M W (list A);
  s7_connect : A -> SiemensS7ConnectionSettings -> M W C;
  s7_connected : C -> W -> bool;
  s7_read_multi : C -> list MultiReadItem -> M W (list bytes);
  s7_read_area : C -> MultiReadItem -> M W bytes;
  s7_write_area : C -> SiemensS7Area -> Z -> Z -> bytes -> M W ();
  show_address : A -> string;
}.

(** ** Values *)

Definition decode_value (mapping : TelemetryPointMapping) (address : SiemensS7PointAddress) (l : bytes)
    : Result TelemetryValue :=
  let expected := byte_width (s7_data_type address) in
  ensure (expected <=? Z.of_nat (length l))
    ("Siemens S7 point " ++ map_point_id mapping ++ " expected " ++ show_Z expected ++ " bytes but received " ++
     show_Z (Z.of_nat (length l)));;
  match s7_data_type address with
  | S7_Bit =>
      bit ← expect (s7_bit_offset address) "validated S7 bit offset";
      Ok (VBoolean (negb (Z.land (byte_at l 0) (Z.shiftl 1 bit) =? 0)))
  | S7_Byte => Ok (VInteger (byte_at l 0))
  | S7_Word => Ok (VInteger (from_be_bytes (take 2 l)))
  | S7_Int => Ok (VInteger (signed 16 (from_be_bytes (take 2 l))))
  | S7_DWord =>
      if bool_decide (map_value_type mapping = Ty_Float)
      then Ok (VFloat (f64_of_f32 (f32_from_bits (from_be_bytes (take 4 l)))))
      else Ok (VInteger (from_be_bytes (take 4 l)))
  | S7_DInt => Ok (VInteger (signed 32 (from_be_bytes (take 4 l))))
  | S7_Real => Ok (VFloat (f64_of_f32 (f32_from_bits (from_be_bytes (take 4 l)))))
  end.

(** [T::try_from(value)] for an integer type with the given range. *)
Definition try_from (lo hi value : Z) (message : string) : Result Z :=
  if (lo <=? value) && (value <=? hi) then Ok value else bail message.

Definition encode_value (data_type : SiemensS7DataType) (value : TelemetryValue) : Result bytes :=
  match data_type, value with
  | S7_Byte, VInteger value =>
      value ← try_from 0 (u_max 8) value "Siemens S7 BYTE value is outside 0..255"; Ok [value]
  | S7_Word, VInteger value =>
      value ← try_from 0 (u_max 16) value "Siemens S7 WORD value is outside 0..65535"; Ok (to_be_bytes 2 value)
  | S7_Int, VInteger value =>
      value ← try_from (i_min 16) (i_max 16) value "Siemens S7 INT value is outside -32768..32767";
      Ok (to_be_bytes 2 (wrap 16 value))
  | S7_DWord, VInteger value =>
      value ← try_from 0 (u_max 32) value "Siemens S7 DWORD value is outside 0..4294967295"; Ok (to_be_bytes 4 value)
  | S7_DInt, VInteger value =>
      value ← try_from (i_min 32) (i_max 32) value "Siemens S7 DINT value is outside the signed 32-bit range";
      Ok (to_be_bytes 4 (wrap 32 value))
  | (S7_DWord | S7_Real), VFloat value =>
      ensure (negb (negb (is_finite value) || f64_gt value f32_max || f64_lt value (f64_neg f32_max)))
        "Siemens S7 REAL value must be finite and fit in 32 bits";;
      Ok (to_be_bytes 4 (f32_to_bits (f32_of_f64 value)))
  | S7_Bit, _ => Panic "Siemens S7 bit values are handled before encoding"
  | _, _ => bail "telemetry value is incompatible with Siemens S7 data type"
  end.

(** [byte |= mask] and [byte &= !mask]. *)
Definition set_bit_of (byte bit : Z) (value : bool) : Z :=
  let mask := Z.shiftl 1 bit in
  if value then Z.lor byte mask else Z.land byte (Z.lxor mask 0xFF).

(** ** The adapter *)

Section adapter.
Context {W C A : Type} `{S7Net W C A} (connection : ProtocolConnection).

Definition check_s7_mapping (mapping : TelemetryPointMapping) : Result SiemensS7PointAddress :=
  with_context (validate_siemens_s7_point (map_address mapping) (map_value_type mapping) (map_access mapping))
    ("invalid Siemens S7 point " ++ map_point_id mapping).

Definition check_s7_connection (mapping : TelemetryPointMapping) : Result () :=
  ensure (bool_decide (map_protocol_connection_id mapping = conn_id connection))
    ("Siemens S7 point " ++ map_point_id mapping ++ " references connection " ++ map_protocol_connection_id mapping ++
     " instead of " ++ conn_id connection).

Fixpoint validate_s7_mappings (mappings : list TelemetryPointMapping) : Result () :=
  match mappings with
  | [] => Ok ()
  | mapping :: mappings =>
      check_s7_connection mapping;;
      check_s7_mapping mapping;;
      validate_s7_mappings mappings
  end.

Definition new_s7 (net : W) (mappings : list TelemetryPointMapping) : Result (NetSession W C) :=
  ensure (bool_decide (conn_protocol connection = SiemensS7)) "Siemens S7 adapter requires a Siemens S7 connection";;
  validate_connection connection;;
  validate_s7_mappings mappings;;
  Ok (new_session net mappings).

Definition set_s7_mappings (mappings : list TelemetryPointMapping) : M (NetSession W C) () :=
  _ ← lift (validate_s7_mappings mappings);
  put_mappings mappings.

(** The first address that accepts the connection; otherwise the error of the
    last one. *)
Fixpoint connect_any (settings : SiemensS7ConnectionSettings) (addresses : list A) (last_error : string)
    : M (NetSession W C) C :=
  match addresses with
  | [] => lift (Err last_error)
  | address :: addresses => fun s =>
      match on_net (s7_connect address settings) s with
      | (s, Ok client) => (_ ← install_client client; mret client) s
      | (s, Err _) =>
          connect_any settings addresses ("failed to connect Siemens S7 endpoint " ++ show_address address) s
      | (s, Panic e) => (s, Panic e)
      end
  end.

Definition client : M (NetSession W C) C :=
  current ← gets (fun s => match session_client s with
                           | Some client => if s7_connected client (session_net s) then Some client else None
                           | None => None
                           end);
  match current with
  | Some client => mret client
  | None =>
      _ ← clear_client;
      endpoint ← lift (ok_or (conn_endpoint connection) "Siemens S7 endpoint is required");
      '(host, port) ← lift (parse_siemens_s7_endpoint endpoint);
      settings ← lift (ok_or (conn_siemens_s7 connection) "Siemens S7 settings are required");
      addresses ← on_error (on_net (s7_resolve host port)) (mret ())
        (fun _ => "failed to resolve Siemens S7 endpoint " ++ host ++ ":" ++ show_Z port);
      _ ← lift (ensure (negb (bool_decide (length addresses = 0%nat)))
                  ("Siemens S7 endpoint " ++ host ++ ":" ++ show_Z port ++ " resolved to no addresses"));
      connect_any settings addresses "failed to connect Siemens S7 endpoint"
  end.

Definition read_item (address : SiemensS7PointAddress) : MultiReadItem :=
  {| item_area := s7_area address; item_db_number := s7_db_number address; item_start := s7_byte_offset address;
     item_length := byte_width (s7_data_type address) |}.

Definition s7_target (mapping : TelemetryPointMapping) : Result (TelemetryPointMapping * SiemensS7PointAddress) :=
  address ← check_s7_mapping mapping; Ok (mapping, address).

Definition s7_sample (now : DateTime) (target : (TelemetryPointMapping * SiemensS7PointAddress) * bytes)
    : Result TelemetrySample :=
  let '((mapping, address), l) := target in
  value ← decode_value mapping address l;
  Ok (new_sample (map_device_id mapping) (map_point_id mapping) value Q_Good now).

Definition read_telemetry (now : nat -> DateTime) : M (NetSession W C) (list TelemetrySample) :=
  mappings ← gets session_mappings;
  targets ← lift (collect_results
    (s7_target <$> filter (fun mapping => is_readable (map_access mapping) = true) mappings));
  if bool_decide (length targets = 0%nat) then mret []
  else
    client ← client;
    values ← on_error (on_net (s7_read_multi client ((read_item ∘ snd) <$> targets))) clear_client
      (fun _ => "Siemens S7 multi-variable read failed");
    _ ← lift (ensure (bool_decide (length values = length targets))
      ("Siemens S7 read response count mismatch: requested " ++ show_Z (Z.of_nat (length targets)) ++ ", received " ++
       show_Z (Z.of_nat (length values))));
    lift (collect_results (imap (fun i => s7_sample (now i)) (zip targets values))).

(** A bit is written with the byte it is read from. *)
Definition write_value (client : C) (address : SiemensS7PointAddress) (value : TelemetryValue)
    : M (NetSession W C) () :=
  if bool_decide (s7_data_type address = S7_Bit) then
    match value with
    | VBoolean value =>
        current ← on_error (on_net (s7_read_area client
            {| item_area := s7_area address; item_db_number := s7_db_number address;
               item_start := s7_byte_offset address; item_length := 1 |})) (mret ())
          (fun _ => "Siemens S7 bit read-before-write failed");
        byte ← lift (ok_or (head current) "Siemens S7 bit read-before-write returned no data");
        bit ← lift (expect (s7_bit_offset address) "validated S7 bit offset");
        on_error (on_net (s7_write_area client (s7_area address) (s7_db_number address) (s7_byte_offset address)
                            [set_bit_of byte bit value])) (mret ()) (fun _ => "Siemens S7 bit write failed")
    | _ => lift (bail "Siemens S7 bit write requires a boolean value")
    end
  else
    l ← lift (encode_value (s7_data_type address) value);
    on_error (on_net (s7_write_area client (s7_area address) (s7_db_number address) (s7_byte_offset address) l))
      (mret ()) (fun _ => "Siemens S7 value write failed").

Definition write_point (mapping : TelemetryPointMapping) (value : TelemetryValue)
    : M (NetSession W C) ProtocolWriteResult :=
  _ ← lift (check_s7_connection mapping);
  _ ← lift (ensure (is_writable (map_access mapping)) ("Siemens S7 point " ++ map_point_id mapping ++ " is not writable"));
  address ← lift (check_s7_mapping mapping);
  client ← client;
  _ ← on_error (write_value client address value) clear_client
        (fun _ => "failed to write Siemens S7 point " ++ map_point_id mapping);
  mret {| res_point_id := map_point_id mapping; res_value := value; res_verified := true; res_readback_value := None |}.
End adapter.

(** ** A controller *)

Abbreviation Memory := (SiemensS7Area -> Z -> Z -> Z).

Definition memory_bytes (m : Memory) (item : MultiReadItem) : bytes :=
  (fun k => m (item_area item) (item_db_number item) (item_start item + Z.of_nat k)) <$> seq 0 (Z.to_nat (item_length item)).

Definition write_memory (m : Memory) (area : SiemensS7Area) (db start : Z) (l : bytes) : Memory := fun area' db' offset =>
  if bool_decide (area' = area) && (db' =? db) && (start <=? offset) && (offset <? start + Z.of_nat (length l))
  then byte_at l (Z.to_nat (offset - start)) else m area' db' offset.

(** What the adapter relies on of a connected controller: reads return the bytes
    of its memory and writes store them. *)
Section plc.
Context {W C A : Type} `{S7Net W C A} (memory : W -> Memory) (I : W -> Prop) (c : C).

Record plc_answers : Prop := {
  plc_connected w : I w -> s7_connected c w = true;
  plc_bytes w area db offset : I w -> byte_ok (memory w area db offset);
  plc_read_multi w items : I w -> exists w', s7_read_multi c items w = (w', Ok (memory_bytes (memory w) <$> items)) /\
    I w' /\ (forall area db offset, memory w' area db offset = memory w area db offset);
  plc_read_area w item : I w -> exists w', s7_read_area c item w = (w', Ok (memory_bytes (memory w) item)) /\
    I w' /\ (forall area db offset, memory w' area db offset = memory w area db offset);
  plc_write_area w area db start l : I w -> bytes_ok l -> exists w', s7_write_area c area db start l w = (w', Ok ()) /\
    I w' /\ (forall area' db' offset, memory w' area' db' offset = write_memory (memory w) area db start l area' db' offset);
}.

(** The value of a point. *)
Definition plc_value (w : W) (mapping : TelemetryPointMapping) (address : SiemensS7PointAddress) : Result TelemetryValue :=
  decode_value mapping address (memory_bytes (memory w) (read_item address)).

Hypothesis Hplc : plc_answers.

Lemma client_of (connection : ProtocolConnection) (s : NetSession W C) :
  session_client s = Some c -> I (session_net s) -> client connection s = (s, Ok c).
Proof using Hplc.
  intros Hc Hs. unfold client, gets. rewrite M_bind_eq. cbn beta iota. by rewrite Hc, (plc_connected Hplc).
Qed.

Lemma read_telemetry_plc (connection : ProtocolConnection) now (s : NetSession W C) targets samples :
  session_client s = Some c -> I (session_net s) ->
  collect_results (s7_target <$> filter (fun m => is_readable (map_access m) = true) (session_mappings s)) = Ok targets ->
  collect_results (imap (fun i target => s7_sample (now i)
    (target, memory_bytes (memory (session_net s)) (read_item (snd target)))) targets) = Ok samples ->
  exists s', read_telemetry connection now s = (s', Ok samples) /\ I (session_net s') /\
    (forall area db offset, memory (session_net s') area db offset = memory (session_net s) area db offset).
Proof using Hplc.
  intros Hc Hs Ht Hsamples. unfold read_telemetry, gets. rewrite M_bind_eq. cbn beta iota.
  rewrite lift_bind, Ht. case_bool_decide as Hlen.
  { destruct targets; [|done]. injection Hsamples as <-. by exists s. }
  rewrite M_bind_eq, client_of by done. rewrite M_bind_eq. unfold on_error, on_net at 1.
  destruct (plc_read_multi Hplc (session_net s) ((read_item ∘ snd) <$> targets) Hs) as (w' & -> & Hw' & Hm).
  rewrite <- list_fmap_compose. rewrite lift_bind, bool_decide_true by by rewrite length_fmap. cbn [ensure].
  replace (imap _ (zip _ _)) with (imap (fun i target => s7_sample (now i)
    (target, memory_bytes (memory (session_net s)) (read_item (snd target)))) targets).
  - unfold lift. rewrite Hsamples. by eexists.
  - apply list_eq. intros i. rewrite !list_lookup_imap, lookup_zip_with, list_lookup_fmap.
    by destruct (targets !! i) as [[m address]|].
Qed.

(** The bits a point occupies. *)
Definition covers (address : SiemensS7PointAddress) (area : SiemensS7Area) (db byte bit : Z) : Prop :=
  s7_area address = area /\ s7_db_number address = db /\
  s7_byte_offset address <= byte < s7_byte_offset address + byte_width (s7_data_type address) /\
  (s7_data_type address = S7_Bit -> s7_bit_offset address = Some bit).

Definition disjoint_points (a b : SiemensS7PointAddress) : Prop :=
  forall area db byte bit, 0 <= bit < 8 -> covers a area db byte bit -> covers b area db byte bit -> False.

(** The decoder looks at the covered bits only. *)
Lemma decode_covered mapping address (m m' : Memory) :
  s7_ok address ->
  (forall byte bit, 0 <= bit < 8 -> covers address (s7_area address) (s7_db_number address) byte bit ->
     Z.testbit (m' (s7_area address) (s7_db_number address) byte) bit =
     Z.testbit (m (s7_area address) (s7_db_number address) byte) bit) ->
  (forall area db offset, byte_ok (m area db offset)) -> (forall area db offset, byte_ok (m' area db offset)) ->
  decode_value mapping address (memory_bytes m' (read_item address)) =
  decode_value mapping address (memory_bytes m (read_item address)).
Proof using.
  intros (_ & _ & Hbit & _) Hsame Hm Hm'. destruct (decide (s7_data_type address = S7_Bit)) as [Ht|Ht].
  - destruct Hbit as (bit & Hb & Hbit). unfold decode_value, memory_bytes, read_item. cbn [item_length].
    rewrite Ht, Hb. simpl. rewrite Z.add_0_r. do 2 f_equal. rewrite !Z.shiftl_mul_pow2, !Z.mul_1_l by lia.
    rewrite !land_pow2_zero by lia. rewrite !negb_involutive. apply Hsame; [lia|].
    unfold covers. rewrite Ht. simpl. split_and!; try done; lia.
  - f_equal. apply list_fmap_ext. intros k x Hx. apply lookup_seq in Hx as [-> Hk].
    cbn [read_item item_length item_area item_db_number item_start] in *.
    assert (0 < byte_width (s7_data_type address)) by (destruct (s7_data_type address); simpl; lia).
    apply Z.bits_inj'. intros bit Hbit0. destruct (decide (bit < 8)) as [Hlt|Hge].
    + apply Hsame; [lia|]. split_and!; try done; lia.
    + rewrite !(testbit_high 8) by (try lia; apply Hm || apply Hm'). done.
Qed.

Lemma memory_bytes_written (m : Memory) area db start l :
  memory_bytes (write_memory m area db start l)
    {| item_area := area; item_db_number := db; item_start := start; item_length := Z.of_nat (length l) |} = l.
Proof using.
  unfold memory_bytes. cbn [item_area item_db_number item_start item_length]. rewrite Nat2Z.id.
  apply list_eq. intros k. rewrite list_lookup_fmap. destruct (decide (k < length l)%nat) as [Hk|Hk].
  - rewrite lookup_seq_lt by done. cbn [fmap option_fmap option_map]. unfold write_memory, byte_at.
    rewrite bool_decide_true, Z.eqb_refl by done. rewrite (proj2 (Z.leb_le _ _)), (proj2 (Z.ltb_lt _ _)) by lia.
    cbn [andb]. replace (Z.to_nat _) with k by lia. destruct (lookup_lt_is_Some_2 l k Hk) as [x ->]. done.
  - rewrite lookup_seq_ge by lia. symmetry. apply lookup_ge_None. lia.
Qed.

(** A value the wire can carry: a float has to be one of [f32]. *)
Definition representable (value : TelemetryValue) : Prop :=
  match value with
  | VFloat x => exists y, x = f64_of_f32 y /\ f32_valid y /\ is_finite y = true
  | _ => True
  end.

Lemma try_from_Ok lo hi value message v : try_from lo hi value message = Ok v -> v = value /\ lo <= value <= hi.
Proof using.
  unfold try_from. destruct ((lo <=? value) && (value <=? hi)) eqn:E; [|done]. intros [= <-].
  apply andb_true_iff in E as [?%Z.leb_le ?%Z.leb_le]. done.
Qed.

Lemma try_from_no_panic lo hi value message : no_panic (try_from lo hi value message).
Proof using. unfold try_from. by destruct (_ && _). Qed.

Lemma encode_no_panic data_type value : data_type <> S7_Bit -> no_panic (encode_value data_type value).
Proof using.
  intros Hbit. destruct data_type, value; try done; cbn [encode_value]; no_panic_tac; apply try_from_no_panic.
Qed.

Lemma decode_be mapping address n x :
  length (to_be_bytes n x) = n -> Z.of_nat n = byte_width (s7_data_type address) ->
  decode_value mapping address (to_be_bytes n x) =
  match s7_data_type address with
  | S7_Bit => bit ← expect (s7_bit_offset address) "validated S7 bit offset";
              Ok (VBoolean (negb (Z.land (byte_at (to_be_bytes n x) 0) (Z.shiftl 1 bit) =? 0)))
  | S7_Byte => Ok (VInteger (byte_at (to_be_bytes n x) 0))
  | S7_Word => Ok (VInteger (from_be_bytes (to_be_bytes n x)))
  | S7_Int => Ok (VInteger (signed 16 (from_be_bytes (to_be_bytes n x))))
  | S7_DWord =>
      if bool_decide (map_value_type mapping = Ty_Float)
      then Ok (VFloat (f64_of_f32 (f32_from_bits (from_be_bytes (to_be_bytes n x)))))
      else Ok (VInteger (from_be_bytes (to_be_bytes n x)))
  | S7_DInt => Ok (VInteger (signed 32 (from_be_bytes (to_be_bytes n x))))
  | S7_Real => Ok (VFloat (f64_of_f32 (f32_from_bits (from_be_bytes (to_be_bytes n x)))))
  end.
Proof using.
  intros Hlen Hw. unfold decode_value. rewrite Hlen, <- Hw, Z.leb_refl. cbn [ensure mbind Result_bind].
  destruct (s7_data_type address); simpl in Hw; try done; rewrite ?take_ge by lia; done.
Qed.

Lemma encode_decode mapping address value l :
  has_type value (map_value_type mapping) -> s7_type_accepts (s7_data_type address) (map_value_type mapping) = true ->
  representable value -> s7_data_type address <> S7_Bit -> encode_value (s7_data_type address) value = Ok l ->
  Z.of_nat (length l) = byte_width (s7_data_type address) /\ bytes_ok l /\ decode_value mapping address l = Ok value.
Proof using.
  intros Hty Hacc Hrep Hbit He.
  assert (Hfloat : forall x y, x = f64_of_f32 y -> f32_valid y -> is_finite y = true ->
    from_be_bytes (to_be_bytes 4 (f32_to_bits (f32_of_f64 x))) = f32_to_bits y /\
    f64_of_f32 (f32_from_bits (f32_to_bits y)) = x).
  { intros x y -> Hv Hf. rewrite f32_of_f64_of_f32 by done. split.
    - apply from_be_to_be, f32_to_bits_range, Hv.
    - rewrite f32_from_to_bits; [done | done | by intros ->]. }
  destruct (s7_data_type address) eqn:Hdt, value as [x|v|b|t]; try discriminate He; try done;
    cbn [encode_value] in He; inv_result; try (apply try_from_Ok in Ha as [-> Hv]); unfold u_max, i_max, i_min in *; rewrite ?length_to_be_bytes;
    (split; [done|]); (split; [try apply to_be_bytes_ok|]);
    try (rewrite decode_be, Hdt by (rewrite ?length_to_be_bytes, ?Hdt; done)).
  - constructor; [unfold byte_ok; lia | constructor].
  - unfold decode_value. by rewrite Hdt.
  - rewrite from_be_to_be; [done | simpl; lia].
  - destruct Hrep as (y & -> & Hv & Hf). destruct (Hfloat _ y eq_refl Hv Hf) as [-> ->].
    by destruct (map_value_type mapping).
  - rewrite from_be_to_be by (simpl; lia). by destruct (map_value_type mapping).
  - rewrite from_be_to_be by (pose proof (wrap_ok 16 v); unfold u_ok in *; simpl; lia).
    rewrite signed_wrap; [done | lia | unfold i_ok; lia].
  - rewrite from_be_to_be by (pose proof (wrap_ok 32 v); unfold u_ok in *; simpl; lia).
    rewrite signed_wrap; [done | lia | unfold i_ok; lia].
  - destruct Hrep as (y & -> & Hv & Hf). by destruct (Hfloat _ y eq_refl Hv Hf) as [-> ->].
Qed.

(** Writing one bit of a byte. *)
Lemma set_bit_testbit byte bit value k :
  byte_ok byte -> 0 <= bit <= 7 -> 0 <= k < 8 ->
  Z.testbit (set_bit_of byte bit value) k = if k =? bit then value else Z.testbit byte k.
Proof using.
  intros Hb Hbit Hk. unfold set_bit_of. rewrite Z.shiftl_mul_pow2, Z.mul_1_l by lia.
  assert (Hff : Z.testbit 0xFF k = true).
  { change 0xFF with (Z.ones 8). apply Z.ones_spec_low. lia. }
  destruct value; rewrite ?Z.lor_spec, ?Z.land_spec, ?Z.lxor_spec, Z.pow2_bits_eqb, ?Hff, (Z.eqb_sym bit k) by lia;
    destruct (k =? bit), (Z.testbit byte k); done.
Qed.

Lemma set_bit_of_ok byte bit value : byte_ok byte -> 0 <= bit <= 7 -> byte_ok (set_bit_of byte bit value).
Proof using.
  intros Hb Hbit. unfold set_bit_of. rewrite Z.shiftl_mul_pow2, Z.mul_1_l by lia.
  assert (Hmask : u_ok 8 (2 ^ bit)).
  { split; [lia|]. apply Z.pow_lt_mono_r; lia. }
  assert (Hx : u_ok 8 (Z.lxor (2 ^ bit) 0xFF)) by (apply lxor_ok; [lia | done | by unfold u_ok]).
  change (byte_ok byte) with (u_ok 8 byte) in Hb. change (u_ok 8 (if value then Z.lor byte (2 ^ bit) else Z.land byte (Z.lxor (2 ^ bit) 255))).
  assert (Hbound : forall z, 0 <= z -> (forall k, 8 <= k -> Z.testbit z k = false) -> u_ok 8 z).
  { intros z Hz Hhigh. split; [done|]. destruct (Z.eq_dec z 0) as [->|Hnz]; [done|].
    apply Z.log2_lt_pow2; [lia|]. destruct (Z_lt_le_dec (Z.log2 z) 8) as [|Hge]; [done|].
    pose proof (Z.bit_log2 z ltac:(lia)) as Ht. rewrite Hhigh in Ht by lia. discriminate Ht. }
  unfold u_ok in Hb, Hmask, Hx. destruct value; apply Hbound.
  - apply Z.lor_nonneg. lia.
  - intros k Hk. by rewrite Z.lor_spec, !(testbit_high 8) by (done || unfold u_ok; lia).
  - apply Z.land_nonneg. lia.
  - intros k Hk. by rewrite Z.land_spec, (testbit_high 8 byte) by (done || unfold u_ok; lia).
Qed.

(** A write of the bytes of a point leaves the points it does not share a bit
    with, when the bits of its first byte it does not cover are kept. *)
Lemma write_keeps_others w w' address l mapping' address' :
  I w -> I w' -> s7_ok address -> s7_ok address' -> disjoint_points address address' ->
  Z.of_nat (length l) = byte_width (s7_data_type address) ->
  (forall area db offset, memory w' area db offset =
     write_memory (memory w) (s7_area address) (s7_db_number address) (s7_byte_offset address) l area db offset) ->
  (forall bit, 0 <= bit < 8 -> s7_data_type address = S7_Bit -> s7_bit_offset address <> Some bit ->
     Z.testbit (byte_at l 0) bit =
     Z.testbit (memory w (s7_area address) (s7_db_number address) (s7_byte_offset address)) bit) ->
  plc_value w' mapping' address' = plc_value w mapping' address'.
Proof using Hplc.
  intros Hw Hw' Hok Hok' Hdis Hlen Hm Hkeep. unfold plc_value. apply decode_covered; [done | |
    by intros; apply (plc_bytes Hplc)..].
  intros byte bit Hbit Hcov. rewrite Hm. unfold write_memory.
  case_bool_decide as Harea; [|done].
  destruct (Z.eqb_spec (s7_db_number address') (s7_db_number address)) as [Hdb|]; [|done].
  destruct (Z.leb_spec (s7_byte_offset address) byte) as [Hlo|]; [|done].
  destruct (Z.ltb_spec byte (s7_byte_offset address + Z.of_nat (length l))) as [Hhi|]; [|done]. cbn [andb].
  destruct (decide (s7_data_type address = S7_Bit /\ s7_bit_offset address <> Some bit)) as [[Ht Hne]|Hcovered].
  - rewrite Ht in Hlen. simpl in Hlen. assert (byte = s7_byte_offset address) as -> by lia.
    rewrite Z.sub_diag, Harea, Hdb. simpl. by apply Hkeep.
  - exfalso. apply (Hdis (s7_area address') (s7_db_number address') byte bit Hbit); [|done].
    unfold covers. split_and!; try done; try lia. intros Ht.
    destruct (decide (s7_bit_offset address = Some bit)) as [|Hne]; [done|]. tauto.
Qed.

(** What a write does to the memory of the controller. *)
Definition write_effect (w w' : W) (mapping : TelemetryPointMapping) (address : SiemensS7PointAddress)
    (value : TelemetryValue) (ok : bool) : Prop :=
  if ok then
    plc_value w' mapping address = Ok value /\
    forall mapping' address', s7_ok address' -> disjoint_points address address' ->
      plc_value w' mapping' address' = plc_value w mapping' address'
  else forall area db offset, memory w' area db offset = memory w area db offset.

Lemma write_bytes_effect (s : NetSession W C) mapping address value l context :
  I (session_net s) -> s7_ok address -> bytes_ok l ->
  Z.of_nat (length l) = byte_width (s7_data_type address) ->
  decode_value mapping address l = Ok value ->
  (forall bit, 0 <= bit < 8 -> s7_data_type address = S7_Bit -> s7_bit_offset address <> Some bit ->
     Z.testbit (byte_at l 0) bit =
     Z.testbit (memory (session_net s) (s7_area address) (s7_db_number address) (s7_byte_offset address)) bit) ->
  exists s', on_error (on_net (s7_write_area c (s7_area address) (s7_db_number address) (s7_byte_offset address) l))
    (mret ()) context s = (s', Ok ()) /\ I (session_net s') /\ session_client s' = session_client s /\
    write_effect (session_net s) (session_net s') mapping address value true.
Proof using Hplc.
  intros Hs Hok Hl Hlen Hdec Hkeep. unfold on_error, on_net.
  destruct (plc_write_area Hplc (session_net s) (s7_area address) (s7_db_number address) (s7_byte_offset address) l Hs Hl)
    as (w' & -> & Hw' & Hm).
  eexists. split; [reflexivity|]. cbn [session_net session_client]. split; [done|]. split; [done|]. split.
  - unfold plc_value. rewrite <- Hdec. f_equal.
    etransitivity; [|apply (memory_bytes_written (memory (session_net s)) (s7_area address) (s7_db_number address)
      (s7_byte_offset address) l)].
    unfold read_item. rewrite <- Hlen. unfold memory_bytes. apply list_fmap_ext. intros. apply Hm.
  - intros mapping' address' Hok' Hdis. by apply (write_keeps_others (session_net s) w' address l).
Qed.

Lemma write_value_effect (s : NetSession W C) mapping address value :
  I (session_net s) -> s7_ok address -> s7_type_accepts (s7_data_type address) (map_value_type mapping) = true ->
  has_type value (map_value_type mapping) -> representable value ->
  exists s' r, write_value c address value s = (s', r) /\ no_panic r /\ I (session_net s') /\
    session_client s' = session_client s /\
    write_effect (session_net s) (session_net s') mapping address value (is_ok r).
Proof using Hplc.
  intros Hs Hok Hacc Hty Hrep. unfold write_value.
  case_bool_decide as Hbit.
  - destruct value as [x|v|b|t]; rewrite Hbit in Hacc; destruct (map_value_type mapping); try discriminate Hacc; try done.
    pose proof Hok as (_ & _ & Hb & _). rewrite decide_True in Hb by done. destruct Hb as (bit & Hb & Hrange).
    rewrite M_bind_eq. unfold on_error at 1, on_net at 1.
    set (item := {| item_area := _; item_db_number := _; item_start := _; item_length := 1 |}).
    destruct (plc_read_area Hplc (session_net s) item Hs) as (w1 & -> & Hw1 & Hm1).
    set (byte := memory (session_net s) (s7_area address) (s7_db_number address) (s7_byte_offset address)).
    assert (Hread : memory_bytes (memory (session_net s)) item = [byte]).
    { unfold memory_bytes, item. simpl. by rewrite Z.add_0_r. }
    rewrite Hread, lift_bind. cbn [head ok_or]. rewrite lift_bind, Hb. cbn [expect].
    assert (Hbyte : byte_ok byte) by by apply (plc_bytes Hplc).
    set (s1 := {| session_net := w1; session_mappings := _; session_client := _; connection_generation := _ |}).
    destruct (write_bytes_effect s1 mapping address (VBoolean b) [set_bit_of byte bit b]
      (fun _ => "Siemens S7 bit write failed")) as (s' & Hr & HI & Hcl & Hown & Hother); try done.
    + constructor; [by apply set_bit_of_ok | constructor].
    + by rewrite Hbit.
    + unfold decode_value. rewrite Hbit, Hb. simpl. rewrite Z.shiftl_mul_pow2, Z.mul_1_l by lia.
      change (byte_at [?x] 0) with x. rewrite land_pow2_zero, negb_involutive, set_bit_testbit, Z.eqb_refl by (done || lia).
      done.
    + intros k Hk _ Hne. change (byte_at [?x] 0) with x. rewrite set_bit_testbit by (done || lia).
      destruct (Z.eqb_spec k bit) as [->|]; [by rewrite Hb in Hne|]. cbn [s1 session_net]. by rewrite Hm1.
    + exists s', (Ok ()). split; [exact Hr|]. split; [done|]. split; [done|]. split; [done|].
      split; [exact Hown|]. intros mapping' address' Hok' Hdis. rewrite Hother by done. unfold plc_value. f_equal.
      apply list_fmap_ext. intros. apply Hm1.
  - rewrite lift_bind. destruct (encode_value (s7_data_type address) value) as [l|e|e] eqn:He.
    + destruct (encode_decode mapping address value l) as (Hlen & Hl & Hdec); try done.
      destruct (write_bytes_effect s mapping address value l (fun _ => "Siemens S7 value write failed"))
        as (s' & Hr & HI & Hcl & Heff); try done. by exists s', (Ok ()).
    + by exists s, (Err e).
    + pose proof (encode_no_panic (s7_data_type address) value Hbit) as Hnp. by rewrite He in Hnp.
Qed.
End plc.

(** A read over S7 returns what the controller holds: with a client of a
    controller that answers from its memory, a read yields one sample per readable
    point, in the order of the configuration, whose value is the one decoded from
    the bytes of that point, and leaves the memory as it was. *)
Theorem s7_reads_plc {W C A} `{S7Net W C A} memory I (c : C) connection now (s : NetSession W C) targets samples :
  plc_answers memory I c -> session_client s = Some c -> I (session_net s) ->
  collect_results (s7_target <$> filter (fun m => is_readable (map_access m) = true) (session_mappings s)) = Ok targets ->
  collect_results (imap (fun i target => s7_sample (now i)
    (target, memory_bytes (memory (session_net s)) (read_item (snd target)))) targets) = Ok samples ->
  exists s', read_telemetry connection now s = (s', Ok samples) /\ I (session_net s') /\
    (forall area db offset, memory (session_net s') area db offset = memory (session_net s) area db offset).
Proof. intros Hplc. by apply read_telemetry_plc. Qed.

(** The effect of a write over S7 on a controller that answers from its
    memory: when the write succeeds the point holds the written value, and every
    point that shares no bit with it holds what it held before, be it another bit
    of the same byte; when it fails the memory is as it was. *)
Theorem s7_write_effect {W C A} `{S7Net W C A} memory I (c : C) connection (s s' : NetSession W C) mapping address value r :
  plc_answers memory I c -> session_client s = Some c -> I (session_net s) ->
  check_s7_mapping mapping = Ok address -> has_type value (map_value_type mapping) -> representable value ->
  write_point connection mapping value s = (s', r) ->
  match r with
  | Ok _ =>
      plc_value memory (session_net s') mapping address = Ok value /\
      forall mapping' address', s7_ok address' -> disjoint_points address address' ->
        plc_value memory (session_net s') mapping' address' = plc_value memory (session_net s) mapping' address'
  | Err _ => forall area db offset, memory (session_net s') area db offset = memory (session_net s) area db offset
  | Panic _ => False
  end.
Proof.
  intros Hplc Hc Hs Haddr Hty Hrep. unfold write_point. rewrite lift_bind. unfold check_s7_connection at 1.
  case_bool_decide; cbn [ensure]; [|by intros [= <- <-]].
  rewrite lift_bind. destruct (is_writable (map_access mapping)) eqn:Hw; cbn [ensure]; [|by intros [= <- <-]].
  rewrite lift_bind, Haddr, M_bind_eq, (client_of memory I c Hplc) by done. rewrite M_bind_eq.
  assert (Hok : s7_ok address /\ s7_type_accepts (s7_data_type address) (map_value_type mapping) = true).
  { unfold check_s7_mapping in Haddr. apply with_context_Ok in Haddr. unfold validate_siemens_s7_point in Haddr.
    inv_result. simplify_eq. split; [by eapply parsed_s7_ok | done]. }
  destruct Hok as [Hok Hacc]. unfold on_error at 1.
  destruct (write_value_effect memory I c Hplc s mapping address value Hs Hok Hacc Hty Hrep)
    as (s1 & r1 & -> & Hnp & _ & _ & Heff).
  destruct r1 as [[]|e|e]; [| |done]; intros [= <- <-]; exact Heff.
Qed.

(** ** Example *)

#[export] Instance memory_net : S7Net Memory () () := {|
  s7_resolve _ _ := mret [()]; s7_connect _ _ := mret (); s7_connected _ _ := true;
  s7_read_multi _ items := fun m => (m, Ok (memory_bytes m <$> items));
  s7_read_area _ item := fun m => (m, Ok (memory_bytes m item));
  s7_write_area _ area db start l := fun m => (write_memory m area db start l, Ok ());
  show_address _ := "" |}.

Definition memory_ok (m : Memory) : Prop := forall area db offset, byte_ok (m area db offset).

Lemma memory_net_answers : plc_answers (fun m => m) memory_ok ().
Proof.
  constructor; [done | by intros ? ? ? ? Hm | by eexists | by eexists |].
  intros w area db start l Hw Hl. eexists. split; [reflexivity|]. split; [|done].
  intros area' db' offset. unfold write_memory. destruct (_ && _ && _ && _); [by apply byte_at_ok | apply Hw].
Qed.

Definition idle_memory : Memory := fun _ _ _ => 0x81.

Definition s7_link : ProtocolConnection :=
  {| conn_id := "plc"; conn_protocol := SiemensS7; conn_endpoint := Some "10.0.0.9:102"; conn_serial := None;
     conn_iec101 := None; conn_iec104 := None; conn_opc_ua := None; conn_bacnet_ip := None;
     conn_siemens_s7 := None; conn_omron_fins := None; conn_circuit_breaker := default_circuit_breaker |}.

Definition s7_point (point address : string) (type : TelemetryType) : TelemetryPointMapping :=
  let m := new_mapping point "press" point "plc" {| addr_kind := "s7_address"; addr_value := address; addr_modbus := None |} type in
  {| map_point_id := map_point_id m; map_device_id := map_device_id m; map_semantic_id := map_semantic_id m;
     map_protocol_connection_id := map_protocol_connection_id m; map_address := map_address m;
     map_value_type := map_value_type m; map_access := ReadWrite; map_opc_ua := None; map_iec101 := None;
     map_iec104 := None; map_bacnet := None; map_unit := None; map_range := None;
     map_read_transforms := []; map_interval_ms := map_interval_ms m |}.

Definition s7_session : NetSession Memory () :=
  {| session_net := idle_memory;
     session_mappings := [s7_point "valve" "DB1.DBX0.3" Ty_Boolean; s7_point "speed" "DB1.INT2" Ty_Integer];
     session_client := Some (); connection_generation := 1 |}.

Definition valve_address : SiemensS7PointAddress :=
  {| s7_area := DataBlock; s7_db_number := 1; s7_byte_offset := 0; s7_bit_offset := Some 3; s7_data_type := S7_Bit |}.

Definition s7_targets : list (TelemetryPointMapping * SiemensS7PointAddress) :=
  match collect_results (s7_target <$> session_mappings s7_session) with Ok targets => targets | _ => [] end.

Definition s7_samples : list TelemetrySample :=
  [new_sample "press" "valve" (VBoolean false) Q_Good 9; new_sample "press" "speed" (VInteger (-32383)) Q_Good 9].

Lemma s7_reads_plc_witness :
  plc_answers (fun m => m) memory_ok () /\
  exists s', read_telemetry s7_link (fun _ => 9) s7_session = (s', Ok s7_samples) /\ memory_ok (session_net s') /\
    (forall area db offset, session_net s' area db offset = idle_memory area db offset).
Proof.
  split; [exact memory_net_answers|].
  apply (s7_reads_plc (fun m => m) memory_ok () s7_link (fun _ => 9) s7_session s7_targets s7_samples).
  - exact memory_net_answers.
  - reflexivity.
  - intros area db offset. vm_compute. split; [discriminate | reflexivity].
  - vm_compute. reflexivity.
  - vm_compute. reflexivity.
Defined.

Definition valve_run := write_point s7_link (s7_point "valve" "DB1.DBX0.3" Ty_Boolean) (VBoolean true) s7_session.

Lemma s7_write_effect_witness :
  is_ok (snd valve_run) = true /\
  plc_value (fun m => m) (session_net (fst valve_run)) (s7_point "valve" "DB1.DBX0.3" Ty_Boolean) valve_address =
    Ok (VBoolean true).
Proof.
  split; [vm_compute; reflexivity|].
  pose proof (s7_write_effect (fun m => m) memory_ok () s7_link s7_session (fst valve_run)
    (s7_point "valve" "DB1.DBX0.3" Ty_Boolean) valve_address (VBoolean true) (snd valve_run)) as H.
  assert (Hr : exists r, snd valve_run = Ok r) by (vm_compute; by eexists).
  destruct Hr as [r Hr]. rewrite Hr in H. apply H.
  - exact memory_net_answers.
  - reflexivity.
  - intros area db offset. vm_compute. split; [discriminate | reflexivity].
  - vm_compute. reflexivity.
  - exact I.
  - exact I.
  - rewrite <- Hr. apply surjective_pairing.
Defined.
