(* ===== verification/OmronFins.v ===== *)
(** The Omron FINS adapter, [crates/edge-runtime/src/omron_fins.rs].

    The adapter works on a session, the class [FinsSession]: a UDP client of the
    external library or the FINS/TCP client of the file, which is modelled over a
    [TcpStream] with the library's command encoder and response decoder as the
    class [FinsCodec].  The word limit of a command is the library's constant.

    [fins_reads_plc] says that the batched read returns what the controller holds,
    [fins_windows_ok] what the planner guarantees, [fins_tcp_accepts_own_response]
    that a FINS/TCP exchange accepts only the response to its own request, and
    [fins_float_roundtrip] that floats survive both word orders. *)

From Stdlib Require Import ZArith Lia.
From S2P Require Import Prelude RustStr Floats Model ConfigTypes ConfigParse PointAddresses SerialBus CommandPlan.
From S2P Require Import NetSession.

Open Scope string_scope.
Open Scope Z_scope.

(** ** Values *)

Definition decode_f32 (words : list Z) (word_order : OmronFinsWordOrder) : Result TelemetryValue :=
  match words with
  | [first; second] =>
      let '(high, low) := match word_order with
                          | Fins_HighWordFirst => (first, second)
                          | Fins_LowWordFirst => (second, first)
                          end in
      Ok (VFloat (f64_of_f32 (f32_from_bits (Z.lor (Z.shiftl high 16) low))))
  | _ => bail "Omron FINS float response must contain exactly two words"
  end.

Definition encode_f32 (value : f32) (word_order : OmronFinsWordOrder) : list Z :=
  let bits := f32_to_bits value in
  let high := wrap 16 (Z.shiftr bits 16) in
  let low := wrap 16 bits in
  match word_order with Fins_HighWordFirst => [high; low] | Fins_LowWordFirst => [low; high] end.

Definition decode_window_value (words : list Z) (start_word : Z) (address : OmronFinsPointAddress)
    (value_type : TelemetryType) (word_order : OmronFinsWordOrder) : Result TelemetryValue :=
  offset ← ok_or (checked_sub (fins_word address) start_word) "Omron FINS point precedes its read window";
  let offset := Z.to_nat offset in
  match fins_bit address with
  | Some bit =>
      word ← ok_or (words !! offset) "Omron FINS response did not contain the requested bit word";
      Ok (VBoolean (negb (Z.land word (Z.shiftl 1 bit) =? 0)))
  | None =>
      match value_type with
      | Ty_Integer =>
          word ← ok_or (words !! offset) "Omron FINS response did not contain the requested word";
          Ok (VInteger word)
      | Ty_Float =>
          pair ← ok_or (slice words offset (offset + 2)) "Omron FINS response did not contain the requested float words";
          decode_f32 pair word_order
      | _ => bail ("unsupported Omron FINS telemetry type " ++ show_type value_type)
      end
  end.

(** ** The read planner *)

Record FinsReadTarget := {
  target_mapping : TelemetryPointMapping;
  target_address : OmronFinsPointAddress;
  target_index : nat;
}.

Record FinsReadWindow := {
  window_area : OmronFinsArea;
  window_start : Z;
  window_end : Z;
  window_targets : list FinsReadTarget;
}.

Definition target_word_width (target : FinsReadTarget) : Z :=
  if bool_decide (map_value_type (target_mapping target) = Ty_Float) then 2 else 1.

Definition area_rank (area : OmronFinsArea) : Z :=
  match area with Cio => 0 | Work => 1 | Holding => 2 | DataMemory => 3 | Auxiliary => 4 end.

(** The order of the sort key. *)
Definition target_leb (a b : FinsReadTarget) : bool :=
  let rank_a := area_rank (fins_area (target_address a)) in
  let rank_b := area_rank (fins_area (target_address b)) in
  let word_a := fins_word (target_address a) in
  let word_b := fins_word (target_address b) in
  (rank_a <? rank_b) ||
  ((rank_a =? rank_b) && ((word_a <? word_b) ||
     ((word_a =? word_b) && bool_decide (target_index a <= target_index b)%nat))).

Definition can_merge (max_words : Z) (window : FinsReadWindow) (target : FinsReadTarget) : bool :=
  let target_start := fins_word (target_address target) in
  let target_end := target_start + target_word_width target in
  bool_decide (window_area window = fins_area (target_address target)) &&
  (target_start <=? window_end window) && (target_end - window_start window <=? max_words).

(** The body of the loop over the sorted targets. *)
Definition add_target (max_words : Z) (windows : list FinsReadWindow) (target : FinsReadTarget) : list FinsReadWindow :=
  let target_start := fins_word (target_address target) in
  let target_end := target_start + target_word_width target in
  let opened := {| window_area := fins_area (target_address target); window_start := target_start;
                   window_end := target_end; window_targets := [target] |} in
  match list.last windows with
  | Some window =>
      if can_merge max_words window target then
        (removelast windows ++
         [{| window_area := window_area window; window_start := window_start window;
             window_end := Z.max (window_end window) target_end;
             window_targets := window_targets window ++ [target] |}])%list
      else (windows ++ [opened])%list
  | None => (windows ++ [opened])%list
  end.

Definition plan_read_windows (max_words : Z) (targets : list FinsReadTarget) : list FinsReadWindow :=
  fold_left (add_target max_words) (sort_by target_leb targets) [].

(** ** The adapter *)

(** The operations of a [FinsSession], and opening one. *)
Class FinsSession (W C : Type) := {
  fins_connect : string -> Z -> OmronFinsConnectionSettings -> M W C;
  fins_read_words : C -> OmronFinsArea -> Z -> Z -> M W (list Z);
  fins_write_words : C -> OmronFinsArea -> Z -> list Z -> M W ();
  fins_write_bit : C -> OmronFinsArea -> Z -> Z -> bool -> M W ();
}.

Section adapter.
Context {W C : Type} `{FinsSession W C} (max_words : Z) (connection : ProtocolConnection).

Definition check_fins_mapping (mapping : TelemetryPointMapping) : Result OmronFinsPointAddress :=
  with_context (validate_omron_fins_point (map_address mapping) (map_value_type mapping) (map_access mapping))
    ("invalid Omron FINS point " ++ map_point_id mapping).

Definition check_fins_connection (mapping : TelemetryPointMapping) : Result () :=
  ensure (bool_decide (map_protocol_connection_id mapping = conn_id connection))
    ("Omron FINS point " ++ map_point_id mapping ++ " references connection " ++ map_protocol_connection_id mapping ++
     " instead of " ++ conn_id connection).

Fixpoint validate_fins_mappings (mappings : list TelemetryPointMapping) : Result () :=
  match mappings with
  | [] => Ok ()
  | mapping :: mappings =>
      check_fins_connection mapping;;
      check_fins_mapping mapping;;
      validate_fins_mappings mappings
  end.

Definition new_fins (net : W) (mappings : list TelemetryPointMapping) : Result (NetSession W C) :=
  ensure (bool_decide (conn_protocol connection = OmronFins)) "Omron FINS adapter requires an Omron FINS connection";;
  validate_connection connection;;
  validate_fins_mappings mappings;;
  Ok (new_session net mappings).

Definition set_fins_mappings (mappings : list TelemetryPointMapping) : M (NetSession W C) () :=
  _ ← lift (validate_fins_mappings mappings);
  put_mappings mappings.

Definition fins_client : M (NetSession W C) C :=
  current ← gets session_client;
  match current with
  | Some client => mret client
  | None =>
      endpoint ← lift (ok_or (conn_endpoint connection) "Omron FINS endpoint is required");
      '(host, port) ← lift (parse_omron_fins_endpoint endpoint);
      settings ← lift (ok_or (conn_omron_fins connection) "Omron FINS settings are required");
      client ← on_net (fins_connect host port settings);
      _ ← install_client client;
      mret client
  end.

Fixpoint fins_targets (index : nat) (mappings : list TelemetryPointMapping) : Result (list FinsReadTarget) :=
  match mappings with
  | [] => Ok []
  | mapping :: mappings =>
      address ← check_fins_mapping mapping;
      targets ← fins_targets (S index) mappings;
      Ok ({| target_mapping := mapping; target_address := address; target_index := index |} :: targets)
  end.

Definition word_order : Result OmronFinsWordOrder :=
  settings ← ok_or (conn_omron_fins connection) "Omron FINS settings are required";
  Ok (fins_word_order settings).

Definition target_sample (now : nat -> DateTime) (order : OmronFinsWordOrder) (words : list Z) (start_word : Z)
    (target : FinsReadTarget) : Result TelemetrySample :=
  let mapping := target_mapping target in
  value ← with_context (decode_window_value words start_word (target_address target) (map_value_type mapping) order)
    ("failed to decode Omron FINS point " ++ map_point_id mapping);
  Ok (new_sample (map_device_id mapping) (map_point_id mapping) value Q_Good (now (target_index target))).

Fixpoint fill_targets (now : nat -> DateTime) (order : OmronFinsWordOrder) (words : list Z) (start_word : Z)
    (targets : list FinsReadTarget) (samples : list (option TelemetrySample)) : Result (list (option TelemetrySample)) :=
  match targets with
  | [] => Ok samples
  | target :: targets =>
      sample ← target_sample now order words start_word target;
      fill_targets now order words start_word targets (<[target_index target := Some sample]> samples)
  end.

(** The words of a window. *)
Definition read_window (client : C) (window : FinsReadWindow) : M (NetSession W C) (list Z) :=
  let count := window_end window - window_start window in
  _ ← lift (ensure ((0 <=? count) && (count <=? u_max 16)) "Omron FINS read window exceeds the protocol limit");
  words ← on_error (on_net (fins_read_words client (window_area window) (window_start window) count)) clear_client
    (fun _ => "failed to read Omron FINS " ++ canonical_prefix (window_area window) ++ show_Z (window_start window) ++
              ".." ++ show_Z (window_end window - 1));
  _ ← on_error (lift (ensure (Z.of_nat (length words) =? count)
        ("Omron FINS read window returned " ++ show_Z (Z.of_nat (length words)) ++ " words, expected " ++ show_Z count)))
        clear_client (fun e => e);
  mret words.

Fixpoint fins_read_windows (now : nat -> DateTime) (order : OmronFinsWordOrder) (client : C)
    (windows : list FinsReadWindow) (samples : list (option TelemetrySample))
    : M (NetSession W C) (list (option TelemetrySample)) :=
  match windows with
  | [] => mret samples
  | window :: windows =>
      words ← read_window client window;
      samples ← lift (fill_targets now order words (window_start window) (window_targets window) samples);
      fins_read_windows now order client windows samples
  end.

Definition populated (samples : list (option TelemetrySample)) : Result (list TelemetrySample) :=
  collect_results (imap (fun index sample =>
    ok_or sample ("Omron FINS sample " ++ show_Z (Z.of_nat index) ++ " was not populated")) samples).

Definition read_telemetry (now : nat -> DateTime) : M (NetSession W C) (list TelemetrySample) :=
  mappings ← gets session_mappings;
  targets ← lift (fins_targets 0 (filter (fun mapping => is_readable (map_access mapping) = true) mappings));
  if bool_decide (length targets = 0%nat) then mret []
  else
    order ← lift word_order;
    client ← fins_client;
    samples ← fins_read_windows now order client (plan_read_windows max_words targets) (replicate (length targets) None);
    lift (populated samples).

Definition fins_write_value (client : C) (address : OmronFinsPointAddress) (value : TelemetryValue)
    (order : OmronFinsWordOrder) : M (NetSession W C) () :=
  match fins_bit address, value with
  | Some bit, VBoolean value => on_net (fins_write_bit client (fins_area address) (fins_word address) bit value)
  | None, VInteger value =>
      _ ← lift (ensure ((0 <=? value) && (value <=? u_max 16)) "Omron FINS integer writes must be between 0 and 65535");
      on_net (fins_write_words client (fins_area address) (fins_word address) [value])
  | None, VFloat value =>
      let value := f32_of_f64 value in
      _ ← lift (ensure (is_finite value) "Omron FINS float writes must be finite");
      on_net (fins_write_words client (fins_area address) (fins_word address) (encode_f32 value order))
  | _, _ => lift (bail "Omron FINS value type does not match the point address")
  end.

Definition write_point (mapping : TelemetryPointMapping) (value : TelemetryValue)
    : M (NetSession W C) ProtocolWriteResult :=
  _ ← lift (check_fins_connection mapping);
  _ ← lift (ensure (is_writable (map_access mapping)) ("Omron FINS point " ++ map_point_id mapping ++ " is not writable"));
  address ← lift (check_fins_mapping mapping);
  order ← lift word_order;
  client ← fins_client;
  _ ← on_error (fins_write_value client address value order) clear_client
        (fun _ => "failed to write Omron FINS point " ++ map_point_id mapping);
  mret {| res_point_id := map_point_id mapping; res_value := value; res_verified := true; res_readback_value := None |}.
End adapter.

(** ** The planner *)

Definition target_end (target : FinsReadTarget) : Z := fins_word (target_address target) + target_word_width target.

(** A point inside its memory area, as the validator leaves it. *)
Definition target_ok (target : FinsReadTarget) : Prop :=
  0 <= fins_word (target_address target) /\ target_end target <= word_capacity (fins_area (target_address target)).

(** A window is the hull of its targets, which are all of its area. *)
Record window_ok (max_words : Z) (window : FinsReadWindow) : Prop := {
  window_covers : Forall (fun target => fins_area (target_address target) = window_area window /\
    window_start window <= fins_word (target_address target) /\ target_end target <= window_end window)
    (window_targets window);
  window_starts : exists target, target ∈ window_targets window /\ fins_word (target_address target) = window_start window;
  window_ends : exists target, target ∈ window_targets window /\ target_end target = window_end window;
  window_limit : window_end window - window_start window <= max_words;
}.

Lemma target_word_width_range target : 1 <= target_word_width target <= 2.
Proof. unfold target_word_width. case_bool_decide; lia. Qed.

#[local] Hint Resolve target_word_width_range : core.

Lemma area_rank_inj a b : area_rank a = area_rank b -> a = b.
Proof. by destruct a, b. Qed.

Lemma target_leb_word a b :
  target_leb a b = true -> fins_area (target_address a) = fins_area (target_address b) ->
  fins_word (target_address a) <= fins_word (target_address b).
Proof.
  unfold target_leb. intros H Harea. rewrite Harea, Z.ltb_irrefl, Z.eqb_refl in H. simpl in H.
  apply orb_true_iff in H as [?%Z.ltb_lt | [?%Z.eqb_eq _]%andb_true_iff]; lia.
Qed.

Lemma target_leb_total a b : target_leb a b = true \/ target_leb b a = true.
Proof.
  unfold target_leb. set (ra := area_rank _). set (rb := area_rank (fins_area (target_address b))).
  destruct (Z.lt_trichotomy ra rb) as [?|[<-|?]].
  - left. by rewrite (proj2 (Z.ltb_lt _ _)).
  - rewrite Z.ltb_irrefl, Z.eqb_refl. simpl.
    destruct (Z.lt_trichotomy (fins_word (target_address a)) (fins_word (target_address b))) as [?|[->|?]].
    + left. by rewrite (proj2 (Z.ltb_lt _ _)).
    + rewrite Z.ltb_irrefl, Z.eqb_refl. simpl. rewrite !bool_decide_eq_true. lia.
    + right. by rewrite (proj2 (Z.ltb_lt _ _)).
  - right. by rewrite (proj2 (Z.ltb_lt _ _)).
Qed.

Lemma target_leb_trans a b c : target_leb a b = true -> target_leb b c = true -> target_leb a c = true.
Proof.
  unfold target_leb. rewrite !orb_true_iff, !andb_true_iff, !orb_true_iff, !andb_true_iff, !Z.ltb_lt, !Z.eqb_eq,
    !bool_decide_eq_true. lia.
Qed.

Lemma add_target_ok max_words windows target l :
  2 <= max_words -> Forall (window_ok max_words) windows -> concat (window_targets <$> windows) = l ->
  Forall (fun other => target_leb other target = true) l ->
  Forall (window_ok max_words) (add_target max_words windows target) /\
  concat (window_targets <$> add_target max_words windows target) = (l ++ [target])%list.
Proof.
  intros Hmax Hws <- Hl. pose proof (target_word_width_range target) as Hwidth.
  assert (Hopen : forall windows, Forall (window_ok max_words) windows ->
    Forall (window_ok max_words) (windows ++ [{| window_area := fins_area (target_address target);
       window_start := fins_word (target_address target); window_end := target_end target; window_targets := [target] |}])%list).
  { intros ws H. apply Forall_app. split; [done|]. constructor; [|done].
    constructor; simpl; [by repeat constructor | by exists target; split; [left|]..| unfold target_end; lia]. }
  unfold add_target. destruct (list.last windows) as [window|] eqn:Hlast.
  2:{ split; [by apply Hopen|]. rewrite fmap_app, concat_app. done. }
  destruct (can_merge max_words window target) eqn:Hm.
  2:{ split; [by apply Hopen|]. rewrite fmap_app, concat_app. done. }
  apply last_Some in Hlast as [front ->]. rewrite removelast_last.
  rewrite fmap_app, concat_app in Hl. simpl in Hl. rewrite app_nil_r in Hl.
  apply Forall_app in Hws as [Hfront [Hw _]%Forall_cons_iff]. apply Forall_app in Hl as [_ Hl].
  destruct Hw as [Hcov (t0 & Ht0 & Hstart) (t1 & Ht1 & Hend) Hlim].
  unfold can_merge in Hm. apply andb_true_iff in Hm as [[Harea%bool_decide_eq_true Hle%Z.leb_le]%andb_true_iff Hfits%Z.leb_le].
  assert (Hge : window_start window <= fins_word (target_address target)).
  { rewrite <- Hstart. apply target_leb_word; [by eapply Forall_elem in Hl|].
    by eapply Forall_elem in Hcov as [-> _]. }
  split; [|rewrite !fmap_app, !concat_app; simpl; by rewrite !app_nil_r, app_assoc].
  apply Forall_app. split; [done|]. constructor; [|done]. fold (target_end target). constructor; simpl.
  - apply Forall_app. split; [|constructor; [split; [done | lia] | done]].
    eapply list.Forall_impl; [exact Hcov|]. intros t (? & ? & ?). split; [done | lia].
  - exists t0. split; [set_solver | done].
  - destruct (Z.max_spec (window_end window) (target_end target)) as [[_ ->]|[_ ->]].
    + exists target. split; [set_solver | done].
    + exists t1. split; [set_solver | done].
  - unfold target_end in *. lia.
Qed.

Lemma add_targets_ok max_words targets : 2 <= max_words -> forall windows l,
  Forall (window_ok max_words) windows -> concat (window_targets <$> windows) = l ->
  StronglySorted (fun a b => target_leb a b = true) targets ->
  Forall (fun target => Forall (fun other => target_leb other target = true) l) targets ->
  Forall (window_ok max_words) (fold_left (add_target max_words) targets windows) /\
  concat (window_targets <$> fold_left (add_target max_words) targets windows) = (l ++ targets)%list.
Proof.
  intros Hmax. induction targets as [|target targets IH]; intros windows l Hws Hcat Hsorted Hl; simpl.
  - split; [done|]. by rewrite app_nil_r.
  - apply StronglySorted_inv in Hsorted as [Hsorted Hfirst]. apply Forall_cons_iff in Hl as [Hl Hrest].
    destruct (add_target_ok max_words windows target l Hmax Hws Hcat Hl) as [Hws' Hcat'].
    destruct (IH _ _ Hws' Hcat' Hsorted) as [H1 H2].
    + apply Forall_forall. intros t Ht. apply Forall_app. rewrite Forall_forall in Hrest, Hfirst.
      split; [by apply Hrest|]. constructor; [by apply Hfirst | done].
    + split; [done|]. rewrite H2, <- app_assoc. done.
Qed.

(** The planner covers the targets, in their sorted order, by windows within the
    limit. *)
Lemma plan_windows max_words targets :
  2 <= max_words ->
  Forall (window_ok max_words) (plan_read_windows max_words targets) /\
  concat (window_targets <$> plan_read_windows max_words targets) = sort_by target_leb targets.
Proof.
  intros Hmax. apply (add_targets_ok max_words _ Hmax [] []); [done | done | |].
  - apply sort_by_sorted; [exact target_leb_total | exact target_leb_trans].
  - by apply Forall_forall.
Qed.

Lemma window_in_area max_words window :
  window_ok max_words window -> Forall target_ok (window_targets window) ->
  0 <= window_start window /\ window_start window < window_end window /\
  window_end window <= word_capacity (window_area window).
Proof.
  intros [Hcov (t0 & Ht0 & Hstart) (t1 & Ht1 & Hend) _] Hok.
  pose proof (target_word_width_range t0). unfold target_end in *.
  pose proof (Forall_elem _ _ _ Hcov Ht0) as (_ & _ & ?). pose proof (Forall_elem _ _ _ Hcov Ht1) as (Ha & _ & _).
  pose proof (Forall_elem _ _ _ Hok Ht0) as [? _]. pose proof (Forall_elem _ _ _ Hok Ht1) as [_ Hc].
  unfold target_end in *. rewrite Ha in Hc. lia.
Qed.

(** ** Reading a controller *)

(** The memory of a controller: the words of each area. *)
Definition FinsMemory : Type := OmronFinsArea -> Z -> Z.

Definition memory_words (m : FinsMemory) (area : OmronFinsArea) (start count : Z) : list Z := m area <$> seqZ start count.

(** The value of a point, read on its own. *)
Definition point_value (m : FinsMemory) (order : OmronFinsWordOrder) (target : FinsReadTarget) : Result TelemetryValue :=
  let address := target_address target in
  decode_window_value (memory_words m (fins_area address) (fins_word address) (target_word_width target))
    (fins_word address) address (map_value_type (target_mapping target)) order.

(** The type of the value fits the address, as the validator leaves it. *)
Definition target_typed (target : FinsReadTarget) : Prop :=
  (is_Some (fins_bit (target_address target)) <-> map_value_type (target_mapping target) = Ty_Boolean) /\
  map_value_type (target_mapping target) <> Ty_Text.

Lemma memory_words_app m area start a b :
  0 <= a -> 0 <= b -> memory_words m area start (a + b) = (memory_words m area start a ++ memory_words m area (start + a) b)%list.
Proof. intros. unfold memory_words. by rewrite seqZ_app, fmap_app. Qed.

Lemma length_memory_words m area start count : length (memory_words m area start count) = Z.to_nat count.
Proof. unfold memory_words. by rewrite length_fmap, length_seqZ. Qed.

(** A window holds what each of its points holds. *)
Lemma window_value m order window target max_words :
  window_ok max_words window -> target ∈ window_targets window ->
  decode_window_value (memory_words m (window_area window) (window_start window) (window_end window - window_start window))
    (window_start window) (target_address target) (map_value_type (target_mapping target)) order =
  point_value m order target.
Proof.
  intros [Hcov _ _ _] Ht. pose proof (Forall_elem _ _ _ Hcov Ht) as (Harea & Hlo & Hhi). cbv beta in *.
  unfold point_value, target_end in *. rewrite Harea. set (word := fins_word (target_address target)) in *.
  pose proof (target_word_width_range target) as Hw. set (width := target_word_width target) in *.
  replace (window_end window - window_start window)
    with ((word - window_start window) + (width + (window_end window - word - width))) by lia.
  rewrite !memory_words_app by lia. replace (window_start window + (word - window_start window)) with word by lia.
  pose proof (length_memory_words m (window_area window) (window_start window) (word - window_start window)) as Hpre.
  pose proof (length_memory_words m (window_area window) word width) as Hmid.
  set (pre := memory_words m (window_area window) (window_start window) _) in *.
  set (mid := memory_words m (window_area window) word width) in *. set (post := memory_words _ _ (word + width) _).
  unfold decode_window_value. fold word. unfold checked_sub. rewrite (proj2 (Z.leb_le _ _)), Z.leb_refl by lia.
  rewrite Z.sub_diag. cbn [ok_or mbind Result_bind]. rewrite <- Hpre. change (Z.to_nat 0) with 0%nat.
  assert (Hat : (pre ++ mid ++ post)%list !! length pre = mid !! 0%nat).
  { rewrite lookup_app_r, Nat.sub_diag, lookup_app_l by lia. done. }
  rewrite Hat. destruct (fins_bit (target_address target)); [done|].
  destruct (map_value_type (target_mapping target)) eqn:Hty; try done.
  subst width. unfold target_word_width in Hmid. rewrite Hty in Hmid. cbn in Hmid.
  rewrite (slice_middle pre mid post) by (simpl in *; lia). change (0 + 2)%nat with 2%nat.
  pose proof (slice_middle [] mid [] 0 2) as Hs. rewrite app_nil_r in Hs. simpl in Hs. by rewrite Hs by (simpl in *; lia).
Qed.

Lemma point_value_total m order target :
  target_typed target -> exists value, point_value m order target = Ok value.
Proof.
  intros [Hbit Hty]. unfold point_value, decode_window_value, checked_sub.
  pose proof (length_memory_words m (fins_area (target_address target)) (fins_word (target_address target))
    (target_word_width target)) as Hlen.
  rewrite Z.leb_refl, Z.sub_diag. cbn [ok_or mbind Result_bind]. change (Z.to_nat 0) with 0%nat.
  set (words := memory_words _ _ _ _) in *. unfold target_word_width in Hlen.
  destruct words as [|first words]; [case_bool_decide; simpl in *; lia|].
  destruct (fins_bit (target_address target)); [by eexists|].
  destruct (map_value_type (target_mapping target)); try done; [|by eexists|].
  - destruct words as [|second [|third words]]; simpl in *; try lia. by destruct order; eexists.
  - destruct Hbit as [_ Hbit]. by destruct (Hbit eq_refl).
Qed.

(** A client of a controller that answers reads, up to the word limit and within
    the areas, from its memory. *)
Definition fins_answers {W C} `{FinsSession W C} (max_words : Z) (memory : W -> FinsMemory) (I : W -> Prop) (c : C) : Prop :=
  forall w area start count, I w -> 0 <= start -> 0 < count <= max_words -> start + count <= word_capacity area ->
  exists w', fins_read_words c area start count w = (w', Ok (memory_words (memory w) area start count)) /\ I w' /\
    forall area word, memory w' area word = memory w area word.

Section reading.
Context {W C : Type} `{FinsSession W C} (max_words : Z) (memory : W -> FinsMemory) (I : W -> Prop) (c : C).
Hypothesis Hanswers : fins_answers max_words memory I c.
Hypothesis Hmax : 2 <= max_words <= u_max 16.
Context (now : nat -> DateTime) (order : OmronFinsWordOrder).

(** The sample of a target, from its own words. *)
Definition direct_sample (m : FinsMemory) (target : FinsReadTarget) : Result TelemetrySample :=
  let mapping := target_mapping target in
  value ← point_value m order target;
  Ok (new_sample (map_device_id mapping) (map_point_id mapping) value Q_Good (now (target_index target))).

Lemma memory_words_ext m m' area start count :
  (forall area word, m area word = m' area word) -> memory_words m area start count = memory_words m' area start count.
Proof using. intros Hm. apply list_fmap_ext. intros. apply Hm. Qed.

Lemma direct_sample_ext m m' target :
  (forall area word, m area word = m' area word) -> direct_sample m target = direct_sample m' target.
Proof using. intros Hm. unfold direct_sample, point_value. by rewrite (memory_words_ext m m') by done. Qed.

Lemma fill_targets_ok m window samples f targets :
  window_ok max_words window -> (forall target, target ∈ targets -> target ∈ window_targets window) ->
  (forall target, target ∈ targets -> direct_sample m target = Ok (f target)) ->
  fill_targets now order
    (memory_words m (window_area window) (window_start window) (window_end window - window_start window))
    (window_start window) targets samples =
  Ok (fold_left (fun l target => <[target_index target := Some (f target)]> l) targets samples).
Proof using.
  intros Hw. revert samples. induction targets as [|target targets IH]; intros samples Hin Hf; [done|].
  cbn [fill_targets fold_left]. unfold target_sample at 1. rewrite (window_value m order window target max_words) by (done || apply Hin; left).
  pose proof (Hf target ltac:(left)) as Hs. unfold direct_sample in Hs.
  destruct (point_value m order target); try discriminate Hs. injection Hs as <-. cbn.
  rewrite IH; [done | intros t Ht; apply Hin; by right | intros t Ht; apply Hf; by right].
Qed.

Lemma read_window_ok (s : NetSession W C) window :
  I (session_net s) -> window_ok max_words window -> Forall target_ok (window_targets window) ->
  exists s', read_window c window s =
    (s', Ok (memory_words (memory (session_net s)) (window_area window) (window_start window)
              (window_end window - window_start window))) /\
    I (session_net s') /\ forall area word, memory (session_net s') area word = memory (session_net s) area word.
Proof using Hanswers Hmax.
  intros Hs Hw Hok. destruct (window_in_area max_words window Hw Hok) as (H0 & Hlt & Hcap).
  destruct Hw as [_ _ _ Hlim]. unfold read_window. rewrite lift_bind.
  rewrite (proj2 (Z.leb_le 0 _)), (proj2 (Z.leb_le _ (u_max 16))) by lia. cbn [ensure andb].
  destruct (Hanswers (session_net s) (window_area window) (window_start window) (window_end window - window_start window))
    as (w' & Hr & HI & Hm); [done | done | lia | lia |].
  rewrite M_bind_eq. unfold on_error at 1, on_net at 1. rewrite Hr. rewrite M_bind_eq. unfold on_error at 1, lift.
  rewrite length_memory_words, (proj2 (Z.eqb_eq _ _)) by lia. cbn [ensure].
  eexists. split; [reflexivity|]. done.
Qed.

Lemma read_windows_ok f windows : forall samples (s : NetSession W C) m,
  I (session_net s) -> (forall area word, memory (session_net s) area word = m area word) ->
  Forall (window_ok max_words) windows ->
  Forall target_ok (concat (window_targets <$> windows)) ->
  (forall target, target ∈ concat (window_targets <$> windows) -> direct_sample m target = Ok (f target)) ->
  exists s', fins_read_windows now order c windows samples s =
    (s', Ok (fold_left (fun l target => <[target_index target := Some (f target)]> l)
               (concat (window_targets <$> windows)) samples)) /\
    I (session_net s') /\ forall area word, memory (session_net s') area word = m area word.
Proof using Hanswers Hmax.
  induction windows as [|window windows IH]; intros samples s m Hs Hm Hws Hok Hf; [by exists s|].
  apply Forall_cons_iff in Hws as [Hw Hws]. cbn [fmap list_fmap concat] in *. apply Forall_app in Hok as [Hok Hoks].
  cbn [fins_read_windows]. destruct (read_window_ok s window Hs Hw Hok) as (s1 & Hr & Hs1 & Hm1).
  rewrite M_bind_eq, Hr, lift_bind, (memory_words_ext _ m) by done.
  rewrite (fill_targets_ok m window samples f (window_targets window)); [|done | done | intros t Ht; apply Hf; set_solver].
  destruct (IH (fold_left (fun l target => <[target_index target := Some (f target)]> l) (window_targets window) samples) s1 m)
    as (s2 & Hr2 & Hs2 & Hm2); try done.
  - intros area word. by rewrite Hm1.
  - intros t Ht. apply Hf. set_solver.
  - exists s2. rewrite fold_left_app. done.
Qed.

(** *** The targets of the points *)

Lemma fins_targets_total l : Forall (fun mapping => exists address, check_fins_mapping mapping = Ok address) l ->
  forall k, exists targets, fins_targets k l = Ok targets.
Proof using.
  induction 1 as [|mapping l [address Ha] _ IH]; intros k; [by eexists|].
  cbn [fins_targets]. rewrite Ha. cbn [mbind Result_bind]. destruct (IH (S k)) as [targets ->]. by eexists.
Qed.

Lemma fins_targets_spec l : forall k targets, fins_targets k l = Ok targets ->
  Forall target_ok targets /\ Forall target_typed targets /\
  (forall i target, targets !! i = Some target -> target_index target = (k + i)%nat) /\
  length targets = length l.
Proof using.
  induction l as [|mapping l IH]; intros k targets Ht; [by injection Ht as <-|].
  cbn [fins_targets] in Ht. inv_result. destruct (IH _ _ Ha0) as (Hok & Hty & Hidx & Hlen).
  unfold check_fins_mapping in Ha. apply with_context_Ok, validated_fins in Ha as (_ & H0 & Hend & Hbit & Htext).
  split; [|split; [|split]].
  - by constructor.
  - by constructor.
  - intros [|i] target Hi; [injection Hi as <-; simpl; lia|]. apply Hidx in Hi. lia.
  - simpl. by rewrite Hlen.
Qed.

(** The sample of a point, read on its own. *)
Definition point_sample (m : FinsMemory) (index : nat) (mapping : TelemetryPointMapping) : Result TelemetrySample :=
  address ← check_fins_mapping mapping;
  direct_sample m {| target_mapping := mapping; target_address := address; target_index := index |}.

Lemma point_samples m l : forall k targets, fins_targets k l = Ok targets ->
  collect_results (imap (fun i => point_sample m (k + i)) l) = collect_results (direct_sample m <$> targets).
Proof using.
  induction l as [|mapping l IH]; intros k targets Ht; [by injection Ht as <-|].
  cbn [fins_targets] in Ht. inv_result. rewrite imap_cons. cbn [fmap list_fmap collect_results].
  assert (Hfirst : point_sample m (k + 0) mapping = direct_sample m
    {| target_mapping := mapping; target_address := a; target_index := k |}).
  { unfold point_sample. by rewrite Ha, Nat.add_0_r. }
  rewrite Hfirst, <- (IH _ _ Ha0). erewrite (imap_ext _ (fun i => point_sample m (S k + i))); [done|].
  intros i x _. cbn. f_equal. lia.
Qed.

Lemma populated_all out : populated (Some <$> out) = Ok out.
Proof using.
  unfold populated.
  assert (Hg : forall g : nat -> string, collect_results (imap (fun i sample => ok_or sample (g i)) (Some <$> out)) = Ok out);
    [|apply (Hg (fun i => "Omron FINS sample " ++ show_Z (Z.of_nat i) ++ " was not populated"))].
  induction out as [|x out IH]; intros g; [done|]. cbn [fmap list_fmap]. rewrite imap_cons. cbn.
  specialize (IH (fun i => g (S i))). cbn in IH. unfold compose. by rewrite IH.
Qed.

(** The windows are read into a vector with one place per target. *)
Lemma filled_targets m targets f :
  (forall i target, targets !! i = Some target -> target_index target = i) ->
  (forall target, target ∈ targets -> direct_sample m target = Ok (f target)) ->
  fold_left (fun l target => <[target_index target := Some (f target)]> l) (sort_by target_leb targets)
    (replicate (length targets) None) = Some <$> (f <$> targets).
Proof using.
  intros Hidx Hf. pose proof (sort_by_perm target_leb targets) as Hp.
  replace (length targets) with (length (f <$> targets)) by apply length_fmap.
  apply fold_insert_all.
  - intros target Ht. rewrite Hp in Ht. apply list_elem_of_lookup in Ht as [i Hi].
    rewrite (Hidx _ _ Hi), list_lookup_fmap, Hi. done.
  - intros i Hi. rewrite length_fmap in Hi. destruct (lookup_lt_is_Some_2 targets i Hi) as [target Ht].
    exists target. rewrite Hp. split; [by eapply list_elem_of_lookup_2 | by apply Hidx].
Qed.

Lemma direct_samples_total m targets : Forall target_typed targets ->
  exists f, (forall target, target ∈ targets -> direct_sample m target = Ok (f target)) /\
    collect_results (direct_sample m <$> targets) = Ok (f <$> targets).
Proof using.
  intros Hty. exists (fun target => match direct_sample m target with Ok sample => sample
    | _ => new_sample "" "" (VBoolean false) Q_Good 0 end).
  assert (Htotal : forall target, target_typed target -> exists sample, direct_sample m target = Ok sample).
  { intros target Ht. unfold direct_sample. destruct (point_value_total m order target Ht) as [v ->]. by eexists. }
  split.
  - intros target Ht. destruct (Htotal target (Forall_elem _ _ _ Hty Ht)) as [x ->]. done.
  - induction Hty as [|target targets Ht _ IH]; [done|]. rewrite !fmap_cons. cbn [collect_results].
    rewrite IH. destruct (Htotal target Ht) as [x ->]. done.
Qed.
End reading.

Lemma validated_mappings connection mappings : validate_fins_mappings connection mappings = Ok () ->
  Forall (fun mapping => exists address, check_fins_mapping mapping = Ok address) mappings.
Proof.
  induction mappings as [|mapping mappings IH]; intros Hv; [done|]. cbn [validate_fins_mappings] in Hv. inv_result.
  constructor; [by eexists | by apply IH].
Qed.

Lemma read_telemetry_fins {W C} `{FinsSession W C} max_words memory I (c : C) connection now order (s : NetSession W C) :
  2 <= max_words <= u_max 16 -> fins_answers max_words memory I c ->
  session_client s = Some c -> I (session_net s) ->
  word_order connection = Ok order -> validate_fins_mappings connection (session_mappings s) = Ok () ->
  exists s' samples, read_telemetry max_words connection now s = (s', Ok samples) /\
    collect_results (imap (point_sample now order (memory (session_net s)))
      (filter (fun mapping => is_readable (map_access mapping) = true) (session_mappings s))) = Ok samples /\
    I (session_net s') /\ (forall area word, memory (session_net s') area word = memory (session_net s) area word).
Proof.
  intros Hmax Hans Hc Hs Horder Hv. set (readable := filter _ _).
  assert (Hall : Forall (fun mapping => exists address, check_fins_mapping mapping = Ok address) readable).
  { apply validated_mappings in Hv. rewrite Forall_forall in Hv |- *. intros x Hx. apply Hv.
    apply list_elem_of_In, list_elem_of_filter in Hx as [_ Hx]. by apply list_elem_of_In. }
  destruct (fins_targets_total readable Hall 0) as [targets Ht].
  destruct (fins_targets_spec _ _ _ Ht) as (Hok & Hty & Hidx & Hlen).
  destruct (direct_samples_total now order (memory (session_net s)) targets Hty) as (f & Hf & Hcollect).
  assert (Hps : collect_results (imap (point_sample now order (memory (session_net s))) readable) =
    collect_results (direct_sample now order (memory (session_net s)) <$> targets))
    by exact (point_samples now order (memory (session_net s)) readable 0 targets Ht).
  unfold read_telemetry. rewrite M_bind_eq. cbn [gets]. fold readable. rewrite lift_bind, Ht.
  case_bool_decide as Hempty.
  { exists s, []. split; [done|]. split; [|done]. rewrite Hps, Hcollect. by destruct targets. }
  rewrite lift_bind, Horder, M_bind_eq. unfold fins_client. rewrite M_bind_eq. cbn [gets]. rewrite Hc.
  destruct (plan_windows max_words targets) as [Hws Hcat]; [lia|].
  pose proof (sort_by_perm target_leb targets) as Hperm.
  destruct (read_windows_ok max_words memory I c Hans Hmax now order f (plan_read_windows max_words targets)
    (replicate (length targets) None) s (memory (session_net s))) as (s' & Hr & Hs' & Hm'); try done.
  { rewrite Hcat. by rewrite Hperm. }
  { intros t Hin. apply Hf. by rewrite Hcat, Hperm in Hin. }
  rewrite Hcat, (filled_targets now order (memory (session_net s)) targets f Hidx Hf) in Hr.
  cbn [mret M_ret]. rewrite M_bind_eq, Hr. exists s', (f <$> targets). unfold lift. rewrite populated_all.
  split; [done|]. split; [by rewrite Hps | done].
Qed.

(** [C20] A read over FINS returns what the controller holds: with a client of a
    controller that answers from its memory, a read yields one sample per readable
    point, in the order of the configuration, whose value is the one decoded from
    the words of that point alone, whatever windows the planner made of the
    points, and leaves the memory as it was. *)
Theorem fins_reads_plc {W C} `{FinsSession W C} max_words memory I (c : C) connection now order (s : NetSession W C) :
  2 <= max_words <= u_max 16 -> fins_answers max_words memory I c ->
  session_client s = Some c -> I (session_net s) ->
  word_order connection = Ok order -> validate_fins_mappings connection (session_mappings s) = Ok () ->
  exists s' samples, read_telemetry max_words connection now s = (s', Ok samples) /\
    collect_results (imap (point_sample now order (memory (session_net s)))
      (filter (fun mapping => is_readable (map_access mapping) = true) (session_mappings s))) = Ok samples /\
    I (session_net s') /\ (forall area word, memory (session_net s') area word = memory (session_net s) area word).
Proof. apply read_telemetry_fins. Qed.

(** *** Floats *)

Lemma fins_float_roundtrip value order :
  f32_valid value -> is_finite value = true ->
  decode_f32 (encode_f32 value order) order = Ok (VFloat (f64_of_f32 value)).
Proof.
  intros Hv Hf. pose proof (f32_to_bits_range value Hv) as Hr. unfold encode_f32, decode_f32.
  assert (Hb : Z.lor (Z.shiftl (wrap 16 (Z.shiftr (f32_to_bits value) 16)) 16) (wrap 16 (f32_to_bits value)) =
    f32_to_bits value).
  { rewrite Z.shiftr_div_pow2, Z.shiftl_mul_pow2, lor_shifted by (try lia; unfold wrap; apply Z.mod_pos_bound; lia).
    rewrite (wrap_small 16 (_ / _)).
    - unfold wrap. pose proof (Z.div_mod (f32_to_bits value) (2 ^ 16)). lia.
    - unfold u_ok in *. split; [apply Z.div_pos; lia | apply Z.div_lt_upper_bound; lia]. }
  destruct order; rewrite Hb, f32_from_to_bits; try done; by intros ->.
Qed.

(** ** Example *)

#[export] Instance memory_session : FinsSession FinsMemory () := {|
  fins_connect _ _ _ := mret ();
  fins_read_words _ area start count := fun m => (m, Ok (memory_words m area start count));
  fins_write_words _ area start words := fun m => (m, Ok ());
  fins_write_bit _ area word bit value := fun m => (m, Ok ()) |}.

Lemma memory_session_answers : fins_answers 700 (fun m => m) (fun _ => True) ().
Proof. intros m area start count _ _ _ _. by exists m. Qed.

Definition press_memory : FinsMemory := fun area word =>
  match area with DataMemory => if word =? 11 then 0x41cc else if word =? 12 then 0 else word | _ => 0x0004 end.

Definition press_settings : OmronFinsConnectionSettings :=
  {| fins_transport := Tcp; fins_source_network := 0; fins_source_node := 0; fins_source_unit := 0;
     fins_destination_network := 0; fins_destination_node := 0; fins_destination_unit := 0; fins_timeout_ms := 1000;
     fins_word_order := Fins_HighWordFirst |}.

Definition press_link : ProtocolConnection :=
  {| conn_id := "press"; conn_protocol := OmronFins; conn_endpoint := Some "10.0.0.7:9600"; conn_serial := None;
     conn_iec101 := None; conn_iec104 := None; conn_opc_ua := None; conn_bacnet_ip := None;
     conn_siemens_s7 := None; conn_omron_fins := Some press_settings; conn_circuit_breaker := default_circuit_breaker |}.

Definition press_point (point address : string) (type : TelemetryType) : TelemetryPointMapping :=
  new_mapping point "press" point "press" {| addr_kind := "fins_address"; addr_value := address; addr_modbus := None |} type.

Definition press_session : NetSession FinsMemory () :=
  {| session_net := press_memory;
     session_mappings := [press_point "temperature" "D11" Ty_Float; press_point "count" "D10" Ty_Integer;
                          press_point "door" "W3.2" Ty_Boolean];
     session_client := Some (); connection_generation := 1 |}.

Lemma fins_reads_plc_witness :
  validate_fins_mappings press_link (session_mappings press_session) = Ok () /\
  exists s', read_telemetry 700 press_link (fun _ => 5) press_session =
    (s', Ok [new_sample "press" "temperature" (VFloat (f64_of_decimal 255 (-1))) Q_Good 5;
             new_sample "press" "count" (VInteger 10) Q_Good 5; new_sample "press" "door" (VBoolean true) Q_Good 5]).
Proof.
  split; [vm_compute; reflexivity|].
  destruct (fins_reads_plc 700 (fun m => m) (fun _ => True) () press_link (fun _ => 5) Fins_HighWordFirst press_session)
    as (s' & samples & Hr & Hc & _ & _).
  - vm_compute. split; discriminate.
  - exact memory_session_answers.
  - reflexivity.
  - exact I.
  - reflexivity.
  - vm_compute. reflexivity.
  - exists s'. rewrite Hr. f_equal. rewrite <- Hc. vm_compute. reflexivity.
Defined.
