(* ===== verification/FinsTcp.v ===== *)
(** The FINS/TCP client of [crates/edge-runtime/src/omron_fins.rs]: its frames, the
    node address handshake, the service identifiers and the exchange of a command.

    The encoder of the commands and the decoder of the responses belong to the
    library [omron_fins] and are the class [FinsCodec]; the errors of the stream
    carry the context the client gives them.

    [fins_tcp_answers] says that the client over a stream to a controller is a
    session the theorems of [OmronFins] hold of, [fins_tcp_accepts_own_response]
    that an exchange accepts only the response to its own request. *)

From Stdlib Require Import ZArith Lia.
From S2P Require Import Prelude RustStr Floats Model ConfigTypes ConfigParse PointAddresses NetSession OmronFins.

Open Scope string_scope.
Open Scope Z_scope.

(** ** Frames *)

Definition FINS_TCP_MAGIC : bytes := str_bytes "FINS".
Definition FINS_TCP_NODE_ADDRESS_REQUEST : Z := 0.
Definition FINS_TCP_NODE_ADDRESS_RESPONSE : Z := 1.
Definition FINS_TCP_FRAME_SEND : Z := 2.
Definition FINS_TCP_FRAME_RESPONSE : Z := 3.
Definition MAX_FINS_TCP_BODY_SIZE : Z := 1048576.

Definition tcp_node_from_payload (payload : bytes) (role : string) : Result Z :=
  ensure (bool_decide (length payload = 4%nat)) ("Omron FINS/TCP " ++ role ++ " node address must contain 4 bytes");;
  let node := wrap 8 (from_be_bytes payload) in
  ensure (negb ((node =? 0) || (node =? u_max 8))) ("Omron FINS/TCP assigned invalid " ++ role ++ " node " ++ show_Z node);;
  Ok node.

(** [{:0n$x}]. *)
Definition show_hex_lower (n : nat) (x : Z) : string := str_to_ascii_lowercase (show_hex n x).

(** ** The client *)

(** The library: node addresses, memory areas, commands and responses. *)
Class FinsCodec (Node Area Response : Type) := {
  node_local : Node;
  node_new : Z -> Z -> Z -> Node;
  area_CIO : Area;
  area_WR : Area;
  area_HR : Area;
  area_DM : Area;
  area_AR : Area;
  read_word_command : Node -> Node -> Z -> Area -> Z -> Z -> Result bytes;
  write_word_command : Node -> Node -> Z -> Area -> Z -> list Z -> Result bytes;
  write_bit_command : Node -> Node -> Z -> Area -> Z -> Z -> bool -> Result bytes;
  response_from_bytes : bytes -> Result Response;
  check_sid : Response -> Z -> Result ();
  check_error : Response -> Result ();
  response_mrc : Response -> Z;
  response_src : Response -> Z;
  to_words : Response -> Result (list Z);
}.

Record FinsTcpClient (T Node : Type) := {
  fins_stream : T;
  fins_source : Node;
  fins_destination : Node;
  next_sid : Z;
}.
Arguments fins_stream {T Node} _.
Arguments fins_source {T Node} _.
Arguments fins_destination {T Node} _.
Arguments next_sid {T Node} _.

Section client.
Context {T Node Area Response : Type} `{TcpStream T} `{FinsCodec Node Area Response}.
Abbreviation Client := (FinsTcpClient T Node).

Definition memory_area (area : OmronFinsArea) : Area :=
  match area with Cio => area_CIO | Work => area_WR | Holding => area_HR | DataMemory => area_DM | Auxiliary => area_AR end.

(** An operation of the stream. *)
Definition on_stream {A} (call : M T A) : M Client A := fun s =>
  let '(stream, r) := call (fins_stream s) in
  ({| fins_stream := stream; fins_source := fins_source s; fins_destination := fins_destination s;
      next_sid := next_sid s |}, r).

(** [client.source = ..] and [client.destination = ..]. *)
Definition set_nodes (source destination : Node) : M Client () :=
  modify (fun s => {| fins_stream := fins_stream s; fins_source := source; fins_destination := destination;
                      next_sid := next_sid s |}).

Definition take_sid : M Client Z := fun s =>
  ({| fins_stream := fins_stream s; fins_source := fins_source s; fins_destination := fins_destination s;
      next_sid := wrap 8 (next_sid s + 1) |}, Ok (next_sid s)).

Definition fins_frame (command error : Z) (payload : bytes) : bytes :=
  (FINS_TCP_MAGIC ++ to_be_bytes 4 (Z.of_nat (length payload) + 8) ++ to_be_bytes 4 command ++ to_be_bytes 4 error
   ++ payload)%list.

Definition write_frame (command error : Z) (payload : bytes) : M Client () :=
  _ ← lift (ensure (Z.of_nat (length payload) + 8 <=? u_max 32) "Omron FINS/TCP frame is too large");
  on_stream (tcp_write_all (fins_frame command error payload)).

Definition read_frame (operation : string) : M Client (Z * Z * bytes) :=
  prefix ← on_stream (tcp_read_exact 8);
  _ ← lift (ensure (bool_decide (take 4 prefix = FINS_TCP_MAGIC))
        ("Omron FINS/TCP " ++ operation ++ " has invalid magic bytes"));
  let body_length := from_be_bytes (take 4 (drop 4 prefix)) in
  _ ← lift (ensure ((8 <=? body_length) && (body_length <=? MAX_FINS_TCP_BODY_SIZE))
        ("Omron FINS/TCP " ++ operation ++ " body length " ++ show_Z body_length ++ " is outside 8..=" ++
         show_Z MAX_FINS_TCP_BODY_SIZE));
  body ← on_stream (tcp_read_exact (Z.to_nat body_length));
  mret (from_be_bytes (take 4 body), from_be_bytes (take 4 (drop 4 body)), drop 8 body).

Definition connect (host : string) (port : Z) (settings : OmronFinsConnectionSettings) : M Client () :=
  _ ← on_stream (tcp_connect (host ++ ":" ++ show_Z port));
  _ ← modify (fun s => {| fins_stream := fins_stream s; fins_source := node_local; fins_destination := node_local;
                          next_sid := 1 |});
  _ ← write_frame FINS_TCP_NODE_ADDRESS_REQUEST 0 (to_be_bytes 4 (fins_source_node settings));
  '(command, error, payload) ← read_frame "node-address response";
  _ ← lift (ensure (command =? FINS_TCP_NODE_ADDRESS_RESPONSE)
        ("Omron FINS/TCP node-address response used command " ++ show_Z command ++ ", expected " ++
         show_Z FINS_TCP_NODE_ADDRESS_RESPONSE));
  _ ← lift (ensure (error =? 0) ("Omron FINS/TCP node-address handshake failed with error 0x" ++ show_hex_lower 8 error));
  _ ← lift (ensure (bool_decide (length payload = 8%nat))
        ("Omron FINS/TCP node-address response must contain 8 bytes, got " ++ show_Z (Z.of_nat (length payload))));
  assigned_source ← lift (tcp_node_from_payload (take 4 payload) "client");
  assigned_destination ← lift (tcp_node_from_payload (drop 4 payload) "server");
  set_nodes
    (node_new (fins_source_network settings)
       (if fins_source_node settings =? 0 then assigned_source else fins_source_node settings)
       (fins_source_unit settings))
    (node_new (fins_destination_network settings)
       (if fins_destination_node settings =? 0 then assigned_destination else fins_destination_node settings)
       (fins_destination_unit settings)).

(** The checks on a response frame to the request with the given bytes. *)
Definition check_response (sid : Z) (expected_command : bytes) (frame : Z * Z * bytes) : Result Response :=
  let '(command, error, payload) := frame in
  ensure (command =? FINS_TCP_FRAME_RESPONSE)
    ("Omron FINS/TCP response used command " ++ show_Z command ++ ", expected " ++ show_Z FINS_TCP_FRAME_RESPONSE);;
  ensure (error =? 0) ("Omron FINS/TCP command failed with error 0x" ++ show_hex_lower 8 error);;
  response ← response_from_bytes payload;
  check_sid response sid;;
  check_error response;;
  ensure (bool_decide ([response_mrc response; response_src response] = expected_command))
    ("Omron FINS/TCP response command " ++ show_hex_lower 2 (response_mrc response) ++ show_hex_lower 2 (response_src response) ++
     " does not match request " ++ show_hex_lower 2 (byte_at expected_command 0) ++ show_hex_lower 2 (byte_at expected_command 1));;
  Ok response.

Definition execute (fins_frame : bytes) (sid : Z) : M Client Response :=
  expected_command ← lift (ok_or (slice fins_frame 10 12) "Omron FINS command frame is too short");
  _ ← write_frame FINS_TCP_FRAME_SEND 0 fins_frame;
  frame ← read_frame "command response";
  lift (check_response sid expected_command frame).

Definition tcp_read_words (area : OmronFinsArea) (start_word count : Z) : M Client (list Z) :=
  sid ← take_sid;
  s ← gets (fun s => s);
  command ← lift (read_word_command (fins_destination s) (fins_source s) sid (memory_area area) start_word count);
  response ← execute command sid;
  lift (to_words response).

Definition tcp_write_words (area : OmronFinsArea) (start_word : Z) (words : list Z) : M Client () :=
  sid ← take_sid;
  s ← gets (fun s => s);
  command ← lift (write_word_command (fins_destination s) (fins_source s) sid (memory_area area) start_word words);
  _ ← execute command sid;
  mret ().

Definition tcp_write_bit (area : OmronFinsArea) (word bit : Z) (value : bool) : M Client () :=
  sid ← take_sid;
  s ← gets (fun s => s);
  command ← lift (write_bit_command (fins_destination s) (fins_source s) sid (memory_area area) word bit value);
  _ ← execute command sid;
  mret ().

(** The TCP variant of a [FinsSession]: the client is shared behind its lock. *)
#[export] Instance tcp_session : FinsSession Client () := {|
  fins_connect := connect;
  fins_read_words _ := tcp_read_words;
  fins_write_words _ := tcp_write_words;
  fins_write_bit _ := tcp_write_bit;
|}.
End client.

(** ** Exchanges *)

Section exchanges.
Context {T Node Area Response : Type} `{TcpStream T} `{FinsCodec Node Area Response}.
Abbreviation Client := (FinsTcpClient T Node).

Lemma execute_keeps_sid (s s' : Client) request sid response :
  execute request sid s = (s', Ok response) -> next_sid s' = next_sid s.
Proof.
  assert (Hon : forall A (call : M T A) (a a' : Client) r, on_stream call a = (a', r) -> next_sid a' = next_sid a).
  { intros A call a a' r. unfold on_stream. destruct (call (fins_stream a)). by intros [= <- _]. }
  unfold execute. rewrite lift_bind. destruct (ok_or _ _); [|done..].
  intros (s1 & [] & Hw & (s2 & frame & Hr & Hc)%M_bind_Ok)%M_bind_Ok. unfold lift in Hc. injection Hc as <- _.
  unfold write_frame in Hw. rewrite lift_bind in Hw. destruct (ensure _ _); [|done..]. apply Hon in Hw. rewrite <- Hw.
  unfold read_frame in Hr. apply M_bind_Ok in Hr as (s3 & prefix & H3%Hon & Hr). rewrite <- H3.
  do 2 (rewrite lift_bind in Hr; destruct (ensure _ _); [|done..]).
  apply M_bind_Ok in Hr as (s4 & body & H4%Hon & Hr). rewrite <- H4. by injection Hr as <- _.
Qed.

(** An exchange that succeeds wrote the command in a frame, read a response frame
    without error and accepted it as the answer to this command: its service
    identifier and its command code are those of the request. *)
Lemma fins_tcp_accepts_own_response (s s' : Client) request sid response :
  execute request sid s = (s', Ok response) ->
  exists s1 payload, write_frame FINS_TCP_FRAME_SEND 0 request s = (s1, Ok ()) /\
    read_frame "command response" s1 = (s', Ok (FINS_TCP_FRAME_RESPONSE, 0, payload)) /\
    response_from_bytes payload = Ok response /\ check_sid response sid = Ok () /\ check_error response = Ok () /\
    slice request 10 12 = Some [response_mrc response; response_src response].
Proof.
  unfold execute. rewrite lift_bind. destruct (slice request 10 12) as [expected|]; [|done]. cbn [ok_or].
  intros (s1 & [] & Hw & (s2 & [[command error] payload] & Hr & Hc)%M_bind_Ok)%M_bind_Ok.
  unfold lift, check_response in Hc. injection Hc as <- Hc. inv_result. simp_bool. simplify_eq.
  repeat match goal with u : unit |- _ => destruct u end.
  exists s1, payload. done.
Qed.

(** A response frame without error is read from the stream. *)
Definition response_frame (t t' : T) (payload : bytes) : Prop :=
  exists t1 prefix body, tcp_read_exact 8 t = (t1, Ok prefix) /\ take 4 prefix = str_bytes "FINS" /\
    let length := from_be_bytes (take 4 (drop 4 prefix)) in
    8 <= length <= 1048576 /\ tcp_read_exact (Z.to_nat length) t1 = (t', Ok body) /\
    from_be_bytes (take 4 body) = 3 /\ from_be_bytes (take 4 (drop 4 body)) = 0 /\ payload = drop 8 body.

Lemma on_stream_result {A} (call : M T A) (s s' : Client) r :
  on_stream call s = (s', r) -> call (fins_stream s) = (fins_stream s', r).
Proof. unfold on_stream. destruct (call (fins_stream s)). by intros [= <- ->]. Qed.

Lemma read_frame_response (s s' : Client) operation payload :
  read_frame operation s = (s', Ok (3, 0, payload)) -> response_frame (fins_stream s) (fins_stream s') payload.
Proof.
  unfold read_frame. intros Hr. apply M_bind_Ok in Hr as (s3 & prefix & H3%on_stream_result & Hr). rewrite lift_bind in Hr.
  destruct (ensure (bool_decide _) _) as [[]|e|e] eqn:E1; [|done..]. apply ensure_Ok, bool_decide_eq_true in E1.
  rewrite lift_bind in Hr. destruct (ensure (_ && _) _) as [[]|e|e] eqn:E2; [|done..].
  apply ensure_Ok, andb_prop in E2 as [Hlo%Z.leb_le Hhi%Z.leb_le].
  apply M_bind_Ok in Hr as (s4 & body & H4%on_stream_result & Hr). injection Hr as <- Hc He Hp.
  exists (fins_stream s3), prefix, body. done.
Qed.

(** A read that succeeds, on any stream: the command that was sent, and the checks
    its response passed. *)
Lemma read_words_checked (s s' : Client) area start count words :
  tcp_read_words area start count s = (s', Ok words) ->
  next_sid s' = (next_sid s + 1) mod 256 /\
  exists request t1 payload response,
    read_word_command (fins_destination s) (fins_source s) (next_sid s) (memory_area area) start count = Ok request /\
    tcp_write_all (fins_frame 2 0 request) (fins_stream s) = (t1, Ok ()) /\
    response_frame t1 (fins_stream s') payload /\
    response_from_bytes payload = Ok response /\ check_sid response (next_sid s) = Ok () /\ check_error response = Ok () /\
    slice request 10 12 = Some [response_mrc response; response_src response] /\ to_words response = Ok words.
Proof.
  unfold tcp_read_words, take_sid. rewrite M_bind_eq, M_bind_eq. cbn [gets fins_destination fins_source].
  rewrite lift_bind. destruct (read_word_command _ _ _ _ _ _) as [request|e|e]; [|done..].
  intros (s2 & response & He & Hw)%M_bind_Ok. unfold lift in Hw. injection Hw as -> Hwords.
  assert (Hsid : next_sid s' = wrap 8 (next_sid s + 1)) by by apply execute_keeps_sid in He.
  split; [exact Hsid|].
  apply fins_tcp_accepts_own_response in He as (s1 & payload & Hwrite & Hread & Hdec & Hcs & Hce & Hcode).
  exists request, (fins_stream s1), payload, response. split; [done|].
  split; [|split; [by apply read_frame_response in Hread | done]].
  unfold write_frame in Hwrite. rewrite lift_bind in Hwrite. destruct (ensure _ _); [|done..].
  unfold on_stream in Hwrite. cbn [fins_stream] in Hwrite. destruct (tcp_write_all _ _) as [t r]. by injection Hwrite as <- ->.
Qed.

(** The other end of the stream: [inbox] holds the bytes that wait to be read. *)
Record fins_peer (max_words : Z) (memory : T -> FinsMemory) (inbox : T -> bytes) (J : T -> Prop) : Prop := {
  peer_delivers : forall t n, J t -> (n <= length (inbox t))%nat ->
    exists t', tcp_read_exact n t = (t', Ok (take n (inbox t))) /\ J t' /\ inbox t' = drop n (inbox t) /\
      forall area word, memory t' area word = memory t area word;
  peer_answers : forall t (destination source : Node) sid area start count,
    J t -> inbox t = [] -> u_ok 8 sid -> 0 <= start -> 0 < count <= max_words -> start + count <= word_capacity area ->
    exists request t' payload response,
      read_word_command destination source sid (memory_area area) start count = Ok request /\
      Z.of_nat (length request) <= MAX_FINS_TCP_BODY_SIZE /\
      tcp_write_all (fins_frame FINS_TCP_FRAME_SEND 0 request) t = (t', Ok ()) /\ J t' /\
      (forall area word, memory t' area word = memory t area word) /\
      inbox t' = fins_frame FINS_TCP_FRAME_RESPONSE 0 payload /\
      Z.of_nat (length payload) + 8 <= MAX_FINS_TCP_BODY_SIZE /\
      response_from_bytes payload = Ok response /\ check_sid response sid = Ok () /\ check_error response = Ok () /\
      slice request 10 12 = Some [response_mrc response; response_src response] /\
      to_words response = Ok (memory_words (memory t) area start count);
}.

Context (max_words : Z) (memory : T -> FinsMemory) (inbox : T -> bytes) (J : T -> Prop).
Hypothesis Hpeer : fins_peer max_words memory inbox J.

(** Reading back a frame from the stream. *)
Lemma read_frame_ok (s : Client) operation command error payload rest :
  J (fins_stream s) -> inbox (fins_stream s) = (fins_frame command error payload ++ rest)%list ->
  u_ok 32 command -> u_ok 32 error -> Z.of_nat (length payload) + 8 <= MAX_FINS_TCP_BODY_SIZE ->
  exists t', read_frame operation s =
    ({| fins_stream := t'; fins_source := fins_source s; fins_destination := fins_destination s; next_sid := next_sid s |},
     Ok (command, error, payload)) /\
    J t' /\ inbox t' = rest /\ forall area word, memory t' area word = memory (fins_stream s) area word.
Proof using Hpeer.
  intros HJ Hin Hc He Hlen. unfold read_frame. rewrite M_bind_eq. unfold on_stream at 1.
  unfold fins_frame in Hin. rewrite <- !app_assoc in Hin.
  assert (Hl : u_ok 32 (Z.of_nat (length payload) + 8)) by (unfold u_ok, MAX_FINS_TCP_BODY_SIZE in *; lia).
  set (len4 := to_be_bytes 4 (Z.of_nat (length payload) + 8)) in *.
  assert (Hlen4 : length len4 = 4%nat) by apply length_to_be_bytes.
  destruct (peer_delivers _ _ _ _ Hpeer (fins_stream s) 8 HJ) as (t1 & -> & HJ1 & Hin1 & Hm1).
  { rewrite Hin, !length_app, Hlen4. simpl. lia. }
  assert (Hprefix : take 8 (inbox (fins_stream s)) = (FINS_TCP_MAGIC ++ len4)%list).
  { rewrite Hin, app_assoc. apply take_app_length'. rewrite length_app, Hlen4. done. }
  rewrite Hprefix, !lift_bind, take_app_length' by done. rewrite bool_decide_true by done. cbn [ensure].
  rewrite drop_app_length', take_ge by (done || lia). unfold len4. rewrite !from_be_to_be by (simpl; exact Hl).
  rewrite (proj2 (Z.leb_le 8 _)), (proj2 (Z.leb_le _ MAX_FINS_TCP_BODY_SIZE)) by lia. cbn [andb ensure].
  rewrite Hin, app_assoc, drop_app_length' in Hin1
    by (rewrite length_app, Hlen4; done).
  rewrite M_bind_eq. unfold on_stream at 1. cbn [fins_stream fins_source fins_destination next_sid].
  set (cmd4 := to_be_bytes 4 command) in *. set (err4 := to_be_bytes 4 error) in *.
  assert (Hcmd4 : length cmd4 = 4%nat) by apply length_to_be_bytes.
  assert (Herr4 : length err4 = 4%nat) by apply length_to_be_bytes.
  destruct (peer_delivers _ _ _ _ Hpeer t1 (Z.to_nat (Z.of_nat (length payload) + 8)) HJ1) as (t2 & -> & HJ2 & Hin2 & Hm2).
  { rewrite Hin1, !length_app, Hcmd4, Herr4. lia. }
  rewrite Hin1, 2!app_assoc in Hin2 |- *. rewrite take_app_length' by (rewrite !length_app; lia).
  rewrite drop_app_length' in Hin2 by (rewrite !length_app; lia).
  exists t2. split; [|split; [done|]; split; [done | by intros; rewrite Hm2]].
  unfold mret, M_ret. rewrite <- app_assoc, take_app_length', drop_app_length', take_app_length' by done.
  rewrite app_assoc, drop_app_length' by (rewrite length_app; lia).
  unfold cmd4, err4. rewrite !from_be_to_be by done. done.
Qed.

(** The state between two exchanges. *)
Definition client_idle (s : Client) : Prop := J (fins_stream s) /\ inbox (fins_stream s) = [] /\ u_ok 8 (next_sid s).

Lemma read_words_ok : fins_answers max_words (fun s : Client => memory (fins_stream s)) client_idle ().
Proof using Hpeer.
  intros s area start count (HJ & Hin & Hsid) Hstart Hcount Hcap. cbn [fins_read_words tcp_session].
  destruct (peer_answers _ _ _ _ Hpeer (fins_stream s) (fins_destination s) (fins_source s) (next_sid s) area start count)
    as (request & t1 & payload & response & Hreq & Hsmall & Hw & HJ1 & Hm1 & Hin1 & Hp & Hdec & Hcs & Hce & Hcode & Hwords);
    try done.
  unfold tcp_read_words, take_sid. rewrite M_bind_eq, M_bind_eq. cbn [gets fins_destination fins_source].
  rewrite lift_bind, Hreq, M_bind_eq. unfold execute. rewrite lift_bind, Hcode. cbn [ok_or].
  rewrite M_bind_eq. unfold write_frame. rewrite lift_bind, (proj2 (Z.leb_le _ _))
    by (unfold MAX_FINS_TCP_BODY_SIZE, u_max in *; lia).
  cbn [ensure]. unfold on_stream at 1. cbn [fins_stream]. rewrite Hw, M_bind_eq.
  destruct (read_frame_ok {| fins_stream := t1; fins_source := fins_source s; fins_destination := fins_destination s;
    next_sid := wrap 8 (next_sid s + 1) |} "command response" FINS_TCP_FRAME_RESPONSE 0 payload [])
    as (t2 & Hr & HJ2 & Hin2 & Hm2); try done; [by rewrite app_nil_r|].
  cbn [fins_source fins_destination next_sid fins_stream] in *. rewrite Hr. unfold lift, check_response.
  rewrite Z.eqb_refl. cbn [ensure mbind Result_bind]. rewrite Hdec. cbn [mbind Result_bind].
  rewrite Hcs, Hce. cbn [mbind Result_bind]. rewrite bool_decide_true by done. cbn. rewrite Hwords.
  eexists. split; [reflexivity|]. split; [split; [done|]; split; [done | by apply wrap_ok]|].
  intros. cbn. by rewrite Hm2, Hm1.
Qed.
End exchanges.

(** [C21] The FINS/TCP client is a session the adapter can rely on.  On any stream, a
    read of words that succeeds sent the read command with the client's service
    identifier in a send frame, took the next identifier (modulo 256), and accepted a
    response frame without error whose response has that identifier, no error end
    code and the command code of the request, and whose words it returns; every other
    response is refused.  Over a stream to a controller that answers each read command
    by a frame with the response to it, the read succeeds with the words of the
    controller's memory, which it leaves as it was, and the client is ready for the
    next exchange. *)
Theorem fins_tcp_answers {T Node Area Response} `{TcpStream T} `{FinsCodec Node Area Response}
    max_words memory inbox (J : T -> Prop) (s : FinsTcpClient T Node) area start count :
  (forall s' words, tcp_read_words area start count s = (s', Ok words) ->
     next_sid s' = (next_sid s + 1) mod 256 /\
     exists request t1 payload response,
       read_word_command (fins_destination s) (fins_source s) (next_sid s) (memory_area area) start count = Ok request /\
       tcp_write_all (fins_frame 2 0 request) (fins_stream s) = (t1, Ok ()) /\
       response_frame t1 (fins_stream s') payload /\
       response_from_bytes payload = Ok response /\ check_sid response (next_sid s) = Ok () /\ check_error response = Ok () /\
       slice request 10 12 = Some [response_mrc response; response_src response] /\ to_words response = Ok words) /\
  (fins_peer max_words memory inbox J -> client_idle inbox J s ->
   0 <= start -> 0 < count <= max_words -> start + count <= word_capacity area ->
   exists s', tcp_read_words area start count s = (s', Ok (memory_words (memory (fins_stream s)) area start count)) /\
     client_idle inbox J s' /\ forall area word, memory (fins_stream s') area word = memory (fins_stream s) area word).
Proof.
  split; [intros s' words; apply read_words_checked|]. intros Hpeer. apply (read_words_ok max_words memory inbox J Hpeer).
Qed.

(** ** Example: a controller at the other end of a stream *)

Record Controller := { controller_memory : FinsMemory; controller_inbox : bytes }.

Record ExampleResponse := { example_sid : Z; example_code : bytes; example_words : bytes }.

Definition area_code (area : OmronFinsArea) : Z :=
  match area with Cio => 0xb0 | Work => 0xb1 | Holding => 0xb2 | DataMemory => 0x82 | Auxiliary => 0xb3 end.

Definition area_of (code : Z) : OmronFinsArea :=
  if code =? 0xb0 then Cio else if code =? 0xb1 then Work else if code =? 0xb2 then Holding
  else if code =? 0x82 then DataMemory else Auxiliary.

Definition be16 (words : list Z) : bytes := concat (to_be_bytes 2 <$> words).

Definition words_of (l : bytes) : list Z := (fun '(a, b) => from_be_bytes [a; b]) <$> chunks2 l.

#[export] Instance example_codec : FinsCodec (Z * Z * Z) Z ExampleResponse := {|
  node_local := (0, 0, 0);
  node_new network node unit := (network, node, unit);
  area_CIO := area_code Cio; area_WR := area_code Work; area_HR := area_code Holding;
  area_DM := area_code DataMemory; area_AR := area_code Auxiliary;
  read_word_command _ _ sid area start count :=
    Ok ([0x80; 0; 2; 0; 0; 0; 0; 0; 0; sid; 1; 1; area] ++ to_be_bytes 2 start ++ [0] ++ to_be_bytes 2 count)%list;
  write_word_command _ _ sid area start words := bail "not used";
  write_bit_command _ _ sid area word bit value := bail "not used";
  response_from_bytes l := Ok {| example_sid := byte_at l 9; example_code := take 2 (drop 10 l); example_words := drop 14 l |};
  check_sid response sid := ensure (example_sid response =? sid) "service identifier mismatch";
  check_error _ := Ok ();
  response_mrc response := byte_at (example_code response) 0;
  response_src response := byte_at (example_code response) 1;
  to_words response := Ok (words_of (example_words response));
|}.

Definition controller_response (m : FinsMemory) (request : bytes) : bytes :=
  ([0xc0; 0; 2; 0; 0; 0; 0; 0; 0; byte_at request 9; byte_at request 10; byte_at request 11; 0; 0] ++
   be16 (memory_words m (area_of (byte_at request 12)) (from_be_bytes (take 2 (drop 13 request)))
           (from_be_bytes (take 2 (drop 16 request)))))%list.

#[export] Instance controller_stream : TcpStream Controller := {|
  tcp_connect _ := mret ();
  tcp_write_all frame := fun t =>
    ({| controller_memory := controller_memory t;
        controller_inbox := fins_frame FINS_TCP_FRAME_RESPONSE 0 (controller_response (controller_memory t) (drop 16 frame)) |},
     Ok ());
  tcp_read_exact n := fun t =>
    ({| controller_memory := controller_memory t; controller_inbox := drop n (controller_inbox t) |},
     Ok (take n (controller_inbox t)));
|}.

Lemma words_of_be16 words : Forall (u_ok 16) words -> words_of (be16 words) = words.
Proof.
  induction 1 as [|w words Hw _ IH]; [done|]. unfold be16, words_of in *. rewrite fmap_cons. cbn [concat].
  pose proof (length_to_be_bytes 2 w) as Hl. pose proof (from_be_to_be 2 w) as Hf.
  destruct (to_be_bytes 2 w) as [|a [|b [|? ?]]]; simpl in Hl; try lia. cbn [app chunks2 fmap list_fmap]. f_equal.
  - apply Hf. unfold u_ok in Hw. simpl. lia.
  - exact IH.
Qed.

Lemma length_be16 words : length (be16 words) = (2 * length words)%nat.
Proof.
  unfold be16. induction words as [|w words IH]; [done|]. rewrite fmap_cons. cbn [concat].
  rewrite length_app, length_to_be_bytes, IH. simpl. lia.
Qed.

Lemma controller_peer : fins_peer (Node := Z * Z * Z) 700 controller_memory controller_inbox
  (fun t => forall area word, u_ok 16 (controller_memory t area word)).
Proof.
  constructor.
  - intros t n Ht Hn. by eexists.
  - intros t destination source sid area start count Ht Hin Hsid Hstart Hcount Hcap.
    assert (Hcap' : word_capacity area <= 4096) by (destruct area; simpl; lia).
    eexists _, _, _, {| example_sid := sid; example_code := [1; 1];
      example_words := be16 (memory_words (controller_memory t) area start count) |}.
    split; [reflexivity|]. split; [rewrite !length_app, !length_to_be_bytes; done|].
    split; [reflexivity|]. split; [exact Ht|]. split; [done|]. split; [reflexivity|].
    assert (Hresp : controller_response (controller_memory t) (drop 16 (fins_frame FINS_TCP_FRAME_SEND 0
        ([128; 0; 2; 0; 0; 0; 0; 0; 0; sid; 1; 1; memory_area area] ++ to_be_bytes 2 start ++ [0] ++ to_be_bytes 2 count)%list)) =
      ([0xc0; 0; 2; 0; 0; 0; 0; 0; 0; sid; 1; 1; 0; 0] ++ be16 (memory_words (controller_memory t) area start count))%list).
    { unfold fins_frame. rewrite 3!app_assoc, drop_app_length' by (rewrite !length_app, !length_to_be_bytes; done).
      pose proof (length_to_be_bytes 2 start) as Hl1. pose proof (from_be_to_be 2 start) as Hf1.
      pose proof (length_to_be_bytes 2 count) as Hl2. pose proof (from_be_to_be 2 count) as Hf2.
      destruct (to_be_bytes 2 start) as [|a [|b [|? ?]]]; simpl in Hl1; try lia.
      destruct (to_be_bytes 2 count) as [|c [|d [|? ?]]]; simpl in Hl2; try lia.
      unfold controller_response. simpl. rewrite Hf1, Hf2 by (simpl; lia). by destruct area. }
    cbn [controller_inbox]. rewrite Hresp. split; [rewrite length_app, length_be16, length_memory_words;
      unfold MAX_FINS_TCP_BODY_SIZE; simpl length; lia|].
    split; [reflexivity|]. split; [cbn; by rewrite Z.eqb_refl|]. split; [done|]. split; [done|].
    cbn [to_words example_codec example_words]. rewrite words_of_be16; [done|]. unfold memory_words. apply Forall_fmap, list.Forall_forall. intros w _. apply Ht.
Qed.

Definition ramp_memory : FinsMemory := fun _ word => wrap 16 (3 * word).

Lemma fins_tcp_answers_witness :
  let s := {| fins_stream := {| controller_memory := ramp_memory; controller_inbox := [] |};
              fins_source := (0, 3, 0); fins_destination := (0, 9, 0); next_sid := 255 |} in
  exists s', tcp_read_words DataMemory 10 3 s = (s', Ok [30; 33; 36]) /\ next_sid s' = 0 /\ client_idle controller_inbox
    (fun t => forall area word, u_ok 16 (controller_memory t area word)) s'.
Proof.
  intros s. destruct (fins_tcp_answers 700 controller_memory controller_inbox
    (fun t => forall area word, u_ok 16 (controller_memory t area word)) s DataMemory 10 3) as (Hchecked & Hanswers).
  destruct Hanswers as (s' & Hr & Hidle & _).
  - exact controller_peer.
  - split; [|split; [reflexivity | split; [discriminate | reflexivity]]]. intros area word. by apply wrap_ok.
  - lia.
  - lia.
  - simpl. lia.
  - exists s'. split; [exact Hr|]. split; [exact (proj1 (Hchecked _ _ Hr)) | exact Hidle].
Defined.
