(* ===== verification/CommandStore.v ===== *)
(** The command audit log, the command rate limiter and the stored
    configurations of [RocksEdgeRuntimeStore]
    ([crates/edge-runtime/src/local_db.rs]).

    A method that takes [command_write_lock] is one atomic step.  SHA-256 is a
    parameter; nothing below depends on its values being distinct. *)

From Stdlib Require Import ZArith Lia.
From S2P Require Import Prelude RustStr Floats Model ConfigTypes BTree KvStore SeqKeys Outbox CommandPlan.

Open Scope string_scope.
Open Scope Z_scope.

(** ** Data *)

Inductive CommandAuditState := Processing | AuditSucceeded | AuditFailed.

#[export] Instance audit_state_eq_dec : EqDecision CommandAuditState.
Proof. solve_decision. Defined.

Record CommandAuditRecord := {
  audit_edge_id : string;
  audit_flow_id : string;
  audit_command_id : string;
  audit_source : option string;
  audit_payload_digest : string;
  audit_state : CommandAuditState;
  audit_accepted_at : DateTime;
  audit_completed_at : option DateTime;
  audit_writes : list CommandWriteRecord;
  audit_error : option string;
  audit_replies : list MqttPublishMessage;
}.

Definition execution_report (record : CommandAuditRecord) : option CommandExecutionReport :=
  match audit_state record with
  | Processing => None
  | state => Some
      {| rep_flow_id := audit_flow_id record; rep_command_id := audit_command_id record;
         rep_source := audit_source record;
         rep_status := match state with AuditFailed => Failed | _ => Succeeded end;
         rep_writes := audit_writes record; rep_error := audit_error record;
         rep_completed_at := default (audit_accepted_at record) (audit_completed_at record);
         rep_duplicate := true; rep_replies := audit_replies record |}
  end.

Inductive CommandClaim :=
| Started (record : CommandAuditRecord)
| Duplicate (record : CommandAuditRecord)
| InProgress (record : CommandAuditRecord)
| Conflict (record : CommandAuditRecord).

Record CommandRateLimit := { limit_gate_id : string; limit_max_commands : Z; limit_window_ms : Z }.

Inductive CommandRateDecision := Accepted | Rejected (limit : CommandRateLimit).

Record PersistedCommandRateWindow := { accepted_at_ms : list Z }.

Definition COMMAND_AUDIT_PREFIX : string := "command-audit/".
Definition COMMAND_RATE_PREFIX : string := "command-rate/".
Definition DESIRED_CONFIG_PREFIX : string := "desired-config".
Definition ACTIVE_CONFIG_PREFIX : string := "active-config".

Definition desired_config_key (edge_id version : string) : string :=
  DESIRED_CONFIG_PREFIX ++ "/" ++ edge_id ++ "/" ++ version.
Definition active_config_key (edge_id : string) : string := ACTIVE_CONFIG_PREFIX ++ "/" ++ edge_id.

(** [timestamp_millis]: rounded towards minus infinity. *)
Definition timestamp_millis (t : DateTime) : Z := t / 1000000.

Section store.
Context {D : Type} `{RocksDb D} `{JsonCodec CommandAuditRecord} `{JsonCodec PersistedCommandRateWindow}
        `{JsonCodec EdgeConfigPackage} (sha256_hex : bytes -> string).

(** [format!("{edge_id}\0{flow_id}\0{id}")]. *)
Definition triple_bytes (edge_id flow_id id : string) : bytes :=
  (str_bytes edge_id ++ [0] ++ str_bytes flow_id ++ [0] ++ str_bytes id)%list.

Definition command_audit_key (edge_id flow_id command_id : string) : string :=
  COMMAND_AUDIT_PREFIX ++ sha256_hex (triple_bytes edge_id flow_id command_id).

Definition command_rate_key (edge_id flow_id gate_id : string) : string :=
  COMMAND_RATE_PREFIX ++ sha256_hex (triple_bytes edge_id flow_id gate_id).

(** ** The audit log *)

Definition command_audit_by_key (key : string) : M D (option CommandAuditRecord) :=
  value ← read key "failed to read command audit record";
  match value with
  | None => mret None
  | Some payload =>
      record ← lift (with_context (from_slice payload) "failed to decode command audit record");
      mret (Some record)
  end.

Definition put_command_audit (key : string) (record : CommandAuditRecord) : M D () :=
  payload ← lift (with_context (to_vec record) "failed to encode command audit record");
  write [Put key payload] "failed to persist command audit record".

Definition command_audit (edge_id flow_id command_id : string) : M D (option CommandAuditRecord) :=
  command_audit_by_key (command_audit_key edge_id flow_id command_id).

Definition new_audit_record (edge_id flow_id command_id payload_digest : string) (now : DateTime)
    : CommandAuditRecord :=
  {| audit_edge_id := edge_id; audit_flow_id := flow_id; audit_command_id := command_id;
     audit_source := None; audit_payload_digest := payload_digest; audit_state := Processing;
     audit_accepted_at := now; audit_completed_at := None; audit_writes := [];
     audit_error := None; audit_replies := [] |}.

Definition claim_command (edge_id flow_id command_id : string) (payload : bytes) (now : DateTime)
    : M D CommandClaim :=
  if is_blank edge_id || is_blank flow_id || is_blank command_id
  then lift (bail "edge id, command flow id and command id are required")
  else
    let key := command_audit_key edge_id flow_id command_id in
    let payload_digest := sha256_hex payload in
    existing ← command_audit_by_key key;
    match existing with
    | Some existing =>
        if negb (bool_decide (audit_payload_digest existing = payload_digest))
        then mret (Conflict existing)
        else
          mret (match audit_state existing with
                | Processing => InProgress existing
                | AuditSucceeded | AuditFailed => Duplicate existing
                end)
    | None =>
        let record := new_audit_record edge_id flow_id command_id payload_digest now in
        _ ← put_command_audit key record;
        mret (Started record)
    end.

Definition completed_record (record : CommandAuditRecord) (report : CommandExecutionReport)
    : CommandAuditRecord :=
  {| audit_edge_id := audit_edge_id record; audit_flow_id := audit_flow_id record;
     audit_command_id := audit_command_id record; audit_source := rep_source report;
     audit_payload_digest := audit_payload_digest record;
     audit_state := match rep_status report with Succeeded => AuditSucceeded | Failed => AuditFailed end;
     audit_accepted_at := audit_accepted_at record; audit_completed_at := Some (rep_completed_at report);
     audit_writes := rep_writes report; audit_error := rep_error report;
     audit_replies := rep_replies report |}.

Definition complete_command (edge_id : string) (payload : bytes) (report : CommandExecutionReport)
    : M D CommandAuditRecord :=
  let key := command_audit_key edge_id (rep_flow_id report) (rep_command_id report) in
  existing ← command_audit_by_key key;
  record ← lift (ok_or existing "command must be claimed before completion");
  _ ← lift (ensure (bool_decide (audit_payload_digest record = sha256_hex payload))
              ("command " ++ rep_command_id report ++ " payload conflicts with its claimed payload"));
  _ ← lift (ensure (bool_decide (audit_state record = Processing))
              ("command " ++ rep_command_id report ++ " has already completed"));
  let record := completed_record record report in
  _ ← put_command_audit key record;
  mret record.

(** ** The rate limiter *)

Definition live (now_ms window_ms : Z) (previous_ms : Z) : Prop := now_ms - previous_ms < window_ms.

#[export] Instance live_dec now_ms window_ms previous_ms : Decision (live now_ms window_ms previous_ms).
Proof. unfold live. apply _. Defined.

Definition read_window (key : string) : M D PersistedCommandRateWindow :=
  value ← read key "failed to read command rate window";
  match value with
  | Some payload => lift (with_context (from_slice payload) "failed to decode command rate window")
  | None => mret {| accepted_at_ms := [] |}
  end.

(** The loop over the limits: the limit that rejects, or the new windows. *)
Fixpoint rate_loop (edge_id flow_id : string) (limits : list CommandRateLimit) (now_ms : Z)
    (windows : list (string * PersistedCommandRateWindow))
    : M D (CommandRateLimit + list (string * PersistedCommandRateWindow)) :=
  match limits with
  | [] => mret (inr windows)
  | limit :: limits =>
      let key := command_rate_key edge_id flow_id (limit_gate_id limit) in
      window ← read_window key;
      let kept := filter (live now_ms (limit_window_ms limit)) (accepted_at_ms window) in
      if limit_max_commands limit <=? Z.of_nat (length kept) then mret (inl limit)
      else
        rate_loop edge_id flow_id limits now_ms
          (windows ++ [(key, {| accepted_at_ms := (kept ++ [now_ms])%list |})])%list
  end.

Fixpoint encode_windows (windows : list (string * PersistedCommandRateWindow)) : Result (list WriteOp) :=
  match windows with
  | [] => Ok []
  | (key, window) :: windows =>
      payload ← with_context (to_vec window) "failed to encode command rate window";
      batch ← encode_windows windows;
      Ok (Put key payload :: batch)
  end.

Definition consume_command_rate_slots (edge_id flow_id : string) (limits : list CommandRateLimit)
    (accepted_at : DateTime) : M D CommandRateDecision :=
  if bool_decide (limits = []) then mret Accepted
  else
    outcome ← rate_loop edge_id flow_id limits (timestamp_millis accepted_at) [];
    match outcome with
    | inl limit => mret (Rejected limit)
    | inr windows =>
        batch ← lift (encode_windows windows);
        _ ← write batch "failed to persist command rate windows";
        mret Accepted
    end.

(** ** Configurations *)

Definition put_desired_config (package : EdgeConfigPackage) : M D () :=
  _ ← lift (ensure (negb (is_blank (pkg_edge_id package))) "edge id is required");
  _ ← lift (ensure (negb (is_blank (pkg_version package))) "config version is required");
  payload ← lift (with_context (to_vec package) "failed to encode desired config package");
  write [Put (desired_config_key (pkg_edge_id package) (pkg_version package)) payload]
    "failed to persist desired config package".

Definition desired_config (edge_id version : string) : M D (option EdgeConfigPackage) :=
  value ← read (desired_config_key edge_id version) "failed to read desired config package";
  match value with
  | None => mret None
  | Some payload =>
      package ← lift (with_context (from_slice payload) "failed to decode desired config package");
      mret (Some package)
  end.

Definition promote_active_config (edge_id version : string) : M D () :=
  package ← desired_config edge_id version;
  _ ← lift (ensure (bool_decide (is_Some package))
        ("desired config not found for edge `" ++ edge_id ++ "` version `" ++ version ++ "`"));
  write [Put (active_config_key edge_id) (str_bytes version)] "failed to promote active config".

Definition active_version (edge_id : string) : M D (option string) :=
  value ← read (active_config_key edge_id) "failed to read active config version";
  match value with
  | None => mret None
  | Some payload =>
      if utf8_valid payload then mret (Some (str_of_bytes payload))
      else lift (Err "active config version is not UTF-8")
  end.

Definition active_config (edge_id : string) : M D (option EdgeConfigPackage) :=
  version ← active_version edge_id;
  match version with
  | None => mret None
  | Some version => desired_config edge_id version
  end.
End store.

(** ** Calls of the store *)

Inductive StoreCall :=
| SClaim (edge_id flow_id command_id : string) (payload : bytes) (now : DateTime)
| SComplete (edge_id : string) (payload : bytes) (report : CommandExecutionReport)
| SConsume (edge_id flow_id : string) (limits : list CommandRateLimit) (accepted_at : DateTime)
| SPutConfig (package : EdgeConfigPackage)
| SPromote (edge_id version : string)
| SOutbox (call : OutboxCall).

Inductive StoreAnswer :=
| AClaim (claim : CommandClaim)
| ACompleted (record : CommandAuditRecord)
| ADecision (decision : CommandRateDecision)
| ADone
| AOutbox (answer : OutboxAnswer).

Section calls.
Context {D : Type} `{RocksDb D} `{JsonCodec CommandAuditRecord} `{JsonCodec PersistedCommandRateWindow}
        `{JsonCodec EdgeConfigPackage} `{JsonCodec MqttOutboxEntry}
        `{JsonCodec MqttPublishAcknowledgement} (sha256_hex : bytes -> string).

Definition store_answer {A} (m : M D A) (f : A -> StoreAnswer) : M D StoreAnswer := a ← m; mret (f a).

Definition run_store (c : StoreCall) : M D StoreAnswer :=
  match c with
  | SClaim edge_id flow_id command_id payload now =>
      store_answer (claim_command sha256_hex edge_id flow_id command_id payload now) AClaim
  | SComplete edge_id payload report =>
      store_answer (complete_command sha256_hex edge_id payload report) ACompleted
  | SConsume edge_id flow_id limits accepted_at =>
      store_answer (consume_command_rate_slots sha256_hex edge_id flow_id limits accepted_at) ADecision
  | SPutConfig package => store_answer (put_desired_config package) (fun _ => ADone)
  | SPromote edge_id version => store_answer (promote_active_config edge_id version) (fun _ => ADone)
  | SOutbox call => store_answer (run_call call) AOutbox
  end.

(** Calls one after another, each with its answer. *)
Fixpoint run_store_calls (cs : list StoreCall) (d : D) : D * list (StoreCall * Result StoreAnswer) :=
  match cs with
  | [] => (d, [])
  | c :: cs =>
      let '(d, r) := run_store c d in
      let '(d, rs) := run_store_calls cs d in (d, (c, r) :: rs)
  end.
End calls.

(** ** What a call leaves alone *)

Section frame.
Context {D : Type} `{RocksDbLaws D} (key : string).

(** The entry of [key] is as before. *)
Definition frame {A} (m : M D A) : Prop :=
  forall d, db_contents (fst (m d)) !! key = db_contents d !! key.

Definition op_key (op : WriteOp) : string := match op with Put k _ | Delete k => k end.

Lemma apply_batch_other ops m :
  Forall (fun op => op_key op <> key) ops -> apply_batch ops m !! key = m !! key.
Proof using.
  intros Hops. revert m. induction Hops as [|op ops Hop Hops IH]; intros m; [done|].
  unfold apply_batch in *. cbn [fold_left]. rewrite IH.
  destruct op; simpl in *; by rewrite ?lookup_insert_ne, ?lookup_delete_ne.
Qed.

Lemma frame_ret {A} (a : A) : frame (mret a).
Proof using. done. Qed.

Lemma frame_lift {A} (r : Result A) : frame (lift r).
Proof using. done. Qed.

Lemma frame_read k msg : frame (read k msg).
Proof using. done. Qed.

Lemma frame_scan prefix msg : frame (scan_prefix prefix msg).
Proof using. done. Qed.

Lemma frame_write ops msg : Forall (fun op => op_key op <> key) ops -> frame (write ops msg).
Proof using.
  intros Hops d. destruct (write_spec ops msg d) as [[_ ->] | (_ & _ & [-> | ->])];
    by rewrite ?apply_batch_other.
Qed.

(** What is known of the value [m] returns may be used. *)
Lemma frame_bind_val {A B} (Q : A -> Prop) (m : M D A) (f : A -> M D B) :
  frame m -> (forall d d' a, m d = (d', Ok a) -> Q a) -> (forall a, Q a -> frame (f a)) -> frame (m ≫= f).
Proof using.
  intros Hm HQ Hf d. rewrite M_bind_eq. specialize (Hm d). destruct (m d) as [d' [a|e|e]] eqn:E; [|done..].
  rewrite (Hf a (HQ _ _ _ E) d'). done.
Qed.

Lemma frame_bind {A B} (m : M D A) (f : A -> M D B) :
  frame m -> (forall a, frame (f a)) -> frame (m ≫= f).
Proof using. intros Hm Hf. by apply (frame_bind_val (fun _ => True)). Qed.
End frame.

Ltac frame_tac :=
  repeat first
    [ apply frame_ret | apply frame_lift | apply frame_read | apply frame_scan
    | apply frame_bind; [|intros]
    | match goal with |- frame _ (match ?x with _ => _ end) => destruct x end
    | apply frame_write; repeat constructor ].

Lemma take_prefix_has prefix msg items k v :
  Ok (k, v) ∈ take_prefix prefix msg items -> has_prefix prefix k = true.
Proof.
  induction items as [|[[k' v']|e|e] items IH]; simpl; try set_solver.
  destruct (has_prefix prefix k') eqn:E; [|set_solver].
  intros [Heq|Hin]%elem_of_cons; [by simplify_eq | by apply IH].
Qed.

Section frames.
Context {D : Type} `{RocksDbLaws D} `{JsonCodec CommandAuditRecord} `{JsonCodec PersistedCommandRateWindow}
        `{JsonCodec EdgeConfigPackage} `{JsonCodec MqttOutboxEntry}
        `{JsonCodec MqttPublishAcknowledgement} (sha256_hex : bytes -> string) (key : string).

(** A key of the command log or of the rate limiter. *)
Definition command_key : Prop :=
  has_prefix COMMAND_AUDIT_PREFIX key = true \/ has_prefix COMMAND_RATE_PREFIX key = true.

Hypothesis Hkey : command_key.

Lemma prefix_app_ne prefix rest :
  has_prefix COMMAND_AUDIT_PREFIX (prefix ++ rest) = false ->
  has_prefix COMMAND_RATE_PREFIX (prefix ++ rest) = false -> prefix ++ rest <> key.
Proof using Hkey. intros Ha Hr Heq. rewrite Heq in Ha, Hr. destruct Hkey; congruence. Qed.

Ltac other_key :=
  unfold mqtt_outbox_key, mqtt_ack_key, seq_key, desired_config_key, active_config_key;
  apply prefix_app_ne; unfold has_prefix, starts_with; rewrite str_bytes_app; reflexivity.

Lemma outbox_key_other n : mqtt_outbox_key n <> key.
Proof using Hkey. other_key. Qed.
Lemma ack_key_other n : mqtt_ack_key n <> key.
Proof using Hkey. other_key. Qed.
Lemma desired_key_other edge_id version : desired_config_key edge_id version <> key.
Proof using Hkey. other_key. Qed.
Lemma active_key_other edge_id : active_config_key edge_id <> key.
Proof using Hkey. other_key. Qed.
Lemma sequence_key_other : MQTT_OUTBOX_SEQUENCE_KEY <> key.
Proof using Hkey. destruct Hkey as [Hk|Hk]; intros <-; by vm_compute in Hk. Qed.
Lemma count_key_other : MQTT_ACK_COUNT_KEY <> key.
Proof using Hkey. destruct Hkey as [Hk|Hk]; intros <-; by vm_compute in Hk. Qed.

Lemma prefix_head prefix k :
  has_prefix prefix k = true -> head (str_bytes prefix) = None \/ head (str_bytes k) = head (str_bytes prefix).
Proof using.
  unfold has_prefix, starts_with. intros [r ->]%bytes_prefix_app.
  destruct (str_bytes prefix); [by left | by right].
Qed.

Lemma ack_prefix_other k : has_prefix MQTT_ACK_PREFIX k = true -> k <> key.
Proof using Hkey.
  intros [Hk|Hk]%prefix_head Heq; [done|]. rewrite Heq in Hk.
  destruct Hkey as [[Hc|Hc]%prefix_head | [Hc|Hc]%prefix_head]; rewrite ?Hk in Hc; done.
Qed.

Lemma frame_enqueue now message : frame key (enqueue_mqtt_message now message).
Proof using Hkey.
  unfold enqueue_mqtt_message, next_mqtt_sequence. frame_tac; simpl;
    [apply sequence_key_other | apply outbox_key_other].
Qed.

Lemma frame_mark_failed sequence error : frame key (mark_mqtt_message_failed sequence error).
Proof using Hkey.
  unfold mark_mqtt_message_failed, read_entry. frame_tac; simpl; apply outbox_key_other.
Qed.

Lemma frame_acknowledge now sequence : frame key (acknowledge_mqtt_message now sequence).
Proof using Hkey.
  unfold acknowledge_mqtt_message. apply frame_bind; [unfold read_entry; frame_tac|]. intros entry.
  apply frame_bind; [frame_tac|]. intros payload.
  apply frame_bind; [unfold mqtt_acknowledgement_count; frame_tac|]. intros count.
  apply (frame_bind_val key (fun oldest => forall k, oldest = Some k -> has_prefix MQTT_ACK_PREFIX k = true)).
  - unfold oldest_mqtt_acknowledgement_key. frame_tac.
  - intros d d' oldest Ho k ->. destruct (_ <=? _); [|done].
    unfold oldest_mqtt_acknowledgement_key, scan_prefix, gets in Ho. rewrite M_bind_eq in Ho.
    destruct (take_prefix _ _ _) as [|item items] eqn:E; [done|].
    destruct item as [[k' v]|e|e]; try done. rewrite lift_bind in Ho. injection Ho as _ ->.
    eapply take_prefix_has. rewrite E. left.
  - intros oldest Ho. apply frame_bind; [|intros; frame_tac]. apply frame_write.
    repeat apply Forall_app_2; repeat constructor; simpl;
      [apply outbox_key_other | apply ack_key_other | | apply count_key_other].
    destruct oldest as [k|]; repeat constructor. simpl. by apply ack_prefix_other, Ho.
Qed.

Lemma frame_outbox call : frame key (run_call call).
Proof using Hkey.
  destruct call; unfold run_call, answer; (apply frame_bind; [|intros; apply frame_ret]).
  - apply frame_enqueue.
  - apply frame_acknowledge.
  - apply frame_mark_failed.
  - unfold pending_mqtt_messages. frame_tac.
  - unfold mqtt_publish_acknowledgements. frame_tac.
  - unfold mqtt_outbox_len, pending_mqtt_messages. frame_tac.
  - unfold mqtt_outbox_stats, pending_mqtt_messages. frame_tac.
Qed.

Lemma frame_put_config package : frame key (put_desired_config package).
Proof using Hkey. unfold put_desired_config. frame_tac; simpl; apply desired_key_other. Qed.

Lemma frame_promote edge_id version : frame key (promote_active_config edge_id version).
Proof using Hkey. unfold promote_active_config, desired_config. frame_tac; simpl; apply active_key_other. Qed.
End frames.

(** ** A command starts at most once *)

Section once.
Context {D : Type} `{RocksDbLaws D} `{JsonCodec CommandAuditRecord} `{JsonCodec PersistedCommandRateWindow}
        `{JsonCodec EdgeConfigPackage} `{JsonCodec MqttOutboxEntry}
        `{JsonCodec MqttPublishAcknowledgement} (sha256_hex : bytes -> string).

(** An entry that exists is not removed. *)
Definition keeps {A} (key : string) (m : M D A) : Prop :=
  forall d, is_Some (db_contents d !! key) -> is_Some (db_contents (fst (m d)) !! key).

Definition is_put (op : WriteOp) : Prop := match op with Put _ _ => True | Delete _ => False end.

Lemma apply_puts_keep key ops m :
  Forall is_put ops -> is_Some (m !! key) -> is_Some (apply_batch ops m !! key).
Proof using.
  intros Hops. revert m. induction Hops as [|op ops Hop Hops IH]; intros m Hm; [done|].
  unfold apply_batch in *. cbn [fold_left]. apply IH. destruct op as [k v|k]; [|done]. simpl.
  destruct (decide (k = key)) as [->|Hne]; [rewrite lookup_insert_eq; eauto | by rewrite lookup_insert_ne].
Qed.

Lemma keeps_frame {A} key (m : M D A) : frame key m -> keeps key m.
Proof using. intros Hf d Hd. by rewrite Hf. Qed.

Lemma keeps_write key ops msg : Forall is_put ops -> keeps key (write ops msg).
Proof using.
  intros Hops d Hd. destruct (write_spec ops msg d) as [[_ ->] | (_ & _ & [-> | ->])];
    try done; by apply apply_puts_keep.
Qed.

Lemma keeps_bind {A B} key (m : M D A) (f : A -> M D B) :
  keeps key m -> (forall a, keeps key (f a)) -> keeps key (m ≫= f).
Proof using.
  intros Hm Hf d Hd. rewrite M_bind_eq. specialize (Hm d Hd).
  destruct (m d) as [d' [a|e|e]]; [|done..]. by apply Hf.
Qed.

Lemma keeps_put_audit key k record : keeps key (put_command_audit k record).
Proof using.
  unfold put_command_audit. apply keeps_bind; [apply keeps_frame, frame_lift|]. intros payload.
  apply keeps_write. by repeat constructor.
Qed.

Lemma frame_audit_by_key key k : frame key (command_audit_by_key k).
Proof using. unfold command_audit_by_key. frame_tac. Qed.

Lemma keeps_claim key edge_id flow_id command_id payload now :
  keeps key (claim_command sha256_hex edge_id flow_id command_id payload now).
Proof using.
  unfold claim_command. destruct (_ || _); [apply keeps_frame, frame_lift|].
  apply keeps_bind; [apply keeps_frame, frame_audit_by_key|]. intros [existing|].
  - destruct (negb _); apply keeps_frame, frame_ret.
  - apply keeps_bind; [apply keeps_put_audit|]. intros. apply keeps_frame, frame_ret.
Qed.

Lemma keeps_complete key edge_id payload report :
  keeps key (complete_command sha256_hex edge_id payload report).
Proof using.
  unfold complete_command. apply keeps_bind; [apply keeps_frame, frame_audit_by_key|]. intros existing.
  do 3 (apply keeps_bind; [apply keeps_frame, frame_lift|]; intros).
  apply keeps_bind; [apply keeps_put_audit|]. intros. apply keeps_frame, frame_ret.
Qed.

Lemma encode_windows_puts windows batch : encode_windows windows = Ok batch -> Forall is_put batch.
Proof using.
  revert batch. induction windows as [|[k w] windows IH]; intros batch; cbn [encode_windows].
  - intros [= <-]. constructor.
  - intros (payload & _ & Hb)%bind_Ok. apply bind_Ok in Hb as (rest & Hr & [= <-]).
    constructor; [done | by apply IH].
Qed.

Lemma frame_rate_loop key edge_id flow_id limits now_ms windows :
  frame key (rate_loop sha256_hex edge_id flow_id limits now_ms windows).
Proof using.
  revert windows. induction limits as [|limit limits IH]; intros windows; cbn [rate_loop]; [apply frame_ret|].
  apply frame_bind; [unfold read_window; frame_tac|]. intros window. destruct (_ <=? _); [apply frame_ret|].
  apply IH.
Qed.

Lemma keeps_consume key edge_id flow_id limits accepted_at :
  keeps key (consume_command_rate_slots sha256_hex edge_id flow_id limits accepted_at).
Proof using.
  unfold consume_command_rate_slots. case_bool_decide; [apply keeps_frame, frame_ret|].
  apply keeps_bind; [apply keeps_frame, frame_rate_loop|]. intros [limit|windows]; [apply keeps_frame, frame_ret|].
  intros d Hd. rewrite lift_bind. destruct (encode_windows windows) as [batch|e|e] eqn:E; [|done..].
  apply (keeps_bind key (write batch _) (fun _ => mret Accepted)); [|intros; apply keeps_frame, frame_ret | done].
  apply keeps_write. by eapply encode_windows_puts.
Qed.

(** No call removes an entry of the audit log. *)
Lemma keeps_store key c :
  has_prefix COMMAND_AUDIT_PREFIX key = true -> keeps key (run_store sha256_hex c).
Proof using.
  intros Hkey. assert (Hk : command_key key) by by left.
  destruct c; unfold run_store, store_answer; (apply keeps_bind; [|intros; apply keeps_frame, frame_ret]).
  - apply keeps_claim.
  - apply keeps_complete.
  - apply keeps_consume.
  - by apply keeps_frame, frame_put_config.
  - by apply keeps_frame, frame_promote.
  - by apply keeps_frame, frame_outbox.
Qed.

Lemma audit_key_prefix edge_id flow_id command_id :
  has_prefix COMMAND_AUDIT_PREFIX (command_audit_key sha256_hex edge_id flow_id command_id) = true.
Proof using.
  unfold has_prefix, starts_with, command_audit_key. rewrite str_bytes_app. apply bytes_prefix_app. eauto.
Qed.

(** A claim that starts a command found no entry and leaves one. *)
Lemma claim_started edge_id flow_id command_id payload now d d' record :
  let key := command_audit_key sha256_hex edge_id flow_id command_id in
  claim_command sha256_hex edge_id flow_id command_id payload now d = (d', Ok (Started record)) ->
  db_contents d !! key = None /\ is_Some (db_contents d' !! key).
Proof using.
  intros key. unfold claim_command. destruct (_ || _); [done|].
  intros (d1 & existing & Hread & Hrest)%M_bind_Ok. fold key in Hread, Hrest.
  unfold command_audit_by_key in Hread. apply M_bind_Ok in Hread as (d0 & value & Hget & Hread).
  destruct (read_spec key "failed to read command audit record" d) as [Hs|[_ Hs]]; rewrite Hs in Hget; [|done].
  injection Hget as <- <-. destruct (db_contents d !! key) as [p|] eqn:Ek.
  - rewrite lift_bind in Hread. destruct (with_context _ _); [|done..]. injection Hread as <- <-.
    destruct (negb _) in Hrest; [done|]. injection Hrest as _ Hr. by destruct (audit_state _) in Hr.
  - split; [done|]. injection Hread as <- <-.
    apply M_bind_Ok in Hrest as (d2 & [] & Hput & [= <- _]). unfold put_command_audit in Hput.
    rewrite lift_bind in Hput. destruct (with_context _ _) as [p|e|e]; [|done..].
    destruct (write_spec [Put key p] "failed to persist command audit record" d) as [[_ Hc]|(_ & Hbad & _)].
    + rewrite Hput in Hc. simpl in Hc. rewrite Hc. simpl. rewrite lookup_insert_eq. eauto.
    + by rewrite Hput in Hbad.
Qed.

(** The call started the command. *)
Definition started_for (edge_id flow_id command_id : string) (x : StoreCall * Result StoreAnswer) : bool :=
  match x with
  | (SClaim e f c _ _, Ok (AClaim (Started _))) => bool_decide (e = edge_id /\ f = flow_id /\ c = command_id)
  | _ => false
  end.

Lemma run_store_started c d edge_id flow_id command_id :
  let key := command_audit_key sha256_hex edge_id flow_id command_id in
  started_for edge_id flow_id command_id (c, snd (run_store sha256_hex c d)) = true ->
  db_contents d !! key = None /\ is_Some (db_contents (fst (run_store sha256_hex c d)) !! key).
Proof using.
  intros key Hs. destruct c as [e f cid payload now|?|?|?|?|?]; try done.
  cbn [run_store] in *. unfold store_answer in *. rewrite M_bind_eq in *.
  destruct (claim_command sha256_hex e f cid payload now d) as [d' [claim|err|err]] eqn:E; try done.
  simpl in Hs. destruct claim as [record|?|?|?]; try done. apply bool_decide_eq_true in Hs as (-> & -> & ->).
  by eapply claim_started.
Qed.

Lemma starts_bound cs d edge_id flow_id command_id :
  let key := command_audit_key sha256_hex edge_id flow_id command_id in
  let starts := filter (fun x => started_for edge_id flow_id command_id x = true)
                  (snd (run_store_calls sha256_hex cs d)) in
  (length starts <= 1)%nat /\ (is_Some (db_contents d !! key) -> starts = []).
Proof using.
  intros key. revert d. induction cs as [|c cs IH]; intros d starts; [subst starts; simpl; split; [lia | done]|].
  pose proof (keeps_store key c (audit_key_prefix _ _ _) d) as Hkeep.
  pose proof (run_store_started c d edge_id flow_id command_id) as Hstart. fold key in Hstart.
  subst starts. cbn [run_store_calls]. destruct (run_store sha256_hex c d) as [d' r]. simpl in Hkeep, Hstart.
  specialize (IH d'). destruct (run_store_calls sha256_hex cs d') as [d2 rs]. simpl in IH.
  destruct IH as [Hlen Hnone]. cbn [snd]. rewrite filter_cons. case_decide as Hc.
  - destruct (Hstart Hc) as [Hd Hd']. rewrite (Hnone Hd'). simpl. split; [lia|]. rewrite Hd. by intros [].
  - split; [done|]. intros Hd. by apply Hnone, Hkeep.
Qed.
End once.

(** ** A completed command is replayed *)

Section replay.
Context {D : Type} `{RocksDbLaws D} (storable : CommandAuditRecord -> Prop)
        `{JsonRoundTrip CommandAuditRecord storable} (sha256_hex : bytes -> string).

Definition as_duplicate (report : CommandExecutionReport) : CommandExecutionReport :=
  {| rep_flow_id := rep_flow_id report; rep_command_id := rep_command_id report;
     rep_source := rep_source report; rep_status := rep_status report;
     rep_writes := rep_writes report; rep_error := rep_error report;
     rep_completed_at := rep_completed_at report; rep_duplicate := true;
     rep_replies := rep_replies report |}.

Lemma put_audit_stored key record d d' :
  storable record -> put_command_audit key record d = (d', Ok ()) ->
  exists p, db_contents d' !! key = Some p /\ from_slice p = Ok record.
Proof using Type*.
  intros Hst. destruct (json_round_trip record Hst) as (p & Hto & Hfrom).
  unfold put_command_audit. rewrite lift_bind, Hto. cbn [with_context]. intros Hput. exists p.
  split; [|done].
  destruct (write_spec [Put key p] "failed to persist command audit record" d) as [[_ Hc]|(_ & Hbad & _)];
    rewrite Hput in *; [|done].
  simpl in Hc. rewrite Hc. simpl. by rewrite lookup_insert_eq.
Qed.

Lemma audit_by_key_reads key d :
  reads (command_audit_by_key key) d
    (match db_contents d !! key with
     | None => Ok None
     | Some p => Some <$> with_context (from_slice p) "failed to decode command audit record"
     end).
Proof using Type*.
  unfold command_audit_by_key. destruct (db_contents d !! key) as [p|] eqn:E.
  - eapply reads_bind; [apply reads_read|]. rewrite E. left. rewrite lift_bind.
    by destruct (with_context _ _).
  - eapply reads_bind; [apply reads_read|]. rewrite E. apply reads_ret.
Qed.

(** What a completion that succeeds did. *)
Lemma complete_Ok edge_id payload report d d' record :
  complete_command sha256_hex edge_id payload report d = (d', Ok record) ->
  exists old d1, record = completed_record old report /\
    audit_payload_digest old = sha256_hex payload /\ audit_state old = Processing /\
    put_command_audit (command_audit_key sha256_hex edge_id (rep_flow_id report) (rep_command_id report))
      record d1 = (d', Ok ()).
Proof using.
  unfold complete_command. intros (d1 & existing & _ & Hc)%M_bind_Ok.
  rewrite lift_bind in Hc. destruct (ok_or existing _) as [old|e|e] eqn:E; [|done..].
  rewrite lift_bind in Hc. destruct (ensure _ _) as [[]|e|e] eqn:E1 in Hc; [|done..].
  rewrite lift_bind in Hc. destruct (ensure _ _) as [[]|e|e] eqn:E2 in Hc; [|done..].
  apply ensure_Ok, bool_decide_eq_true in E1, E2.
  apply M_bind_Ok in Hc as (d2 & [] & Hput & [= -> <-]). by exists old, d1.
Qed.

Lemma completed_state old report : audit_state (completed_record old report) <> Processing.
Proof using. simpl. by destruct (rep_status report). Qed.
End replay.

(** ** The rate limiter *)

Section rate.
Context {D : Type} `{RocksDbLaws D} `{JsonRoundTrip PersistedCommandRateWindow (fun _ => True)}
        (sha256_hex : bytes -> string) (key : string) (max_commands window_ms : Z).

(** The window of the gate, as stored. *)
Definition stored_window (m : gmap string bytes) (times : list Z) : Prop :=
  match m !! key with
  | Some p => from_slice p = Ok {| accepted_at_ms := times |}
  | None => times = []
  end.

Definition of_gate (edge_id flow_id : string) (limit : CommandRateLimit) : Prop :=
  command_rate_key sha256_hex edge_id flow_id (limit_gate_id limit) = key.

(** The limits that concern the gate are the configured ones. *)
Definition configured (edge_id flow_id : string) (limits : list CommandRateLimit) : Prop :=
  Forall (fun limit => of_gate edge_id flow_id limit ->
            limit_max_commands limit = max_commands /\ limit_window_ms limit = window_ms) limits.

(** The window after a command at [now_ms] was admitted. *)
Definition admitted (times : list Z) (now_ms : Z) : list Z :=
  (filter (live now_ms window_ms) times ++ [now_ms])%list.

(** The window computed for the gate, from what is stored in [m]. *)
Definition window_entry (m : gmap string bytes) (now_ms : Z) (e : string * PersistedCommandRateWindow) : Prop :=
  fst e = key -> exists times, stored_window m times /\
    snd e = {| accepted_at_ms := admitted times now_ms |} /\
    Z.of_nat (length (filter (live now_ms window_ms) times)) < max_commands.

Lemma read_window_Ok d d' w :
  read_window key d = (d', Ok w) -> d' = d /\ stored_window (db_contents d) (accepted_at_ms w).
Proof using Type*.
  unfold read_window. intros (d1 & value & Hget & Hw)%M_bind_Ok.
  destruct (read_spec key "failed to read command rate window" d) as [Hs|[_ Hs]]; rewrite Hs in Hget; [|done].
  injection Hget as <- <-. unfold stored_window. destruct (db_contents d !! key) as [p|].
  - injection Hw as <- Hw. apply with_context_Ok in Hw. split; [done|]. by destruct w.
  - by injection Hw as <- <-.
Qed.

Lemma stored_window_fun m t1 t2 : stored_window m t1 -> stored_window m t2 -> t1 = t2.
Proof using. unfold stored_window. destruct (m !! key); [|congruence]. intros H1' H2'. congruence. Qed.

Lemma read_window_state k d : fst (read_window k d) = d.
Proof using Type*.
  unfold read_window. rewrite M_bind_eq.
  destruct (read_spec k "failed to read command rate window" d) as [-> | [_ ->]]; [|done].
  by destruct (_ !! _).
Qed.

Lemma rate_loop_spec edge_id flow_id limits now_ms windows d :
  configured edge_id flow_id limits -> Forall (window_entry (db_contents d) now_ms) windows ->
  let res := rate_loop sha256_hex edge_id flow_id limits now_ms windows d in
  fst res = d /\
  forall windows', snd res = Ok (inr windows') ->
    Forall (window_entry (db_contents d) now_ms) windows' /\
    (forall e, e ∈ windows -> e ∈ windows') /\
    forall limit, limit ∈ limits -> of_gate edge_id flow_id limit -> exists w, (key, w) ∈ windows'.
Proof using Type*.
  intros Hconf. revert windows. induction limits as [|limit limits IH]; intros windows Hwin; cbn [rate_loop].
  { split; [done|]. intros windows' [= <-]. split; [done|]. split; [done|]. by intros limit []%not_elem_of_nil. }
  apply Forall_cons_iff in Hconf as [Hl Hconf]. rewrite M_bind_eq.
  set (k := command_rate_key sha256_hex edge_id flow_id (limit_gate_id limit)).
  pose proof (read_window_state k d) as Hst.
  destruct (read_window k d) as [d' [w|e|e]] eqn:Ew; simpl in Hst; subst d'; [|by split..].
  destruct (Z.leb_spec (limit_max_commands limit)
    (Z.of_nat (length (filter (live now_ms (limit_window_ms limit)) (accepted_at_ms w))))) as [|Hroom]; [by split|].
  set (entry := (k, {| accepted_at_ms := _ |})).
  assert (Hentry : window_entry (db_contents d) now_ms entry).
  { intros Hk. simpl in Hk. destruct (Hl Hk) as [Hmax Hwindow]. rewrite Hk in Ew.
    apply read_window_Ok in Ew as [_ Hw]. exists (accepted_at_ms w). subst entry. simpl.
    rewrite Hmax, Hwindow in *. by split. }
  assert (Hwin' : Forall (window_entry (db_contents d) now_ms) (windows ++ [entry])%list).
  { apply Forall_app. split; [done | by constructor]. }
  destruct (IH Hconf (windows ++ [entry])%list Hwin') as [Hd Hres].
  split; [done|]. intros windows' Hw'. destruct (Hres windows' Hw') as (Hall & Hin & Hgate).
  split; [done|]. split; [intros e He; apply Hin, elem_of_app; by left|].
  intros l [->|Hl']%elem_of_cons Hg; [|by apply (Hgate l)].
  eexists. apply Hin, elem_of_app. right. apply list_elem_of_singleton. subst entry. unfold of_gate in Hg.
  fold k in Hg. by rewrite Hg.
Qed.

(** What the batch of windows does to the entry of the gate. *)
Lemma encode_windows_lookup m now_ms windows batch m0 :
  encode_windows windows = Ok batch -> Forall (window_entry m now_ms) windows ->
  (apply_batch batch m0 !! key = m0 !! key /\ forall w, (key, w) ∉ windows) \/
  exists times, stored_window m times /\ stored_window (apply_batch batch m0) (admitted times now_ms) /\
    Z.of_nat (length (filter (live now_ms window_ms) times)) < max_commands.
Proof using Type*.
  revert batch m0. induction windows as [|[k w] windows IH]; intros batch m0; cbn [encode_windows].
  { intros [= <-] _. left. split; [done|]. intros w. apply not_elem_of_nil. }
  intros (payload & Hp & Hb)%bind_Ok [He Hall]%Forall_cons_iff.
  apply bind_Ok in Hb as (rest & Hr & [= <-]). apply with_context_Ok in Hp.
  unfold apply_batch. cbn [fold_left apply_op].
  destruct (IH rest (<[k := payload]> m0) Hr Hall) as [[Heq Hnone]|Hs]; [|by right].
  destruct (decide (k = key)) as [->|Hne].
  - right. destruct (He eq_refl) as (times & Hst & Hw & Hlt). simpl in Hw. subst w.
    exists times. split; [done|]. split; [|done]. unfold stored_window, apply_batch in *.
    rewrite Heq, lookup_insert_eq.
    destruct (json_round_trip (storable := fun _ => True) {| accepted_at_ms := admitted times now_ms |} I)
      as (p & Hto & Hfrom). congruence.
  - left. split; [by rewrite <- (lookup_insert_ne m0 k key payload)|].
    intros w'. rewrite not_elem_of_cons. split; [congruence | apply Hnone].
Qed.

(** The stored window covers the admissions [history] that still count at any
    time from [last] on. *)
Definition covers (m : gmap string bytes) (history : list Z) (last : Z) : Prop :=
  forall times, stored_window m times -> forall t, last <= t ->
    filter (live t window_ms) history `sublist_of` filter (live t window_ms) times.

Lemma covers_later m history last last' : covers m history last -> last <= last' -> covers m history last'.
Proof using. intros Hc Hle times Hs t Ht. apply (Hc times Hs). lia. Qed.

Lemma covers_same m m' history last :
  m' !! key = m !! key -> covers m history last -> covers m' history last.
Proof using. intros Heq Hc times. unfold stored_window. rewrite Heq. apply Hc. Qed.

Lemma filter_live_admitted times now t :
  now <= t -> filter (live t window_ms) (admitted times now) =
    (filter (live t window_ms) times ++ filter (live t window_ms) [now])%list.
Proof using.
  intros Hle. unfold admitted. rewrite list.filter_app, list_filter_filter. f_equal.
  apply list_filter_iff. unfold live. intros x. lia.
Qed.

Lemma covers_admitted m m' times history last now :
  covers m history last -> last <= now -> stored_window m times ->
  stored_window m' (admitted times now) ->
  covers m' history now /\ covers m' (history ++ [now])%list now.
Proof using Type*.
  intros Hc Hle Hs Hs'. split; intros times' Hs2 t Ht;
    rewrite (stored_window_fun _ _ _ Hs2 Hs'), filter_live_admitted by lia.
  - apply sublist_inserts_r, Hc; [done | lia].
  - rewrite list.filter_app. apply sublist_app; [apply Hc; [done | lia] | done].
Qed.

(** The call asks for a slot of the gate. *)
Definition concerns (edge_id flow_id : string) (limits : list CommandRateLimit) : bool :=
  existsb (fun limit =>
    bool_decide (command_rate_key sha256_hex edge_id flow_id (limit_gate_id limit) = key)) limits.

Lemma concerns_true edge_id flow_id limits :
  concerns edge_id flow_id limits = true -> exists limit, limit ∈ limits /\ of_gate edge_id flow_id limit.
Proof using.
  unfold concerns. intros (limit & Hin & Hg)%existsb_exists. exists limit.
  split; [by apply list_elem_of_In | by apply bool_decide_eq_true in Hg].
Qed.

Lemma consume_spec edge_id flow_id limits accepted_at d history last :
  let now := timestamp_millis accepted_at in
  configured edge_id flow_id limits -> covers (db_contents d) history last -> last <= now ->
  let '(d', r) := consume_command_rate_slots sha256_hex edge_id flow_id limits accepted_at d in
  covers (db_contents d') history now /\
  (concerns edge_id flow_id limits = true -> r = Ok Accepted ->
   covers (db_contents d') (history ++ [now])%list now /\
   Z.of_nat (length (filter (live now window_ms) (history ++ [now])%list)) <= max_commands).
Proof using Type*.
  intros now Hconf Hc Hle. pose proof (covers_later _ _ _ now Hc Hle) as Hc'.
  unfold consume_command_rate_slots. case_bool_decide as Hnil; [by subst limits|].
  rewrite M_bind_eq. fold now.
  destruct (rate_loop_spec edge_id flow_id limits now [] d Hconf (Forall_nil_2 _)) as [Hd Hres].
  destruct (rate_loop sha256_hex edge_id flow_id limits now [] d) as [d1 [[limit|windows]|e|e]];
    simpl in Hd, Hres; subst d1; try by split.
  destruct (Hres windows eq_refl) as (Hall & _ & Hgate). rewrite lift_bind.
  destruct (encode_windows windows) as [batch|e|e] eqn:Eb; [|by split..].
  pose proof (encode_windows_lookup _ now windows batch (db_contents d) Eb Hall) as Hlook.
  rewrite M_bind_eq. pose proof (write_spec batch "failed to persist command rate windows" d) as Hw.
  destruct (write batch _ d) as [d2 r]. simpl in Hw.
  assert (Happlied : forall m', m' = apply_batch batch (db_contents d) -> covers m' history now).
  { intros m' ->. destruct Hlook as [[Heq _] | (times & Hs & Hs' & _)]; [by eapply covers_same|].
    by eapply covers_admitted. }
  destruct Hw as [[-> Hdone] | (_ & -> & Hpart)].
  - split; [by apply Happlied|]. intros Hcon _. apply concerns_true in Hcon as (limit & Hin & Hg).
    destruct Hlook as [[_ Hnone] | (times & Hs & Hs' & Hlt)].
    { destruct (Hgate limit Hin Hg) as [w Hw]. by destruct (Hnone w). }
    rewrite Hdone. split; [by eapply covers_admitted|].
    rewrite list.filter_app, length_app.
    pose proof (sublist_length _ _ (Hc times Hs now Hle)).
    assert (length (filter (live now window_ms) [now]) <= 1)%nat by (rewrite filter_cons; case_decide; simpl; lia).
    lia.
  - split; [|done]. destruct Hpart as [-> | Hpart]; [done | by apply Happlied].
Qed.
End rate.

Section rate_trace.
Context {D : Type} `{RocksDbLaws D} `{JsonRoundTrip PersistedCommandRateWindow (fun _ => True)}
        `{JsonCodec CommandAuditRecord} `{JsonCodec EdgeConfigPackage} `{JsonCodec MqttOutboxEntry}
        `{JsonCodec MqttPublishAcknowledgement}
        (sha256_hex : bytes -> string) (key : string) (max_commands window_ms : Z).
Hypothesis Hkey : has_prefix COMMAND_RATE_PREFIX key = true.

(** The times of the requests for slots, and of those of them that were
    admitted through the gate. *)
Definition consume_time (c : StoreCall) : option Z :=
  match c with SConsume _ _ _ accepted_at => Some (timestamp_millis accepted_at) | _ => None end.

Definition admission (x : StoreCall * Result StoreAnswer) : option Z :=
  match x with
  | (SConsume edge_id flow_id limits accepted_at, Ok (ADecision Accepted)) =>
      if concerns sha256_hex key edge_id flow_id limits then Some (timestamp_millis accepted_at) else None
  | _ => None
  end.

Definition call_configured (c : StoreCall) : Prop :=
  match c with
  | SConsume edge_id flow_id limits _ => configured sha256_hex key max_commands window_ms edge_id flow_id limits
  | _ => True
  end.

(** Every admission finds at most [max_commands] admissions in its window, itself
    included. *)
Definition window_respected (history : list Z) : Prop :=
  forall before t after, history = (before ++ t :: after)%list ->
    Z.of_nat (length (filter (live t window_ms) (before ++ [t])%list)) <= max_commands.

Lemma window_respected_snoc history t :
  window_respected history ->
  Z.of_nat (length (filter (live t window_ms) (history ++ [t])%list)) <= max_commands ->
  window_respected (history ++ [t])%list.
Proof using.
  intros Hh Ht before t' after Heq. destruct after as [|a after] using rev_ind.
  - apply app_inj_tail in Heq as [<- <-]. done.
  - rewrite app_comm_cons, app_assoc in Heq. apply app_inj_tail in Heq as [-> _]. by eapply Hh.
Qed.

Lemma frame_put_audit k record :
  has_prefix COMMAND_AUDIT_PREFIX k = true -> frame key (put_command_audit k record).
Proof using Hkey.
  intros Hk. unfold put_command_audit. apply frame_bind; [apply frame_lift|]. intros payload.
  apply frame_write. repeat constructor. simpl. intros <-.
  apply prefix_head in Hk as Hhead, Hkey as Hhead'.
  unfold has_prefix, starts_with in Hk, Hkey.
  apply bytes_prefix_app in Hk as [r1 E1], Hkey as [r2 E2]. rewrite E1 in E2. done.
Qed.

Lemma frame_non_consume c : consume_time c = None -> frame key (run_store sha256_hex c).
Proof using Hkey.
  intros Hc. assert (Hk : command_key key) by by right.
  destruct c; try done; unfold run_store, store_answer; (apply frame_bind; [|intros; apply frame_ret]).
  - unfold claim_command. destruct (_ || _); [apply frame_lift|].
    apply frame_bind; [apply frame_audit_by_key|]. intros [existing|].
    + destruct (negb _); apply frame_ret.
    + apply frame_bind; [apply frame_put_audit, audit_key_prefix|]. intros. apply frame_ret.
  - unfold complete_command. apply frame_bind; [apply frame_audit_by_key|]. intros existing.
    do 3 (apply frame_bind; [apply frame_lift|]; intros).
    apply frame_bind; [apply frame_put_audit, audit_key_prefix|]. intros. apply frame_ret.
  - by apply frame_put_config.
  - by apply frame_promote.
  - by apply frame_outbox.
Qed.

Lemma rate_trace cs d history last :
  Forall call_configured cs -> StronglySorted Z.le (last :: omap consume_time cs) ->
  covers key window_ms (db_contents d) history last -> window_respected history ->
  window_respected (history ++ omap admission (snd (run_store_calls sha256_hex cs d)))%list.
Proof using Type*.
  intros Hcs. revert d history last.
  induction Hcs as [|c cs Hc Hcs IH]; intros d history last Hsorted Hcov Hok; [by rewrite app_nil_r|].
  cbn [run_store_calls]. destruct (consume_time c) as [t|] eqn:Et.
  - destruct c as [?|?|edge_id flow_id limits accepted_at|?|?|?]; try done. injection Et as <-.
    apply StronglySorted_inv in Hsorted as [Hsorted [Hle _]%Forall_cons_iff].
    pose proof (consume_spec sha256_hex key max_commands window_ms edge_id flow_id limits accepted_at d
      history last Hc Hcov Hle) as Hstep.
    cbn [run_store]. unfold store_answer. rewrite M_bind_eq.
    destruct (consume_command_rate_slots sha256_hex edge_id flow_id limits accepted_at d) as [d' r].
    destruct Hstep as [Hcov' Hacc].
    destruct r as [[|limit]|e|e]; cbn [mret M_ret];
      [destruct (concerns sha256_hex key edge_id flow_id limits) eqn:Ec|..];
      lazymatch goal with
      | Hx : concerns _ _ _ _ _ = true |- _ =>
          destruct (Hacc eq_refl eq_refl) as [Hcov2 Hlen];
          specialize (IH d' _ _ Hsorted Hcov2 (window_respected_snoc _ _ Hok Hlen))
      | _ => specialize (IH d' _ _ Hsorted Hcov' Hok)
      end;
      destruct (run_store_calls sha256_hex cs d') as [d2 rs]; cbn [snd omap list_omap admission];
      rewrite ?Ec; rewrite <- ?app_assoc in IH; exact IH.
  - cbn [omap list_omap] in Hsorted. rewrite Et in Hsorted.
    pose proof (frame_non_consume c Et d) as Hframe.
    destruct (run_store sha256_hex c d) as [d' r]. simpl in Hframe.
    specialize (IH d' history last Hsorted (covers_same _ _ _ _ _ _ Hframe Hcov) Hok).
    destruct (run_store_calls sha256_hex cs d') as [d2 rs]. cbn [snd omap list_omap].
    by destruct c.
Qed.
End rate_trace.

(** ** Configurations *)

Section configs.
Context {D : Type} `{RocksDbLaws D} (storable : EdgeConfigPackage -> Prop)
        `{JsonRoundTrip EdgeConfigPackage storable}.

Lemma active_desired_ne edge_id edge_id' version :
  active_config_key edge_id <> desired_config_key edge_id' version.
Proof using.
  intros Heq%(f_equal str_bytes). unfold active_config_key, desired_config_key in Heq.
  by rewrite !str_bytes_app in Heq.
Qed.

Lemma put_desired_stored package d d' :
  storable package -> put_desired_config package d = (d', Ok ()) ->
  exists p, db_contents d' !! desired_config_key (pkg_edge_id package) (pkg_version package) = Some p /\
    from_slice p = Ok package.
Proof using Type*.
  intros Hst. set (key := desired_config_key _ _). destruct (json_round_trip package Hst) as (p & Hto & Hfrom).
  unfold put_desired_config. rewrite lift_bind. destruct (ensure _ _); [|done..].
  rewrite lift_bind. destruct (ensure _ _); [|done..].
  rewrite lift_bind, Hto. cbn [with_context]. fold key. intros Hput. exists p. split; [|done].
  destruct (write_spec [Put key p] "failed to persist desired config package" d) as [[_ Hc]|(_ & Hbad & _)];
    rewrite Hput in *; [|done]. simpl in Hc. rewrite Hc. by rewrite lookup_insert_eq.
Qed.

Lemma desired_config_state edge_id version d : fst (desired_config edge_id version d) = d.
Proof using.
  unfold desired_config, read. rewrite M_bind_eq. destruct (with_context _ _) as [[v|]|e|e]; try done.
  rewrite lift_bind. by destruct (with_context _ _).
Qed.

Lemma promote_stored edge_id version d d' :
  promote_active_config edge_id version d = (d', Ok ()) ->
  db_contents d' = <[active_config_key edge_id := str_bytes version]> (db_contents d).
Proof using H0.
  unfold promote_active_config. intros (d0 & found & Hd0 & Hw)%M_bind_Ok.
  pose proof (desired_config_state edge_id version d) as Hst. rewrite Hd0 in Hst. simpl in Hst. subst d0.
  rewrite lift_bind in Hw. destruct (ensure _ _) in Hw; [|done..].
  destruct (write_spec [Put (active_config_key edge_id) (str_bytes version)] "failed to promote active config" d)
    as [[_ Hc]|(_ & Hbad & _)]; rewrite Hw in *; done.
Qed.
End configs.

(** ** Properties *)

Section properties.
Context {D : Type} `{RocksDbLaws D} (storable : CommandAuditRecord -> Prop)
        (storable_package : EdgeConfigPackage -> Prop)
        `{JsonRoundTrip CommandAuditRecord storable}
        `{JsonRoundTrip PersistedCommandRateWindow (fun _ => True)}
        `{JsonRoundTrip EdgeConfigPackage storable_package}
        `{JsonCodec MqttOutboxEntry} `{JsonCodec MqttPublishAcknowledgement}
        (sha256_hex : bytes -> string).

(** A command starts at most once: in any sequence of calls of the store,
    whatever the database answers and from whatever contents, at most one claim
    of a given edge, flow and command id is answered with [Started]. *)
Theorem command_starts_once (cs : list StoreCall) (d : D) (edge_id flow_id command_id : string) :
  (length (filter (fun x => started_for edge_id flow_id command_id x = true)
             (snd (run_store_calls sha256_hex cs d))) <= 1)%nat.
Proof using H0. apply starts_bound. Qed.

(** A completed command is replayed, not executed: after a completion that
    succeeded, a claim with the same payload is a duplicate that carries the
    stored record, whose report is the one of the first execution marked as a
    duplicate; a claim with another digest is a conflict; and the record cannot
    be completed again. *)
Theorem completed_command_is_replayed edge_id payload report (d d' : D) record now :
  complete_command sha256_hex edge_id payload report d = (d', Ok record) ->
  storable record -> db_healthy d' ->
  is_blank edge_id || is_blank (rep_flow_id report) || is_blank (rep_command_id report) = false ->
  claim_command sha256_hex edge_id (rep_flow_id report) (rep_command_id report) payload now d' =
    (d', Ok (Duplicate record)) /\
  (forall payload', sha256_hex payload' <> sha256_hex payload ->
   claim_command sha256_hex edge_id (rep_flow_id report) (rep_command_id report) payload' now d' =
     (d', Ok (Conflict record))) /\
  (exists old, record = completed_record old report /\
    (audit_flow_id old = rep_flow_id report -> audit_command_id old = rep_command_id report ->
     execution_report record = Some (as_duplicate report))) /\
  complete_command sha256_hex edge_id payload report d' =
    (d', Err ("command " ++ rep_command_id report ++ " has already completed")).
Proof using H0 H2.
  intros (old & d1 & -> & Hdig & _ & Hput)%complete_Ok Hst Hh Hblank.
  destruct (put_audit_stored storable _ _ _ _ Hst Hput) as (p & Hp & Hfrom).
  pose proof (completed_state old report) as Hstate.
  destruct (audit_by_key_reads storable (command_audit_key sha256_hex edge_id (rep_flow_id report) (rep_command_id report)) d')
    as [Hread|[Hbad _]]; [|done].
  rewrite Hp, Hfrom in Hread. cbn [with_context fmap Result_fmap] in Hread.
  unfold claim_command, complete_command. rewrite Hblank. cbv zeta. split_and!.
  - rewrite M_bind_eq, Hread, bool_decide_true by done. cbn [negb].
    by destruct (audit_state (completed_record old report)).
  - intros payload' Hne. rewrite M_bind_eq, Hread, bool_decide_false; [done|].
    simpl. by rewrite Hdig.
  - exists old. split; [done|]. intros Hf Hc. unfold execution_report, completed_record, as_duplicate. simpl.
    destruct (rep_status report) eqn:Es; simpl; by rewrite Hf, Hc.
  - rewrite M_bind_eq, Hread, lift_bind. cbn [ok_or]. rewrite lift_bind, bool_decide_true by done.
    cbn [ensure]. by rewrite lift_bind, bool_decide_false.
Qed.

(** [C28] The rate limit holds: in any sequence of calls of the store in which
    the clock does not run back and the limits of the gate are the configured
    ones, every command admitted through the gate has at most [max_commands]
    admissions, itself included, in the window before it, also when the
    database fails in between. *)
Theorem rate_limit_holds (cs : list StoreCall) (d : D) edge_id flow_id gate_id (max_commands window_ms : Z) :
  let key := command_rate_key sha256_hex edge_id flow_id gate_id in
  Forall (call_configured sha256_hex key max_commands window_ms) cs ->
  StronglySorted Z.le (omap consume_time cs) ->
  window_respected max_commands window_ms
    (omap (admission sha256_hex key) (snd (run_store_calls sha256_hex cs d))).
Proof using H0 H4.
  intros key Hcs Hsorted.
  assert (Hkey : has_prefix COMMAND_RATE_PREFIX key = true).
  { unfold has_prefix, starts_with, key, command_rate_key. rewrite str_bytes_app. apply bytes_prefix_app. eauto. }
  set (last := default 0 (head (omap consume_time cs))).
  apply (rate_trace sha256_hex key max_commands window_ms Hkey cs d [] last); [done| | |].
  - constructor; [done|]. destruct (omap consume_time cs) as [|t l]; [constructor|].
    apply StronglySorted_inv in Hsorted as [_ Hall]. by constructor.
  - intros times _ t _. apply sublist_nil_l.
  - intros before t after Heq. by destruct before.
Qed.

(** A configuration that is stored and promoted is the active one: when
    both calls succeed, the active configuration of the edge is the package that
    was stored. *)
Theorem promoted_config_is_active package (d d1 d2 : D) :
  storable_package package -> put_desired_config package d = (d1, Ok ()) ->
  promote_active_config (pkg_edge_id package) (pkg_version package) d1 = (d2, Ok ()) ->
  db_healthy d2 -> utf8_valid (str_bytes (pkg_version package)) = true ->
  active_config (pkg_edge_id package) d2 = (d2, Ok (Some package)).
Proof using H0 H6.
  intros Hst Hput Hc%promote_stored Hh Hutf.
  destruct (put_desired_stored storable_package _ _ _ Hst Hput) as (p & Hstored & Hfrom).
  unfold active_config, active_version. rewrite !M_bind_eq.
  destruct (read_spec (active_config_key (pkg_edge_id package)) "failed to read active config version" d2)
    as [-> | [? _]]; [|done].
  rewrite Hc, lookup_insert_eq, Hutf. cbn [mret M_ret]. rewrite str_of_str_bytes.
  unfold desired_config. rewrite M_bind_eq.
  destruct (read_spec (desired_config_key (pkg_edge_id package) (pkg_version package))
              "failed to read desired config package" d2) as [-> | [? _]]; [|done].
  rewrite Hc, lookup_insert_ne, Hstored by apply active_desired_ne. by rewrite lift_bind, Hfrom.
Qed.
End properties.

(** The key of a stored configuration does not separate the edge from the
    version: two different pairs share one entry. *)
Lemma desired_config_keys_collide :
  desired_config_key "plant/a" "v1" = desired_config_key "plant" "a/v1".
Proof. reflexivity. Qed.

(** ** Examples *)

Module StoreCodecs.
Import MemoryDb Codecs.

#[export] Instance f64_eq_dec : EqDecision f64.
Proof. solve_decision. Defined.

#[export] Program Instance f64_countable : Countable f64 :=
  inj_countable'
    (fun x => match x with
              | SpecFloat.S754_zero s => inl (inl s)
              | SpecFloat.S754_infinity s => inl (inr s)
              | SpecFloat.S754_nan => inr (inl ())
              | SpecFloat.S754_finite s m e => inr (inr (s, m, e))
              end)
    (fun c => match c with
              | inl (inl s) => SpecFloat.S754_zero s
              | inl (inr s) => SpecFloat.S754_infinity s
              | inr (inl ()) => SpecFloat.S754_nan
              | inr (inr (s, m, e)) => SpecFloat.S754_finite s m e
              end) _.
Next Obligation. by intros []. Qed.

#[export] Instance value_eq_dec : EqDecision TelemetryValue.
Proof. solve_decision. Defined.

#[export] Program Instance value_countable : Countable TelemetryValue :=
  inj_countable'
    (fun v => match v with
              | VFloat x => inl (inl x) | VInteger i => inl (inr i)
              | VBoolean b => inr (inl b) | VText s => inr (inr s)
              end)
    (fun c => match c with
              | inl (inl x) => VFloat x | inl (inr i) => VInteger i
              | inr (inl b) => VBoolean b | inr (inr s) => VText s
              end) _.
Next Obligation. by intros []. Qed.

#[export] Instance write_record_eq_dec : EqDecision CommandWriteRecord.
Proof. solve_decision. Defined.

#[export] Program Instance write_record_countable : Countable CommandWriteRecord :=
  inj_countable'
    (fun w => (wr_node_id w, wr_point_id w, wr_device_id w, wr_value w, wr_verified w,
               bool_decide (wr_verification w = Readback), wr_readback_value w))
    (fun '(a, b, c, d, e, f, g) =>
       Build_CommandWriteRecord a b c d e (if f : bool then Readback else Response) g) _.
Next Obligation. by intros [? ? ? ? ? [] ?]. Qed.

#[export] Instance audit_eq_dec : EqDecision CommandAuditRecord.
Proof. solve_decision. Defined.

#[export] Program Instance audit_countable : Countable CommandAuditRecord :=
  inj_countable'
    (fun r => (audit_edge_id r, audit_flow_id r, audit_command_id r, audit_source r, audit_payload_digest r,
               match audit_state r with Processing => 0 | AuditSucceeded => 1 | AuditFailed => 2 end,
               audit_accepted_at r, audit_completed_at r, audit_writes r, audit_error r, audit_replies r))
    (fun '(a, b, c, d, e, f, g, h, i, j, k) =>
       Build_CommandAuditRecord a b c d e
         (if f =? 0 then Processing else if f =? 1 then AuditSucceeded else AuditFailed) g h i j k) _.
Next Obligation. by intros [? ? ? ? ? [] ? ? ? ? ?]. Qed.

#[export] Instance audit_codec : JsonCodec CommandAuditRecord := countable_codec _.
#[export] Instance audit_round_trip : JsonRoundTrip CommandAuditRecord (fun _ => True) :=
  countable_round_trip _ _.

#[export] Instance window_codec : JsonCodec PersistedCommandRateWindow := {|
  to_vec w := to_vec (JsonCodec := countable_codec (list Z)) (accepted_at_ms w);
  from_slice p := (fun l => {| accepted_at_ms := l |}) <$> from_slice (JsonCodec := countable_codec (list Z)) p;
|}.
#[export] Instance window_round_trip : JsonRoundTrip PersistedCommandRateWindow (fun _ => True).
Proof.
  intros [l] _. destruct (countable_round_trip (list Z) (fun _ => True) l I) as (p & Hto & Hfrom).
  exists p. split; [done|]. cbn [from_slice window_codec]. by rewrite Hfrom.
Qed.

(** An encoding of the packages that have an edge and a version only. *)
Definition bare_package (p : EdgeConfigPackage) : Prop := p = new_package (pkg_edge_id p) (pkg_version p).

#[export] Instance package_codec : JsonCodec EdgeConfigPackage := {|
  to_vec p := to_vec (JsonCodec := countable_codec (string * string)) (pkg_edge_id p, pkg_version p);
  from_slice p := (fun e => new_package (fst e) (snd e)) <$>
    from_slice (JsonCodec := countable_codec (string * string)) p;
|}.
#[export] Instance package_round_trip : JsonRoundTrip EdgeConfigPackage bare_package.
Proof.
  intros p Hp. destruct (countable_round_trip (string * string) (fun _ => True) (pkg_edge_id p, pkg_version p) I)
    as (payload & Hto & Hfrom).
  exists payload. split; [done|]. cbn [from_slice package_codec]. rewrite Hfrom. simpl. by rewrite <- Hp.
Qed.
End StoreCodecs.

Section examples.
Import MemoryDb Codecs StoreCodecs.

Abbreviation db := (gmap string bytes).

(** A digest that separates payloads by their length. *)
Definition length_digest (payload : bytes) : string := show_Z (Z.of_nat (length payload)).

Definition example_limit : CommandRateLimit :=
  {| limit_gate_id := "gate"; limit_max_commands := 2; limit_window_ms := 1000 |}.

Definition consume_at (t : Z) : StoreCall := SConsume "edge-1" "flow-1" [example_limit] (t * 1000000).

Definition example_report : CommandExecutionReport :=
  record_write (new_report "flow-1" "c1" 20) example_write
    {| res_point_id := "setpoint"; res_value := VFloat (f64_of_Z 42); res_verified := true;
       res_readback_value := None |}.

Definition example_claim (now : Z) : StoreCall := SClaim "edge-1" "flow-1" "c1" [1] now.

Lemma command_starts_once_witness :
  (length (filter (fun x => started_for "edge-1" "flow-1" "c1" x = true)
     (snd (run_store_calls length_digest (example_claim <$> [5; 6]%Z) (∅ : db)))) <= 1)%nat.
Proof. apply (command_starts_once (D := db)). Defined.

(** Two admissions in a second, the third only after the first has left the
    window. *)
Example rate_example :
  omap (admission length_digest (command_rate_key length_digest "edge-1" "flow-1" "gate"))
    (snd (run_store_calls length_digest (consume_at <$> [0; 400; 800; 1000]) (∅ : db))) = [0; 400; 1000].
Proof. vm_compute. reflexivity. Qed.

Lemma rate_limit_holds_witness :
  window_respected 2 1000
    (omap (admission length_digest (command_rate_key length_digest "edge-1" "flow-1" "gate"))
      (snd (run_store_calls length_digest (consume_at <$> [0; 400; 800; 1000]) (∅ : db)))).
Proof.
  apply (rate_limit_holds (D := db)).
  - repeat constructor.
  - repeat constructor; vm_compute; congruence.
Defined.

Lemma completed_command_is_replayed_witness :
  exists d record,
    claim_command length_digest "edge-1" "flow-1" "c1" [1; 2] 30 (d : db) = (d, Ok (Duplicate record)).
Proof.
  set (d0 := fst (claim_command length_digest "edge-1" "flow-1" "c1" [1; 2] 10 (∅ : db))).
  destruct (complete_command length_digest "edge-1" [1; 2] example_report d0) as [d r] eqn:E.
  destruct r as [record|e|e]; [|exfalso; apply (f_equal (fun x => is_ok (snd x))) in E; vm_compute in E; discriminate..].
  exists d, record.
  apply (completed_command_is_replayed (D := db) (fun _ => True) length_digest "edge-1" [1; 2] example_report d0 d
    record 30 E I); [exact I | vm_compute; reflexivity].
Defined.

Lemma promoted_config_is_active_witness :
  let d1 := fst (put_desired_config (new_package "edge-1" "v1") (∅ : db)) in
  let d2 := fst (promote_active_config "edge-1" "v1" d1) in
  active_config "edge-1" d2 = (d2, Ok (Some (new_package "edge-1" "v1"))).
Proof.
  intros d1 d2.
  apply (promoted_config_is_active (D := db) bare_package (new_package "edge-1" "v1") ∅ d1 d2);
    [reflexivity | | | exact I | vm_compute; reflexivity].
  - apply injective_projections; [reflexivity | vm_compute; reflexivity].
  - apply injective_projections; [reflexivity | vm_compute; reflexivity].
Defined.
End examples.
