(* ===== verification/RuntimeState.v ===== *)
(** The state of [ConfiguredEdgeRuntime] that collection and commands share
    ([crates/edge-runtime/src/configured_runtime.rs]): shadows, protocol metrics,
    circuit breakers and command rate windows.

    The protocol adapters are behind the traits [ProtocolAdapter] and
    [ProtocolCommandAdapter] ([crates/edge-runtime/src/protocol.rs]); the class
    [Adapters] has the calls the runtime makes through them on the world [W]
    they act on.  The fields [*_adapters] of the runtime, its cache of opened
    adapters, belong to that world. *)

From Stdlib Require Import ZArith Lia.
From S2P Require Import Prelude RustStr Floats Model ConfigTypes CircuitBreaker CommandPlan.

Open Scope string_scope.
Open Scope Z_scope.

(** [crates/edge-core/src/observability.rs]. *)
Record ProtocolRuntimeMetrics := {
  pm_connection_id : string;
  pm_protocol : string;
  pm_connected : bool;
  pm_latency_ms : Z;
  pm_timeout_count : Z;
  pm_error_count : Z;
  pm_reconnect_count : Z;
  pm_collection_attempt_count : Z;
  pm_collection_success_count : Z;
  pm_write_attempt_count : Z;
  pm_write_success_count : Z;
  pm_circuit_state : ProtocolCircuitState;
  pm_consecutive_failure_count : Z;
  pm_circuit_open_count : Z;
  pm_circuit_rejected_count : Z;
  pm_last_quality_code : option DataQualityCode;
  pm_good_value_count : Z;
  pm_uncertain_value_count : Z;
  pm_bad_value_count : Z;
  pm_subscription_count : Z;
  pm_notification_count : Z;
  pm_subscription_error_count : Z;
  pm_fallback_poll_count : Z;
}.

Record Runtime (W : Type) := {
  rt_shadows : gmap string DeviceShadow;
  rt_metrics : gmap string ProtocolRuntimeMetrics;
  rt_breakers : Registry.t;
  rt_rate_windows : gmap (string * string) (list Instant);
  rt_world : W;
}.
Arguments rt_shadows {W} _.
Arguments rt_metrics {W} _.
Arguments rt_breakers {W} _.
Arguments rt_rate_windows {W} _.
Arguments rt_world {W} _.

(** The adapters, on the world they act on.  [adapter_ready] is the construction
    of a kept adapter and its [set_mappings]; the other calls open a serial bus
    or a transient adapter where the protocol has one, except [read_back], the
    [read_telemetry] of the adapter that has just written the point. *)
Class Adapters (W : Type) := {
  adapter_ready : ProtocolConnection -> list TelemetryPointMapping -> M W ();
  read_telemetry : ProtocolConnection -> list TelemetryPointMapping -> M W (list TelemetrySample);
  write_point : ProtocolConnection -> TelemetryPointMapping -> TelemetryValue -> M W ProtocolWriteResult;
  read_back : ProtocolConnection -> TelemetryPointMapping -> M W (list TelemetrySample);
  write_prefix : ProtocolConnection -> list (TelemetryPointMapping * TelemetryValue) ->
    M W (nat * list ProtocolWriteResult);
}.

(** The protocols whose adapter is kept between calls. *)
Definition kept_adapter (p : ProtocolType) : bool :=
  match p with
  | Iec104 | OpcUa | BacnetIp | SiemensS7 | OmronFins => true
  | Simulated | ModbusTcp | ModbusRtu | Dlt645 | Iec101 | CustomSerial => false
  end.

Definition format_protocol (p : ProtocolType) : string :=
  match p with
  | Simulated => "Simulated" | ModbusTcp => "Modbus TCP" | ModbusRtu => "Modbus RTU"
  | Dlt645 => "DL/T645" | Iec101 => "IEC-101" | Iec104 => "IEC-104"
  | CustomSerial => "Custom Serial" | OpcUa => "OPC UA" | BacnetIp => "BACnet/IP"
  | SiemensS7 => "Siemens S7" | OmronFins => "Omron FINS"
  end.

(** [{protocol:?}]. *)
Definition debug_protocol (p : ProtocolType) : string :=
  match p with
  | Simulated => "Simulated" | ModbusTcp => "ModbusTcp" | ModbusRtu => "ModbusRtu"
  | Dlt645 => "Dlt645" | Iec101 => "Iec101" | Iec104 => "Iec104"
  | CustomSerial => "CustomSerial" | OpcUa => "OpcUa" | BacnetIp => "BacnetIp"
  | SiemensS7 => "SiemensS7" | OmronFins => "OmronFins"
  end.

(** [duration] in nanoseconds. *)
Definition elapsed_millis (duration : Z) : Z :=
  if duration =? 0 then 0 else Z.min (Z.max (duration / 1000000) 1) (u_max 64).

Section state.
Context {W : Type}.

Definition set_shadows (f : gmap string DeviceShadow -> gmap string DeviceShadow) : M (Runtime W) () :=
  modify (fun rt => {| rt_shadows := f (rt_shadows rt); rt_metrics := rt_metrics rt;
    rt_breakers := rt_breakers rt; rt_rate_windows := rt_rate_windows rt; rt_world := rt_world rt |}).

Definition set_breakers (b : Registry.t) : M (Runtime W) () :=
  modify (fun rt => {| rt_shadows := rt_shadows rt; rt_metrics := rt_metrics rt; rt_breakers := b;
    rt_rate_windows := rt_rate_windows rt; rt_world := rt_world rt |}).

Definition set_rate_windows (w : gmap (string * string) (list Instant)) : M (Runtime W) () :=
  modify (fun rt => {| rt_shadows := rt_shadows rt; rt_metrics := rt_metrics rt;
    rt_breakers := rt_breakers rt; rt_rate_windows := w; rt_world := rt_world rt |}).

(** A call through an adapter. *)
Definition on_world {A} (m : M W A) : M (Runtime W) A := fun rt =>
  let '(w, r) := m (rt_world rt) in
  ({| rt_shadows := rt_shadows rt; rt_metrics := rt_metrics rt; rt_breakers := rt_breakers rt;
      rt_rate_windows := rt_rate_windows rt; rt_world := w |}, r).

(** [match result { Ok .. | Err .. }]: an error is a value, a panic is not. *)
Definition attempt {S A} (m : M S A) : M S (A + string) := fun s =>
  match m s with
  | (s, Ok a) => (s, Ok (inl a))
  | (s, Err e) => (s, Ok (inr e))
  | (s, Panic e) => (s, Panic e)
  end.

(** [self.protocol_metrics.get_mut(id).expect("configured connection must have
    a metric entry")] and an update of the entry. *)
Definition update_metric (id : string) (f : ProtocolRuntimeMetrics -> ProtocolRuntimeMetrics)
    : M (Runtime W) () := fun rt =>
  match rt_metrics rt !! id with
  | Some metric =>
      ({| rt_shadows := rt_shadows rt; rt_metrics := <[id := f metric]> (rt_metrics rt);
          rt_breakers := rt_breakers rt; rt_rate_windows := rt_rate_windows rt;
          rt_world := rt_world rt |}, Ok ())
  | None => (rt, Panic "configured connection must have a metric entry")
  end.

(** ** Updates of a metric *)

Definition with_circuit (s : CircuitBreakerSnapshot) (m : ProtocolRuntimeMetrics) : ProtocolRuntimeMetrics :=
  {| pm_connection_id := pm_connection_id m; pm_protocol := pm_protocol m; pm_connected := pm_connected m;
     pm_latency_ms := pm_latency_ms m; pm_timeout_count := pm_timeout_count m;
     pm_error_count := pm_error_count m; pm_reconnect_count := pm_reconnect_count m;
     pm_collection_attempt_count := pm_collection_attempt_count m;
     pm_collection_success_count := pm_collection_success_count m;
     pm_write_attempt_count := pm_write_attempt_count m; pm_write_success_count := pm_write_success_count m;
     pm_circuit_state := snap_state s; pm_consecutive_failure_count := snap_consecutive_failures s;
     pm_circuit_open_count := snap_open_count s; pm_circuit_rejected_count := snap_rejected_count s;
     pm_last_quality_code := pm_last_quality_code m; pm_good_value_count := pm_good_value_count m;
     pm_uncertain_value_count := pm_uncertain_value_count m; pm_bad_value_count := pm_bad_value_count m;
     pm_subscription_count := pm_subscription_count m; pm_notification_count := pm_notification_count m;
     pm_subscription_error_count := pm_subscription_error_count m;
     pm_fallback_poll_count := pm_fallback_poll_count m |}.

(** The link fields: connected, latency, timeouts, errors. *)
Definition with_link (connected : bool) (latency_ms timeouts errors : Z) (m : ProtocolRuntimeMetrics)
    : ProtocolRuntimeMetrics :=
  {| pm_connection_id := pm_connection_id m; pm_protocol := pm_protocol m; pm_connected := connected;
     pm_latency_ms := latency_ms; pm_timeout_count := timeouts; pm_error_count := errors;
     pm_reconnect_count := pm_reconnect_count m;
     pm_collection_attempt_count := pm_collection_attempt_count m;
     pm_collection_success_count := pm_collection_success_count m;
     pm_write_attempt_count := pm_write_attempt_count m; pm_write_success_count := pm_write_success_count m;
     pm_circuit_state := pm_circuit_state m; pm_consecutive_failure_count := pm_consecutive_failure_count m;
     pm_circuit_open_count := pm_circuit_open_count m; pm_circuit_rejected_count := pm_circuit_rejected_count m;
     pm_last_quality_code := pm_last_quality_code m; pm_good_value_count := pm_good_value_count m;
     pm_uncertain_value_count := pm_uncertain_value_count m; pm_bad_value_count := pm_bad_value_count m;
     pm_subscription_count := pm_subscription_count m; pm_notification_count := pm_notification_count m;
     pm_subscription_error_count := pm_subscription_error_count m;
     pm_fallback_poll_count := pm_fallback_poll_count m |}.

(** The counters of attempts and successes. *)
Definition with_counts (collections collected writes written : Z) (m : ProtocolRuntimeMetrics)
    : ProtocolRuntimeMetrics :=
  {| pm_connection_id := pm_connection_id m; pm_protocol := pm_protocol m; pm_connected := pm_connected m;
     pm_latency_ms := pm_latency_ms m; pm_timeout_count := pm_timeout_count m;
     pm_error_count := pm_error_count m; pm_reconnect_count := pm_reconnect_count m;
     pm_collection_attempt_count := collections; pm_collection_success_count := collected;
     pm_write_attempt_count := writes; pm_write_success_count := written;
     pm_circuit_state := pm_circuit_state m; pm_consecutive_failure_count := pm_consecutive_failure_count m;
     pm_circuit_open_count := pm_circuit_open_count m; pm_circuit_rejected_count := pm_circuit_rejected_count m;
     pm_last_quality_code := pm_last_quality_code m; pm_good_value_count := pm_good_value_count m;
     pm_uncertain_value_count := pm_uncertain_value_count m; pm_bad_value_count := pm_bad_value_count m;
     pm_subscription_count := pm_subscription_count m; pm_notification_count := pm_notification_count m;
     pm_subscription_error_count := pm_subscription_error_count m;
     pm_fallback_poll_count := pm_fallback_poll_count m |}.

(** The quality fields. *)
Definition with_quality (last : option DataQualityCode) (good uncertain bad : Z) (m : ProtocolRuntimeMetrics)
    : ProtocolRuntimeMetrics :=
  {| pm_connection_id := pm_connection_id m; pm_protocol := pm_protocol m; pm_connected := pm_connected m;
     pm_latency_ms := pm_latency_ms m; pm_timeout_count := pm_timeout_count m;
     pm_error_count := pm_error_count m; pm_reconnect_count := pm_reconnect_count m;
     pm_collection_attempt_count := pm_collection_attempt_count m;
     pm_collection_success_count := pm_collection_success_count m;
     pm_write_attempt_count := pm_write_attempt_count m; pm_write_success_count := pm_write_success_count m;
     pm_circuit_state := pm_circuit_state m; pm_consecutive_failure_count := pm_consecutive_failure_count m;
     pm_circuit_open_count := pm_circuit_open_count m; pm_circuit_rejected_count := pm_circuit_rejected_count m;
     pm_last_quality_code := last; pm_good_value_count := good;
     pm_uncertain_value_count := uncertain; pm_bad_value_count := bad;
     pm_subscription_count := pm_subscription_count m; pm_notification_count := pm_notification_count m;
     pm_subscription_error_count := pm_subscription_error_count m;
     pm_fallback_poll_count := pm_fallback_poll_count m |}.

Definition set_connected (b : bool) (m : ProtocolRuntimeMetrics) : ProtocolRuntimeMetrics :=
  with_link b (pm_latency_ms m) (pm_timeout_count m) (pm_error_count m) m.

Definition set_latency (ms : Z) (m : ProtocolRuntimeMetrics) : ProtocolRuntimeMetrics :=
  with_link (pm_connected m) ms (pm_timeout_count m) (pm_error_count m) m.

Definition set_last_quality (code : DataQualityCode) (m : ProtocolRuntimeMetrics) : ProtocolRuntimeMetrics :=
  with_quality (Some code) (pm_good_value_count m) (pm_uncertain_value_count m) (pm_bad_value_count m) m.

(** The error message names a timeout. *)
Definition is_timeout (error : string) : bool :=
  let message := str_to_ascii_lowercase error in
  str_contains message "timeout" || str_contains message "timed out".

(** The common end of a failed call: [connected], [error_count] and, for a
    timeout, [timeout_count]. *)
Definition count_failure (error : string) (m : ProtocolRuntimeMetrics) : ProtocolRuntimeMetrics :=
  with_link false (pm_latency_ms m)
    (if is_timeout error then sat_add 64 (pm_timeout_count m) 1 else pm_timeout_count m)
    (sat_add 64 (pm_error_count m) 1) m.

Definition count_write_attempt (m : ProtocolRuntimeMetrics) : ProtocolRuntimeMetrics :=
  with_counts (pm_collection_attempt_count m) (pm_collection_success_count m)
    (sat_add 64 (pm_write_attempt_count m) 1) (pm_write_success_count m) m.

Definition count_write_success (m : ProtocolRuntimeMetrics) : ProtocolRuntimeMetrics :=
  with_counts (pm_collection_attempt_count m) (pm_collection_success_count m)
    (pm_write_attempt_count m) (sat_add 64 (pm_write_success_count m) 1) (set_connected true m).

Definition count_collection_attempt (m : ProtocolRuntimeMetrics) : ProtocolRuntimeMetrics :=
  with_counts (sat_add 64 (pm_collection_attempt_count m) 1) (pm_collection_success_count m)
    (pm_write_attempt_count m) (pm_write_success_count m) m.

(** ** Circuit breakers *)

Definition sync_circuit_metric (id : string) (snapshot : CircuitBreakerSnapshot) : M (Runtime W) () :=
  update_metric id (with_circuit snapshot).

(** [Display] of [ProtocolCircuitOpenError]. *)
Definition circuit_error (e : ProtocolCircuitOpenError) : string :=
  "protocol connection " ++ err_connection_id e ++ " circuit breaker is open; retry after " ++
  show_Z (err_retry_after_ms e) ++ " ms".

Definition allow_protocol_request (id : string) (now : Instant) : M (Runtime W) () :=
  breakers ← gets rt_breakers;
  '(breakers, decision) ← lift (Registry.registry_allow breakers id now);
  _ ← set_breakers breakers;
  match decision with
  | inl snapshot => sync_circuit_metric id snapshot
  | inr error =>
      snapshot ← lift (Registry.registry_snapshot breakers id);
      _ ← sync_circuit_metric id snapshot;
      _ ← update_metric id (fun m => set_last_quality BadOutOfService (set_connected false m));
      lift (Err (circuit_error error))
  end.

Definition record_protocol_success (id : string) : M (Runtime W) () :=
  breakers ← gets rt_breakers;
  '(breakers, snapshot) ← lift (Registry.registry_success breakers id);
  _ ← set_breakers breakers;
  sync_circuit_metric id snapshot.

Definition record_protocol_failure (id : string) (now : Instant) : M (Runtime W) () :=
  breakers ← gets rt_breakers;
  '(breakers, snapshot) ← lift (Registry.registry_failure breakers id now);
  _ ← set_breakers breakers;
  sync_circuit_metric id snapshot.
End state.

(** ** Initial state *)

(** [new_with_circuit_breakers], from the point where the package is accepted
    and the algorithm engine built; the registry may come from an earlier
    runtime. *)
Definition initial_metric (breakers : Registry.t) (c : ProtocolConnection) : Result ProtocolRuntimeMetrics :=
  circuit ← Registry.registry_snapshot breakers (conn_id c);
  Ok {| pm_connection_id := conn_id c; pm_protocol := format_protocol (conn_protocol c);
        pm_connected := false; pm_latency_ms := 0; pm_timeout_count := 0; pm_error_count := 0;
        pm_reconnect_count := 0; pm_collection_attempt_count := 0; pm_collection_success_count := 0;
        pm_write_attempt_count := 0; pm_write_success_count := 0;
        pm_circuit_state := snap_state circuit;
        pm_consecutive_failure_count := snap_consecutive_failures circuit;
        pm_circuit_open_count := snap_open_count circuit;
        pm_circuit_rejected_count := snap_rejected_count circuit;
        pm_last_quality_code := None; pm_good_value_count := 0; pm_uncertain_value_count := 0;
        pm_bad_value_count := 0; pm_subscription_count := 0; pm_notification_count := 0;
        pm_subscription_error_count := 0; pm_fallback_poll_count := 0 |}.

Fixpoint initial_metrics (breakers : Registry.t) (connections : list ProtocolConnection)
    (metrics : gmap string ProtocolRuntimeMetrics) : Result (gmap string ProtocolRuntimeMetrics) :=
  match connections with
  | [] => Ok metrics
  | c :: rest =>
      metric ← initial_metric breakers c;
      initial_metrics breakers rest (<[conn_id c := metric]> metrics)
  end.

Definition initial_runtime {W} (package : EdgeConfigPackage) (breakers : Registry.t) (world : W)
    : Result (Runtime W) :=
  ensure (negb (is_blank (pkg_edge_id package))) "edge id is required";;
  ensure (negb (is_blank (pkg_version package))) "config version is required";;
  let breakers := Registry.configure breakers (pkg_protocol_connections package) in
  metrics ← initial_metrics breakers (pkg_protocol_connections package) ∅;
  Ok {| rt_shadows := fold_left (fun shadows device =>
          <[inst_device_id device := new_shadow (pkg_edge_id package) (inst_device_id device)]> shadows)
          (pkg_devices package) ∅;
        rt_metrics := metrics; rt_breakers := breakers; rt_rate_windows := ∅; rt_world := world |}.

(** ** No panic

    The runtime looks up the breaker and the metric of a configured connection;
    they exist from the start on. *)

Definition runtime_ok {W} (package : EdgeConfigPackage) (rt : Runtime W) : Prop :=
  Forall (fun c => is_Some (rt_metrics rt !! conn_id c) /\ is_Some (rt_breakers rt !! conn_id c))
    (pkg_protocol_connections package).

(** The computation never panics. *)
Definition panic_free {S A} (m : M S A) : Prop := forall s, no_panic (snd (m s)).

Lemma panic_free_ret {S A} (a : A) : panic_free (mret (M := M S) a).
Proof. done. Qed.

Lemma panic_free_lift {S A} (r : Result A) : no_panic r -> panic_free (lift (S := S) r).
Proof. intros Hr s. exact Hr. Qed.

Lemma panic_free_gets {S A} (f : S -> A) : panic_free (gets f).
Proof. done. Qed.

Lemma panic_free_modify {S} (f : S -> S) : panic_free (modify f).
Proof. done. Qed.

Lemma panic_free_bind {S A B} (m : M S A) (f : A -> M S B) :
  panic_free m -> (forall a, panic_free (f a)) -> panic_free (m ≫= f).
Proof.
  intros Hm Hf s. rewrite M_bind_eq. pose proof (Hm s) as Hs.
  destruct (m s) as [s' [a|e|e]]; [|done..]. apply Hf.
Qed.

Create HintDb panic_free.
#[export] Hint Resolve panic_free_ret panic_free_gets panic_free_modify panic_free_lift no_panic_ok_or no_panic_ensure : panic_free.

(** Walks through a computation of the engine. *)
Ltac panic_free_tac :=
  repeat match goal with
  | |- panic_free (_ ≫= _) => apply panic_free_bind; [|intros ?]
  | |- panic_free (if ?b then _ else _) => destruct b
  | |- panic_free (match ?x with _ => _ end) => destruct x
  | |- panic_free (let _ := _ in _) => cbv zeta
  | |- panic_free _ => solve [eauto with panic_free]
  end.

(** The computation keeps the invariant and does not panic. *)
Definition safe {S A} (I : S -> Prop) (m : M S A) : Prop :=
  forall s, I s -> I (fst (m s)) /\ no_panic (snd (m s)).

Section safe.
Context {S : Type} (I : S -> Prop).

Lemma safe_lift {A} (r : Result A) : no_panic r -> safe I (lift r).
Proof using. intros Hr s Hs. by split. Qed.

Lemma safe_ret {A} (a : A) : safe I (mret a).
Proof using. intros s Hs. by split. Qed.

Lemma safe_gets {A} (f : S -> A) : safe I (gets f).
Proof using. intros s Hs. by split. Qed.

Lemma safe_bind {A B} (m : M S A) (f : A -> M S B) :
  safe I m -> (forall a, safe I (f a)) -> safe I (m ≫= f).
Proof using.
  intros Hm Hf s Hs. rewrite M_bind_eq. destruct (Hm s Hs) as [Hs' Hnp].
  destruct (m s) as [s' [a|e|e]]; [|by split..]. by apply Hf.
Qed.

Lemma safe_lift_bind {A B} (r : Result A) (f : A -> M S B) :
  no_panic r -> (forall a, r = Ok a -> safe I (f a)) -> safe I (lift r ≫= f).
Proof using.
  intros Hr Hf s Hs. rewrite lift_bind. destruct r as [a|e|e]; [by apply Hf | by split | done].
Qed.

Lemma safe_attempt {A} (m : M S A) : safe I m -> safe I (attempt m).
Proof using.
  intros Hm s Hs. destruct (Hm s Hs) as [Hs' Hnp]. unfold attempt.
  destruct (m s) as [s' [a|e|e]]; by split.
Qed.
End safe.

Section runtime_safe.
Context {W : Type} (package : EdgeConfigPackage).
Abbreviation ok := (runtime_ok (W := W) package).

Definition connection (id : string) : Prop :=
  exists c, c ∈ pkg_protocol_connections package /\ conn_id c = id.

Lemma runtime_ok_entry rt id :
  ok rt -> connection id -> is_Some (rt_metrics rt !! id) /\ is_Some (rt_breakers rt !! id).
Proof using. intros Hok (c & Hc & <-). exact (Forall_elem _ _ _ Hok Hc). Qed.

(** Entries are replaced, never removed. *)
Lemma runtime_ok_grow rt rt' :
  ok rt -> (forall id, is_Some (rt_metrics rt !! id) -> is_Some (rt_metrics rt' !! id)) ->
  (forall id, is_Some (rt_breakers rt !! id) -> is_Some (rt_breakers rt' !! id)) -> ok rt'.
Proof using.
  intros Hok Hm Hb. eapply Forall_impl; [|exact Hok]. intros c [H1 H2]. auto.
Qed.

Lemma is_Some_insert {A} (m : gmap string A) k v id : is_Some (m !! id) -> is_Some (<[k := v]> m !! id).
Proof using. intros Hm. destruct (decide (k = id)) as [->|]; simplify_map_eq; eauto. Qed.

Lemma safe_update_metric id f : connection id -> safe ok (update_metric id f).
Proof using.
  intros Hid rt Hok. destruct (runtime_ok_entry rt id Hok Hid) as [[m Hm] _].
  unfold update_metric. rewrite Hm. split; [|done].
  eapply runtime_ok_grow; [done | | done]. intros k. simpl. apply is_Some_insert.
Qed.

Lemma safe_on_world {A} (m : M W A) : (forall w, no_panic (snd (m w))) -> safe ok (on_world m).
Proof using.
  intros Hm rt Hok. unfold on_world. specialize (Hm (rt_world rt)).
  destruct (m (rt_world rt)) as [w r]. by split.
Qed.

Lemma safe_set_shadows f : safe ok (set_shadows f).
Proof using. intros rt Hok. by split. Qed.

Lemma safe_set_rate_windows w : safe ok (set_rate_windows w).
Proof using. intros rt Hok. by split. Qed.

(** A step of the registry on a configured connection. *)
Lemma safe_registry {B A} id (step : Registry.t -> Result (Registry.t * B)) (f : B -> M (Runtime W) A) :
  connection id ->
  (forall breakers b, breakers !! id = Some b ->
     exists b' x, step breakers = Ok (<[id := b']> breakers, x)) ->
  (forall x, safe ok (f x)) ->
  safe ok (breakers ← gets rt_breakers;
           '(breakers, x) ← lift (step breakers);
           _ ← set_breakers breakers; f x).
Proof using.
  intros Hid Hstep Hf rt Hok. destruct (runtime_ok_entry rt id Hok Hid) as [_ [b Hb]].
  destruct (Hstep _ _ Hb) as (b' & x & Hs). rewrite M_bind_eq. unfold gets. rewrite lift_bind, Hs.
  rewrite M_bind_eq. unfold set_breakers, modify. apply Hf.
  eapply runtime_ok_grow; [done | done|]. intros k. simpl. apply is_Some_insert.
Qed.

Lemma safe_success id : connection id -> safe ok (record_protocol_success id).
Proof using.
  intros Hid. apply (safe_registry id); [done| |intros; by apply safe_update_metric].
  intros breakers b Hb. unfold Registry.registry_success. rewrite Hb. by eexists _, _.
Qed.

Lemma safe_failure id now : connection id -> safe ok (record_protocol_failure id now).
Proof using.
  intros Hid. apply (safe_registry id); [done| |intros; by apply safe_update_metric].
  intros breakers b Hb. unfold Registry.registry_failure. rewrite Hb. by eexists _, _.
Qed.

Lemma safe_allow id now : connection id -> safe ok (allow_protocol_request id now).
Proof using.
  intros Hid rt Hok. destruct (runtime_ok_entry rt id Hok Hid) as [_ [b Hb]].
  unfold allow_protocol_request. rewrite M_bind_eq. unfold gets. rewrite lift_bind.
  unfold Registry.registry_allow. rewrite Hb. cbn [expect mbind Result_bind].
  destruct (allow_request b id now) as [b' decision]. rewrite M_bind_eq. unfold set_breakers, modify.
  set (rt' := {| rt_breakers := _ |}).
  assert (Hok' : ok rt').
  { eapply runtime_ok_grow; [done | done|]. intros k. simpl. apply is_Some_insert. }
  destruct decision as [[]|error]; [by apply safe_update_metric|].
  rewrite lift_bind. unfold Registry.registry_snapshot.
  rewrite lookup_insert_eq. cbn [expect mbind Result_bind].
  revert rt' Hok'. apply safe_bind; [by apply safe_update_metric|]. intros _.
  apply safe_bind; [by apply safe_update_metric|]. intros _. by apply safe_lift.
Qed.
End runtime_safe.

Lemma initial_metrics_has breakers connections metrics metrics' :
  initial_metrics breakers connections metrics = Ok metrics' ->
  (forall id, is_Some (metrics !! id) -> is_Some (metrics' !! id)) /\
  Forall (fun c => is_Some (metrics' !! conn_id c) /\ is_Some (breakers !! conn_id c)) connections.
Proof.
  revert metrics. induction connections as [|c connections IH]; intros metrics; cbn [initial_metrics].
  - intros [= <-]. split; [done | constructor].
  - intros (metric & Hm & Hrest)%bind_Ok. destruct (IH _ Hrest) as [Hkeep Hall]. split.
    + intros id Hid. by apply Hkeep, is_Some_insert.
    + constructor; [|done]. split; [apply Hkeep; rewrite lookup_insert_eq; eauto|].
      unfold initial_metric, Registry.registry_snapshot in Hm. destruct (breakers !! conn_id c); [eauto | done].
Qed.

(** A new runtime has an entry for every connection. *)
Lemma initial_runtime_ok {W} package breakers (world : W) rt :
  initial_runtime package breakers world = Ok rt -> runtime_ok package rt.
Proof.
  unfold initial_runtime. intros ([] & _ & H)%bind_Ok. apply bind_Ok in H as ([] & _ & H).
  apply bind_Ok in H as (metrics & Hm & [= <-]). apply initial_metrics_has in Hm as [_ Hall]. done.
Qed.
