(* ===== verification/Collection.v ===== *)
(** Collection: the read path of [ConfiguredEdgeRuntime]
    ([crates/edge-runtime/src/configured_runtime.rs]) — value transforms, data
    quality, [collect_mappings] over the connections of a package, collection
    tasks and the resilient run of the due ones.

    [f64::powf], [f64::powi] and [f64::sin] are parameters; the readings of the
    clocks are arguments, by connection.

    [accepted_transforms_are_safe] says what the read processing makes of a sample,
    [collected_samples_are_good] what a good sample is, and
    [open_circuit_blocks_collection] that an open breaker keeps the runtime off the
    wire. *)

From Stdlib Require Import ZArith Lia.
From S2P Require Import Prelude RustStr Floats Model ConfigTypes ConfigParse CircuitBreaker.
From S2P Require Import Scheduler Dlt645 Algorithm CommandPlan RuntimeState.

Open Scope string_scope.
Open Scope Z_scope.

(** ** Value transforms *)

Section transforms.
Context (powf : f64 -> f64 -> f64) (powi : f64 -> Z -> f64).

Definition clamp_f64 (value min max : f64) : Result f64 :=
  expect (f64_clamp value min max) "min > max, or either was NaN".

Definition apply_transform (value : f64) (transform : PointValueTransform) : Result f64 :=
  match transform with
  | Linear factor offset => Ok (f64_mul_add value factor offset)
  | Clamp min max => clamp_f64 value min max
  | Round decimals =>
      let factor := powi (f64_of_Z 10) decimals in
      Ok (f64_div (f64_round (f64_mul value factor)) factor)
  | Absolute => Ok (f64_abs value)
  | SquareRoot => Ok (f64_sqrt value)
  | Power exponent => Ok (powf value exponent)
  | MapRange input_min input_max output_min output_max clamp =>
      let ratio := f64_div (f64_sub value input_min) (f64_sub input_max input_min) in
      ratio ← (if clamp then clamp_f64 ratio f64_zero f64_one else Ok ratio);
      Ok (f64_mul_add ratio (f64_sub output_max output_min) output_min)
  end.

Fixpoint apply_transforms (value : f64) (transforms : list PointValueTransform) : Result f64 :=
  match transforms with
  | [] => Ok value
  | transform :: transforms =>
      value ← apply_transform value transform;
      ensure (is_finite value) "point read processing produced a non-finite value";;
      apply_transforms value transforms
  end.

Definition transform_point_value (source : TelemetryValue) (transforms : list PointValueTransform)
    : Result TelemetryValue :=
  value ← ok_or (as_f64 source) "point read processing requires a numeric value";
  value ← apply_transforms value transforms;
  match source with
  | VFloat _ => Ok (VFloat value)
  | VInteger _ =>
      if f64_eq (f64_fract value) f64_zero then
        ensure (f64_le (f64_of_Z (i_min 64)) value && f64_le value (f64_of_Z (i_max 64)))
          "point read processing exceeds i64 range";;
        Ok (VInteger (f64_as_i64 value))
      else bail "integer point read processing produced a fractional value"
  | VBoolean _ | VText _ => bail "point read processing requires a numeric value"
  end.

(** ** Data quality *)

Definition set_quality (q : DataQuality) (code : DataQualityCode) (s : TelemetrySample) : TelemetrySample :=
  {| sample_device_id := sample_device_id s; sample_telemetry_id := sample_telemetry_id s;
     sample_value := sample_value s; sample_quality := q; sample_quality_code := Some code;
     sample_timestamp := sample_timestamp s |}.

Definition set_value (v : TelemetryValue) (s : TelemetrySample) : TelemetrySample :=
  {| sample_device_id := sample_device_id s; sample_telemetry_id := sample_telemetry_id s;
     sample_value := v; sample_quality := sample_quality s; sample_quality_code := sample_quality_code s;
     sample_timestamp := sample_timestamp s |}.

(** [mappings.iter().find(..)] for a sample. *)
Definition mapping_of (mappings : list TelemetryPointMapping) (s : TelemetrySample)
    : option TelemetryPointMapping :=
  find_first (fun m => bool_decide (map_device_id m = sample_device_id s) &&
                       bool_decide (map_point_id m = sample_telemetry_id s)) mappings.

Definition not_finite (v : TelemetryValue) : bool :=
  match v with VFloat x => negb (is_finite x) | _ => false end.

(** The body of the loop of [apply_mapping_quality]. *)
Definition mapping_quality (mappings : list TelemetryPointMapping) (s : TelemetrySample) : TelemetrySample :=
  if negb (bool_decide (sample_quality s = Q_Good)) then s
  else
    match mapping_of mappings s with
    | None => set_quality Q_Bad BadConfiguration s
    | Some mapping =>
        if not_finite (sample_value s) then set_quality Q_Bad BadDecode s
        else
          match map_range mapping, as_f64 (sample_value s) with
          | Some range, Some value =>
              if range_contains range value then s else set_quality Q_Uncertain UncertainOutOfRange s
          | _, _ => s
          end
    end.

Definition apply_mapping_quality (mappings : list TelemetryPointMapping) (samples : list TelemetrySample)
    : list TelemetrySample := mapping_quality mappings <$> samples.

(** The body of the loop of [apply_point_read_transforms]. *)
Definition read_transform (mappings : list TelemetryPointMapping) (s : TelemetrySample)
    : Result TelemetrySample :=
  if negb (bool_decide (sample_quality s = Q_Good)) then Ok s
  else
    match mapping_of mappings s with
    | None => Ok s
    | Some mapping =>
        match map_read_transforms mapping with
        | [] => Ok s
        | transforms =>
            match transform_point_value (sample_value s) transforms with
            | Ok value => Ok (set_value value s)
            | Err _ => Ok (set_quality Q_Bad BadDecode s)
            | Panic e => Panic e
            end
        end
    end.

Definition apply_point_read_transforms (mappings : list TelemetryPointMapping)
    (samples : list TelemetrySample) : Result (list TelemetrySample) :=
  collect_results (read_transform mappings <$> samples).
End transforms.

Definition classify_protocol_error (error : string) : DataQualityCode :=
  let message := str_to_ascii_lowercase error in
  let contains := str_contains message in
  if contains "timeout" || contains "timed out" then BadTimeout
  else if contains "unsupported" || contains "configuration" || contains "missing" || contains "required"
  then BadConfiguration
  else if contains "decode" || contains "encoding" || contains "non-finite" then BadDecode
  else if contains "crc" || contains "checksum" || contains "exception" || contains "response"
          || contains "frame" || contains "function" || contains "protocol" then BadProtocol
  else BadCommunication.

Definition quality_severity (code : DataQualityCode) : Z :=
  match code_quality code with Q_Good => 0 | Q_Uncertain => 1 | Q_Bad => 2 end.

(** [max_by_key(quality_severity)]: the last of the greatest. *)
Definition worst_code (codes : list DataQualityCode) : option DataQualityCode :=
  fold_left (fun best code =>
    match best with
    | Some b => if quality_severity b <=? quality_severity code then Some code else Some b
    | None => Some code
    end) codes None.

(** ** Simulated values *)

Section simulated.
Context (sin : f64 -> f64).

Definition point_seed (point_id : string) : Z :=
  fold_left (fun value byte => wrap 64 (wrap 64 (value * 31) + byte)) (str_bytes point_id) 0.

(** The profile a semantic identifier selects: base and amplitude. *)
Definition simulated_profile (semantic : string) (seed : Z) : f64 * f64 :=
  let contains := str_contains semantic in
  if contains "pressure" then (f64_of_decimal 240 (-2), f64_of_decimal 18 (-2))
  else if contains "flow" then (f64_of_Z 128, f64_of_Z 6)
  else if contains "voltage" then (f64_of_Z 220, f64_of_decimal 25 (-1))
  else if contains "current" then (f64_of_decimal 84 (-1), f64_of_decimal 6 (-1))
  else if contains "temperature" || contains "temp" then (f64_of_decimal 365 (-1), f64_of_decimal 18 (-1))
  else (f64_of_Z (seed mod 100), f64_one).

Definition simulated_value (mapping : TelemetryPointMapping) (timestamp : DateTime) : Result TelemetryValue :=
  let seed := point_seed (map_point_id mapping) in
  let seconds := f64_div (f64_of_Z (timestamp / 1000000)) (f64_of_Z 1000) in
  let wave := sin (f64_add (f64_div seconds (f64_of_Z 8)) (f64_of_Z (seed mod 360))) in
  let secs := timestamp / 1000000000 in
  match map_value_type mapping with
  | Ty_Boolean => Ok (VBoolean (Z.rem (signed 64 (wrap 64 (Z.quot secs 30 + seed))) 2 =? 0))
  | Ty_Integer => Ok (VInteger (seed mod 80 + secs mod 20))
  | Ty_Text => Ok (VText "simulated-ok")
  | Ty_Float =>
      let '(base, amplitude) :=
        simulated_profile (str_to_ascii_lowercase (map_semantic_id mapping)) seed in
      let value := f64_add base (f64_mul wave amplitude) in
      value ← match map_range mapping with
              | Some range => clamp_f64 value (range_min range) (range_max range)
              | None => Ok value
              end;
      Ok (VFloat (f64_div (f64_round (f64_mul value (f64_of_Z 1000))) (f64_of_Z 1000)))
  end.

Definition collect_simulated_samples (mappings : list TelemetryPointMapping) (timestamp : DateTime)
    : Result (list TelemetrySample) :=
  collect_results ((fun mapping =>
    value ← simulated_value mapping timestamp;
    Ok (new_sample (map_device_id mapping) (map_point_id mapping) value Q_Good timestamp)) <$> mappings).
End simulated.

(** ** The read path *)

(** What the runtime reads off an adapter after a read: the partial failures of
    a DL/T 645 read and the change-of-value counters of BACnet. *)
Class ReadReports (W : Type) := {
  dlt645_read_failures : ProtocolConnection -> W -> list Dlt645ReadFailure;
  cov_runtime_metrics : ProtocolConnection -> W -> Z * Z * Z * Z;
}.

Definition mappings_for_connection (mappings : list TelemetryPointMapping) (connection : ProtocolConnection)
    : list TelemetryPointMapping :=
  filter (fun mapping => map_protocol_connection_id mapping = conn_id connection) mappings.

Section collect.
Context {W : Type} `{Adapters W} `{ReadReports W}
        (powf : f64 -> f64 -> f64) (powi : f64 -> Z -> f64) (sin : f64 -> f64)
        (instant : string -> nat -> Instant) (utc : string -> DateTime).

Definition record_sample_quality (id : string) (samples : list TelemetrySample) : M (Runtime W) () :=
  let count q := Z.of_nat (length (filter (fun s => sample_quality s = q) samples)) in
  update_metric id (fun m =>
    with_quality (worst_code (omap sample_quality_code samples))
      (sat_add 64 (pm_good_value_count m) (count Q_Good))
      (sat_add 64 (pm_uncertain_value_count m) (count Q_Uncertain))
      (sat_add 64 (pm_bad_value_count m) (count Q_Bad)) m).

Definition record_bad_values (id : string) (code : DataQualityCode) (point_count : Z) : M (Runtime W) () :=
  update_metric id (fun m =>
    with_quality (Some code) (pm_good_value_count m) (pm_uncertain_value_count m)
      (sat_add 64 (pm_bad_value_count m) (Z.max point_count 1)) m).

Definition with_subscriptions (c : Z * Z * Z * Z) (m : ProtocolRuntimeMetrics) : ProtocolRuntimeMetrics :=
  let '(subscriptions, notifications, errors, polls) := c in
  {| pm_connection_id := pm_connection_id m; pm_protocol := pm_protocol m; pm_connected := pm_connected m;
     pm_latency_ms := pm_latency_ms m; pm_timeout_count := pm_timeout_count m;
     pm_error_count := pm_error_count m; pm_reconnect_count := pm_reconnect_count m;
     pm_collection_attempt_count := pm_collection_attempt_count m;
     pm_collection_success_count := pm_collection_success_count m;
     pm_write_attempt_count := pm_write_attempt_count m; pm_write_success_count := pm_write_success_count m;
     pm_circuit_state := pm_circuit_state m; pm_consecutive_failure_count := pm_consecutive_failure_count m;
     pm_circuit_open_count := pm_circuit_open_count m; pm_circuit_rejected_count := pm_circuit_rejected_count m;
     pm_last_quality_code := pm_last_quality_code m; pm_good_value_count := pm_good_value_count m;
     pm_uncertain_value_count := pm_uncertain_value_count m; pm_bad_value_count := pm_bad_value_count m;
     pm_subscription_count := subscriptions; pm_notification_count := notifications;
     pm_subscription_error_count := errors; pm_fallback_poll_count := polls |}.

(** The [match connection.protocol]: the samples or the error of the read. *)
Definition read_connection (c : ProtocolConnection) (mappings : list TelemetryPointMapping)
    : M (Runtime W) (list TelemetrySample + string) :=
  match conn_protocol c with
  | Simulated => attempt (lift (collect_simulated_samples sin mappings (utc (conn_id c))))
  | _ =>
      _ ← (if kept_adapter (conn_protocol c) then on_world (adapter_ready c mappings) else mret ());
      result ← attempt (on_world (read_telemetry c mappings));
      _ ← (if bool_decide (conn_protocol c = BacnetIp)
           then world ← gets rt_world; update_metric (conn_id c) (with_subscriptions (cov_runtime_metrics c world))
           else mret ());
      mret result
  end.

Fixpoint record_partial_failures (id : string) (failures : list Dlt645ReadFailure) : M (Runtime W) () :=
  match failures with
  | [] => mret ()
  | failure :: failures =>
      _ ← record_bad_values id (fail_quality_code failure) (fail_point_count failure);
      record_partial_failures id failures
  end.

Definition count_collection_success (failures : list Dlt645ReadFailure) (m : ProtocolRuntimeMetrics)
    : ProtocolRuntimeMetrics :=
  let timeouts := length (filter (fun f => fail_quality_code f = BadTimeout) failures) in
  with_counts (pm_collection_attempt_count m) (sat_add 64 (pm_collection_success_count m) 1)
    (pm_write_attempt_count m) (pm_write_success_count m)
    (with_link true (pm_latency_ms m)
       (sat_add 64 (pm_timeout_count m) (Z.of_nat timeouts))
       (sat_add 64 (pm_error_count m) (Z.of_nat (length failures))) m).

Definition update_shadows (samples : list TelemetrySample) (shadows : gmap string DeviceShadow)
    : gmap string DeviceShadow :=
  fold_left (fun shadows s => alter (fun shadow => shadow_update shadow s) (sample_device_id s) shadows)
    samples shadows.

(** The read that succeeded: transforms, quality, metrics. *)
Definition finish_read (c : ProtocolConnection) (mappings : list TelemetryPointMapping)
    (samples : list TelemetrySample) : M (Runtime W) (list TelemetrySample) :=
  let id := conn_id c in
  failures ← gets (fun rt => if bool_decide (conn_protocol c = Dlt645)
                             then dlt645_read_failures c (rt_world rt) else []);
  samples ← lift (apply_point_read_transforms powf powi mappings samples);
  let samples := apply_mapping_quality mappings samples in
  _ ← record_protocol_success id;
  _ ← record_sample_quality id samples;
  _ ← record_partial_failures id failures;
  _ ← update_metric id (count_collection_success failures);
  mret samples.

(** The read that failed. *)
Definition fail_read {A} (c : ProtocolConnection) (points : nat) (error : string) : M (Runtime W) A :=
  let id := conn_id c in
  _ ← record_protocol_failure id (instant id 2%nat);
  _ ← record_bad_values id (classify_protocol_error error) (Z.of_nat points);
  _ ← update_metric id (count_failure error);
  lift (Err error).

(** The body of the loop of [collect_mappings]. *)
Definition collect_connection (selected : list TelemetryPointMapping) (c : ProtocolConnection)
    : M (Runtime W) (list TelemetrySample) :=
  let id := conn_id c in
  let mappings := mappings_for_connection selected c in
  if bool_decide (mappings = []) then mret []
  else
    _ ← update_metric id count_collection_attempt;
    allowed ← attempt (allow_protocol_request id (instant id 0%nat));
    match allowed with
    | inr error =>
        _ ← record_bad_values id BadOutOfService (Z.of_nat (length mappings));
        lift (Err error)
    | inl _ =>
        read_result ← read_connection c mappings;
        _ ← update_metric id (set_latency (elapsed_millis (sat_sub (instant id 3%nat) (instant id 1%nat))));
        match read_result with
        | inl samples =>
            samples ← finish_read c mappings samples;
            _ ← set_shadows (update_shadows samples);
            mret samples
        | inr error => fail_read c (length mappings) error
        end
    end.

Fixpoint collect_connections (selected : list TelemetryPointMapping) (connections : list ProtocolConnection)
    : M (Runtime W) (list TelemetrySample) :=
  match connections with
  | [] => mret []
  | c :: connections =>
      samples ← collect_connection selected c;
      rest ← collect_connections selected connections;
      mret (samples ++ rest)%list
  end.

Definition collect_mappings (package : EdgeConfigPackage) (selected : list TelemetryPointMapping)
    : M (Runtime W) (list TelemetrySample) :=
  collect_connections selected (pkg_protocol_connections package).
End collect.

(** ** Collection tasks *)

(** The runtime and its algorithm engine. *)
Record Edge (W : Type) := { edge_runtime : Runtime W; edge_engine : AlgorithmEngine }.
Arguments edge_runtime {W} _.
Arguments edge_engine {W} _.

Section tasks.
Context {W : Type} `{Adapters W} `{ReadReports W}
        (powf : f64 -> f64 -> f64) (powi : f64 -> Z -> f64) (sin : f64 -> f64)
        (instant : string -> nat -> Instant) (utc : string -> DateTime)
        (event_now : DateTime) (elapsed : AlgorithmSpec -> TelemetrySample -> Z)
        (package : EdgeConfigPackage).

Definition on_runtime {A} (m : M (Runtime W) A) : M (Edge W) A := fun e =>
  let '(rt, r) := m (edge_runtime e) in ({| edge_runtime := rt; edge_engine := edge_engine e |}, r).

Definition on_engine {A} (m : M AlgorithmEngine A) : M (Edge W) A := fun e =>
  let '(engine, r) := m (edge_engine e) in
  ({| edge_runtime := edge_runtime e; edge_engine := engine |}, r).

Definition apply_algorithm_samples (samples : list TelemetrySample) : M (Edge W) (list TelemetrySample) :=
  report ← on_engine (apply_samples powf event_now elapsed samples);
  report ← lift (expect report "the work list drains");
  _ ← on_runtime (set_shadows (update_shadows (report_samples report)));
  mret (samples ++ report_samples report)%list.

Definition collect_samples_once : M (Edge W) (list TelemetrySample) :=
  samples ← on_runtime (collect_mappings powf powi sin instant utc package (pkg_point_mappings package));
  apply_algorithm_samples samples.

Definition task_mappings (task : CollectionTask) : list TelemetryPointMapping :=
  filter (fun mapping => map_device_id mapping = task_device_id task /\
                         map_point_id mapping ∈ task_point_ids task) (pkg_point_mappings package).

Definition collect_samples_for_task (task : CollectionTask) : M (Edge W) (list TelemetrySample) :=
  samples ← on_runtime (collect_mappings powf powi sin instant utc package (task_mappings task));
  apply_algorithm_samples samples.

(** The number of samples collected. *)
Definition collect_once : M (Edge W) Z :=
  samples ← collect_samples_once; mret (Z.of_nat (length samples)).

Definition collect_task_once (id : string) : M (Edge W) Z :=
  task ← lift (ok_or (find_first (fun task => bool_decide (task_id task = id)) (pkg_collection_tasks package))
                 ("collection task not found: " ++ id));
  if negb (task_enabled task) then mret 0
  else
    samples ← collect_samples_for_task task;
    mret (Z.of_nat (length samples)).

(** *** The due tasks

    The schedule is state of the caller. *)

Definition on_edge {A} (m : M (Edge W) A) : M (Edge W * list Scheduled) A := fun s =>
  let '(e, r) := m (fst s) in ((e, snd s), r).

Definition mark_task (id : string) (now_ms : Z) : M (Edge W * list Scheduled) () := fun s =>
  match CollectionSchedule.mark_task_ran (snd s) id now_ms with
  | Ok entries => ((fst s, entries), Ok ())
  | Err e => (s, Err e)
  | Panic e => (s, Panic e)
  end.

Fixpoint due_tasks_loop (ids : list string) (now_ms collected : Z) : M (Edge W * list Scheduled) Z :=
  match ids with
  | [] => mret collected
  | id :: ids =>
      n ← on_edge (collect_task_once id);
      _ ← mark_task id now_ms;
      due_tasks_loop ids now_ms (collected + n)
  end.

(** The tasks run and the samples collected. *)
Definition collect_due_tasks_once (now_ms : Z) : M (Edge W * list Scheduled) (Z * Z) :=
  due ← gets (fun s => due_ids (snd s) now_ms);
  collected ← due_tasks_loop due now_ms 0;
  mret (Z.of_nat (length due), collected).

Record ScheduledCollectionFailure := { failed_task_id : string; failure_reason : string }.

Record ResilientScheduledCollectionReport := {
  tasks_run : Z;
  tasks_succeeded : Z;
  tasks_failed : Z;
  samples_collected : Z;
  collection_failures : list ScheduledCollectionFailure;
}.

Fixpoint resilient_loop (ids : list string) (now_ms succeeded collected : Z)
    (failures : list ScheduledCollectionFailure)
    : M (Edge W * list Scheduled) (Z * Z * list ScheduledCollectionFailure) :=
  match ids with
  | [] => mret (succeeded, collected, failures)
  | id :: ids =>
      result ← attempt (on_edge (collect_task_once id));
      _ ← mark_task id now_ms;
      match result with
      | inl n => resilient_loop ids now_ms (succeeded + 1) (collected + n) failures
      | inr reason =>
          resilient_loop ids now_ms succeeded collected
            (failures ++ [{| failed_task_id := id; failure_reason := reason |}])%list
      end
  end.

Definition collect_due_tasks_resilient_once (now_ms : Z)
    : M (Edge W * list Scheduled) ResilientScheduledCollectionReport :=
  due ← gets (fun s => due_ids (snd s) now_ms);
  '(succeeded, collected, failures) ← resilient_loop due now_ms 0 0 [];
  mret {| tasks_run := Z.of_nat (length due); tasks_succeeded := succeeded;
          tasks_failed := Z.of_nat (length failures); samples_collected := collected;
          collection_failures := failures |}.
End tasks.

Definition collection_retry_backoff (attempt : Z) : Z := Z.min (25 * 2 ^ Z.min attempt 4) 400.

(** The mapping [collect_samples_for_data_config] builds for a point. *)
Definition data_config_mapping (package : EdgeConfigPackage) (dc : DataConfig) (point : DataConfigPoint)
    : TelemetryPointMapping :=
  let mapping := new_mapping (dcp_point_id point) (dc_device_id dc) (dcp_semantic_id point)
                   (dc_protocol_connection_id dc) (dcp_address point) (dcp_value_type point) in
  let source := find_first (fun source =>
      bool_decide (map_point_id source = dcp_point_id point) &&
      bool_decide (map_device_id source = dc_device_id dc) &&
      bool_decide (map_protocol_connection_id source = dc_protocol_connection_id dc))
    (pkg_point_mappings package) in
  {| map_point_id := map_point_id mapping; map_device_id := map_device_id mapping;
     map_semantic_id := map_semantic_id mapping;
     map_protocol_connection_id := map_protocol_connection_id mapping;
     map_address := map_address mapping; map_value_type := map_value_type mapping;
     map_access := match source with Some s => map_access s | None => map_access mapping end;
     map_opc_ua := map_opc_ua mapping; map_iec101 := map_iec101 mapping; map_iec104 := map_iec104 mapping;
     map_bacnet := map_bacnet mapping;
     map_unit := match source with Some s => map_unit s | None => map_unit mapping end;
     map_range := match source with Some s => map_range s | None => map_range mapping end;
     map_read_transforms := map_read_transforms mapping;
     map_interval_ms := period_ms (dc_collection dc) |}.

(** ** Facts about floats *)

Lemma SFcompare_flip x y :
  is_finite x = true -> is_finite y = true ->
  exists c, SpecFloat.SFcompare x y = Some c /\ SpecFloat.SFcompare y x = Some (CompOpp c).
Proof.
  destruct x as [s| | |s m e], y as [s'| | |s' m' e']; try done; intros _ _; simpl.
  - by eexists.
  - destruct s'; by eexists.
  - destruct s; by eexists.
  - assert (Hm : Pos.compare_cont Eq m' m = CompOpp (Pos.compare_cont Eq m m'))
      by (symmetry; apply Pos.compare_cont_antisym).
    destruct s, s'; try (by eexists); rewrite (Z.compare_antisym e e');
      destruct (e ?= e') eqn:Ee; simpl; try (by eexists);
      rewrite Hm; destruct (Pos.compare_cont Eq m m'); by eexists.
Qed.

Lemma clamp_defined value min max :
  is_finite min = true -> is_finite max = true -> f64_gt min max = false ->
  no_panic (clamp_f64 value min max).
Proof.
  intros Hmin Hmax Hgt. destruct (SFcompare_flip max min Hmax Hmin) as (c & H1 & H2).
  unfold f64_gt, SpecFloat.SFltb in Hgt. rewrite H1 in Hgt.
  unfold clamp_f64, f64_clamp, SpecFloat.SFleb. rewrite H2. by destruct c.
Qed.

(** ** Transforms that were accepted *)

Section transform_facts.
Context (powf : f64 -> f64 -> f64) (powi : f64 -> Z -> f64).

Lemma check_transforms_Forall index ts :
  check_transforms index ts = Ok () -> Forall (fun t => transform_problem t = None) ts.
Proof using.
  revert index. induction ts as [|t ts IH]; intros index; cbn [check_transforms]; [constructor|].
  destruct (transform_problem t) eqn:E; [done|]. intros H. constructor; [done | by eapply IH].
Qed.

Lemma apply_transform_defined value t :
  transform_problem t = None -> no_panic (apply_transform powf powi value t).
Proof using.
  destruct t as [factor offset|min max|decimals| | |exponent|imin imax omin omax clamp]; simpl; intros Ht; try done.
  - destruct (negb (is_finite min)) eqn:E1, (negb (is_finite max)) eqn:E2, (f64_gt min max) eqn:E3; try done.
    apply negb_false_iff in E1, E2. by apply clamp_defined.
  - destruct clamp; [|done]. apply no_panic_bind; [|done]. by apply clamp_defined.
Qed.

Lemma apply_transforms_spec value ts :
  Forall (fun t => transform_problem t = None) ts -> no_panic (apply_transforms powf powi value ts).
Proof using.
  intros Hts. revert value. induction Hts as [|t ts Ht Hts IH]; intros value; cbn [apply_transforms]; [done|].
  apply no_panic_bind; [by apply apply_transform_defined|]. intros v _.
  apply no_panic_bind; [apply no_panic_ensure|]. intros _ _. apply IH.
Qed.

Lemma apply_transforms_finite value ts v :
  apply_transforms powf powi value ts = Ok v -> ts <> [] -> is_finite v = true.
Proof using.
  revert value. induction ts as [|t ts IH]; intros value; cbn [apply_transforms]; [done|].
  intros (v1 & _ & H)%bind_Ok _. apply bind_Ok in H as ([] & Hf%ensure_Ok & H).
  destruct ts as [|t' ts']; [by injection H as <-|]. by apply (IH v1).
Qed.

(** What the steps make of a raw value: a float as they compute it, an integer
    where what they compute is an integer from [-2^63] to [2^63] (the last of
    these becomes [2^63 - 1]). *)
Definition yields (ts : list PointValueTransform) (raw value : TelemetryValue) : Prop :=
  exists x y, as_f64 raw = Some x /\ apply_transforms powf powi x ts = Ok y /\ is_finite y = true /\
    match raw with
    | VFloat _ => value = VFloat y
    | VInteger _ => exists z, denotes y z /\ - 2 ^ 63 <= z <= 2 ^ 63 /\ value = VInteger (Z.min z (2 ^ 63 - 1))
    | VBoolean _ | VText _ => False
    end.

(** Every number the steps compute is a binary64 number. *)
Definition computes_f64 (ts : list PointValueTransform) (raw : TelemetryValue) : Prop :=
  forall x y, as_f64 raw = Some x -> apply_transforms powf powi x ts = Ok y -> f64_valid y.

Lemma transform_no_panic ts source :
  Forall (fun t => transform_problem t = None) ts -> no_panic (transform_point_value powf powi source ts).
Proof using.
  intros Hts. unfold transform_point_value. apply no_panic_bind; [no_panic_tac|]. intros v _.
  apply no_panic_bind; [by apply apply_transforms_spec|]. intros x _.
  destruct source; try done. destruct (f64_eq _ _); no_panic_tac.
Qed.

Lemma transform_Ok ts raw value :
  ts <> [] -> computes_f64 ts raw ->
  transform_point_value powf powi raw ts = Ok value <-> yields ts raw value.
Proof using.
  intros Hne Hbin. unfold transform_point_value, yields. split.
  - intros (x & Hx%ok_or_Ok & H)%bind_Ok. apply bind_Ok in H as (y & Hy & H).
    pose proof (apply_transforms_finite x ts y Hy Hne) as Hfin. exists x, y. split_and!; [done..|].
    destruct raw; try done; [by injection H as <-|].
    destruct (f64_eq _ _) eqn:Hfr; [|done]. apply bind_Ok in H as ([] & Hr%ensure_Ok & [= <-]).
    pose proof (Hbin x y Hx Hy) as Hv. destruct (fract_zero_denotes y Hv Hfin Hfr) as [z Hz]. exists z.
    rewrite (denotes_in_i64 y z) in Hr by done. apply andb_true_iff in Hr as [Hlo%Z.leb_le Hhi%Z.leb_le].
    split; [done|]. split; [done|]. f_equal. by apply denotes_as_i64.
  - intros (x & y & Hx & Hy & Hfin & H). rewrite Hx. cbn [ok_or mbind Result_bind]. rewrite Hy. cbn [mbind Result_bind].
    destruct raw; try done; [by rewrite H|]. destruct H as (z & Hz & Hr & ->).
    pose proof (Hbin x y Hx Hy) as Hv. rewrite (denotes_fract y z), (denotes_in_i64 y z) by done.
    rewrite !(proj2 (Z.leb_le _ _)) by lia. cbn [andb ensure mbind Result_bind].
    by rewrite (denotes_as_i64 y z).
Qed.

(** A sample that the read processing looks at. *)
Definition processed_by (mappings : list TelemetryPointMapping) (s : TelemetrySample)
    (ts : list PointValueTransform) : Prop :=
  sample_quality s = Q_Good /\ ts <> [] /\ exists m, mapping_of mappings s = Some m /\ map_read_transforms m = ts.

(** [C39] The read processing of samples, with steps that the configuration check
    accepted.  It never panics.  A sample that is not good, that has no mapping
    or whose mapping has no steps is passed on as it is.  Any other one gets the
    value its steps yield, when they yield one, and is otherwise passed on with
    its raw value, marked bad with the code for a decoding failure.  The steps
    yield a value when the raw value is a number and what each computes is finite: for a
    float what they compute; for an integer point that number, provided it is
    integral and lies from [-2^63] to [2^63], where [2^63] alone is not kept but
    becomes the greatest 64-bit integer.  The numbers computed are taken to be
    binary64 numbers, as every [f64] is. *)
Theorem accepted_transforms_are_safe mappings s :
  Forall (fun m => validate_point_read_transforms (map_read_transforms m) (map_value_type m) = Ok ()) mappings ->
  (forall ts, processed_by mappings s ts -> computes_f64 ts (sample_value s)) ->
  exists s', read_transform powf powi mappings s = Ok s' /\
    ((forall ts, ~ processed_by mappings s ts) -> s' = s) /\
    (forall ts, processed_by mappings s ts ->
       (forall value, yields ts (sample_value s) value -> s' = set_value value s) /\
       ((forall value, ~ yields ts (sample_value s) value) -> s' = set_quality Q_Bad BadDecode s)).
Proof using.
  intros Hacc Hbin. unfold read_transform. case_bool_decide as Hq; cbn [negb].
  2: { exists s. split_and!; [done..|]. by intros ts [? _]. }
  destruct (mapping_of mappings s) as [m|] eqn:Hm.
  2: { exists s. split_and!; [done..|]. intros ts (_ & _ & m & ? & _). congruence. }
  destruct (map_read_transforms m) as [|t ts'] eqn:Hts.
  { exists s. split_and!; [done..|]. intros ts (_ & Hne & m' & ? & ?). congruence. }
  assert (Hp : processed_by mappings s (t :: ts')) by by split_and!; [..|exists m].
  assert (Hok : Forall (fun t => transform_problem t = None) (t :: ts')).
  { assert (Hin : m ∈ mappings) by by apply find_first_Some in Hm as [? _]. pose proof (Forall_elem _ _ _ Hacc Hin) as H.
    simpl in H. rewrite Hts in H. apply bind_Ok in H as ([] & _ & H).
    apply bind_Ok in H as ([] & _ & H). by eapply check_transforms_Forall. }
  pose proof (transform_no_panic (t :: ts') (sample_value s) Hok) as Hnp.
  pose proof (fun value => transform_Ok (t :: ts') (sample_value s) value ltac:(done) (Hbin _ Hp)) as Hy.
  assert (Honly : forall ts, processed_by mappings s ts -> ts = t :: ts').
  { intros ts (_ & _ & m' & ? & ?). congruence. }
  destruct (transform_point_value _ _ _ _) as [value|e|e] eqn:E; [eexists|eexists|done].
  all: split; [done|]; split; [intros Hn; by destruct (Hn _ Hp)|]; intros ts ->%Honly; split.
  - intros value' [= <-]%Hy. done.
  - intros Hn. destruct (Hn value). by apply Hy.
  - by intros value' ?%Hy.
  - done.
Qed.
End transform_facts.

(** ** Quality of the collected samples *)

(** A sample that passes as good is of a configured point, finite and within the
    range of the point. *)
Definition good_sample (mappings : list TelemetryPointMapping) (s : TelemetrySample) : Prop :=
  sample_quality s = Q_Good -> exists mapping, mapping ∈ mappings /\
    map_device_id mapping = sample_device_id s /\ map_point_id mapping = sample_telemetry_id s /\
    not_finite (sample_value s) = false /\
    forall range x, map_range mapping = Some range -> as_f64 (sample_value s) = Some x ->
      range_contains range x = true.

Lemma mapping_of_Some mappings s m :
  mapping_of mappings s = Some m ->
  m ∈ mappings /\ map_device_id m = sample_device_id s /\ map_point_id m = sample_telemetry_id s.
Proof.
  intros [Hin [Hd%bool_decide_eq_true Hp%bool_decide_eq_true]%andb_true_iff]%find_first_Some. done.
Qed.

Lemma mapping_quality_good mappings s : good_sample mappings (mapping_quality mappings s).
Proof.
  unfold mapping_quality. case_bool_decide as Hq; cbn [negb]; [|by intros ?].
  destruct (mapping_of mappings s) as [m|] eqn:Em; [|done].
  apply mapping_of_Some in Em as (Hin & Hd & Hp).
  destruct (not_finite (sample_value s)) eqn:En; [done|].
  destruct (map_range m) as [range|] eqn:Er, (as_f64 (sample_value s)) as [x|] eqn:Ex.
  1: destruct (range_contains range x) eqn:Ec; [|done].
  all: intros _; exists m; split_and!; try done; intros r y Hr Hy; simplify_eq; congruence.
Qed.

Lemma mapping_quality_consistent mappings s :
  quality_consistent s -> quality_consistent (mapping_quality mappings s).
Proof.
  intros Hs. unfold mapping_quality. destruct (negb _); [done|].
  destruct (mapping_of mappings s) as [m|]; [|by intros c [= <-]].
  destruct (not_finite (sample_value s)); [by intros c [= <-]|].
  destruct (map_range m) as [range|], (as_f64 (sample_value s)) as [x|]; try done.
  destruct (range_contains range x); [done | by intros c [= <-]].
Qed.

Lemma good_sample_mono mappings mappings' s :
  (forall m, m ∈ mappings -> m ∈ mappings') -> good_sample mappings s -> good_sample mappings' s.
Proof. intros Hm Hs Hq. destruct (Hs Hq) as (m & Hin & H). exists m. auto. Qed.

Section collect_facts.
Context {W : Type} `{Adapters W} `{ReadReports W}
        (powf : f64 -> f64 -> f64) (powi : f64 -> Z -> f64) (sin : f64 -> f64)
        (instant : string -> nat -> Instant) (utc : string -> DateTime).

Abbreviation collect := (collect_connection powf powi sin instant utc).

Lemma finish_read_good c mappings samples rt rt' result :
  finish_read powf powi c mappings samples rt = (rt', Ok result) ->
  exists transformed, result = apply_mapping_quality mappings transformed.
Proof using.
  unfold finish_read. intros (rt1 & failures & _ & Hf)%M_bind_Ok.
  apply M_bind_Ok in Hf as (rt2 & transformed & _ & Hf).
  do 4 (apply M_bind_Ok in Hf as (? & [] & _ & Hf)). injection Hf as _ <-. by exists transformed.
Qed.

Lemma collect_connection_good selected c rt rt' samples :
  collect selected c rt = (rt', Ok samples) -> Forall (good_sample selected) samples.
Proof using.
  unfold collect_connection. case_bool_decide as Hnil; [intros [= <- <-]; constructor|].
  intros (rt1 & [] & _ & Hc)%M_bind_Ok. apply M_bind_Ok in Hc as (rt2 & allowed & _ & Hc).
  destruct allowed as [[]|error]; [|by apply M_bind_Ok in Hc as (? & ? & _ & Hc)].
  apply M_bind_Ok in Hc as (rt3 & result & _ & Hc). apply M_bind_Ok in Hc as (rt4 & [] & _ & Hc).
  destruct result as [raw|error].
  - apply M_bind_Ok in Hc as (rt5 & final & Hfin & Hc). apply M_bind_Ok in Hc as (rt6 & [] & _ & [= _ <-]).
    apply finish_read_good in Hfin as (transformed & ->). unfold apply_mapping_quality.
    apply list.Forall_forall. intros s (raw' & -> & _)%list_elem_of_fmap.
    eapply good_sample_mono; [|apply mapping_quality_good]. intros m. unfold mappings_for_connection.
    by intros [_ ?]%list_elem_of_filter.
  - unfold fail_read in Hc. do 3 (apply M_bind_Ok in Hc as (? & [] & _ & Hc)). done.
Qed.

Lemma collect_connections_good selected connections rt rt' samples :
  collect_connections powf powi sin instant utc selected connections rt = (rt', Ok samples) ->
  Forall (good_sample selected) samples.
Proof using.
  revert rt rt' samples. induction connections as [|c connections IH]; intros rt rt' samples; cbn [collect_connections].
  - intros [= <- <-]. constructor.
  - intros (rt1 & first & Hfirst & Hc)%M_bind_Ok. apply M_bind_Ok in Hc as (rt2 & rest & Hrest & [= _ <-]).
    apply Forall_app. split; [by eapply collect_connection_good | by eapply IH].
Qed.

(** What is collected as good is good: whatever the adapters answer, every
    sample a collection returns with quality [Good] belongs to a selected point,
    is finite, and lies within the range configured for the point. *)
Theorem collected_samples_are_good package selected (rt rt' : Runtime W) samples :
  collect_mappings powf powi sin instant utc package selected rt = (rt', Ok samples) ->
  Forall (good_sample selected) samples.
Proof using. apply collect_connections_good. Qed.

(** *** An open circuit *)

(** The breaker of the connection refuses the request. *)
Definition refused (rt : Runtime W) (id : string) (now : Instant) (error : ProtocolCircuitOpenError) : Prop :=
  exists b, rt_breakers rt !! id = Some b /\ is_Some (rt_metrics rt !! id) /\
    snd (allow_request b id now) = inr error.

Lemma allow_refused rt id now error :
  refused rt id now error ->
  exists rt', allow_protocol_request id now rt = (rt', Err (circuit_error error)) /\
    rt_world rt' = rt_world rt /\ is_Some (rt_metrics rt' !! id) /\ rt_shadows rt' = rt_shadows rt.
Proof using.
  intros (b & Hb & [m Hm] & Herr). unfold allow_protocol_request. rewrite M_bind_eq. unfold gets.
  rewrite lift_bind. unfold Registry.registry_allow. rewrite Hb. cbn [expect mbind Result_bind].
  destruct (allow_request b id now) as [b' decision]. simpl in Herr. subst decision.
  rewrite M_bind_eq. unfold set_breakers, modify. rewrite lift_bind. unfold Registry.registry_snapshot.
  rewrite lookup_insert_eq. cbn [expect mbind Result_bind].
  rewrite M_bind_eq. unfold sync_circuit_metric, update_metric at 1. cbn [rt_metrics]. rewrite Hm.
  rewrite M_bind_eq. unfold update_metric at 1. cbn [rt_metrics]. rewrite lookup_insert_eq.
  eexists. split; [done|]. split; [done|]. cbn [rt_metrics]. rewrite lookup_insert_eq. eauto.
Qed.

Lemma update_metric_Some id f rt (m : ProtocolRuntimeMetrics) :
  rt_metrics rt !! id = Some m ->
  exists rt', update_metric (W := W) id f rt = (rt', Ok ()) /\ rt_world rt' = rt_world rt /\
    rt_breakers rt' = rt_breakers rt /\ rt_shadows rt' = rt_shadows rt /\ is_Some (rt_metrics rt' !! id).
Proof using.
  intros Hm. unfold update_metric. rewrite Hm. eexists. split; [done|]. cbn.
  split_and!; try done. rewrite lookup_insert_eq. eauto.
Qed.

(** [C38] An open circuit keeps the runtime off the wire: while the breaker of a
    connection refuses requests, collecting from the connection reports the
    circuit error without a call to the adapter and without touching a shadow. *)
Theorem open_circuit_blocks_collection selected c (rt : Runtime W) error :
  mappings_for_connection selected c <> [] ->
  refused rt (conn_id c) (instant (conn_id c) 0%nat) error ->
  exists rt', collect selected c rt = (rt', Err (circuit_error error)) /\
    rt_world rt' = rt_world rt /\ rt_shadows rt' = rt_shadows rt.
Proof using.
  intros Hne (b & Hb & [m Hm] & Herr). unfold collect_connection. rewrite bool_decide_false by done.
  destruct (update_metric_Some (conn_id c) count_collection_attempt rt m Hm)
    as (rt1 & Hup & Hw1 & Hb1 & Hs1 & Hm1).
  rewrite M_bind_eq, Hup.
  destruct (allow_refused rt1 (conn_id c) (instant (conn_id c) 0%nat) error)
    as (rt2 & Hallow & Hw2 & [m2 Hm2] & Hs2).
  { exists b. by rewrite Hb1. }
  rewrite M_bind_eq. unfold attempt. rewrite Hallow. rewrite M_bind_eq. unfold record_bad_values.
  destruct (update_metric_Some (conn_id c) (fun m => with_quality (Some BadOutOfService)
    (pm_good_value_count m) (pm_uncertain_value_count m)
    (sat_add 64 (pm_bad_value_count m) (Z.max (Z.of_nat (length (mappings_for_connection selected c))) 1)) m)
    rt2 m2 Hm2) as (rt3 & Hup3 & Hw3 & _ & Hs3 & _).
  rewrite Hup3. exists rt3. split; [done|]. split; congruence.
Qed.
End collect_facts.

(** The mapping a data config collects with has no read transforms, whatever
    the mapping of the point in the package says. *)
Lemma data_config_mapping_drops_transforms package dc point :
  map_read_transforms (data_config_mapping package dc point) = [].
Proof. reflexivity. Qed.

(** The range test of integer points admits [2^63], which the cast then
    saturates. *)
Example integer_transform_saturates :
  transform_point_value (fun x _ => x) (fun x _ => x) (VInteger (2 ^ 62)) [Linear (f64_of_Z 2) f64_zero] =
  Ok (VInteger (2 ^ 63 - 1)).
Proof. vm_compute. reflexivity. Qed.

(** ** Examples *)

(** A world of fixed readings: an adapter answers with the readings of its
    connection, and a write is recorded. *)
Module FixedWorld.

Record World := {
  readings : list TelemetrySample;
  calls : list (string * TelemetryValue);
}.

#[export] Instance fixed_adapters : Adapters World := {
  adapter_ready _ _ := mret ();
  read_telemetry _ _ := fun w =>
    ({| readings := readings w; calls := (calls w ++ [("read", VBoolean true)])%list |}, Ok (readings w));
  write_point _ mapping value := fun w =>
    ({| readings := readings w; calls := (calls w ++ [(map_point_id mapping, value)])%list |},
     Ok {| res_point_id := map_point_id mapping; res_value := value; res_verified := true;
           res_readback_value := None |});
  read_back _ mapping := fun w =>
    (w, Ok ((fun x => new_sample (map_device_id mapping) (map_point_id mapping) (snd x) Q_Good 0)
              <$> filter (fun x => fst x = map_point_id mapping) (rev (calls w))));
  write_prefix _ writes := fun w =>
    ({| readings := readings w;
        calls := (calls w ++ ((fun x => (map_point_id (fst x), snd x)) <$> writes))%list |},
     Ok (length writes, (fun x => {| res_point_id := map_point_id (fst x); res_value := snd x;
                                     res_verified := true; res_readback_value := None |}) <$> writes));
}.

#[export] Instance fixed_reports : ReadReports World := {
  dlt645_read_failures _ _ := [];
  cov_runtime_metrics _ _ := (0, 0, 0, 0);
}.

Definition modbus_connection : ProtocolConnection :=
  {| conn_id := "modbus"; conn_protocol := ModbusTcp; conn_endpoint := Some "10.0.0.1:502";
     conn_serial := None; conn_iec101 := None; conn_iec104 := None; conn_opc_ua := None;
     conn_bacnet_ip := None; conn_siemens_s7 := None; conn_omron_fins := None;
     conn_circuit_breaker := default_circuit_breaker |}.

Definition level_mapping : TelemetryPointMapping :=
  {| map_point_id := "level"; map_device_id := "tank"; map_semantic_id := "tank.level";
     map_protocol_connection_id := "modbus";
     map_address := {| addr_kind := "holding"; addr_value := "40001"; addr_modbus := None |};
     map_value_type := Ty_Float; map_access := ReadWrite; map_opc_ua := None; map_iec101 := None;
     map_iec104 := None; map_bacnet := None; map_unit := None;
     map_range := Some {| range_min := f64_zero; range_max := f64_of_Z 50 |};
     map_read_transforms := [Linear (f64_of_decimal 1 (-1)) f64_zero]; map_interval_ms := 1000 |}.

Definition tank_task : CollectionTask :=
  {| task_id := "tank-task"; task_device_id := "tank"; task_point_ids := ["level"];
     task_interval_ms := 1000; task_enabled := true |}.

Definition tank_package : EdgeConfigPackage :=
  {| pkg_edge_id := "edge-1"; pkg_version := "v1"; pkg_device_models := [];
     pkg_devices := [{| inst_device_id := "tank"; inst_device_type := "tank" |}];
     pkg_protocol_connections := [modbus_connection]; pkg_mqtt_uplinks := []; pkg_data_configs := [];
     pkg_command_flows := []; pkg_point_mappings := [level_mapping];
     pkg_collection_tasks := [tank_task]; pkg_algorithms := [] |}.

Definition reading (x : Z) : TelemetrySample :=
  new_sample "tank" "level" (VFloat (f64_of_Z x)) Q_Good 7.

Definition start (xs : list Z) : Result (Runtime World) :=
  initial_runtime tank_package ∅ {| readings := reading <$> xs; calls := [] |}.

Definition collect_tank (xs : list Z) : Result (list TelemetrySample) :=
  rt ← start xs;
  snd (collect_mappings (fun x _ => x) (fun x _ => x) (fun x => x) (fun _ _ => 0) (fun _ => 0)
         tank_package [level_mapping] rt).
End FixedWorld.

Section examples.
Import FixedWorld.

(** A reading of 120 is scaled to 12; one of 900 is scaled to 90 and flagged. *)
Example collect_example :
  match collect_tank [120; 900] with
  | Ok samples => (fun s : TelemetrySample => (sample_value s, sample_quality s)) <$> samples
  | _ => []
  end = [(VFloat (f64_of_Z 12), Q_Good); (VFloat (f64_of_Z 90), Q_Uncertain)].
Proof. vm_compute. reflexivity. Qed.

(** An integer point read through the given steps. *)
Definition counter_mapping (ts : list PointValueTransform) : TelemetryPointMapping :=
  {| map_point_id := "count"; map_device_id := "tank-1"; map_semantic_id := "tank.count";
     map_protocol_connection_id := "sim"; map_address := {| addr_kind := "sim"; addr_value := "count"; addr_modbus := None |};
     map_value_type := Ty_Integer; map_access := ReadOnly; map_opc_ua := None; map_iec101 := None;
     map_iec104 := None; map_bacnet := None; map_unit := None; map_range := None; map_read_transforms := ts;
     map_interval_ms := 1000 |}.

Definition halve : list PointValueTransform := [Linear (f64_of_decimal 5 (-1)) f64_zero; Absolute].
Definition count_sample (n : Z) : TelemetrySample := new_sample "tank-1" "count" (VInteger n) Q_Good 0.

(** Half of -6 is 3 without its sign; half of 7 is refused. *)
Lemma accepted_transforms_are_safe_witness :
  read_transform (fun x _ => x) (fun x _ => x) [counter_mapping halve] (count_sample (-6)) =
    Ok (count_sample 3) /\
  exists s', read_transform (fun x _ => x) (fun x _ => x) [counter_mapping halve] (count_sample 7) = Ok s' /\
    s' = set_quality Q_Bad BadDecode (count_sample 7).
Proof.
  assert (Hacc : Forall (fun m => validate_point_read_transforms (map_read_transforms m) (map_value_type m) = Ok ())
    [counter_mapping halve]) by (constructor; [vm_compute; reflexivity | constructor]).
  assert (Hp : forall n, processed_by [counter_mapping halve] (count_sample n) halve).
  { intros n. split; [reflexivity|]. split; [discriminate|]. exists (counter_mapping halve). split; reflexivity. }
  assert (Hone : forall n ts, processed_by [counter_mapping halve] (count_sample n) ts -> ts = halve).
  { intros n ts (_ & _ & m & Hm & <-). injection Hm as <-. reflexivity. }
  split.
  - destruct (accepted_transforms_are_safe (fun x _ => x) (fun x _ => x) [counter_mapping halve] (count_sample (-6)))
      as (s' & Hs' & _ & Hyes); [exact Hacc | |].
    { intros ts ->%Hone x y [= <-] Hy. vm_compute in Hy. injection Hy as <-. vm_compute. reflexivity. }
    rewrite Hs'. f_equal. apply (Hyes _ (Hp _)). eexists _, _. split; [reflexivity|].
    split; [vm_compute; reflexivity|]. split; [reflexivity|]. exists 3. split; [vm_compute; reflexivity|]. done.
  - destruct (accepted_transforms_are_safe (fun x _ => x) (fun x _ => x) [counter_mapping halve] (count_sample 7))
      as (s' & Hs' & _ & Hno); [exact Hacc | |].
    { intros ts ->%Hone x y [= <-] Hy. vm_compute in Hy. injection Hy as <-. vm_compute. reflexivity. }
    exists s'. split; [exact Hs'|]. apply (Hno _ (Hp _)).
    intros value (x & y & [= <-] & Hy & _ & z & Hz & _). vm_compute in Hy. injection Hy as <-.
    cbn [denotes] in Hz. simpl in Hz. lia.
Defined.

Definition tank_runtime : Runtime World :=
  match start [120; 900] with
  | Ok rt => rt
  | _ => {| rt_shadows := ∅; rt_metrics := ∅; rt_breakers := ∅; rt_rate_windows := ∅;
            rt_world := {| readings := []; calls := [] |} |}
  end.

Lemma collected_samples_are_good_witness :
  exists rt' samples,
    collect_mappings (fun x _ => x) (fun x _ => x) (fun x => x) (fun _ _ => 0) (fun _ => 0)
      tank_package [level_mapping] tank_runtime = (rt', Ok samples) /\ Forall (good_sample [level_mapping]) samples.
Proof.
  destruct (collect_mappings (fun x _ => x) (fun x _ => x) (fun x => x) (fun _ _ => 0) (fun _ => 0)
      tank_package [level_mapping] tank_runtime) as [rt' r] eqn:E.
  destruct r as [samples|e|e];
    [|exfalso; apply (f_equal (fun x => is_ok (snd x))) in E; vm_compute in E; discriminate..].
  exists rt', samples. split; [done|]. by eapply (collected_samples_are_good (W := World)).
Defined.

(** The same runtime after the circuit has opened at instant 0. *)
Definition open_runtime : Runtime World :=
  {| rt_shadows := rt_shadows tank_runtime; rt_metrics := rt_metrics tank_runtime;
     rt_breakers := <["modbus" := open (new_breaker default_circuit_breaker) 0]> (rt_breakers tank_runtime);
     rt_rate_windows := ∅; rt_world := rt_world tank_runtime |}.

Lemma open_circuit_blocks_collection_witness :
  exists error rt',
    collect_connection (fun x _ => x) (fun x _ => x) (fun x => x) (fun _ _ => 1) (fun _ => 0)
      [level_mapping] modbus_connection open_runtime = (rt', Err (circuit_error error)) /\
    calls (rt_world rt') = [].
Proof.
  set (error := {| err_connection_id := "modbus"; err_retry_after_ms := 30000 |}).
  destruct (open_circuit_blocks_collection (W := World) (fun x _ => x) (fun x _ => x) (fun x => x)
    (fun _ _ => 1) (fun _ => 0) [level_mapping] modbus_connection open_runtime error)
    as (rt' & Hc & Hw & _).
  - vm_compute. discriminate.
  - exists (open (new_breaker default_circuit_breaker) 0). split; [vm_compute; reflexivity|].
    split; [|vm_compute; reflexivity]. vm_compute. eexists. reflexivity.
  - exists error, rt'. split; [exact Hc|]. rewrite Hw. vm_compute. reflexivity.
Defined.
End examples.
