(* ===== verification/CollectionSafety.v ===== *)
(** Collection does not panic: under a package whose ranges, transforms and
    clamps are well formed, no answer of an adapter makes a collection task
    panic ([crates/edge-runtime/src/configured_runtime.rs],
    [crates/edge-runtime/src/algorithm.rs]); on top of it,
    [resilient_run_covers_due_tasks] says that the resilient run attempts every due task
    that is enabled, in order, whatever the others do. *)

From Stdlib Require Import ZArith Lia.
From S2P Require Import Prelude RustStr Floats Model ConfigTypes ConfigParse CircuitBreaker.
From S2P Require Import Scheduler Dlt645 Expression Algorithm CommandPlan RuntimeState.
From S2P Require Import Collection.

Open Scope string_scope.
Open Scope Z_scope.

(** ** The algorithm engine *)

(** The limits of the clamps are in order. *)
Definition step_sound (step : AlgorithmStep) : Prop :=
  match step with StepClamp _ _ min max => forall v, is_Some (f64_clamp v min max) | _ => True end.

Definition spec_sound (algorithm : AlgorithmSpec) : Prop :=
  Forall step_sound (dsl_steps (algo_dsl algorithm)).

Section engine_returns.
Context (powf : f64 -> f64 -> f64) (now : DateTime) (elapsed : AlgorithmSpec -> TelemetrySample -> Z).

Lemma to_output_no_panic output (value : option (Result f64)) r :
  (forall x, value = Some x -> no_panic x) -> to_output output value = Some r -> no_panic r.
Proof using.
  intros Hv. unfold to_output. destruct value as [x|]; [|done]. intros [= <-].
  apply no_panic_bind; [by apply Hv | done].
Qed.

Lemma transform_step_no_panic algorithm sample step st st' r :
  step_sound step -> transform_step powf algorithm sample step st = (st', Some r) -> no_panic r.
Proof using.
  intros Hstep.
  destruct step as [| |output expr|source output factor offset|source output min max|source output per_ms| | | |];
    cbn -[evaluate_expression to_output rate_of_change numeric_source]; try done.
  - destruct (forallb _ _); [|done]. intros [= _ Hout]. revert Hout. apply to_output_no_panic.
    intros x. apply evaluate_expression_no_panic.
  - intros [= _ Hout]. revert Hout. apply to_output_no_panic. intros x.
    destruct (numeric_source _ _ _ _); [|done]. by intros [= <-].
  - intros [= _ Hout]. revert Hout. apply to_output_no_panic. intros x.
    destruct (numeric_source _ _ _ _); [|done]. intros [= <-]. apply no_panic_expect, Hstep.
  - destruct (rate_of_change _ _ _ _ _) as [st1 value]. intros [= _ Hout]. revert Hout.
    apply to_output_no_panic. intros x. destruct value; [|done]. by intros [= <-].
Qed.

Lemma transform_steps_no_panic algorithm sample steps st st' r :
  Forall step_sound steps -> transform_steps powf algorithm sample steps st = (st', Some r) -> no_panic r.
Proof using.
  intros Hsteps. revert st. induction Hsteps as [|step steps Hstep Hsteps IH]; intros st; [done|].
  cbn [transform_steps]. destruct (transform_step _ _ _ _ _) as [st1 [r1|]] eqn:E; [|apply IH].
  intros [= <- <-]. by eapply transform_step_no_panic.
Qed.

Lemma apply_transform_returns algorithm sample : spec_sound algorithm -> panic_free (Algorithm.apply_transform powf algorithm sample).
Proof using.
  intros Hs st. unfold Algorithm.apply_transform.
  destruct (transform_steps _ _ _ _ _) as [st1 [r|]] eqn:E; [|done]. cbn [snd].
  apply no_panic_bind; [by eapply transform_steps_no_panic|]. intros [name value] _. no_panic_tac.
Qed.

Lemma threshold_steps_no_panic algorithm sample steps :
  no_panic (apply_threshold_steps algorithm sample now steps).
Proof using.
  induction steps as [|step steps IH]; [done|]. cbn [apply_threshold_steps].
  apply no_panic_bind; [|intros [] _; apply no_panic_bind; [done | by intros []]].
  unfold apply_threshold_step.
  destruct (threshold_step step) as [[[[[source op] threshold] event] route]|]; [|done].
  apply no_panic_bind; [apply no_panic_ok_or|]. intros binding _. destruct (negb _); [done|].
  destruct (as_f64 _); [|done]. apply no_panic_bind; [|done]. destruct route as [[]|]; no_panic_tac.
Qed.

Lemma run_algorithm_returns algorithm sample :
  spec_sound algorithm -> panic_free (run_algorithm powf now algorithm sample).
Proof using.
  intros Hs. pose proof (apply_transform_returns algorithm sample Hs).
  pose proof (threshold_steps_no_panic algorithm sample (dsl_steps (algo_dsl algorithm))).
  unfold run_algorithm, apply_change_report, apply_window_aggregate, apply_debounce,
    apply_duration_condition, apply_threshold_rule, require_input, first_output.
  panic_free_tac.
Qed.

(** The engine: its specifications are sound, and stay as they are. *)
Definition engine_sound (engine : AlgorithmEngine) : Prop := Forall spec_sound (algorithms engine).

Lemma execute_safe algorithm sample :
  spec_sound algorithm -> safe engine_sound (execute powf now elapsed algorithm sample).
Proof using.
  intros Hs engine Hok. unfold execute.
  pose proof (run_algorithm_returns algorithm sample Hs
    (default default_state (states engine !! algo_id algorithm))) as Hr.
  destruct (run_algorithm _ _ _ _ _) as [st [[generated events]|e|e]]; by split.
Qed.

Lemma process_safe max sample w algorithm :
  spec_sound algorithm -> safe engine_sound (process powf now elapsed max sample w algorithm).
Proof using.
  intros Hs. unfold process. destruct (dsl_inputs _); [apply safe_ret|].
  destruct (negb _); [apply safe_ret|]. destruct (bool_decide _); [apply safe_ret|].
  apply safe_bind; [by apply execute_safe|]. intros [generated events].
  destruct (_ <? _); [by apply safe_lift | apply safe_ret].
Qed.

Lemma process_all_safe max sample specs w :
  Forall spec_sound specs -> safe engine_sound (process_all powf now elapsed max sample specs w).
Proof using.
  intros Hs. revert w. induction Hs as [|algorithm specs H Hs IH]; intros w; cbn [process_all].
  - apply safe_ret.
  - apply safe_bind; [by apply process_safe | apply IH].
Qed.

Lemma drain_safe fuel max specs w :
  Forall spec_sound specs -> safe engine_sound (drain powf now elapsed fuel max specs w).
Proof using.
  intros Hs. revert w. induction fuel as [|fuel IH]; intros w; cbn [drain]; [apply safe_ret|].
  destruct (work_pending w); [apply safe_ret|]. apply safe_bind; [by apply process_all_safe | apply IH].
Qed.

Lemma apply_samples_safe samples : safe engine_sound (apply_samples powf now elapsed samples).
Proof using.
  intros engine Hok. unfold apply_samples. rewrite M_bind_eq. unfold gets. by apply drain_safe.
Qed.

Lemma apply_samples_drains samples engine report :
  snd (apply_samples powf now elapsed samples engine) = Ok report -> is_Some report.
Proof using.
  intros Hr. unfold apply_samples in Hr. rewrite M_bind_eq in Hr. unfold gets in Hr.
  pose proof (drain_returns powf now elapsed (drain_fuel (length samples) (length (algorithms engine)))
    (max_generated_samples (length samples) (length (algorithms engine))) (algorithms engine)
    {| work_report := {| report_samples := []; report_events := [] |};
       work_pending := samples; work_processed := ∅ |} engine) as H.
  assert (0 <= max_generated_samples (length samples) (length (algorithms engine)))
    by (unfold max_generated_samples, sat_mul, u_max; nia).
  rewrite Hr in H. destruct report as [report|]; [eauto|]. exfalso. apply H.
  - unfold within. simpl. lia.
  - unfold budget, drain_fuel. cbn [work_pending work_report report_samples length]. lia.
Qed.
End engine_returns.

(** ** The read path *)

(** The range of a point can be clamped to, and its transforms are accepted. *)
Definition mapping_sound (mapping : TelemetryPointMapping) : Prop :=
  Forall (fun t => transform_problem t = None) (map_read_transforms mapping) /\
  forall range, map_range mapping = Some range ->
    is_finite (range_min range) = true /\ is_finite (range_max range) = true /\
    f64_gt (range_min range) (range_max range) = false.

Lemma no_panic_collect {A B} (f : A -> Result B) (l : list A) :
  (forall a, a ∈ l -> no_panic (f a)) -> no_panic (collect_results (f <$> l)).
Proof.
  induction l as [|a l IH]; intros Hf; [done|]. rewrite fmap_cons. cbn [collect_results].
  apply no_panic_bind; [apply Hf; by left|]. intros b _.
  apply no_panic_bind; [|done]. apply IH. intros x Hx. apply Hf. by right.
Qed.

Section read_safe.
Context {W : Type} `{Adapters W} `{ReadReports W}
        (powf : f64 -> f64 -> f64) (powi : f64 -> Z -> f64) (sin : f64 -> f64)
        (instant : string -> nat -> Instant) (utc : string -> DateTime)
        (package : EdgeConfigPackage).

Abbreviation ok := (runtime_ok (W := W) package).

Lemma simulated_samples_no_panic mappings timestamp :
  Forall mapping_sound mappings -> no_panic (collect_simulated_samples sin mappings timestamp).
Proof using.
  intros Hs. apply no_panic_collect. intros mapping Hin.
  apply no_panic_bind; [|done]. destruct (Forall_elem _ _ _ Hs Hin) as [_ Hrange].
  unfold simulated_value. destruct (map_value_type mapping); try done.
  destruct (simulated_profile _ _) as [base amplitude]. apply no_panic_bind; [|done].
  destruct (map_range mapping) as [range|]; [|done].
  destruct (Hrange range eq_refl) as (? & ? & ?). by apply clamp_defined.
Qed.

Lemma read_transforms_no_panic mappings samples :
  Forall mapping_sound mappings -> no_panic (apply_point_read_transforms powf powi mappings samples).
Proof using.
  intros Hs. apply no_panic_collect. intros s _. unfold read_transform.
  destruct (negb _); [done|]. destruct (mapping_of mappings s) as [m|] eqn:Em; [|done].
  apply mapping_of_Some in Em as (Hin & _). destruct (Forall_elem _ _ _ Hs Hin) as [Hts _].
  destruct (map_read_transforms m) as [|t ts]; [done|].
  assert (Hnp : no_panic (transform_point_value powf powi (sample_value s) (t :: ts))).
  { unfold transform_point_value. apply no_panic_bind; [apply no_panic_ok_or|]. intros v _.
    apply no_panic_bind; [by apply apply_transforms_spec|]. intros x _.
    destruct (sample_value s); try done. destruct (f64_eq _ _); no_panic_tac. }
  by destruct (transform_point_value _ _ _ _).
Qed.

(** What the adapters promise: they return. *)
Hypothesis ready_returns : forall c mappings, panic_free (adapter_ready (W := W) c mappings).
Hypothesis read_returns : forall c mappings, panic_free (read_telemetry (W := W) c mappings).

Section connection.
Context (c : ProtocolConnection).
Hypothesis Hc : connection package (conn_id c).

Lemma safe_metric f : safe ok (update_metric (conn_id c) f).
Proof using Hc. by apply safe_update_metric. Qed.

Lemma record_partial_failures_safe failures : safe ok (record_partial_failures (conn_id c) failures).
Proof using Hc.
  induction failures as [|failure failures IH]; cbn [record_partial_failures]; [apply safe_ret|].
  apply safe_bind; [apply safe_metric | done].
Qed.

Lemma read_connection_safe mappings :
  Forall mapping_sound mappings -> safe ok (read_connection sin utc c mappings).
Proof using Hc ready_returns read_returns.
  intros Hs. pose proof (simulated_samples_no_panic mappings (utc (conn_id c)) Hs).
  assert (Hrest : safe ok (
      _ ← (if kept_adapter (conn_protocol c) then on_world (adapter_ready c mappings) else mret ());
      result ← attempt (on_world (read_telemetry c mappings));
      _ ← (if bool_decide (conn_protocol c = BacnetIp)
           then world ← gets rt_world; update_metric (conn_id c) (with_subscriptions (cov_runtime_metrics c world))
           else mret ());
      mret result)).
  { apply safe_bind; [destruct (kept_adapter _); [apply safe_on_world, ready_returns | apply safe_ret]|].
    intros _. apply safe_bind; [apply safe_attempt, safe_on_world, read_returns|].
    intros result. apply safe_bind; [|intros; apply safe_ret].
    destruct (bool_decide _); [|apply safe_ret]. apply safe_bind; [apply safe_gets | intros; apply safe_metric]. }
  unfold read_connection. destruct (conn_protocol c); try exact Hrest. by apply safe_attempt, safe_lift.
Qed.

Lemma finish_read_safe mappings samples :
  Forall mapping_sound mappings -> safe ok (finish_read powf powi c mappings samples).
Proof using Hc.
  intros Hs. unfold finish_read. apply safe_bind; [apply safe_gets|]. intros failures.
  apply safe_bind; [by apply safe_lift, read_transforms_no_panic|]. intros transformed.
  apply safe_bind; [by apply safe_success|]. intros _.
  apply safe_bind; [apply safe_metric|]. intros _.
  apply safe_bind; [apply record_partial_failures_safe|]. intros _.
  apply safe_bind; [apply safe_metric|]. intros _. apply safe_ret.
Qed.

Lemma fail_read_safe {A} points error : safe ok (fail_read (A := A) instant c points error).
Proof using Hc.
  unfold fail_read. apply safe_bind; [by apply safe_failure|]. intros _.
  apply safe_bind; [apply safe_metric|]. intros _.
  apply safe_bind; [apply safe_metric|]. intros _. by apply safe_lift.
Qed.

Lemma collect_connection_safe selected :
  Forall mapping_sound selected -> safe ok (collect_connection powf powi sin instant utc selected c).
Proof using Hc ready_returns read_returns.
  intros Hs. assert (Hms : Forall mapping_sound (mappings_for_connection selected c)).
  { apply list.Forall_forall. intros m [_ Hin]%list_elem_of_filter. by eapply Forall_elem. }
  unfold collect_connection. destruct (bool_decide _); [apply safe_ret|].
  apply safe_bind; [apply safe_metric|]. intros _.
  apply safe_bind; [by apply safe_attempt, safe_allow|]. intros [[]|error].
  - apply safe_bind; [by apply read_connection_safe|]. intros result.
    apply safe_bind; [apply safe_metric|]. intros _. destruct result as [samples|error].
    + apply safe_bind; [by apply finish_read_safe|]. intros final.
      apply safe_bind; [apply safe_set_shadows | intros; apply safe_ret].
    + apply fail_read_safe.
  - apply safe_bind; [apply safe_metric|]. intros _. by apply safe_lift.
Qed.
End connection.

Lemma collect_mappings_safe selected :
  Forall mapping_sound selected -> safe ok (collect_mappings powf powi sin instant utc package selected).
Proof using ready_returns read_returns.
  intros Hs. unfold collect_mappings.
  assert (Hin : forall c, c ∈ pkg_protocol_connections package -> connection package (conn_id c))
    by (intros c Hc; by exists c).
  induction (pkg_protocol_connections package) as [|c connections IH]; cbn [collect_connections]; [apply safe_ret|].
  apply safe_bind; [apply collect_connection_safe; [apply Hin; by left | done]|]. intros samples.
  apply safe_bind; [apply IH; intros d Hd; apply Hin; by right | intros; apply safe_ret].
Qed.
End read_safe.

(** ** The schedule of a run *)

Definition runs (ids : list string) (now_ms : Z) : list (string * Z) := (fun id => (id, now_ms)) <$> ids.

Lemma mark_ran_scheduled missing entries id now :
  id ∈ ids entries -> exists entries', mark_ran missing entries id now = Ok entries' /\ ids entries' = ids entries.
Proof.
  unfold mark_ran, ids. induction entries as [|e entries IH]; [by intros []%not_elem_of_nil|].
  rewrite fmap_cons. cbn [update_first]. case_bool_decide as He.
  - intros _. eexists. split; [done|]. by rewrite fmap_cons.
  - intros [->|Hin]%elem_of_cons; [done|]. destruct (IH Hin) as (entries' & Hm & Hids).
    destruct (update_first _ _ entries) as [l|]; [|done]. injection Hm as ->.
    exists (e :: entries'). by rewrite fmap_cons, Hids.
Qed.

Lemma due_ids_scheduled entries now id : id ∈ due_ids entries now -> id ∈ ids entries.
Proof.
  unfold due_ids, ids. intros (e & He & Hid)%list_elem_of_omap. destruct (is_due now e); [|done].
  injection Hid as <-. by apply list_elem_of_fmap_2.
Qed.

Lemma marked_due missing entries now entries' :
  NoDup (ids entries) -> mark_all missing entries (runs (due_ids entries now) now) = Ok entries' ->
  entries' = (fun entry => if is_due now entry then reschedule now entry else entry) <$> entries.
Proof.
  intros Hnd Hm. destruct (mark_all_spec missing entries (runs (due_ids entries now) now) Hnd) as [Hspec _].
  { apply list.Forall_forall. intros [id t] (x & [= -> ->] & Hx)%list_elem_of_fmap. by apply due_ids_scheduled in Hx. }
  rewrite Hm in Hspec. injection Hspec as ->. apply list_fmap_ext. intros i entry Hi%list_elem_of_lookup_2.
  assert (Hlast : forall l, last_run (sched_id entry) (runs l now) = if bool_decide (sched_id entry ∈ l) then Some now else None).
  { unfold runs. intros l. induction l as [|x l IH] using rev_ind; [done|]. rewrite fmap_app. cbn [fmap list_fmap].
    rewrite last_run_snoc, IH. repeat case_bool_decide; set_solver. }
  unfold after_history. rewrite Hlast. case_bool_decide as Hdue.
  - apply elem_of_due_ids in Hdue as (other & Ho & Hid & Hle). assert (other = entry) as ->.
    { unfold ids in Hnd. apply list_elem_of_lookup in Ho as [j Hj]. apply list_elem_of_lookup in Hi as [k Hk].
      assert (j = k) as ->; [|congruence]. eapply (NoDup_lookup _ j k (sched_id entry) Hnd); rewrite list_lookup_fmap;
        [rewrite Hj | rewrite Hk]; cbn; congruence. }
    unfold is_due. by rewrite (proj2 (Z.leb_le _ _)).
  - destruct (is_due now entry) eqn:Ed; [|done]. exfalso. apply Hdue. apply elem_of_due_ids. exists entry.
    unfold is_due in Ed. by apply Z.leb_le in Ed.
Qed.

(** ** The resilient run *)

Section resilient.
Context {W : Type} `{Adapters W} `{ReadReports W}
        (powf : f64 -> f64 -> f64) (powi : f64 -> Z -> f64) (sin : f64 -> f64)
        (instant : string -> nat -> Instant) (utc : string -> DateTime)
        (event_now : DateTime) (elapsed : AlgorithmSpec -> TelemetrySample -> Z)
        (package : EdgeConfigPackage).

Abbreviation task_once := (collect_task_once powf powi sin instant utc event_now elapsed package).
Abbreviation loop := (resilient_loop powf powi sin instant utc event_now elapsed package).

(** What the adapters promise: they return. *)
Hypothesis ready_returns : forall c mappings, panic_free (adapter_ready (W := W) c mappings).
Hypothesis read_returns : forall c mappings, panic_free (read_telemetry (W := W) c mappings).
(** The points of the package are well formed. *)
Hypothesis points_sound : Forall mapping_sound (pkg_point_mappings package).

Definition edge_ok (e : Edge W) : Prop :=
  runtime_ok package (edge_runtime e) /\ engine_sound (edge_engine e).

Lemma safe_on_runtime {A} (m : M (Runtime W) A) : safe (runtime_ok package) m -> safe edge_ok (on_runtime m).
Proof using.
  intros Hm e [Hr He]. unfold on_runtime. destruct (Hm _ Hr) as [Hr' Hnp].
  destruct (m (edge_runtime e)) as [rt r]. by split.
Qed.

Lemma apply_algorithm_samples_safe samples :
  safe edge_ok (apply_algorithm_samples powf event_now elapsed samples).
Proof using.
  intros e [Hr He]. unfold apply_algorithm_samples. rewrite M_bind_eq. unfold on_engine.
  destruct (apply_samples_safe powf event_now elapsed samples (edge_engine e) He) as [He' Hnp].
  pose proof (apply_samples_drains powf event_now elapsed samples (edge_engine e)) as Hdr.
  destruct (apply_samples powf event_now elapsed samples (edge_engine e)) as [engine r].
  destruct r as [report|x|x]; [|by split..]. destruct (Hdr report eq_refl) as [report' ->]. by split.
Qed.

Lemma collect_task_once_safe id : safe edge_ok (task_once id).
Proof using ready_returns read_returns points_sound.
  unfold collect_task_once. apply safe_bind; [apply safe_lift, no_panic_ok_or|]. intros task.
  destruct (negb _); [apply safe_ret|]. apply safe_bind; [|intros; apply safe_ret].
  unfold collect_samples_for_task. apply safe_bind; [|apply apply_algorithm_samples_safe].
  apply safe_on_runtime, collect_mappings_safe; [done..|].
  apply list.Forall_forall. intros m [_ Hin]%list_elem_of_filter. by eapply Forall_elem.
Qed.

(** *** What the run of a task is

    The samples it collected, or the reason it failed. *)

Definition TaskOutcome : Type := list TelemetrySample + string.

(** The points of a task. *)
Definition points_of (task : CollectionTask) : list TelemetryPointMapping :=
  filter (fun mapping => map_device_id mapping = task_device_id task /\ map_point_id mapping ∈ task_point_ids task)
    (pkg_point_mappings package).

(** The first task of the package with an id. *)
Definition names_task (id : string) (task : CollectionTask) : Prop :=
  exists before after, pkg_collection_tasks package = (before ++ task :: after)%list /\ task_id task = id /\
    Forall (fun other => task_id other <> id) before.

(** The runtime with the samples of the algorithms in its shadows. *)
Definition with_results (rt : Runtime W) (engine : AlgorithmEngine) (generated : list TelemetrySample) : Edge W :=
  {| edge_runtime := fst (set_shadows (update_shadows generated) rt); edge_engine := engine |}.

(** An enabled task reads its points on their connections and runs the algorithms on
    what it read; a disabled one reads nothing. *)
Inductive task_run (e : Edge W) (id : string) : Edge W -> TaskOutcome -> Prop :=
| run_unknown :
    Forall (fun task => task_id task <> id) (pkg_collection_tasks package) ->
    task_run e id e (inr ("collection task not found: " ++ id))
| run_disabled task :
    names_task id task -> task_enabled task = false -> task_run e id e (inl [])
| run_unread task rt reason :
    names_task id task -> task_enabled task = true ->
    collect_mappings powf powi sin instant utc package (points_of task) (edge_runtime e) = (rt, Err reason) ->
    task_run e id {| edge_runtime := rt; edge_engine := edge_engine e |} (inr reason)
| run_uncomputed task rt samples engine reason :
    names_task id task -> task_enabled task = true ->
    collect_mappings powf powi sin instant utc package (points_of task) (edge_runtime e) = (rt, Ok samples) ->
    apply_samples powf event_now elapsed samples (edge_engine e) = (engine, Err reason) ->
    task_run e id {| edge_runtime := rt; edge_engine := engine |} (inr reason)
| run_collected task rt samples engine report :
    names_task id task -> task_enabled task = true ->
    collect_mappings powf powi sin instant utc package (points_of task) (edge_runtime e) = (rt, Ok samples) ->
    apply_samples powf event_now elapsed samples (edge_engine e) = (engine, Ok (Some report)) ->
    task_run e id (with_results rt engine (report_samples report)) (inl (samples ++ report_samples report)%list).

(** The runs of some tasks, one after the other. *)
Inductive tasks_in_turn : Edge W -> list (string * TaskOutcome) -> Edge W -> Prop :=
| turn_end e : tasks_in_turn e [] e
| turn_task e id e1 outcome rest e2 :
    task_run e id e1 outcome -> tasks_in_turn e1 rest e2 -> tasks_in_turn e ((id, outcome) :: rest) e2.

(** What the report says of the runs. *)
Definition samples_of (runs : list (string * TaskOutcome)) : list TelemetrySample :=
  concat ((fun run => match snd run with inl samples => samples | inr _ => [] end) <$> runs).

Definition failures_of (runs : list (string * TaskOutcome)) : list ScheduledCollectionFailure :=
  omap (fun run => match snd run with
                   | inl _ => None
                   | inr reason => Some {| failed_task_id := fst run; failure_reason := reason |}
                   end) runs.

Lemma find_first_names id :
  match find_first (fun task => bool_decide (task_id task = id)) (pkg_collection_tasks package) with
  | Some task => names_task id task
  | None => Forall (fun task => task_id task <> id) (pkg_collection_tasks package)
  end.
Proof using.
  unfold names_task. induction (pkg_collection_tasks package) as [|task tasks IH]; cbn [find_first]; [constructor|].
  case_bool_decide as Hid; [by exists [], tasks|]. destruct (find_first _ tasks) as [found|]; [|by constructor].
  destruct IH as (before & after & -> & Hf & Hb). exists (task :: before), after. by repeat constructor.
Qed.

Lemma task_once_runs id (e : Edge W) :
  edge_ok e ->
  edge_ok (fst (task_once id e)) /\
  exists outcome, task_run e id (fst (task_once id e)) outcome /\
    snd (task_once id e) = match outcome with inl samples => Ok (Z.of_nat (length samples)) | inr reason => Err reason end.
Proof using ready_returns read_returns points_sound.
  intros Hok. destruct (collect_task_once_safe id e Hok) as [Hok' Hnp]. split; [done|].
  destruct (task_once id e) as [e' r] eqn:Erun. cbn [fst snd] in *. clear Hok'. revert Erun.
  unfold collect_task_once. rewrite lift_bind. pose proof (find_first_names id) as Hfind.
  destruct (find_first _ _) as [task|]; cbn [ok_or]; [|intros [= <- <-]; eexists; split; [by apply run_unknown | done]].
  destruct (task_enabled task) eqn:Een; cbn [negb]; [|intros [= <- <-]; eexists; split; [by eapply run_disabled | done]].
  rewrite M_bind_eq. unfold collect_samples_for_task, apply_algorithm_samples. rewrite M_bind_eq.
  unfold on_runtime at 1, task_mappings. fold (points_of task).
  destruct (collect_mappings _ _ _ _ _ _ (points_of task) (edge_runtime e)) as [rt [samples|reason|reason]] eqn:Ec;
    [|intros [= <- <-]; eexists; split; [by eapply run_unread | done] | intros [= <- <-]; done].
  rewrite M_bind_eq. unfold on_engine. cbn [edge_runtime edge_engine].
  pose proof (apply_samples_drains powf event_now elapsed samples (edge_engine e)) as Hdr.
  destruct (apply_samples _ _ _ samples (edge_engine e)) as [engine [report|reason|reason]] eqn:Ea;
    [|intros [= <- <-]; eexists; split; [by eapply run_uncomputed | done] | intros [= <- <-]; done].
  destruct (Hdr report eq_refl) as [report' ->]. intros [= <- <-]. eexists.
  split; [by eapply run_collected | done].
Qed.

Lemma resilient_loop_spec due now succeeded collected failures s :
  edge_ok (fst s) -> (forall id, id ∈ due -> id ∈ ids (snd s)) ->
  exists s' outcomes, edge_ok (fst s') /\ tasks_in_turn (fst s) outcomes (fst s') /\ fst <$> outcomes = due /\
    loop due now succeeded collected failures s =
      (s', Ok (succeeded + (Z.of_nat (length due) - Z.of_nat (length (failures_of outcomes))),
               collected + Z.of_nat (length (samples_of outcomes)), (failures ++ failures_of outcomes)%list)) /\
    mark_all "collection task not scheduled: " (snd s) (runs due now) = Ok (snd s').
Proof using ready_returns read_returns points_sound.
  revert succeeded collected failures s.
  induction due as [|id due IH]; intros succeeded collected failures s Hok Hdue; cbn [resilient_loop].
  { exists s, []. cbn. rewrite !Z.add_0_r, app_nil_r. split_and!; try done. constructor. }
  rewrite M_bind_eq. unfold attempt, on_edge. destruct (task_once_runs id (fst s) Hok) as (Hok' & outcome & Hrun & Hres).
  destruct (task_once id (fst s)) as [e r]. cbn [fst snd] in *.
  destruct (mark_ran_scheduled "collection task not scheduled: " (snd s) id now) as (entries' & Hm & Hids).
  { apply Hdue. by left. }
  assert (Hdue' : forall x, x ∈ due -> x ∈ ids (snd (e, entries'))).
  { intros x Hx. simpl. rewrite Hids. apply Hdue. by right. }
  assert (Hall : forall l, mark_all "collection task not scheduled: " entries' l =
    mark_all "collection task not scheduled: " (snd s) ((id, now) :: l)).
  { intros l. unfold mark_all. simpl. by rewrite Hm. }
  subst r. destruct outcome as [samples|reason]; rewrite M_bind_eq; unfold mark_task; cbn [fst snd];
    unfold CollectionSchedule.mark_task_ran; rewrite Hm.
  - destruct (IH (succeeded + 1) (collected + Z.of_nat (length samples)) failures (e, entries') Hok' Hdue')
      as (s' & outcomes & Hs' & Hturn & Hfst & -> & Hmark).
    exists s', ((id, inl samples) :: outcomes). split; [done|]. split; [by econstructor|]. split; [by rewrite fmap_cons, Hfst|].
    split; [|unfold runs; rewrite fmap_cons, <- Hall; exact Hmark].
    unfold samples_of, failures_of. rewrite fmap_cons. cbn [concat omap list_omap snd length]. rewrite length_app.
    do 4 f_equal; lia.
  - destruct (IH succeeded collected (failures ++ [{| failed_task_id := id; failure_reason := reason |}])%list
      (e, entries') Hok' Hdue') as (s' & outcomes & Hs' & Hturn & Hfst & -> & Hmark).
    exists s', ((id, inr reason) :: outcomes). split; [done|]. split; [by econstructor|]. split; [by rewrite fmap_cons, Hfst|].
    split; [|unfold runs; rewrite fmap_cons, <- Hall; exact Hmark].
    unfold samples_of, failures_of. rewrite fmap_cons. cbn [concat omap list_omap snd fst length app].
    rewrite <- app_assoc. do 4 f_equal; lia.
Qed.

(** [C15] One failing task does not stop the others, and none brings the process
    down: whatever the adapters answer, the resilient run of the due tasks of a
    well-formed package returns a report.  Every due task is run, in order and each on
    the state the one before it left: an enabled one reads its points and runs the
    algorithms on them, a disabled one reads nothing, an unknown one fails.  The
    report counts the tasks, the samples they collected, and their failures with
    their reasons; each due entry is rescheduled from now, the others are left; and
    the runtime is in a state from which the next run does the same. *)
Theorem resilient_run_covers_due_tasks now (e : Edge W) entries :
  edge_ok e ->
  exists e' entries' outcomes report,
    collect_due_tasks_resilient_once powf powi sin instant utc event_now elapsed package now (e, entries) =
      ((e', entries'), Ok report) /\
    edge_ok e' /\
    tasks_in_turn e outcomes e' /\ fst <$> outcomes = due_ids entries now /\
    tasks_run report = Z.of_nat (length outcomes) /\
    tasks_succeeded report = Z.of_nat (length outcomes) - Z.of_nat (length (failures_of outcomes)) /\
    tasks_failed report = Z.of_nat (length (failures_of outcomes)) /\
    samples_collected report = Z.of_nat (length (samples_of outcomes)) /\
    collection_failures report = failures_of outcomes /\
    mark_all "collection task not scheduled: " entries (runs (due_ids entries now) now) = Ok entries' /\
    (NoDup (ids entries) ->
     entries' = (fun entry => if is_due now entry then reschedule now entry else entry) <$> entries).
Proof using ready_returns read_returns points_sound.
  intros Hok. unfold collect_due_tasks_resilient_once. rewrite M_bind_eq. unfold gets. cbn [snd].
  destruct (resilient_loop_spec (due_ids entries now) now 0 0 [] (e, entries))
    as ([e' entries'] & outcomes & Hok' & Hturn & Hfst & Hloop & Hmark); [done| |].
  { intros id. apply due_ids_scheduled. }
  assert (Hlen : length (due_ids entries now) = length outcomes) by (rewrite <- Hfst; apply length_fmap).
  rewrite M_bind_eq, Hloop. eexists e', entries', outcomes, _. split; [done|]. rewrite Hlen. cbn [fst snd] in *.
  split_and!; try done. intros Hnd. by apply (marked_due "collection task not scheduled: ").
Qed.
End resilient.

(** ** Example *)

Section examples.
Import FixedWorld.

Lemma fixed_world_returns c mappings :
  panic_free (adapter_ready (W := World) c mappings) /\ panic_free (read_telemetry (W := World) c mappings).
Proof. by split. Qed.

(** The tank package with one task that is due and one that is unknown. *)
Definition tank_edge : Edge World :=
  {| edge_runtime := tank_runtime;
     edge_engine := {| algorithms := [example_spec ExpressionAggregate
                                        (StepClamp "x" "y" f64_zero (f64_of_Z 10))];
                       states := ∅; execution := ∅ |} |}.

Definition tank_schedule : list Scheduled :=
  [CollectionSchedule.scheduled_task tank_task;
   CollectionSchedule.scheduled_task
     {| task_id := "gone"; task_device_id := "tank"; task_point_ids := []; task_interval_ms := 5;
        task_enabled := true |}].

Lemma tank_edge_ok : edge_ok tank_package tank_edge.
Proof.
  split.
  - unfold runtime_ok. simpl. constructor; [|constructor].
    split; vm_compute; eexists; reflexivity.
  - repeat constructor. intros v. simpl. unfold f64_clamp. vm_compute (SpecFloat.SFleb _ _). eauto.
Qed.

Lemma tank_points_sound : Forall mapping_sound (pkg_point_mappings tank_package).
Proof.
  constructor; [|constructor]. split; [constructor; [by vm_compute|constructor]|].
  intros range [= <-]. by vm_compute.
Qed.

Lemma resilient_run_covers_due_tasks_witness :
  exists e' entries' report outcomes,
    collect_due_tasks_resilient_once (fun x _ => x) (fun x _ => x) (fun x => x) (fun _ _ => 0) (fun _ => 0)
      0 (fun _ _ => 0) tank_package 1000 (tank_edge, tank_schedule) = ((e', entries'), Ok report) /\
    tasks_run report = 2 /\ fst <$> outcomes = due_ids tank_schedule 1000 /\
    samples_collected report = Z.of_nat (length (samples_of outcomes)) /\
    collection_failures report = failures_of outcomes.
Proof.
  destruct (resilient_run_covers_due_tasks (W := World) (fun x _ => x) (fun x _ => x) (fun x => x)
    (fun _ _ => 0) (fun _ => 0) 0 (fun _ _ => 0) tank_package
    (fun c ms => proj1 (fixed_world_returns c ms)) (fun c ms => proj2 (fixed_world_returns c ms))
    tank_points_sound 1000 tank_edge tank_schedule tank_edge_ok)
    as (e' & entries' & outcomes & report & Hrun & _ & _ & Hfst & Hn & _ & _ & Hc & Hf & _).
  exists e', entries', report, outcomes. split; [exact Hrun|].
  split; [|split; [exact Hfst|split; [exact Hc | exact Hf]]].
  rewrite Hn, <- (length_fmap fst), Hfst. vm_compute. reflexivity.
Defined.
End examples.
