(* ===== verification/CommandRuntime.v ===== *)
(** Command execution: the write path of [ConfiguredEdgeRuntime]
    ([crates/edge-runtime/src/configured_runtime.rs]) — point writes and their
    verification, the loop over the writes of a plan, the safety checks, and the
    handling of a command message with and without the local store.

    The plan of a command is [CommandPlan], the claims and the rate windows of the
    store are [CommandStore], the replies go through [Outbox].  The readings of
    the clocks are the record [Clocks]; the adapters are the class
    [RuntimeState.Adapters]. *)

From Stdlib Require Import ZArith Lia.
From S2P Require Import Prelude RustStr Floats Json Model ConfigTypes CommandFlow.
From S2P Require Import CircuitBreaker FloatFmt KvStore Outbox CommandPlan CommandStore.
From S2P Require Import RuntimeState Collection.

Open Scope string_scope.
Open Scope Z_scope.

(** What the clocks read while one plan is handled; [nat] arguments are positions
    in the writes of the plan. *)
Record Clocks := {
  planned_at : option string -> nat -> DateTime;
  created_at : DateTime;
  claimed_at : DateTime;
  checked_at : Instant;
  admitted_at : DateTime;
  request_at : nat -> Instant;
  started_at : nat -> Instant;
  measured_at : nat -> Instant;
  failure_at : nat -> Instant;
  shadow_at : nat -> DateTime;
  failed_at : DateTime;
  finished_at : DateTime;
  reply_at : nat -> DateTime;
}.

(** ** Helpers *)

(** [.with_context(..)] on a computation. *)
Definition in_context {S A} (m : M S A) (msg : string) : M S A := fun s =>
  let '(s, r) := m s in (s, with_context r msg).

Definition update_command_shadow (mapping : TelemetryPointMapping) (result : ProtocolWriteResult)
    (now : DateTime) (shadows : gmap string DeviceShadow) : gmap string DeviceShadow :=
  alter (fun shadow => shadow_update shadow
    (new_sample (map_device_id mapping) (map_point_id mapping)
       (default (res_value result) (res_readback_value result)) Q_Good now))
    (map_device_id mapping) shadows.

Definition find_connection (package : EdgeConfigPackage) (id : string) : option ProtocolConnection :=
  find_first (fun c => bool_decide (conn_id c = id)) (pkg_protocol_connections package).

Definition connection_of (package : EdgeConfigPackage) (mapping : TelemetryPointMapping)
    : Result ProtocolConnection :=
  ok_or (find_connection package (map_protocol_connection_id mapping))
    ("point " ++ map_point_id mapping ++ " protocol connection not found: "
     ++ map_protocol_connection_id mapping).

(** ** Writes *)

Section writes.
Context {W : Type} `{Adapters W} (package : EdgeConfigPackage) (ck : Clocks).

(** [verify_command_write]; [samples] is the read back of the adapter. *)
Definition verify_command_write (samples : M W (list TelemetrySample)) (write : PlannedPointWrite)
    (result : ProtocolWriteResult) : M W ProtocolWriteResult :=
  if bool_decide (pw_verification write = Response) then mret result
  else
    let mapping := pw_mapping write in
    samples ← in_context samples ("read back point " ++ map_point_id mapping ++ " after write");
    sample ← lift (ok_or (find_first (fun s => bool_decide (sample_telemetry_id s = map_point_id mapping) &&
                                               bool_decide (sample_device_id s = map_device_id mapping)) samples)
                     ("readback did not return point " ++ map_point_id mapping ++ " for device "
                      ++ map_device_id mapping));
    let readback := sample_value sample in
    mret {| res_point_id := res_point_id result; res_value := res_value result;
            res_verified := command_values_match (pw_value write) readback (pw_readback_tolerance write);
            res_readback_value := Some readback |}.

(** The [match connection.protocol] of [write_command_point]. *)
Definition perform_write (c : ProtocolConnection) (write : PlannedPointWrite)
    : M (Runtime W) (ProtocolWriteResult + string) :=
  let mapping := pw_mapping write in
  match conn_protocol c with
  | Simulated =>
      mret (inl {| res_point_id := map_point_id mapping; res_value := pw_value write; res_verified := true;
                   res_readback_value := if bool_decide (pw_verification write = Readback)
                                         then Some (pw_value write) else None |})
  | Dlt645 | CustomSerial =>
      mret (inr ("protocol " ++ debug_protocol (conn_protocol c) ++ " does not support command writes"))
  | _ =>
      _ ← (if kept_adapter (conn_protocol c) then on_world (adapter_ready c [mapping]) else mret ());
      attempt (on_world (
        result ← write_point c mapping (pw_value write);
        verify_command_write (read_back c mapping) write result))
  end.

(** The end of a write: latency, breaker and metrics, then the shadows. *)
Definition settle_write {A} (id : string) (n : nat) (outcome : A + string)
    (shadows : A -> gmap string DeviceShadow -> gmap string DeviceShadow) : M (Runtime W) A :=
  _ ← update_metric id (set_latency (elapsed_millis (sat_sub (measured_at ck n) (started_at ck n))));
  match outcome with
  | inl a =>
      _ ← record_protocol_success id;
      _ ← update_metric id count_write_success;
      _ ← set_shadows (shadows a);
      mret a
  | inr error =>
      _ ← record_protocol_failure id (failure_at ck n);
      _ ← update_metric id (count_failure error);
      lift (Err error)
  end.

(** [n] is the position of the write in the plan. *)
Definition write_command_point (n : nat) (write : PlannedPointWrite) : M (Runtime W) ProtocolWriteResult :=
  connection ← lift (connection_of package (pw_mapping write));
  let id := conn_id connection in
  _ ← update_metric id count_write_attempt;
  _ ← allow_protocol_request id (request_at ck n);
  write_result ← perform_write connection write;
  settle_write id n write_result
    (fun result => update_command_shadow (pw_mapping write) result (shadow_at ck n)).

Definition is_modbus_response_write (write : PlannedPointWrite) : bool :=
  if negb (bool_decide (pw_verification write = Response)) then false
  else
    match find_connection package (map_protocol_connection_id (pw_mapping write)) with
    | Some c => match conn_protocol c with ModbusTcp | ModbusRtu => true | _ => false end
    | None => false
    end.

(** The writes of a batch: the longest prefix for the same connection that asks
    for no read back. *)
Fixpoint batch_writes (id : string) (writes : list PlannedPointWrite) : list PlannedPointWrite :=
  match writes with
  | [] => []
  | write :: writes =>
      if bool_decide (pw_verification write = Response) &&
         bool_decide (map_protocol_connection_id (pw_mapping write) = id)
      then write :: batch_writes id writes else []
  end.

(** The loop that updates the shadows: [writes.iter().zip(&results).take(consumed)]. *)
Fixpoint update_command_shadows (n consumed : nat) (writes : list PlannedPointWrite)
    (results : list ProtocolWriteResult) (shadows : gmap string DeviceShadow) : gmap string DeviceShadow :=
  match consumed, writes, results with
  | S consumed, write :: writes, result :: results =>
      update_command_shadows (S n) consumed writes results
        (update_command_shadow (pw_mapping write) result (shadow_at ck n) shadows)
  | _, _, _ => shadows
  end.

Definition write_modbus_command_prefix (n : nat) (writes : list PlannedPointWrite)
    : M (Runtime W) (nat * list ProtocolWriteResult) :=
  first ← lift (ok_or (head writes) "command write batch cannot be empty");
  connection ← lift (connection_of package (pw_mapping first));
  let id := conn_id connection in
  let protocol_writes := (fun w => (pw_mapping w, pw_value w)) <$> batch_writes id writes in
  _ ← update_metric id count_write_attempt;
  _ ← allow_protocol_request id (request_at ck n);
  write_result ←
    match conn_protocol connection with
    | ModbusTcp | ModbusRtu => attempt (on_world (write_prefix connection protocol_writes))
    | unsupported =>
        mret (inr ("protocol " ++ debug_protocol unsupported ++ " does not support Modbus batch writes"))
    end;
  settle_write id n write_result
    (fun '(consumed, results) => update_command_shadows n consumed writes results).
End writes.

(** ** The loop over the writes of a plan *)

Section execution.
Context {W : Type} `{Adapters W} (package : EdgeConfigPackage)
        (** [{:?}] of a string. *)
        (debug_str : string -> string)
        (encode_reply : string -> string -> option string -> CommandExecutionStatus ->
                        list CommandWriteRecord -> option string -> DateTime -> Result bytes).

(** [{:?}] of an optional value. *)
Definition debug_readback (v : option TelemetryValue) : string :=
  match v with Some v => "Some(" ++ debug_value debug_str v ++ ")" | None => "None" end.

Section loop.
Context (ck : Clocks).

(** The inner loop: the results are recorded until one fails its verification;
    the flag is [failed_verification].  Indexing [plan.writes] past its end
    panics. *)
Fixpoint record_results (report : CommandExecutionReport) (writes : list PlannedPointWrite)
    (results : list ProtocolWriteResult) {struct results} : Result (CommandExecutionReport * bool) :=
  match results, writes with
  | [], _ => Ok (report, false)
  | _ :: _, [] => Panic "index out of bounds"
  | result :: results, write :: writes =>
      let report := record_write report write result in
      if res_verified result then record_results report writes results
      else
        Ok (fail report ("point " ++ map_point_id (pw_mapping write)
              ++ " readback verification failed: expected " ++ debug_value debug_str (pw_value write)
              ++ ", actual " ++ debug_readback (res_readback_value result)) (failed_at ck), true)
  end.

(** The [while] loop: [remaining] is [plan.writes[cursor..]]. *)
Fixpoint write_loop (fuel cursor : nat) (remaining : list PlannedPointWrite)
    (report : CommandExecutionReport) : M (Runtime W) CommandExecutionReport :=
  match remaining with
  | [] => mret report
  | write :: _ =>
      match fuel with
      | O => lift (Panic "fuel")
      | S fuel =>
          outcome ← attempt (
            if is_modbus_response_write package write
            then write_modbus_command_prefix package ck cursor remaining
            else result ← write_command_point package ck cursor write; mret (1%nat, [result]));
          match outcome with
          | inl (consumed, results) =>
              if bool_decide (consumed = 0%nat) || negb (bool_decide (length results = consumed))
              then mret (fail report "protocol command adapter returned an invalid batch result" (failed_at ck))
              else
                recorded ← lift (record_results report remaining results);
                let (report, failed_verification) := recorded : CommandExecutionReport * bool in
                if failed_verification then mret report
                else write_loop fuel (cursor + consumed) (drop consumed remaining) report
          | inr error => mret (fail report error (failed_at ck))
          end
      end
  end.

Definition with_source (source : option string) (report : CommandExecutionReport) : CommandExecutionReport :=
  {| rep_flow_id := rep_flow_id report; rep_command_id := rep_command_id report; rep_source := source;
     rep_status := rep_status report; rep_writes := rep_writes report; rep_error := rep_error report;
     rep_completed_at := rep_completed_at report; rep_duplicate := rep_duplicate report;
     rep_replies := rep_replies report |}.

Definition with_completed_at (now : DateTime) (report : CommandExecutionReport) : CommandExecutionReport :=
  {| rep_flow_id := rep_flow_id report; rep_command_id := rep_command_id report;
     rep_source := rep_source report; rep_status := rep_status report; rep_writes := rep_writes report;
     rep_error := rep_error report; rep_completed_at := now; rep_duplicate := rep_duplicate report;
     rep_replies := rep_replies report |}.

Definition with_replies (replies : list MqttPublishMessage) (report : CommandExecutionReport)
    : CommandExecutionReport :=
  {| rep_flow_id := rep_flow_id report; rep_command_id := rep_command_id report;
     rep_source := rep_source report; rep_status := rep_status report; rep_writes := rep_writes report;
     rep_error := rep_error report; rep_completed_at := rep_completed_at report;
     rep_duplicate := rep_duplicate report; rep_replies := replies |}.

(** The report an execution starts with. *)
Definition started_report (plan : CommandExecutionPlan) : CommandExecutionReport :=
  with_source (plan_command_source plan)
    (new_report (flow_id (plan_flow plan)) (plan_command_id plan) (created_at ck)).

Definition execute_command_plan_after_safety (plan : CommandExecutionPlan)
    : M (Runtime W) CommandExecutionReport :=
  report ← write_loop (length (plan_writes plan)) 0 (plan_writes plan) (started_report plan);
  let report := with_completed_at (finished_at ck) report in
  replies ← lift (build_command_reply_messages encode_reply package plan report);
  mret (with_replies replies report).

Definition command_safety_failure_report (plan : CommandExecutionPlan) (error : string)
    : Result CommandExecutionReport :=
  let report := fail (started_report plan) error (failed_at ck) in
  replies ← build_command_reply_messages encode_reply package plan report;
  Ok (with_replies replies report).

(** ** Safety checks *)

Definition rate_error (gate_id : string) (max_commands window_ms : Z) : string :=
  "safety gate " ++ gate_id ++ " rate limit exceeded: " ++ show_Z max_commands ++ " commands per "
  ++ show_Z window_ms ++ "ms".

Fixpoint enforce_command_sources (gates : list PlannedCommandSafetyGate) : Result () :=
  match gates with
  | [] => Ok ()
  | gate :: gates =>
      _ ← (if bool_decide (gate_allowed_sources gate = []) then Ok ()
           else
             source ← ok_or (gate_source gate)
               ("safety gate " ++ gate_node_id gate ++ " requires command source at " ++ gate_source_path gate);
             ensure (bool_decide (source ∈ gate_allowed_sources gate))
               ("safety gate " ++ gate_node_id gate ++ " rejected command source " ++ source));
      enforce_command_sources gates
  end.

(** The [while] loop that forgets the executions a window has left behind. *)
Fixpoint drop_expired (now : Instant) (window_ms : Z) (executions : list Instant) : list Instant :=
  match executions with
  | [] => []
  | accepted_at :: rest =>
      if window_ms * 1000000 <=? sat_sub now accepted_at then drop_expired now window_ms rest else executions
  end.

Definition gate_limit (gate : PlannedCommandSafetyGate) : option (Z * Z) :=
  max_commands ← gate_max_commands gate; window_ms ← gate_window_ms gate; Some (max_commands, window_ms).

Definition executions_of (key : string * string) (windows : gmap (string * string) (list Instant))
    : list Instant := default [] (windows !! key).

(** The first loop over the gates; a window that is looked at is kept, also
    when a later gate refuses. *)
Fixpoint check_rate_windows (flow : string) (gates : list PlannedCommandSafetyGate) (now : Instant)
    : M (Runtime W) () :=
  match gates with
  | [] => mret ()
  | gate :: gates =>
      match gate_limit gate with
      | None => check_rate_windows flow gates now
      | Some (max_commands, window_ms) =>
          let key := (flow, gate_node_id gate) in
          windows ← gets rt_rate_windows;
          let executions := drop_expired now window_ms (executions_of key windows) in
          _ ← set_rate_windows (<[key := executions]> windows);
          if max_commands <=? Z.of_nat (length executions)
          then lift (Err (rate_error (gate_node_id gate) max_commands window_ms))
          else check_rate_windows flow gates now
      end
  end.

(** The second loop. *)
Fixpoint push_rate_windows (flow : string) (gates : list PlannedCommandSafetyGate) (now : Instant)
    : M (Runtime W) () :=
  match gates with
  | [] => mret ()
  | gate :: gates =>
      _ ← match gate_limit gate with
          | None => mret ()
          | Some _ =>
              let key := (flow, gate_node_id gate) in
              windows ← gets rt_rate_windows;
              set_rate_windows (<[key := (executions_of key windows ++ [now])%list]> windows)
          end;
      push_rate_windows flow gates now
  end.

Definition enforce_command_safety (plan : CommandExecutionPlan) : M (Runtime W) () :=
  _ ← lift (enforce_command_sources (plan_safety_gates plan));
  _ ← check_rate_windows (flow_id (plan_flow plan)) (plan_safety_gates plan) (checked_at ck);
  push_rate_windows (flow_id (plan_flow plan)) (plan_safety_gates plan) (checked_at ck).

Definition execute_command_plan (plan : CommandExecutionPlan) : M (Runtime W) CommandExecutionReport :=
  safety ← attempt (enforce_command_safety plan);
  match safety with
  | inr error => lift (command_safety_failure_report plan error)
  | inl _ => execute_command_plan_after_safety plan
  end.
End loop.

(** ** Command messages *)

Record MqttCommandMessage := {
  cmd_sink_id : string;
  cmd_topic : string;
  cmd_payload : bytes;
  cmd_flow_ids : list string;
}.

Context (parse_json : bytes -> option Json) (parse_rfc3339 : string -> option DateTime).

Definition plan_command (ck : Clocks) (id : string) (payload : bytes) : Result CommandExecutionPlan :=
  plan ← expect (plan_command_execution parse_json parse_rfc3339 (planned_at ck) package id payload)
    "the walk over the flow ends";
  plan.

Definition execute_command_flow_message (ck : Clocks) (id : string) (payload : bytes)
    : M (Runtime W) CommandExecutionReport :=
  plan ← lift (plan_command ck id payload);
  execute_command_plan ck plan.

(** The checks both handlers begin with. *)
Definition check_flow_sink (message : MqttCommandMessage) (id : string) : Result () :=
  flow ← ok_or (find_first (fun flow => bool_decide (flow_id flow = id)) (pkg_command_flows package))
    ("command flow not found: " ++ id);
  ensure (bool_decide (flow_mqtt_connection_id flow = cmd_sink_id message))
    ("command flow " ++ id ++ " belongs to MQTT connection " ++ flow_mqtt_connection_id flow
     ++ ", not " ++ cmd_sink_id message).

(** The runtime next to what it talks to. *)
Definition on_first {S T A} (m : M S A) : M (S * T) A := fun s =>
  let '(x, r) := m (fst s) in ((x, snd s), r).

Definition on_second {S T A} (m : M T A) : M (S * T) A := fun s =>
  let '(y, r) := m (snd s) in ((fst s, y), r).

(** *** Without a store *)

Section direct.
Context {P : Type} `{MqttPublisher P}.

Fixpoint publish_replies (id : string) (replies : list MqttPublishMessage) : M P () :=
  match replies with
  | [] => mret ()
  | reply :: replies =>
      _ ← in_context (publish reply) ("publish command reply for flow " ++ id);
      publish_replies id replies
  end.

(** The loop over the flows of the message; [n] is the position of the first. *)
Fixpoint execute_flows (clocks : nat -> Clocks) (message : MqttCommandMessage) (n : nat)
    (flow_ids : list string) : M (Runtime W * P) (list CommandExecutionReport) :=
  match flow_ids with
  | [] => mret []
  | id :: flow_ids =>
      _ ← lift (check_flow_sink message id);
      report ← on_first (execute_command_flow_message (clocks n) id (cmd_payload message));
      _ ← on_second (publish_replies id (rep_replies report));
      reports ← execute_flows clocks message (S n) flow_ids;
      mret (report :: reports)
  end.

Definition execute_mqtt_command_message (clocks : nat -> Clocks) (message : MqttCommandMessage)
    : M (Runtime W * P) (list CommandExecutionReport) :=
  execute_flows clocks message 0 (cmd_flow_ids message).
End direct.

(** *** With the local store *)

Section stored.
Context {D P : Type} `{RocksDb D} `{MqttPublisher P}
        `{JsonCodec CommandAuditRecord} `{JsonCodec PersistedCommandRateWindow}
        `{JsonCodec MqttOutboxEntry} `{JsonCodec MqttPublishAcknowledgement}
        (sha256_hex : bytes -> string).

Definition gate_rate_limit (gate : PlannedCommandSafetyGate) : option CommandRateLimit :=
  '(max_commands, window_ms) ← gate_limit gate;
  Some {| limit_gate_id := gate_node_id gate; limit_max_commands := max_commands;
          limit_window_ms := window_ms |}.

Definition enforce_persistent_command_safety (ck : Clocks) (plan : CommandExecutionPlan) : M D () :=
  _ ← lift (enforce_command_sources (plan_safety_gates plan));
  decision ← consume_command_rate_slots sha256_hex (pkg_edge_id package) (flow_id (plan_flow plan))
    (omap gate_rate_limit (plan_safety_gates plan)) (admitted_at ck);
  match decision with
  | Accepted => mret ()
  | Rejected limit =>
      lift (Err (rate_error (limit_gate_id limit) (limit_max_commands limit) (limit_window_ms limit)))
  end.

Fixpoint enqueue_replies (ck : Clocks) (n : nat) (replies : list MqttPublishMessage) : M D () :=
  match replies with
  | [] => mret ()
  | reply :: replies =>
      _ ← enqueue_mqtt_message (reply_at ck n) reply;
      enqueue_replies ck (S n) replies
  end.

(** The [match store.claim_command(..)]. *)
Definition answer_claim (ck : Clocks) (plan : CommandExecutionPlan) (payload : bytes) (claim : CommandClaim)
    : M (Runtime W * D) CommandExecutionReport :=
  match claim with
  | Started _ =>
      safety ← attempt (on_second (enforce_persistent_command_safety ck plan));
      report ← match safety with
               | inl _ => on_first (execute_command_plan_after_safety ck plan)
               | inr error => lift (command_safety_failure_report ck plan error)
               end;
      _ ← on_second (complete_command sha256_hex (pkg_edge_id package) payload report);
      mret report
  | Duplicate record =>
      lift (ok_or (execution_report record) "completed command audit has no execution report")
  | InProgress _ => lift (Err ("command " ++ plan_command_id plan ++ " is already processing"))
  | Conflict _ =>
      lift (Err ("command " ++ plan_command_id plan ++ " was reused with a different payload"))
  end.

(** The body of the loop over the flows. *)
Definition deliver_flow (ck : Clocks) (message : MqttCommandMessage) (id : string)
    : M (Runtime W * D) CommandExecutionReport :=
  _ ← lift (check_flow_sink message id);
  plan ← lift (plan_command ck id (cmd_payload message));
  claim ← on_second (claim_command sha256_hex (pkg_edge_id package) id (plan_command_id plan)
                       (cmd_payload message) (claimed_at ck));
  report ← answer_claim ck plan (cmd_payload message) claim;
  _ ← on_second (enqueue_replies ck 0 (rep_replies report));
  mret report.

Fixpoint deliver_flows (clocks : nat -> Clocks) (message : MqttCommandMessage) (n : nat)
    (flow_ids : list string) : M (Runtime W * D) (list CommandExecutionReport) :=
  match flow_ids with
  | [] => mret []
  | id :: flow_ids =>
      report ← deliver_flow (clocks n) message id;
      reports ← deliver_flows clocks message (S n) flow_ids;
      mret (report :: reports)
  end.

(** [flushed_at] are the readings of the clock while the outbox is flushed. *)
Definition execute_mqtt_command_message_with_store (clocks : nat -> Clocks) (flushed_at : Z -> DateTime)
    (message : MqttCommandMessage) : M (Runtime W * (D * P)) (list CommandExecutionReport) :=
  reports ← (fun s : Runtime W * (D * P) =>
    let '(rt, (d, p)) := s in
    let '((rt, d), r) := deliver_flows clocks message 0 (cmd_flow_ids message) (rt, d) in
    ((rt, (d, p)), r));
  _ ← on_second (flush_mqtt_outbox flushed_at);
  mret reports.
End stored.
End execution.

(** ** What a report says *)

Definition record_of (write : PlannedPointWrite) (result : ProtocolWriteResult) : CommandWriteRecord :=
  {| wr_node_id := pw_node_id write; wr_point_id := res_point_id result;
     wr_device_id := map_device_id (pw_mapping write); wr_value := res_value result;
     wr_verified := res_verified result; wr_verification := pw_verification write;
     wr_readback_value := res_readback_value result |}.

Definition verified (result : ProtocolWriteResult) : Prop := res_verified result = true.

Definition unverified (result : ProtocolWriteResult) : Prop := res_verified result = false.

(** The results up to the first that is not verified, that one included. *)
Fixpoint up_to_failure (results : list ProtocolWriteResult) : list ProtocolWriteResult :=
  match results with
  | [] => []
  | result :: results => if res_verified result then result :: up_to_failure results else [result]
  end.

Lemma up_to_failure_app results more :
  Forall verified results -> up_to_failure (results ++ more)%list = (results ++ up_to_failure more)%list.
Proof. induction 1 as [|result results Hv _ IH]; [done|]. cbn. by rewrite Hv, IH. Qed.

Lemma all_verified_or results : Forall verified results \/ Exists unverified results.
Proof.
  induction results as [|result results [IH|IH]]; [by left| |right; by right].
  destruct (res_verified result) eqn:E; [left; by constructor | right; by left].
Qed.

Section answers.
Context {W : Type} `{Adapters W} (package : EdgeConfigPackage).

(** The result of a write whose device answered [raw]: the answer itself, or what
    a read back of the point gives. *)
Definition checked (c : ProtocolConnection) (write : PlannedPointWrite) (raw result : ProtocolWriteResult) (w w' : W) : Prop :=
  match pw_verification write with
  | Response => result = raw /\ w' = w
  | Readback => exists samples sample,
      read_back c (pw_mapping write) w = (w', Ok samples) /\ sample ∈ samples /\
      sample_telemetry_id sample = map_point_id (pw_mapping write) /\
      sample_device_id sample = map_device_id (pw_mapping write) /\
      result = {| res_point_id := res_point_id raw; res_value := res_value raw;
                  res_verified := command_values_match (pw_value write) (sample_value sample) (pw_readback_tolerance write);
                  res_readback_value := Some (sample_value sample) |}
  end.

(** One exchange with a device: the results are what the adapter of the connection
    answers to the first of [writes], from the world [w] to the world [w'].  Only a
    simulated connection answers without an adapter. *)
Inductive device_answers : list PlannedPointWrite -> list ProtocolWriteResult -> W -> W -> Prop :=
| answers_simulated write writes c w :
    connection_of package (pw_mapping write) = Ok c -> conn_protocol c = Simulated ->
    device_answers (write :: writes)
      [{| res_point_id := map_point_id (pw_mapping write); res_value := pw_value write; res_verified := true;
          res_readback_value := if bool_decide (pw_verification write = Readback) then Some (pw_value write) else None |}] w w
| answers_write write writes c raw result w w1 w2 w3 :
    connection_of package (pw_mapping write) = Ok c -> conn_protocol c <> Simulated ->
    (if kept_adapter (conn_protocol c) then adapter_ready c [pw_mapping write] w = (w1, Ok ()) else w1 = w) ->
    write_point c (pw_mapping write) (pw_value write) w1 = (w2, Ok raw) -> checked c write raw result w2 w3 ->
    device_answers (write :: writes) [result] w w3
| answers_batch write writes rest c results w w' :
    connection_of package (pw_mapping write) = Ok c -> conn_protocol c = ModbusTcp \/ conn_protocol c = ModbusRtu ->
    Forall (fun other => pw_verification other = Response /\ map_protocol_connection_id (pw_mapping other) = conn_id c)
      (write :: writes) ->
    (length results <= S (length writes))%nat ->
    write_prefix c ((fun other => (pw_mapping other, pw_value other)) <$> write :: writes) w
      = (w', Ok (length results, results)) ->
    device_answers (write :: writes ++ rest) results w w'.

(** Exchanges in turn: each begins in the world the one before it left, with the
    writes that one did not answer, and none follows an unverified result. *)
Inductive answers_in_turn : list PlannedPointWrite -> list ProtocolWriteResult -> W -> W -> Prop :=
| turn_none writes w : answers_in_turn writes [] w w
| turn_last writes results w w' :
    device_answers writes results w w' -> Exists unverified results -> answers_in_turn writes results w w'
| turn_next writes results more w w1 w2 :
    device_answers writes results w w1 -> Forall verified results ->
    answers_in_turn (drop (length results) writes) more w1 w2 -> answers_in_turn writes (results ++ more) w w2.

(** A call on behalf of the first of [writes], whatever it answers. *)
Inductive device_call (writes : list PlannedPointWrite) : W -> W -> Prop :=
| call_ready write c w w' r :
    head writes = Some write -> connection_of package (pw_mapping write) = Ok c ->
    adapter_ready c [pw_mapping write] w = (w', r) -> device_call writes w w'
| call_write write c w w' r :
    head writes = Some write -> connection_of package (pw_mapping write) = Ok c ->
    write_point c (pw_mapping write) (pw_value write) w = (w', r) -> device_call writes w w'
| call_read_back write c w w' r :
    head writes = Some write -> connection_of package (pw_mapping write) = Ok c ->
    read_back c (pw_mapping write) w = (w', r) -> device_call writes w w'
| call_batch write c batch rest w w' r :
    head writes = Some write -> connection_of package (pw_mapping write) = Ok c -> writes = (batch ++ rest)%list ->
    write_prefix c ((fun other => (pw_mapping other, pw_value other)) <$> batch) w = (w', r) -> device_call writes w w'.

(** The report accounts for [results], the answers of the devices to the first of
    [writes] on the way from the world [w] to [w1]; the execution ends in [w']. *)
Record accounts (writes : list PlannedPointWrite) (before after : CommandExecutionReport)
    (results : list ProtocolWriteResult) (w w1 w' : W) : Prop := {
  acc_answers : answers_in_turn writes results w w1;
  acc_length : (length results <= length writes)%nat;
  acc_writes : rep_writes after = (rep_writes before ++ zip_with record_of writes (up_to_failure results))%list;
  acc_status :
    match rep_status after with
    | Succeeded => length results = length writes /\ Forall verified results /\ rep_error after = rep_error before /\ w' = w1
    | Failed =>
        is_Some (rep_error after) /\ rtc (device_call (drop (length results) writes)) w1 w' /\
        ((Exists unverified results /\ w' = w1) \/ (Forall verified results /\ (length results < length writes)%nat))
    end;
}.

(** ** World paths *)

(** The computation leaves the world as it is, or moves it along [R]. *)
Definition moves {A} (R : W -> W -> Prop) (m : M (Runtime W) A) : Prop :=
  forall rt, rtc R (rt_world rt) (rt_world (fst (m rt))).

Definition still {A} (m : M (Runtime W) A) : Prop := forall rt, rt_world (fst (m rt)) = rt_world rt.

Lemma still_moves {A} R (m : M (Runtime W) A) : still m -> moves R m.
Proof using. intros Hm rt. by rewrite Hm. Qed.

Lemma moves_bind {A B} R (m : M (Runtime W) A) (f : A -> M (Runtime W) B) :
  moves R m -> (forall a, moves R (f a)) -> moves R (m ≫= f).
Proof using.
  intros Hm Hf rt. rewrite M_bind_eq. specialize (Hm rt). destruct (m rt) as [rt1 [a|e|e]]; [|done..].
  etrans; [exact Hm | apply Hf].
Qed.

Lemma moves_lift_bind {A B} R (r : Result A) (f : A -> M (Runtime W) B) :
  (forall a, r = Ok a -> moves R (f a)) -> moves R (lift r ≫= f).
Proof using. intros Hf rt. rewrite lift_bind. destruct r as [a|e|e]; [by apply Hf | reflexivity..]. Qed.

Lemma still_bind {A B} (m : M (Runtime W) A) (f : A -> M (Runtime W) B) :
  still m -> (forall a, still (f a)) -> still (m ≫= f).
Proof using.
  intros Hm Hf rt. rewrite M_bind_eq. specialize (Hm rt). destruct (m rt) as [rt1 [a|e|e]]; [|done..]. by rewrite Hf.
Qed.

Lemma moves_attempt {A} R (m : M (Runtime W) A) : moves R m -> moves R (attempt m).
Proof using. intros Hm rt. specialize (Hm rt). unfold attempt. by destruct (m rt) as [rt1 [a|e|e]]. Qed.

Lemma still_lift {A} (r : Result A) : still (lift r).
Proof using. done. Qed.

Lemma still_metric id f : still (update_metric id f).
Proof using. intros rt. unfold update_metric. by destruct (rt_metrics rt !! id). Qed.

Ltac still_tac :=
  repeat match goal with
  | |- still (_ ≫= _) => apply still_bind; [|intros ?]
  | |- still (update_metric _ _) => apply still_metric
  | |- still (match ?x with _ => _ end) => destruct x
  | |- still _ => done
  end.

Lemma still_allow id now : still (allow_protocol_request id now).
Proof using. unfold allow_protocol_request, sync_circuit_metric. still_tac. Qed.

Lemma still_settle {A} ck id n (outcome : A + string) shadows : still (settle_write ck id n outcome shadows).
Proof using. unfold settle_write, record_protocol_success, record_protocol_failure, sync_circuit_metric. still_tac. Qed.

Lemma still_world {A} (m : M (Runtime W) A) rt rt' r : still m -> m rt = (rt', r) -> rt_world rt' = rt_world rt.
Proof using. intros Hm Heq. specialize (Hm rt). by rewrite Heq in Hm. Qed.

Lemma moves_on_world {A} (R : W -> W -> Prop) (m : M W A) :
  (forall w, rtc R w (fst (m w))) -> moves R (on_world m).
Proof using. intros Hm rt. unfold on_world. specialize (Hm (rt_world rt)). by destruct (m (rt_world rt)). Qed.

Lemma attempt_inl {S A} (m : M S A) s s' a : attempt m s = (s', Ok (inl a)) -> m s = (s', Ok a).
Proof using. unfold attempt. destruct (m s) as [s1 [x|e|e]]; intros [=]; by subst. Qed.

Lemma on_world_Ok {A} (m : M W A) rt rt' a :
  on_world m rt = (rt', Ok a) -> m (rt_world rt) = (rt_world rt', Ok a).
Proof using. unfold on_world. destruct (m (rt_world rt)) as [w r]. by intros [= <- ->]. Qed.

(** ** The exchanges of the loop *)

(** A batch consumes no more than it is given ([batchable_write_prefix]). *)
Definition lawful_prefixes : Prop :=
  forall c writes (w w' : W) n results,
    write_prefix c writes w = (w', Ok (n, results)) -> (n <= length writes)%nat.

Lemma verify_checked c write raw w w' result :
  verify_command_write (read_back c (pw_mapping write)) write raw w = (w', Ok result) -> checked c write raw result w w'.
Proof using.
  unfold verify_command_write, checked. case_bool_decide as Hv; [rewrite Hv; by intros [= <- <-]|].
  destruct (pw_verification write); [done|].
  intros (w1 & samples & Hb & Hw)%M_bind_Ok. rewrite lift_bind in Hw.
  destruct (find_first _ samples) as [sample|] eqn:Es; [|done]. injection Hw as <- <-.
  apply find_first_Some in Es as [Hin [Hp%bool_decide_eq_true Hd%bool_decide_eq_true]%andb_prop].
  exists samples, sample. split; [|done]. unfold in_context in Hb.
  destruct (read_back c (pw_mapping write) w) as [w2 [l|e|e]]; [by injection Hb as <- <- | discriminate Hb..].
Qed.

Lemma perform_write_answers c write writes rt rt' result :
  connection_of package (pw_mapping write) = Ok c ->
  perform_write c write rt = (rt', Ok (inl result)) ->
  device_answers (write :: writes) [result] (rt_world rt) (rt_world rt').
Proof using.
  intros Hc. assert (Hrest : conn_protocol c <> Simulated ->
      (_ ← (if kept_adapter (conn_protocol c) then on_world (adapter_ready c [pw_mapping write])
                        else mret ());
      attempt (on_world (
        result ← write_point c (pw_mapping write) (pw_value write);
        verify_command_write (read_back c (pw_mapping write)) write result))) rt = (rt', Ok (inl result)) ->
    device_answers (write :: writes) [result] (rt_world rt) (rt_world rt')).
  { intros Hsim (rt1 & [] & Hready & Hw)%M_bind_Ok. apply attempt_inl, on_world_Ok in Hw.
    apply M_bind_Ok in Hw as (w2 & raw & Hwrite & Hcheck%verify_checked).
    eapply answers_write; [done | done | | exact Hwrite | exact Hcheck].
    destruct (kept_adapter _); [by apply on_world_Ok | by injection Hready as <-]. }
  unfold perform_write. destruct (conn_protocol c) eqn:Ep; try (by apply Hrest); try done.
  intros [= <- <-]. by eapply answers_simulated.
Qed.

Lemma perform_write_moves c write writes :
  connection_of package (pw_mapping write) = Ok c -> moves (device_call (write :: writes)) (perform_write c write).
Proof using.
  intros Hc. assert (Hrest : moves (device_call (write :: writes)) (
      _ ← (if kept_adapter (conn_protocol c) then on_world (adapter_ready c [pw_mapping write]) else mret ());
      attempt (on_world (
        result ← write_point c (pw_mapping write) (pw_value write);
        verify_command_write (read_back c (pw_mapping write)) write result)))).
  { apply moves_bind.
    { destruct (kept_adapter _); [|by apply still_moves]. apply moves_on_world. intros w. apply rtc_once.
      eapply call_ready; [done | exact Hc | apply surjective_pairing]. }
    intros _. apply moves_attempt, moves_on_world. intros w. rewrite M_bind_eq.
    destruct (write_point _ _ _ w) as [w1 r] eqn:Ew.
    assert (Hfirst : rtc (device_call (write :: writes)) w w1) by (apply rtc_once; by eapply call_write).
    destruct r as [raw|e|e]; [|done..]. etrans; [exact Hfirst|]. unfold verify_command_write.
    destruct (bool_decide _); [reflexivity|]. rewrite M_bind_eq. unfold in_context.
    destruct (read_back c (pw_mapping write) w1) as [w2 r] eqn:Er.
    assert (Hback : rtc (device_call (write :: writes)) w1 w2) by (apply rtc_once; by eapply call_read_back).
    destruct r as [samples|e|e]; cbn [with_context]; [|done..]. rewrite lift_bind. by destruct (ok_or _ _). }
  unfold perform_write. destruct (conn_protocol c); try exact Hrest; by apply still_moves.
Qed.

Lemma settle_write_Ok {A} ck id n outcome shadows rt rt' (a : A) :
  settle_write (W := W) ck id n outcome shadows rt = (rt', Ok a) -> outcome = inl a.
Proof using.
  unfold settle_write. intros (rt1 & [] & _ & Hw)%M_bind_Ok. destruct outcome as [b|error].
  - do 3 (apply M_bind_Ok in Hw as (? & [] & _ & Hw)). by injection Hw as _ <-.
  - by do 2 (apply M_bind_Ok in Hw as (? & [] & _ & Hw)).
Qed.

Lemma connection_of_id mapping c :
  connection_of package mapping = Ok c -> conn_id c = map_protocol_connection_id mapping.
Proof using.
  unfold connection_of, find_connection. destruct (find_first _ _) as [c'|] eqn:E; [|done]. intros [= <-].
  apply find_first_Some in E as [_ Hid]. by apply bool_decide_eq_true in Hid.
Qed.

Lemma batch_writes_prefix id writes :
  exists rest, writes = (batch_writes id writes ++ rest)%list /\
    Forall (fun w => pw_verification w = Response /\ map_protocol_connection_id (pw_mapping w) = id) (batch_writes id writes).
Proof using.
  induction writes as [|w writes (rest & Heq & Hall)]; [by exists []|]. cbn [batch_writes].
  case_bool_decide as Hr; [|by exists (w :: writes)].
  case_bool_decide; cbn [andb]; [|by exists (w :: writes)].
  exists rest. split; [by rewrite <- app_comm_cons, <- Heq | by constructor].
Qed.
End answers.

Section report_facts.
Context {W : Type} `{Adapters W} (package : EdgeConfigPackage) (debug_str : string -> string) (ck : Clocks).

(** The answers to the next call of the loop. *)
Definition next_write (n : nat) (writes : list PlannedPointWrite) (write : PlannedPointWrite)
    : M (Runtime W) (nat * list ProtocolWriteResult) :=
  if is_modbus_response_write package write then write_modbus_command_prefix package ck n writes
  else result ← write_command_point package ck n write; mret (1%nat, [result]).

Lemma point_answers n write writes rt rt' result :
  write_command_point package ck n write rt = (rt', Ok result) ->
  device_answers package (write :: writes) [result] (rt_world rt) (rt_world rt').
Proof using.
  unfold write_command_point. rewrite lift_bind. destruct (connection_of _ _) as [c|e|e] eqn:Ec; [|done..].
  intros (rt1 & [] & Hm & Hw)%M_bind_Ok. apply M_bind_Ok in Hw as (rt2 & [] & Ha & Hw).
  apply M_bind_Ok in Hw as (rt3 & outcome & Hp & Hs).
  rewrite (still_world _ _ _ _ (still_settle _ _ _ _ _) Hs). apply settle_write_Ok in Hs as ->.
  rewrite <- (still_world _ _ _ _ (still_metric _ _) Hm), <- (still_world _ _ _ _ (still_allow _ _) Ha).
  by eapply perform_write_answers.
Qed.

Lemma prefix_answers n write writes rt rt' consumed results :
  lawful_prefixes (W := W) -> is_modbus_response_write package write = true -> length results = consumed ->
  write_modbus_command_prefix package ck n (write :: writes) rt = (rt', Ok (consumed, results)) ->
  device_answers package (write :: writes) results (rt_world rt) (rt_world rt').
Proof using.
  intros Hlaw Hmod Hlen. unfold write_modbus_command_prefix. rewrite lift_bind. cbn [head ok_or]. rewrite lift_bind.
  destruct (connection_of _ _) as [c|e|e] eqn:Ec; [|done..].
  intros (rt1 & [] & Hm & Hw)%M_bind_Ok. apply M_bind_Ok in Hw as (rt2 & [] & Ha & Hw).
  apply M_bind_Ok in Hw as (rt3 & outcome & Hp & Hs).
  rewrite (still_world _ _ _ _ (still_settle _ _ _ _ _) Hs). apply settle_write_Ok in Hs as ->.
  rewrite <- (still_world _ _ _ _ (still_metric _ _) Hm), <- (still_world _ _ _ _ (still_allow _ _) Ha).
  assert (Hresp : pw_verification write = Response).
  { unfold is_modbus_response_write in Hmod. case_bool_decide; [done | discriminate Hmod]. }
  pose proof (connection_of_id _ _ _ Ec) as Hid.
  destruct (batch_writes_prefix (conn_id c) (write :: writes)) as (rest & Heq & Hall).
  cbn [batch_writes] in *. rewrite !bool_decide_true in * by done. cbn [andb] in *. injection Heq as Heq.
  assert (Hcall : (conn_protocol c = ModbusTcp \/ conn_protocol c = ModbusRtu) /\
    write_prefix c ((fun other => (pw_mapping other, pw_value other)) <$> write :: batch_writes (conn_id c) writes) (rt_world rt2)
      = (rt_world rt3, Ok (consumed, results))).
  { destruct (conn_protocol c); try done; apply attempt_inl, on_world_Ok in Hp; by split; [auto|]. }
  destruct Hcall as [Hproto Hcall]. pose proof (Hlaw _ _ _ _ _ _ Hcall) as Hle. rewrite length_fmap in Hle. cbn in Hle.
  rewrite Heq at 1. eapply answers_batch; [done | done | done | lia | by rewrite Hlen].
Qed.

Lemma next_write_answers n write writes rt rt' consumed results :
  lawful_prefixes (W := W) -> length results = consumed ->
  next_write n (write :: writes) write rt = (rt', Ok (consumed, results)) ->
  device_answers package (write :: writes) results (rt_world rt) (rt_world rt').
Proof using.
  intros Hlaw Hlen. unfold next_write. destruct (is_modbus_response_write package write) eqn:Em.
  - by apply prefix_answers.
  - intros (rt1 & result & Hw & [= <- <- <-])%M_bind_Ok. by eapply point_answers.
Qed.

Lemma device_answers_length writes results (w w' : W) :
  device_answers package writes results w w' -> (length results <= length writes)%nat.
Proof using. destruct 1; cbn in *; rewrite ?length_app; lia. Qed.

(** Whatever it answers, the next call of the loop calls the device of the next write
    and no other. *)
Lemma next_write_moves n write writes :
  moves (device_call package (write :: writes)) (next_write n (write :: writes) write).
Proof using.
  unfold next_write. destruct (is_modbus_response_write package write).
  - unfold write_modbus_command_prefix. apply moves_lift_bind. intros first [= <-]. apply moves_lift_bind. intros c Hc.
    apply moves_bind; [apply still_moves, still_metric|]. intros _.
    apply moves_bind; [apply still_moves, still_allow|]. intros _.
    apply moves_bind; [|intros; apply still_moves, still_settle].
    destruct (batch_writes_prefix (conn_id c) (write :: writes)) as (rest & Heq & _).
    destruct (conn_protocol c); try (by apply still_moves); apply moves_attempt, moves_on_world; intros w; apply rtc_once;
      (eapply call_batch; [done | exact Hc | exact Heq | apply surjective_pairing]).
  - apply moves_bind; [|intros; by apply still_moves]. unfold write_command_point.
    apply moves_lift_bind. intros c Hc.
    apply moves_bind; [apply still_moves, still_metric|]. intros _.
    apply moves_bind; [apply still_moves, still_allow|]. intros _.
    apply moves_bind; [by apply perform_write_moves | intros; apply still_moves, still_settle].
Qed.

Lemma record_results_spec writes results report report' failed :
  (length results <= length writes)%nat ->
  record_results debug_str ck report writes results = Ok (report', failed) ->
  rep_writes report' = (rep_writes report ++ zip_with record_of writes (up_to_failure results))%list /\
  if failed
  then rep_status report' = Failed /\ is_Some (rep_error report') /\ Exists unverified results
  else Forall verified results /\ rep_status report' = rep_status report /\ rep_error report' = rep_error report.
Proof using.
  revert writes report. induction results as [|result results IH]; intros writes report Hlen Hrec.
  { injection Hrec as <- <-. cbn. rewrite zip_with_nil_r, app_nil_r. split_and!; done. }
  destruct writes as [|write writes]; [cbn in Hlen; lia|]. cbn [record_results up_to_failure] in *.
  destruct (res_verified result) eqn:Ev.
  - apply IH in Hrec as [Hw Hres]; [|cbn in Hlen; lia]. split.
    { rewrite Hw. cbn [record_write rep_writes]. by rewrite <- app_assoc. }
    destruct failed; [|destruct Hres as (Hv & Hst & He); split_and!; [by constructor | done..]].
    destruct Hres as (? & ? & Hx). split_and!; [done..|]. by right.
  - injection Hrec as <- <-. split; [by cbn; rewrite zip_with_nil_r|]. split_and!; [done | by eexists | by left].
Qed.

Lemma accounts_fail writes report error (w w' : W) :
  writes <> [] -> rtc (device_call package writes) w w' ->
  accounts package writes report (fail report error (failed_at ck)) [] w w w'.
Proof using.
  intros Hne Hcalls. split; [apply turn_none | cbn; lia | by cbn; rewrite zip_with_nil_r, app_nil_r|]. cbn [fail rep_status rep_error].
  split_and!; [by eexists | done|]. right. split; [constructor|]. destruct writes; [done | cbn; lia].
Qed.

Lemma zip_with_split {A B D} (f : A -> B -> D) l k more :
  (length k <= length l)%nat -> zip_with f l (k ++ more)%list = (zip_with f l k ++ zip_with f (drop (length k) l) more)%list.
Proof using.
  revert k. induction l as [|x l IH]; intros [|y k] Hl; cbn in *; [done | lia | done|]. by rewrite IH by lia.
Qed.

(** The results of a turn, then those of the rest of the loop. *)
Lemma accounts_step writes results more report report1 report' (w w0 w1 w' : W) :
  device_answers package writes results w w0 -> Forall verified results ->
  rep_writes report1 = (rep_writes report ++ zip_with record_of writes results)%list ->
  rep_error report1 = rep_error report ->
  accounts package (drop (length results) writes) report1 report' more w0 w1 w' ->
  accounts package writes report report' (results ++ more)%list w w1 w'.
Proof using.
  intros Hans Hv Hw He [Hturn Hl Hw' Hst]. pose proof (device_answers_length _ _ _ _ Hans) as Hlen.
  rewrite length_drop in Hl. split.
  - by eapply turn_next.
  - rewrite length_app. lia.
  - rewrite up_to_failure_app by done. rewrite Hw', Hw, <- app_assoc. f_equal. symmetry. by apply zip_with_split.
  - rewrite length_app, <- drop_drop. rewrite length_drop in Hst. destruct (rep_status report').
    + destruct Hst as (Hl' & Hv' & He' & Hw0). split_and!; [lia | by apply Forall_app | congruence | done].
    + destruct Hst as (Hsome & Hcalls & [[Hx Hsame]|[Hv' Hshort]]); split_and!; try done.
      * left. split; [|done]. apply Exists_app. by right.
      * right. split; [by apply Forall_app | lia].
Qed.

Lemma write_loop_accounts fuel cursor writes report rt rt' report' :
  lawful_prefixes (W := W) -> rep_status report = Succeeded ->
  write_loop package debug_str ck fuel cursor writes report rt = (rt', Ok report') ->
  exists results w1, accounts package writes report report' results (rt_world rt) w1 (rt_world rt').
Proof using.
  intros Hlaw. revert cursor writes report rt. induction fuel as [|fuel IH]; intros cursor writes report rt Hst Hloop.
  all: destruct writes as [|write writes]; cbn [write_loop] in Hloop;
    [injection Hloop as <- <-; exists [], (rt_world rt); split;
       [apply turn_none | done | by rewrite app_nil_r | by rewrite Hst; split_and!; [|constructor| |]] | try done].
  fold (next_write cursor (write :: writes) write) in Hloop.
  apply M_bind_Ok in Hloop as (rt1 & outcome & Hnext & Hloop).
  assert (Hcalls : rtc (device_call package (write :: writes)) (rt_world rt) (rt_world rt1)).
  { pose proof (moves_attempt _ _ (next_write_moves cursor write writes) rt) as Hm. by rewrite Hnext in Hm. }
  assert (Hfail : forall error, (rt1, Ok (fail report error (failed_at ck))) = (rt', Ok report') ->
    exists results w1, accounts package (write :: writes) report report' results (rt_world rt) w1 (rt_world rt')).
  { intros error [= <- <-]. exists [], (rt_world rt). by apply accounts_fail. }
  destruct outcome as [[consumed results]|error]; [|exact (Hfail _ Hloop)].
  apply attempt_inl in Hnext. case_bool_decide; [exact (Hfail _ Hloop)|].
  case_bool_decide as Hlen; cbn [negb orb] in Hloop; [|exact (Hfail _ Hloop)].
  apply next_write_answers in Hnext as Hans; [|done..]. pose proof (device_answers_length _ _ _ _ Hans) as Hle.
  rewrite lift_bind in Hloop. destruct (record_results _ _ _ _ _) as [[report1 failed]|e|e] eqn:Er; [|done..].
  apply record_results_spec in Er as [Hw Hres]; [|done]. destruct failed.
  - injection Hloop as <- <-. destruct Hres as (Hs & He & Hx). exists results, (rt_world rt1).
    split; [by apply turn_last | done | done|]. rewrite Hs. split_and!; [done | reflexivity|]. by left.
  - destruct Hres as (Hv & Hs & He). rewrite Hst in Hs. rewrite <- Hlen in Hloop.
    apply IH in Hloop as (more & w1 & Hacc); [|done]. exists (results ++ more)%list, w1.
    eapply accounts_step; [done | done | | done | done].
    rewrite Hw. f_equal. f_equal. rewrite <- (app_nil_r results) at 1. rewrite up_to_failure_app by done. by rewrite app_nil_r.
Qed.
End report_facts.

Section report_ids.
Context {W : Type} `{Adapters W} (package : EdgeConfigPackage) (debug_str : string -> string) (ck : Clocks).

Definition same_command (a b : CommandExecutionReport) : Prop :=
  rep_flow_id a = rep_flow_id b /\ rep_command_id a = rep_command_id b.

Lemma record_results_ids writes results report report' failed :
  record_results debug_str ck report writes results = Ok (report', failed) -> same_command report' report.
Proof using.
  revert writes report. induction results as [|result results IH]; intros writes report Hrec; [by injection Hrec as <-|].
  destruct writes as [|write writes]; [done|]. cbn [record_results] in Hrec.
  destruct (res_verified result); [by apply IH in Hrec | by injection Hrec as <-].
Qed.

Lemma write_loop_ids fuel cursor writes report (rt : Runtime W) rt' report' :
  write_loop package debug_str ck fuel cursor writes report rt = (rt', Ok report') -> same_command report' report.
Proof using.
  revert cursor writes report rt. induction fuel as [|fuel IH]; intros cursor writes report rt Hloop.
  all: destruct writes as [|write writes]; cbn [write_loop] in Hloop; [by injection Hloop as _ <- | try done].
  apply M_bind_Ok in Hloop as (rt1 & outcome & _ & Hloop).
  destruct outcome as [[consumed results]|error]; [|by injection Hloop as _ <-].
  destruct (_ || _); [by injection Hloop as _ <-|].
  rewrite lift_bind in Hloop. destruct (record_results _ _ _ _ _) as [[report1 failed]|e|e] eqn:Er; [|done..].
  apply record_results_ids in Er as [E1 E2]. unfold same_command. rewrite <- E1, <- E2.
  destruct failed; [by injection Hloop as _ <- | by apply IH in Hloop].
Qed.
End report_ids.

(** ** Execution ends *)

Section execution_safe.
Context {W : Type} `{Adapters W} (package : EdgeConfigPackage) (debug_str : string -> string)
        (encode_reply : string -> string -> option string -> CommandExecutionStatus ->
                        list CommandWriteRecord -> option string -> DateTime -> Result bytes)
        (ck : Clocks).

(** What the adapters promise: they return, and a batch consumes no more than it
    is given. *)
Record lawful_adapters : Prop := {
  law_ready : forall c mappings, panic_free (adapter_ready (W := W) c mappings);
  law_write : forall c mapping value, panic_free (write_point (W := W) c mapping value);
  law_read_back : forall c mapping, panic_free (read_back (W := W) c mapping);
  law_prefix : forall c writes, panic_free (write_prefix (W := W) c writes);
  law_consumed : lawful_prefixes (W := W);
}.

Hypothesis lawful : lawful_adapters.

Abbreviation ok := (runtime_ok (W := W) package).

Lemma connection_of_known mapping c : connection_of package mapping = Ok c -> connection package (conn_id c).
Proof using.
  unfold connection_of, find_connection. destruct (find_first _ _) as [c'|] eqn:E; [|done].
  intros [= <-]. apply find_first_Some in E as [Hin _]. by exists c'.
Qed.

Lemma settle_write_safe {A} id n (outcome : A + string) shadows :
  connection package id -> safe ok (settle_write ck id n outcome shadows).
Proof using.
  intros Hid. unfold settle_write. apply safe_bind; [by apply safe_update_metric|]. intros _.
  destruct outcome as [a|error].
  - apply safe_bind; [by apply safe_success|]. intros _. apply safe_bind; [by apply safe_update_metric|]. intros _.
    apply safe_bind; [apply safe_set_shadows | intros; apply safe_ret].
  - apply safe_bind; [by apply safe_failure|]. intros _. apply safe_bind; [by apply safe_update_metric|]. intros _.
    by apply safe_lift.
Qed.

Lemma verify_returns c mapping write result :
  panic_free (verify_command_write (W := W) (read_back c mapping) write result).
Proof using lawful.
  unfold verify_command_write. destruct (bool_decide _); [apply panic_free_ret|].
  apply panic_free_bind; [|intros samples; apply panic_free_bind; [apply panic_free_lift, no_panic_ok_or | intros; apply panic_free_ret]].
  intros w. unfold in_context. pose proof (law_read_back lawful c mapping w) as Hr.
  destruct (read_back c mapping w) as [w' r]. by apply no_panic_with_context.
Qed.

Lemma perform_write_safe c write : safe ok (perform_write c write).
Proof using lawful.
  assert (Hrest : safe ok (
      _ ← (if kept_adapter (conn_protocol c) then on_world (adapter_ready c [pw_mapping write]) else mret ());
      attempt (on_world (
        result ← write_point c (pw_mapping write) (pw_value write);
        verify_command_write (read_back c (pw_mapping write)) write result)))).
  { apply safe_bind; [destruct (kept_adapter _); [apply safe_on_world, law_ready; apply lawful | apply safe_ret]|].
    intros _. apply safe_attempt, safe_on_world, panic_free_bind; [apply law_write, lawful|].
    intros result. apply verify_returns. }
  unfold perform_write. destruct (conn_protocol c); try exact Hrest; apply safe_ret.
Qed.

Lemma connection_of_no_panic mapping : no_panic (connection_of package mapping).
Proof using. apply no_panic_ok_or. Qed.

Lemma next_write_safe n write writes : safe ok (next_write package ck n writes write).
Proof using lawful.
  unfold next_write. destruct (is_modbus_response_write package write).
  - unfold write_modbus_command_prefix. apply safe_bind; [apply safe_lift, no_panic_ok_or|]. intros first.
    apply safe_lift_bind; [apply connection_of_no_panic|]. intros c Hc%connection_of_known.
    apply safe_bind; [by apply safe_update_metric|]. intros _.
    apply safe_bind; [by apply safe_allow|]. intros _.
    apply safe_bind; [|intros; by apply settle_write_safe].
    destruct (conn_protocol c); try apply safe_ret; apply safe_attempt, safe_on_world, law_prefix, lawful.
  - apply safe_bind; [|intros; apply safe_ret]. unfold write_command_point.
    apply safe_lift_bind; [apply connection_of_no_panic|]. intros c Hc%connection_of_known.
    apply safe_bind; [by apply safe_update_metric|]. intros _.
    apply safe_bind; [by apply safe_allow|]. intros _.
    apply safe_bind; [apply perform_write_safe | intros; by apply settle_write_safe].
Qed.

Lemma record_results_no_panic writes results report :
  (length results <= length writes)%nat -> no_panic (record_results debug_str ck report writes results).
Proof using.
  revert writes report. induction results as [|result results IH]; intros writes report Hlen; [done|].
  destruct writes as [|write writes]; [simpl in Hlen; lia|]. cbn [record_results].
  destruct (res_verified result); [|done]. apply IH. simpl in Hlen. lia.
Qed.

Lemma write_loop_safe fuel cursor writes report :
  (length writes <= fuel)%nat -> safe ok (write_loop package debug_str ck fuel cursor writes report).
Proof using lawful.
  revert cursor writes report. induction fuel as [|fuel IH]; intros cursor writes report Hfuel.
  all: destruct writes as [|write writes]; cbn [write_loop]; [apply safe_ret|].
  { simpl in Hfuel. lia. }
  fold (next_write package ck cursor (write :: writes) write). intros rt Hok.
  destruct (safe_attempt ok _ (next_write_safe cursor write (write :: writes)) rt Hok) as [Hok1 Hnp1].
  rewrite M_bind_eq. destruct (attempt _ rt) as [rt1 [outcome|e|e]] eqn:En; [|by split..].
  destruct outcome as [[consumed results]|error]; [|by split].
  case_bool_decide as Hzero; [by split|]. case_bool_decide as Hlen; [|by split]. cbn [negb orb].
  apply attempt_inl, (next_write_answers package ck) in En; [|apply lawful|done]. apply device_answers_length in En.
  refine (safe_lift_bind ok _ _ _ _ rt1 Hok1); [apply record_results_no_panic; lia|].
  intros [report1 failed] _. destruct failed; [apply safe_ret|]. apply IH. rewrite length_drop. simpl in *. lia.
Qed.

Hypothesis encoder_returns : forall flow id source status writes error now,
  no_panic (encode_reply flow id source status writes error now).

Lemma replies_no_panic plan report :
  no_panic (build_command_reply_messages encode_reply package plan report).
Proof using encoder_returns.
  unfold build_command_reply_messages. apply no_panic_bind; [apply no_panic_ok_or|]. intros uplink _.
  apply no_panic_bind; [apply encoder_returns | done].
Qed.

(** [C5] The report of a command is what happened.  The execution of a plan always
    ends, without a panic and with the runtime in order.  Its report lists what the
    devices answered: the adapters of the connections, called one after the other
    from the world the execution began in, answered the first writes of the plan
    ([answers_in_turn]: a simulated connection answers by itself, a write that asks
    for a read back is judged by what its device then returns for the point), and
    the report has those answers in order, up to the first that is not verified.  It
    says [Succeeded] only when every write of the plan was answered and verified, and
    then the devices were not called again; it says [Failed] with an error, when an
    answer was not verified or the next write could not be made, and then no device
    was called for any write after that. *)
Theorem command_report_accounts_for_writes plan (rt : Runtime W) :
  runtime_ok package rt ->
  let '(rt', outcome) := execute_command_plan_after_safety package debug_str encode_reply ck plan rt in
  runtime_ok package rt' /\ no_panic outcome /\
  forall report, outcome = Ok report ->
    exists results w1,
      accounts package (plan_writes plan) (started_report ck plan) report results (rt_world rt) w1 (rt_world rt') /\
      rep_flow_id report = flow_id (plan_flow plan) /\ rep_command_id report = plan_command_id plan.
Proof using lawful encoder_returns.
  intros Hok. unfold execute_command_plan_after_safety.
  destruct (write_loop_safe (length (plan_writes plan)) 0 (plan_writes plan) (started_report ck plan)
    (le_n _) rt Hok) as [Hok' Hnp].
  rewrite M_bind_eq. destruct (write_loop _ _ _ _ _ _ _ rt) as [rt' [report|e|e]] eqn:El; [|by split_and!..].
  rewrite lift_bind. pose proof (replies_no_panic plan (with_completed_at (finished_at ck) report)) as Hr.
  destruct (build_command_reply_messages _ _ _ _) as [replies|e|e]; [|by split_and!..].
  split_and!; [done..|]. intros ? [= <-]. apply write_loop_ids in El as Hids.
  apply write_loop_accounts in El as (results & w1 & [Hans Hl Hw Hst]); [|apply lawful | done].
  exists results, w1. split; [|done]. by split.
Qed.
End execution_safe.

(** ** At most one execution *)

Section once.
Context {W D : Type} `{Adapters W} `{RocksDbLaws D}
        `{JsonCodec CommandAuditRecord} `{JsonCodec PersistedCommandRateWindow} `{JsonCodec EdgeConfigPackage}
        `{JsonCodec MqttOutboxEntry} `{JsonCodec MqttPublishAcknowledgement}
        (package : EdgeConfigPackage) (debug_str : string -> string)
        (encode_reply : string -> string -> option string -> CommandExecutionStatus ->
                        list CommandWriteRecord -> option string -> DateTime -> Result bytes)
        (parse_json : bytes -> option Json) (parse_rfc3339 : string -> option DateTime)
        (sha256_hex : bytes -> string).

Abbreviation planned := (plan_command package parse_json parse_rfc3339).
Abbreviation deliver :=
  (deliver_flow (W := W) (D := D) package debug_str encode_reply parse_json parse_rfc3339 sha256_hex).
Abbreviation answer := (answer_claim (W := W) (D := D) package debug_str encode_reply sha256_hex).

Definition audit_key (id command_id : string) : string :=
  command_audit_key sha256_hex (pkg_edge_id package) id command_id.

(** A computation on the runtime and the store that keeps the entry. *)
Definition keeps_entry {A} (key : string) (m : M (Runtime W * D) A) : Prop :=
  forall s, is_Some (db_contents (snd s) !! key) -> is_Some (db_contents (snd (fst (m s))) !! key).

Lemma keeps_entry_bind {A B} key (m : M (Runtime W * D) A) (f : A -> M (Runtime W * D) B) :
  keeps_entry key m -> (forall a, keeps_entry key (f a)) -> keeps_entry key (m ≫= f).
Proof using.
  intros Hm Hf s Hs. specialize (Hm s Hs). rewrite M_bind_eq.
  destruct (m s) as [s' [a|e|e]]; [by apply Hf | done..].
Qed.

Lemma keeps_entry_second {A} key (m : M D A) : keeps key m -> keeps_entry key (on_second m).
Proof using.
  intros Hm [rt d] Hs. unfold on_second. simpl in *. specialize (Hm d Hs). by destruct (m d).
Qed.

Lemma keeps_entry_first {A} key (m : M (Runtime W) A) : keeps_entry key (on_first m).
Proof using. intros [rt d] Hs. unfold on_first. simpl in *. by destruct (m rt). Qed.

Lemma keeps_entry_lift {A} key (r : Result A) : keeps_entry key (lift r).
Proof using. by intros s Hs. Qed.

Lemma keeps_entry_attempt {A} key (m : M (Runtime W * D) A) : keeps_entry key m -> keeps_entry key (attempt m).
Proof using.
  intros Hm s Hs. specialize (Hm s Hs). unfold attempt. by destruct (m s) as [s' [a|e|e]].
Qed.

Lemma keeps_enforce key ck plan :
  keeps key (enforce_persistent_command_safety (D := D) package sha256_hex ck plan).
Proof using.
  unfold enforce_persistent_command_safety. apply keeps_bind; [apply keeps_frame, frame_lift|]. intros _.
  apply keeps_bind; [apply keeps_consume|]. intros [|limit]; apply keeps_frame; [apply frame_ret | apply frame_lift].
Qed.

Lemma keeps_enqueue_replies key ck n replies :
  has_prefix COMMAND_AUDIT_PREFIX key = true -> keeps key (enqueue_replies (D := D) ck n replies).
Proof using.
  intros Hkey. assert (Hk : command_key key) by by left.
  revert n. induction replies as [|reply replies IH]; intros n; cbn [enqueue_replies];
    [apply keeps_frame, frame_ret|].
  apply keeps_bind; [by apply keeps_frame, frame_enqueue | intros; apply IH].
Qed.

Lemma answer_keeps key ck plan payload claim : keeps_entry key (answer ck plan payload claim).
Proof using.
  unfold answer_claim. destruct claim; try apply keeps_entry_lift.
  apply keeps_entry_bind; [apply keeps_entry_attempt, keeps_entry_second, keeps_enforce|].
  intros safety. apply keeps_entry_bind; [destruct safety; [apply keeps_entry_first | apply keeps_entry_lift]|].
  intros report. apply keeps_entry_bind; [apply keeps_entry_second, keeps_complete|].
  intros _ s Hs. exact Hs.
Qed.

(** Only a claim that starts the command lets the runtime act. *)
Lemma answer_inert ck plan payload claim s :
  (forall record, claim <> Started record) -> fst (fst (answer ck plan payload claim s)) = fst s.
Proof using. intros Hne. destruct claim as [record|record|record|record]; [by destruct (Hne record)|done..]. Qed.

Lemma after_answer_inert ck (report : CommandExecutionReport) (s : Runtime W * D) :
  fst (fst ((_ ← on_second (enqueue_replies ck 0 (rep_replies report)); mret report) s)) = fst s.
Proof using.
  rewrite M_bind_eq. unfold on_second. destruct (enqueue_replies ck 0 (rep_replies report) (snd s)) as [d [[]|e|e]]; done.
Qed.

(** A delivery of a planned command either leaves the runtime alone, or found no
    entry for the command and leaves one. *)
Lemma deliver_once ck message id plan rt d :
  planned ck id (cmd_payload message) = Ok plan ->
  let s' := fst (deliver ck message id (rt, d)) in
  let key := audit_key id (plan_command_id plan) in
  fst s' = rt \/ (db_contents d !! key = None /\ is_Some (db_contents (snd s') !! key)).
Proof using.
  intros Hplan. cbv zeta. unfold deliver_flow. rewrite lift_bind.
  destruct (check_flow_sink _ _ _) as [[]|e|e]; [|by left..]. rewrite lift_bind, Hplan.
  rewrite M_bind_eq. set (m := claim_command _ _ _ _ _ _). destruct (m d) as [d1 r] eqn:Ec.
  assert (Hm : on_second m (rt, d) = ((rt, d1), r)) by (unfold on_second; cbn [fst snd]; by rewrite Ec).
  rewrite Hm. destruct r as [claim|e|e]; [|by left..].
  destruct claim as [record|record|record|record].
  2-4: left; rewrite M_bind_eq; unfold answer_claim;
    try (destruct (execution_report record)); cbn [lift ok_or]; try done; apply after_answer_inert.
  right. apply claim_started in Ec as [Hnone Hsome]. split; [done|].
  set (rest := fun report : CommandExecutionReport =>
    (_ ← on_second (enqueue_replies ck 0 (rep_replies report)); mret report) : M (Runtime W * D) _).
  assert (Hkeep : keeps_entry (audit_key id (plan_command_id plan))
    (answer ck plan (cmd_payload message) (Started record) ≫= rest)).
  { apply keeps_entry_bind; [apply answer_keeps|]. intros report. apply keeps_entry_bind.
    - apply keeps_entry_second, keeps_enqueue_replies, audit_key_prefix.
    - intros _ s Hs. exact Hs. }
  exact (Hkeep (rt, d1) Hsome).
Qed.

Lemma store_calls_keep key cs (d : D) :
  has_prefix COMMAND_AUDIT_PREFIX key = true ->
  is_Some (db_contents d !! key) -> is_Some (db_contents (fst (run_store_calls sha256_hex cs d)) !! key).
Proof using.
  intros Hkey. revert d. induction cs as [|c cs IH]; intros d Hd; [done|]. cbn [run_store_calls].
  pose proof (keeps_store sha256_hex key c Hkey d Hd) as Hd1. destruct (run_store sha256_hex c d) as [d1 r].
  specialize (IH d1 Hd1). by destruct (run_store_calls sha256_hex cs d1).
Qed.

(** [C1] A command acts at most once: when a delivery of a command has acted on
    the runtime, its devices included, then no later delivery of a command
    with the same id on the same flow does, whatever its payload, whatever has
    been done with the store and happened to the runtime in between, and whether the first
    delivery succeeded or not. *)
Theorem command_acts_at_most_once ck1 ck2 message1 message2 id plan1 plan2 (cs : list StoreCall)
    (rt1 rt2 : Runtime W) (d : D) :
  plan_command package parse_json parse_rfc3339 ck1 id (cmd_payload message1) = Ok plan1 ->
  plan_command package parse_json parse_rfc3339 ck2 id (cmd_payload message2) = Ok plan2 ->
  plan_command_id plan1 = plan_command_id plan2 ->
  let deliver ck message :=
    deliver_flow package debug_str encode_reply parse_json parse_rfc3339 sha256_hex ck message id in
  let s1 := fst (deliver ck1 message1 (rt1, d)) in
  let d2 := fst (run_store_calls sha256_hex cs (snd s1)) in
  fst s1 <> rt1 -> fst (fst (deliver ck2 message2 (rt2, d2))) = rt2.
Proof using H1.
  intros Hp1 Hp2 Hid deliver s1 d2 Hacted.
  destruct (deliver_once ck1 message1 id plan1 rt1 d Hp1) as [Hsame|[_ Hsome]]; [done|].
  destruct (deliver_once ck2 message2 id plan2 rt2 d2 Hp2) as [Hsame|[Hnone _]]; [done|].
  rewrite Hid in Hsome. apply (store_calls_keep _ cs) in Hsome; [|apply audit_key_prefix].
  unfold d2, s1, deliver in Hnone. rewrite Hnone in Hsome. by destruct Hsome.
Qed.
End once.

(** ** Examples *)

Section examples.
Import FixedWorld MemoryDb Codecs StoreCodecs.

Abbreviation db := (gmap string bytes).

Definition commands_uplink : MqttUplinkConfig :=
  {| up_sink_id := "commands"; up_broker := "mqtt://broker"; up_client_id := "edge-1";
     up_protocol_version := V5_0; up_keep_alive_seconds := 30; up_clean_session := true;
     up_clean_start := true; up_session_expiry_interval_seconds := 0; up_receive_maximum := None;
     up_maximum_packet_size_bytes := None; up_topic_alias_maximum := None;
     up_request_response_information := false; up_request_problem_information := true;
     up_user_properties := []; up_last_will := None; up_username := None; up_password_env := None;
     up_tls_ca_path := None; up_topic_template := "edge/telemetry"; up_qos := 1; up_batch_size := 1;
     up_flush_interval_ms := 1000 |}.

(** The connection of the point the command writes. *)
Definition plc_connection : ProtocolConnection :=
  {| conn_id := "sim-main"; conn_protocol := ModbusTcp; conn_endpoint := Some "10.0.0.2:502";
     conn_serial := None; conn_iec101 := None; conn_iec104 := None; conn_opc_ua := None;
     conn_bacnet_ip := None; conn_siemens_s7 := None; conn_omron_fins := None;
     conn_circuit_breaker := default_circuit_breaker |}.

Definition plant_package : EdgeConfigPackage :=
  {| pkg_edge_id := "edge-1"; pkg_version := "v1"; pkg_device_models := []; pkg_devices := [];
     pkg_protocol_connections := [plc_connection]; pkg_mqtt_uplinks := [commands_uplink];
     pkg_data_configs := []; pkg_command_flows := [confirming_flow];
     pkg_point_mappings := [setpoint_mapping]; pkg_collection_tasks := []; pkg_algorithms := [] |}.

Definition plant_runtime : Runtime World :=
  match initial_runtime plant_package ∅ {| readings := []; calls := [] |} with
  | Ok rt => rt
  | _ => {| rt_shadows := ∅; rt_metrics := ∅; rt_breakers := ∅; rt_rate_windows := ∅;
            rt_world := {| readings := []; calls := [] |} |}
  end.

Lemma plant_runtime_ok : runtime_ok plant_package plant_runtime.
Proof. constructor; [|constructor]. split; vm_compute; eexists; reflexivity. Qed.

Definition fixed_clocks (now : DateTime) : Clocks :=
  {| planned_at _ _ := now; created_at := now; claimed_at := now; checked_at := 0; admitted_at := now;
     request_at _ := 0; started_at _ := 0; measured_at _ := 0; failure_at _ := 0; shadow_at _ := now;
     failed_at := now; finished_at := now; reply_at _ := now |}.

Definition noon : DateTime := 12000000000.

(** The reply is the text of the command id. *)
Definition id_reply (flow id : string) (source : option string) (status : CommandExecutionStatus)
    (writes : list CommandWriteRecord) (error : option string) (now : DateTime) : Result bytes :=
  Ok (str_bytes id).

Lemma fixed_world_lawful : lawful_adapters (W := World).
Proof.
  split; try done. intros c writes w w' n results. cbn [write_prefix fixed_adapters]. by intros [= _ <- _].
Qed.

(** The write reaches the device and the report says so. *)
Example execute_example :
  match execute_command_plan_after_safety plant_package (fun t => t) id_reply (fixed_clocks noon)
          confirmed_plan plant_runtime with
  | (rt, Ok report) => (calls (rt_world rt), rep_status report, length (rep_replies report))
  | _ => ([], Failed, 0%nat)
  end = ([("setpoint", VFloat (f64_of_Z 42))], Succeeded, 1%nat).
Proof. vm_compute. reflexivity. Qed.

Lemma command_report_accounts_for_writes_witness :
  exists rt report results w1,
    execute_command_plan_after_safety plant_package (fun t => t) id_reply (fixed_clocks noon)
      confirmed_plan plant_runtime = (rt, Ok report) /\
    accounts plant_package [example_write] (started_report (fixed_clocks noon) confirmed_plan) report results
      (rt_world plant_runtime) w1 (rt_world rt).
Proof.
  pose proof (command_report_accounts_for_writes plant_package (fun t => t) id_reply (fixed_clocks noon)
    fixed_world_lawful (fun _ _ _ _ _ _ _ => I) confirmed_plan plant_runtime plant_runtime_ok) as H.
  destruct (execute_command_plan_after_safety _ _ _ _ _ _) as [rt r] eqn:E.
  destruct r as [report|e|e];
    [|exfalso; apply (f_equal (fun x => is_ok (snd x))) in E; vm_compute in E; discriminate..].
  destruct H as (_ & _ & H). destruct (H report eq_refl) as (results & w1 & Hacc & _).
  exists rt, report, results, w1. split; [reflexivity | exact Hacc].
Defined.

Definition command_message (payload : bytes) : MqttCommandMessage :=
  {| cmd_sink_id := "commands"; cmd_topic := "edge/command"; cmd_payload := payload; cmd_flow_ids := ["flow-1"] |}.

Definition example_deliver (now : DateTime) (payload : bytes) : M (Runtime World * db) CommandExecutionReport :=
  deliver_flow plant_package (fun t => t) id_reply
    (fun _ => Some (example_document example_confirmation)) seconds length_digest
    (fixed_clocks now) (command_message payload) "flow-1".

(** The first delivery writes the point, the second one repeats the report. *)
Example redelivery_example :
  let '((rt1, d1), r1) := example_deliver noon [1] (plant_runtime, ∅) in
  let '((rt2, d2), r2) := example_deliver (noon + 1) [1] (rt1, d1) in
  (length (calls (rt_world rt1)), length (calls (rt_world rt2)),
   match r1, r2 with
   | Ok a, Ok b => (rep_duplicate a, rep_duplicate b, bool_decide (rep_status a = rep_status b))
   | _, _ => (true, false, false)
   end) = (1%nat, 1%nat, (false, true, true)).
Proof. vm_compute. reflexivity. Qed.

(** After the first delivery the command is also claimed once more. *)
Lemma command_acts_at_most_once_witness :
  let s1 := fst (example_deliver noon [1] (plant_runtime, ∅)) in
  let d2 := fst (run_store_calls length_digest [SClaim "edge-1" "flow-1" "c1" [1] noon] (snd s1)) in
  fst (fst (example_deliver (noon + 5) [1; 2] (plant_runtime, d2))) = plant_runtime.
Proof.
  unfold example_deliver.
  refine (command_acts_at_most_once (W := World) (D := db) plant_package (fun t => t) id_reply
    (fun _ => Some (example_document example_confirmation)) seconds length_digest
    (fixed_clocks noon) (fixed_clocks (noon + 5)) (command_message [1]) (command_message [1; 2]) "flow-1"
    confirmed_plan confirmed_plan [SClaim "edge-1" "flow-1" "c1" [1] noon] plant_runtime plant_runtime ∅ _ _ _ _).
  - vm_compute. reflexivity.
  - vm_compute. reflexivity.
  - reflexivity.
  - intros Heq. apply (f_equal (fun rt => length (calls (rt_world rt)))) in Heq. vm_compute in Heq. discriminate.
Defined.
End examples.
