(* ===== verification/MqttMessages.v ===== *)
(** The MQTT messages of the runtime, [crates/edge-runtime/src/mqtt_uplink.rs]: the
    checks of an uplink, the topics and payloads of collected samples, the outputs of
    the visual graph of a data config, and the routing of command messages.

    A [serde_json::Map] is a [gmap], written in the order of its keys.  The texts of
    times and the bytes of a document are parameters.

    [command_routing_iff] says that the matcher implements the wildcard rules of MQTT,
    [output_scope_iff] which points and algorithms an output of a graph publishes,
    and [data_message_carries_latest] what a message of a data config holds. *)

From Stdlib Require Import ZArith Lia.
From S2P Require Import Prelude RustStr Floats Json Model BTree ConfigTypes PointAddresses KvStore Outbox CommandPlan.

Open Scope string_scope.
Open Scope Z_scope.

(** ** Uplinks *)

Definition validate_qos (qos : Z) : Result () := ensure (negb (2 <? qos)) "mqtt qos must be 0, 1, or 2".

Definition blank_key (properties : list MqttUserProperty) : bool := existsb (fun property => is_blank (prop_key property)) properties.

Definition validate_will (will : MqttLastWillConfig) : Result () :=
  ensure (negb (is_blank (will_topic will))) "mqtt last will topic must not be empty";;
  validate_qos (will_qos will);;
  ensure (negb (blank_key (will_user_properties will))) "mqtt last will user property key must not be empty".

Definition validate_uplink (uplink : MqttUplinkConfig) : Result () :=
  ensure (negb (is_blank (up_sink_id uplink))) "mqtt uplink sink id is required";;
  ensure (negb (is_blank (up_broker uplink))) "mqtt uplink broker is required";;
  ensure (negb (is_blank (up_client_id uplink))) "mqtt uplink client id is required";;
  ensure (negb (up_keep_alive_seconds uplink <? 5)) "mqtt keep alive must be at least 5 seconds";;
  ensure match up_username uplink, up_password_env uplink with
         | None, None => true
         | Some username, Some password_env => negb (is_blank username) && negb (is_blank password_env)
         | _, _ => false
         end "mqtt username and password environment reference must be configured together";;
  ensure (negb match up_tls_ca_path uplink with Some path => is_blank path | None => false end)
    "mqtt TLS CA path must not be empty";;
  ensure (negb (bool_decide (up_receive_maximum uplink = Some 0))) "mqtt receive maximum must be greater than zero";;
  ensure (negb (bool_decide (up_maximum_packet_size_bytes uplink = Some 0)))
    "mqtt maximum packet size must be greater than zero";;
  ensure (negb (blank_key (up_user_properties uplink))) "mqtt user property key must not be empty";;
  match up_last_will uplink with Some will => validate_will will | None => Ok () end;;
  validate_qos (up_qos uplink).

Record MqttBrokerTarget := { target_host : string; target_port : Z; target_tls : bool }.

(** [broker.split_once("://")]: the text before and after the first occurrence. *)
Fixpoint split_scheme (l : bytes) : option (bytes * bytes) :=
  match l with
  | 58 :: 47 :: 47 :: rest => Some ([], rest)
  | b :: l => '(before, after) ← split_scheme l; Some (b :: before, after)
  | [] => None
  end.

Definition parse_mqtt_broker_target (broker : string) : Result MqttBrokerTarget :=
  '(scheme, rest) ← ok_or (split_scheme (str_bytes (str_trim broker)))
    "mqtt broker must include a scheme such as mqtt:// or mqtts://";
  let lower := str_to_ascii_lowercase (str_of_bytes scheme) in
  '(tls, default_port) ←
    (if bool_decide (lower ∈ ["mqtt"; "tcp"]) then Ok (false, 1883)
     else if bool_decide (lower ∈ ["mqtts"; "ssl"]) then Ok (true, 8883)
     else bail ("unsupported mqtt broker scheme: " ++ str_of_bytes scheme));
  let authority := default [] (head (split_on 47 rest)) in
  ensure (negb (bool_decide (authority = []))) "mqtt broker host is required";;
  ensure (negb (existsb (Z.eqb 64) authority)) "mqtt broker credentials must be configured separately";;
  '(host, port) ←
    match rsplit_once 58 authority with
    | Some (host, port) =>
        if negb (bool_decide (host = [])) && negb (bool_decide (port = [])) then
          port ← ok_or (parse_dec (2 ^ 16 - 1) port) ("invalid mqtt broker port: " ++ str_of_bytes port);
          Ok (host, port)
        else Ok (authority, default_port)
    | None => Ok (authority, default_port)
    end;
  Ok {| target_host := str_of_bytes host; target_port := port; target_tls := tls |}.

Definition validate_mqtt_uplink_config (uplink : MqttUplinkConfig) : Result () :=
  target ← parse_mqtt_broker_target (up_broker uplink);
  validate_uplink uplink;;
  ensure (negb (bool_decide (is_Some (up_tls_ca_path uplink)) && negb (target_tls target)))
    "mqtt TLS CA path requires an mqtts:// broker".

(** ** Command topics *)

(** The loop of [mqtt_topic_matches] over the levels of the filter, with the levels
    of the topic that are left. *)
Fixpoint match_levels (filter topic : list bytes) : bool :=
  match filter with
  | [] => bool_decide (topic = [])
  | level :: filter =>
      if bool_decide (level = [35]) then bool_decide (filter = [])
      else
        match topic with
        | [] => false
        | first :: topic => (bool_decide (level = [43]) || bool_decide (first = level)) && match_levels filter topic
        end
  end.

Definition mqtt_topic_matches (filter topic : string) : bool :=
  if str_is_empty filter || str_is_empty topic then false
  else if bool_decide (head (str_bytes topic) = Some 36) &&
          (bool_decide (head (str_bytes filter) = Some 35) || bool_decide (head (str_bytes filter) = Some 43))
  then false
  else match_levels (split_on 47 (str_bytes filter)) (split_on 47 (str_bytes topic)).

Definition command_subscriptions (edge_id : string) (flows : list CommandFlowConfig) : list (string * string * Z) :=
  (fun flow => (flow_id flow, str_replace (flow_subscribe_topic flow) "{edge_id}" edge_id, flow_qos flow)) <$> flows.

(** The subscriptions of the enabled flows, by their connection. *)
Fixpoint subscriptions_loop (edge_id : string) (sink_ids : list string) (flows : list CommandFlowConfig)
    (subscriptions : gmap string (list (string * string * Z))) : Result (gmap string (list (string * string * Z))) :=
  match flows with
  | [] => Ok subscriptions
  | flow :: flows =>
      let sink := flow_mqtt_connection_id flow in
      if negb (flow_enabled flow) then subscriptions_loop edge_id sink_ids flows subscriptions
      else
        ensure (bool_decide (sink ∈ sink_ids)) ("command MQTT connection not found: " ++ sink);;
        subscriptions_loop edge_id sink_ids flows
          (<[sink := (default [] (subscriptions !! sink) ++ command_subscriptions edge_id [flow])%list]> subscriptions)
  end.

Definition command_subscriptions_by_sink (package : EdgeConfigPackage) : Result (gmap string (list (string * string * Z))) :=
  subscriptions_loop (pkg_edge_id package) (up_sink_id <$> pkg_mqtt_uplinks package) (pkg_command_flows package) ∅.

(** [route_command_message]: the flows a message of a topic goes to; nothing is sent
    when there is none. *)
Definition routed_flows (subscriptions : list (string * string * Z)) (topic : string) : list string :=
  omap (fun '(flow_id, filter, _) => if mqtt_topic_matches filter topic then Some flow_id else None) subscriptions.

(** ** The scope of an output *)

Record DataConfigGraphScope := {
  scope_active : bool;
  scope_algorithm_ids : gset string;
  scope_algorithm_output_names : gmap string (gset string);
  scope_point_ids : gset string;
}.

Definition default_scope : DataConfigGraphScope :=
  {| scope_active := false; scope_algorithm_ids := ∅; scope_algorithm_output_names := ∅; scope_point_ids := ∅ |}.

Definition active_scope : DataConfigGraphScope :=
  {| scope_active := true; scope_algorithm_ids := ∅; scope_algorithm_output_names := ∅; scope_point_ids := ∅ |}.

Definition add_point (point_id : string) (scope : DataConfigGraphScope) : DataConfigGraphScope :=
  {| scope_active := scope_active scope; scope_algorithm_ids := scope_algorithm_ids scope;
     scope_algorithm_output_names := scope_algorithm_output_names scope;
     scope_point_ids := {[ point_id ]} ∪ scope_point_ids scope |}.

Definition add_algorithm (algorithm_id : string) (port : option string) (scope : DataConfigGraphScope) : DataConfigGraphScope :=
  {| scope_active := scope_active scope; scope_algorithm_ids := {[ algorithm_id ]} ∪ scope_algorithm_ids scope;
     scope_algorithm_output_names :=
       match port with
       | Some port => <[algorithm_id := {[ port ]} ∪ default ∅ (scope_algorithm_output_names scope !! algorithm_id)]>
                        (scope_algorithm_output_names scope)
       | None => scope_algorithm_output_names scope
       end;
     scope_point_ids := scope_point_ids scope |}.

(** The edges into a node: where they come from. *)
Definition sources_of (edges : list DataConfigGraphEdge) (node_id : string) : list (string * option string) :=
  (fun edge => (dedge_from edge, dedge_from_port edge)) <$> filter (fun edge => dedge_to edge = node_id) edges.

(** The node a source refers to: the last one with the id, as the map is collected. *)
Definition node_of (nodes : list DataConfigGraphNode) (node_id : string) : option DataConfigGraphNode :=
  list.last (filter (fun node => dnode_id node = node_id) nodes).

(** What a visited source adds to the scope, and whether the walk goes on behind it. *)
Definition visit_source (node : DataConfigGraphNode) (port : option string) (scope : DataConfigGraphScope)
    : DataConfigGraphScope * bool :=
  match dnode_kind node with
  | Node_Point =>
      (match dnode_ref_id node with Some point_id => add_point point_id scope | None => scope end, true)
  | Node_Algorithm | Node_Json =>
      match dnode_ref_id node with
      | Some algorithm_id =>
          if bool_decide (algorithm_id = "merge_points") then (scope, true)
          else (add_algorithm algorithm_id port scope, false)
      | None => (scope, true)
      end
  | Node_Mqtt => (scope, true)
  end.

(** The loop over the stack; its top is the head of the list. *)
Fixpoint scope_loop (fuel : nat) (nodes : list DataConfigGraphNode) (edges : list DataConfigGraphEdge)
    (stack : list (string * option string)) (visited : gset (string * option string)) (scope : DataConfigGraphScope)
    : option DataConfigGraphScope :=
  match stack with
  | [] => Some scope
  | source :: stack =>
      match fuel with
      | O => None
      | S fuel =>
          if bool_decide (source ∈ visited) then scope_loop fuel nodes edges stack visited scope
          else
            let visited := {[ source ]} ∪ visited in
            match node_of nodes (fst source) with
            | None => scope_loop fuel nodes edges stack visited scope
            | Some node =>
                let '(scope, behind) := visit_source node (snd source) scope in
                scope_loop fuel nodes edges
                  (if behind then reverse (sources_of edges (fst source)) ++ stack else stack)%list visited scope
            end
      end
  end.

(** Every source is the origin of an edge and is expanded once, so the stack holds at
    most one entry for each edge and expansion. *)
Definition scope_fuel (edges : list DataConfigGraphEdge) : nat := length edges + length edges * length edges.

Definition from_output (data_config : DataConfig) (output_node_id : string) : option DataConfigGraphScope :=
  let graph := dc_visual_graph data_config in
  scope_loop (scope_fuel (graph_edges graph)) (graph_nodes graph) (graph_edges graph)
    (reverse (sources_of (graph_edges graph) output_node_id)) ∅ active_scope.

Definition allows_point (scope : DataConfigGraphScope) (point_id : string) : bool :=
  negb (scope_active scope) || bool_decide (point_id ∈ scope_point_ids scope).

Definition allows_algorithm (scope : DataConfigGraphScope) (algorithm_id : string) : bool :=
  negb (scope_active scope) || bool_decide (algorithm_id ∈ scope_algorithm_ids scope).

Definition allows_algorithm_output (scope : DataConfigGraphScope) (algorithm_id name : string) : bool :=
  if negb (scope_active scope) then true
  else
    match scope_algorithm_output_names scope !! algorithm_id with
    | Some ports => bool_decide ("output" ∈ ports) || bool_decide (name ∈ ports)
    | None => true
    end.

(** ** Outputs *)

Inductive DataConfigPayloadLayout := Layout_Business | Layout_Envelope.

Record DataConfigGraphPayload := {
  gp_layout : DataConfigPayloadLayout;
  gp_include_timestamp : bool;
  gp_include_quality : bool;
}.

Record DataConfigGraphOutput := {
  out_topic_template : string;
  out_scope : DataConfigGraphScope;
  out_payload : DataConfigGraphPayload;
}.

Definition fallback (data_config : DataConfig) : DataConfigGraphOutput :=
  {| out_topic_template := pub_topic_template (dc_publish data_config); out_scope := default_scope;
     out_payload := {| gp_layout := Layout_Envelope; gp_include_timestamp := true;
                       gp_include_quality := payload_include_quality (pub_payload (dc_publish data_config)) |} |}.

(** [node.params.get(camel).or_else(|| node.params.get(snake))]. *)
Definition node_param (node : DataConfigGraphNode) (camel snake : string) : option Json :=
  match dnode_params node !! camel with Some v => Some v | None => dnode_params node !! snake end.

Definition output_layout (node : DataConfigGraphNode) : DataConfigPayloadLayout :=
  match node_param node "payloadLayout" "payload_layout" ≫= json_as_str with
  | Some value =>
      if bool_decide (str_to_ascii_lowercase (str_trim value) ∈ ["business"; "flat"; "plain"])
      then Layout_Business else Layout_Envelope
  | None => Layout_Envelope
  end.

Definition output_of (data_config : DataConfig) (node : DataConfigGraphNode) : Result DataConfigGraphOutput :=
  let layout := output_layout node in
  scope ← expect (from_output data_config (dnode_id node)) "scope";
  Ok {| out_topic_template :=
          match dnode_ref_id node with
          | Some topic => if is_blank topic then pub_topic_template (dc_publish data_config) else topic
          | None => pub_topic_template (dc_publish data_config)
          end;
        out_scope := scope;
        out_payload :=
          {| gp_layout := layout;
             gp_include_timestamp :=
               default (match layout with Layout_Envelope => true | Layout_Business => false end)
                 (node_param node "includeTimestamp" "include_timestamp" ≫= json_as_bool);
             gp_include_quality :=
               default (payload_include_quality (pub_payload (dc_publish data_config)))
                 (node_param node "includeQuality" "include_quality" ≫= json_as_bool) |} |}.

Definition from_data_config (data_config : DataConfig) : Result (list DataConfigGraphOutput) :=
  let graph := dc_visual_graph data_config in
  if bool_decide (graph_nodes graph = []) || bool_decide (graph_edges graph = []) then Ok [fallback data_config]
  else
    outputs ← collect_results (output_of data_config <$>
      filter (fun node => match dnode_kind node with Node_Mqtt => true | _ => false end = true) (graph_nodes graph));
    Ok (if bool_decide (outputs = []) then [fallback data_config] else outputs).

(** ** Selected samples *)

Definition telemetry_type_from_value (value : TelemetryValue) : TelemetryType :=
  match value with
  | VFloat _ => Ty_Float | VInteger _ => Ty_Integer | VBoolean _ => Ty_Boolean | VText _ => Ty_Text
  end.

(** Characters that are not ASCII letters or digits become underscores, one for each
    character. *)
Definition json_field_from_point_id (point_id : string) : string :=
  str_of_bytes (omap (fun b => if is_cont b then None else Some (if is_ascii_alphanumeric b then b else 95)) (str_bytes point_id)).

Definition algorithm_outputs_for_samples (algorithm : AlgorithmSpec) (samples : list TelemetrySample)
    (configured_point_ids : list string) (scope : DataConfigGraphScope) : list DataConfigPoint :=
  omap (fun output =>
    if allows_algorithm_output scope (algo_id algorithm) (output_name output) &&
       negb (bool_decide (output_point_id output ∈ configured_point_ids)) then
      (fun sample =>
         {| dcp_point_id := output_point_id output; dcp_semantic_id := output_point_id output;
            dcp_address := {| addr_kind := "algorithm"; addr_value := algo_id algorithm; addr_modbus := None |};
            dcp_value_type := telemetry_type_from_value (sample_value sample); dcp_unit := None;
            dcp_json_field := if is_blank (output_name output) then json_field_from_point_id (output_point_id output)
                              else output_name output |})
      <$> find_first (fun sample => bool_decide (sample_telemetry_id sample = output_point_id output)) samples
    else None) (dsl_outputs (algo_dsl algorithm)).

Definition algorithm_output_points (package : EdgeConfigPackage) (data_config : DataConfig) (samples : list TelemetrySample)
    (scope : DataConfigGraphScope) : list DataConfigPoint :=
  concat ((fun algorithm => algorithm_outputs_for_samples algorithm samples (dcp_point_id <$> dc_points data_config) scope) <$>
    filter (fun algorithm => allows_algorithm scope (algo_id algorithm) = true /\ algo_id algorithm ∈ dc_algorithm_ids data_config)
      (pkg_algorithms package)).

(** The latest sample of a point of the device. *)
Definition latest_sample (device_id point_id : string) (samples : list TelemetrySample) : option TelemetrySample :=
  max_by (fun a b => sample_timestamp a <=? sample_timestamp b)
    (filter (fun sample => sample_device_id sample = device_id /\ sample_telemetry_id sample = point_id) samples).

Definition data_config_selected_samples (data_config : DataConfig) (samples : list TelemetrySample)
    (synthetic_points : list DataConfigPoint) (scope : DataConfigGraphScope) : list (DataConfigPoint * TelemetrySample) :=
  omap (fun point => pair point <$> latest_sample (dc_device_id data_config) (dcp_point_id point) samples)
    (filter (fun point => allows_point scope (dcp_point_id point) = true) (dc_points data_config) ++ synthetic_points)%list.

(** ** Payloads *)

(** [json!(value)]: a float that is not finite is written as [null]. *)
Definition telemetry_value_to_json (value : TelemetryValue) : Json :=
  match value with
  | VFloat x => if is_finite x then JFloat x else JNull
  | VInteger n => JInt n
  | VBoolean b => JBool b
  | VText s => JString s
  end.

Definition quality_to_json_label (quality : DataQuality) : string :=
  match quality with Q_Good => "good" | Q_Uncertain => "uncertain" | Q_Bad => "bad" end.

(** [DataQualityCode::as_str]. *)
Definition quality_code_label (code : DataQualityCode) : string :=
  match code with
  | QC_Good => "good"
  | UncertainProtocol => "uncertain_protocol"
  | UncertainLastKnown => "uncertain_last_known"
  | UncertainOutOfRange => "uncertain_out_of_range"
  | UncertainSubstituted => "uncertain_substituted"
  | UncertainOverflow => "uncertain_overflow"
  | BadCommunication => "bad_communication"
  | BadTimeout => "bad_timeout"
  | BadProtocol => "bad_protocol"
  | BadDecode => "bad_decode"
  | BadConfiguration => "bad_configuration"
  | BadOutOfService => "bad_out_of_service"
  end.

Definition quality_code_to_json_label (sample : TelemetrySample) : string :=
  quality_code_label (default (default_for (sample_quality sample)) (sample_quality_code sample)).

Abbreviation JsonMap := (gmap string Json).

(** [serde_json::Value::Object(map)]. *)
Definition json_object (fields : JsonMap) : Json :=
  JObject (sort_by (fun a b => str_leb (fst a) (fst b)) (map_to_list fields)).

Fixpoint first_duplicate (seen : list string) (fields : list string) : option string :=
  match fields with
  | [] => None
  | field :: fields => if bool_decide (field ∈ seen) then Some field else first_duplicate (field :: seen) fields
  end.

Definition ensure_unique_json_fields (data_config : DataConfig) (selected : list (DataConfigPoint * TelemetrySample)) : Result () :=
  match first_duplicate [] ((fun entry => dcp_json_field (fst entry)) <$> selected) with
  | Some field => bail ("data config " ++ dc_config_id data_config ++ " has duplicate json field " ++ field)
  | None => Ok ()
  end.

Definition ensure_reserved_business_field_available (data_config : DataConfig) (values : JsonMap) (field : string) : Result () :=
  ensure (negb (bool_decide (is_Some (values !! field))))
    ("data config " ++ dc_config_id data_config ++ " business payload field conflicts with reserved field " ++ field).

(** A field of each selected point. *)
Definition fields_of (f : TelemetrySample -> Json) (selected : list (DataConfigPoint * TelemetrySample)) : JsonMap :=
  foldl (fun fields '(point, sample) => <[dcp_json_field point := f sample]> fields) ∅ selected.

Definition data_config_object_fields (selected : list (DataConfigPoint * TelemetrySample)) : JsonMap * JsonMap * JsonMap :=
  (fields_of (fun sample => telemetry_value_to_json (sample_value sample)) selected,
   fields_of (fun sample => JString (quality_to_json_label (sample_quality sample))) selected,
   fields_of (fun sample => JString (quality_code_to_json_label sample)) selected).

Definition data_config_envelope (package : EdgeConfigPackage) (data_config : DataConfig) : JsonMap :=
  list_to_map [("edge_id", JString (pkg_edge_id package)); ("config_version", JString (pkg_version package));
               ("config_id", JString (dc_config_id data_config)); ("device_id", JString (dc_device_id data_config))].

Section payloads.
(** [serde_json::to_value] of a time, [serde_json::to_vec] of a document and of the
    fields of a telemetry payload. *)
Context (show_time : DateTime -> string) (json_to_vec : Json -> Result bytes).

Definition data_config_array_items (selected : list (DataConfigPoint * TelemetrySample)) (include_timestamp include_quality : bool)
    (timestamp_field : string) : list Json :=
  (fun '(point, sample) =>
     let item : JsonMap := <["value" := telemetry_value_to_json (sample_value sample)]>
                           (<["field" := JString (dcp_json_field point)]> (<["point_id" := JString (dcp_point_id point)]> ∅)) in
     let item := if include_timestamp then <[timestamp_field := JString (show_time (sample_timestamp sample))]> item else item in
     let item := if include_quality
                 then <["quality_code" := JString (quality_code_to_json_label sample)]>
                        (<["quality" := JString (quality_to_json_label (sample_quality sample))]> item)
                 else item in
     json_object item) <$> selected.

(** The time of a payload: the greatest of its samples. *)
Definition payload_time (selected : list (DataConfigPoint * TelemetrySample)) : DateTime :=
  default 0 (max_by Z.leb ((fun entry => sample_timestamp (snd entry)) <$> selected)).

(** The document of [build_data_config_payload]. *)
Definition payload_document (package : EdgeConfigPackage) (data_config : DataConfig)
    (selected : list (DataConfigPoint * TelemetrySample)) (graph_payload : DataConfigGraphPayload) : Result Json :=
  let config := pub_payload (dc_publish data_config) in
  let time := JString (show_time (payload_time selected)) in
  let '(values, quality, quality_code) := data_config_object_fields selected in
  let with_time (payload : JsonMap) :=
    if gp_include_timestamp graph_payload then <[payload_timestamp_field config := time]> payload else payload in
  match gp_layout graph_payload, payload_mode config with
  | Layout_Business, Object =>
      (if gp_include_timestamp graph_payload
       then ensure_reserved_business_field_available data_config values (payload_timestamp_field config) else Ok ());;
      let payload := with_time values in
      if gp_include_quality graph_payload then
        ensure_reserved_business_field_available data_config payload "_quality";;
        ensure_reserved_business_field_available data_config payload "_quality_code";;
        Ok (json_object (<["_quality_code" := json_object quality_code]> (<["_quality" := json_object quality]> payload)))
      else Ok (json_object payload)
  | Layout_Business, Array =>
      Ok (JArray (data_config_array_items selected (gp_include_timestamp graph_payload) (gp_include_quality graph_payload)
                    (payload_timestamp_field config)))
  | Layout_Envelope, Object =>
      let payload := <["values" := json_object values]> (with_time (data_config_envelope package data_config)) in
      Ok (json_object
            (if gp_include_quality graph_payload
             then <["quality_code" := json_object quality_code]> (<["quality" := json_object quality]> payload) else payload))
  | Layout_Envelope, Array =>
      Ok (json_object (<["points" := JArray (data_config_array_items selected false (gp_include_quality graph_payload)
                                               (payload_timestamp_field config))]>
                       (with_time (data_config_envelope package data_config))))
  end.

Definition build_data_config_payload (package : EdgeConfigPackage) (data_config : DataConfig)
    (selected : list (DataConfigPoint * TelemetrySample)) (graph_payload : DataConfigGraphPayload) : Result bytes :=
  ensure_unique_json_fields data_config selected;;
  document ← payload_document package data_config selected graph_payload;
  json_to_vec document.

Definition render_data_config_topic_template (package : EdgeConfigPackage) (data_config : DataConfig) (template : string) : string :=
  str_replace (str_replace (str_replace (str_replace template "{edge_id}" (pkg_edge_id package))
    "{device_id}" (dc_device_id data_config)) "{config_id}" (dc_config_id data_config)) "{site}" "default".

(** The uplink of a data config, checked with its quality of service. *)
Definition uplink_of (package : EdgeConfigPackage) (data_config : DataConfig) : Result MqttUplinkConfig :=
  uplink ← ok_or (find_first (fun uplink => bool_decide (up_sink_id uplink = pub_sink_id (dc_publish data_config)))
                    (pkg_mqtt_uplinks package))
             ("mqtt sink not found for data config " ++ dc_config_id data_config ++ ": " ++ pub_sink_id (dc_publish data_config));
  validate_uplink uplink;;
  validate_qos (pub_qos (dc_publish data_config));;
  Ok uplink.

(** The message of an output, [None] when no sample is selected. *)
Definition output_message (package : EdgeConfigPackage) (data_config : DataConfig) (uplink : MqttUplinkConfig)
    (samples : list TelemetrySample) (output : DataConfigGraphOutput) : Result (option MqttPublishMessage) :=
  let synthetic_points := algorithm_output_points package data_config samples (out_scope output) in
  let selected := data_config_selected_samples data_config samples synthetic_points (out_scope output) in
  if bool_decide (selected = []) then Ok None
  else
    payload ← build_data_config_payload package data_config selected (out_payload output);
    Ok (Some {| msg_sink_id := up_sink_id uplink; msg_broker := up_broker uplink; msg_client_id := up_client_id uplink;
                msg_topic := render_data_config_topic_template package data_config (out_topic_template output);
                msg_qos := pub_qos (dc_publish data_config); msg_payload := payload |}).

Definition data_config_messages (package : EdgeConfigPackage) (samples : list TelemetrySample) (data_config : DataConfig)
    : Result (list MqttPublishMessage) :=
  if negb (dc_enabled data_config) then Ok []
  else
    uplink ← uplink_of package data_config;
    outputs ← from_data_config data_config;
    messages ← collect_results (map (output_message package data_config uplink samples) outputs);
    Ok (omap (M := list) (fun message => message) messages).

Definition build_data_config_mqtt_publish_messages (package : EdgeConfigPackage) (samples : list TelemetrySample)
    : Result (list MqttPublishMessage) :=
  messages ← collect_results (data_config_messages package samples <$> pkg_data_configs package);
  Ok (concat messages).
End payloads.

(** ** Telemetry messages *)

Record MqttTelemetryPayload := {
  tp_edge_id : string;
  tp_config_version : string;
  tp_device_id : string;
  tp_telemetry_id : string;
  tp_value : TelemetryValue;
  tp_quality : DataQuality;
  tp_quality_code : DataQualityCode;
  tp_timestamp : DateTime;
}.

Definition render_topic (uplink : MqttUplinkConfig) (package : EdgeConfigPackage) (sample : TelemetrySample) : string :=
  str_replace (str_replace (str_replace (up_topic_template uplink) "{edge_id}" (pkg_edge_id package))
    "{device_id}" (sample_device_id sample)) "{telemetry_id}" (sample_telemetry_id sample).

Section telemetry.
Context (telemetry_to_vec : MqttTelemetryPayload -> Result bytes).

Definition sample_message (package : EdgeConfigPackage) (uplink : MqttUplinkConfig) (sample : TelemetrySample)
    : Result MqttPublishMessage :=
  payload ← telemetry_to_vec
    {| tp_edge_id := pkg_edge_id package; tp_config_version := pkg_version package; tp_device_id := sample_device_id sample;
       tp_telemetry_id := sample_telemetry_id sample; tp_value := sample_value sample; tp_quality := sample_quality sample;
       tp_quality_code := default (default_for (sample_quality sample)) (sample_quality_code sample);
       tp_timestamp := sample_timestamp sample |};
  Ok {| msg_sink_id := up_sink_id uplink; msg_broker := up_broker uplink; msg_client_id := up_client_id uplink;
        msg_topic := render_topic uplink package sample; msg_qos := up_qos uplink; msg_payload := payload |}.

Definition uplink_messages (package : EdgeConfigPackage) (samples : list TelemetrySample) (uplink : MqttUplinkConfig)
    : Result (list MqttPublishMessage) :=
  validate_uplink uplink;; collect_results (sample_message package uplink <$> samples).

Definition build_mqtt_publish_messages (package : EdgeConfigPackage) (samples : list TelemetrySample)
    : Result (list MqttPublishMessage) :=
  messages ← collect_results (uplink_messages package samples <$> pkg_mqtt_uplinks package);
  Ok (concat messages).
End telemetry.

(** ** Routes *)

Record ConfiguredMqttOutputRoute := {
  route_sink_id : string;
  route_broker : string;
  route_topic : string;
  route_qos : Z;
}.

Fixpoint add_routes (package : EdgeConfigPackage) (data_config : DataConfig) (uplink : MqttUplinkConfig)
    (outputs : list DataConfigGraphOutput) (routes : gmap (string * string) ConfiguredMqttOutputRoute)
    : Result (gmap (string * string) ConfiguredMqttOutputRoute) :=
  match outputs with
  | [] => Ok routes
  | output :: outputs =>
      let topic := render_data_config_topic_template package data_config (out_topic_template output) in
      let qos := pub_qos (dc_publish data_config) in
      ensure (negb (is_blank topic)) ("data config " ++ dc_config_id data_config ++ " resolves an empty MQTT output topic");;
      ensure (negb (existsb (fun b => (b =? 35) || (b =? 43)) (str_bytes topic)))
        ("data config " ++ dc_config_id data_config ++ " MQTT output topic must not contain wildcards: " ++ topic);;
      let route :=
        match routes !! (up_sink_id uplink, topic) with
        | Some route => {| route_sink_id := route_sink_id route; route_broker := route_broker route; route_topic := route_topic route;
                           route_qos := Z.max (route_qos route) qos |}
        | None => {| route_sink_id := up_sink_id uplink; route_broker := up_broker uplink; route_topic := topic; route_qos := qos |}
        end in
      add_routes package data_config uplink outputs (<[(up_sink_id uplink, topic) := route]> routes)
  end.

Fixpoint routes_loop (package : EdgeConfigPackage) (data_configs : list DataConfig)
    (routes : gmap (string * string) ConfiguredMqttOutputRoute) : Result (gmap (string * string) ConfiguredMqttOutputRoute) :=
  match data_configs with
  | [] => Ok routes
  | data_config :: data_configs =>
      if negb (dc_enabled data_config) then routes_loop package data_configs routes
      else
        uplink ← uplink_of package data_config;
        outputs ← from_data_config data_config;
        routes ← add_routes package data_config uplink outputs routes;
        routes_loop package data_configs routes
  end.

(** [configured_data_mqtt_output_routes]; the routes by sink and topic. *)
Definition configured_data_mqtt_output_routes (package : EdgeConfigPackage)
    : Result (gmap (string * string) ConfiguredMqttOutputRoute) := routes_loop package (pkg_data_configs package) ∅.

(** ** Publishing *)

Section publishing.
Context {D P : Type} `{RocksDb D} `{JsonCodec MqttOutboxEntry} `{JsonCodec MqttPublishAcknowledgement} `{MqttPublisher P}.
Context (clock : Z -> DateTime).

Fixpoint publish_each (messages : list MqttPublishMessage) : M P () :=
  match messages with
  | [] => mret tt
  | message :: messages => _ ← publish message; publish_each messages
  end.

(** [publish_mqtt_samples] and [publish_data_config_mqtt_samples], on the messages
    they build. *)
Definition publish_built (messages : Result (list MqttPublishMessage)) : M P Z :=
  messages ← lift messages;
  _ ← publish_each messages;
  mret (Z.of_nat (length messages)).

Fixpoint enqueue_each (now : DateTime) (messages : list MqttPublishMessage) : M (D * P) () :=
  match messages with
  | [] => mret tt
  | message :: messages => _ ← on_store (enqueue_mqtt_message now message); enqueue_each now messages
  end.

(** [publish_mqtt_samples_with_outbox] and its counterpart for data configs. *)
Definition publish_with_outbox (now : DateTime) (messages : Result (list MqttPublishMessage)) : M (D * P) Z :=
  messages ← lift messages;
  _ ← enqueue_each now messages;
  flush_mqtt_outbox clock.
End publishing.

(** ** Topics *)

(** The wildcard rules: [+] stands for one level, a final [#] for any number of
    levels, none included, and every other level for itself. *)
Inductive levels_match : list bytes -> list bytes -> Prop :=
| match_end : levels_match [] []
| match_rest topic : levels_match [[35]] topic
| match_one filter level topic : levels_match filter topic -> levels_match ([43] :: filter) (level :: topic)
| match_literal level filter topic :
    level <> [35] -> level <> [43] -> levels_match filter topic -> levels_match (level :: filter) (level :: topic).

Lemma match_levels_iff filter topic : match_levels filter topic = true <-> levels_match filter topic.
Proof.
  split.
  - revert topic. induction filter as [|level filter IH]; intros topic; cbn [match_levels].
    + case_bool_decide; [subst; constructor | done].
    + case_bool_decide as Hh; [subst level; case_bool_decide; [subst; constructor | done]|].
      destruct topic as [|first topic]; [done|]. intros [Hl Hrest]%andb_prop. apply IH in Hrest.
      destruct (decide (level = [43])) as [->|Hp]; [by constructor|].
      rewrite bool_decide_false in Hl by done. cbn in Hl. apply bool_decide_eq_true in Hl as ->. by constructor.
  - induction 1 as [|topic|filter level topic _ IH|level filter topic Hh Hp _ IH]; cbn [match_levels]; [done|done| |].
    + rewrite bool_decide_false by done. by rewrite bool_decide_true.
    + rewrite !bool_decide_false by done. rewrite bool_decide_true by done. by rewrite IH.
Qed.

(** A topic of the broker is not matched by a filter that begins with a wildcard. *)
Definition hidden_topic (filter topic : string) : Prop :=
  head (str_bytes topic) = Some 36 /\ (head (str_bytes filter) = Some 35 \/ head (str_bytes filter) = Some 43).

(** A command message goes to the flows whose filter matches its topic by the
    rules of MQTT and to no others: the matcher accepts exactly the filters whose
    levels match those of the topic, except that a filter that begins with a
    wildcard does not match a topic of the broker, and neither may be empty. *)
Theorem command_routing_iff subscriptions topic flow_id :
  flow_id ∈ routed_flows subscriptions topic <->
  exists filter qos, (flow_id, filter, qos) ∈ subscriptions /\ filter <> "" /\ topic <> "" /\ ~ hidden_topic filter topic /\
    levels_match (split_on 47 (str_bytes filter)) (split_on 47 (str_bytes topic)).
Proof.
  assert (Hm : forall filter, mqtt_topic_matches filter topic = true <->
    filter <> "" /\ topic <> "" /\ ~ hidden_topic filter topic /\
    levels_match (split_on 47 (str_bytes filter)) (split_on 47 (str_bytes topic))).
  { intros filter. unfold mqtt_topic_matches, hidden_topic. rewrite <- match_levels_iff.
    destruct filter as [|a filter], topic as [|b topic]; cbn [str_is_empty orb]; try naive_solver.
    assert (Hne : String a filter <> "" /\ String b topic <> "") by done. assert (Hft : false = true <-> False) by done.
    repeat case_bool_decide; cbn [andb orb]; rewrite ?Hft; tauto. }
  unfold routed_flows. rewrite list_elem_of_omap. split.
  - intros ([[f filter] qos] & Hin & Hf). destruct (mqtt_topic_matches filter topic) eqn:E; [|done].
    injection Hf as ->. exists filter, qos. split; [done|]. by apply Hm.
  - intros (filter & qos & Hin & Hrest). exists (flow_id, filter, qos). split; [done|]. by rewrite (proj2 (Hm filter) Hrest).
Qed.

(** ** The scope of an output *)

(** What a node contributes. *)
Definition yields_point (node : DataConfigGraphNode) (point_id : string) : Prop :=
  dnode_kind node = Node_Point /\ dnode_ref_id node = Some point_id.

Definition yields_algorithm (node : DataConfigGraphNode) (algorithm_id : string) : Prop :=
  (dnode_kind node = Node_Algorithm \/ dnode_kind node = Node_Json) /\ dnode_ref_id node = Some algorithm_id /\
  algorithm_id <> "merge_points".

(** The sources that feed an output: those of its edges, and those behind a source
    whose node is not an algorithm. *)
Inductive feeds (graph : DataConfigVisualGraph) (output : string) : string * option string -> Prop :=
| feeds_edge source : source ∈ sources_of (graph_edges graph) output -> feeds graph output source
| feeds_behind source node next :
    feeds graph output source -> node_of (graph_nodes graph) (fst source) = Some node ->
    (forall algorithm_id, ~ yields_algorithm node algorithm_id) ->
    next ∈ sources_of (graph_edges graph) (fst source) -> feeds graph output next.

Section scopes.
Context (nodes : list DataConfigGraphNode) (edges : list DataConfigGraphEdge).

(** The scope holds what the sources in the set contribute. *)
Definition scope_is (Inside : string * option string -> Prop) (scope : DataConfigGraphScope) : Prop :=
  scope_active scope = true /\
  (forall p, p ∈ scope_point_ids scope <->
     exists s node, Inside s /\ node_of nodes (fst s) = Some node /\ yields_point node p) /\
  (forall a, a ∈ scope_algorithm_ids scope <->
     exists s node, Inside s /\ node_of nodes (fst s) = Some node /\ yields_algorithm node a) /\
  (forall a port, port ∈ default ∅ (scope_algorithm_output_names scope !! a) <->
     exists s node, Inside s /\ node_of nodes (fst s) = Some node /\ yields_algorithm node a /\ snd s = Some port).

Lemma visit_behind node port scope :
  snd (visit_source node port scope) = true <-> forall algorithm_id, ~ yields_algorithm node algorithm_id.
Proof.
  unfold visit_source, yields_algorithm.
  destruct (dnode_kind node), (dnode_ref_id node) as [a|]; cbn; try naive_solver; case_bool_decide; cbn; naive_solver.
Qed.

(** What the new source adds. *)
Lemma visit_adds (s : string * option string) node scope :
  let scope' := fst (visit_source node (snd s) scope) in
  scope_active scope' = scope_active scope /\
  (forall p, p ∈ scope_point_ids scope' <-> yields_point node p \/ p ∈ scope_point_ids scope) /\
  (forall a, a ∈ scope_algorithm_ids scope' <-> yields_algorithm node a \/ a ∈ scope_algorithm_ids scope) /\
  (forall a port, port ∈ default ∅ (scope_algorithm_output_names scope' !! a) <->
     (yields_algorithm node a /\ snd s = Some port) \/ port ∈ default ∅ (scope_algorithm_output_names scope !! a)).
Proof.
  unfold visit_source, yields_point, yields_algorithm.
  destruct (dnode_kind node), (dnode_ref_id node) as [x|]; cbn zeta; try (cbn; naive_solver).
  { cbn. setoid_rewrite elem_of_union. setoid_rewrite elem_of_singleton. naive_solver. }
  all: destruct (decide (x = "merge_points")) as [->|Hx];
    [rewrite bool_decide_true by done; cbn; naive_solver | rewrite bool_decide_false by done; cbn].
  all: split; [done|]; split; [naive_solver|].
  all: split; [intros a; rewrite elem_of_union, elem_of_singleton; naive_solver|]; intros a port.
  all: destruct (snd s) as [q|]; [|naive_solver]; destruct (decide (a = x)) as [->|Ha];
    [rewrite lookup_insert_eq; cbn; rewrite elem_of_union, elem_of_singleton; naive_solver
    | rewrite lookup_insert_ne by done; naive_solver].
Qed.

Lemma scope_is_add (s : string * option string) node Inside scope :
  scope_is Inside scope -> node_of nodes (fst s) = Some node ->
  scope_is (fun s' => s' = s \/ Inside s') (fst (visit_source node (snd s) scope)).
Proof.
  intros (Hact & Hp & Ha & Hn) Hnode. destruct (visit_adds s node scope) as (Vact & Vp & Va & Vn). unfold scope_is.
  split; [congruence|]. split; [|split].
  - intros p. rewrite Vp, Hp. split; [intros [Hy|(s' & n & ?)]; [exists s, node | exists s', n]; tauto|].
    intros (s' & n & [->|Hin] & Hn' & Hy); [left; congruence | right; eauto].
  - intros a. rewrite Va, Ha. split; [intros [Hy|(s' & n & ?)]; [exists s, node | exists s', n]; tauto|].
    intros (s' & n & [->|Hin] & Hn' & Hy); [left; congruence | right; eauto].
  - intros a port. rewrite Vn, Hn. split; [intros [[Hy Hs]|(s' & n & ?)]; [exists s, node | exists s', n]; tauto|].
    intros (s' & n & [->|Hin] & Hn' & Hy & Hs); [left; split; [congruence | done] | right; eauto 6].
Qed.

Lemma scope_is_skip (s : string * option string) Inside scope :
  scope_is Inside scope -> node_of nodes (fst s) = None -> scope_is (fun s' => s' = s \/ Inside s') scope.
Proof.
  intros (Hact & Hp & Ha & Hn) Hnone. split; [done|].
  split; [|split]; [intros p; rewrite Hp | intros a; rewrite Ha | intros a port; rewrite Hn];
    (split; [intros (s' & n & ? & ?); exists s', n; tauto|]);
    intros (s' & n & [->|Hin] & Hs & Hy); [congruence | eauto | congruence | eauto | congruence | eauto 6].
Qed.

Lemma scope_is_ext Inside Inside' scope :
  (forall s, Inside s <-> Inside' s) -> scope_is Inside scope -> scope_is Inside' scope.
Proof. intros He. unfold scope_is. setoid_rewrite He. done. Qed.

Definition origins : gset (string * option string) :=
  list_to_set ((fun edge => (dedge_from edge, dedge_from_port edge)) <$> edges).

Lemma sources_origins id s : s ∈ sources_of edges id -> s ∈ origins.
Proof.
  unfold sources_of, origins. rewrite elem_of_list_to_set, !list_elem_of_fmap.
  intros (edge & -> & [_ He]%list_elem_of_filter). eauto.
Qed.

Lemma length_sources id : (length (sources_of edges id) <= length edges)%nat.
Proof. unfold sources_of. rewrite length_fmap. apply length_filter. Qed.

Lemma size_origins : (size origins <= length edges)%nat.
Proof.
  unfold origins. clear nodes. induction edges as [|edge l IH]; cbn; [by rewrite size_empty|].
  rewrite size_union_alt, size_singleton. set (X := list_to_set _) in *.
  pose proof (subseteq_size (X ∖ {[ (dedge_from edge, dedge_from_port edge) ]}) X ltac:(set_solver)). lia.
Qed.

(** The sources behind a visited one. *)
Definition behind (s next : string * option string) : Prop :=
  exists node, node_of nodes (fst s) = Some node /\ (forall a, ~ yields_algorithm node a) /\ next ∈ sources_of edges (fst s).

(** The loop with enough fuel: it ends with a closed set of sources that holds those
    of the stack, and nothing a closed predicate does not hold of. *)
Lemma scope_loop_spec (fuel : nat) (stack : list (string * option string)) (visited : gset (string * option string)) (scope : DataConfigGraphScope) :
  (forall s, s ∈ stack -> s ∈ origins) ->
  (length stack + size (origins ∖ visited) * length edges <= fuel)%nat ->
  scope_is (fun s => s ∈ visited) scope ->
  (forall s next, s ∈ visited -> behind s next -> next ∈ visited \/ next ∈ stack) ->
  exists scope' (visited' : gset (string * option string)),
    scope_loop fuel nodes edges stack visited scope = Some scope' /\ scope_is (fun s => s ∈ visited') scope' /\
    (forall s, s ∈ visited \/ s ∈ stack -> s ∈ visited') /\
    (forall s next, s ∈ visited' -> behind s next -> next ∈ visited') /\
    (forall P : string * option string -> Prop, (forall s, s ∈ visited \/ s ∈ stack -> P s) ->
       (forall s next, P s -> behind s next -> P next) -> forall s, s ∈ visited' -> P s).
Proof.
  revert stack visited scope. induction fuel as [|fuel IH]; intros stack visited scope Hstack Hfuel Hscope Hclosed;
    (destruct stack as [|s stack];
      [exists scope, visited; split; [done|]; split; [done|]; split; [set_solver|]; split; [set_solver|]; eauto|]).
  { cbn in Hfuel. lia. }
  cbn [scope_loop]. assert (Hso : s ∈ origins) by (apply Hstack; left). case_bool_decide as Hv.
  { destruct (IH stack visited scope) as (scope' & visited' & He & Hs' & Hin & Hcl & Hmin).
    - intros x Hx. apply Hstack. by right.
    - cbn in Hfuel. lia.
    - done.
    - intros x next Hx Hb. specialize (Hclosed x next Hx Hb). set_solver.
    - exists scope', visited'. split; [done|]. split; [done|]. split; [set_solver|]. split; [done|].
      intros P HP Hstep. apply Hmin; [|done]. set_solver. }
  assert (Hsize : size (origins ∖ visited) = S (size (origins ∖ ({[ s ]} ∪ visited)))).
  { assert (Hu : origins ∖ visited = {[ s ]} ∪ origins ∖ ({[ s ]} ∪ visited)).
    { apply set_eq. intros x. rewrite elem_of_union, !elem_of_difference, elem_of_union, elem_of_singleton.
      destruct (decide (x = s)) as [->|]; tauto. }
    rewrite Hu, size_union, size_singleton by set_solver. done. }
  assert (Hext : forall x, (x = s \/ x ∈ visited) <-> x ∈ {[ s ]} ∪ visited) by set_solver.
  destruct (node_of nodes (fst s)) as [node|] eqn:Hnode.
  - destruct (visit_source node (snd s) scope) as [scope1 on] eqn:Evisit.
    assert (Hon : on = true <-> forall a, ~ yields_algorithm node a)
      by (rewrite <- (visit_behind node (snd s) scope); by rewrite Evisit).
    assert (Hscope1 : scope_is (fun x => x ∈ {[ s ]} ∪ visited) scope1).
    { eapply scope_is_ext; [exact Hext|]. pose proof (scope_is_add s node _ _ Hscope Hnode) as Ha. by rewrite Evisit in Ha. }
    set (pushed := if on then reverse (sources_of edges (fst s)) else []).
    assert (Hpushed : forall x, x ∈ pushed <-> behind s x).
    { intros x. unfold behind, pushed. destruct on; [rewrite elem_of_reverse; naive_solver|].
      split; [by intros ?%not_elem_of_nil|]. intros (n & Hn & Hno & _). rewrite Hnode in Hn. injection Hn as <-.
      by apply Hon in Hno. }
    assert (Heq : (if on then reverse (sources_of edges (fst s)) ++ stack else stack)%list = (pushed ++ stack)%list)
      by (unfold pushed; by destruct on). rewrite Heq.
    destruct (IH (pushed ++ stack)%list ({[ s ]} ∪ visited) scope1) as (scope' & visited' & He & Hs' & Hin & Hcl & Hmin).
    + intros x [Hx|Hx]%elem_of_app; [|apply Hstack; by right]. apply Hpushed in Hx as (n & _ & _ & Hx). by eapply sources_origins.
    + rewrite length_app. cbn in Hfuel. rewrite Hsize in Hfuel. pose proof (length_sources (fst s)).
      assert (length pushed <= length edges)%nat by (unfold pushed; destruct on; [rewrite length_reverse; lia | cbn; lia]). nia.
    + done.
    + intros x next [->%elem_of_singleton|Hx]%elem_of_union Hb; [right; apply elem_of_app; left; by apply Hpushed|].
      specialize (Hclosed x next Hx Hb). set_solver.
    + exists scope', visited'. split; [done|]. split; [done|]. split; [set_solver|]. split; [done|].
      intros P HP Hstep. apply Hmin; [|done]. intros x [Hx|Hx]; [set_solver|].
      apply elem_of_app in Hx as [Hx|Hx]; [|apply HP; right; by right].
      apply (Hstep s); [apply HP; right; left | by apply Hpushed].
  - destruct (IH stack ({[ s ]} ∪ visited) scope) as (scope' & visited' & He & Hs' & Hin & Hcl & Hmin).
    + intros x Hx. apply Hstack. by right.
    + cbn in Hfuel. rewrite Hsize in Hfuel. nia.
    + eapply scope_is_ext; [exact Hext | by apply scope_is_skip].
    + intros x next [->%elem_of_singleton|Hx]%elem_of_union Hb; [destruct Hb as (n & Hn & _); congruence|].
      specialize (Hclosed x next Hx Hb). set_solver.
    + exists scope', visited'. split; [done|]. split; [done|]. split; [set_solver|]. split; [done|].
      intros P HP Hstep. apply Hmin; [|done]. set_solver.
Qed.
End scopes.

(** [C14] An output of the visual graph publishes exactly what feeds it: the walk
    back from an MQTT node ends for every graph, also a cyclic one, and its scope has
    the points and the algorithms of the sources that reach the node without passing
    an algorithm, and for each algorithm the ports through which it does. *)
Theorem output_scope_iff data_config output :
  exists scope, from_output data_config output = Some scope /\
    scope_is (graph_nodes (dc_visual_graph data_config)) (feeds (dc_visual_graph data_config) output) scope.
Proof.
  unfold from_output. set (graph := dc_visual_graph data_config). set (init := reverse _).
  destruct (scope_loop_spec (graph_nodes graph) (graph_edges graph) (scope_fuel (graph_edges graph)) init ∅ active_scope)
    as (scope & visited & He & Hs & Hin & Hcl & Hmin).
  - unfold init. intros s Hs. rewrite elem_of_reverse in Hs. exact (sources_origins _ _ _ Hs).
  - unfold init, scope_fuel. rewrite length_reverse, difference_empty_L.
    pose proof (length_sources (graph_edges graph) output). pose proof (size_origins (graph_edges graph)). nia.
  - split; [done|]. split; [|split]; intros; cbn; rewrite ?lookup_empty; cbn; set_solver.
  - set_solver.
  - exists scope. split; [done|]. eapply scope_is_ext; [|exact Hs]. intros s. split.
    + apply Hmin; [unfold init; intros x [Hx|Hx]; [set_solver|]; apply feeds_edge; by rewrite elem_of_reverse in Hx|].
      intros x next Hx (node & Hn & Hno & Hnext). by eapply feeds_behind.
    + induction 1 as [x Hx|x node next _ IH Hn Hno Hnext]; [apply Hin; right; unfold init; by rewrite elem_of_reverse|].
      apply (Hcl x next IH). by exists node.
Qed.

(** ** The payload of a data config *)

Lemma json_object_get fields key : json_get (json_object fields) key = fields !! key.
Proof.
  cbn. unfold json_lookup. destruct (find_first _ _) as [[k v]|] eqn:E; cbn.
  - apply find_first_Some in E as [Hin Hk]. rewrite sort_by_perm in Hin. apply elem_of_map_to_list in Hin.
    apply bool_decide_eq_true in Hk. cbn in Hk. by subst k.
  - symmetry. apply eq_None_not_Some. intros [v Hv]. apply find_first_None in E. rewrite list.Forall_forall in E.
    specialize (E (key, v)). rewrite sort_by_perm in E. cbn in E.
    rewrite bool_decide_true in E by done. discriminate E. by apply elem_of_map_to_list.
Qed.

Lemma first_duplicate_None fields seen :
  first_duplicate seen fields = None -> NoDup fields /\ forall field, field ∈ fields -> field ∉ seen.
Proof.
  revert seen. induction fields as [|field fields IH]; intros seen; cbn [first_duplicate].
  { intros _. split; [constructor | by intros ? ?%not_elem_of_nil]. }
  case_bool_decide as Hseen; [done|]. intros [Hnd Hrest]%IH. split.
  - apply list.NoDup_cons. split; [|done]. intros Hin. apply (Hrest field Hin). left.
  - intros x [->|Hx]%elem_of_cons; [done|]. specialize (Hrest x Hx). set_solver.
Qed.

(** The field of the entry of a selection. *)
Definition entry_field (entry : DataConfigPoint * TelemetrySample) : string := dcp_json_field (fst entry).

Lemma fields_of_lookup f selected field v :
  NoDup (entry_field <$> selected) ->
  fields_of f selected !! field = Some v <->
  exists point sample, (point, sample) ∈ selected /\ dcp_json_field point = field /\ v = f sample.
Proof.
  unfold fields_of. induction selected as [|[point sample] selected IH] using rev_ind; intros Hnd.
  { cbn [foldl]. rewrite lookup_empty. split; [done | by intros (? & ? & ?%not_elem_of_nil & _)]. }
  rewrite fmap_app in Hnd. apply list.NoDup_app in Hnd as (Hnd & Hfresh & _). specialize (IH Hnd).
  rewrite foldl_app. cbn [foldl]. setoid_rewrite elem_of_app. setoid_rewrite list_elem_of_singleton.
  destruct (decide (dcp_json_field point = field)) as [<-|Hne].
  - rewrite lookup_insert_eq. split; [intros [= <-]; by exists point, sample; eauto|].
    intros (p & s & [Hin|[= -> ->]] & Hp & ->); [|done]. exfalso.
    apply (Hfresh (dcp_json_field point)); [|by left]. apply list_elem_of_fmap. exists (p, s). by split.
  - rewrite lookup_insert_ne by done. rewrite IH. split; intros (p & s & Hin & Hp & Hv); exists p, s; naive_solver.
Qed.

Lemma latest_sample_spec device_id point_id samples sample :
  latest_sample device_id point_id samples = Some sample ->
  (sample ∈ samples /\ sample_device_id sample = device_id /\ sample_telemetry_id sample = point_id) /\
  forall other, other ∈ samples -> sample_device_id other = device_id -> sample_telemetry_id other = point_id ->
    sample_timestamp other <= sample_timestamp sample.
Proof.
  unfold latest_sample. intros Hm. split.
  - apply max_by_elem, list_elem_of_filter in Hm. tauto.
  - intros other Hin Hd Hp. apply Z.leb_le.
    eapply (max_by_max (fun a b => sample_timestamp a <=? sample_timestamp b)); [lia | lia | exact Hm|].
    by apply list_elem_of_filter.
Qed.

(** The points an output publishes when they have a sample. *)
Definition published_points (package : EdgeConfigPackage) (data_config : DataConfig) (samples : list TelemetrySample)
    (scope : DataConfigGraphScope) : list DataConfigPoint :=
  (filter (fun point => allows_point scope (dcp_point_id point) = true) (dc_points data_config) ++
   algorithm_output_points package data_config samples scope)%list.

Lemma selected_iff package data_config samples scope point sample :
  (point, sample) ∈ data_config_selected_samples data_config samples
                      (algorithm_output_points package data_config samples scope) scope <->
  point ∈ published_points package data_config samples scope /\
  latest_sample (dc_device_id data_config) (dcp_point_id point) samples = Some sample.
Proof.
  unfold data_config_selected_samples. fold (published_points package data_config samples scope).
  rewrite list_elem_of_omap. split.
  - intros (p & Hp & Hs). apply fmap_Some in Hs as (s & Hs & [= -> ->]). done.
  - intros [Hp Hs]. exists point. split; [done|]. by rewrite Hs.
Qed.

(** Where a document in object mode has the values of its points. *)
Definition values_of (layout : DataConfigPayloadLayout) (document : Json) : option Json :=
  match layout with Layout_Business => Some document | Layout_Envelope => json_get document "values" end.

Lemma reserved_free data_config (values : JsonMap) field :
  ensure_reserved_business_field_available data_config values field = Ok () -> values !! field = None.
Proof.
  unfold ensure_reserved_business_field_available. intros Hr. inv_result.
  match goal with H : negb _ = true |- _ => apply negb_true_iff, bool_decide_eq_false in H; by apply eq_None_not_Some end.
Qed.

(** A document in object mode holds the fields of the selected samples, and in the
    envelope no others. *)
Lemma document_values show_time package data_config selected graph_payload document :
  payload_mode (pub_payload (dc_publish data_config)) = Object ->
  payload_document show_time package data_config selected graph_payload = Ok document ->
  let fields := fields_of (fun sample => telemetry_value_to_json (sample_value sample)) selected in
  exists values, values_of (gp_layout graph_payload) document = Some values /\
    (forall field value, fields !! field = Some value -> json_get values field = Some value) /\
    (gp_layout graph_payload = Layout_Envelope -> forall field, json_get values field = fields !! field).
Proof.
  intros Hmode. unfold payload_document. rewrite Hmode. cbn zeta. unfold data_config_object_fields.
  set (fields := fields_of (fun sample => telemetry_value_to_json (sample_value sample)) selected). destruct (gp_layout graph_payload); cbn [values_of].
  - intros Hd. exists document. split; [done|]. split; [|done]. intros field value Hf.
    assert (Hin : forall (m : JsonMap) k v, m !! k = None -> m !! field = Some value -> <[k := v]> m !! field = Some value)
      by (intros m k v Hk Hm; rewrite lookup_insert_ne; [done | congruence]).
    destruct (gp_include_timestamp graph_payload), (gp_include_quality graph_payload); inv_result;
      repeat match goal with H : ensure_reserved_business_field_available _ _ _ = Ok _ |- _ => apply reserved_free in H end.
    all: rewrite json_object_get; repeat (apply Hin; [rewrite ?lookup_insert_ne by done; assumption|]); done.
  - intros [= <-]. exists (json_object fields). split; [|split; [intros field value; by rewrite json_object_get | intros; apply json_object_get]].
    rewrite json_object_get. destruct (gp_include_quality graph_payload);
      [rewrite !lookup_insert_ne by done|]; apply lookup_insert_eq.
Qed.

(** [C13] A message of a data config in object mode carries, for each point its
    output publishes, the latest sample: wherever the runtime has a sample of a
    point of the device, the payload has under the field of the point the value of a
    sample none of the point is later than; the values of the envelope hold no
    other field, and two points never share one. *)
Theorem data_message_carries_latest show_time json_to_vec package data_config uplink samples output message :
  payload_mode (pub_payload (dc_publish data_config)) = Object ->
  output_message show_time json_to_vec package data_config uplink samples output = Ok (Some message) ->
  let points := published_points package data_config samples (out_scope output) in
  let of_point point sample :=
    sample ∈ samples /\ sample_device_id sample = dc_device_id data_config /\ sample_telemetry_id sample = dcp_point_id point in
  let latest point sample :=
    of_point point sample /\ forall other, of_point point other -> sample_timestamp other <= sample_timestamp sample in
  exists document values,
    json_to_vec document = Ok (msg_payload message) /\
    values_of (gp_layout (out_payload output)) document = Some values /\
    (forall point other, point ∈ points -> of_point point other ->
       exists sample, latest point sample /\
         json_get values (dcp_json_field point) = Some (telemetry_value_to_json (sample_value sample))) /\
    (gp_layout (out_payload output) = Layout_Envelope -> forall field value, json_get values field = Some value ->
       exists point sample, point ∈ points /\ dcp_json_field point = field /\ latest point sample /\
         value = telemetry_value_to_json (sample_value sample)).
Proof.
  intros Hmode Hout points of_point latest. unfold output_message in Hout.
  set (selected := data_config_selected_samples _ _ _ _) in Hout.
  assert (Hsel : forall point sample, (point, sample) ∈ selected <->
    point ∈ points /\ latest_sample (dc_device_id data_config) (dcp_point_id point) samples = Some sample)
    by (intros; apply selected_iff).
  assert (Hlatest : forall point sample,
    latest_sample (dc_device_id data_config) (dcp_point_id point) samples = Some sample -> latest point sample).
  { intros point sample [Hs Hmax]%latest_sample_spec. split; [done|]. intros other (? & ? & ?). by apply Hmax. }
  case_bool_decide; [done|]. unfold build_data_config_payload in Hout. inv_result.
  match goal with H : payload_document _ _ _ _ _ = Ok ?d |- _ =>
    rename d into document; destruct (document_values _ _ _ _ _ _ Hmode H) as (values & Hv & Hget & Henv) end.
  assert (Hnd : NoDup (entry_field <$> selected)).
  { match goal with H : ensure_unique_json_fields _ _ = Ok _ |- _ => unfold ensure_unique_json_fields in H end.
    destruct (first_duplicate [] _) eqn:E; [done|]. by apply first_duplicate_None in E as [? _]. }
  exists document, values. split; [done|]. split; [done|]. split.
  - intros point other Hp (Hin & Hd & Ht).
    destruct (max_by_some (fun a b => sample_timestamp a <=? sample_timestamp b)
                (filter (fun sample => sample_device_id sample = dc_device_id data_config /\
                                       sample_telemetry_id sample = dcp_point_id point) samples) other) as [sample Hs];
      [by apply list_elem_of_filter|].
    exists sample. split; [by apply Hlatest|]. apply Hget, fields_of_lookup; [done|]. exists point, sample.
    split; [by apply Hsel | done].
  - intros He field value. rewrite (Henv He), fields_of_lookup by done.
    intros (point & sample & [Hp Hs]%Hsel & Hf & ->). exists point, sample. auto.
Qed.

Definition sample_point : DataConfigPoint :=
  {| dcp_point_id := "boiler.temp"; dcp_semantic_id := "boiler.temp";
     dcp_address := {| addr_kind := "modbus"; addr_value := "40001"; addr_modbus := None |};
     dcp_value_type := Ty_Integer; dcp_unit := None; dcp_json_field := "temp" |}.

Definition sample_data_config : DataConfig :=
  {| dc_config_id := "dc"; dc_name := "dc"; dc_enabled := true; dc_device_id := "boiler"; dc_protocol_connection_id := "plc";
     dc_collection := new_collection 1000;
     dc_points := [sample_point]; dc_algorithm_ids := [];
     dc_visual_graph := {| graph_nodes := []; graph_edges := [] |};
     dc_publish := {| pub_sink_id := "main"; pub_topic_template := "edge/{edge_id}/{config_id}"; pub_qos := 1;
                      pub_payload := {| payload_mode := Object; payload_timestamp_field := "ts"; payload_include_quality := true |} |} |}.

Definition sample_uplink : MqttUplinkConfig :=
  {| up_sink_id := "main"; up_broker := "mqtt://broker"; up_client_id := "edge"; up_protocol_version := V3_1_1;
     up_keep_alive_seconds := 30; up_clean_session := true; up_clean_start := true; up_session_expiry_interval_seconds := 0;
     up_receive_maximum := None; up_maximum_packet_size_bytes := None; up_topic_alias_maximum := None;
     up_request_response_information := false; up_request_problem_information := false; up_user_properties := [];
     up_last_will := None; up_username := None; up_password_env := None; up_tls_ca_path := None;
     up_topic_template := "t"; up_qos := 1; up_batch_size := 1; up_flush_interval_ms := 1000 |}.

Definition sample_readings : list TelemetrySample :=
  [new_sample "boiler" "boiler.temp" (VInteger 21) Q_Good 20; new_sample "boiler" "boiler.temp" (VInteger 19) Q_Good 10].

Lemma data_message_carries_latest_witness :
  exists message,
    output_message (fun _ => "time") (fun _ => Ok [123]) (new_package "edge-1" "v1") sample_data_config sample_uplink
      sample_readings (fallback sample_data_config) = Ok (Some message) /\
    exists document values, values_of Layout_Envelope document = Some values /\
      exists sample, sample ∈ sample_readings /\ 20 <= sample_timestamp sample /\
        json_get values "temp" = Some (telemetry_value_to_json (sample_value sample)).
Proof.
  eexists. split; [vm_compute; reflexivity|].
  edestruct (data_message_carries_latest (fun _ => "time") (fun _ => Ok [123]) (new_package "edge-1" "v1") sample_data_config
               sample_uplink sample_readings (fallback sample_data_config)) as (document & values & _ & Hv & Hget & _);
    [reflexivity | vm_compute; reflexivity|].
  exists document, values. split; [exact Hv|].
  assert (Hfirst : new_sample "boiler" "boiler.temp" (VInteger 21) Q_Good 20 ∈ sample_readings) by left.
  destruct (Hget sample_point (new_sample "boiler" "boiler.temp" (VInteger 21) Q_Good 20)) as (sample & [[Hs _] Hmax] & Hj);
    [left | done|].
  exists sample. split; [exact Hs|]. split; [exact (Hmax _ (conj Hfirst (conj eq_refl eq_refl))) | exact Hj].
Defined.

(** In array mode the time of an item is written over its value when the payload
    names the time [value]; only the object of the business layout is checked. *)
Example array_time_hides_value :
  exists item,
    data_config_array_items (fun _ => "time") [(sample_point, new_sample "boiler" "boiler.temp" (VInteger 21) Q_Good 20)]
      true false "value" = [item] /\
    json_get item "value" = Some (JString "time").
Proof. eexists. split; vm_compute; reflexivity. Qed.
