(* ===== verification/AgentTools.v ===== *)
(** The tools of the operator assistant, [crates/cloud-control/src/agent_v2.rs]:
    their descriptors, the registry and the authorization of a call.

    A language model proposes, the control plane disposes: a tool the model can
    call may not change state, a tool that changes state needs a confirmation by a
    person.  [AgentToolRegistry::register] enforces the first, and
    [agent_authorization_safe] proves both of every call the registry allows. *)

From Stdlib Require Import ZArith Lia.
From S2P Require Import Prelude RustStr Floats Json Model.

Open Scope string_scope.

(** ** Descriptors *)

Inductive AgentRiskLevel := Risk_Low | Risk_Medium | Risk_High | Risk_Critical.

Inductive AgentPermission :=
| ProjectRead
| ProductRead
| ConfigurationRead
| RuntimeRead
| MqttRead
| AuditRead
| KnowledgeRead
| ConfigurationPropose
| ConfigurationApply
| CommandPropose
| CommandDispatch.

Inductive AgentToolCategory :=
| Cat_Project | Cat_Product | Cat_Configuration | Cat_Runtime | Cat_Mqtt | Cat_Audit | Cat_Knowledge | Cat_Command.

Inductive AgentToolEffect := Effect_ReadOnly | DraftChangeSet | ApplyChangeSet | DraftDeviceCommand | DispatchDeviceCommand.

Inductive AgentToolExposure := ModelCallable | ControlPlaneOnly.

Inductive AgentConfirmationPolicy := Policy_None | Policy_HumanUser | Policy_PrivilegedReviewer | Policy_TwoPerson.

#[export] Instance AgentRiskLevel_eq_dec : EqDecision AgentRiskLevel.
Proof. solve_decision. Defined.
#[export] Instance AgentPermission_eq_dec : EqDecision AgentPermission.
Proof. solve_decision. Defined.
#[export] Instance AgentToolEffect_eq_dec : EqDecision AgentToolEffect.
Proof. solve_decision. Defined.
#[export] Instance AgentToolExposure_eq_dec : EqDecision AgentToolExposure.
Proof. solve_decision. Defined.
#[export] Instance AgentConfirmationPolicy_eq_dec : EqDecision AgentConfirmationPolicy.
Proof. solve_decision. Defined.

Definition permission_index (p : AgentPermission) : nat :=
  match p with
  | ProjectRead => 0 | ProductRead => 1 | ConfigurationRead => 2 | RuntimeRead => 3 | MqttRead => 4 | AuditRead => 5
  | KnowledgeRead => 6 | ConfigurationPropose => 7 | ConfigurationApply => 8 | CommandPropose => 9 | CommandDispatch => 10
  end.

Definition permission_of (n : nat) : option AgentPermission :=
  [ProjectRead; ProductRead; ConfigurationRead; RuntimeRead; MqttRead; AuditRead; KnowledgeRead; ConfigurationPropose;
   ConfigurationApply; CommandPropose; CommandDispatch] !! n.

#[export] Instance AgentPermission_countable : Countable AgentPermission.
Proof. by refine (inj_countable permission_index permission_of _); intros []. Defined.

Definition mutates_state (effect : AgentToolEffect) : bool :=
  match effect with ApplyChangeSet | DispatchDeviceCommand => true | _ => false end.

Record AgentToolDescriptor := {
  tool_name : string;
  tool_description : string;
  tool_category : AgentToolCategory;
  tool_effect : AgentToolEffect;
  tool_exposure : AgentToolExposure;
  tool_risk : AgentRiskLevel;
  tool_confirmation : AgentConfirmationPolicy;
  tool_required_permissions : gset AgentPermission;
  tool_input_schema : Json;
  tool_output_schema : Json;
}.

Inductive AgentToolRegistryError :=
| EmptyToolName
| DuplicateTool (name : string)
| InvalidSchema (name : string)
| ModelMutationForbidden (name : string)
| MutationRequiresConfirmation (name : string)
| UnknownTool (name : string).

Definition json_is_object (v : Json) : bool := match v with JObject _ => true | _ => false end.

Definition validate_descriptor (tool : AgentToolDescriptor) : () + AgentToolRegistryError :=
  if is_blank (tool_name tool) then inr EmptyToolName
  else if negb (json_is_object (tool_input_schema tool)) || negb (json_is_object (tool_output_schema tool))
  then inr (InvalidSchema (tool_name tool))
  else if bool_decide (tool_exposure tool = ModelCallable) && mutates_state (tool_effect tool)
  then inr (ModelMutationForbidden (tool_name tool))
  else if mutates_state (tool_effect tool) && bool_decide (tool_confirmation tool = Policy_None)
  then inr (MutationRequiresConfirmation (tool_name tool))
  else inl ().

(** ** Confirmations *)

Record AgentConfirmationEvidence := {
  confirmed_by : string;
  co_approver : option string;
  evidence_note : option string;
  evidence_confirmed_at : DateTime;
}.

(** [!actor.is_empty() && !actor.starts_with("agent:") && !actor.starts_with("model:")]. *)
Definition human_actor (actor : string) : bool :=
  negb (str_is_empty actor) && negb (starts_with (str_bytes actor) (str_bytes "agent:")) &&
  negb (starts_with (str_bytes actor) (str_bytes "model:")).

Definition is_human (evidence : AgentConfirmationEvidence) : bool := human_actor (str_trim (confirmed_by evidence)).

(** The set the approvers are collected in. *)
Definition approvers (evidence : AgentConfirmationEvidence) : gset string :=
  (if is_human evidence then {[ str_trim (confirmed_by evidence) ]} else ∅) ∪
  match co_approver evidence with
  | Some actor => if human_actor (str_trim actor) then {[ str_trim actor ]} else ∅
  | None => ∅
  end.

Definition distinct_approvers (evidence : AgentConfirmationEvidence) : nat := size (approvers evidence).

(** ** The registry *)

Definition AgentToolRegistry : Type := gmap string AgentToolDescriptor.

Inductive AgentToolCaller := Caller_Model | Caller_ControlPlane.

#[export] Instance AgentToolCaller_eq_dec : EqDecision AgentToolCaller.
Proof. solve_decision. Defined.

Record AgentAuthorizationRequest := {
  request_caller : AgentToolCaller;
  request_permissions : gset AgentPermission;
  request_confirmation : option AgentConfirmationEvidence;
}.

Inductive AgentToolDecision :=
| Decision_Allowed
| Decision_ConfirmationRequired (policy : AgentConfirmationPolicy)
| Decision_Denied (reason : string) (missing_permissions : gset AgentPermission).

(** An error leaves the registry as it was. *)
Definition register (registry : AgentToolRegistry) (descriptor : AgentToolDescriptor)
    : AgentToolRegistry + AgentToolRegistryError :=
  match validate_descriptor descriptor with
  | inr error => inr error
  | inl () =>
      match registry !! tool_name descriptor with
      | Some _ => inr (DuplicateTool (tool_name descriptor))
      | None => inl (<[tool_name descriptor := descriptor]> registry)
      end
  end.

Definition model_tools (registry : AgentToolRegistry) : list AgentToolDescriptor :=
  filter (fun tool => tool_exposure tool = ModelCallable) (snd <$> map_to_list registry).

(** The part of [authorize] after the permissions: the confirmation. *)
Definition decide_confirmation (tool : AgentToolDescriptor) (request : AgentAuthorizationRequest) : AgentToolDecision :=
  if bool_decide (tool_confirmation tool = Policy_None) then Decision_Allowed
  else
    match request_confirmation request with
    | None => Decision_ConfirmationRequired (tool_confirmation tool)
    | Some confirmation =>
        if negb (is_human confirmation)
        then Decision_Denied "confirmation must be provided by a human operator" ∅
        else if bool_decide (tool_confirmation tool = Policy_TwoPerson) && (Nat.ltb (distinct_approvers confirmation) 2)
        then Decision_ConfirmationRequired Policy_TwoPerson
        else Decision_Allowed
    end.

Definition authorize (registry : AgentToolRegistry) (name : string) (request : AgentAuthorizationRequest)
    : AgentToolDecision + AgentToolRegistryError :=
  match registry !! name with
  | None => inr (UnknownTool name)
  | Some tool =>
      if bool_decide (request_caller request = Caller_Model) && bool_decide (tool_exposure tool = ControlPlaneOnly)
      then inl (Decision_Denied "tool is reserved for the deterministic control plane" ∅)
      else
        let missing_permissions := tool_required_permissions tool ∖ request_permissions request in
        if negb (bool_decide (missing_permissions = ∅))
        then inl (Decision_Denied "caller does not have the required permissions" missing_permissions)
        else inl (decide_confirmation tool request)
  end.

(** ** The built-in tools *)

Definition object_schema : Json := JObject [("type", JString "object"); ("additionalProperties", JBool true)].

Definition descriptor (name description : string) (category : AgentToolCategory) (effect : AgentToolEffect)
    (exposure : AgentToolExposure) (risk : AgentRiskLevel) (confirmation : AgentConfirmationPolicy)
    (permissions : list AgentPermission) : AgentToolDescriptor :=
  {| tool_name := name; tool_description := description; tool_category := category; tool_effect := effect;
     tool_exposure := exposure; tool_risk := risk; tool_confirmation := confirmation;
     tool_required_permissions := list_to_set permissions; tool_input_schema := object_schema;
     tool_output_schema := object_schema |}.

Definition default_tool_descriptors : list AgentToolDescriptor :=
  [descriptor "project.list"
     "List projects available in the active operator scope."
     Cat_Project Effect_ReadOnly ModelCallable Risk_Low Policy_None [ProjectRead];
   descriptor "product.inspect"
     "Inspect a product, protocol bindings and runtime compatibility."
     Cat_Product Effect_ReadOnly ModelCallable Risk_Low Policy_None [ProductRead];
   descriptor "configuration.inspect"
     "Inspect point sets, protocol connections and data or command flows."
     Cat_Configuration Effect_ReadOnly ModelCallable Risk_Low Policy_None [ConfigurationRead];
   descriptor "protocol.inspect"
     "Inspect scoped industrial protocol connections and their runtime bindings."
     Cat_Configuration Effect_ReadOnly ModelCallable Risk_Low Policy_None [ConfigurationRead];
   descriptor "point_set.inspect"
     "Inspect reusable point sets, point addresses, access and sampling intervals."
     Cat_Configuration Effect_ReadOnly ModelCallable Risk_Low Policy_None [ConfigurationRead];
   descriptor "collection_flow.inspect"
     "Inspect upstream collection graphs, calculations and MQTT outputs."
     Cat_Configuration Effect_ReadOnly ModelCallable Risk_Low Policy_None [ConfigurationRead];
   descriptor "command_flow.inspect"
     "Inspect governed downstream command graphs and writable-point targets."
     Cat_Command Effect_ReadOnly ModelCallable Risk_Low Policy_None [ConfigurationRead];
   descriptor "runtime.metrics"
     "Read runtime health, collection, processing and delivery metrics."
     Cat_Runtime Effect_ReadOnly ModelCallable Risk_Low Policy_None [RuntimeRead];
   descriptor "mqtt.status"
     "Read MQTT connection, session, delivery and error status."
     Cat_Mqtt Effect_ReadOnly ModelCallable Risk_Low Policy_None [MqttRead];
   descriptor "operations.diagnose"
     "Correlate configuration, Runtime, industrial protocol, MQTT, local buffer and event evidence into deterministic operational findings."
     Cat_Runtime Effect_ReadOnly ModelCallable Risk_Low Policy_None [RuntimeRead; ConfigurationRead; MqttRead];
   descriptor "audit.search"
     "Search scoped configuration, command and runtime audit events."
     Cat_Audit Effect_ReadOnly ModelCallable Risk_Low Policy_None [AuditRead];
   descriptor "knowledge.search"
     "Retrieve protocol manuals and runbooks with citations."
     Cat_Knowledge Effect_ReadOnly ModelCallable Risk_Low Policy_None [KnowledgeRead];
   descriptor "configuration.change_set.draft"
     "Create a non-executing configuration ChangeSet with diff and impact metadata."
     Cat_Configuration DraftChangeSet ModelCallable Risk_Medium Policy_None [ConfigurationPropose];
   descriptor "configuration.change_set.apply"
     "Apply a validated and confirmed ChangeSet through configuration APIs."
     Cat_Configuration ApplyChangeSet ControlPlaneOnly Risk_High Policy_HumanUser [ConfigurationApply];
   descriptor "device.command.draft"
     "Create a non-executing command candidate for a writable point."
     Cat_Command DraftDeviceCommand ModelCallable Risk_High Policy_None [CommandPropose];
   descriptor "device.command.dispatch"
     "Dispatch a validated command through policy and the device adapter."
     Cat_Command DispatchDeviceCommand ControlPlaneOnly Risk_Critical Policy_PrivilegedReviewer [CommandDispatch]].

(** The loop of [velaedge_v2], with its [expect]. *)
Fixpoint register_all (registry : AgentToolRegistry) (tools : list AgentToolDescriptor) : Result AgentToolRegistry :=
  match tools with
  | [] => Ok registry
  | tool :: tools =>
      match register registry tool with
      | inl registry => register_all registry tools
      | inr _ => Panic "built-in Agent v2 tool descriptors must be valid"
      end
  end.

Definition velaedge_v2 : Result AgentToolRegistry := register_all ∅ default_tool_descriptors.

(** ** What the registry guarantees *)

(** The registries that registrations lead to. *)
Inductive registered : AgentToolRegistry -> Prop :=
| registered_empty : registered ∅
| registered_step registry tool registry' :
    registered registry -> register registry tool = inl registry' -> registered registry'.

Lemma register_Ok registry tool registry' :
  register registry tool = inl registry' ->
  validate_descriptor tool = inl () /\ registry !! tool_name tool = None /\ registry' = <[tool_name tool := tool]> registry.
Proof.
  unfold register. destruct (validate_descriptor tool) as [[]|]; [|done].
  destruct (registry !! tool_name tool); [done|]. by intros [= <-].
Qed.

Lemma registered_valid registry name tool :
  registered registry -> registry !! name = Some tool -> tool_name tool = name /\ validate_descriptor tool = inl ().
Proof.
  intros Hr. revert name tool. induction Hr as [|registry new registry' _ IH Hreg]; intros name tool Hl.
  - by apply (lookup_empty_Some (M := gmap string)) in Hl.
  - apply register_Ok in Hreg as (Hv & _ & ->).
    apply lookup_insert_Some in Hl as [[<- <-]|[_ Hl]]; [done | by apply IH].
Qed.

Lemma valid_descriptor tool :
  validate_descriptor tool = inl () -> mutates_state (tool_effect tool) = true ->
  tool_exposure tool = ControlPlaneOnly /\ tool_confirmation tool <> Policy_None.
Proof.
  unfold validate_descriptor. intros Hv Hm. rewrite Hm in Hv.
  destruct (is_blank _); [done|]. destruct (_ || _); [done|].
  destruct (tool_exposure tool), (tool_confirmation tool); done.
Qed.

(** The confirmation a policy asks for. *)
Definition confirmation_meets (policy : AgentConfirmationPolicy) (confirmation : option AgentConfirmationEvidence) : Prop :=
  match policy with
  | Policy_None => True
  | Policy_HumanUser | Policy_PrivilegedReviewer => exists evidence, confirmation = Some evidence /\ is_human evidence = true
  | Policy_TwoPerson => exists evidence first second, confirmation = Some evidence /\ is_human evidence = true /\
      first <> second /\ {[ first; second ]} ⊆ approvers evidence
  end.

Lemma two_elements (X : gset string) :
  (2 <= size X)%nat <-> exists first second, first <> second /\ {[ first; second ]} ⊆ X.
Proof.
  split.
  - intros Hs. destruct (size_pos_elem_of X ltac:(lia)) as [first Hfirst].
    destruct (size_pos_elem_of (X ∖ {[ first ]})) as [second Hsecond].
    { rewrite size_difference, size_singleton by set_solver. lia. }
    exists first, second. set_solver.
  - intros (first & second & Hne & Hsub). apply subseteq_size in Hsub.
    rewrite size_union, !size_singleton in Hsub by set_solver. lia.
Qed.

Lemma decide_confirmation_allowed tool request :
  decide_confirmation tool request = Decision_Allowed <->
  confirmation_meets (tool_confirmation tool) (request_confirmation request).
Proof.
  unfold decide_confirmation, confirmation_meets. destruct (decide (tool_confirmation tool = Policy_None)) as [->|Hsome]; [done|].
  rewrite bool_decide_false by done. destruct (request_confirmation request) as [e|].
  2:{ destruct (tool_confirmation tool); try done; (split; [done|]); [by intros (? & [=] & _)..|].
      by intros (? & ? & ? & [=] & _). }
  destruct (is_human e) eqn:Hh; cbn [negb].
  2:{ split; [done|]. destruct (tool_confirmation tool); [done | by intros (? & [= <-] & ?); congruence..|].
      intros (? & ? & ? & [= <-] & ? & _). congruence. }
  destruct (decide (tool_confirmation tool = Policy_TwoPerson)) as [->|Hone].
  - rewrite bool_decide_true by done. cbn [andb]. unfold distinct_approvers.
    destruct (Nat.ltb_spec (size (approvers e)) 2) as [Hlt|Hge].
    + split; [done|]. intros (e' & first & second & [= <-] & _ & Hne & Hsub).
      assert (2 <= size (approvers e))%nat by (apply two_elements; eauto). lia.
    + split; [|done]. intros _. apply two_elements in Hge as (first & second & Hne & Hsub). by exists e, first, second.
  - rewrite bool_decide_false by done. cbn [andb]. split; [|done]. intros _.
    destruct (tool_confirmation tool); [done | by exists e.. | done].
Qed.

(** When a call is allowed. *)
Lemma authorize_allowed_iff registry name request :
  authorize registry name request = inl Decision_Allowed <->
  exists tool, registry !! name = Some tool /\
    (request_caller request = Caller_Model -> tool_exposure tool = ModelCallable) /\
    tool_required_permissions tool ⊆ request_permissions request /\
    confirmation_meets (tool_confirmation tool) (request_confirmation request).
Proof.
  unfold authorize. destruct (registry !! name) as [tool|]; [|split; [done | by intros (? & [=] & _)]].
  destruct (bool_decide (request_caller request = Caller_Model) && bool_decide (tool_exposure tool = ControlPlaneOnly)) eqn:Hc.
  { apply andb_true_iff in Hc as [Hc%bool_decide_eq_true He%bool_decide_eq_true].
    split; [done|]. intros (? & [= <-] & Hexp & _). rewrite Hexp in He; done. }
  assert (Hexp : request_caller request = Caller_Model -> tool_exposure tool = ModelCallable).
  { intros Hm. rewrite Hm in Hc. by destruct (tool_exposure tool). }
  clear Hc. case_bool_decide as Hmiss; cbn.
  - split.
    + intros [= Hd]. exists tool. split; [done|]. split; [done|]. split; [by apply empty_difference_subseteq_L|].
      by apply decide_confirmation_allowed.
    + intros (? & [= <-] & _ & _ & Hm). f_equal. by apply decide_confirmation_allowed.
  - split; [done|]. intros (? & [= <-] & _ & Hsub & _). exfalso. by apply Hmiss, subseteq_empty_difference_L.
Qed.

(** [C23] What an allowed tool call comes with, in every registry that registrations
    lead to: the caller holds every permission the tool requires; when the caller
    is the model, the tool does not change state; when the tool changes state, a
    person confirmed the call, and two different persons did when the tool asks
    for two. *)
Theorem agent_authorization_safe registry name request :
  registered registry -> authorize registry name request = inl Decision_Allowed ->
  exists tool, registry !! name = Some tool /\ tool_required_permissions tool ⊆ request_permissions request /\
    (request_caller request = Caller_Model -> mutates_state (tool_effect tool) = false) /\
    (mutates_state (tool_effect tool) = true ->
       exists evidence, request_confirmation request = Some evidence /\ is_human evidence = true) /\
    (tool_confirmation tool = Policy_TwoPerson ->
       exists evidence first second, request_confirmation request = Some evidence /\ first <> second /\
         {[ first; second ]} ⊆ approvers evidence).
Proof.
  intros Hr (tool & Hl & Hexp & Hperm & Hconf)%authorize_allowed_iff.
  destruct (registered_valid _ _ _ Hr Hl) as [_ Hv].
  exists tool. split; [done|]. split; [done|]. split; [|split].
  - intros Hm. destruct (mutates_state (tool_effect tool)) eqn:Hmut; [|done].
    destruct (valid_descriptor tool Hv Hmut) as [Hcp _]. rewrite Hexp in Hcp; done.
  - intros Hmut. destruct (valid_descriptor tool Hv Hmut) as [_ Hne].
    destruct (tool_confirmation tool); [done | exact Hconf..|]. destruct Hconf as (e & ? & ? & ? & ? & _). eauto.
  - intros Htwo. rewrite Htwo in Hconf. destruct Hconf as (e & first & second & ? & _ & ? & ?). by exists e, first, second.
Qed.

Lemma register_all_registered tools : forall registry registry',
  registered registry -> register_all registry tools = Ok registry' -> registered registry'.
Proof.
  induction tools as [|tool tools IH]; intros registry registry' Hr; cbn [register_all]; [by intros [= <-]|].
  destruct (register registry tool) as [r|] eqn:E; [|done]. apply IH. by eapply registered_step.
Qed.

(** The built-in registry is made without a panic. *)
Lemma velaedge_v2_total : exists registry, velaedge_v2 = Ok registry /\ registered registry /\ size registry = 16%nat.
Proof.
  assert (Hok : match velaedge_v2 with Ok registry => size registry = 16%nat | _ => False end) by (vm_compute; reflexivity).
  destruct velaedge_v2 as [registry|e|e] eqn:E; [|done..]. exists registry. split; [done|]. split; [|done].
  apply (register_all_registered default_tool_descriptors ∅); [constructor | exact E].
Qed.

(** ** Example *)

Definition dispatch_request : AgentAuthorizationRequest :=
  {| request_caller := Caller_ControlPlane; request_permissions := {[ CommandDispatch ]};
     request_confirmation := Some {| confirmed_by := " operator-7 "; co_approver := None; evidence_note := Some "checked";
                                     evidence_confirmed_at := 5 |} |}.

Lemma agent_authorization_safe_witness :
  exists registry, velaedge_v2 = Ok registry /\
  exists tool, registry !! "device.command.dispatch" = Some tool /\
    (mutates_state (tool_effect tool) = true ->
       exists evidence, request_confirmation dispatch_request = Some evidence /\ is_human evidence = true).
Proof.
  destruct velaedge_v2_total as (registry & Hv & Hr & _). exists registry. split; [exact Hv|].
  destruct (agent_authorization_safe registry "device.command.dispatch" dispatch_request) as (tool & Hl & _ & _ & Hm & _).
  - exact Hr.
  - assert (Hrun : match velaedge_v2 with Ok r => authorize r "device.command.dispatch" dispatch_request | _ => inr EmptyToolName end
      = inl Decision_Allowed) by (vm_compute; reflexivity).
    rewrite Hv in Hrun. exact Hrun.
  - exists tool. split; [exact Hl | exact Hm].
Defined.
