(* ===== verification/AgentReview.v ===== *)
(** The proposals of the operator assistant and their review,
    [crates/cloud-control/src/agent_v2.rs]: change sets of the configuration and
    candidates for device commands, with their life cycles.

    A method with [&mut self] is a function to the new state or an error; every
    error is returned before the first assignment, so it leaves the proposal as it
    was.  A life is a sequence of calls, [run_changes] and [run_candidate].

    [change_set_reviewed] and [candidate_starts_once] are about the two life cycles:
    nothing is applied or dispatched without a passed validation and, after it, a
    confirmation by a person.  [candidate_starts_once] says that a candidate is
    dispatched at most once in its life. *)

From Stdlib Require Import ZArith Lia.
From S2P Require Import Prelude RustStr Floats Json Model AgentTools.

Open Scope string_scope.
Open Scope Z_scope.

(** ** Validation reports *)

Inductive AgentValidationSeverity := Severity_Info | Severity_Warning | Severity_Error.

#[export] Instance AgentValidationSeverity_eq_dec : EqDecision AgentValidationSeverity.
Proof. solve_decision. Defined.

Record AgentValidationIssue := {
  issue_severity : AgentValidationSeverity;
  issue_code : string;
  issue_path : string;
  issue_message : string;
}.

Record AgentImpactSummary := {
  affected_resources : Z;
  affected_edges : gset string;
  requires_runtime_sync : bool;
  command_path_changed : bool;
  impact_notes : list string;
}.

Record AgentValidationReport := {
  report_valid : bool;
  report_checked_at : DateTime;
  report_issues : list AgentValidationIssue;
  report_impact : AgentImpactSummary;
}.

Definition new_validation_report (now : DateTime) (issues : list AgentValidationIssue) (impact : AgentImpactSummary)
    : AgentValidationReport :=
  {| report_valid := negb (existsb (fun issue => bool_decide (issue_severity issue = Severity_Error)) issues);
     report_checked_at := now; report_issues := issues; report_impact := impact |}.

(** [self.validation.as_ref().is_some_and(|report| report.valid)]. *)
Definition validation_passed (validation : option AgentValidationReport) : bool :=
  match validation with Some report => report_valid report | None => false end.

(** [note.as_deref().map(str::trim).unwrap_or_default().is_empty()]. *)
Definition note_missing (note : option string) : bool := is_blank (default "" note).

(** The check of [reject] on its actor: the prefixes are those of the untrimmed
    name. *)
Definition rejecting_actor (actor : string) : bool :=
  negb (is_blank actor) && negb (starts_with (str_bytes actor) (str_bytes "agent:")) &&
  negb (starts_with (str_bytes actor) (str_bytes "model:")).

(** ** Change sets *)

Inductive AgentResourceKind :=
| Resource_Project | Resource_Product | Resource_ProductVersion | Resource_PointSet | Resource_ProtocolConnection
| Resource_CollectionFlow | Resource_CommandFlow | Resource_MqttSink | Resource_EdgeBinding.

Inductive AgentChangeOperationKind := Change_Create | Change_Update | Change_Delete.

Record AgentChangeOperation := {
  change_id : string;
  change_kind : AgentChangeOperationKind;
  change_resource_kind : AgentResourceKind;
  change_resource_id : string;
  change_before : option Json;
  change_after : option Json;
  change_depends_on : list string;
}.

Definition new_operation (id : string) (kind : AgentChangeOperationKind) (resource_kind : AgentResourceKind)
    (resource_id : string) (before after : option Json) : AgentChangeOperation :=
  {| change_id := id; change_kind := kind; change_resource_kind := resource_kind; change_resource_id := resource_id;
     change_before := before; change_after := after; change_depends_on := [] |}.

Definition create_operation (id : string) (resource_kind : AgentResourceKind) (resource_id : string) (after : Json)
    : AgentChangeOperation := new_operation id Change_Create resource_kind resource_id None (Some after).

Definition update_operation (id : string) (resource_kind : AgentResourceKind) (resource_id : string) (before after : Json)
    : AgentChangeOperation := new_operation id Change_Update resource_kind resource_id (Some before) (Some after).

Definition delete_operation (id : string) (resource_kind : AgentResourceKind) (resource_id : string) (before : Json)
    : AgentChangeOperation := new_operation id Change_Delete resource_kind resource_id (Some before) None.

Inductive AgentChangeSetStatus :=
| Set_Draft | Set_AwaitingConfirmation | Set_Confirmed | Set_Applying | Set_Applied | Set_Rejected | Set_Failed.

#[export] Instance AgentChangeSetStatus_eq_dec : EqDecision AgentChangeSetStatus.
Proof. solve_decision. Defined.

Inductive AgentChangeSetError :=
| EmptyChangeSet
| InvalidOperation (operation : string)
| Set_ValidationRequired
| Set_HumanConfirmationRequired
| Set_ReviewNoteRequired
| Set_InvalidTransition (from : AgentChangeSetStatus) (action : string).

Definition has_value (v : option Json) : bool := match v with Some _ => true | None => false end.

Definition validate_shape (operation : AgentChangeOperation) : () + AgentChangeSetError :=
  let valid :=
    match change_kind operation with
    | Change_Create => negb (has_value (change_before operation)) && has_value (change_after operation)
    | Change_Update => has_value (change_before operation) && has_value (change_after operation)
    | Change_Delete => has_value (change_before operation) && negb (has_value (change_after operation))
    end in
  if negb valid || is_blank (change_resource_id operation) then inr (InvalidOperation (change_id operation)) else inl ().

Fixpoint validate_shapes (operations : list AgentChangeOperation) : () + AgentChangeSetError :=
  match operations with
  | [] => inl ()
  | operation :: operations =>
      match validate_shape operation with inr error => inr error | inl () => validate_shapes operations end
  end.

Record AgentChangeTarget := {
  change_project_id : string;
  change_product_id : option string;
  change_product_version : option string;
  change_edge_ids : gset string;
}.

Record AgentChangeSet := {
  set_id : string;
  set_title : string;
  set_rationale : string;
  set_target : AgentChangeTarget;
  set_base_revision : string;
  set_operations : list AgentChangeOperation;
  set_risk : AgentRiskLevel;
  set_status : AgentChangeSetStatus;
  set_validation : option AgentValidationReport;
  set_confirmation : option AgentConfirmationEvidence;
  set_created_by : string;
  set_created_at : DateTime;
  set_updated_at : DateTime;
  set_result : option Json;
}.

Definition new_change_set (id : string) (now : DateTime) (title rationale : string) (target : AgentChangeTarget)
    (base_revision : string) (operations : list AgentChangeOperation) (risk : AgentRiskLevel) (created_by : string)
    : AgentChangeSet + AgentChangeSetError :=
  if bool_decide (length operations = 0%nat) then inr EmptyChangeSet
  else
    match validate_shapes operations with
    | inr error => inr error
    | inl () =>
        inl {| set_id := id; set_title := title; set_rationale := rationale; set_target := target;
               set_base_revision := base_revision; set_operations := operations; set_risk := risk;
               set_status := Set_Draft; set_validation := None; set_confirmation := None; set_created_by := created_by;
               set_created_at := now; set_updated_at := now; set_result := None |}
    end.

(** The fields a transition assigns. *)
Definition change_to (change_set : AgentChangeSet) (status : AgentChangeSetStatus)
    (validation : option AgentValidationReport) (confirmation : option AgentConfirmationEvidence) (result : option Json)
    (now : DateTime) : AgentChangeSet :=
  {| set_id := set_id change_set; set_title := set_title change_set; set_rationale := set_rationale change_set;
     set_target := set_target change_set; set_base_revision := set_base_revision change_set;
     set_operations := set_operations change_set; set_risk := set_risk change_set; set_status := status;
     set_validation := validation; set_confirmation := confirmation; set_created_by := set_created_by change_set;
     set_created_at := set_created_at change_set; set_updated_at := now; set_result := result |}.

(** The statuses [record_validation] and [reject] refuse. *)
Definition set_is_closed (status : AgentChangeSetStatus) : bool :=
  match status with Set_Applying | Set_Applied | Set_Rejected | Set_Failed => true | _ => false end.

Definition record_validation (now : DateTime) (change_set : AgentChangeSet) (report : AgentValidationReport)
    : AgentChangeSet + AgentChangeSetError :=
  if set_is_closed (set_status change_set)
  then inr (Set_InvalidTransition (set_status change_set) "record_validation")
  else inl (change_to change_set (if report_valid report then Set_AwaitingConfirmation else Set_Draft)
              (Some report) None (set_result change_set) now).

Definition confirm (now : DateTime) (change_set : AgentChangeSet) (evidence : AgentConfirmationEvidence)
    : AgentChangeSet + AgentChangeSetError :=
  if negb (bool_decide (set_status change_set = Set_AwaitingConfirmation))
  then inr (Set_InvalidTransition (set_status change_set) "confirm")
  else if negb (validation_passed (set_validation change_set)) then inr Set_ValidationRequired
  else if negb (is_human evidence) then inr Set_HumanConfirmationRequired
  else if match set_risk change_set with Risk_High | Risk_Critical => true | _ => false end &&
          note_missing (evidence_note evidence)
  then inr Set_ReviewNoteRequired
  else inl (change_to change_set Set_Confirmed (set_validation change_set) (Some evidence) (set_result change_set) now).

Definition start_apply (now : DateTime) (change_set : AgentChangeSet) : AgentChangeSet + AgentChangeSetError :=
  if negb (bool_decide (set_status change_set = Set_Confirmed))
  then inr (Set_InvalidTransition (set_status change_set) "start_apply")
  else inl (change_to change_set Set_Applying (set_validation change_set) (set_confirmation change_set)
              (set_result change_set) now).

(** The document of a rejection; [rfc3339] prints a time. *)
Definition rejection (rfc3339 : DateTime -> string) (rejected_by note : string) (now : DateTime) : Json :=
  JObject [("rejectedBy", JString rejected_by); ("note", JString note); ("rejectedAt", JString (rfc3339 now))].

Definition reject (rfc3339 : DateTime -> string) (now : DateTime) (change_set : AgentChangeSet) (rejected_by note : string)
    : AgentChangeSet + AgentChangeSetError :=
  if set_is_closed (set_status change_set) then inr (Set_InvalidTransition (set_status change_set) "reject")
  else if negb (rejecting_actor rejected_by) then inr Set_HumanConfirmationRequired
  else if is_blank note then inr Set_ReviewNoteRequired
  else inl (change_to change_set Set_Rejected (set_validation change_set) None
              (Some (rejection rfc3339 rejected_by note now)) now).

Definition finish_apply (now : DateTime) (change_set : AgentChangeSet) (status : AgentChangeSetStatus) (result : Json)
    : AgentChangeSet + AgentChangeSetError :=
  if negb (bool_decide (set_status change_set = Set_Applying))
  then inr (Set_InvalidTransition (set_status change_set) "finish_apply")
  else inl (change_to change_set status (set_validation change_set) (set_confirmation change_set) (Some result) now).

Definition mark_applied (now : DateTime) (change_set : AgentChangeSet) (result : Json)
    : AgentChangeSet + AgentChangeSetError := finish_apply now change_set Set_Applied result.

Definition mark_failed (now : DateTime) (change_set : AgentChangeSet) (result : Json)
    : AgentChangeSet + AgentChangeSetError := finish_apply now change_set Set_Failed result.

(** ** Command candidates *)

Record AgentCommandTarget := {
  cmd_project_id : string;
  cmd_edge_id : string;
  cmd_product_id : option string;
  cmd_product_version : option string;
  cmd_flow_id : string;
  cmd_protocol_connection_id : string;
  cmd_device_id : string;
  cmd_point_id : string;
}.

Inductive AgentCommandCandidateStatus :=
| Cmd_Draft | Cmd_AwaitingConfirmation | Cmd_Confirmed | Cmd_Dispatching | Cmd_Dispatched | Cmd_Rejected | Cmd_Failed.

#[export] Instance AgentCommandCandidateStatus_eq_dec : EqDecision AgentCommandCandidateStatus.
Proof. solve_decision. Defined.

Inductive AgentCommandCandidateError :=
| MissingTargetField (field : string)
| IdempotencyKeyRequired
| Cmd_ValidationRequired
| Cmd_HumanConfirmationRequired
| Cmd_ReviewNoteRequired
| TwoPersonConfirmationRequired
| Cmd_InvalidTransition (from : AgentCommandCandidateStatus) (action : string).

(** The first required field that is blank. *)
Definition validate_target (target : AgentCommandTarget) : () + AgentCommandCandidateError :=
  match find_first (fun field => is_blank (snd field))
          [("projectId", cmd_project_id target); ("edgeId", cmd_edge_id target); ("flowId", cmd_flow_id target);
           ("protocolConnectionId", cmd_protocol_connection_id target); ("deviceId", cmd_device_id target);
           ("pointId", cmd_point_id target)] with
  | Some (field, _) => inr (MissingTargetField field)
  | None => inl ()
  end.

Record AgentCommandCandidate := {
  candidate_id : string;
  candidate_title : string;
  candidate_rationale : string;
  candidate_target : AgentCommandTarget;
  candidate_value : Json;
  candidate_idempotency_key : string;
  candidate_risk : AgentRiskLevel;
  candidate_status : AgentCommandCandidateStatus;
  candidate_validation : option AgentValidationReport;
  candidate_confirmation : option AgentConfirmationEvidence;
  candidate_created_by : string;
  candidate_created_at : DateTime;
  candidate_updated_at : DateTime;
  candidate_result : option Json;
}.

Definition new_candidate (id : string) (now : DateTime) (title rationale : string) (target : AgentCommandTarget)
    (value : Json) (idempotency_key : string) (risk : AgentRiskLevel) (created_by : string)
    : AgentCommandCandidate + AgentCommandCandidateError :=
  match validate_target target with
  | inr error => inr error
  | inl () =>
      if is_blank idempotency_key then inr IdempotencyKeyRequired
      else inl {| candidate_id := id; candidate_title := title; candidate_rationale := rationale;
                  candidate_target := target; candidate_value := value; candidate_idempotency_key := idempotency_key;
                  candidate_risk := risk; candidate_status := Cmd_Draft; candidate_validation := None;
                  candidate_confirmation := None; candidate_created_by := created_by; candidate_created_at := now;
                  candidate_updated_at := now; candidate_result := None |}
  end.

(** The fields a transition assigns. *)
Definition candidate_to (candidate : AgentCommandCandidate) (status : AgentCommandCandidateStatus)
    (validation : option AgentValidationReport) (confirmation : option AgentConfirmationEvidence) (result : option Json)
    (now : DateTime) : AgentCommandCandidate :=
  {| candidate_id := candidate_id candidate; candidate_title := candidate_title candidate;
     candidate_rationale := candidate_rationale candidate; candidate_target := candidate_target candidate;
     candidate_value := candidate_value candidate; candidate_idempotency_key := candidate_idempotency_key candidate;
     candidate_risk := candidate_risk candidate; candidate_status := status; candidate_validation := validation;
     candidate_confirmation := confirmation; candidate_created_by := candidate_created_by candidate;
     candidate_created_at := candidate_created_at candidate; candidate_updated_at := now; candidate_result := result |}.

(** The statuses [record_validation] and [reject] refuse. *)
Definition candidate_is_closed (status : AgentCommandCandidateStatus) : bool :=
  match status with Cmd_Dispatching | Cmd_Dispatched | Cmd_Rejected | Cmd_Failed => true | _ => false end.

Definition candidate_record_validation (now : DateTime) (candidate : AgentCommandCandidate) (report : AgentValidationReport)
    : AgentCommandCandidate + AgentCommandCandidateError :=
  if candidate_is_closed (candidate_status candidate)
  then inr (Cmd_InvalidTransition (candidate_status candidate) "record_validation")
  else inl (candidate_to candidate (if report_valid report then Cmd_AwaitingConfirmation else Cmd_Draft)
              (Some report) None (candidate_result candidate) now).

Definition candidate_confirm (now : DateTime) (candidate : AgentCommandCandidate) (evidence : AgentConfirmationEvidence)
    : AgentCommandCandidate + AgentCommandCandidateError :=
  if negb (bool_decide (candidate_status candidate = Cmd_AwaitingConfirmation))
  then inr (Cmd_InvalidTransition (candidate_status candidate) "confirm")
  else if negb (validation_passed (candidate_validation candidate)) then inr Cmd_ValidationRequired
  else if negb (is_human evidence) then inr Cmd_HumanConfirmationRequired
  else if note_missing (evidence_note evidence) then inr Cmd_ReviewNoteRequired
  else if bool_decide (candidate_risk candidate = Risk_Critical) && (Nat.ltb (distinct_approvers evidence) 2)
  then inr TwoPersonConfirmationRequired
  else inl (candidate_to candidate Cmd_Confirmed (candidate_validation candidate) (Some evidence)
              (candidate_result candidate) now).

Definition candidate_reject (rfc3339 : DateTime -> string) (now : DateTime) (candidate : AgentCommandCandidate)
    (rejected_by note : string) : AgentCommandCandidate + AgentCommandCandidateError :=
  if candidate_is_closed (candidate_status candidate)
  then inr (Cmd_InvalidTransition (candidate_status candidate) "reject")
  else if negb (rejecting_actor rejected_by) then inr Cmd_HumanConfirmationRequired
  else if is_blank note then inr Cmd_ReviewNoteRequired
  else inl (candidate_to candidate Cmd_Rejected (candidate_validation candidate) None
              (Some (rejection rfc3339 rejected_by note now)) now).

Definition start_dispatch (now : DateTime) (candidate : AgentCommandCandidate)
    : AgentCommandCandidate + AgentCommandCandidateError :=
  if negb (bool_decide (candidate_status candidate = Cmd_Confirmed))
  then inr (Cmd_InvalidTransition (candidate_status candidate) "start_dispatch")
  else inl (candidate_to candidate Cmd_Dispatching (candidate_validation candidate) (candidate_confirmation candidate)
              (candidate_result candidate) now).

Definition finish_dispatch (now : DateTime) (candidate : AgentCommandCandidate) (status : AgentCommandCandidateStatus)
    (result : Json) : AgentCommandCandidate + AgentCommandCandidateError :=
  if negb (bool_decide (candidate_status candidate = Cmd_Dispatching))
  then inr (Cmd_InvalidTransition (candidate_status candidate) "finish_dispatch")
  else inl (candidate_to candidate status (candidate_validation candidate) (candidate_confirmation candidate)
              (Some result) now).

Definition mark_dispatched (now : DateTime) (candidate : AgentCommandCandidate) (result : Json)
    : AgentCommandCandidate + AgentCommandCandidateError := finish_dispatch now candidate Cmd_Dispatched result.

Definition candidate_mark_failed (now : DateTime) (candidate : AgentCommandCandidate) (result : Json)
    : AgentCommandCandidate + AgentCommandCandidateError := finish_dispatch now candidate Cmd_Failed result.

(** ** The life cycle of a change set *)

Section life_cycles.
Context (rfc3339 : DateTime -> string).

Inductive ChangeCall :=
| Change_validate (now : DateTime) (report : AgentValidationReport)
| Change_confirm (now : DateTime) (evidence : AgentConfirmationEvidence)
| Change_start (now : DateTime)
| Change_reject (now : DateTime) (actor note : string)
| Change_applied (now : DateTime) (result : Json)
| Change_failed (now : DateTime) (result : Json).

Definition change_call (s : AgentChangeSet) (call : ChangeCall) : AgentChangeSet + AgentChangeSetError :=
  match call with
  | Change_validate now report => record_validation now s report
  | Change_confirm now evidence => confirm now s evidence
  | Change_start now => start_apply now s
  | Change_reject now actor note => reject rfc3339 now s actor note
  | Change_applied now result => mark_applied now s result
  | Change_failed now result => mark_failed now s result
  end.

(** The calls on a change set, one after the other, and those that succeeded; a call
    that fails leaves the change set as it was. *)
Definition after_call (state : AgentChangeSet * list ChangeCall) (call : ChangeCall) : AgentChangeSet * list ChangeCall :=
  let '(s, succeeded) := state in
  match change_call s call with inl s' => (s', (succeeded ++ [call])%list) | inr _ => (s, succeeded) end.

Definition run_changes (s : AgentChangeSet) (calls : list ChangeCall) : AgentChangeSet * list ChangeCall :=
  foldl after_call (s, []) calls.

(** A confirmation that a person gave, with a note when the risk asks for it. *)
Definition change_confirmed_by (risk : AgentRiskLevel) (evidence : AgentConfirmationEvidence) : Prop :=
  is_human evidence = true /\ (risk = Risk_High \/ risk = Risk_Critical -> note_missing (evidence_note evidence) = false).

(** The successful calls, by the status they lead to: the last validation passed, and
    what came after it is the confirmation, the start and the outcome. *)
Definition change_history (risk : AgentRiskLevel) (s : AgentChangeSet) (succeeded : list ChangeCall) : Prop :=
  match set_status s with
  | Set_Draft | Set_Rejected => True
  | Set_AwaitingConfirmation => exists before t report,
      succeeded = (before ++ [Change_validate t report])%list /\ report_valid report = true /\ set_validation s = Some report
  | Set_Confirmed => exists before t report t' evidence,
      succeeded = (before ++ [Change_validate t report; Change_confirm t' evidence])%list /\ report_valid report = true /\
      set_validation s = Some report /\ set_confirmation s = Some evidence /\ change_confirmed_by risk evidence
  | Set_Applying | Set_Applied | Set_Failed => exists before t report t' evidence t'' outcome,
      succeeded = (before ++ [Change_validate t report; Change_confirm t' evidence; Change_start t''] ++ outcome)%list /\
      report_valid report = true /\ set_validation s = Some report /\ set_confirmation s = Some evidence /\
      change_confirmed_by risk evidence /\
      match set_status s with
      | Set_Applied => exists at_time result, outcome = [Change_applied at_time result]
      | Set_Failed => exists at_time result, outcome = [Change_failed at_time result]
      | _ => outcome = []
      end
  end.

Definition change_fixed (target : AgentChangeTarget) (revision : string) (operations : list AgentChangeOperation)
    (risk : AgentRiskLevel) (s : AgentChangeSet) : Prop :=
  set_target s = target /\ set_base_revision s = revision /\ set_operations s = operations /\ set_risk s = risk.

Lemma validate_shapes_Ok operations :
  validate_shapes operations = inl () -> Forall (fun operation => validate_shape operation = inl ()) operations.
Proof using.
  induction operations as [|operation operations IH]; [done|]. cbn [validate_shapes].
  destruct (validate_shape operation) as [[]|] eqn:E; [|done]. intros H. constructor; [done | by apply IH].
Qed.

Lemma new_change_ok id now title rationale target revision operations risk creator s :
  new_change_set id now title rationale target revision operations risk creator = inl s ->
  operations <> [] /\ Forall (fun operation => validate_shape operation = inl ()) operations /\ set_status s = Set_Draft /\
  change_fixed target revision operations risk s.
Proof using.
  unfold new_change_set. case_bool_decide as Hlen; [done|].
  destruct (validate_shapes operations) as [[]|] eqn:E; [|done]. intros [= <-].
  split; [by intros Hnil; rewrite Hnil in Hlen|]. split; [by apply validate_shapes_Ok | done].
Qed.

Lemma change_call_fixed target revision operations risk s call s' :
  change_fixed target revision operations risk s -> change_call s call = inl s' -> change_fixed target revision operations risk s'.
Proof using.
  intros Hf. destruct call; cbn; unfold record_validation, confirm, start_apply, reject, mark_applied, mark_failed, finish_apply;
    repeat case_match; try done; by intros [= <-].
Qed.

Lemma finish_history now s status result s' risk succeeded call :
  (status = Set_Applied /\ call = Change_applied now result \/ status = Set_Failed /\ call = Change_failed now result) ->
  change_history risk s succeeded -> finish_apply now s status result = inl s' ->
  change_history risk s' (succeeded ++ [call])%list.
Proof using.
  intros Hst Hh. unfold finish_apply. case_bool_decide as E; [|done]. intros [= <-]. unfold change_history in Hh. rewrite E in Hh.
  destruct Hh as (before & t & report & t' & evidence & t'' & outcome & -> & Hv & Hs & Hc & Hby & ->).
  unfold change_history. destruct Hst as [[-> ->]|[-> ->]]; cbn; exists before, t, report, t', evidence, t'';
    [exists [Change_applied now result] | exists [Change_failed now result]];
    (split; [by rewrite <- !app_assoc|]); by eauto 10.
Qed.

Lemma change_call_history risk s call s' succeeded :
  set_risk s = risk -> change_history risk s succeeded -> change_call s call = inl s' ->
  change_history risk s' (succeeded ++ [call])%list.
Proof using.
  intros Hr Hh. destruct call as [now report|now evidence|now|now actor note|now result|now result]; cbn [change_call].
  - unfold record_validation. destruct (set_is_closed _); [done|]. intros [= <-]. unfold change_history. cbn.
    destruct (report_valid report) eqn:Hv; [|done]. by exists succeeded, now, report.
  - unfold confirm. case_bool_decide as E; [|done]. cbn [negb]. unfold change_history in Hh. rewrite E in Hh.
    destruct Hh as (before & t & report & -> & Hv & Hs). rewrite Hs. cbn [validation_passed]. rewrite Hv. cbn [negb].
    destruct (is_human evidence) eqn:Hh; [|done]. cbn [negb].
    destruct (match set_risk s with Risk_High | Risk_Critical => true | _ => false end && _) eqn:Hn; [done|].
    intros [= <-]. unfold change_history. cbn. exists before, t, report, now, evidence.
    split; [by rewrite <- app_assoc|]. split; [done|]. split; [done|]. split; [done|]. split; [done|].
    rewrite <- Hr. intros Hrisk. apply andb_false_iff in Hn as [Hn|Hn]; [|done]. by destruct Hrisk as [Hk|Hk]; rewrite Hk in Hn.
  - unfold start_apply. case_bool_decide as E; [|done]. intros [= <-]. unfold change_history in Hh. rewrite E in Hh.
    destruct Hh as (before & t & report & t' & evidence & -> & Hv & Hs & Hc & Hby). unfold change_history. cbn.
    exists before, t, report, t', evidence, now, []. split; [by rewrite <- app_assoc|]. done.
  - unfold reject. repeat case_match; try done. by intros [= <-].
  - intros H. eapply finish_history; [by left | exact Hh | exact H].
  - intros H. eapply finish_history; [by right | exact Hh | exact H].
Qed.

Lemma run_changes_history target revision operations risk s calls :
  change_fixed target revision operations risk s -> set_status s = Set_Draft ->
  change_fixed target revision operations risk (fst (run_changes s calls)) /\
  change_history risk (fst (run_changes s calls)) (snd (run_changes s calls)).
Proof using.
  intros Hf Hd. unfold run_changes. induction calls as [|call calls IH] using rev_ind.
  - split; [done|]. unfold change_history. cbn. by rewrite Hd.
  - rewrite foldl_app. cbn [foldl]. destruct (foldl after_call (s, []) calls) as [s1 succeeded]. cbn [fst snd] in IH.
    destruct IH as [Hf1 Hh1]. unfold after_call. destruct (change_call s1 call) as [s2|] eqn:E; cbn [fst snd]; [|done].
    split; [by eapply change_call_fixed|]. destruct Hf1 as (_ & _ & _ & Hr1). by eapply change_call_history.
Qed.

(** ** The life cycle of a command candidate *)

Inductive CandidateCall :=
| Call_validate (now : DateTime) (report : AgentValidationReport)
| Call_confirm (now : DateTime) (evidence : AgentConfirmationEvidence)
| Call_reject (now : DateTime) (actor note : string)
| Call_start (now : DateTime)
| Call_dispatched (now : DateTime) (result : Json)
| Call_failed (now : DateTime) (result : Json).

Definition candidate_call (candidate : AgentCommandCandidate) (call : CandidateCall)
    : AgentCommandCandidate + AgentCommandCandidateError :=
  match call with
  | Call_validate now report => candidate_record_validation now candidate report
  | Call_confirm now evidence => candidate_confirm now candidate evidence
  | Call_reject now actor note => candidate_reject rfc3339 now candidate actor note
  | Call_start now => start_dispatch now candidate
  | Call_dispatched now result => mark_dispatched now candidate result
  | Call_failed now result => candidate_mark_failed now candidate result
  end.

Definition is_start (call : CandidateCall) : bool := match call with Call_start _ => true | _ => false end.

(** The calls on a candidate, one after the other, and how many of them started a
    dispatch; a call that fails leaves the candidate as it was. *)
Fixpoint run_candidate (candidate : AgentCommandCandidate) (calls : list CandidateCall) : AgentCommandCandidate * nat :=
  match calls with
  | [] => (candidate, 0%nat)
  | call :: calls =>
      match candidate_call candidate call with
      | inr _ => run_candidate candidate calls
      | inl candidate =>
          let '(candidate, starts) := run_candidate candidate calls in
          (candidate, if is_start call then S starts else starts)
      end
  end.

(** A confirmation a dispatch relies on. *)
Definition candidate_confirmed (c : AgentCommandCandidate) : Prop :=
  validation_passed (candidate_validation c) = true /\
  exists evidence, candidate_confirmation c = Some evidence /\ is_human evidence = true /\
    note_missing (evidence_note evidence) = false /\
    (candidate_risk c = Risk_Critical ->
       exists first second, first <> second /\ {[ first; second ]} ⊆ approvers evidence).

Definition candidate_ok (c : AgentCommandCandidate) : Prop :=
  match candidate_status c with
  | Cmd_Draft | Cmd_AwaitingConfirmation | Cmd_Rejected => candidate_confirmation c = None
  | Cmd_Confirmed | Cmd_Dispatching | Cmd_Dispatched | Cmd_Failed => candidate_confirmed c
  end.

(** A dispatch was started. *)
Definition started (status : AgentCommandCandidateStatus) : bool :=
  match status with Cmd_Dispatching | Cmd_Dispatched | Cmd_Failed => true | _ => false end.

(** What a call keeps. *)
Definition same_command (c c' : AgentCommandCandidate) : Prop :=
  candidate_id c' = candidate_id c /\ candidate_target c' = candidate_target c /\
  candidate_value c' = candidate_value c /\ candidate_idempotency_key c' = candidate_idempotency_key c /\
  candidate_risk c' = candidate_risk c.

Lemma candidate_confirm_ok now c evidence c' : candidate_confirm now c evidence = inl c' -> candidate_ok c'.
Proof using.
  unfold candidate_confirm. case_bool_decide; [|done]. cbn [negb].
  destruct (validation_passed (candidate_validation c)) eqn:Hv; [|done].
  destruct (is_human evidence) eqn:Hh; [|done]. cbn [negb]. destruct (note_missing _) eqn:Hn; [done|].
  destruct (bool_decide (candidate_risk c = Risk_Critical) && _) eqn:Hr; [done|]. intros [= <-].
  split; [done|]. exists evidence. split; [done|]. split; [done|]. split; [done|]. cbn. intros Hcrit.
  rewrite bool_decide_true, andb_true_l in Hr by done. apply Nat.ltb_ge in Hr. by apply two_elements.
Qed.

Lemma finish_dispatch_ok now c status result c' :
  (status = Cmd_Dispatched \/ status = Cmd_Failed) -> candidate_ok c -> finish_dispatch now c status result = inl c' ->
  candidate_ok c' /\ same_command c c' /\ started (candidate_status c) = true /\ started (candidate_status c') = true.
Proof using.
  intros Hst Hc. unfold finish_dispatch. case_bool_decide as E; [|done]. intros [= <-].
  unfold candidate_ok in *. rewrite E in *. by destruct Hst as [-> | ->].
Qed.

(** Every call keeps the invariant and the command, and a dispatch starts only
    from a status in which none was. *)
Lemma candidate_call_ok c call c' :
  candidate_ok c -> candidate_call c call = inl c' ->
  candidate_ok c' /\ same_command c c' /\
  (if is_start call then started (candidate_status c) = false /\ started (candidate_status c') = true
   else started (candidate_status c') = started (candidate_status c)).
Proof using.
  intros Hc. destruct call as [now report|now evidence|now actor note|now|now result|now result]; cbn [candidate_call is_start].
  - unfold candidate_record_validation. destruct (candidate_status c) eqn:E; try done; intros [= <-];
      unfold candidate_ok; cbn; by destruct (report_valid report).
  - intros H. pose proof (candidate_confirm_ok _ _ _ _ H) as Hok. split; [done|].
    unfold candidate_confirm in H. case_bool_decide as E; [|done]. repeat case_match; try done. injection H as <-.
    by rewrite E.
  - unfold candidate_reject. destruct (candidate_status c) eqn:E; try done; cbn [candidate_is_closed];
      (destruct (negb (rejecting_actor actor)); [done|]); (destruct (is_blank note); [done|]); by intros [= <-].
  - unfold start_dispatch. case_bool_decide as E; [|done]. intros [= <-]. unfold candidate_ok in *. by rewrite E in *.
  - intros H. eapply finish_dispatch_ok in H as (? & ? & -> & ->); [done | by left | done].
  - intros H. eapply finish_dispatch_ok in H as (? & ? & -> & ->); [done | by right | done].
Qed.

Lemma same_command_trans a b c : same_command a b -> same_command b c -> same_command a c.
Proof using. unfold same_command. intros (? & ? & ? & ? & ?) (? & ? & ? & ? & ?). split_and!; congruence. Qed.

Lemma run_candidate_ok calls : forall c c' starts,
  candidate_ok c -> run_candidate c calls = (c', starts) ->
  candidate_ok c' /\ same_command c c' /\ (started (candidate_status c) = true -> started (candidate_status c') = true) /\
  starts = (if started (candidate_status c) then 0 else if started (candidate_status c') then 1 else 0)%nat.
Proof using.
  induction calls as [|call calls IH]; intros c c' starts Hc; cbn [run_candidate].
  - intros [= <- <-]. split; [done|]. split; [done|]. split; [done|]. by destruct (started _).
  - destruct (candidate_call c call) as [c1|] eqn:Hcall; [|by apply IH].
    destruct (candidate_call_ok _ _ _ Hc Hcall) as (Hc1 & Hsame & Hst).
    destruct (run_candidate c1 calls) as [c2 n] eqn:Hrun. intros [= <- <-].
    destruct (IH _ _ _ Hc1 Hrun) as (Hc2 & Hsame2 & Hmono & ->). split; [done|].
    split; [by eapply same_command_trans|]. destruct (is_start call).
    + destruct Hst as [-> Hs1]. split; [done|]. by rewrite Hs1, (Hmono Hs1).
    + rewrite <- Hst. done.
Qed.
End life_cycles.

Lemma new_candidate_ok id now title rationale target value key risk creator c :
  new_candidate id now title rationale target value key risk creator = inl c ->
  candidate_ok c /\ candidate_status c = Cmd_Draft /\ candidate_target c = target /\ candidate_value c = value /\
  candidate_idempotency_key c = key /\ candidate_risk c = risk.
Proof.
  unfold new_candidate. destruct (validate_target target) as [[]|]; [|done]. destruct (is_blank key); [done|].
  by intros [= <-].
Qed.

(** [C24] A change set is reviewed before it is applied, whatever methods are called
    on it in whatever order.  When it is being applied, was applied or failed to be,
    the calls that succeeded end with a validation that passed, the confirmation of a
    person, with a note when the risk is high or critical, and the start; after the
    start came at most the outcome.  So a validation that is recorded after a
    confirmation takes the confirmation back.  What is applied are the operations the
    set was made with, at least one, each with the before and after values of its
    kind. *)
Theorem change_set_reviewed rfc3339 id now title rationale target revision operations risk creator s calls s' succeeded :
  new_change_set id now title rationale target revision operations risk creator = inl s ->
  run_changes rfc3339 s calls = (s', succeeded) ->
  set_status s' = Set_Applying \/ set_status s' = Set_Applied \/ set_status s' = Set_Failed ->
  (exists before t report t' evidence t'' outcome,
     succeeded = (before ++ [Change_validate t report; Change_confirm t' evidence; Change_start t''] ++ outcome)%list /\
     report_valid report = true /\ set_validation s' = Some report /\ set_confirmation s' = Some evidence /\
     is_human evidence = true /\
     (risk = Risk_High \/ risk = Risk_Critical -> note_missing (evidence_note evidence) = false) /\
     match set_status s' with
     | Set_Applied => exists at_time result, outcome = [Change_applied at_time result]
     | Set_Failed => exists at_time result, outcome = [Change_failed at_time result]
     | _ => outcome = []
     end) /\
  set_target s' = target /\ set_base_revision s' = revision /\
  set_operations s' = operations /\ operations <> [] /\ Forall (fun operation => validate_shape operation = inl ()) operations.
Proof.
  intros (Hne & Hshape & Hdraft & Hf)%new_change_ok Hrun Hst.
  destruct (run_changes_history rfc3339 target revision operations risk s calls Hf Hdraft) as [(Ht & Hb & Ho & _) Hh].
  rewrite Hrun in *. cbn [fst snd] in *. split; [|done]. unfold change_history, change_confirmed_by in Hh.
  destruct Hst as [Hst|[Hst|Hst]]; rewrite Hst in *;
    destruct Hh as (before & t & report & t' & evidence & t'' & outcome & Hh); exists before, t, report, t', evidence, t'', outcome; tauto.
Qed.

(** [C9] A device command the assistant proposes starts at most once and only after
    its review: whatever methods are called on a new candidate, in whatever order,
    at most one call starts a dispatch; when one did, the last validation passed
    and a person confirmed it with a note, two different persons when the risk is
    critical, and the target, the value and the idempotency key are still those the
    candidate was made with. *)
Theorem candidate_starts_once rfc3339 id now title rationale target value key risk creator c calls c' starts :
  new_candidate id now title rationale target value key risk creator = inl c ->
  run_candidate rfc3339 c calls = (c', starts) ->
  (starts <= 1)%nat /\
  (starts = 1%nat ->
     validation_passed (candidate_validation c') = true /\
     (exists evidence, candidate_confirmation c' = Some evidence /\ is_human evidence = true /\
        note_missing (evidence_note evidence) = false /\
        (risk = Risk_Critical -> exists first second, first <> second /\ {[ first; second ]} ⊆ approvers evidence)) /\
     candidate_target c' = target /\ candidate_value c' = value /\ candidate_idempotency_key c' = key).
Proof.
  intros (Hok & Hst & <- & <- & <- & <-)%new_candidate_ok Hrun.
  destruct (run_candidate_ok _ _ _ _ _ Hok Hrun) as (Hok' & (_ & Ht & Hv & Hk & Hr) & _ & ->). rewrite Hst. cbn [started].
  destruct (started (candidate_status c')) eqn:E; [|split; [lia | done]]. split; [lia|]. intros _.
  assert (Hconf : candidate_confirmed c') by (unfold candidate_ok in Hok'; by destruct (candidate_status c')).
  destruct Hconf as (Hpass & evidence & Hev & Hhum & Hnote & Htwo). split; [done|]. split; [|done].
  exists evidence. rewrite <- Hr. done.
Qed.

(** A rejection by an agent whose name starts with a space is accepted: [reject]
    looks for the prefixes in the untrimmed name, [is_human] in the trimmed one. *)
Example padded_agent_rejects :
  rejecting_actor " agent:planner" = true /\ human_actor (str_trim " agent:planner") = false.
Proof. vm_compute. split; reflexivity. Qed.

(** ** Example *)

Definition passing_report : AgentValidationReport :=
  new_validation_report 1 [] {| affected_resources := 1; affected_edges := {[ "edge-1" ]}; requires_runtime_sync := false;
                                command_path_changed := true; impact_notes := [] |}.

Definition shift_evidence : AgentConfirmationEvidence :=
  {| confirmed_by := "ines"; co_approver := Some "omar"; evidence_note := Some "valve checked"; evidence_confirmed_at := 3 |}.

Definition valve_target : AgentCommandTarget :=
  {| cmd_project_id := "plant"; cmd_edge_id := "edge-1"; cmd_product_id := None; cmd_product_version := None;
     cmd_flow_id := "write"; cmd_protocol_connection_id := "plc"; cmd_device_id := "valve"; cmd_point_id := "position" |}.

Definition valve_candidate : AgentCommandCandidate :=
  match new_candidate "c-1" 0 "close" "leak" valve_target (JInt 0) "key-1" Risk_Critical "agent:planner" with
  | inl c => c
  | inr _ => {| candidate_id := ""; candidate_title := ""; candidate_rationale := ""; candidate_target := valve_target;
                candidate_value := JNull; candidate_idempotency_key := ""; candidate_risk := Risk_Low;
                candidate_status := Cmd_Failed; candidate_validation := None; candidate_confirmation := None;
                candidate_created_by := ""; candidate_created_at := 0; candidate_updated_at := 0; candidate_result := None |}
  end.

Definition valve_calls : list CandidateCall :=
  [Call_start 1; Call_validate 2 passing_report; Call_confirm 3 shift_evidence; Call_start 4; Call_start 5;
   Call_dispatched 6 JNull; Call_validate 7 passing_report; Call_start 8].

Lemma candidate_starts_once_witness :
  snd (run_candidate (fun _ => "") valve_candidate valve_calls) = 1%nat /\
  validation_passed (candidate_validation (fst (run_candidate (fun _ => "") valve_candidate valve_calls))) = true.
Proof.
  split; [vm_compute; reflexivity|].
  apply (candidate_starts_once (fun _ => "") "c-1" 0 "close" "leak" valve_target (JInt 0) "key-1" Risk_Critical
    "agent:planner" valve_candidate valve_calls _ (snd (run_candidate (fun _ => "") valve_candidate valve_calls))).
  - vm_compute. reflexivity.
  - apply surjective_pairing.
  - vm_compute. reflexivity.
Defined.

Definition sensor_operations : list AgentChangeOperation := [create_operation "o-1" Resource_PointSet "temperatures" JNull].

Definition plant_target : AgentChangeTarget :=
  {| change_project_id := "plant"; change_product_id := None; change_product_version := None; change_edge_ids := ∅ |}.

(** A validation after the confirmation takes it back: the first start is refused. *)
Definition sensor_calls : list ChangeCall :=
  [Change_validate 1 passing_report; Change_confirm 2 shift_evidence; Change_validate 3 passing_report; Change_start 4;
   Change_confirm 5 shift_evidence; Change_start 6; Change_applied 7 JNull].

Lemma change_set_reviewed_witness :
  match new_change_set "s-1" 0 "add" "new sensor" plant_target "r1" sensor_operations Risk_High "agent:planner" with
  | inl s =>
      let '(s', succeeded) := run_changes (fun _ => "") s sensor_calls in
      set_status s' = Set_Applied /\ length succeeded = 6%nat /\ set_operations s' = sensor_operations
  | inr _ => False
  end.
Proof.
  destruct (new_change_set "s-1" 0 "add" "new sensor" plant_target "r1" sensor_operations Risk_High "agent:planner") as [s|e] eqn:E;
    [|vm_compute in E; discriminate E].
  destruct (run_changes (fun _ => "") s sensor_calls) as [s' succeeded] eqn:R.
  assert (Hs : set_status s' = Set_Applied /\ length succeeded = 6%nat).
  { vm_compute in E. injection E as <-. vm_compute in R. injection R as <- <-. split; reflexivity. }
  split; [exact (proj1 Hs)|]. split; [exact (proj2 Hs)|].
  destruct (change_set_reviewed (fun _ => "") "s-1" 0 "add" "new sensor" plant_target "r1" sensor_operations Risk_High
    "agent:planner" s sensor_calls s' succeeded E R (or_intror (or_introl (proj1 Hs)))) as (_ & _ & _ & Ho & _).
  exact Ho.
Defined.
