(* ===== verification/CloudStore.v ===== *)
(** The state of the control plane, [crates/cloud-control/src]: the fleet
    ([fleet.rs], [credential.rs]), the catalogue ([catalog.rs]), the releases
    ([release.rs]), the audit ([audit.rs]), the records of the assistant and the
    store that holds them ([store.rs]).

    A [BTreeMap] is a [gmap]; its values are visited in the order of the keys,
    [sorted_values].  A [Uuid] is its text.  The tables of the store are grouped in
    three records.

    [removed_edge_leaves_nothing] and [removed_project_leaves_nothing] say what the
    cascading removals leave, [rotated_credential_is_active] that rotating the
    token of an edge retires the old one, and [create_release_spec] and
    [mark_reported_spec] what a release goes through. *)

From Stdlib Require Import ZArith Lia.
From S2P Require Import Prelude RustStr Floats Json Model BTree ConfigTypes CircuitBreaker Algorithm RuntimeState.
From S2P Require Import ConfigValidation AgentTools AgentReview.

Open Scope string_scope.
Open Scope Z_scope.

Abbreviation Uuid := string (only parsing).

(** ** Reports of a runtime *)

Inductive EdgeHealth := Healthy | Degraded | Health_Critical | Health_Offline.

Record SystemRuntimeMetrics := {
  cpu_percent : f64;
  memory_percent : f64;
  disk_percent : f64;
  process_uptime_seconds : Z;
}.

Record CollectionRuntimeMetrics := {
  active_task_count : Z;
  success_rate : f64;
  average_latency_ms : Z;
  bad_point_count : Z;
}.

Record LocalStoreMetrics := {
  store_backend : string;
  buffered_records : Z;
  oldest_buffer_age_seconds : Z;
  disk_usage_percent : f64;
}.

Record MqttSinkRuntimeMetrics := {
  sink_metrics_id : string;
  sink_broker : string;
  sink_client_id : string;
  sink_connected : bool;
  sink_publish_success_count : Z;
  sink_publish_failure_count : Z;
  sink_published_bytes : Z;
  sink_average_ack_latency_ms : Z;
  sink_last_ack_latency_ms : option Z;
  sink_last_publish_at : option DateTime;
  sink_last_topic : option string;
  sink_last_error : option string;
}.

Record MqttRuntimeMetrics := {
  configured_sink_count : Z;
  connected_sink_count : Z;
  mqtt_connection_generation : Z;
  publish_success_count : Z;
  publish_failure_count : Z;
  published_bytes : Z;
  metrics_sinks : list MqttSinkRuntimeMetrics;
}.

Record CloudSyncMetrics := {
  cloud_connected : bool;
  last_sync_seconds_ago : Z;
  pending_uploads : Z;
  sync_desired_version : string;
  sync_reported_version : string;
}.

Record EdgeRuntimeMetricsSnapshot := {
  snapshot_edge_id : string;
  snapshot_runtime_id : string;
  snapshot_config_version : string;
  snapshot_timestamp : DateTime;
  snapshot_health : EdgeHealth;
  snapshot_system : SystemRuntimeMetrics;
  snapshot_collection : CollectionRuntimeMetrics;
  snapshot_protocols : list ProtocolRuntimeMetrics;
  snapshot_local_store : LocalStoreMetrics;
  snapshot_algorithms : list AlgorithmRuntimeMetrics;
  snapshot_mqtt : MqttRuntimeMetrics;
  snapshot_cloud_sync : CloudSyncMetrics;
}.

Record DiscoveredPoint := {
  found_connection_id : string;
  found_address : PointAddress;
  found_value_type : TelemetryType;
  found_sample_values : list string;
  found_confidence : f64;
}.

Record PointMappingSuggestion := {
  sug_point_id : string;
  sug_device_id : string;
  sug_semantic_id : string;
  sug_connection_id : string;
  sug_address : PointAddress;
  sug_value_type : TelemetryType;
  sug_unit : option string;
  sug_confidence : f64;
  sug_evidence : string;
}.

Record DiscoveryReport := {
  report_job_id : string;
  report_connection_id : string;
  discovered_points : list DiscoveredPoint;
  report_suggestions : list PointMappingSuggestion;
}.

(** ** The fleet *)

Record EdgeNode := {
  node_edge_id : string;
  node_display_name : string;
  node_site : option string;
  node_capabilities : list string;
  node_project_id : option string;
  node_product_id : option string;
  desired_product_version : option string;
  reported_product_version : option string;
}.

Definition new_edge_node (edge_id display_name : string) : EdgeNode :=
  {| node_edge_id := edge_id; node_display_name := display_name; node_site := None; node_capabilities := [];
     node_project_id := None; node_product_id := None; desired_product_version := None; reported_product_version := None |}.

Definition at_site (node : EdgeNode) (site : string) : EdgeNode :=
  {| node_edge_id := node_edge_id node; node_display_name := node_display_name node; node_site := Some site;
     node_capabilities := node_capabilities node; node_project_id := node_project_id node;
     node_product_id := node_product_id node; desired_product_version := desired_product_version node;
     reported_product_version := reported_product_version node |}.

Record EdgeAccessCredential := {
  credential_id : Uuid;
  credential_edge_id : string;
  token_hash : string;
  credential_active : bool;
  credential_created_at : DateTime;
}.

Definition new_credential (id : Uuid) (now : DateTime) (edge_id token_hash : string) : EdgeAccessCredential :=
  {| credential_id := id; credential_edge_id := edge_id; token_hash := token_hash; credential_active := true;
     credential_created_at := now |}.

(** [existing.active = false]. *)
Definition deactivated (credential : EdgeAccessCredential) : EdgeAccessCredential :=
  {| credential_id := credential_id credential; credential_edge_id := credential_edge_id credential;
     token_hash := token_hash credential; credential_active := false;
     credential_created_at := credential_created_at credential |}.

(** ** The catalogue *)

Record Project := {
  project_id : string;
  project_name : string;
  project_environment : string;
  project_owner : string;
  project_description : string;
  project_created_at : DateTime;
  project_updated_at : DateTime;
}.

Record PointSetPoint := {
  psp_point_id : string;
  psp_semantic_id : string;
  psp_address : PointAddress;
  psp_value_type : TelemetryType;
  psp_access : PointAccess;
  psp_opc_ua : option OpcUaPointOptions;
  psp_iec101 : option Iec104PointOptions;
  psp_iec104 : option Iec104PointOptions;
  psp_bacnet : option BacnetPointOptions;
  psp_unit : option string;
  psp_read_transforms : list PointValueTransform;
  psp_interval_ms : Z;
}.

Record PointSet := {
  point_set_id : string;
  point_set_project_id : string;
  point_set_name : string;
  point_set_description : string;
  point_set_protocol : ProtocolType;
  point_set_points : list PointSetPoint;
  point_set_created_at : DateTime;
  point_set_updated_at : DateTime;
}.

Record Product := {
  product_id : string;
  product_project_id : string;
  product_name : string;
  product_type : string;
  product_description : string;
  product_latest_version : option string;
  product_created_at : DateTime;
  product_updated_at : DateTime;
}.

Inductive ProductVersionStatus := Version_Draft | Version_Published | Version_Retired.

Record ProductVersion := {
  version_product_id : string;
  version_name : string;
  version_status : ProductVersionStatus;
  version_point_set_ids : list string;
  version_device_models : list DeviceSpec;
  version_devices : list DeviceInstance;
  version_protocol_connections : list ProtocolConnection;
  version_collection_tasks : list CollectionTask;
  version_algorithms : list AlgorithmSpec;
  version_data_configs : list DataConfig;
  version_command_flows : list CommandFlowConfig;
  version_mqtt_uplinks : list MqttUplinkConfig;
  version_created_at : DateTime;
}.

(** ** Releases and the audit *)

Inductive ReleaseStatus := Release_Pending | Release_Applied | Release_Failed | Release_Superseded.

#[export] Instance ReleaseStatus_eq_dec : EqDecision ReleaseStatus.
Proof. solve_decision. Defined.

Record ReleaseRecord := {
  release_id : Uuid;
  release_edge_id : string;
  release_desired_version : string;
  release_reported_version : option string;
  release_status : ReleaseStatus;
}.

Inductive AuditAction :=
| CreateRelease | ApplyRelease | UpdateConfig
| CreateAgentProposal | ApproveAgentProposal | RejectAgentProposal
| CreateKnowledgeDocument | UpdateKnowledgeDocument | DeleteKnowledgeDocument
| CreateAgentConversation | DeleteAgentConversation | InvokeAgentTool
| CreateAgentChangeSet | ValidateAgentChangeSet | ConfirmAgentChangeSet | RejectAgentChangeSet
| ApplyAgentChangeSet | FailAgentChangeSet
| CreateAgentCommandCandidate | ValidateAgentCommandCandidate | ConfirmAgentCommandCandidate
| RejectAgentCommandCandidate | DispatchAgentCommandCandidate | FailAgentCommandCandidate.

Record AuditRecord := {
  audit_id : Uuid;
  audit_action : AuditAction;
  audit_target : string;
  audit_actor : string;
  audit_created_at : DateTime;
}.

(** [AuditRecord::by_actor] and [AuditRecord::system]. *)
Definition audit_by_actor (id : Uuid) (now : DateTime) (action : AuditAction) (target actor : string) : AuditRecord :=
  {| audit_id := id; audit_action := action; audit_target := target; audit_actor := actor; audit_created_at := now |}.

Definition audit_by_system (id : Uuid) (now : DateTime) (action : AuditAction) (target : string) : AuditRecord :=
  audit_by_actor id now action target "system".

(** ** Records of the assistant *)

Record KnowledgeDocument := {
  document_id : Uuid;
  document_project_id : option string;
  document_title : string;
  document_source_uri : option string;
  document_content : string;
  document_tags : list string;
  document_enabled : bool;
  document_created_by : string;
  document_created_at : DateTime;
  document_updated_at : DateTime;
}.

Inductive AgentConversationRole := Role_User | Role_Assistant.

Record AgentConversationCitation := {
  citation_document_id : string;
  citation_chunk_id : option string;
  citation_title : string;
  citation_source_uri : option string;
  citation_excerpt : string;
  citation_source_revision : option string;
  citation_source_type : option string;
  citation_content_hash : option string;
  citation_untrusted_content : option bool;
}.

Record AgentConversationMessage := {
  message_id : Uuid;
  message_role : AgentConversationRole;
  message_content : string;
  message_citations : list AgentConversationCitation;
  message_created_at : DateTime;
}.

Record AgentConversation := {
  conversation_id : Uuid;
  conversation_project_id : option string;
  conversation_edge_id : option string;
  conversation_operator_id : string;
  conversation_title : string;
  conversation_messages : list AgentConversationMessage;
  conversation_created_at : DateTime;
  conversation_updated_at : DateTime;
}.

Definition MAX_CONVERSATION_MESSAGES : nat := 200.

Definition push_message (conversation : AgentConversation) (message : AgentConversationMessage) : AgentConversation :=
  let messages := (conversation_messages conversation ++ [message])%list in
  {| conversation_id := conversation_id conversation; conversation_project_id := conversation_project_id conversation;
     conversation_edge_id := conversation_edge_id conversation;
     conversation_operator_id := conversation_operator_id conversation; conversation_title := conversation_title conversation;
     conversation_messages :=
       if (MAX_CONVERSATION_MESSAGES <? length messages)%nat
       then drop (length messages - MAX_CONVERSATION_MESSAGES) messages else messages;
     conversation_created_at := conversation_created_at conversation;
     conversation_updated_at := message_created_at message |}.

Inductive AgentProposalKind := Kind_ConfigSuggestion | Kind_PointMapping | Kind_RolloutPlan | Kind_CommandCandidate.
Inductive AgentProposalRisk := ProposalRisk_Low | ProposalRisk_Medium | ProposalRisk_High.
Inductive AgentProposalStatus := PendingReview | Proposal_Approved | Proposal_Rejected.

#[export] Instance AgentProposalRisk_eq_dec : EqDecision AgentProposalRisk.
Proof. solve_decision. Defined.
#[export] Instance AgentProposalStatus_eq_dec : EqDecision AgentProposalStatus.
Proof. solve_decision. Defined.

Record AgentProposal := {
  proposal_id : Uuid;
  proposal_agent_id : string;
  proposal_kind : AgentProposalKind;
  proposal_project_id : option string;
  proposal_edge_id : option string;
  proposal_title : string;
  proposal_summary : string;
  proposal_payload : Json;
  proposal_risk : AgentProposalRisk;
  proposal_status : AgentProposalStatus;
  proposal_created_by : string;
  proposal_created_at : DateTime;
  proposal_reviewed_by : option string;
  proposal_reviewed_at : option DateTime;
  proposal_review_note : option string;
}.

Inductive AgentProposalReviewError :=
| AlreadyReviewed | InvalidDecision | MissingReviewer | SelfReview | ApprovalNoteRequired | ReviewNoteTooLong.

(** [value.trim()] of an optional text, [None] when nothing is left. *)
Definition normalized_optional (value : option string) : option string :=
  match value with
  | Some value => if str_is_empty (str_trim value) then None else Some (str_trim value)
  | None => None
  end.

(** [value.chars().count()]: the bytes that do not continue a character. *)
Definition char_count (s : string) : nat := length (filter (fun b => is_cont b = false) (str_bytes s)).

Definition review (now : DateTime) (proposal : AgentProposal) (decision : AgentProposalStatus) (reviewer : string)
    (note : option string) : AgentProposal + AgentProposalReviewError :=
  if negb (bool_decide (proposal_status proposal = PendingReview)) then inr AlreadyReviewed
  else if bool_decide (decision = PendingReview) then inr InvalidDecision
  else
    let reviewer := str_trim reviewer in
    if str_is_empty reviewer then inr MissingReviewer
    else if bool_decide (reviewer = str_trim (proposal_created_by proposal)) then inr SelfReview
    else
      let note := normalized_optional note in
      if match note with Some value => (2000 <? char_count value)%nat | None => false end then inr ReviewNoteTooLong
      else if bool_decide (decision = Proposal_Approved) && bool_decide (proposal_risk proposal = ProposalRisk_High) &&
              bool_decide (note = None)
      then inr ApprovalNoteRequired
      else inl {| proposal_id := proposal_id proposal; proposal_agent_id := proposal_agent_id proposal;
                  proposal_kind := proposal_kind proposal; proposal_project_id := proposal_project_id proposal;
                  proposal_edge_id := proposal_edge_id proposal; proposal_title := proposal_title proposal;
                  proposal_summary := proposal_summary proposal; proposal_payload := proposal_payload proposal;
                  proposal_risk := proposal_risk proposal; proposal_status := decision;
                  proposal_created_by := proposal_created_by proposal;
                  proposal_created_at := proposal_created_at proposal; proposal_reviewed_by := Some reviewer;
                  proposal_reviewed_at := Some now; proposal_review_note := note |}.

(** ** The store *)

Record FleetTables := {
  edge_nodes : gmap string EdgeNode;
  edge_credentials : gmap Uuid EdgeAccessCredential;
  device_models : gmap string DeviceSpec;
  config_packages : gmap (string * string) EdgeConfigPackage;
  releases : gmap Uuid ReleaseRecord;
  audit_records : list AuditRecord;
  store_runtime_metrics : gmap string EdgeRuntimeMetricsSnapshot;
  runtime_events : list EdgeRuntimeEvent;
  mqtt_uplinks : gmap string MqttUplinkConfig;
  discovery_reports : gmap string (list DiscoveryReport);
}.

Record CatalogTables := {
  projects : gmap string Project;
  point_sets : gmap string PointSet;
  products : gmap string Product;
  product_versions : gmap (string * string) ProductVersion;
}.

Record AgentTables := {
  agent_proposals : gmap Uuid AgentProposal;
  knowledge_documents : gmap Uuid KnowledgeDocument;
  agent_conversations : gmap Uuid AgentConversation;
  agent_change_sets : gmap string AgentChangeSet;
  agent_command_candidates : gmap string AgentCommandCandidate;
}.

Record CloudControlStore := { fleet : FleetTables; catalog : CatalogTables; agent : AgentTables }.

Definition empty_store : CloudControlStore :=
  {| fleet := {| edge_nodes := ∅; edge_credentials := ∅; device_models := ∅; config_packages := ∅; releases := ∅;
                 audit_records := []; store_runtime_metrics := ∅; runtime_events := []; mqtt_uplinks := ∅;
                 discovery_reports := ∅ |};
     catalog := {| projects := ∅; point_sets := ∅; products := ∅; product_versions := ∅ |};
     agent := {| agent_proposals := ∅; knowledge_documents := ∅; agent_conversations := ∅; agent_change_sets := ∅;
                 agent_command_candidates := ∅ |} |}.

(** [map.values()], in the order of the keys. *)
Definition sorted_values {K A} `{Countable K} (leb : K -> K -> bool) (m : gmap K A) : list A :=
  snd <$> sort_by (fun a b => leb (fst a) (fst b)) (map_to_list m).

Definition pair_leb (a b : string * string) : bool :=
  (str_leb (fst a) (fst b) && negb (bool_decide (fst a = fst b))) || (bool_decide (fst a = fst b) && str_leb (snd a) (snd b)).

Definition on_fleet (f : FleetTables -> FleetTables) (store : CloudControlStore) : CloudControlStore :=
  {| fleet := f (fleet store); catalog := catalog store; agent := agent store |}.

Definition on_catalog (f : CatalogTables -> CatalogTables) (store : CloudControlStore) : CloudControlStore :=
  {| fleet := fleet store; catalog := f (catalog store); agent := agent store |}.

Definition on_agent (f : AgentTables -> AgentTables) (store : CloudControlStore) : CloudControlStore :=
  {| fleet := fleet store; catalog := catalog store; agent := f (agent store) |}.

Definition set_edges (nodes : gmap string EdgeNode) (credentials : gmap Uuid EdgeAccessCredential) (t : FleetTables)
    : FleetTables :=
  {| edge_nodes := nodes; edge_credentials := credentials; device_models := device_models t;
     config_packages := config_packages t; releases := releases t; audit_records := audit_records t;
     store_runtime_metrics := store_runtime_metrics t; runtime_events := runtime_events t; mqtt_uplinks := mqtt_uplinks t;
     discovery_reports := discovery_reports t |}.

Definition set_configs (models : gmap string DeviceSpec) (packages : gmap (string * string) EdgeConfigPackage)
    (rs : gmap Uuid ReleaseRecord) (t : FleetTables) : FleetTables :=
  {| edge_nodes := edge_nodes t; edge_credentials := edge_credentials t; device_models := models;
     config_packages := packages; releases := rs; audit_records := audit_records t;
     store_runtime_metrics := store_runtime_metrics t; runtime_events := runtime_events t; mqtt_uplinks := mqtt_uplinks t;
     discovery_reports := discovery_reports t |}.

Definition set_reports (audits : list AuditRecord) (metrics : gmap string EdgeRuntimeMetricsSnapshot)
    (events : list EdgeRuntimeEvent) (uplinks : gmap string MqttUplinkConfig)
    (discoveries : gmap string (list DiscoveryReport)) (t : FleetTables) : FleetTables :=
  {| edge_nodes := edge_nodes t; edge_credentials := edge_credentials t; device_models := device_models t;
     config_packages := config_packages t; releases := releases t; audit_records := audits;
     store_runtime_metrics := metrics; runtime_events := events; mqtt_uplinks := uplinks;
     discovery_reports := discoveries |}.

(** *** Edges and credentials *)

Definition register_edge (node : EdgeNode) : CloudControlStore -> CloudControlStore :=
  on_fleet (fun t => set_edges (<[node_edge_id node := node]> (edge_nodes t)) (edge_credentials t) t).

Definition edge_node (store : CloudControlStore) (edge_id : string) : option EdgeNode := edge_nodes (fleet store) !! edge_id.

Definition remove_edge_node (edge_id : string) (store : CloudControlStore) : CloudControlStore * option EdgeNode :=
  match edge_nodes (fleet store) !! edge_id with
  | None => (store, None)
  | Some removed =>
      (on_fleet (fun t =>
         {| edge_nodes := delete edge_id (edge_nodes t);
            edge_credentials := filter (fun entry => credential_edge_id (snd entry) <> edge_id) (edge_credentials t);
            device_models := device_models t;
            config_packages := filter (fun entry => fst (fst entry) <> edge_id) (config_packages t);
            releases := filter (fun entry => release_edge_id (snd entry) <> edge_id) (releases t);
            audit_records := audit_records t;
            store_runtime_metrics := delete edge_id (store_runtime_metrics t);
            runtime_events := filter (fun event => ev_edge_id event <> edge_id) (runtime_events t);
            mqtt_uplinks := delete edge_id (mqtt_uplinks t);
            discovery_reports := delete edge_id (discovery_reports t) |}) store, Some removed)
  end.

Definition upsert_edge_credential (credential : EdgeAccessCredential) : CloudControlStore -> CloudControlStore :=
  on_fleet (fun t => set_edges (edge_nodes t) (<[credential_id credential := credential]> (edge_credentials t)) t).

Definition replace_edge_credential (credential : EdgeAccessCredential) (store : CloudControlStore) : CloudControlStore :=
  upsert_edge_credential credential
    (on_fleet (fun t => set_edges (edge_nodes t)
       ((fun existing => if bool_decide (credential_edge_id existing = credential_edge_id credential)
                         then deactivated existing else existing) <$> edge_credentials t) t) store).

Definition active_edge_credential (store : CloudControlStore) (edge_id : string) : option EdgeAccessCredential :=
  max_by (fun a b => credential_created_at a <=? credential_created_at b)
    (filter (fun credential => credential_edge_id credential = edge_id /\ credential_active credential = true)
       (sorted_values str_leb (edge_credentials (fleet store)))).

(** *** Models, packages and releases *)

Definition upsert_device_model (model : DeviceSpec) : CloudControlStore -> CloudControlStore :=
  on_fleet (fun t => set_configs (<[Model.device_type model := model]> (device_models t)) (config_packages t) (releases t) t).

Definition device_model (store : CloudControlStore) (device_type : string) : option DeviceSpec :=
  device_models (fleet store) !! device_type.

Definition remove_device_model (device_type : string) (store : CloudControlStore) : CloudControlStore * option DeviceSpec :=
  (on_fleet (fun t => set_configs (delete device_type (device_models t)) (config_packages t) (releases t) t) store,
   device_models (fleet store) !! device_type).

Definition upsert_config_package (package : EdgeConfigPackage) : CloudControlStore -> CloudControlStore :=
  on_fleet (fun t => set_configs (device_models t)
    (<[(pkg_edge_id package, pkg_version package) := package]> (config_packages t)) (releases t) t).

Definition config_package (store : CloudControlStore) (edge_id version : string) : option EdgeConfigPackage :=
  config_packages (fleet store) !! (edge_id, version).

Definition latest_config_package_for_edge (store : CloudControlStore) (edge_id : string) : option EdgeConfigPackage :=
  max_by (fun a b => str_leb (pkg_version a) (pkg_version b))
    (filter (fun package => pkg_edge_id package = edge_id) (sorted_values pair_leb (config_packages (fleet store)))).

Definition insert_release (release : ReleaseRecord) : CloudControlStore -> CloudControlStore :=
  on_fleet (fun t => set_configs (device_models t) (config_packages t) (<[release_id release := release]> (releases t)) t).

Definition release (store : CloudControlStore) (id : Uuid) : option ReleaseRecord := releases (fleet store) !! id.

Definition all_releases (store : CloudControlStore) : list ReleaseRecord := sorted_values str_leb (releases (fleet store)).

(** *** Audit, reports and sinks *)

Definition push_audit_record (record : AuditRecord) : CloudControlStore -> CloudControlStore :=
  on_fleet (fun t => set_reports (audit_records t ++ [record])%list (store_runtime_metrics t) (runtime_events t)
    (mqtt_uplinks t) (discovery_reports t) t).

Definition push_audit (id : Uuid) (now : DateTime) (action : AuditAction) (target : string)
    : CloudControlStore -> CloudControlStore := push_audit_record (audit_by_system id now action target).

Definition upsert_runtime_metrics (snapshot : EdgeRuntimeMetricsSnapshot) : CloudControlStore -> CloudControlStore :=
  on_fleet (fun t => set_reports (audit_records t) (<[snapshot_edge_id snapshot := snapshot]> (store_runtime_metrics t))
    (runtime_events t) (mqtt_uplinks t) (discovery_reports t) t).

Definition push_runtime_event (event : EdgeRuntimeEvent) : CloudControlStore -> CloudControlStore :=
  on_fleet (fun t => set_reports (audit_records t) (store_runtime_metrics t) (runtime_events t ++ [event])%list
    (mqtt_uplinks t) (discovery_reports t) t).

Definition upsert_mqtt_uplink (edge_id : string) (uplink : MqttUplinkConfig) : CloudControlStore -> CloudControlStore :=
  on_fleet (fun t => set_reports (audit_records t) (store_runtime_metrics t) (runtime_events t)
    (<[edge_id := uplink]> (mqtt_uplinks t)) (discovery_reports t) t).

Definition reports_of (store : CloudControlStore) (edge_id : string) : list DiscoveryReport :=
  default [] (discovery_reports (fleet store) !! edge_id).

Definition insert_discovery_report (edge_id : string) (report : DiscoveryReport) (store : CloudControlStore)
    : CloudControlStore :=
  on_fleet (fun t => set_reports (audit_records t) (store_runtime_metrics t) (runtime_events t) (mqtt_uplinks t)
    (<[edge_id := (reports_of store edge_id ++ [report])%list]> (discovery_reports t)) t) store.

Definition discovery_suggestions (store : CloudControlStore) (edge_id : string) : list PointMappingSuggestion :=
  concat (report_suggestions <$> reports_of store edge_id).

(** *** The catalogue *)

Definition set_catalog (ps : gmap string Project) (sets : gmap string PointSet) (prods : gmap string Product)
    (versions : gmap (string * string) ProductVersion) : CatalogTables :=
  {| projects := ps; point_sets := sets; products := prods; product_versions := versions |}.

Definition upsert_project (project : Project) : CloudControlStore -> CloudControlStore :=
  on_catalog (fun t => set_catalog (<[project_id project := project]> (projects t)) (point_sets t) (products t)
    (product_versions t)).

Definition upsert_point_set (point_set : PointSet) : CloudControlStore -> CloudControlStore :=
  on_catalog (fun t => set_catalog (projects t) (<[point_set_id point_set := point_set]> (point_sets t)) (products t)
    (product_versions t)).

Definition upsert_product (product : Product) : CloudControlStore -> CloudControlStore :=
  on_catalog (fun t => set_catalog (projects t) (point_sets t) (<[product_id product := product]> (products t))
    (product_versions t)).

Definition upsert_product_version (version : ProductVersion) : CloudControlStore -> CloudControlStore :=
  on_catalog (fun t => set_catalog (projects t) (point_sets t) (products t)
    (<[(version_product_id version, version_name version) := version]> (product_versions t))).

Definition remove_point_set (id : string) (store : CloudControlStore) : CloudControlStore * option PointSet :=
  (on_catalog (fun t => set_catalog (projects t) (delete id (point_sets t)) (products t) (product_versions t)) store,
   point_sets (catalog store) !! id).

Definition remove_product_version (id version : string) (store : CloudControlStore)
    : CloudControlStore * option ProductVersion :=
  (on_catalog (fun t => set_catalog (projects t) (point_sets t) (products t) (delete (id, version) (product_versions t))) store,
   product_versions (catalog store) !! (id, version)).

Definition remove_product (id : string) (store : CloudControlStore) : CloudControlStore * option Product :=
  match products (catalog store) !! id with
  | None => (store, None)
  | Some removed =>
      (on_catalog (fun t => set_catalog (projects t) (point_sets t) (delete id (products t))
         (filter (fun entry => fst (fst entry) <> id) (product_versions t))) store, Some removed)
  end.

(** The ids of the products of a project, before they are removed. *)
Definition product_ids_of (id : string) (t : CatalogTables) : gset string :=
  list_to_set (product_id <$> filter (fun product => product_project_id product = id)
                                (sorted_values str_leb (products t))).

Definition remove_project (id : string) (store : CloudControlStore) : CloudControlStore * option Project :=
  match projects (catalog store) !! id with
  | None => (store, None)
  | Some removed =>
      let product_ids := product_ids_of id (catalog store) in
      ({| fleet := fleet store;
          catalog := let t := catalog store in
            set_catalog (delete id (projects t))
              (filter (fun entry => point_set_project_id (snd entry) <> id) (point_sets t))
              (filter (fun entry => product_project_id (snd entry) <> id) (products t))
              (filter (fun entry => fst (fst entry) ∉ product_ids) (product_versions t));
          agent := let t := agent store in
            {| agent_proposals := agent_proposals t;
               knowledge_documents := filter (fun entry => document_project_id (snd entry) <> Some id) (knowledge_documents t);
               agent_conversations := filter (fun entry => conversation_project_id (snd entry) <> Some id) (agent_conversations t);
               agent_change_sets := filter (fun entry => change_project_id (set_target (snd entry)) <> id) (agent_change_sets t);
               agent_command_candidates := agent_command_candidates t |} |}, Some removed)
  end.

(** *** Records of the assistant *)

Definition set_agent (proposals : gmap Uuid AgentProposal) (documents : gmap Uuid KnowledgeDocument)
    (conversations : gmap Uuid AgentConversation) (sets : gmap string AgentChangeSet)
    (candidates : gmap string AgentCommandCandidate) : AgentTables :=
  {| agent_proposals := proposals; knowledge_documents := documents; agent_conversations := conversations;
     agent_change_sets := sets; agent_command_candidates := candidates |}.

Definition upsert_agent_proposal (proposal : AgentProposal) : CloudControlStore -> CloudControlStore :=
  on_agent (fun t => set_agent (<[proposal_id proposal := proposal]> (agent_proposals t)) (knowledge_documents t)
    (agent_conversations t) (agent_change_sets t) (agent_command_candidates t)).

Definition upsert_knowledge_document (document : KnowledgeDocument) : CloudControlStore -> CloudControlStore :=
  on_agent (fun t => set_agent (agent_proposals t) (<[document_id document := document]> (knowledge_documents t))
    (agent_conversations t) (agent_change_sets t) (agent_command_candidates t)).

Definition remove_knowledge_document (id : Uuid) (store : CloudControlStore) : CloudControlStore * option KnowledgeDocument :=
  (on_agent (fun t => set_agent (agent_proposals t) (delete id (knowledge_documents t)) (agent_conversations t)
     (agent_change_sets t) (agent_command_candidates t)) store, knowledge_documents (agent store) !! id).

Definition upsert_agent_conversation (conversation : AgentConversation) : CloudControlStore -> CloudControlStore :=
  on_agent (fun t => set_agent (agent_proposals t) (knowledge_documents t)
    (<[conversation_id conversation := conversation]> (agent_conversations t)) (agent_change_sets t)
    (agent_command_candidates t)).

Definition remove_agent_conversation (id : Uuid) (store : CloudControlStore) : CloudControlStore * option AgentConversation :=
  (on_agent (fun t => set_agent (agent_proposals t) (knowledge_documents t) (delete id (agent_conversations t))
     (agent_change_sets t) (agent_command_candidates t)) store, agent_conversations (agent store) !! id).

Definition upsert_agent_change_set (change_set : AgentChangeSet) : CloudControlStore -> CloudControlStore :=
  on_agent (fun t => set_agent (agent_proposals t) (knowledge_documents t) (agent_conversations t)
    (<[set_id change_set := change_set]> (agent_change_sets t)) (agent_command_candidates t)).

Definition upsert_agent_command_candidate (candidate : AgentCommandCandidate) : CloudControlStore -> CloudControlStore :=
  on_agent (fun t => set_agent (agent_proposals t) (knowledge_documents t) (agent_conversations t) (agent_change_sets t)
    (<[candidate_id candidate := candidate]> (agent_command_candidates t))).

Definition agent_command_candidate (store : CloudControlStore) (id : string) : option AgentCommandCandidate :=
  agent_command_candidates (agent store) !! id.

Definition agent_command_candidate_by_idempotency (store : CloudControlStore) (project_id edge_id idempotency_key : string)
    : option AgentCommandCandidate :=
  find_first (fun candidate => bool_decide (cmd_project_id (candidate_target candidate) = project_id) &&
                               bool_decide (cmd_edge_id (candidate_target candidate) = edge_id) &&
                               bool_decide (candidate_idempotency_key candidate = idempotency_key))
    (sorted_values str_leb (agent_command_candidates (agent store))).

(** ** Releases *)

Section releases.
Context (decoder : string -> Result PointAddresses.OpcUaBrowsePathAddress).

(** The release of a package without errors, or the errors. *)
Definition prepare_release (id : Uuid) (package : EdgeConfigPackage) : Result (ReleaseRecord + list string) :=
  errors ← validate_package decoder package;
  if negb (bool_decide (errors = [])) then Ok (inr errors)
  else Ok (inl {| release_id := id; release_edge_id := pkg_edge_id package; release_desired_version := pkg_version package;
                  release_reported_version := None; release_status := Release_Pending |}).

Definition create_release (id audit : Uuid) (now : DateTime) (package : EdgeConfigPackage) (store : CloudControlStore)
    : Result (CloudControlStore * (ReleaseRecord + list string)) :=
  prepared ← prepare_release id package;
  match prepared with
  | inr errors => Ok (store, inr errors)
  | inl release =>
      let store := upsert_config_package package store in
      let store := insert_release release store in
      Ok (push_audit audit now CreateRelease (release_id release) store, inl release)
  end.
End releases.

Definition reported_release (release : ReleaseRecord) (version : string) : ReleaseRecord :=
  {| release_id := release_id release; release_edge_id := release_edge_id release;
     release_desired_version := release_desired_version release; release_reported_version := Some version;
     release_status := if bool_decide (release_desired_version release = version) then Release_Applied else Release_Failed |}.

Definition mark_reported (audit : Uuid) (now : DateTime) (id : Uuid) (version : string) (store : CloudControlStore)
    : CloudControlStore * option ReleaseRecord :=
  match releases (fleet store) !! id with
  | None => (store, None)
  | Some release =>
      let release := reported_release release version in
      (push_audit audit now ApplyRelease id
         (on_fleet (fun t => set_configs (device_models t) (config_packages t) (<[id := release]> (releases t)) t) store),
       Some release)
  end.

(** ** Lemmas on the iterators *)

Lemma elem_of_sorted_values {K A} `{Countable K} (leb : K -> K -> bool) (m : gmap K A) x :
  x ∈ sorted_values leb m <-> exists k, m !! k = Some x.
Proof.
  unfold sorted_values. rewrite list_elem_of_fmap. split.
  - intros ([k y] & -> & Hy). rewrite sort_by_perm in Hy. apply elem_of_map_to_list in Hy. eauto.
  - intros [k Hk]. exists (k, x). split; [done|]. rewrite sort_by_perm. by apply elem_of_map_to_list.
Qed.

(** ** Removals *)

(** No record of the fleet concerns the edge. *)
Definition forgets_edge (store : CloudControlStore) (id : string) : Prop :=
  let t := fleet store in
  edge_nodes t !! id = None /\ store_runtime_metrics t !! id = None /\ mqtt_uplinks t !! id = None /\
  discovery_reports t !! id = None /\ (forall version, config_packages t !! (id, version) = None) /\
  (forall key c, edge_credentials t !! key = Some c -> credential_edge_id c <> id) /\
  (forall key r, releases t !! key = Some r -> release_edge_id r <> id) /\
  Forall (fun event => ev_edge_id event <> id) (runtime_events t).

(** The records of another edge are the same in both stores. *)
Definition same_edge (store store' : CloudControlStore) (id : string) : Prop :=
  let t := fleet store in let t' := fleet store' in
  edge_nodes t' !! id = edge_nodes t !! id /\ store_runtime_metrics t' !! id = store_runtime_metrics t !! id /\
  mqtt_uplinks t' !! id = mqtt_uplinks t !! id /\ discovery_reports t' !! id = discovery_reports t !! id /\
  (forall version, config_packages t' !! (id, version) = config_packages t !! (id, version)) /\
  (forall key c, credential_edge_id c = id -> edge_credentials t' !! key = Some c <-> edge_credentials t !! key = Some c) /\
  (forall key r, release_edge_id r = id -> releases t' !! key = Some r <-> releases t !! key = Some r) /\
  filter (fun event => ev_edge_id event = id) (runtime_events t') =
  filter (fun event => ev_edge_id event = id) (runtime_events t).

Lemma filter_filter_ne {A} (f : A -> string) (id other : string) (l : list A) :
  id <> other -> filter (fun x => f x = other) (filter (fun x => f x <> id) l) = filter (fun x => f x = other) l.
Proof.
  intros Hne. induction l as [|x l IH]; [done|]. rewrite !filter_cons.
  repeat case_decide; rewrite ?filter_cons; repeat case_decide; congruence.
Qed.

(** Removing an edge removes every record of it and no record of another. *)
Lemma removed_edge_leaves_nothing id store store' node :
  remove_edge_node id store = (store', Some node) ->
  forgets_edge store' id /\ edge_nodes (fleet store) !! id = Some node /\
  (forall other, other <> id -> same_edge store store' other) /\
  catalog store' = catalog store /\ agent store' = agent store.
Proof.
  unfold remove_edge_node. destruct (edge_nodes (fleet store) !! id) as [removed|] eqn:Hn; [|done].
  intros [= <- <-]. split; [|split; [done|split; [|done]]].
  - unfold forgets_edge. cbn. rewrite !lookup_delete_eq. do 4 (split; [done|]). split; [|split; [|split]].
    + intros version. apply map_lookup_filter_None. right. intros p _ Hne. by apply Hne.
    + by intros key c [_ Hc]%map_lookup_filter_Some.
    + by intros key r [_ Hr]%map_lookup_filter_Some.
    + apply list.Forall_forall. intros event [He _]%list_elem_of_filter. done.
  - intros other Hne. unfold same_edge. cbn. rewrite !lookup_delete_ne by done. do 4 (split; [done|]).
    split; [|split; [|split]].
    + intros version. apply option_eq. intros p. rewrite map_lookup_filter_Some. cbn. naive_solver.
    + intros key c Hc. rewrite map_lookup_filter_Some. cbn. naive_solver.
    + intros key r Hr. rewrite map_lookup_filter_Some. cbn. naive_solver.
    + by apply filter_filter_ne.
Qed.

(** The products are stored under their ids. *)
Definition catalog_ok (t : CatalogTables) : Prop := forall key p, products t !! key = Some p -> product_id p = key.

(** Removing a project removes its products, their versions, its point sets and the
    documents, conversations and change sets of it. *)
Lemma removed_project_leaves_nothing id store store' project :
  catalog_ok (catalog store) -> remove_project id store = (store', Some project) ->
  projects (catalog store') !! id = None /\
  (forall key s, point_sets (catalog store') !! key = Some s -> point_set_project_id s <> id) /\
  (forall key p, products (catalog store') !! key = Some p -> product_project_id p <> id) /\
  (forall product version v p, product_versions (catalog store') !! (product, version) = Some v ->
     products (catalog store) !! product = Some p -> product_project_id p <> id) /\
  (forall key d, knowledge_documents (agent store') !! key = Some d -> document_project_id d <> Some id) /\
  (forall key c, agent_conversations (agent store') !! key = Some c -> conversation_project_id c <> Some id) /\
  (forall key s, agent_change_sets (agent store') !! key = Some s -> change_project_id (set_target s) <> id).
Proof.
  intros Hok. unfold remove_project. destruct (projects (catalog store) !! id) as [removed|]; [|done]. intros [= <- <-]. cbn.
  rewrite lookup_delete_eq. split; [done|]. split; [by intros key s [_ ?]%map_lookup_filter_Some|].
  split; [by intros key s [_ ?]%map_lookup_filter_Some|]. split; [|split; [|split]].
  - intros product version v p [_ Hv]%map_lookup_filter_Some Hp Heq. apply Hv. cbn. unfold product_ids_of.
    apply elem_of_list_to_set, list_elem_of_fmap. exists p. split; [symmetry; by eapply Hok|].
    apply list_elem_of_filter. split; [done|]. apply elem_of_sorted_values. eauto.
  - by intros key s [_ ?]%map_lookup_filter_Some.
  - by intros key s [_ ?]%map_lookup_filter_Some.
  - by intros key s [_ ?]%map_lookup_filter_Some.
Qed.

(** ** Credentials *)

(** Rotating the credential of an edge: the new credential is the one an edge has
    to present, and those of the other edges are as they were. *)
Lemma rotated_credential_is_active credential store :
  credential_active credential = true ->
  active_edge_credential (replace_edge_credential credential store) (credential_edge_id credential) = Some credential.
Proof.
  intros Ha. unfold active_edge_credential. set (l := filter _ _).
  assert (Hin : credential ∈ l).
  { apply list_elem_of_filter. split; [done|]. apply elem_of_sorted_values. exists (credential_id credential).
    cbn. by rewrite lookup_insert_eq. }
  destruct (max_by_some (fun a b => credential_created_at a <=? credential_created_at b) l _ Hin) as [x Hx].
  rewrite Hx. f_equal. apply max_by_elem in Hx. apply list_elem_of_filter in Hx as [[He Hact] [k Hk]%elem_of_sorted_values].
  cbn in Hk. apply lookup_insert_Some in Hk as [[_ ?]|[_ Hk]]; [done|].
  rewrite lookup_fmap in Hk. destruct (edge_credentials (fleet store) !! k) as [old|]; [|done]. injection Hk as <-.
  case_bool_decide; [done|]. by cbn in *.
Qed.

(** ** Releases *)

(** Creating a release: a package with errors changes nothing and its errors are
    returned; any other is stored with a pending release of its version, and the
    audit has one more record. *)
Lemma create_release_spec decoder id audit now package store store' outcome :
  create_release decoder id audit now package store = Ok (store', outcome) ->
  exists errors, validate_package decoder package = Ok errors /\
  match outcome with
  | inr reported => reported = errors /\ errors <> [] /\ store' = store
  | inl created =>
      errors = [] /\ release_id created = id /\ release_status created = Release_Pending /\
      release_desired_version created = pkg_version package /\ release_edge_id created = pkg_edge_id package /\
      config_package store' (pkg_edge_id package) (pkg_version package) = Some package /\
      release store' id = Some created /\ (forall other, other <> id -> release store' other = release store other) /\
      audit_records (fleet store') = (audit_records (fleet store) ++ [audit_by_system audit now CreateRelease id])%list
  end.
Proof.
  unfold create_release, prepare_release. destruct (validate_package decoder package) as [errors| |] eqn:E; [|done|done].
  cbn. destruct (decide (errors = [])) as [He|Hne].
  - rewrite bool_decide_true by done. cbn. intros [= <- <-]. exists errors. split; [done|]. cbn.
    unfold config_package, release. cbn. rewrite !lookup_insert_eq. do 7 (split; [done|]). split; [|done].
    intros other Ho. by rewrite lookup_insert_ne.
  - rewrite bool_decide_false by done. cbn. intros [= <- <-]. eauto.
Qed.

(** A report of an edge settles the release: it is applied exactly when the
    reported version is the desired one, and failed otherwise. *)
Lemma mark_reported_spec audit now id version store store' updated :
  mark_reported audit now id version store = (store', Some updated) ->
  exists old, release store id = Some old /\ release store' id = Some updated /\
    release_reported_version updated = Some version /\ release_edge_id updated = release_edge_id old /\
    release_desired_version updated = release_desired_version old /\
    (release_status updated = Release_Applied <-> release_desired_version old = version) /\
    (release_status updated = Release_Failed <-> release_desired_version old <> version) /\
    (forall other, other <> id -> release store' other = release store other) /\
    audit_records (fleet store') = (audit_records (fleet store) ++ [audit_by_system audit now ApplyRelease id])%list.
Proof.
  unfold mark_reported, release. destruct (releases (fleet store) !! id) as [old|] eqn:E; [|done]. intros [= <- <-].
  exists old. cbn. rewrite lookup_insert_eq. do 5 (split; [done|]).
  split; [case_bool_decide; naive_solver|]. split; [case_bool_decide; naive_solver|]. split; [|done].
  intros other Ho. by rewrite lookup_insert_ne.
Qed.

(** The latest package is the greatest in the order of texts, in which "v9" comes
    after "v10". *)
Example latest_version_is_textual :
  max_by str_leb ["v9"; "v10"] = Some "v9" /\ str_leb "v10" "v9" = true.
Proof. by vm_compute. Qed.
