(* ===== verification/MqttSession.v ===== *)
(** The sessions with MQTT brokers, [crates/edge-runtime/src/mqtt_uplink.rs]: the
    options of a connection, the event loop behind it, the publisher of one broker,
    that of several, and the one the runtime keeps over changes of its configuration.

    The client library is a class: what it accepts to publish and to subscribe, the
    events its loop sends while a publish waits, and the opening of a session.  The
    environment and the files are functions.

    [session_connected_iff] says when a session counts as connected,
    [publish_confirmed_iff] when a publish succeeds, and [persistent_sessions_match]
    that the sessions are those of the last configuration; a late confirmation may
    be taken for that of the next message ([late_confirmation_accepted]). *)

From Stdlib Require Import ZArith Lia.
From S2P Require Import Prelude RustStr Floats Json Model BTree ConfigTypes KvStore Outbox CommandPlan CommandRuntime CloudStore.
From S2P Require Import MqttMessages.

Open Scope string_scope.
Open Scope Z_scope.

(** ** Options *)

#[export] Instance MqttUserProperty_eq_dec : EqDecision MqttUserProperty.
Proof. solve_decision. Defined.

#[export] Instance MqttProtocolVersion_eq_dec : EqDecision MqttProtocolVersion.
Proof. solve_decision. Defined.

#[export] Instance MqttLastWillConfig_eq_dec : EqDecision MqttLastWillConfig.
Proof. solve_decision. Defined.

#[export] Instance MqttUplinkConfig_eq_dec : EqDecision MqttUplinkConfig.
Proof. solve_decision. Defined.

Inductive Transport := Transport_tcp | Transport_tls (ca : bytes) | Transport_tls_default.

(** [LastWill] of both versions of the library; the properties are those of MQTT 5. *)
Record LastWillProperties := {
  lw_delay_interval : option Z;
  lw_payload_format_indicator : option Z;
  lw_message_expiry_interval : option Z;
  lw_content_type : option string;
  lw_response_topic : option string;
  lw_correlation_data : option bytes;
  lw_user_properties : list (string * string);
}.

Record LastWill := {
  lw_topic : string;
  lw_message : bytes;
  lw_qos : Z;
  lw_retain : bool;
  lw_properties : option LastWillProperties;
}.

(** What both versions configure, and the settings that MQTT 5 adds. *)
Record MqttOptions := {
  opt_client_id : string;
  opt_host : string;
  opt_port : Z;
  opt_keep_alive : Z;
  opt_clean : bool;
  opt_credentials : option (string * string);
  opt_last_will : option LastWill;
  opt_transport : Transport;
}.

Record MqttOptionsV5 := {
  opt_session_expiry_interval : option Z;
  opt_receive_maximum : option Z;
  opt_max_packet_size : option Z;
  opt_topic_alias_max : option Z;
  opt_request_response_info : Z;
  opt_request_problem_info : Z;
  opt_user_properties : list (string * string);
}.

Section options.
Context (env : string -> option string) (read_file : string -> Result bytes).

(** [std::env::var(password_env)] with its context. *)
Definition password_of (password_env : string) : Result string :=
  ok_or (env password_env) ("mqtt password environment variable is not available: " ++ password_env).

Definition read_ca (tls : bool) (ca_path : string) : Result bytes :=
  ensure tls "mqtt TLS CA path requires an mqtts:// broker";;
  ca ← with_context (read_file ca_path) ("read mqtt TLS CA certificate: " ++ ca_path);
  ensure (negb (bool_decide (ca = []))) ("mqtt TLS CA certificate is empty: " ++ ca_path);;
  Ok ca.

Definition validate_uplink_environment (uplink : MqttUplinkConfig) (tls : bool) : Result () :=
  validate_uplink uplink;;
  match up_password_env uplink with Some password_env => _ ← password_of password_env; Ok () | None => Ok () end;;
  match up_tls_ca_path uplink with Some ca_path => _ ← read_ca tls ca_path; Ok () | None => Ok () end.

Definition validate_mqtt_uplink_runtime_environment (uplink : MqttUplinkConfig) : Result () :=
  target ← parse_mqtt_broker_target (up_broker uplink);
  validate_uplink_environment uplink (target_tls target).

Definition rumqttc_qos (qos : Z) : Result Z := validate_qos qos;; Ok qos.

Definition credentials_of (uplink : MqttUplinkConfig) : Result (option (string * string)) :=
  match up_username uplink, up_password_env uplink with
  | Some username, Some password_env => password ← password_of password_env; Ok (Some (username, password))
  | _, _ => Ok None
  end.

Definition transport_of (uplink : MqttUplinkConfig) (tls : bool) : Result Transport :=
  match up_tls_ca_path uplink with
  | Some ca_path => ca ← read_ca tls ca_path; Ok (Transport_tls ca)
  | None => Ok (if tls then Transport_tls_default else Transport_tcp)
  end.

Definition property_pair (property : MqttUserProperty) : string * string := (prop_key property, prop_value property).

Definition positive (n : Z) : option Z := if 0 <? n then Some n else None.

Definition will_properties (will : MqttLastWillConfig) : LastWillProperties :=
  {| lw_delay_interval := positive (will_delay_interval_seconds will);
     lw_payload_format_indicator := if will_payload_format_utf8 will then Some 1 else None;
     lw_message_expiry_interval := positive (will_message_expiry_interval_seconds will);
     lw_content_type := will_content_type will; lw_response_topic := will_response_topic will;
     lw_correlation_data := str_bytes <$> will_correlation_data will;
     lw_user_properties := property_pair <$> will_user_properties will |}.

Definition last_will_of (v5 : bool) (uplink : MqttUplinkConfig) : Result (option LastWill) :=
  match up_last_will uplink with
  | Some will =>
      qos ← rumqttc_qos (will_qos will);
      Ok (Some {| lw_topic := will_topic will; lw_message := str_bytes (will_payload will); lw_qos := qos;
                  lw_retain := will_retain will; lw_properties := if v5 then Some (will_properties will) else None |})
  | None => Ok None
  end.

(** The options of MQTT 3.1.1 as the session sets them, [configure_mqtt_options]
    included; [client_id] is that of the uplink or that of its commands. *)
Definition configure_mqtt_options (client_id : string) (uplink : MqttUplinkConfig) (target : MqttBrokerTarget) : Result MqttOptions :=
  validate_uplink_environment uplink (target_tls target);;
  credentials ← credentials_of uplink;
  last_will ← last_will_of false uplink;
  transport ← transport_of uplink (target_tls target);
  Ok {| opt_client_id := client_id; opt_host := target_host target; opt_port := target_port target;
        opt_keep_alive := up_keep_alive_seconds uplink; opt_clean := up_clean_session uplink;
        opt_credentials := credentials; opt_last_will := last_will; opt_transport := transport |}.

Definition configure_mqtt_v5_options (client_id : string) (uplink : MqttUplinkConfig) (target : MqttBrokerTarget)
    : Result (MqttOptions * MqttOptionsV5) :=
  validate_uplink_environment uplink (target_tls target);;
  credentials ← credentials_of uplink;
  last_will ← last_will_of true uplink;
  transport ← transport_of uplink (target_tls target);
  Ok ({| opt_client_id := client_id; opt_host := target_host target; opt_port := target_port target;
         opt_keep_alive := up_keep_alive_seconds uplink; opt_clean := up_clean_start uplink;
         opt_credentials := credentials; opt_last_will := last_will; opt_transport := transport |},
      {| opt_session_expiry_interval := positive (up_session_expiry_interval_seconds uplink);
         opt_receive_maximum := up_receive_maximum uplink; opt_max_packet_size := up_maximum_packet_size_bytes uplink;
         opt_topic_alias_max := up_topic_alias_maximum uplink;
         opt_request_response_info := Z.b2z (up_request_response_information uplink);
         opt_request_problem_info := Z.b2z (up_request_problem_information uplink);
         opt_user_properties := property_pair <$> up_user_properties uplink |}).
End options.

(** ** The client library *)

Abbreviation Subscription := (string * string * Z)%type.

Inductive MqttBrokerEvent :=
| PublishSent (packet_id : Z)
| PublishAcknowledged (packet_id : Z)
| PublishCompleted (packet_id : Z)
| ConnectionError (error : string).

#[export] Instance MqttBrokerEvent_eq_dec : EqDecision MqttBrokerEvent.
Proof. solve_decision. Defined.

(** [MqttClient] with the event loop behind it.  [client_wait limit] is the time a
    publish waits: the events the loop sends before the limit, and whether the loop
    has stopped. *)
Class MqttClient (C : Type) := {
  client_publish : string -> Z -> bytes -> M C ();
  client_subscribe : string -> Z -> M C ();
  client_wait : Z -> C -> C * (list MqttBrokerEvent * bool);
  client_connected : C -> bool;
}.

(** ** The event loop *)

(** What [eventloop.poll()] returns; a topic of MQTT 5 is bytes. *)
Inductive Poll :=
| Poll_ConnAck
| Poll_SubAck
| Poll_Publish (topic payload : bytes)
| Poll_OutgoingPublish (packet_id : Z)
| Poll_PubAck (packet_id : Z)
| Poll_PubComp (packet_id : Z)
| Poll_Other
| Poll_Error (error : string).

Record LoopState := {
  loop_connected : bool;
  pending_subscription_acks : Z;
  loop_events : list MqttBrokerEvent;
  loop_commands : list MqttCommandMessage;
}.

Definition new_loop : LoopState :=
  {| loop_connected := false; pending_subscription_acks := 0; loop_events := []; loop_commands := [] |}.

Definition set_session (connected : bool) (pending : Z) (st : LoopState) : LoopState :=
  {| loop_connected := connected; pending_subscription_acks := pending; loop_events := loop_events st;
     loop_commands := loop_commands st |}.

Definition send_event (event : MqttBrokerEvent) (st : LoopState) : LoopState :=
  {| loop_connected := loop_connected st; pending_subscription_acks := pending_subscription_acks st;
     loop_events := (loop_events st ++ [event])%list; loop_commands := loop_commands st |}.

(** The message of a topic with its flows, sent when there is one. *)
Definition route_command_message (sink_id : string) (subscriptions : list Subscription) (topic : string) (payload : bytes)
    (st : LoopState) : LoopState :=
  let flow_ids := routed_flows subscriptions topic in
  if bool_decide (flow_ids = []) then st
  else
    {| loop_connected := loop_connected st; pending_subscription_acks := pending_subscription_acks st;
       loop_events := loop_events st;
       loop_commands := (loop_commands st ++ [{| cmd_sink_id := sink_id; cmd_topic := topic; cmd_payload := payload;
                                                 cmd_flow_ids := flow_ids |}])%list |}.

(** The topics to subscribe to, each with the greatest quality of its flows. *)
Definition add_topic (topics : gmap string Z) (subscription : Subscription) : gmap string Z :=
  let '(_, topic, qos) := subscription in
  <[topic := match topics !! topic with Some configured => Z.max configured qos | None => qos end]> topics.

Definition subscribed_topics (subscriptions : list Subscription) : gmap string Z := foldl add_topic ∅ subscriptions.

Section eventloop.
Context {C : Type} `{MqttClient C}.

Fixpoint subscribe_each (topics : list (string * Z)) : M C () :=
  match topics with
  | [] => mret tt
  | (topic, qos) :: topics => qos ← lift (rumqttc_qos qos); _ ← client_subscribe topic qos; subscribe_each topics
  end.

(** [subscribe_v3_topics] and [subscribe_v5_topics]. *)
Definition subscribe_topics (subscriptions : list Subscription) : M C Z :=
  let topics := subscribed_topics subscriptions in
  _ ← subscribe_each (sort_by (fun a b => str_leb (fst a) (fst b)) (map_to_list topics));
  mret (Z.of_nat (size topics)).

(** What the loops of publishers and of subscribers do alike. *)
Definition session_poll (v5 : bool) (sink_id : string) (subscriptions : list Subscription) (poll : Poll) (s : C * LoopState)
    : C * LoopState :=
  let '(c, st) := s in
  match poll with
  | Poll_ConnAck =>
      match subscribe_topics subscriptions c with
      | (c, Ok count) =>
          (c, if count =? 0 then set_session true (pending_subscription_acks st) st else set_session false count st)
      | (c, _) => (c, set_session false 0 st)
      end
  | Poll_SubAck =>
      let pending := sat_sub (pending_subscription_acks st) 1 in
      (c, set_session (if pending =? 0 then true else loop_connected st) pending st)
  | Poll_Publish topic payload =>
      (c, if v5 && negb (utf8_valid topic) then st
          else route_command_message sink_id subscriptions (str_of_bytes topic) payload st)
  | Poll_Error _ => (c, set_session false 0 st)
  | _ => (c, st)
  end.

(** [spawn_eventloop] and [spawn_v5_eventloop], one turn; the publisher that holds
    the other end of the channel aborts the loop when it is dropped. *)
Definition eventloop_step (v5 : bool) (sink_id : string) (subscriptions : list Subscription) (s : C * LoopState) (poll : Poll)
    : C * LoopState :=
  let '(c, st) := session_poll v5 sink_id subscriptions poll s in
  (c, match poll with
      | Poll_OutgoingPublish packet_id => send_event (PublishSent packet_id) st
      | Poll_PubAck packet_id => send_event (PublishAcknowledged packet_id) st
      | Poll_PubComp packet_id => send_event (PublishCompleted packet_id) st
      | Poll_Error error => send_event (ConnectionError error) st
      | _ => st
      end).

(** The loop from its start. *)
Definition run_eventloop (v5 : bool) (sink_id : string) (subscriptions : list Subscription) (polls : list Poll) (c : C)
    : C * LoopState := foldl (eventloop_step v5 sink_id subscriptions) (c, new_loop) polls.
End eventloop.

(** ** The publisher of one broker *)

Record RumqttcMqttPublisher (C : Type) := {
  rp_sink_id : string;
  rp_broker : string;
  rp_client_id : string;
  rp_protocol_version : MqttProtocolVersion;
  rp_client : C;
  rp_broker_events : list MqttBrokerEvent;
  rp_acknowledgement_timeout : Z;
  rp_publish_success_count : Z;
  rp_publish_failure_count : Z;
  rp_published_bytes : Z;
  rp_acknowledgement_latency_total_ms : Z;
  rp_last_ack_latency_ms : option Z;
  rp_last_publish_at : option DateTime;
  rp_last_topic : option string;
  rp_last_error : option string;
}.

Arguments rp_sink_id {C}. Arguments rp_broker {C}. Arguments rp_client_id {C}. Arguments rp_client {C}.
Arguments rp_protocol_version {C}.
Arguments rp_broker_events {C}. Arguments rp_acknowledgement_timeout {C}. Arguments rp_publish_success_count {C}.
Arguments rp_publish_failure_count {C}. Arguments rp_published_bytes {C}. Arguments rp_acknowledgement_latency_total_ms {C}.
Arguments rp_last_ack_latency_ms {C}. Arguments rp_last_publish_at {C}. Arguments rp_last_topic {C}. Arguments rp_last_error {C}.

Record MqttSinkRuntimeStatus := {
  st_sink_id : string;
  st_broker : string;
  st_client_id : string;
  st_connected : bool;
  st_publish_success_count : Z;
  st_publish_failure_count : Z;
  st_published_bytes : Z;
  st_average_ack_latency_ms : Z;
  st_last_ack_latency_ms : option Z;
  st_last_publish_at : option DateTime;
  st_last_topic : option string;
  st_last_error : option string;
}.

(** The first loop of [await_broker_confirmation]: the packet of the publish; [None]
    when the events are used up. *)
Fixpoint await_sent (events : list MqttBrokerEvent) : list MqttBrokerEvent * option (Result Z) :=
  match events with
  | [] => ([], None)
  | PublishSent packet_id :: events => (events, Some (Ok packet_id))
  | ConnectionError error :: events => (events, Some (Err error))
  | _ :: events => await_sent events
  end.

(** The event that confirms a packet at a quality of service. *)
Definition confirms (qos packet_id : Z) (event : MqttBrokerEvent) : bool :=
  match event with
  | PublishAcknowledged ack_id => (qos =? 1) && (ack_id =? packet_id)
  | PublishCompleted ack_id => (qos =? 2) && (ack_id =? packet_id)
  | _ => false
  end.

(** The second loop. *)
Fixpoint await_ack (qos packet_id : Z) (events : list MqttBrokerEvent) : list MqttBrokerEvent * option (Result ()) :=
  match events with
  | [] => ([], None)
  | event :: events =>
      if confirms qos packet_id event then (events, Some (Ok ()))
      else
        match event with
        | ConnectionError error => (events, Some (Err error))
        | _ => await_ack qos packet_id events
        end
  end.

(** [await_broker_confirmation] on the events before the time limit. *)
Definition await_broker_confirmation (qos : Z) (events : list MqttBrokerEvent) : list MqttBrokerEvent * option (Result ()) :=
  match await_sent events with
  | (events, None) => (events, None)
  | (events, Some (Err error)) => (events, Some (Err error))
  | (events, Some (Panic error)) => (events, Some (Panic error))
  | (events, Some (Ok packet_id)) =>
      if qos =? 0 then (events, Some (Ok ()))
      else if packet_id =? 0 then
        (events, Some (Err ("mqtt broker event did not assign a packet id for qos " ++ show_Z qos)))
      else await_ack qos packet_id events
  end.

(** [duration_millis], of a time in nanoseconds. *)
Definition duration_millis (duration : Z) : Z :=
  if duration =? 0 then 0 else Z.min (Z.max (duration / 1000000) 1) (u_max 64).

Section publisher.
Context {C : Type} `{MqttClient C}.

(** The readings of the clocks during a publish, by the number of earlier ones. *)
Context (elapsed : Z -> Z) (utc : Z -> DateTime).

Definition set_io (client : C) (events : list MqttBrokerEvent) (publisher : RumqttcMqttPublisher C) : RumqttcMqttPublisher C :=
  {| rp_sink_id := rp_sink_id publisher; rp_broker := rp_broker publisher; rp_client_id := rp_client_id publisher;
     rp_protocol_version := rp_protocol_version publisher;
     rp_client := client; rp_broker_events := events; rp_acknowledgement_timeout := rp_acknowledgement_timeout publisher;
     rp_publish_success_count := rp_publish_success_count publisher;
     rp_publish_failure_count := rp_publish_failure_count publisher; rp_published_bytes := rp_published_bytes publisher;
     rp_acknowledgement_latency_total_ms := rp_acknowledgement_latency_total_ms publisher;
     rp_last_ack_latency_ms := rp_last_ack_latency_ms publisher; rp_last_publish_at := rp_last_publish_at publisher;
     rp_last_topic := rp_last_topic publisher; rp_last_error := rp_last_error publisher |}.

(** The guarded part of [publish]: the route, the client and the confirmation. *)
Definition publish_and_wait (message : MqttPublishMessage) : M (RumqttcMqttPublisher C) () := fun publisher =>
  if negb (bool_decide (msg_sink_id message = rp_sink_id publisher)) ||
     negb (bool_decide (msg_broker message = rp_broker publisher)) ||
     negb (bool_decide (msg_client_id message = rp_client_id publisher))
  then (publisher, Err ("mqtt message route " ++ msg_sink_id message ++ " (" ++ msg_broker message ++ ", " ++
                        msg_client_id message ++ ") does not match connected route " ++ rp_sink_id publisher ++ " (" ++
                        rp_broker publisher ++ ", " ++ rp_client_id publisher ++ ")"))
  else
    match rumqttc_qos (msg_qos message) with
    | Ok qos =>
        match client_publish (msg_topic message) qos (msg_payload message) (rp_client publisher) with
        | (client, Ok ()) =>
            let '(client, (arrived, stopped)) := client_wait (rp_acknowledgement_timeout publisher) client in
            let '(events, answer) := await_broker_confirmation (msg_qos message) (rp_broker_events publisher ++ arrived)%list in
            (set_io client events publisher,
             match answer with
             | Some answer => answer
             | None => Err (if stopped then "mqtt eventloop stopped before broker acknowledgement"
                            else "mqtt broker acknowledgement timed out")
             end)
        | (client, Err _) =>
            (set_io client (rp_broker_events publisher) publisher,
             Err match rp_protocol_version publisher with
                 | V3_1_1 => "enqueue MQTT 3.1.1 publish" | V5_0 => "enqueue MQTT 5.0 publish"
                 end)
        | (client, Panic error) => (set_io client (rp_broker_events publisher) publisher, Panic error)
        end
    | Err error => (publisher, Err error)
    | Panic error => (publisher, Panic error)
    end.

Definition record_topic (topic : string) (publisher : RumqttcMqttPublisher C) : RumqttcMqttPublisher C :=
  {| rp_sink_id := rp_sink_id publisher; rp_broker := rp_broker publisher; rp_client_id := rp_client_id publisher;
     rp_protocol_version := rp_protocol_version publisher;
     rp_client := rp_client publisher; rp_broker_events := rp_broker_events publisher;
     rp_acknowledgement_timeout := rp_acknowledgement_timeout publisher;
     rp_publish_success_count := rp_publish_success_count publisher;
     rp_publish_failure_count := rp_publish_failure_count publisher; rp_published_bytes := rp_published_bytes publisher;
     rp_acknowledgement_latency_total_ms := rp_acknowledgement_latency_total_ms publisher;
     rp_last_ack_latency_ms := rp_last_ack_latency_ms publisher; rp_last_publish_at := rp_last_publish_at publisher;
     rp_last_topic := Some topic; rp_last_error := rp_last_error publisher |}.

Definition record_publish_success (payload_bytes latency_ms : Z) (now : DateTime) (publisher : RumqttcMqttPublisher C)
    : RumqttcMqttPublisher C :=
  {| rp_sink_id := rp_sink_id publisher; rp_broker := rp_broker publisher; rp_client_id := rp_client_id publisher;
     rp_protocol_version := rp_protocol_version publisher;
     rp_client := rp_client publisher; rp_broker_events := rp_broker_events publisher;
     rp_acknowledgement_timeout := rp_acknowledgement_timeout publisher;
     rp_publish_success_count := sat_add 64 (rp_publish_success_count publisher) 1;
     rp_publish_failure_count := rp_publish_failure_count publisher;
     rp_published_bytes := sat_add 64 (rp_published_bytes publisher) payload_bytes;
     rp_acknowledgement_latency_total_ms := sat_add 64 (rp_acknowledgement_latency_total_ms publisher) latency_ms;
     rp_last_ack_latency_ms := Some latency_ms; rp_last_publish_at := Some now;
     rp_last_topic := rp_last_topic publisher; rp_last_error := None |}.

Definition record_publish_failure (error : string) (publisher : RumqttcMqttPublisher C) : RumqttcMqttPublisher C :=
  {| rp_sink_id := rp_sink_id publisher; rp_broker := rp_broker publisher; rp_client_id := rp_client_id publisher;
     rp_protocol_version := rp_protocol_version publisher;
     rp_client := rp_client publisher; rp_broker_events := rp_broker_events publisher;
     rp_acknowledgement_timeout := rp_acknowledgement_timeout publisher;
     rp_publish_success_count := rp_publish_success_count publisher;
     rp_publish_failure_count := sat_add 64 (rp_publish_failure_count publisher) 1;
     rp_published_bytes := rp_published_bytes publisher;
     rp_acknowledgement_latency_total_ms := rp_acknowledgement_latency_total_ms publisher;
     rp_last_ack_latency_ms := rp_last_ack_latency_ms publisher; rp_last_publish_at := rp_last_publish_at publisher;
     rp_last_topic := rp_last_topic publisher; rp_last_error := Some error |}.

(** [RumqttcMqttPublisher::publish]. *)
Definition rumqttc_publish (message : MqttPublishMessage) : M (RumqttcMqttPublisher C) () := fun publisher =>
  let turn := rp_publish_success_count publisher + rp_publish_failure_count publisher in
  match publish_and_wait message (record_topic (msg_topic message) publisher) with
  | (publisher, Ok ()) =>
      (record_publish_success (Z.of_nat (length (msg_payload message))) (duration_millis (elapsed turn)) (utc turn) publisher, Ok ())
  | (publisher, Err error) => (record_publish_failure error publisher, Err error)
  | (publisher, Panic error) => (publisher, Panic error)
  end.

Definition runtime_status (publisher : RumqttcMqttPublisher C) : MqttSinkRuntimeStatus :=
  {| st_sink_id := rp_sink_id publisher; st_broker := rp_broker publisher; st_client_id := rp_client_id publisher;
     st_connected := client_connected (rp_client publisher);
     st_publish_success_count := rp_publish_success_count publisher;
     st_publish_failure_count := rp_publish_failure_count publisher; st_published_bytes := rp_published_bytes publisher;
     st_average_ack_latency_ms :=
       if rp_publish_success_count publisher =? 0 then 0
       else rp_acknowledgement_latency_total_ms publisher / rp_publish_success_count publisher;
     st_last_ack_latency_ms := rp_last_ack_latency_ms publisher; st_last_publish_at := rp_last_publish_at publisher;
     st_last_topic := rp_last_topic publisher; st_last_error := rp_last_error publisher |}.

(** [connect_from_uplink_with_commands]; [open_session] creates the client and starts
    its loop. *)
Context (env : string -> option string) (read_file : string -> Result bytes).
Context (open_session : MqttOptions -> option MqttOptionsV5 -> list Subscription -> C).

Definition connect_client (uplink : MqttUplinkConfig) (target : MqttBrokerTarget) (subscriptions : list Subscription) : Result C :=
  match up_protocol_version uplink with
  | V3_1_1 =>
      options ← configure_mqtt_options env read_file (up_client_id uplink) uplink target;
      Ok (open_session options None subscriptions)
  | V5_0 =>
      '(options, v5) ← configure_mqtt_v5_options env read_file (up_client_id uplink) uplink target;
      Ok (open_session options (Some v5) subscriptions)
  end.

Definition connect_from_uplink_with_commands (uplink : MqttUplinkConfig) (acknowledgement_timeout : Z)
    (subscriptions : list Subscription) : Result (RumqttcMqttPublisher C) :=
  validate_uplink uplink;;
  ensure (negb (acknowledgement_timeout =? 0)) "mqtt acknowledgement timeout must be greater than zero";;
  target ← parse_mqtt_broker_target (up_broker uplink);
  client ← connect_client uplink target subscriptions;
  Ok {| rp_sink_id := up_sink_id uplink; rp_broker := up_broker uplink; rp_client_id := up_client_id uplink;
        rp_protocol_version := up_protocol_version uplink; rp_client := client; rp_broker_events := []; rp_acknowledgement_timeout := acknowledgement_timeout;
        rp_publish_success_count := 0; rp_publish_failure_count := 0; rp_published_bytes := 0;
        rp_acknowledgement_latency_total_ms := 0; rp_last_ack_latency_ms := None; rp_last_publish_at := None;
        rp_last_topic := None; rp_last_error := None |}.

(** [MqttCommandSubscriber::connect_from_package]: a session for each connection with
    enabled flows, which only takes commands. *)
Definition flows_by_sink (flows : list CommandFlowConfig) : gmap string (list CommandFlowConfig) :=
  foldl (fun by_sink flow =>
           if flow_enabled flow
           then <[flow_mqtt_connection_id flow := (default [] (by_sink !! flow_mqtt_connection_id flow) ++ [flow])%list]> by_sink
           else by_sink) ∅ flows.

Definition connect_commands (package : EdgeConfigPackage) (entry : string * list CommandFlowConfig) : Result C :=
  let '(sink_id, flows) := entry in
  uplink ← ok_or (find_first (fun uplink => bool_decide (up_sink_id uplink = sink_id)) (pkg_mqtt_uplinks package))
             ("command MQTT connection not found: " ++ sink_id);
  validate_uplink uplink;;
  target ← parse_mqtt_broker_target (up_broker uplink);
  let subscriptions := command_subscriptions (pkg_edge_id package) flows in
  let client_id := up_client_id uplink ++ "-commands" in
  match up_protocol_version uplink with
  | V3_1_1 =>
      options ← configure_mqtt_options env read_file client_id uplink target;
      Ok (open_session options None subscriptions)
  | V5_0 =>
      '(options, v5) ← configure_mqtt_v5_options env read_file client_id uplink target;
      Ok (open_session options (Some v5) subscriptions)
  end.

Definition connect_from_package (package : EdgeConfigPackage) : Result (list C) :=
  let by_sink := flows_by_sink (pkg_command_flows package) in
  ensure (negb (bool_decide (by_sink = ∅))) "at least one enabled command flow is required";;
  collect_results (connect_commands package <$> sort_by (fun a b => str_leb (fst a) (fst b)) (map_to_list by_sink)).

(** ** Several brokers *)

Abbreviation Publishers := (gmap string (RumqttcMqttPublisher C)).
Abbreviation Subscriptions := (gmap string (list Subscription)).

Fixpoint connect_each (uplinks : list MqttUplinkConfig) (acknowledgement_timeout : Z) (subscriptions : Subscriptions)
    (publishers : Publishers) : Result Publishers :=
  match uplinks with
  | [] => Ok publishers
  | uplink :: uplinks =>
      ensure (negb (bool_decide (is_Some (publishers !! up_sink_id uplink)))) ("duplicate mqtt sink id: " ++ up_sink_id uplink);;
      publisher ← connect_from_uplink_with_commands uplink acknowledgement_timeout
                    (default [] (subscriptions !! up_sink_id uplink));
      connect_each uplinks acknowledgement_timeout subscriptions (<[up_sink_id uplink := publisher]> publishers)
  end.

(** [MultiBrokerMqttPublisher::connect_with_subscriptions]: the publishers by sink. *)
Definition connect_with_subscriptions (uplinks : list MqttUplinkConfig) (acknowledgement_timeout : Z)
    (subscriptions : Subscriptions) : Result Publishers :=
  ensure (negb (bool_decide (uplinks = []))) "at least one mqtt uplink is required";;
  connect_each uplinks acknowledgement_timeout subscriptions ∅.

Definition multi_publish (message : MqttPublishMessage) : M Publishers () := fun publishers =>
  match publishers !! msg_sink_id message with
  | None => (publishers, Err ("mqtt sink is not configured: " ++ msg_sink_id message))
  | Some publisher =>
      let '(publisher, result) := rumqttc_publish message publisher in
      (<[msg_sink_id message := publisher]> publishers, result)
  end.

Definition connected_count (publishers : Publishers) : Z :=
  Z.of_nat (length (filter (fun publisher => client_connected (rp_client publisher) = true) (sorted_values str_leb publishers))).

Definition runtime_statuses (publishers : Publishers) : list MqttSinkRuntimeStatus :=
  runtime_status <$> sorted_values str_leb publishers.

(** ** The publisher of the runtime *)

Record PersistentMqttPublisher := {
  pm_uplinks : list MqttUplinkConfig;
  pm_command_subscriptions : Subscriptions;
  pm_publisher : option Publishers;
  pm_acknowledgement_timeout : Z;
  pm_connection_generation : Z;
}.

Definition with_ack_timeout (acknowledgement_timeout : Z) : PersistentMqttPublisher :=
  {| pm_uplinks := []; pm_command_subscriptions := ∅; pm_publisher := None;
     pm_acknowledgement_timeout := acknowledgement_timeout; pm_connection_generation := 0 |}.

(** [configure_with_subscriptions]; the answer says whether there is a session. *)
Definition configure_with_subscriptions (uplinks : list MqttUplinkConfig) (command_subscriptions : Subscriptions)
    : M PersistentMqttPublisher bool := fun s =>
  let next := sat_add 64 (pm_connection_generation s) 1 in
  if bool_decide (uplinks = []) then
    ({| pm_uplinks := []; pm_command_subscriptions := ∅; pm_publisher := None;
        pm_acknowledgement_timeout := pm_acknowledgement_timeout s;
        pm_connection_generation := match pm_publisher s with Some _ => next | None => pm_connection_generation s end |}, Ok false)
  else if bool_decide (is_Some (pm_publisher s)) && bool_decide (pm_uplinks s = uplinks) &&
          bool_decide (pm_command_subscriptions s = command_subscriptions) then (s, Ok true)
  else
    match connect_with_subscriptions uplinks (pm_acknowledgement_timeout s) command_subscriptions with
    | Ok publisher =>
        ({| pm_uplinks := uplinks; pm_command_subscriptions := command_subscriptions; pm_publisher := Some publisher;
            pm_acknowledgement_timeout := pm_acknowledgement_timeout s; pm_connection_generation := next |}, Ok true)
    | Err error => (s, Err error)
    | Panic error => (s, Panic error)
    end.

Definition configure_package (package : EdgeConfigPackage) : M PersistentMqttPublisher bool :=
  subscriptions ← lift (command_subscriptions_by_sink package);
  configure_with_subscriptions (pkg_mqtt_uplinks package) subscriptions.

(** [PersistentMqttPublisher::publish]. *)
Definition persistent_publish (message : MqttPublishMessage) : M PersistentMqttPublisher () := fun s =>
  match pm_publisher s with
  | None => (s, Err "mqtt session is not configured")
  | Some publishers =>
      let '(publishers, result) := multi_publish message publishers in
      ({| pm_uplinks := pm_uplinks s; pm_command_subscriptions := pm_command_subscriptions s; pm_publisher := Some publishers;
          pm_acknowledgement_timeout := pm_acknowledgement_timeout s;
          pm_connection_generation := pm_connection_generation s |}, result)
  end.

#[export] Instance persistent_publisher : MqttPublisher PersistentMqttPublisher := persistent_publish.

(** [iter.sum()] of 64-bit counters, with the wrap-around of a release build. *)
Definition sum_u64 (counts : list Z) : Z := foldl (fun sum count => wrap 64 (sum + count)) 0 counts.

Definition sink_metrics (sink : MqttSinkRuntimeStatus) : MqttSinkRuntimeMetrics :=
  {| sink_metrics_id := st_sink_id sink; sink_broker := st_broker sink; sink_client_id := st_client_id sink;
     sink_connected := st_connected sink; sink_publish_success_count := st_publish_success_count sink;
     sink_publish_failure_count := st_publish_failure_count sink; sink_published_bytes := st_published_bytes sink;
     sink_average_ack_latency_ms := st_average_ack_latency_ms sink; sink_last_ack_latency_ms := st_last_ack_latency_ms sink;
     sink_last_publish_at := st_last_publish_at sink; sink_last_topic := st_last_topic sink;
     sink_last_error := st_last_error sink |}.

(** [status] followed by [runtime_metrics]. *)
Definition status_metrics (s : PersistentMqttPublisher) : MqttRuntimeMetrics :=
  let sinks := match pm_publisher s with Some publishers => runtime_statuses publishers | None => [] end in
  {| configured_sink_count := match pm_publisher s with Some publishers => Z.of_nat (size publishers) | None => 0 end;
     connected_sink_count := match pm_publisher s with Some publishers => connected_count publishers | None => 0 end;
     mqtt_connection_generation := pm_connection_generation s;
     publish_success_count := sum_u64 (st_publish_success_count <$> sinks);
     publish_failure_count := sum_u64 (st_publish_failure_count <$> sinks);
     published_bytes := sum_u64 (st_published_bytes <$> sinks);
     metrics_sinks := sink_metrics <$> sinks |}.
End publisher.

(** ** Confirmations *)

Definition is_ack (event : MqttBrokerEvent) : Prop :=
  match event with PublishAcknowledged _ | PublishCompleted _ => True | _ => False end.

Definition is_error (event : MqttBrokerEvent) : bool := match event with ConnectionError _ => true | _ => false end.

(** The events confirm a publish and leave [rest]: the packet is sent before any
    error, and above quality zero it has a number and is confirmed, again before any
    error. *)
Definition confirmation (qos : Z) (events rest : list MqttBrokerEvent) : Prop :=
  exists before packet_id after,
    events = (before ++ PublishSent packet_id :: after)%list /\ Forall is_ack before /\
    ((qos = 0 /\ rest = after) \/
     (qos <> 0 /\ packet_id <> 0 /\ exists between event, after = (between ++ event :: rest)%list /\
        confirms qos packet_id event = true /\
        Forall (fun other => confirms qos packet_id other = false /\ is_error other = false) between)).

Lemma await_sent_Ok events rest packet_id :
  await_sent events = (rest, Some (Ok packet_id)) <->
  exists before, events = (before ++ PublishSent packet_id :: rest)%list /\ Forall is_ack before.
Proof.
  split.
  - induction events as [|event events IH]; cbn [await_sent]; [done|].
    destruct event as [id|id|id|error]; [intros [= -> ->]; by exists []|..|done];
      intros (before & -> & Hb)%IH; [exists (PublishAcknowledged id :: before) | exists (PublishCompleted id :: before)];
      split; done || by constructor.
  - intros (before & -> & Hb). induction Hb as [|event before He _ IH]; [done|]. by destruct event.
Qed.

Lemma await_ack_Ok qos packet_id events rest :
  await_ack qos packet_id events = (rest, Some (Ok ())) <->
  exists between event, events = (between ++ event :: rest)%list /\ confirms qos packet_id event = true /\
    Forall (fun other => confirms qos packet_id other = false /\ is_error other = false) between.
Proof.
  split.
  - induction events as [|event events IH]; cbn [await_ack]; [done|].
    destruct (confirms qos packet_id event) eqn:E; [intros [= ->]; by exists [], event|].
    destruct (is_error event) eqn:Ee; [by destruct event|]. intros Ha.
    assert (Hrest : await_ack qos packet_id events = (rest, Some (Ok ()))) by by destruct event.
    apply IH in Hrest as (between & confirming & -> & Hc & Hb). exists (event :: between), confirming.
    split; [done|]. split; [done|]. by constructor.
  - intros (between & event & -> & Hc & Hb). induction Hb as [|other between [Hn He] _ IH]; cbn; [by rewrite Hc|].
    rewrite Hn. by destruct other.
Qed.

Lemma confirmation_iff qos events rest :
  await_broker_confirmation qos events = (rest, Some (Ok ())) <-> confirmation qos events rest.
Proof.
  unfold await_broker_confirmation, confirmation. split.
  - destruct (await_sent events) as [after [[packet_id|error|error]|]] eqn:Es; try done.
    apply await_sent_Ok in Es as (before & -> & Hb). intros Ha. exists before, packet_id, after. split; [done|]. split; [done|].
    destruct (Z.eqb_spec qos 0) as [->|Hq]; [left; by injection Ha as ->|].
    destruct (Z.eqb_spec packet_id 0) as [->|Hp]; [done|]. right. split; [done|]. split; [done|]. by apply await_ack_Ok.
  - intros (before & packet_id & after & -> & Hb & Hcase).
    rewrite (proj2 (await_sent_Ok _ after packet_id)) by (by exists before).
    destruct Hcase as [[-> ->]|(Hq & Hp & Hack)]; [done|].
    rewrite (proj2 (Z.eqb_neq _ _) Hq), (proj2 (Z.eqb_neq _ _) Hp). by apply await_ack_Ok.
Qed.

Section publishing.
Context {C : Type} `{MqttClient C} (elapsed : Z -> Z) (utc : Z -> DateTime).

(** The route of a session and of a message. *)
Definition route_of (publisher : RumqttcMqttPublisher C) : string * string * string :=
  (rp_sink_id publisher, rp_broker publisher, rp_client_id publisher).

Definition message_route (message : MqttPublishMessage) : string * string * string :=
  (msg_sink_id message, msg_broker message, msg_client_id message).

(** A publish that returns with success: what the client and the broker did. *)
Definition accepted (message : MqttPublishMessage) (publisher publisher' : RumqttcMqttPublisher C) : Prop :=
  message_route message = route_of publisher /\ msg_qos message <= 2 /\
  exists client client' arrived stopped,
    client_publish (msg_topic message) (msg_qos message) (msg_payload message) (rp_client publisher) = (client, Ok ()) /\
    client_wait (rp_acknowledgement_timeout publisher) client = (client', (arrived, stopped)) /\
    confirmation (msg_qos message) (rp_broker_events publisher ++ arrived)%list (rp_broker_events publisher').

Lemma publish_and_wait_Ok message publisher publisher' :
  publish_and_wait message publisher = (publisher', Ok ()) -> accepted message publisher publisher'.
Proof.
  unfold publish_and_wait, accepted, message_route, route_of, rumqttc_qos, validate_qos.
  repeat case_bool_decide; cbn [negb orb]; try done. destruct (Z.ltb_spec 2 (msg_qos message)) as [|Hq]; [done|]. cbn.
  destruct (client_publish _ _ _ _) as [client [[]|error|error]] eqn:Ep; [|done..].
  destruct (client_wait _ client) as [client' [arrived stopped]] eqn:Ew.
  destruct (await_broker_confirmation _ _) as [rest [answer|]] eqn:Ea; [|done]. intros [= <- ->].
  split; [congruence|]. split; [done|]. exists client, client', arrived, stopped. split; [done|]. split; [done|].
  by apply confirmation_iff.
Qed.


Lemma publish_and_wait_keeps message publisher publisher' result :
  publish_and_wait message publisher = (publisher', result) ->
  exists client events, publisher' = set_io client events publisher.
Proof.
  assert (Hself : publisher = set_io (rp_client publisher) (rp_broker_events publisher) publisher) by by destruct publisher.
  unfold publish_and_wait. destruct (_ || _); [intros [= <- _]; eauto|].
  destruct (rumqttc_qos _) as [qos|error|error]; [|intros [= <- _]; eauto..].
  destruct (client_publish _ _ _ _) as [client [[]|error|error]]; [|intros [= <- _]; eauto..].
  destruct (client_wait _ _) as [client' [arrived stopped]]. destruct (await_broker_confirmation _ _) as [rest answer].
  intros [= <- _]. eauto.
Qed.

Lemma rumqttc_publish_route message publisher :
  route_of (fst (rumqttc_publish elapsed utc message publisher)) = route_of publisher.
Proof.
  unfold rumqttc_publish. destruct (publish_and_wait _ _) as [publisher' result] eqn:Ep.
  apply publish_and_wait_keeps in Ep as (client & events & ->). by destruct result as [[]|error|error].
Qed.

End publishing.

(** ** The connection *)

(** The acknowledged subscriptions of the running connection, [None] without one. *)
Definition count_acks (session : option nat) (poll : Poll) : option nat :=
  match poll with
  | Poll_ConnAck => Some O
  | Poll_SubAck => S <$> session
  | Poll_Error _ => None
  | _ => session
  end.

Definition session_acks (polls : list Poll) : option nat := foldl count_acks None polls.

Definition is_suback (poll : Poll) : bool := match poll with Poll_SubAck => true | _ => false end.

Definition keeps_session (poll : Poll) : Prop := match poll with Poll_ConnAck | Poll_Error _ => False | _ => True end.

Lemma session_acks_iff polls acks :
  session_acks polls = Some acks <->
  exists before after, polls = (before ++ Poll_ConnAck :: after)%list /\ Forall keeps_session after /\
    acks = length (filter (fun poll => is_suback poll = true) after).
Proof.
  revert acks. induction polls as [|poll polls IH] using rev_ind; intros acks.
  { split; [done|]. intros ([|] & after & Heq & _); discriminate. }
  unfold session_acks in *. rewrite foldl_app. cbn [foldl].
  assert (Hlast : forall before after, (polls ++ [poll] = before ++ Poll_ConnAck :: after)%list ->
    (after = [] /\ poll = Poll_ConnAck) \/ exists after', after = (after' ++ [poll])%list /\ polls = (before ++ Poll_ConnAck :: after')%list).
  { intros before after Heq. destruct after as [|last after _] using rev_ind.
    - apply app_inj_tail in Heq as [_ ->]. by left.
    - right. exists after. rewrite app_comm_cons, app_assoc in Heq. by apply app_inj_tail in Heq as [-> ->]. }
  assert (Hkeep : keeps_session poll -> forall n,
    (exists before after, (polls ++ [poll] = before ++ Poll_ConnAck :: after)%list /\ Forall keeps_session after /\
       n = length (filter (fun poll => is_suback poll = true) after)) <->
    exists m, foldl count_acks None polls = Some m /\ n = (m + if is_suback poll then 1 else 0)%nat).
  { intros Hk n. split.
    - intros (before & after & Heq & Hf & ->). apply Hlast in Heq as [[-> ->]|(after' & -> & ->)]; [done|].
      apply Forall_app in Hf as [Hf _]. exists (length (filter (fun poll => is_suback poll = true) after')).
      split; [apply IH; by exists before, after'|]. rewrite list.filter_app, length_app. cbn. by destruct poll.
    - intros (m & (before & after & -> & Hf & ->)%IH & ->). exists before, (after ++ [poll])%list.
      split; [by rewrite <- app_assoc|]. split; [apply Forall_app; by split; [|constructor]|].
      rewrite list.filter_app, length_app. cbn. by destruct poll. }
  destruct poll; cbn [count_acks].
  3-7: rewrite (Hkeep I); cbn; split; [intros Hm; exists acks; split; [done | lia] | intros (m & -> & ->); f_equal; lia].
  - split; [intros [= <-]; by exists polls, []|]. intros (before & after & Heq & Hf & ->).
    apply Hlast in Heq as [[-> _]|(after' & -> & _)]; [done|]. apply Forall_app in Hf as [_ Hf]. by inversion Hf.
  - rewrite (Hkeep I). cbn. rewrite fmap_Some. split; intros (m & Hm & ->); exists m; (split; [done | lia]).
  - split; [done|]. intros (before & after & Heq & Hf & _).
    apply Hlast in Heq as [[-> ?]|(after' & -> & _)]; [done|]. apply Forall_app in Hf as [_ Hf]. by inversion Hf.
Qed.

Section connection.
Context {C : Type} `{MqttClient C} (v5 : bool) (sink_id : string) (subscriptions : list Subscription).

Abbreviation topic_count := (size (subscribed_topics subscriptions)).

Lemma subscribe_topics_count (c c' : C) count :
  subscribe_topics subscriptions c = (c', Ok count) -> count = Z.of_nat topic_count.
Proof.
  unfold subscribe_topics. rewrite M_bind_eq. destruct (subscribe_each _ c) as [c1 [[]|e|e]]; [|done..]. by intros [= _ <-].
Qed.

Lemma subscribe_nothing (c : C) : topic_count = O -> is_ok (snd (subscribe_topics subscriptions c)) = true.
Proof. intros Hz%map_size_empty_inv. unfold subscribe_topics. by rewrite Hz, map_to_list_empty. Qed.

(** Whether the client took every subscription of the running connection. *)
Definition granted_step (s : C * LoopState * bool) (poll : Poll) : C * LoopState * bool :=
  let '(s, granted) := s in
  (eventloop_step v5 sink_id subscriptions s poll,
   match poll with Poll_ConnAck => is_ok (snd (subscribe_topics subscriptions (fst s))) | _ => granted end).

Definition run_granted (polls : list Poll) (c : C) : C * LoopState * bool := foldl granted_step (c, new_loop, true) polls.

Lemma run_granted_loop polls (c : C) : fst (run_granted polls c) = run_eventloop v5 sink_id subscriptions polls c.
Proof.
  unfold run_granted, run_eventloop. induction polls as [|poll polls IH] using rev_ind; [done|].
  rewrite !foldl_app. cbn [foldl]. rewrite <- IH. by destruct (foldl granted_step _ polls) as [s granted].
Qed.

Lemma run_granted_last before after (c : C) :
  Forall keeps_session after ->
  snd (run_granted (before ++ Poll_ConnAck :: after) c) =
  is_ok (snd (subscribe_topics subscriptions (fst (run_eventloop v5 sink_id subscriptions before c)))).
Proof.
  induction after as [|poll after IH] using rev_ind; intros Hk.
  - unfold run_granted. rewrite foldl_app. cbn [foldl]. rewrite <- run_granted_loop. fold (run_granted before c).
    by destruct (run_granted before c) as [s granted].
  - apply Forall_app in Hk as [Hk Hp]. rewrite <- (IH Hk). unfold run_granted. rewrite app_comm_cons, app_assoc, foldl_app.
    cbn [foldl]. destruct (foldl granted_step _ (before ++ Poll_ConnAck :: after)) as [s granted]. cbn.
    apply Forall_cons_iff in Hp as [Hp _]. by destruct poll.
Qed.

(** The acknowledgements a connection waits for. *)
Definition needed_acks (granted : bool) : nat := if granted then topic_count else 1%nat.

(** The loop tracks the acknowledgements of the running connection. *)
Lemma loop_tracks polls (c : C) :
  (forall before after, polls = (before ++ Poll_SubAck :: after)%list -> is_Some (session_acks before)) ->
  let '(_, st, granted) := run_granted polls c in
  match session_acks polls with
  | None => loop_connected st = false /\ pending_subscription_acks st = 0
  | Some acks => pending_subscription_acks st = (if granted then Z.max (Z.of_nat topic_count - Z.of_nat acks) 0 else 0) /\
                 loop_connected st = (needed_acks granted <=? acks)%nat
  end.
Proof.
  unfold run_granted. induction polls as [|poll polls IH] using rev_ind; intros Hwf; [done|].
  assert (Hwf' : forall before after, polls = (before ++ Poll_SubAck :: after)%list -> is_Some (session_acks before)).
  { intros before after ->. apply (Hwf before (after ++ [poll])%list). by rewrite <- app_assoc. }
  specialize (IH Hwf'). rewrite foldl_app. unfold session_acks in *. rewrite foldl_app. cbn [foldl].
  destruct (foldl granted_step (c, new_loop, true) polls) as [[c' st] granted].
  unfold granted_step, eventloop_step, session_poll.
  destruct poll as [| |topic payload|id|id|id| |error]; cbn [count_acks fst].
  - pose proof (subscribe_topics_count c') as Hcount. pose proof (subscribe_nothing c') as Hnone.
    destruct (subscribe_topics subscriptions c') as [c2 [count|e|e]]; cbn [snd is_ok needed_acks].
    + specialize (Hcount c2 count eq_refl). subst count. destruct (Z.eqb_spec (Z.of_nat topic_count) 0) as [Hc|Hc]; cbn.
      * rewrite Hc. assert (Hz : topic_count = O) by lia. rewrite Hz. split; [|done].
        destruct (foldl count_acks None polls) as [acks|]; [destruct granted|]; lia.
      * split; [lia|]. symmetry. apply Nat.leb_gt. lia.
    + by split.
    + by split.
  - destruct (Hwf polls [] eq_refl) as [acks Hacks]. rewrite Hacks in *. destruct IH as [Hp Hc]. cbn -[Z.of_nat]. unfold sat_sub.
    rewrite Hp, Hc. unfold needed_acks. destruct granted.
    + rewrite Nat2Z.inj_succ. split; [lia|].
      destruct (Z.eqb_spec (Z.max (Z.max (Z.of_nat topic_count - Z.of_nat acks) 0 - 1) 0) 0),
        (Nat.leb_spec topic_count acks), (Nat.leb_spec topic_count (S acks)); done || lia.
    + by split.
  - cbn. destruct (v5 && _); [done|]. unfold route_command_message. case_bool_decide; done.
  - done.
  - done.
  - done.
  - done.
  - done.
Qed.

(** [C25] A session counts as connected exactly while a connection runs on which the
    broker has acknowledged every subscription of the command topics: after the
    last acceptance of a connection there was no error, and at least as many
    acknowledgements as there are topics.  Where the client refused a subscription,
    the first acknowledgement is enough (see the findings and
    [refused_subscription_connects]).  The broker acknowledges subscriptions only on
    a running connection. *)
Theorem session_connected_iff polls (c : C) :
  (forall before after, polls = (before ++ Poll_SubAck :: after)%list -> is_Some (session_acks before)) ->
  loop_connected (snd (run_eventloop v5 sink_id subscriptions polls c)) = true <->
  exists before after, polls = (before ++ Poll_ConnAck :: after)%list /\ Forall keeps_session after /\
    let acknowledged := length (filter (fun poll => is_suback poll = true) after) in
    match snd (subscribe_topics subscriptions (fst (run_eventloop v5 sink_id subscriptions before c))) with
    | Ok _ => (size (subscribed_topics subscriptions) <= acknowledged)%nat
    | _ => (1 <= acknowledged)%nat
    end.
Proof.
  intros Hwf. pose proof (loop_tracks polls c Hwf) as Ht. rewrite <- run_granted_loop.
  assert (Hcase : forall before after, polls = (before ++ Poll_ConnAck :: after)%list -> Forall keeps_session after -> forall n,
    (needed_acks (snd (run_granted polls c)) <= n)%nat <->
    match snd (subscribe_topics subscriptions (fst (run_eventloop v5 sink_id subscriptions before c))) with
    | Ok _ => (topic_count <= n)%nat | _ => (1 <= n)%nat end).
  { intros before after -> Hk n. rewrite run_granted_last by done. by destruct (snd (subscribe_topics _ _)). }
  destruct (run_granted polls c) as [[c' st] granted]. cbn [fst snd] in *.
  destruct (session_acks polls) as [acks|] eqn:Ea.
  - destruct Ht as [_ ->]. rewrite Nat.leb_le. split.
    + intros Hle. apply session_acks_iff in Ea as (before & after & Hp & Hk & ->). exists before, after.
      split; [done|]. split; [done|]. by apply (Hcase before after).
    + intros (before & after & Hp & Hk & Hle). assert (Hs : session_acks polls = Some (length (filter (fun poll => is_suback poll = true) after)))
        by (apply session_acks_iff; by exists before, after). rewrite Ea in Hs. injection Hs as ->. by apply (Hcase before after).
  - destruct Ht as [-> _]. split; [done|]. intros (before & after & Hp & Hk & _).
    assert (Hs : session_acks polls = Some (length (filter (fun poll => is_suback poll = true) after)))
      by (apply session_acks_iff; by exists before, after). congruence.
Qed.
End connection.

(** ** The sessions of the runtime *)

Definition uplink_route (uplink : MqttUplinkConfig) : string * string * string :=
  (up_sink_id uplink, up_broker uplink, up_client_id uplink).

Section sessions.
Context {C : Type} `{MqttClient C} (elapsed : Z -> Z) (utc : Z -> DateTime).
Context (env : string -> option string) (read_file : string -> Result bytes).
Context (open_session : MqttOptions -> option MqttOptionsV5 -> list Subscription -> C).

Abbreviation connect := (connect_from_uplink_with_commands env read_file open_session).
Abbreviation configure := (configure_with_subscriptions env read_file open_session).

Lemma connected_route uplink limit subscriptions publisher :
  connect uplink limit subscriptions = Ok publisher -> route_of publisher = uplink_route uplink.
Proof. unfold connect_from_uplink_with_commands. intros Hc. by inv_result. Qed.

(** One session for each uplink, on its route, and no others. *)
Definition sessions_of (uplinks : list MqttUplinkConfig) (publishers : gmap string (RumqttcMqttPublisher C)) : Prop :=
  forall sink route, route_of <$> publishers !! sink = Some route <->
    exists uplink, uplink ∈ uplinks /\ up_sink_id uplink = sink /\ route = uplink_route uplink.

Lemma connect_each_sessions uplinks limit subscriptions publishers result earlier :
  connect_each env read_file open_session uplinks limit subscriptions publishers = Ok result ->
  sessions_of earlier publishers -> NoDup (up_sink_id <$> earlier) ->
  sessions_of (earlier ++ uplinks)%list result /\ NoDup (up_sink_id <$> (earlier ++ uplinks)%list).
Proof.
  revert publishers earlier. induction uplinks as [|uplink uplinks IH]; intros publishers earlier; cbn [connect_each].
  { intros [= <-]. by rewrite app_nil_r. }
  intros Hc Hs Hnd. inv_result.
  match goal with H : connect _ _ _ = Ok ?p |- _ => rename p into publisher; apply connected_route in H as Hroute end.
  match goal with H : negb _ = true |- _ => apply negb_true_iff, bool_decide_eq_false, eq_None_not_Some in H as Hfresh end.
  assert (Hnew : up_sink_id uplink ∉ up_sink_id <$> earlier).
  { intros (other & Heq & Hin)%list_elem_of_fmap. assert (Hsome : route_of <$> publishers !! up_sink_id uplink = Some (uplink_route other))
      by (apply Hs; by exists other). by rewrite Hfresh in Hsome. }
  match goal with H : connect_each _ _ _ _ _ _ _ = Ok _ |- _ => apply (IH _ (earlier ++ [uplink])%list) in H end.
  - by rewrite <- app_assoc in *.
  - intros sink route. destruct (decide (sink = up_sink_id uplink)) as [->|Hne].
    + rewrite lookup_insert_eq. cbn. rewrite Hroute. split; [intros [= <-]; exists uplink; split; [set_solver | done]|].
      intros (other & [Hin| ->%list_elem_of_singleton]%elem_of_app & Hsink & ->); [|done].
      exfalso. apply Hnew, list_elem_of_fmap. by exists other.
    + rewrite lookup_insert_ne, (Hs sink route) by done. split.
      * intros (other & Hin & Hrest). exists other. split; [set_solver | done].
      * intros (other & [Hin| ->%list_elem_of_singleton]%elem_of_app & Hsink & ->); [by exists other | done].
  - rewrite fmap_app. apply list.NoDup_app. split; [done|]. split; [|apply NoDup_singleton].
    intros sink Hin Hlast. apply list_elem_of_singleton in Hlast. by subst.
Qed.

(** The state of the runtime's publisher. *)
Definition sessions_match (s : PersistentMqttPublisher (C := C)) : Prop :=
  match pm_publisher s with
  | Some publishers => pm_uplinks s <> [] /\ sessions_of (pm_uplinks s) publishers /\ NoDup (up_sink_id <$> pm_uplinks s)
  | None => pm_uplinks s = [] /\ pm_command_subscriptions s = ∅
  end.

Inductive session_step : PersistentMqttPublisher (C := C) -> PersistentMqttPublisher (C := C) -> Prop :=
| step_configure uplinks subscriptions s : session_step s (fst (configure uplinks subscriptions s))
| step_publish message s : session_step s (fst (persistent_publish elapsed utc message s)).

Lemma configure_matches uplinks subscriptions s :
  sessions_match s -> sessions_match (fst (configure uplinks subscriptions s)).
Proof.
  intros Hs. unfold configure_with_subscriptions. case_bool_decide as Hempty; [done|]. destruct (_ && _); [done|].
  destruct (connect_with_subscriptions _ _ _ _ _ _) as [publishers|error|error] eqn:Ec; [|done..].
  unfold connect_with_subscriptions in Ec. inv_result.
  match goal with H : connect_each _ _ _ _ _ _ _ = Ok _ |- _ => apply (connect_each_sessions _ _ _ _ _ []) in H as [Hof Hnd] end.
  - by split.
  - intros sink route. rewrite lookup_empty. split; [done | by intros (? & ?%not_elem_of_nil & _)].
  - constructor.
Qed.

Lemma publish_keeps_sessions message uplinks publishers :
  sessions_of uplinks publishers -> sessions_of uplinks (fst (multi_publish elapsed utc message publishers)).
Proof.
  intros Hs. unfold multi_publish. destruct (publishers !! msg_sink_id message) as [publisher|] eqn:E; [|done].
  pose proof (rumqttc_publish_route elapsed utc message publisher) as Hr.
  destruct (rumqttc_publish elapsed utc message publisher) as [publisher' result]. cbn [fst] in *.
  intros sink route. destruct (decide (sink = msg_sink_id message)) as [->|Hne]; [|rewrite lookup_insert_ne by done; apply Hs].
  rewrite lookup_insert_eq. cbn. rewrite Hr, <- (Hs (msg_sink_id message) route), E. done.
Qed.

Lemma reached_sessions_match limit s :
  rtc session_step (with_ack_timeout limit) s -> sessions_match s.
Proof.
  apply (rtc_ind_r (fun s => sessions_match s)); [done|]. intros s1 s2 _ Hstep Hs. destruct Hstep as [uplinks subscriptions s1|message s1].
  - by apply configure_matches.
  - unfold persistent_publish. unfold sessions_match in Hs |- *.
    destruct (pm_publisher s1) as [publishers|] eqn:Ep; cbn; [|by rewrite Ep].
    destruct Hs as (Hne & Hof & Hnd). apply (publish_keeps_sessions message) in Hof.
    by destruct (multi_publish elapsed utc message publishers).
Qed.

(** What a publish leaves alone: the configuration, the generation of the sessions,
    the routes, and every session but that of the message. *)
Definition publish_frame (message : MqttPublishMessage) (s s' : PersistentMqttPublisher (C := C)) : Prop :=
  pm_uplinks s' = pm_uplinks s /\ pm_command_subscriptions s' = pm_command_subscriptions s /\
  pm_acknowledgement_timeout s' = pm_acknowledgement_timeout s /\ pm_connection_generation s' = pm_connection_generation s /\
  match pm_publisher s with
  | None => pm_publisher s' = None
  | Some publishers => exists publishers', pm_publisher s' = Some publishers' /\
      (forall sink, route_of <$> publishers' !! sink = route_of <$> publishers !! sink) /\
      (forall sink, sink <> msg_sink_id message -> publishers' !! sink = publishers !! sink)
  end.

Lemma publish_keeps_frame message s : publish_frame message s (fst (persistent_publish elapsed utc message s)).
Proof.
  unfold persistent_publish, publish_frame. destruct (pm_publisher s) as [publishers|] eqn:Ep; [|by repeat split].
  unfold multi_publish. destruct (publishers !! msg_sink_id message) as [publisher|] eqn:E; cbn; [|by do 4 (split; [done|]); eexists].
  pose proof (rumqttc_publish_route elapsed utc message publisher) as Hr.
  destruct (rumqttc_publish elapsed utc message publisher) as [publisher' result]. cbn [fst] in *. cbn. do 4 (split; [done|]).
  eexists. split; [done|]. split; intros sink.
  - destruct (decide (sink = msg_sink_id message)) as [->|Hne]; [|by rewrite lookup_insert_ne]. rewrite lookup_insert_eq, E. cbn.
    by rewrite Hr.
  - intros Hne. by rewrite lookup_insert_ne.
Qed.

(** [C12] Whatever is configured and published, and whatever fails, the runtime's
    publisher holds one session for each uplink of the last configuration that
    succeeded, on its broker and under its client id, and no others: a configuration
    that succeeds is the one in force, and the same again opens nothing; one that
    fails changes nothing; and a publish, whether it succeeds or fails, changes
    neither the configuration nor the generation nor any session but that of its
    message, and succeeds only for a message with the route of an uplink. *)
Theorem persistent_sessions_match limit s :
  rtc session_step (with_ack_timeout limit) s ->
  sessions_match s /\
  (forall uplinks subscriptions s' answer, configure uplinks subscriptions s = (s', Ok answer) ->
     pm_uplinks s' = uplinks /\ (uplinks <> [] -> pm_command_subscriptions s' = subscriptions) /\ sessions_match s' /\
     (answer = true <-> is_Some (pm_publisher s')) /\ configure uplinks subscriptions s' = (s', Ok answer)) /\
  (forall uplinks subscriptions s' error, configure uplinks subscriptions s = (s', Err error) -> s' = s) /\
  (forall message s' result, persistent_publish elapsed utc message s = (s', result) ->
     publish_frame message s s' /\
     (result = Ok () -> exists uplink, uplink ∈ pm_uplinks s /\ message_route message = uplink_route uplink)).
Proof.
  intros Hreach. pose proof (reached_sessions_match limit s Hreach) as Hs. split; [done|]. split; [|split].
  - intros uplinks subscriptions s' answer Hc.
    assert (Hm : sessions_match s') by (pose proof (configure_matches uplinks subscriptions s Hs) as Hm; by rewrite Hc in Hm).
    revert Hc Hm. unfold configure_with_subscriptions. case_bool_decide as Hempty.
    { intros [= <- <-] Hm. subst uplinks. split; [done|]. split; [done|]. split; [done|]. split; [|done].
      by split; [|intros [? ?]]. }
    destruct (_ && _) eqn:Esame.
    { intros [= <- <-] Hm. split; [|split; [|split; [done|split]]].
      - by apply andb_prop in Esame as [[_ <-%bool_decide_eq_true]%andb_prop _].
      - by apply andb_prop in Esame as [_ <-%bool_decide_eq_true].
      - by apply andb_prop in Esame as [[?%bool_decide_eq_true _]%andb_prop _].
      - by rewrite Esame. }
    destruct (connect_with_subscriptions _ _ _ _ _ _) as [publishers|error|error]; [|done..].
    intros [= <- <-] Hm. split; [done|]. split; [done|]. split; [done|]. split; [by split|]. cbn. by rewrite !bool_decide_true by done.
  - intros uplinks subscriptions s' error. unfold configure_with_subscriptions. case_bool_decide; [done|].
    destruct (_ && _); [done|]. destruct (connect_with_subscriptions _ _ _ _ _ _); [done| |done]. by intros [= <- _].
  - intros message s' result Hp. split.
    { pose proof (publish_keeps_frame message s) as Hf. by rewrite Hp in Hf. }
    intros ->. revert Hp. unfold persistent_publish. unfold sessions_match in Hs.
    destruct (pm_publisher s) as [publishers|]; [|done]. destruct Hs as (_ & Hof & _). unfold multi_publish.
    destruct (publishers !! msg_sink_id message) as [publisher|] eqn:Ep; [|done].
    assert (Hroute : route_of <$> publishers !! msg_sink_id message = Some (route_of publisher)) by by rewrite Ep.
    apply Hof in Hroute as (uplink & Hin & _ & Hroute).
    unfold rumqttc_publish. destruct (publish_and_wait _ _) as [publisher' [[]|error|error]] eqn:Ew; [|done..].
    apply publish_and_wait_Ok in Ew as (Hm & _). intros _. exists uplink. split; [done|].
    rewrite Hm. exact Hroute.
Qed.
End sessions.

(** ** Examples *)

(** A client whose loop sends a batch of events during each wait. *)
#[export] Instance scripted_client : MqttClient (list (list MqttBrokerEvent)) := {
  client_publish := fun _ _ _ script => (script, Ok ());
  client_subscribe := fun _ _ script => (script, Ok ());
  client_wait := fun _ script => match script with events :: script => (script, (events, false)) | [] => ([], ([], false)) end;
  client_connected := fun _ => true;
}.

Definition sample_session (script : list (list MqttBrokerEvent)) : RumqttcMqttPublisher (list (list MqttBrokerEvent)) :=
  {| rp_sink_id := "main"; rp_broker := "mqtt://broker"; rp_client_id := "edge"; rp_protocol_version := V3_1_1;
     rp_client := script; rp_broker_events := []; rp_acknowledgement_timeout := 10; rp_publish_success_count := 0;
     rp_publish_failure_count := 0; rp_published_bytes := 0; rp_acknowledgement_latency_total_ms := 0;
     rp_last_ack_latency_ms := None; rp_last_publish_at := None; rp_last_topic := None; rp_last_error := None |}.

Definition sample_publish (payload : bytes) : MqttPublishMessage :=
  {| msg_sink_id := "main"; msg_broker := "mqtt://broker"; msg_client_id := "edge"; msg_topic := "t"; msg_qos := 1;
     msg_payload := payload |}.

Definition publish_all (payloads : list bytes) (script : list (list MqttBrokerEvent))
    : RumqttcMqttPublisher (list (list MqttBrokerEvent)) * list (Result ()) :=
  foldl (fun '(publisher, results) payload =>
           let '(publisher, result) := rumqttc_publish (fun _ => 1) (fun _ => 0) (sample_publish payload) publisher in
           (publisher, results ++ [result])%list) (sample_session script, []) payloads.

(** The events of a publish that failed stay in the channel: the first message is
    refused by a lost connection, then sent and acknowledged as packet 1; its
    repetition takes these events, and the next message those of the repetition.  It
    is confirmed although the broker has not seen it: no packet 3 was ever sent. *)
Example late_confirmation_accepted :
  snd (publish_all [[1]; [1]; [2]]
         [[ConnectionError "lost"; PublishSent 1; PublishAcknowledged 1]; [PublishSent 2; PublishAcknowledged 2]; []])
  = [Err "lost"; Ok (); Ok ()].
Proof. vm_compute. reflexivity. Qed.

(** The errors of an outage wait in the channel and refuse publishes made after it. *)
Example old_error_refuses_publish :
  snd (publish_all [[1]; [2]]
         [[ConnectionError "lost"; ConnectionError "lost"]; [PublishSent 1; PublishAcknowledged 1]]) = [Err "lost"; Err "lost"].
Proof. vm_compute. reflexivity. Qed.

Definition sample_subscriptions : list Subscription := [("flow", "cmd/a", 1)].

Lemma session_connected_iff_witness :
  loop_connected (snd (run_eventloop false "main" sample_subscriptions [Poll_ConnAck; Poll_SubAck] [])) = true <->
  exists before after, [Poll_ConnAck; Poll_SubAck] = (before ++ Poll_ConnAck :: after)%list /\ Forall keeps_session after /\
    match snd (subscribe_topics sample_subscriptions (fst (run_eventloop false "main" sample_subscriptions before []))) with
    | Ok _ => (size (subscribed_topics sample_subscriptions) <= length (filter (fun poll => is_suback poll = true) after))%nat
    | _ => (1 <= length (filter (fun poll => is_suback poll = true) after))%nat
    end.
Proof.
  apply (session_connected_iff false "main" sample_subscriptions).
  intros [|first [|second before]] after Heq; [discriminate Heq| |].
  - injection Heq as <- <-. by exists O.
  - destruct before; discriminate Heq.
Defined.

(** A client that takes one subscription and refuses the next. *)
Definition full_client : MqttClient bool := {|
  client_publish := fun _ _ _ (full : bool) => (full, Ok ());
  client_subscribe := fun _ _ (full : bool) => if full then (full, Err "request queue is full") else (true, Ok ());
  client_wait := fun _ (full : bool) => (full, ([], false));
  client_connected := fun _ => true;
|}.

(** One of two topics is subscribed, and its acknowledgement connects the session. *)
Example refused_subscription_connects :
  loop_connected (snd (@run_eventloop bool full_client false "main" [("flow", "cmd/a", 1); ("flow", "cmd/b", 1)]
    [Poll_ConnAck; Poll_SubAck] false)) = true.
Proof. vm_compute. reflexivity. Qed.

Definition sample_configure (s : PersistentMqttPublisher (C := list (list MqttBrokerEvent))) :=
  configure_with_subscriptions (fun _ => None) (fun _ => Err "none")
    (fun _ _ _ => [[PublishSent 1; PublishAcknowledged 1]]) [sample_uplink] ∅ s.

Lemma persistent_sessions_match_witness :
  let s := fst (sample_configure (with_ack_timeout 10)) in
  pm_connection_generation s = 1 /\ sessions_match s /\
  exists s', persistent_publish (fun _ => 1) (fun _ => 0) (sample_publish [7]) s = (s', Ok ()) /\
    exists uplink, uplink ∈ [sample_uplink] /\ message_route (sample_publish [7]) = uplink_route uplink.
Proof.
  cbn zeta. set (s := fst (sample_configure (with_ack_timeout 10))).
  assert (Hreach : rtc (session_step (fun _ => 1) (fun _ => 0) (fun _ => None) (fun _ => Err "none")
                          (fun _ _ _ => [[PublishSent 1; PublishAcknowledged 1]])) (with_ack_timeout 10) s)
    by (apply rtc_once; exact (step_configure _ _ _ _ _ [sample_uplink] ∅ (with_ack_timeout 10))).
  pose proof (persistent_sessions_match (fun _ => 1) (fun _ => 0) (fun _ => None) (fun _ => Err "none")
                (fun _ _ _ => [[PublishSent 1; PublishAcknowledged 1]]) 10 s Hreach) as (Hs & _ & _ & Hpub).
  split; [vm_compute; reflexivity|]. split; [exact Hs|].
  assert (Hok : persistent_publish (fun _ => 1) (fun _ => 0) (sample_publish [7]) s
                = (fst (persistent_publish (fun _ => 1) (fun _ => 0) (sample_publish [7]) s), Ok ()))
    by (rewrite surjective_pairing at 1; f_equal; vm_compute; reflexivity).
  eexists. split; [exact Hok|]. destruct (proj2 (Hpub _ _ _ Hok) eq_refl) as (uplink & Hin & Hroute).
  exists uplink. split; [exact Hin | exact Hroute].
Defined.
