(* ===== verification/ApiAuth.v ===== *)
(** The authentication of the control plane's API, [crates/cloud-api/src/auth.rs]:
    roles, bearer tokens, the configuration of the credentials and the middleware
    that admits a request.

    SHA-256 is a parameter; a request is its method, its path and its
    [Authorization] header, the bytes of a header value.

    [request_needs_role] says which requests reach a handler, and in whose name. *)

From Stdlib Require Import ZArith Lia.
From S2P Require Import Prelude RustStr Json KvStore PointAddresses CloudStore.

Open Scope string_scope.
Open Scope Z_scope.

(** ** Data *)

Definition MIN_TOKEN_LENGTH : nat := 24.

Inductive ApiRole := Viewer | Operator | Admin.

#[export] Instance ApiRole_eq_dec : EqDecision ApiRole.
Proof. solve_decision. Defined.

Definition role_rank (role : ApiRole) : nat := match role with Viewer => 0 | Operator => 1 | Admin => 2 end.

(** [self >= required], in the order of the variants. *)
Definition allows (role required : ApiRole) : bool := (role_rank required <=? role_rank role)%nat.

Record ApiPrincipal := {
  principal_subject : string;
  principal_role : ApiRole;
  authentication_enabled : bool;
}.

Record ApiCredential := { token_digest : bytes; credential_principal : ApiPrincipal }.

Record ApiAuthConfig := { auth_enabled : bool; auth_credentials : list ApiCredential }.

Inductive Method := GET | HEAD | OPTIONS | POST | PUT | PATCH | DELETE | OtherMethod (name : string).

#[export] Instance Method_eq_dec : EqDecision Method.
Proof. solve_decision. Defined.

Record ApiRequest := {
  req_method : Method;
  req_path : string;
  req_authorization : option bytes;
}.

(** [StatusCode::UNAUTHORIZED] with a challenge, [StatusCode::FORBIDDEN], or the
    handler with the principal of the request. *)
Inductive ApiDecision :=
| Unauthorized (message : string)
| Forbidden (message : string)
| Granted (principal : ApiPrincipal).

Definition disabled : ApiAuthConfig := {| auth_enabled := false; auth_credentials := [] |}.

(** The exclusive or of the bytes, accumulated. *)
Definition constant_time_eq (left right : bytes) : bool :=
  foldl (fun difference pair => Z.lor difference (Z.lxor (fst pair) (snd pair))) 0 (zip left right) =? 0.

Section auth.
Context (sha256 : bytes -> bytes).

Definition digest_of (token : string) : bytes := sha256 (str_bytes token).

(** One credential of [required], after those already configured. *)
Definition add_credential (configured : list ApiCredential) (entry : string * ApiRole * string) : Result (list ApiCredential) :=
  let '(subject, role, token) := entry in
  let subject := str_trim subject in
  ensure (negb (str_is_empty subject)) "API credential subject must not be empty";;
  ensure (negb (120 <? char_count subject)%nat) "API credential subject must not exceed 120 characters";;
  ensure (negb (String.length token <? MIN_TOKEN_LENGTH)%nat)
    ("API bearer tokens must contain at least " ++ show_Z (Z.of_nat MIN_TOKEN_LENGTH) ++ " characters");;
  ensure (negb (has_whitespace (str_bytes token))) "API bearer tokens must not contain whitespace";;
  ensure (negb (existsb (fun credential => constant_time_eq (token_digest credential) (digest_of token)) configured))
    "API bearer tokens must be unique";;
  Ok (configured ++ [{| token_digest := digest_of token;
                        credential_principal := {| principal_subject := subject; principal_role := role;
                                                   authentication_enabled := true |} |}])%list.

Fixpoint add_credentials (configured : list ApiCredential) (entries : list (string * ApiRole * string))
    : Result (list ApiCredential) :=
  match entries with
  | [] => Ok configured
  | entry :: entries => configured ← add_credential configured entry; add_credentials configured entries
  end.

Definition required (credentials : list (string * ApiRole * string)) : Result ApiAuthConfig :=
  ensure (negb (bool_decide (credentials = []))) "required API authentication needs at least one credential";;
  configured ← add_credentials [] credentials;
  Ok {| auth_enabled := true; auth_credentials := configured |}.

(** [append_env_credential]; [env] is the environment. *)
Definition append_env_credential (env : string -> option string) (name : string) (role : ApiRole)
    (credentials : list (string * ApiRole * string)) : list (string * ApiRole * string) :=
  match env ("EDGEOPS_" ++ name ++ "_TOKEN") with
  | None => credentials
  | Some token =>
      let subject := default (str_to_ascii_lowercase name) (env ("EDGEOPS_" ++ name ++ "_SUBJECT")) in
      (credentials ++ [(subject, role, token)])%list
  end.

Definition from_env (env : string -> option string) : Result ApiAuthConfig :=
  let mode := str_to_ascii_lowercase (str_trim (default "disabled" (env "EDGEOPS_API_AUTH_MODE"))) in
  if bool_decide (mode = "disabled") then Ok disabled
  else if bool_decide (mode = "required") then
    required (append_env_credential env "ADMIN" Admin
               (append_env_credential env "OPERATOR" Operator (append_env_credential env "VIEWER" Viewer [])))
  else bail ("EDGEOPS_API_AUTH_MODE must be 'disabled' or 'required', got '" ++ mode ++ "'").

Definition authenticate (config : ApiAuthConfig) (token : string) : option ApiPrincipal :=
  credential_principal <$>
    find_first (fun credential => constant_time_eq (token_digest credential) (digest_of token)) (auth_credentials config).

(** [HeaderValue::to_str]: visible ASCII and tabs only. *)
Definition header_to_str (value : bytes) : option bytes :=
  if forallb (fun b => ((32 <=? b) && (b <=? 126)) || (b =? 9)) value then Some value else None.

Definition bearer_token (value : option bytes) : option string :=
  value ← value;
  value ← header_to_str value;
  '(scheme, token) ← split_once 32 value;
  if negb (eq_ignore_ascii_case (str_of_bytes scheme) "bearer") || bool_decide (token = []) ||
     existsb (Z.eqb 32) token
  then None else Some (str_of_bytes token).

(** [path.ends_with(suffix)]. *)
Definition ends_with (path suffix : string) : bool := bytes_prefix (reverse (str_bytes suffix)) (reverse (str_bytes path)).

Definition path_starts (path prefix : string) : bool := starts_with (str_bytes path) (str_bytes prefix).

Definition is_agent_proposal_review (method : Method) (path : string) : bool :=
  bool_decide (method = POST) && path_starts path "/api/agent/proposals/" &&
  (ends_with path "/approve" || ends_with path "/reject").

Definition is_agent_change_set_execution (method : Method) (path : string) : bool :=
  bool_decide (method = POST) && path_starts path "/api/agent/change-sets/" &&
  (ends_with path "/confirm" || ends_with path "/reject" || ends_with path "/apply").

Definition is_agent_command_execution (method : Method) (path : string) : bool :=
  bool_decide (method = POST) && path_starts path "/api/agent/commands/" &&
  (ends_with path "/confirm" || ends_with path "/reject" || ends_with path "/dispatch").

Definition required_role (method : Method) (path : string) : ApiRole :=
  if bool_decide (path = "/mcp") || bool_decide (method = GET) || bool_decide (method = HEAD) || bool_decide (method = OPTIONS)
  then Viewer
  else if bool_decide (method = DELETE) || ends_with path "/access-token" || is_agent_proposal_review method path ||
          is_agent_change_set_execution method path || is_agent_command_execution method path
  then Admin
  else Operator.

Definition local_development : ApiPrincipal :=
  {| principal_subject := "local-development"; principal_role := Admin; authentication_enabled := false |}.

Definition authorize_api_request (config : ApiAuthConfig) (request : ApiRequest) : ApiDecision :=
  let principal :=
    if auth_enabled config then
      match bearer_token (req_authorization request) with
      | None => None
      | Some token => authenticate config token
      end
    else Some local_development in
  match principal with
  | None => Unauthorized "missing or invalid bearer token"
  | Some principal =>
      if negb (allows (principal_role principal) (required_role (req_method request) (req_path request)))
      then Forbidden "the authenticated principal does not have permission for this operation"
      else Granted principal
  end.
End auth.

(** ** Digests *)

Lemma xor_fold_zero l acc :
  0 <= acc -> Forall (fun pair => 0 <= fst pair /\ 0 <= snd pair) l ->
  foldl (fun difference pair => Z.lor difference (Z.lxor (fst pair) (snd pair))) acc l = 0 <->
  acc = 0 /\ Forall (fun pair => fst pair = snd pair) l.
Proof.
  revert acc. induction l as [|[x y] l IH]; intros acc Hacc Hl; cbn [foldl]; [by split; [intros -> | intros [-> _]]|].
  apply Forall_cons_iff in Hl as [[Hx Hy] Hl]. cbn [fst snd] in *.
  rewrite IH; [|apply Z.lor_nonneg; split; [done | by apply Z.lxor_nonneg] | done].
  rewrite Z.lor_eq_0_iff, Z.lxor_eq_0_iff, Forall_cons_iff. cbn. tauto.
Qed.

(** For digests of one length, the comparison is equality. *)
Lemma constant_time_eq_iff left right :
  length left = length right -> bytes_ok left -> bytes_ok right -> constant_time_eq left right = true <-> left = right.
Proof.
  intros Hlen Hl Hr. unfold constant_time_eq. rewrite Z.eqb_eq, xor_fold_zero; [|lia|].
  - split; [intros [_ Hall] | intros ->; split; [done|]].
    + revert right Hlen Hr Hall. induction left as [|x left IH]; intros [|y right] Hlen Hr Hall; try done.
      apply Forall_cons_iff in Hall as [Hxy Hall]. cbn in Hxy. subst y. f_equal.
      apply IH; [by inversion Hl | by injection Hlen | by inversion Hr | done].
    + clear. induction right as [|y right IH]; by constructor.
  - revert right Hlen Hr. induction Hl as [|x left Hx Hl IH]; intros [|y right] Hlen Hr; try discriminate; cbn; [constructor|].
    inversion Hr as [|? ? Hy Hr']; subst. constructor; [unfold byte_ok in *; cbn; lia|]. apply IH; [by injection Hlen | done].
Qed.

(** ** Credentials *)

Section credentials.
Context (sha256 : bytes -> bytes) (Hsha : forall token, length (sha256 token) = 32%nat /\ bytes_ok (sha256 token)).

(** The credential of an entry. *)
Definition credential_of (entry : string * ApiRole * string) : ApiCredential :=
  let '(subject, role, token) := entry in
  {| token_digest := digest_of sha256 token;
     credential_principal := {| principal_subject := str_trim subject; principal_role := role; authentication_enabled := true |} |}.

Lemma digest_eq_iff token token' :
  constant_time_eq (digest_of sha256 token) (digest_of sha256 token') = true <-> digest_of sha256 token = digest_of sha256 token'.
Proof.
  unfold digest_of. destruct (Hsha (str_bytes token)) as [Hl Ho], (Hsha (str_bytes token')) as [Hl' Ho'].
  apply constant_time_eq_iff; [congruence | done..].
Qed.

Lemma add_credential_Ok configured entry result :
  add_credential sha256 configured entry = Ok result ->
  result = (configured ++ [credential_of entry])%list /\
  existsb (fun credential => constant_time_eq (token_digest credential) (token_digest (credential_of entry))) configured = false.
Proof.
  destruct entry as [[subject role] token]. unfold add_credential. intros Ha. inv_result. split; [done|].
  match goal with H : negb (existsb _ _) = true |- _ => by apply negb_true_iff in H end.
Qed.

Lemma unique_digests entries configured result :
  add_credentials sha256 (credential_of <$> configured) entries = Ok result ->
  NoDup (token_digest <$> (credential_of <$> configured)) ->
  result = credential_of <$> (configured ++ entries)%list /\ NoDup (token_digest <$> result).
Proof.
  revert configured. induction entries as [|entry entries IH]; intros configured; cbn [add_credentials].
  - intros [= <-] Hnd. by rewrite app_nil_r.
  - intros Ha Hnd. apply bind_Ok in Ha as (next & [-> Hfresh]%add_credential_Ok & Hrest).
    assert (Heq : ((credential_of <$> configured) ++ [credential_of entry] = credential_of <$> (configured ++ [entry]))%list)
      by by rewrite fmap_app.
    rewrite Heq in Hrest. apply IH in Hrest.
    + by rewrite <- app_assoc in Hrest.
    + rewrite <- Heq, fmap_app. apply list.NoDup_app. split; [done|]. split; [|by apply NoDup_singleton].
      intros d Hd Hd'. apply list_elem_of_singleton in Hd'. subst d.
      apply list_elem_of_fmap in Hd as (c & Hc & [e [-> He]]%list_elem_of_fmap).
      assert (Htrue : existsb (fun credential => constant_time_eq (token_digest credential) (token_digest (credential_of entry)))
                        (credential_of <$> configured) = true); [|congruence].
      apply existsb_exists. exists (credential_of e). split; [by apply list_elem_of_In, list_elem_of_fmap; eauto|].
      destruct e as [[s r] t], entry as [[s' r'] t']. cbn in *. by apply digest_eq_iff.
Qed.

Lemma required_config entries config :
  required sha256 entries = Ok config ->
  auth_enabled config = true /\ auth_credentials config = credential_of <$> entries /\
  NoDup (token_digest <$> auth_credentials config).
Proof.
  unfold required. intros Hreq. inv_result.
  match goal with H : add_credentials _ _ _ = Ok _ |- _ => apply (unique_digests entries []) in H as [-> Hnd] end;
    [|constructor].
  done.
Qed.

Lemma find_credential (l : list ApiCredential) token c :
  NoDup (token_digest <$> l) -> (forall x, x ∈ l -> exists t, token_digest x = digest_of sha256 t) ->
  find_first (fun credential => constant_time_eq (token_digest credential) (digest_of sha256 token)) l = Some c <->
  c ∈ l /\ token_digest c = digest_of sha256 token.
Proof.
  intros Hnd Hdig. induction l as [|x l IH]; cbn [find_first]; [split; [done | by intros [?%not_elem_of_nil _]]|].
  destruct (Hdig x ltac:(left)) as [t Ht]. rewrite fmap_cons, list.NoDup_cons in Hnd. destruct Hnd as [Hx Hnd].
  rewrite Ht. destruct (constant_time_eq (digest_of sha256 t) (digest_of sha256 token)) eqn:E.
  - apply digest_eq_iff in E. split; [intros [= <-]; split; [left | congruence]|].
    intros [[->|Hc]%elem_of_cons Hd]; [done|]. exfalso. apply Hx, list_elem_of_fmap. exists c. split; [congruence | done].
  - rewrite IH by (done || by intros y Hy; apply Hdig; right). split; [intros [Hc Hd]; split; [by right | done]|].
    intros [[->|Hc]%elem_of_cons Hd]; [|done]. exfalso. rewrite Ht in Hd. apply digest_eq_iff in Hd. congruence.
Qed.

(** A token stands for the principal of the entry whose token has its digest. *)
Lemma authenticate_iff entries config token principal :
  required sha256 entries = Ok config ->
  authenticate sha256 config token = Some principal <->
  exists entry, entry ∈ entries /\ digest_of sha256 token = token_digest (credential_of entry) /\
                principal = credential_principal (credential_of entry).
Proof.
  intros (_ & Hcreds & Hnd)%required_config. unfold authenticate. rewrite fmap_Some.
  setoid_rewrite find_credential; [|done|].
  - rewrite Hcreds. split.
    + intros (c & [(entry & -> & He)%list_elem_of_fmap Hd] & ->). eauto.
    + intros (entry & He & Hd & ->). exists (credential_of entry).
      split; [split; [by apply list_elem_of_fmap; eauto | done] | done].
  - rewrite Hcreds. intros c ([[s r] t] & -> & _)%list_elem_of_fmap. by exists t.
Qed.
End credentials.

(** ** Roles *)

Lemma path_starts_iff path prefix : path_starts path prefix = true <-> exists rest, path = prefix ++ rest.
Proof.
  unfold path_starts, starts_with. rewrite bytes_prefix_app. split.
  - intros (rest & Hr). exists (str_of_bytes rest). apply str_bytes_inj. rewrite str_bytes_app, str_bytes_of_bytes; [done|].
    pose proof (str_bytes_ok path) as Hok. rewrite Hr in Hok. by apply Forall_app in Hok as [_ Hok].
  - intros (rest & ->). exists (str_bytes rest). apply str_bytes_app.
Qed.

Lemma ends_with_iff path suffix : ends_with path suffix = true <-> exists before, path = before ++ suffix.
Proof.
  unfold ends_with. rewrite bytes_prefix_app. split.
  - intros (rest & Hr%(f_equal reverse)). rewrite reverse_involutive, reverse_app, reverse_involutive in Hr.
    exists (str_of_bytes (reverse rest)). apply str_bytes_inj. rewrite str_bytes_app, str_bytes_of_bytes; [done|].
    pose proof (str_bytes_ok path) as Hok. rewrite Hr in Hok. by apply Forall_app in Hok as [Hok _].
  - intros (before & ->). exists (reverse (str_bytes before)). by rewrite str_bytes_app, reverse_app.
Qed.

(** What carries out a proposal of the assistant, as areas and actions of the API. *)
Definition review_actions : list (string * string) :=
  [("proposals", "approve"); ("proposals", "reject");
   ("change-sets", "confirm"); ("change-sets", "reject"); ("change-sets", "apply");
   ("commands", "confirm"); ("commands", "reject"); ("commands", "dispatch")].

Definition carries_out (method : Method) (path : string) : Prop :=
  method = POST /\ exists area action, (area, action) ∈ review_actions /\
    (exists rest, path = "/api/agent/" ++ area ++ "/" ++ rest) /\ (exists before, path = before ++ "/" ++ action).

(** The requests that only read, and those of administrators. *)
Definition only_reads (method : Method) (path : string) : Prop :=
  path = "/mcp" \/ method = GET \/ method = HEAD \/ method = OPTIONS.

Definition administrates (method : Method) (path : string) : Prop :=
  method = DELETE \/ (exists before, path = before ++ "/access-token") \/ carries_out method path.

(** The requests of a role. *)
Definition may_request (role : ApiRole) (method : Method) (path : string) : Prop :=
  match role with
  | Viewer => only_reads method path
  | Operator => only_reads method path \/ ~ administrates method path
  | Admin => True
  end.

Lemma carries_out_iff method path :
  is_agent_proposal_review method path || is_agent_change_set_execution method path ||
  is_agent_command_execution method path = true <-> carries_out method path.
Proof.
  unfold is_agent_proposal_review, is_agent_change_set_execution, is_agent_command_execution, carries_out, review_actions.
  rewrite !orb_true_iff, !andb_true_iff, !orb_true_iff, !bool_decide_eq_true, !path_starts_iff, !ends_with_iff.
  split.
  - intros [[[[-> Hs] [He|He]]|[[-> Hs] [[He|He]|He]]]|[[-> Hs] [[He|He]|He]]]; (split; [done|]);
      [exists "proposals", "approve" | exists "proposals", "reject" | exists "change-sets", "confirm" | exists "change-sets", "reject"
      | exists "change-sets", "apply" | exists "commands", "confirm" | exists "commands", "reject" | exists "commands", "dispatch"];
      (split; [set_solver | by split]).
  - intros [-> (area & action & Hin & Hs & He)].
    repeat (apply elem_of_cons in Hin as [[= -> ->]|Hin]; [tauto|]). by apply elem_of_nil in Hin.
Qed.

Lemma required_role_spec role method path : allows role (required_role method path) = true <-> may_request role method path.
Proof.
  unfold required_role.
  assert (Hv : bool_decide (path = "/mcp") || bool_decide (method = GET) || bool_decide (method = HEAD) ||
               bool_decide (method = OPTIONS) = true <-> only_reads method path).
  { rewrite !orb_true_iff, !bool_decide_eq_true. unfold only_reads. tauto. }
  assert (Ha : bool_decide (method = DELETE) || ends_with path "/access-token" || is_agent_proposal_review method path ||
               is_agent_change_set_execution method path || is_agent_command_execution method path = true <->
               administrates method path).
  { unfold administrates. rewrite <- carries_out_iff, <- ends_with_iff, !orb_true_iff, bool_decide_eq_true. tauto. }
  destruct (_ || bool_decide (method = OPTIONS)).
  - apply proj1 in Hv. specialize (Hv eq_refl). destruct role; cbn; tauto.
  - assert (Hn : ~ only_reads method path) by (intros H; by apply Hv in H).
    destruct (_ || is_agent_command_execution method path).
    + apply proj1 in Ha. specialize (Ha eq_refl). destruct role; cbn; try tauto; split; try done; tauto.
    + assert (Hna : ~ administrates method path) by (intros H; by apply Ha in H). destruct role; cbn; try tauto; split; try done; tauto.
Qed.

(** Only an administrator may make the requests that carry out a proposal. *)
Lemma carries_out_is_admin role method path : may_request role method path -> carries_out method path -> role = Admin.
Proof.
  intros Hm Hc. assert (Hn : ~ only_reads method path).
  { destruct Hc as [-> (area & action & _ & [rest Hp] & _)]. rewrite Hp. intros [Hbad|[?|[?|?]]]; done. }
  destruct role; cbn in Hm; [done| |done]. destruct Hm as [?|Hna]; [done|]. exfalso. apply Hna. right. by right.
Qed.

(** [C10] With authentication required, a request reaches its handler exactly when it
    bears a token with the digest of a configured one whose role may make the
    request, and it is then made in the name of that credential, the only one with
    this digest.  A viewer reads and calls the MCP endpoint; an operator makes every
    request but deletions, new access tokens and the POST requests that approve,
    confirm, reject, apply or dispatch what the assistant proposed; these are the
    administrator's, as auth.rs decides.  (The architecture document counts Agent
    operations among those of operators and lets an independent operator confirm
    drafts; see the findings.) *)
Theorem request_needs_role (sha256 : bytes -> bytes) entries config request principal :
  (forall token, length (sha256 token) = 32%nat /\ bytes_ok (sha256 token)) ->
  required sha256 entries = Ok config ->
  (authorize_api_request sha256 config request = Granted principal <->
   exists subject role configured token,
     (subject, role, configured) ∈ entries /\ bearer_token (req_authorization request) = Some token /\
     digest_of sha256 token = digest_of sha256 configured /\
     principal = {| principal_subject := str_trim subject; principal_role := role; authentication_enabled := true |} /\
     may_request role (req_method request) (req_path request)) /\
  (authorize_api_request sha256 config request = Granted principal ->
   carries_out (req_method request) (req_path request) -> principal_role principal = Admin).
Proof.
  intros Hsha Hreq. pose proof (required_config sha256 Hsha entries config Hreq) as (Henabled & _ & _).
  assert (Hiff : authorize_api_request sha256 config request = Granted principal <->
                 exists token, bearer_token (req_authorization request) = Some token /\
                               authenticate sha256 config token = Some principal /\
                               may_request (principal_role principal) (req_method request) (req_path request)).
  { setoid_rewrite <- required_role_spec. unfold authorize_api_request. rewrite Henabled.
    destruct (bearer_token _) as [token|]; [|by split; [|intros (? & ? & _)]].
    destruct (authenticate sha256 config token) as [found|] eqn:Hfound; [|split; [done|]; intros (? & [= <-] & ? & _); congruence].
    destruct (allows (principal_role found) _) eqn:Hallows; cbn [negb].
    - split; [intros [= <-]; eauto | intros (? & [= <-] & ? & _); congruence].
    - split; [done|]. intros (? & [= <-] & ? & ?). congruence. }
  split.
  - rewrite Hiff. setoid_rewrite (authenticate_iff sha256 Hsha entries config _ principal Hreq). split.
    + intros (token & Hb & ([[subject role] configured] & He & Hd & ->) & Ha). by exists subject, role, configured, token.
    + intros (subject & role & configured & token & He & Hb & Hd & -> & Ha). exists token. split; [done|]. split; [|done].
      by exists (subject, role, configured).
  - rewrite Hiff. intros (token & _ & _ & Ha) Hc. by apply (carries_out_is_admin _ _ _ Ha).
Qed.

Definition sample_sha256 (token : bytes) : bytes :=
  let digest := take 32 (Z.land 255 <$> token) in (digest ++ replicate (32 - length digest) 0)%list.

Lemma request_needs_role_witness :
  (forall token, length (sample_sha256 token) = 32%nat /\ bytes_ok (sample_sha256 token)) /\
  exists config,
    required sample_sha256 [("ops", Operator, "operator-token-for-the-plant")] = Ok config /\
    let request := {| req_method := POST; req_path := "/api/agent/commands/7/confirm";
                      req_authorization := Some (str_bytes "Bearer operator-token-for-the-plant") |} in
    authorize_api_request sample_sha256 config request
      = Forbidden "the authenticated principal does not have permission for this operation" /\
    (authorize_api_request sample_sha256 config request = Granted local_development ->
     principal_role local_development = Admin).
Proof.
  assert (Hsha : forall token, length (sample_sha256 token) = 32%nat /\ bytes_ok (sample_sha256 token)).
  { intros token. unfold sample_sha256. split.
    - rewrite length_app, length_replicate, length_take. lia.
    - apply Forall_app. split; [|apply Forall_replicate; unfold byte_ok; lia].
      apply Forall_take, Forall_fmap, Forall_forall. intros x _. cbn [compose].
      unfold compose, byte_ok. rewrite Z.land_comm. change 255 with (Z.ones 8). rewrite Z.land_ones by lia.
      apply Z.mod_pos_bound. lia. }
  split; [exact Hsha|].
  eexists. split; [vm_compute; reflexivity|]. split; [vm_compute; reflexivity|]. intros Hgranted.
  refine (proj2 (request_needs_role sample_sha256 [("ops", Operator, "operator-token-for-the-plant")] _ _ _ Hsha _) Hgranted _).
  - vm_compute; reflexivity.
  - split; [reflexivity|]. exists "commands", "confirm". split; [unfold review_actions; set_solver|].
    split; [exists "7/confirm" | exists "/api/agent/commands/7"]; reflexivity.
Defined.
