(* ===== verification/EdgeLink.v ===== *)
(** EdgeLink, the protocol between a runtime and the gateway of the control plane:
    the messages and frames of [crates/edge-core/src/edgelink.rs], and how both ends
    read and write them on a stream, [crates/edge-runtime/src/edgelink_client.rs]
    and [crates/cloud-api/src/gateway.rs].

    The JSON encoding of a message is the class [MessageCodec], with its round trip
    as a law.  The id and the time of a message are arguments, a [Stamp].

    [edgelink_frame_roundtrip] says what a frame carries and what a reader leaves on
    the stream, [decode_frame_iff] when a frame is accepted, and
    [cancelled_read_loses_frame] what a reader does after a read was given up inside
    a frame. *)

From Stdlib Require Import ZArith Lia.
From S2P Require Import Prelude RustStr Floats Json Model ConfigTypes KvStore NetSession CloudStore.

Open Scope string_scope.
Open Scope Z_scope.

Definition EDGELINK_SCHEMA_VERSION : string := "1.0".
Definition EDGELINK_MAX_FRAME_BYTES : Z := 16 * 1024 * 1024.
Definition EDGELINK_FRAME_HEADER_BYTES : nat := 4.

(** ** Messages *)

Inductive EdgeLinkMessageKind :=
| MK_Hello | MK_Heartbeat | MK_Ack | MK_Nack | MK_ConfigDeploy | MK_ConfigReport | MK_CommandRequest | MK_CommandResult
| MK_TelemetryBatch | MK_RuntimeMetrics | MK_RuntimeEvent | MK_DiscoveryRequest | MK_DiscoveryReport.

Inductive DiscoveryAddressKind := HoldingRegister | OpcUaBrowse.

Record DiscoveryRequest := {
  disc_job_id : string;
  disc_connection_id : string;
  disc_address_kind : DiscoveryAddressKind;
  disc_start_address : Z;
  disc_end_address : Z;
  disc_slave_id : Z;
  disc_root_node_id : option string;
  disc_max_depth : Z;
  disc_include_standard_namespace : bool;
}.

Record EdgeLinkHello := {
  hello_runtime_id : string;
  hello_runtime_version : string;
  hello_applied_config_version : option string;
  hello_capabilities : list string;
  hello_access_token : option string;
}.

Record EdgeLinkHeartbeat := {
  uptime_seconds : Z;
  heartbeat_pending_uploads : Z;
  active_config_version : option string;
}.

Record EdgeLinkAck := {
  ack_message_id : Uuid;
  ack_sequence : Z;
  ack_accepted : bool;
  ack_reason : option string;
}.

Record EdgeLinkConfigReport := {
  cr_desired_version : string;
  cr_applied_version : option string;
  cr_accepted : bool;
  cr_reason : option string;
}.

Record EdgeLinkCommandResult := {
  result_command_id : string;
  result_accepted : bool;
  result_status : string;
  result_detail : option string;
}.

Inductive EdgeLinkPayload :=
| Hello (hello : EdgeLinkHello)
| Heartbeat (heartbeat : EdgeLinkHeartbeat)
| Ack (ack : EdgeLinkAck)
| Nack (ack : EdgeLinkAck)
| ConfigDeploy (package : EdgeConfigPackage)
| ConfigReport (report : EdgeLinkConfigReport)
| CommandRequest (candidate : CommandCandidate)
| CommandResult (result : EdgeLinkCommandResult)
| TelemetryBatch (samples : list TelemetrySample)
| RuntimeMetrics (snapshot : EdgeRuntimeMetricsSnapshot)
| RuntimeEvent (event : EdgeRuntimeEvent)
| Payload_DiscoveryRequest (request : DiscoveryRequest)
| Payload_DiscoveryReport (report : DiscoveryReport).

Definition payload_kind (payload : EdgeLinkPayload) : EdgeLinkMessageKind :=
  match payload with
  | Hello _ => MK_Hello
  | Heartbeat _ => MK_Heartbeat
  | Ack _ => MK_Ack
  | Nack _ => MK_Nack
  | ConfigDeploy _ => MK_ConfigDeploy
  | ConfigReport _ => MK_ConfigReport
  | CommandRequest _ => MK_CommandRequest
  | CommandResult _ => MK_CommandResult
  | TelemetryBatch _ => MK_TelemetryBatch
  | RuntimeMetrics _ => MK_RuntimeMetrics
  | RuntimeEvent _ => MK_RuntimeEvent
  | Payload_DiscoveryRequest _ => MK_DiscoveryRequest
  | Payload_DiscoveryReport _ => MK_DiscoveryReport
  end.

Record EdgeLinkMessage := {
  msg_id : Uuid;
  msg_edge_id : string;
  msg_runtime_id : option string;
  msg_schema_version : string;
  msg_sequence : Z;
  msg_timestamp : DateTime;
  msg_kind : EdgeLinkMessageKind;
  msg_payload : EdgeLinkPayload;
}.

(** What [Uuid::new_v4] and [Utc::now] return for a message. *)
Record Stamp := { stamp_id : Uuid; stamp_time : DateTime }.

Definition new_message (stamp : Stamp) (edge_id : string) (runtime_id : option string) (sequence : Z)
    (payload : EdgeLinkPayload) : EdgeLinkMessage :=
  {| msg_id := stamp_id stamp; msg_edge_id := edge_id; msg_runtime_id := runtime_id;
     msg_schema_version := EDGELINK_SCHEMA_VERSION; msg_sequence := sequence; msg_timestamp := stamp_time stamp;
     msg_kind := payload_kind payload; msg_payload := payload |}.

Definition hello_with_access_token (stamp : Stamp) (edge_id runtime_id runtime_version : string)
    (applied_config_version : option string) (capabilities : list string) (access_token : option string) : EdgeLinkMessage :=
  new_message stamp edge_id (Some runtime_id) 1
    (Hello {| hello_runtime_id := runtime_id; hello_runtime_version := runtime_version;
              hello_applied_config_version := applied_config_version; hello_capabilities := capabilities;
              hello_access_token := access_token |}).

Definition ack_message (stamp : Stamp) (edge_id runtime_id : string) (id : Uuid) (sequence : Z) : EdgeLinkMessage :=
  new_message stamp edge_id (Some runtime_id) sequence
    (Ack {| ack_message_id := id; ack_sequence := sequence; ack_accepted := true; ack_reason := None |}).

Definition nack_message (stamp : Stamp) (edge_id : string) (runtime_id : option string) (id : Uuid) (sequence : Z)
    (reason : string) : EdgeLinkMessage :=
  new_message stamp edge_id runtime_id sequence
    (Nack {| ack_message_id := id; ack_sequence := sequence; ack_accepted := false; ack_reason := Some reason |}).

Definition heartbeat_message (stamp : Stamp) (edge_id runtime_id : string) (sequence : Z) (heartbeat : EdgeLinkHeartbeat)
    : EdgeLinkMessage := new_message stamp edge_id (Some runtime_id) sequence (Heartbeat heartbeat).

Definition runtime_metrics_message (stamp : Stamp) (edge_id runtime_id : string) (sequence : Z)
    (snapshot : EdgeRuntimeMetricsSnapshot) : EdgeLinkMessage :=
  new_message stamp edge_id (Some runtime_id) sequence (RuntimeMetrics snapshot).

Definition config_deploy_message (stamp : Stamp) (edge_id runtime_id : string) (sequence : Z) (package : EdgeConfigPackage)
    : EdgeLinkMessage := new_message stamp edge_id (Some runtime_id) sequence (ConfigDeploy package).

Definition config_report_message (stamp : Stamp) (edge_id runtime_id : string) (sequence : Z) (desired_version : string)
    (applied_version : option string) (accepted : bool) (reason : option string) : EdgeLinkMessage :=
  new_message stamp edge_id (Some runtime_id) sequence
    (ConfigReport {| cr_desired_version := desired_version; cr_applied_version := applied_version;
                     cr_accepted := accepted; cr_reason := reason |}).

Definition runtime_event_message (stamp : Stamp) (edge_id runtime_id : string) (sequence : Z) (event : EdgeRuntimeEvent)
    : EdgeLinkMessage := new_message stamp edge_id (Some runtime_id) sequence (RuntimeEvent event).

Definition discovery_report_message (stamp : Stamp) (edge_id runtime_id : string) (sequence : Z) (report : DiscoveryReport)
    : EdgeLinkMessage := new_message stamp edge_id (Some runtime_id) sequence (Payload_DiscoveryReport report).

Definition discovery_request_message (stamp : Stamp) (edge_id runtime_id : string) (sequence : Z) (request : DiscoveryRequest)
    : EdgeLinkMessage := new_message stamp edge_id (Some runtime_id) sequence (Payload_DiscoveryRequest request).

(** ** Frames *)

(** [serde_json::to_vec] and [serde_json::from_slice] for messages. *)
Class MessageCodec := {
  message_to_vec : EdgeLinkMessage -> bytes + string;
  message_from_slice : bytes -> EdgeLinkMessage + string;
}.

Inductive EdgeLinkFrameError :=
| IncompleteHeader (actual : Z)
| IncompleteFrame (expected actual : Z)
| FrameTooLarge (size max : Z)
| InvalidJson (cause : string).

Definition show_frame_error (error : EdgeLinkFrameError) : string :=
  match error with
  | IncompleteHeader actual => "incomplete EdgeLink frame header: expected 4 bytes, got " ++ show_Z actual
  | IncompleteFrame expected actual =>
      "incomplete EdgeLink frame: expected " ++ show_Z expected ++ " payload bytes, got " ++ show_Z actual
  | FrameTooLarge size max => "EdgeLink frame too large: " ++ show_Z size ++ " bytes exceeds " ++ show_Z max ++ " bytes"
  | InvalidJson cause => "invalid EdgeLink frame JSON: " ++ cause
  end.

Section frames.
Context `{MessageCodec}.

Definition encode_edgelink_frame (message : EdgeLinkMessage) : bytes + EdgeLinkFrameError :=
  match message_to_vec message with
  | inr cause => inr (InvalidJson cause)
  | inl payload =>
      if EDGELINK_MAX_FRAME_BYTES <? Z.of_nat (length payload)
      then inr (FrameTooLarge (Z.of_nat (length payload)) EDGELINK_MAX_FRAME_BYTES)
      else inl (to_be_bytes 4 (Z.of_nat (length payload)) ++ payload)%list
  end.

Definition decode_edgelink_frame (frame : bytes) : EdgeLinkMessage + EdgeLinkFrameError :=
  if (length frame <? EDGELINK_FRAME_HEADER_BYTES)%nat then inr (IncompleteHeader (Z.of_nat (length frame)))
  else
    let payload_len := from_be_bytes (take 4 frame) in
    if EDGELINK_MAX_FRAME_BYTES <? payload_len then inr (FrameTooLarge payload_len EDGELINK_MAX_FRAME_BYTES)
    else
      let actual := Z.of_nat (length frame) - Z.of_nat EDGELINK_FRAME_HEADER_BYTES in
      if actual <? payload_len then inr (IncompleteFrame payload_len actual)
      else
        match message_from_slice (take (Z.to_nat payload_len) (drop EDGELINK_FRAME_HEADER_BYTES frame)) with
        | inl message => inl message
        | inr cause => inr (InvalidJson cause)
        end.

(** A frame error as the error of the caller. *)
Definition frame_result {A} (r : A + EdgeLinkFrameError) (context : string) : Result A :=
  with_context match r with inl a => Ok a | inr error => Err (show_frame_error error) end context.

(** ** Streams *)

Section streams.
Context {T : Type} `{TcpStream T}.

Definition read_edgelink_message : M T EdgeLinkMessage :=
  header ← m_context (tcp_read_exact 4) "failed to read EdgeLink frame header";
  let payload_len := from_be_bytes header in
  _ ← lift (ensure (negb (EDGELINK_MAX_FRAME_BYTES <? payload_len))
        ("EdgeLink frame too large: " ++ show_Z payload_len ++ " bytes exceeds " ++ show_Z EDGELINK_MAX_FRAME_BYTES ++ " bytes"));
  body ← m_context (tcp_read_exact (Z.to_nat payload_len)) "failed to read EdgeLink frame body";
  lift (frame_result (decode_edgelink_frame (header ++ body)%list) "failed to decode EdgeLink frame").

Definition write_edgelink_message (message : EdgeLinkMessage) : M T () :=
  frame ← lift (frame_result (encode_edgelink_frame message) "failed to encode EdgeLink frame");
  m_context (tcp_write_all frame) "failed to write EdgeLink frame".

(** ** The runtime's end *)

Definition write_edgelink_message_and_expect_ack (message : EdgeLinkMessage) : M T () :=
  _ ← write_edgelink_message message;
  answer ← read_edgelink_message;
  match msg_payload answer with
  | Ack payload =>
      _ ← lift (ensure (bool_decide (ack_message_id payload = msg_id message) && (ack_sequence payload =? msg_sequence message))
            "EdgeLink gateway ack does not match message");
      lift (ensure (ack_accepted payload)
        ("EdgeLink gateway rejected message: " ++ default "no reason" (ack_reason payload)))
  | _ => lift (bail "EdgeLink gateway did not return an ack")
  end.

Record EdgeLinkConnectReport := {
  connect_edge_id : string;
  connect_runtime_id : string;
  connect_gateway_addr : string;
  connect_acked : bool;
}.

Definition connect_edgelink_over_stream (stamp : Stamp) (gateway_addr edge_id runtime_id runtime_version : string)
    (applied_config_version : option string) (capabilities : list string) (access_token : option string)
    : M T EdgeLinkConnectReport :=
  let hello := hello_with_access_token stamp edge_id runtime_id runtime_version applied_config_version capabilities
                 access_token in
  _ ← m_context (write_edgelink_message hello) "failed to write EdgeLink hello";
  answer ← m_context read_edgelink_message "failed to read EdgeLink hello ack";
  payload ← lift match msg_payload answer with
                 | Ack payload => Ok payload
                 | Nack payload => bail ("EdgeLink gateway rejected hello: " ++ default "unknown reason" (ack_reason payload))
                 | _ => bail "EdgeLink gateway did not return an ack"
                 end;
  _ ← lift (ensure (bool_decide (ack_message_id payload = msg_id hello) && (ack_sequence payload =? msg_sequence hello))
        "EdgeLink gateway ack does not match hello message");
  mret {| connect_edge_id := edge_id; connect_runtime_id := runtime_id; connect_gateway_addr := gateway_addr;
          connect_acked := ack_accepted payload |}.
End streams.
End frames.

(** ** A pipe *)

(** A connection as one end sees it: the bytes that arrived and are not read, and
    the bytes it sent. *)
Record Pipe := { pipe_in : bytes; pipe_out : bytes }.

#[export] Instance pipe_stream : TcpStream Pipe := {|
  tcp_connect _ := mret tt;
  tcp_write_all frame := modify (fun p => {| pipe_in := pipe_in p; pipe_out := (pipe_out p ++ frame)%list |});
  tcp_read_exact n := fun p =>
    if (length (pipe_in p) <? n)%nat then ({| pipe_in := []; pipe_out := pipe_out p |}, Err "early eof")
    else ({| pipe_in := drop n (pipe_in p); pipe_out := pipe_out p |}, Ok (take n (pipe_in p)));
|}.

Section pipes.
Context `{MessageCodec}.

(** The codec carries the message, in a payload that fits a frame. *)
Definition carried (message : EdgeLinkMessage) : Prop :=
  exists payload, message_to_vec message = inl payload /\ message_from_slice payload = inl message /\
                  Z.of_nat (length payload) <= EDGELINK_MAX_FRAME_BYTES.

Lemma pipe_read n bs p out :
  length bs = n -> tcp_read_exact n {| pipe_in := (bs ++ p)%list; pipe_out := out |} =
                   ({| pipe_in := p; pipe_out := out |}, Ok bs).
Proof.
  intros <-. unfold tcp_read_exact, pipe_stream, pipe_in, pipe_out. rewrite length_app.
  destruct (Nat.ltb_spec (length bs + length p) (length bs)); [lia|]. by rewrite drop_app_length, take_app_length.
Qed.

Lemma frame_header n : 0 <= n <= EDGELINK_MAX_FRAME_BYTES -> from_be_bytes (to_be_bytes 4 n) = n.
Proof. intros Hn. apply from_be_to_be. unfold EDGELINK_MAX_FRAME_BYTES in Hn. change (256 ^ Z.of_nat 4) with 4294967296. lia. Qed.

Lemma decode_frame_app n payload rest :
  n = Z.of_nat (length payload) -> n <= EDGELINK_MAX_FRAME_BYTES ->
  decode_edgelink_frame (to_be_bytes 4 n ++ payload ++ rest) =
  match message_from_slice payload with inl message => inl message | inr cause => inr (InvalidJson cause) end.
Proof.
  intros -> Hn. unfold decode_edgelink_frame, EDGELINK_FRAME_HEADER_BYTES.
  rewrite length_app, length_to_be_bytes. destruct (Nat.ltb_spec (4 + length (payload ++ rest)) 4); [lia|].
  rewrite (take_app_length' _ _ 4) by (symmetry; apply length_to_be_bytes). rewrite frame_header by lia.
  rewrite (proj2 (Z.ltb_ge _ _)) by lia. rewrite (proj2 (Z.ltb_ge _ _)) by (rewrite length_app; lia).
  rewrite (drop_app_length' _ _ 4) by (symmetry; apply length_to_be_bytes). by rewrite Nat2Z.id, take_app_length.
Qed.

(** Reading from a pipe that starts with the frame of a message. *)
Lemma read_written message frame rest out :
  carried message -> encode_edgelink_frame message = inl frame ->
  read_edgelink_message {| pipe_in := (frame ++ rest)%list; pipe_out := out |} =
  ({| pipe_in := rest; pipe_out := out |}, Ok message).
Proof.
  intros (payload & Hto & Hfrom & Hlen). unfold encode_edgelink_frame. rewrite Hto.
  rewrite (proj2 (Z.ltb_ge _ _)) by lia. intros Hf.
  assert (frame = (to_be_bytes 4 (Z.of_nat (length payload)) ++ payload)%list) as -> by congruence.
  unfold read_edgelink_message, mbind, M_bind, m_context. rewrite <- app_assoc, pipe_read by apply length_to_be_bytes.
  cbn [with_context]. rewrite frame_header by lia. cbn zeta. rewrite (proj2 (Z.ltb_ge _ _)) by lia.
  cbn [negb ensure lift]. rewrite Nat2Z.id, pipe_read by done. cbn [with_context].
  rewrite <- (app_nil_r payload) at 2. rewrite decode_frame_app by (done || lia). by rewrite Hfrom.
Qed.

Lemma carried_frame message : carried message -> exists frame, encode_edgelink_frame message = inl frame.
Proof.
  intros (payload & Hto & _ & Hlen). unfold encode_edgelink_frame. rewrite Hto, (proj2 (Z.ltb_ge _ _)) by lia. eauto.
Qed.

Lemma write_frame message frame p :
  encode_edgelink_frame message = inl frame ->
  write_edgelink_message message p = ({| pipe_in := pipe_in p; pipe_out := (pipe_out p ++ frame)%list |}, Ok tt).
Proof. intros Hf. unfold write_edgelink_message, mbind, M_bind, m_context. by rewrite Hf. Qed.

(** The messages one end writes, one after the other, and what the other end reads. *)
Fixpoint write_all_messages (messages : list EdgeLinkMessage) : M Pipe () :=
  match messages with
  | [] => mret tt
  | message :: rest => _ ← write_edgelink_message message; write_all_messages rest
  end.

Fixpoint read_messages (n : nat) : M Pipe (list EdgeLinkMessage) :=
  match n with
  | O => mret []
  | S n => message ← read_edgelink_message; rest ← read_messages n; mret (message :: rest)
  end.

Lemma written_messages messages out :
  Forall carried messages ->
  exists frames, write_all_messages messages {| pipe_in := []; pipe_out := out |} =
                   ({| pipe_in := []; pipe_out := (out ++ frames)%list |}, Ok tt) /\
    (forall rest, read_messages (length messages) {| pipe_in := (frames ++ rest)%list; pipe_out := [] |} =
                    ({| pipe_in := rest; pipe_out := [] |}, Ok messages)).
Proof.
  intros Hall. revert out. induction Hall as [|message messages Hm Hall IH]; intros out.
  - exists []. split; [by rewrite app_nil_r | done].
  - destruct (carried_frame _ Hm) as [frame Hf]. destruct (IH (out ++ frame)%list) as (frames & Hw & Hr).
    exists (frame ++ frames)%list. split.
    + cbn [write_all_messages]. unfold mbind at 1, M_bind. rewrite (write_frame _ frame) by done. cbn.
      rewrite Hw. by rewrite app_assoc.
    + intros rest. cbn [read_messages length]. unfold mbind at 1, M_bind at 1.
      rewrite <- app_assoc, (read_written message) by done. unfold mbind, M_bind. by rewrite Hr.
Qed.

(** A read given up inside a frame: the bytes it took are gone. *)
Definition abandoned_read (n : nat) (p : Pipe) : Pipe := {| pipe_in := drop n (pipe_in p); pipe_out := pipe_out p |}.
End pipes.

(** A codec for the heartbeats of one session, to run the definitions: the payload
    is the sequence of the message. *)
Definition beat (sequence : Z) : EdgeLinkMessage :=
  heartbeat_message {| stamp_id := "id"; stamp_time := 0 |} "edge-a" "runtime-a" sequence
    {| uptime_seconds := sequence; heartbeat_pending_uploads := 0; active_config_version := None |}.

Definition beat_codec : MessageCodec := {|
  message_to_vec message := inl (to_be_bytes 4 (msg_sequence message));
  message_from_slice payload := if (length payload =? 4)%nat then inl (beat (from_be_bytes payload)) else inr "EOF";
|}.

(** [C27] A message is read as it was written, in order: what one end writes as a
    sequence of messages, the other end reads as the same messages and the stream
    is left after them; a message whose encoding exceeds the limit is refused by
    the writer and nothing of it is sent. *)
Theorem edgelink_frame_roundtrip `{MessageCodec} messages :
  Forall carried messages ->
  (exists frames,
    write_all_messages messages {| pipe_in := []; pipe_out := [] |} = ({| pipe_in := []; pipe_out := frames |}, Ok tt) /\
    forall rest, read_messages (length messages) {| pipe_in := (frames ++ rest)%list; pipe_out := [] |} =
                   ({| pipe_in := rest; pipe_out := [] |}, Ok messages)) /\
  (forall message payload (p : Pipe), message_to_vec message = inl payload ->
     EDGELINK_MAX_FRAME_BYTES < Z.of_nat (length payload) -> exists e, write_edgelink_message message p = (p, Err e)).
Proof.
  intros Hall. split; [by apply (written_messages messages [])|]. intros message payload p Hto Hlen.
  unfold write_edgelink_message, mbind, M_bind, encode_edgelink_frame. rewrite Hto, (proj2 (Z.ltb_lt _ _)) by done.
  by eexists.
Qed.

Lemma beat_carried n : 0 <= n < 2 ^ 32 -> @carried beat_codec (beat n).
Proof.
  intros Hn. exists (to_be_bytes 4 n). split; [done|]. cbn [message_from_slice beat_codec].
  rewrite length_to_be_bytes. cbn [Nat.eqb]. by rewrite from_be_to_be.
Qed.

Lemma edgelink_frame_roundtrip_witness :
  exists frames : bytes, @read_messages beat_codec 2 {| pipe_in := (frames ++ [9])%list; pipe_out := [] |} =
    ({| pipe_in := [9]; pipe_out := [] |}, Ok [beat 1; beat 70000]).
Proof.
  destruct (proj1 (@edgelink_frame_roundtrip beat_codec [beat 1; beat 70000]
    ltac:(repeat constructor; apply beat_carried; lia))) as (frames & _ & Hr).
  exists frames. apply Hr.
Defined.

(** A frame is accepted exactly when its header announces a payload that is there,
    fits and decodes; what follows the payload is ignored. *)
Lemma decode_frame_iff `{MessageCodec} frame message :
  bytes_ok frame ->
  (decode_edgelink_frame frame = inl message <->
   exists payload rest, frame = (to_be_bytes 4 (Z.of_nat (length payload)) ++ payload ++ rest)%list /\
     Z.of_nat (length payload) <= EDGELINK_MAX_FRAME_BYTES /\ message_from_slice payload = inl message).
Proof.
  intros Hok. split.
  - unfold decode_edgelink_frame, EDGELINK_FRAME_HEADER_BYTES. destruct (Nat.ltb_spec (length frame) 4); [done|].
    assert (Hhok : bytes_ok (take 4 frame)) by by apply Forall_take.
    assert (Hhl : length (take 4 frame) = 4%nat) by (rewrite length_take; lia).
    pose proof (to_be_from_be _ Hhok) as Hback. pose proof (from_be_bytes_bound _ Hhok) as Hb. rewrite Hhl in Hback.
    set (n := from_be_bytes (take 4 frame)) in *. cbn zeta.
    destruct (Z.ltb_spec EDGELINK_MAX_FRAME_BYTES n); [done|].
    destruct (Z.ltb_spec (Z.of_nat (length frame) - Z.of_nat 4) n); [done|].
    destruct (message_from_slice (take (Z.to_nat n) (drop 4 frame))) as [m|] eqn:E; [|done]. intros [= ->].
    assert (Hl : length (take (Z.to_nat n) (drop 4 frame)) = Z.to_nat n) by (rewrite length_take, length_drop; lia).
    exists (take (Z.to_nat n) (drop 4 frame)), (drop (Z.to_nat n) (drop 4 frame)).
    rewrite Hl, Z2Nat.id, Hback, take_drop, take_drop by lia. auto.
  - intros (payload & rest & -> & Hlen & Hm). rewrite decode_frame_app by done. by rewrite Hm.
Qed.

(** A read that is given up after the header of a frame leaves a reader inside the
    frame: it takes the payload for a header, and the message is lost. *)
Example cancelled_read_loses_frame :
  let p := {| pipe_in := [0; 0; 0; 4] ++ [0; 0; 0; 2] ++ [0; 0; 0; 4] ++ [0; 0; 0; 3]; pipe_out := [] |}%list in
  snd (@read_messages beat_codec 2 p) = Ok [beat 2; beat 3] /\
  snd (@read_messages beat_codec 1 (abandoned_read 4 p)) = Err "failed to decode EdgeLink frame".
Proof. vm_compute. auto. Qed.
