(* ===== verification/Gateway.v ===== *)
(** The EdgeLink gateway of the control plane, [crates/cloud-api/src/gateway.rs]:
    the greeting and its credential check, the deployment of a pending
    configuration, the messages of a runtime, the sessions with pending discovery
    requests and the registry of the connected edges.

    The gateway works on its stream, on the shared [CloudControlStore] and, when it
    has one, on the SQLite store, the class [CloudDb].  A method that locks the store
    is one step on it.  The ids and times of the messages it writes are [stamps], and
    [gw_next] counts those used.

    [plain_session_isolated] says that a session changes only records of the edge it
    authenticated, and calls the database for that edge only; [GatewayDiscovery] has
    the sessions that take commands.  [applied_release_rolled_back] shows what the textual order of
    versions does to a deployment, and [next_version] how the control plane numbers
    them. *)

From Stdlib Require Import ZArith Lia.
From S2P Require Import Prelude RustStr Floats Json Model BTree ConfigTypes PointAddresses KvStore NetSession ConfigValidation CloudStore EdgeLink.

Open Scope string_scope.
Open Scope Z_scope.

(** ** Data *)

Record EdgeGatewaySession := {
  gs_edge_id : string;
  gs_runtime_id : string;
  gs_runtime_version : string;
  gs_applied_config_version : option string;
  gs_capabilities : list string;
  gs_peer_addr : string;
}.

Record EdgeGatewaySessionReport := {
  gr_session : EdgeGatewaySession;
  accepted_message_count : Z;
  config_report_count : Z;
}.

(** [AsyncRead::read]: some of the bytes that arrived, at most [n]; none at the end. *)
Class TcpRead (T : Type) := tcp_read : nat -> M T bytes.

(** The writes of [SqliteCloudStore] the gateway makes. *)
Class CloudDb (D : Type) := {
  db_upsert_edge_node : EdgeNode -> M D ();
  db_mark_release_reported : Uuid -> string -> M D (option ReleaseRecord);
  db_upsert_runtime_metrics : EdgeRuntimeMetricsSnapshot -> M D ();
  db_push_runtime_event : EdgeRuntimeEvent -> M D ();
  db_insert_discovery_report : string -> DiscoveryReport -> M D ();
}.

Record Gateway (T D : Type) := {
  gw_stream : T;
  gw_store : CloudControlStore;
  gw_db : D;
  gw_next : nat;
}.
Arguments gw_stream {T D} _.
Arguments gw_store {T D} _.
Arguments gw_db {T D} _.
Arguments gw_next {T D} _.

Section gateway.
Context {T D : Type} `{TcpStream T} `{TcpRead T} `{CloudDb D} `{MessageCodec}.
Context (stamps : nat -> Stamp) (hash_access_token : string -> string).

Definition on_stream {A} (m : M T A) : M (Gateway T D) A := fun g =>
  let '(t, r) := m (gw_stream g) in
  ({| gw_stream := t; gw_store := gw_store g; gw_db := gw_db g; gw_next := gw_next g |}, r).

Definition update_store (f : CloudControlStore -> CloudControlStore) : M (Gateway T D) () :=
  modify (fun g => {| gw_stream := gw_stream g; gw_store := f (gw_store g); gw_db := gw_db g; gw_next := gw_next g |}).

(** [if let Some(sqlite_store) = sqlite_store { call?; }]. *)
Definition on_db {A} (sqlite : bool) (call : M D A) (context : string) : M (Gateway T D) () := fun g =>
  if sqlite then
    let '(d, r) := m_context call context (gw_db g) in
    ({| gw_stream := gw_stream g; gw_store := gw_store g; gw_db := d; gw_next := gw_next g |}, (fun _ => ()) <$> r)
  else (g, Ok ()).

Definition next_stamp : M (Gateway T D) Stamp := fun g =>
  ({| gw_stream := gw_stream g; gw_store := gw_store g; gw_db := gw_db g; gw_next := S (gw_next g) |},
   Ok (stamps (gw_next g))).

(** ** The greeting *)

Definition handle_edgelink_stream (peer_addr : string) (auth : bool) : M (Gateway T D) EdgeGatewaySession :=
  message ← on_stream (m_context read_edgelink_message "failed to read EdgeLink hello");
  hello ← lift match msg_payload message with
               | Hello hello => Ok hello
               | _ => bail "first EdgeLink message must be hello"
               end;
  runtime_id ← lift (ok_or (msg_runtime_id message) "EdgeLink hello is missing runtime_id");
  _ ← lift (ensure (bool_decide (runtime_id = hello_runtime_id hello))
        "EdgeLink hello runtime_id does not match envelope runtime_id");
  expected_hash ← gets (fun g =>
    if auth then token_hash <$> active_edge_credential (gw_store g) (msg_edge_id message) else None);
  _ ← (if match expected_hash with
          | Some expected_hash => bool_decide ((hash_access_token <$> hello_access_token hello) = Some expected_hash)
          | None => true
          end
       then mret tt
       else
         stamp ← next_stamp;
         let reason := "invalid or missing edge access token" in
         _ ← on_stream (m_context (write_edgelink_message
               (nack_message stamp (msg_edge_id message) (msg_runtime_id message) (msg_id message) (msg_sequence message) reason))
               "failed to write EdgeLink authentication rejection");
         lift (bail reason));
  stamp ← next_stamp;
  _ ← on_stream (m_context (write_edgelink_message
        (ack_message stamp (msg_edge_id message) (hello_runtime_id hello) (msg_id message) (msg_sequence message)))
        "failed to write EdgeLink hello ack");
  mret {| gs_edge_id := msg_edge_id message; gs_runtime_id := hello_runtime_id hello;
          gs_runtime_version := hello_runtime_version hello;
          gs_applied_config_version := hello_applied_config_version hello;
          gs_capabilities := hello_capabilities hello; gs_peer_addr := peer_addr |}.

Definition push_unique (values : list string) (value : string) : list string :=
  if existsb (fun existing => bool_decide (existing = value)) values then values else (values ++ [value])%list.

(** The node of a session: its entry, or a new one, named and placed. *)
Definition discovered_node (session : EdgeGatewaySession) (existing : option EdgeNode) : EdgeNode :=
  let runtime_site := "runtime/" ++ gs_runtime_id session in
  let node := default (at_site (new_edge_node (gs_edge_id session) (gs_edge_id session)) runtime_site) existing in
  {| node_edge_id := node_edge_id node;
     node_display_name :=
       if bool_decide (node_display_name node ∈ [""; "新边端注册草稿"; "新边端待确认"])
       then gs_edge_id session else node_display_name node;
     node_site := if bool_decide (node_site node = None) || bool_decide (node_site node = Some "待分配")
                  then Some runtime_site else node_site node;
     node_capabilities :=
       foldl push_unique
         (push_unique
            (push_unique (filter (fun capability => capability <> "registration:draft") (node_capabilities node))
               "registration:runtime-discovered")
            ("runtime-version:" ++ gs_runtime_version session))
         (gs_capabilities session);
     node_project_id := node_project_id node; node_product_id := node_product_id node;
     desired_product_version := desired_product_version node; reported_product_version := reported_product_version node |}.

Definition find_edge_node (store : CloudControlStore) (edge_id : string) : option EdgeNode :=
  find_first (fun node => bool_decide (node_edge_id node = edge_id)) (sorted_values str_leb (edge_nodes (fleet store))).

Definition persist_runtime_discovered_edge (sqlite : bool) (session : EdgeGatewaySession) : M (Gateway T D) () :=
  existing ← gets (fun g => find_edge_node (gw_store g) (gs_edge_id session));
  let node := discovered_node session existing in
  _ ← update_store (register_edge node);
  on_db sqlite (db_upsert_edge_node node) "persist runtime-discovered edge node".

(** ** The messages of a runtime *)

(** [Ok(EdgeLinkMessage::ack(..))] of the arms of [persist_runtime_message]. *)
Definition session_ack (session : EdgeGatewaySession) (message : EdgeLinkMessage) : M (Gateway T D) EdgeLinkMessage :=
  stamp ← next_stamp;
  mret (ack_message stamp (gs_edge_id session) (gs_runtime_id session) (msg_id message) (msg_sequence message)).

Definition session_nack (session : EdgeGatewaySession) (message : EdgeLinkMessage) (reason : string)
    : M (Gateway T D) EdgeLinkMessage :=
  stamp ← next_stamp;
  mret (nack_message stamp (gs_edge_id session) (Some (gs_runtime_id session)) (msg_id message) (msg_sequence message) reason).

Definition persist_runtime_message (sqlite : bool) (session : EdgeGatewaySession) (message : EdgeLinkMessage)
    : M (Gateway T D) EdgeLinkMessage :=
  _ ← lift (ensure (bool_decide (msg_edge_id message = gs_edge_id session))
        ("EdgeLink message edge_id " ++ msg_edge_id message ++ " does not match session edge_id " ++ gs_edge_id session));
  _ ← lift (ensure (bool_decide (msg_runtime_id message = Some (gs_runtime_id session)))
        "EdgeLink message runtime_id does not match session runtime_id");
  match msg_payload message with
  | RuntimeMetrics snapshot =>
      _ ← lift (ensure (bool_decide (snapshot_edge_id snapshot = gs_edge_id session))
            "runtime metrics edge_id does not match session edge_id");
      _ ← update_store (upsert_runtime_metrics snapshot);
      _ ← on_db sqlite (db_upsert_runtime_metrics snapshot) "persist EdgeLink runtime metrics to sqlite";
      session_ack session message
  | RuntimeEvent event =>
      _ ← lift (ensure (bool_decide (ev_edge_id event = gs_edge_id session))
            "runtime event edge_id does not match session edge_id");
      _ ← update_store (push_runtime_event event);
      _ ← on_db sqlite (db_push_runtime_event event) "persist EdgeLink runtime event to sqlite";
      session_ack session message
  | Payload_DiscoveryReport report =>
      _ ← update_store (insert_discovery_report (gs_edge_id session) report);
      _ ← on_db sqlite (db_insert_discovery_report (gs_edge_id session) report) "persist EdgeLink discovery report to sqlite";
      session_ack session message
  | Heartbeat _ => session_ack session message
  | _ => session_nack session message "unsupported EdgeLink payload for runtime ingestion"
  end.

(** [read_optional_edgelink_message]: [None] when the stream ends before a frame.
    [UnexpectedEof] is the error [early eof] of the streams. *)
Definition read_optional_edgelink_message : M T (option EdgeLinkMessage) :=
  start ← m_context (tcp_read 4) "failed to read EdgeLink frame header";
  if bool_decide (start = []) then mret None
  else
    header ← (if (length start <? 4)%nat then
                fun t => match tcp_read_exact (4 - length start) t with
                         | (t, Ok rest) => (t, Ok (start ++ rest)%list)
                         | (t, Err "early eof") =>
                             (t, Err ("incomplete EdgeLink frame header: expected 4 bytes, got " ++ show_Z (Z.of_nat (length start))))
                         | (t, Err _) => (t, Err "failed to read remaining EdgeLink frame header")
                         | (t, Panic e) => (t, Panic e)
                         end
              else mret start);
    let payload_len := from_be_bytes header in
    _ ← lift (ensure (negb (EDGELINK_MAX_FRAME_BYTES <? payload_len))
          ("EdgeLink frame too large: " ++ show_Z payload_len ++ " bytes exceeds " ++ show_Z EDGELINK_MAX_FRAME_BYTES ++ " bytes"));
    body ← m_context (tcp_read_exact (Z.to_nat payload_len)) "failed to read EdgeLink frame body";
    message ← lift (frame_result (decode_edgelink_frame (header ++ body)%list) "failed to decode EdgeLink frame");
    mret (Some message).

(** [matches!(&response.payload, EdgeLinkPayload::Ack(ack) if ack.accepted)]. *)
Definition is_acked (response : EdgeLinkMessage) : bool :=
  match msg_payload response with Ack ack => ack_accepted ack | _ => false end.

(** The loop of [handle_edgelink_runtime_messages], for at most [fuel] messages. *)
Fixpoint handle_edgelink_runtime_messages (fuel : nat) (sqlite : bool) (session : EdgeGatewaySession) (accepted : Z)
    : M (Gateway T D) (option Z) :=
  match fuel with
  | O => mret None
  | S fuel =>
      incoming ← on_stream read_optional_edgelink_message;
      match incoming with
      | None => mret (Some accepted)
      | Some message =>
          response ← persist_runtime_message sqlite session message;
          _ ← on_stream (m_context (write_edgelink_message response) "failed to write EdgeLink runtime message ack");
          handle_edgelink_runtime_messages fuel sqlite session (if is_acked response then accepted + 1 else accepted)
      end
  end.

(** ** Deployments *)

(** The greatest of the releases of an edge with a status. *)
Definition greatest_release (store : CloudControlStore) (edge_id : string) (status : ReleaseStatus) : option ReleaseRecord :=
  max_by (fun left right => str_leb (release_desired_version left) (release_desired_version right))
    (filter (fun r => release_edge_id r = edge_id /\ release_status r = status) (all_releases store)).

Definition deployable_config_package (store : CloudControlStore) (edge_id : string) (runtime_version : option string)
    : option EdgeConfigPackage :=
  let pending_release := greatest_release store edge_id Release_Pending in
  let applied_release := greatest_release store edge_id Release_Applied in
  let release :=
    match pending_release with
    | Some release => Some release
    | None =>
        match applied_release with
        | Some release => if bool_decide (runtime_version = Some (release_desired_version release)) then None else Some release
        | None => None
        end
    end in
  match release with
  | None => None
  | Some release => config_package store (release_edge_id release) (release_desired_version release)
  end.

(** [node.reported_product_version = Some(reported_version)]. *)
Definition with_reported_version (node : EdgeNode) (version : string) : EdgeNode :=
  {| node_edge_id := node_edge_id node; node_display_name := node_display_name node; node_site := node_site node;
     node_capabilities := node_capabilities node; node_project_id := node_project_id node;
     node_product_id := node_product_id node; desired_product_version := desired_product_version node;
     reported_product_version := Some version |}.

Definition persist_config_report (stamp : Stamp) (edge_id expected_version : string) (report : EdgeLinkConfigReport)
    (store : CloudControlStore) : CloudControlStore * Result (option (Uuid * string * option EdgeNode)) :=
  if negb (bool_decide (cr_desired_version report = expected_version))
  then (store, bail ("config report desired version " ++ cr_desired_version report ++ " does not match deployed version " ++
                     expected_version))
  else
    match find_first (fun r => bool_decide (release_edge_id r = edge_id) &&
                               bool_decide (release_desired_version r = cr_desired_version report) &&
                               bool_decide (release_status r = Release_Pending)) (all_releases store) with
    | None => (store, Ok None)
    | Some pending =>
        let reported_version := default "rejected" (cr_applied_version report) in
        match mark_reported (stamp_id stamp) (stamp_time stamp) (release_id pending) reported_version store with
        | (store, None) => (store, bail "pending release disappeared before config report was applied")
        | (store, Some updated_release) =>
            if bool_decide (release_status updated_release = Release_Applied) then
              match find_edge_node store edge_id with
              | Some node =>
                  let node := with_reported_version node reported_version in
                  (register_edge node store, Ok (Some (release_id pending, reported_version, Some node)))
              | None => (store, Ok (Some (release_id pending, reported_version, None)))
              end
            else (store, Ok (Some (release_id pending, reported_version, None)))
        end
    end.

(** A call on the locked store. *)
Definition on_store {A} (f : CloudControlStore -> CloudControlStore * Result A) : M (Gateway T D) A := fun g =>
  let '(store, r) := f (gw_store g) in
  ({| gw_stream := gw_stream g; gw_store := store; gw_db := gw_db g; gw_next := gw_next g |}, r).

Definition deploy_pending_config_if_available (sqlite : bool) (session : EdgeGatewaySession) : M (Gateway T D) Z :=
  available ← gets (fun g => deployable_config_package (gw_store g) (gs_edge_id session) (gs_applied_config_version session));
  match available with
  | None => mret 0
  | Some package =>
      let desired_version := pkg_version package in
      stamp ← next_stamp;
      _ ← on_stream (m_context (write_edgelink_message
            (config_deploy_message stamp (gs_edge_id session) (gs_runtime_id session) 2 package))
            "failed to write EdgeLink config deploy");
      report_message ← on_stream (m_context read_edgelink_message "failed to read EdgeLink config report");
      _ ← lift (ensure (bool_decide (msg_edge_id report_message = gs_edge_id session))
            "config report edge_id does not match session edge_id");
      _ ← lift (ensure (bool_decide (msg_runtime_id report_message = Some (gs_runtime_id session)))
            "config report runtime_id does not match session runtime_id");
      report ← lift match msg_payload report_message with
                    | ConfigReport report => Ok report
                    | _ => bail "expected EdgeLink config report after config deploy"
                    end;
      audit ← next_stamp;
      reported ← on_store (persist_config_report audit (gs_edge_id session) desired_version report);
      _ ← match reported with
          | None => mret tt
          | Some (release_id, reported_version, reported_node) =>
              _ ← on_db sqlite (db_mark_release_reported release_id reported_version) "persist EdgeLink config report to sqlite";
              match reported_node with
              | Some node => on_db sqlite (db_upsert_edge_node node) "persist EdgeLink product version report to sqlite"
              | None => mret tt
              end
          end;
      ack ← session_ack session report_message;
      _ ← on_stream (m_context (write_edgelink_message ack) "failed to write EdgeLink config report ack");
      mret 1
  end.

(** [handle_edgelink_session_with_optional_sqlite]: a session without a registry. *)
Definition handle_edgelink_session_with_optional_sqlite (fuel : nat) (sqlite : bool) (peer_addr : string)
    : M (Gateway T D) (option EdgeGatewaySessionReport) :=
  session ← handle_edgelink_stream peer_addr true;
  _ ← persist_runtime_discovered_edge sqlite session;
  config_report_count ← deploy_pending_config_if_available sqlite session;
  accepted ← handle_edgelink_runtime_messages fuel sqlite session 0;
  mret ((fun accepted => {| gr_session := session; accepted_message_count := accepted;
                            config_report_count := config_report_count |}) <$> accepted).
End gateway.

(** ** What a session changes *)

(** The releases are stored under their ids. *)
Definition releases_keyed (store : CloudControlStore) : Prop :=
  forall key r, releases (fleet store) !! key = Some r -> release_id r = key.

(** Only records of the edge differ; credentials, packages and the catalogue are
    the same. *)
Definition only_edge (edge_id : string) (store store' : CloudControlStore) : Prop :=
  (forall other, other <> edge_id -> same_edge store store' other) /\
  edge_credentials (fleet store') = edge_credentials (fleet store) /\
  config_packages (fleet store') = config_packages (fleet store) /\
  device_models (fleet store') = device_models (fleet store) /\
  mqtt_uplinks (fleet store') = mqtt_uplinks (fleet store) /\
  catalog store' = catalog store /\ agent store' = agent store.

Lemma same_edge_refl store id : same_edge store store id.
Proof. unfold same_edge. naive_solver. Qed.

Lemma same_edge_trans a b c id : same_edge a b id -> same_edge b c id -> same_edge a c id.
Proof.
  intros (A1 & A2 & A3 & A4 & A5 & A6 & A7 & A8) (B1 & B2 & B3 & B4 & B5 & B6 & B7 & B8). unfold same_edge.
  rewrite B1, B2, B3, B4, B8. do 4 (split; [done|]). split; [|split; [|split; [|done]]].
  - intros version. by rewrite B5.
  - intros key x Hx. rewrite B6 by done. by apply A6.
  - intros key x Hx. rewrite B7 by done. by apply A7.
Qed.

#[export] Instance only_edge_preorder id : PreOrder (only_edge id).
Proof.
  split.
  - intros store. unfold only_edge. split; [intros; apply same_edge_refl | done].
  - intros a b c (Ha & ? & ? & ? & ? & ? & ?) (Hb & ? & ? & ? & ? & ? & ?). unfold only_edge.
    split; [|repeat split; congruence]. intros other Ho. eapply same_edge_trans; [by apply Ha | by apply Hb].
Qed.

Lemma filter_app_ne {A} (f : A -> string) (id : string) (l : list A) x :
  f x <> id -> filter (fun y => f y = id) (l ++ [x])%list = filter (fun y => f y = id) l.
Proof. intros Hx. rewrite list.filter_app, filter_cons, decide_False by done. by rewrite app_nil_r. Qed.

Ltac same_edge_tac :=
  unfold only_edge; split; [intros other Ho; unfold same_edge; cbn; rewrite ?lookup_insert_ne by congruence | done].

Lemma register_only_edge node store : only_edge (node_edge_id node) store (register_edge node store).
Proof. same_edge_tac. naive_solver. Qed.

Lemma metrics_only_edge snapshot store : only_edge (snapshot_edge_id snapshot) store (upsert_runtime_metrics snapshot store).
Proof. same_edge_tac. naive_solver. Qed.

Lemma event_only_edge event store : only_edge (ev_edge_id event) store (push_runtime_event event store).
Proof. same_edge_tac. rewrite filter_app_ne by congruence. naive_solver. Qed.

Lemma discovery_only_edge id report store : only_edge id store (insert_discovery_report id report store).
Proof. same_edge_tac. naive_solver. Qed.

Lemma reported_only_edge audit now id version store r :
  releases (fleet store) !! id = Some r -> only_edge (release_edge_id r) store (fst (mark_reported audit now id version store)).
Proof.
  intros Hr. unfold mark_reported. rewrite Hr. same_edge_tac. do 6 (split; [done|]). split; [|done].
  intros key r' Hr'. destruct (decide (key = id)) as [->|Hne]; [|by rewrite lookup_insert_ne].
  rewrite lookup_insert_eq, Hr. split; intros [= <-]; cbn in *; congruence.
Qed.

Lemma find_edge_node_id store id node : find_edge_node store id = Some node -> node_edge_id node = id.
Proof. unfold find_edge_node. induction (sorted_values _ _) as [|x l IH]; cbn; [done|]. case_bool_decide; [congruence | apply IH]. Qed.

Lemma persist_report_only_edge stamp id version report store :
  releases_keyed store -> only_edge id store (fst (persist_config_report stamp id version report store)) /\
                          releases_keyed (fst (persist_config_report stamp id version report store)).
Proof.
  intros Hk. unfold persist_config_report. case_bool_decide; cbn [negb]; [|by split].
  destruct (find_first _ _) as [pending|] eqn:Ef; [|by split].
  apply find_first_Some in Ef as [[key Hkey]%elem_of_sorted_values Hp]. apply andb_prop in Hp as [[He _]%andb_prop _].
  apply bool_decide_eq_true in He. pose proof (Hk _ _ Hkey) as Hid. subst key.
  set (v := default "rejected" (cr_applied_version report)).
  pose proof (reported_only_edge (stamp_id stamp) (stamp_time stamp) _ v store _ Hkey) as Hone. rewrite He in Hone.
  unfold mark_reported in *. rewrite Hkey in *. cbn [fst] in Hone. set (store1 := push_audit _ _ _ _ _) in *.
  assert (Hk1 : releases_keyed store1).
  { intros k r. cbn. intros [[<- <-]|[_ Hr]]%lookup_insert_Some; [done | by apply Hk]. }
  case_bool_decide; [|by split].
  destruct (find_edge_node store1 id) as [node|] eqn:En; [|by split]. cbn [fst]. split; [|done].
  etrans; [exact Hone|]. rewrite <- (find_edge_node_id _ _ _ En). apply (register_only_edge (with_reported_version node v)).
Qed.

(** The node a session registers is that of its edge. *)
Lemma discovered_node_id session existing :
  (forall node, existing = Some node -> node_edge_id node = gs_edge_id session) ->
  node_edge_id (discovered_node session existing) = gs_edge_id session.
Proof. intros He. destruct existing as [node|]; cbn; [by apply He | done]. Qed.

(** The calls on the database that are about an edge: its node, metrics, events and
    discovery reports, and the releases the store has for it.  [edge_calls] relates
    the databases before and after such calls, failed ones included. *)
Inductive edge_calls {D} `{CloudDb D} (store : CloudControlStore) (id : string) (d : D) : D -> Prop :=
| calls_none : edge_calls store id d d
| calls_node node d' :
    node_edge_id node = id -> edge_calls store id d d' -> edge_calls store id d (fst (db_upsert_edge_node node d'))
| calls_metrics snapshot d' :
    snapshot_edge_id snapshot = id -> edge_calls store id d d' -> edge_calls store id d (fst (db_upsert_runtime_metrics snapshot d'))
| calls_event event d' :
    ev_edge_id event = id -> edge_calls store id d d' -> edge_calls store id d (fst (db_push_runtime_event event d'))
| calls_discovery report d' :
    edge_calls store id d d' -> edge_calls store id d (fst (db_insert_discovery_report id report d'))
| calls_release rid r version d' :
    releases (fleet store) !! rid = Some r -> release_edge_id r = id -> edge_calls store id d d' ->
    edge_calls store id d (fst (db_mark_release_reported rid version d')).

(** The report on a deployment names a release and a node of the edge. *)
Lemma persist_report_names stamp id version report store store' rid v node :
  releases_keyed store -> persist_config_report stamp id version report store = (store', Ok (Some (rid, v, node))) ->
  (exists r, releases (fleet store) !! rid = Some r /\ release_edge_id r = id) /\ (forall n, node = Some n -> node_edge_id n = id).
Proof.
  intros Hk. unfold persist_config_report. case_bool_decide; cbn [negb]; [|done].
  destruct (find_first _ _) as [pending|] eqn:Ef; [|done].
  apply find_first_Some in Ef as [[key Hkey]%elem_of_sorted_values Hp]. apply andb_prop in Hp as [[He _]%andb_prop _].
  apply bool_decide_eq_true in He. pose proof (Hk _ _ Hkey) as Hid. subst key.
  destruct (mark_reported _ _ _ _ _) as [store1 [updated|]]; [|done].
  destruct (bool_decide _); [destruct (find_edge_node store1 id) as [n|] eqn:En|]; intros [= <- <- <- <-];
    (split; [by exists pending|]); intros m [= <-]; cbn. by apply find_edge_node_id in En.
Qed.

(** A report leaves the releases with their edges. *)
Definition releases_known (store0 store : CloudControlStore) : Prop :=
  forall key r, releases (fleet store) !! key = Some r ->
    exists r0, releases (fleet store0) !! key = Some r0 /\ release_edge_id r0 = release_edge_id r.

Lemma persist_report_known store0 stamp id version report store :
  releases_keyed store -> releases_known store0 store -> releases_known store0 (fst (persist_config_report stamp id version report store)).
Proof.
  intros Hk Hn. unfold persist_config_report. case_bool_decide; cbn [negb]; [|done].
  destruct (find_first _ _) as [pending|] eqn:Ef; [|done].
  apply find_first_Some in Ef as [[key Hkey]%elem_of_sorted_values _]. pose proof (Hk _ _ Hkey) as Hid. subst key.
  unfold mark_reported. rewrite Hkey. set (store1 := push_audit _ _ _ _ _).
  assert (H1 : releases_known store0 store1).
  { intros k r. cbn. intros [[<- <-]|[_ Hr]]%lookup_insert_Some; [exact (Hn _ _ Hkey) | by apply Hn]. }
  case_bool_decide; [|done]. by destruct (find_edge_node store1 id).
Qed.

Section session_steps.
Context {T D : Type} `{TcpStream T} `{TcpRead T} `{CloudDb D} `{MessageCodec}.
Context (stamps : nat -> Stamp) (hash_access_token : string -> string).
Context (id : string) (store0 : CloudControlStore) (db0 : D).

(** A session of the edge keeps the store of the others, and calls the database for
    its edge only. *)
Definition isolated (g : Gateway T D) : Prop :=
  only_edge id store0 (gw_store g) /\ releases_keyed (gw_store g) /\ releases_known store0 (gw_store g) /\
  edge_calls store0 id db0 (gw_db g).

Lemma isolated_stream {A} (m : M T A) : preserves isolated (on_stream m) (fun _ => True).
Proof. intros g Hg. unfold on_stream. by destruct (m (gw_stream g)). Qed.

Lemma isolated_db {A} sqlite (call : M D A) context :
  (forall d, edge_calls store0 id db0 d -> edge_calls store0 id db0 (fst (call d))) ->
  preserves isolated (on_db sqlite call context) (fun _ => True).
Proof.
  intros Hcall g (Ho & Hk & Hn & Hd). unfold on_db. destruct sqlite; [|done]. unfold m_context.
  specialize (Hcall _ Hd). destruct (call (gw_db g)).
  split; [exact (conj Ho (conj Hk (conj Hn Hcall))) | done].
Qed.

Lemma isolated_stamp : preserves isolated (next_stamp stamps) (fun _ => True).
Proof. by intros g Hg. Qed.

Lemma isolated_update f :
  (forall store, only_edge id store (f store)) -> (forall store, releases (fleet (f store)) = releases (fleet store)) ->
  preserves isolated (update_store f) (fun _ => True).
Proof.
  intros Hf Hr g (Ho & Hk & Hn & Hd). split; [|done]. split; cbn; [by etrans|].
  split; [|split; [|done]]; intros key r; rewrite Hr; [apply Hk | apply Hn].
Qed.

Ltac isolated_tac :=
  repeat first
    [ apply isolated_stream | apply isolated_stamp | apply preserves_ret | apply preserves_lift
    | progress intros | done
    | eapply preserves_bind ].

Lemma isolated_ack session message : preserves isolated (session_ack stamps session message) (fun _ => True).
Proof. unfold session_ack. isolated_tac. Qed.

Lemma isolated_nack session message reason : preserves isolated (session_nack stamps session message reason) (fun _ => True).
Proof. unfold session_nack. isolated_tac. Qed.

Lemma isolated_discovered sqlite session :
  gs_edge_id session = id -> preserves isolated (persist_runtime_discovered_edge sqlite session) (fun _ => True).
Proof.
  intros Hs. unfold persist_runtime_discovered_edge.
  eapply (preserves_bind _ _ _ (fun existing => node_edge_id (discovered_node session existing) = gs_edge_id session)).
  - apply preserves_gets. intros g _. apply discovered_node_id. intros node. apply find_edge_node_id.
  - intros existing Hid. eapply (preserves_bind _ _ _ (fun _ => True));
      [|intros; apply isolated_db; intros; apply calls_node; [congruence | done]].
    apply isolated_update; [|done]. intros store. rewrite <- Hs, <- Hid. apply register_only_edge.
Qed.

Lemma isolated_persist sqlite session message :
  gs_edge_id session = id -> preserves isolated (persist_runtime_message stamps sqlite session message) (fun _ => True).
Proof.
  intros Hs. unfold persist_runtime_message.
  do 2 (eapply (preserves_bind _ _ _ (fun _ => True)); [by apply preserves_lift|]; intros _ _).
  destruct (msg_payload message); try apply isolated_ack; try apply isolated_nack.
  - eapply (preserves_bind _ _ _ (fun _ => snapshot_edge_id snapshot = gs_edge_id session)).
    { apply preserves_lift. intros []. rewrite ensure_Ok. apply bool_decide_eq_true. }
    intros _ He. eapply (preserves_bind _ _ _ (fun _ => True)).
    { apply isolated_update; [|done]. intros store. rewrite <- Hs, <- He. apply metrics_only_edge. }
    intros _ _. eapply (preserves_bind _ _ _ (fun _ => True)); [|intros; apply isolated_ack].
    apply isolated_db. intros. apply calls_metrics; [congruence | done].
  - eapply (preserves_bind _ _ _ (fun _ => ev_edge_id event = gs_edge_id session)).
    { apply preserves_lift. intros []. rewrite ensure_Ok. apply bool_decide_eq_true. }
    intros _ He. eapply (preserves_bind _ _ _ (fun _ => True)).
    { apply isolated_update; [|done]. intros store. rewrite <- Hs, <- He. apply event_only_edge. }
    intros _ _. eapply (preserves_bind _ _ _ (fun _ => True)); [|intros; apply isolated_ack].
    apply isolated_db. intros. apply calls_event; [congruence | done].
  - eapply (preserves_bind _ _ _ (fun _ => True)).
    { apply isolated_update; [|done]. intros store. rewrite <- Hs. apply discovery_only_edge. }
    intros _ _. eapply (preserves_bind _ _ _ (fun _ => True)); [|intros; apply isolated_ack].
    apply isolated_db. intros. rewrite Hs. by apply calls_discovery.
Qed.

(** What the report on a deployment may write to the database. *)
Definition reported_for (reported : option (Uuid * string * option EdgeNode)) : Prop :=
  match reported with
  | None => True
  | Some (rid, _, node) =>
      (exists r, releases (fleet store0) !! rid = Some r /\ release_edge_id r = id) /\
      (forall n, node = Some n -> node_edge_id n = id)
  end.

Lemma isolated_report stamp version report :
  preserves isolated (on_store (persist_config_report stamp id version report)) reported_for.
Proof.
  intros g (Ho & Hk & Hn & Hd). unfold on_store.
  pose proof (persist_report_only_edge stamp id version report (gw_store g) Hk) as [H4 H5].
  pose proof (persist_report_known store0 stamp id version report (gw_store g) Hk Hn) as H6.
  destruct (persist_config_report stamp id version report (gw_store g)) as [store' r] eqn:E. cbn [fst] in *.
  split; [exact (conj (transitivity Ho H4) (conj H5 (conj H6 Hd)))|]. intros [[[rid v] node]|] Hr; [|done]. cbn [snd] in Hr. subst r.
  destruct (persist_report_names _ _ _ _ _ _ _ _ _ Hk E) as [(r & Hr & He) Hnode]. split; [|done].
  destruct (Hn _ _ Hr) as (r0 & Hr0 & He0). exists r0. split; [done | congruence].
Qed.

Lemma isolated_deploy sqlite session :
  gs_edge_id session = id -> preserves isolated (deploy_pending_config_if_available stamps sqlite session) (fun _ => True).
Proof.
  intros Hs. unfold deploy_pending_config_if_available.
  eapply (preserves_bind _ _ _ (fun _ => True)); [by apply preserves_gets|]. intros [package|] _; [|by apply preserves_ret].
  eapply (preserves_bind _ _ _ (fun _ => True)); [apply isolated_stamp|]. intros stamp _.
  do 2 (eapply (preserves_bind _ _ _ (fun _ => True)); [apply isolated_stream|]; intros ? _).
  do 3 (eapply (preserves_bind _ _ _ (fun _ => True)); [by apply preserves_lift|]; intros ? _).
  eapply (preserves_bind _ _ _ (fun _ => True)); [apply isolated_stamp|]. intros audit _. rewrite Hs.
  eapply (preserves_bind _ _ _ reported_for); [apply isolated_report|]. intros reported Hrep.
  eapply (preserves_bind _ _ _ (fun _ => True)).
  - destruct reported as [[[rid v] node]|]; [|by apply preserves_ret]. destruct Hrep as [(r & Hr & He) Hnode].
    eapply (preserves_bind _ _ _ (fun _ => True)); [apply isolated_db; intros; by apply (calls_release _ _ _ rid r)|].
    intros _ _. destruct node as [node|]; [|by apply preserves_ret].
    apply isolated_db. intros. apply calls_node; [by apply Hnode | done].
  - intros _ _. eapply (preserves_bind _ _ _ (fun _ => True)); [apply isolated_ack|]. intros ack _.
    eapply (preserves_bind _ _ _ (fun _ => True)); [apply isolated_stream|]. intros _ _. by apply preserves_ret.
Qed.

Lemma isolated_messages fuel sqlite session accepted :
  gs_edge_id session = id ->
  preserves isolated (handle_edgelink_runtime_messages stamps fuel sqlite session accepted) (fun _ => True).
Proof.
  intros Hs. revert accepted. induction fuel as [|fuel IH]; intros accepted; cbn [handle_edgelink_runtime_messages];
    [by apply preserves_ret|].
  eapply (preserves_bind _ _ _ (fun _ => True)); [apply isolated_stream|]. intros [message|] _; [|by apply preserves_ret].
  eapply (preserves_bind _ _ _ (fun _ => True)); [by apply isolated_persist|]. intros response _.
  eapply (preserves_bind _ _ _ (fun _ => True)); [apply isolated_stream|]. intros _ _. apply IH.
Qed.

(** The deployment and its steps before the messages. *)
Lemma isolated_begin sqlite session :
  gs_edge_id session = id ->
  preserves isolated (_ ← persist_runtime_discovered_edge sqlite session;
    deploy_pending_config_if_available stamps sqlite session) (fun _ => True).
Proof.
  intros Hs. eapply (preserves_bind _ _ _ (fun _ => True)); [by apply isolated_discovered|]. intros _ _. by apply isolated_deploy.
Qed.
End session_steps.

(** ** The greeting *)

(** The runtime said hello for its edge and, where the edge has a credential,
    presented its token. *)
Definition authenticated (hash_access_token : string -> string) (store : CloudControlStore) (message : EdgeLinkMessage)
    : Prop :=
  exists hello, msg_payload message = Hello hello /\ msg_runtime_id message = Some (hello_runtime_id hello) /\
    forall credential, active_edge_credential store (msg_edge_id message) = Some credential ->
      exists token, hello_access_token hello = Some token /\ hash_access_token token = token_hash credential.

Section greeting.
Context {T D : Type} `{TcpStream T} `{TcpRead T} `{CloudDb D} `{MessageCodec}.
Context (stamps : nat -> Stamp) (hash_access_token : string -> string).

(** The store and the database are those of the start. *)
Definition untouched (store : CloudControlStore) (d : D) (g : Gateway T D) : Prop := gw_store g = store /\ gw_db g = d.

Lemma untouched_stream {A} store d (m : M T A) : preserves (untouched store d) (on_stream m) (fun _ => True).
Proof. intros g Hg. unfold on_stream. destruct (m (gw_stream g)). by split. Qed.

Lemma greeting_authenticates peer_addr (g g' : Gateway T D) r :
  handle_edgelink_stream stamps hash_access_token peer_addr true g = (g', r) ->
  untouched (gw_store g) (gw_db g) g' /\
  forall session, r = Ok session -> exists message,
    snd (read_edgelink_message (gw_stream g)) = Ok message /\ authenticated hash_access_token (gw_store g) message /\
    gs_edge_id session = msg_edge_id message.
Proof.
  intros Hrun. unfold handle_edgelink_stream in Hrun. rewrite M_bind_eq in Hrun.
  destruct (on_stream _ g) as [g1 [message|e|e]] eqn:Eread; unfold on_stream, m_context in Eread;
    destruct (read_edgelink_message (gw_stream g)) as [t [m|e'|e']] eqn:Em; cbn in Eread; try discriminate;
    injection Eread; intros; subst; try (injection Hrun as <- <-; by repeat split).
  clear Eread. set (g1 := {| gw_stream := t |}) in Hrun. assert (H6 : untouched (gw_store g) (gw_db g) g1) by done.
  clearbody g1. revert g1 H6 Hrun.
  match goal with |- forall g1, _ -> ?m g1 = _ -> _ =>
    enough (Hp : preserves (untouched (gw_store g) (gw_db g)) m (fun session =>
      authenticated hash_access_token (gw_store g) message /\ gs_edge_id session = msg_edge_id message)) end.
  { intros g1 Hg1 Hrun. destruct (Hp g1 Hg1) as [Hs HQ]. rewrite Hrun in Hs, HQ. split; [done|].
    intros session Hr. destruct (HQ session Hr). eauto. }
  eapply (preserves_bind _ _ _ (fun hello => msg_payload message = Hello hello)).
  { apply preserves_lift. intros hello. destruct (msg_payload message); congruence. }
  intros hello Hhello. eapply (preserves_bind _ _ _ (fun runtime_id => msg_runtime_id message = Some runtime_id)).
  { apply preserves_lift. intros runtime_id. apply ok_or_Ok. }
  intros runtime_id Hid. eapply (preserves_bind _ _ _ (fun _ => runtime_id = hello_runtime_id hello)).
  { apply preserves_lift. intros []. rewrite ensure_Ok. apply bool_decide_eq_true. }
  intros _ ->. eapply (preserves_bind _ _ _ (fun expected =>
    expected = (token_hash <$> active_edge_credential (gw_store g) (msg_edge_id message)))).
  { apply preserves_gets. by intros s [-> _]. }
  intros expected Hexp. eapply (preserves_bind _ _ _ (fun _ => authenticated hash_access_token (gw_store g) message)).
  - destruct (match expected with Some _ => _ | None => _ end) eqn:Eok.
    + apply preserves_ret. exists hello. split; [done|]. split; [done|]. intros credential Hc. rewrite Hc in Hexp. subst expected.
      cbn in Eok. apply bool_decide_eq_true in Eok. destruct (hello_access_token hello) as [token|]; [|done].
      injection Eok as ?. eauto.
    + eapply (preserves_bind _ _ _ (fun _ => True)); [by intros s Hs|]. intros stamp _.
      eapply (preserves_bind _ _ _ (fun _ => True)); [apply untouched_stream|]. intros _ _. by apply preserves_lift.
  - intros _ Hauth. eapply (preserves_bind _ _ _ (fun _ => True)); [by intros s Hs|]. intros stamp _.
    eapply (preserves_bind _ _ _ (fun _ => True)); [apply untouched_stream|]. intros _ _. by apply preserves_ret.
Qed.
End greeting.

(** The start of a session, whatever it goes on with: the greeting leaves store and
    database, and what follows it is isolated. *)
Definition session_isolated {T D} `{TcpStream T} `{CloudDb D} `{MessageCodec} (hash_access_token : string -> string)
    (g g' : Gateway T D) : Prop :=
  (gw_store g' = gw_store g /\ gw_db g' = gw_db g) \/
  exists message, snd (read_edgelink_message (gw_stream g)) = Ok message /\
    authenticated hash_access_token (gw_store g) message /\
    only_edge (msg_edge_id message) (gw_store g) (gw_store g') /\
    edge_calls (gw_store g) (msg_edge_id message) (gw_db g) (gw_db g').

Lemma isolated_after_greeting {T D A} `{TcpStream T} `{TcpRead T} `{CloudDb D} `{MessageCodec}
    stamps hash_access_token peer_addr (rest : EdgeGatewaySession -> M (Gateway T D) A) (g : Gateway T D) :
  releases_keyed (gw_store g) ->
  (forall session, preserves (isolated (gs_edge_id session) (gw_store g) (gw_db g)) (rest session) (fun _ => True)) ->
  session_isolated hash_access_token g (fst ((handle_edgelink_stream stamps hash_access_token peer_addr true ≫= rest) g)).
Proof.
  intros Hk Hrest. rewrite M_bind_eq.
  destruct (handle_edgelink_stream stamps hash_access_token peer_addr true g) as [g1 r1] eqn:E.
  apply greeting_authenticates in E as [[Hs Hd] Hauth].
  destruct r1 as [session|e|e]; [|by left..].
  destruct (Hauth session eq_refl) as (message & Hm & Ha & Hid). right. exists message. split; [done|]. split; [done|].
  destruct (Hrest session g1) as [(Ho & _ & _ & Hc) _].
  { unfold isolated. rewrite Hs, Hd. split_and!; [done..| |apply calls_none]. intros key r Hr. by exists r. }
  rewrite <- Hid. by split.
Qed.

(** The session without a registry of commands. *)
Lemma plain_session_isolated {T D} `{TcpStream T} `{TcpRead T} `{CloudDb D} `{MessageCodec}
    stamps hash_access_token fuel sqlite peer_addr (g : Gateway T D) :
  releases_keyed (gw_store g) ->
  session_isolated hash_access_token g
    (fst (handle_edgelink_session_with_optional_sqlite stamps hash_access_token fuel sqlite peer_addr g)).
Proof.
  intros Hk. apply isolated_after_greeting; [done|]. intros session.
  eapply (preserves_bind _ _ _ (fun _ => True)); [by apply isolated_discovered|]. intros _ _.
  eapply (preserves_bind _ _ _ (fun _ => True)); [by apply isolated_deploy|]. intros count _.
  eapply (preserves_bind _ _ _ (fun _ => True)); [by apply isolated_messages|]. intros accepted _. by apply preserves_ret.
Qed.

(** ** Running the gateway *)

#[export] Instance pipe_read_some : TcpRead Pipe := fun n p =>
  ({| pipe_in := drop n (pipe_in p); pipe_out := pipe_out p |}, Ok (take n (pipe_in p))).

#[export] Instance no_db : CloudDb () := {|
  db_upsert_edge_node _ := mret tt;
  db_mark_release_reported _ _ := mret None;
  db_upsert_runtime_metrics _ := mret tt;
  db_push_runtime_event _ := mret tt;
  db_insert_discovery_report _ _ := mret tt;
|}.

(** A codec of the messages of one session: a hello with a token, a heartbeat and
    the reports on a configuration; everything else is written as one byte. *)
Definition session_stamp : Stamp := {| stamp_id := "m"; stamp_time := 0 |}.

Definition session_hello : EdgeLinkMessage :=
  hello_with_access_token session_stamp "edge-a" "runtime-a" "1.0" (Some "cfg-001") ["modbus"] (Some "secret").

Definition session_report (applied : option string) : EdgeLinkMessage :=
  config_report_message session_stamp "edge-a" "runtime-a" 3 "cfg-002" applied true None.

Definition session_codec : MessageCodec := {|
  message_to_vec _ := inl [0];
  message_from_slice payload :=
    match payload with
    | [1] => inl session_hello
    | [2] => inl (beat 5)
    | [3] => inl (session_report (Some "cfg-002"))
    | [4] => inl (session_report None)
    | _ => inr "unexpected"
    end;
|}.

Definition sent (l : list Z) : bytes := concat ((fun b => [0; 0; 0; 1; b]) <$> l).

Definition gateway_at (incoming : list Z) (store : CloudControlStore) : Gateway Pipe () :=
  {| gw_stream := {| pipe_in := sent incoming; pipe_out := [] |}; gw_store := store; gw_db := tt; gw_next := 0 |}.

Definition guarded_store (token : string) : CloudControlStore :=
  upsert_edge_credential (new_credential "c1" 0 "edge-a" token) empty_store.

Lemma guarded_keyed token : releases_keyed (guarded_store token).
Proof. intros key r. cbn. by rewrite lookup_empty. Qed.

(** With another token it is refused and nothing is stored. *)
Example wrong_token_is_refused :
  let '(g, r) := @handle_edgelink_session_with_optional_sqlite Pipe () _ _ _ session_codec (fun _ => session_stamp)
    (fun token => token) 3 false "peer" (gateway_at [1; 2] (guarded_store "other")) in
  r = Err "invalid or missing edge access token" /\ edge_nodes (fleet (gw_store g)) !! "edge-a" = None.
Proof. by vm_compute. Qed.

(** ** Versions *)

(** [{next:03}]. *)
Definition pad3 (text : string) : string :=
  match String.length text with
  | 1%nat => "00" ++ text
  | 2%nat => "0" ++ text
  | _ => text
  end.

(** [next_version] of [api.rs], the version of an edited package. *)
Definition next_version (version : string) : string :=
  match rsplit_once 45 (str_bytes version) with
  | None => version ++ "-001"
  | Some (prefix, suffix) =>
      let next := default 0 (parse_dec (2 ^ 64 - 1) suffix) + 1 in
      str_of_bytes prefix ++ "-" ++ pad3 (show_Z next)
  end.

Example next_versions : next_version <$> ["cfg"; "cfg-001"; "cfg-a-009"; "cfg-999"] = ["cfg-001"; "cfg-002"; "cfg-a-010"; "cfg-1000"].
Proof. by vm_compute. Qed.

(** The versions are compared as texts.  The successor of [cfg-999] comes before it:
    an edge that reports [cfg-1000], with both releases applied, is sent the package
    of [cfg-999] again. *)
Definition applied_release (id version : string) : ReleaseRecord :=
  {| release_id := id; release_edge_id := "edge-a"; release_desired_version := version;
     release_reported_version := Some version; release_status := Release_Applied |}.

Example applied_release_rolled_back :
  let store := insert_release (applied_release "r2" "cfg-1000") (upsert_config_package (new_package "edge-a" "cfg-1000")
                 (insert_release (applied_release "r1" "cfg-999") (upsert_config_package (new_package "edge-a" "cfg-999")
                    empty_store))) in
  next_version "cfg-999" = "cfg-1000" /\
  pkg_version <$> deployable_config_package store "edge-a" (Some "cfg-1000") = Some "cfg-999" /\
  pkg_version <$> latest_config_package_for_edge store "edge-a" = Some "cfg-999".
Proof. by vm_compute. Qed.
