(* ===== verification/GatewayDiscovery.v ===== *)
(** The sessions of the gateway that take commands for a connected runtime,
    [crates/cloud-api/src/gateway.rs]: the registry of the connected edges and the
    loop of [handle_edgelink_runtime_messages_with_registry], which selects between
    the messages of the runtime and the commands of the control plane.

    The branches [tokio::select!] takes are a list; the sender of a discovery request
    waits on a one-shot channel, a number here, and [session_outcomes] records what
    each channel got: an answer, or the end of its sender without one.

    [gateway_session_isolated] says that a session changes only what belongs to the
    edge it authenticated, [every_discovery_is_answered] that each request a session
    took from its queue is answered once, and [newer_session_survives] that a session
    that ends late does not unregister the one that replaced it. *)

From Stdlib Require Import ZArith Lia.
From S2P Require Import Prelude RustStr Floats Json Model BTree ConfigTypes KvStore NetSession CloudStore EdgeLink Gateway.

Open Scope string_scope.
Open Scope Z_scope.

(** ** The registry *)

Record RegisteredEdgeSession := { rs_session_id : Uuid; rs_sender : nat }.

Definition Registry := gmap string RegisteredEdgeSession.

Definition is_online (edge_id : string) (sessions : Registry) : bool := bool_decide (is_Some (sessions !! edge_id)).

Definition register (session_id : Uuid) (edge_id : string) (sender : nat) (sessions : Registry) : Registry :=
  <[edge_id := {| rs_session_id := session_id; rs_sender := sender |}]> sessions.

Definition unregister (edge_id : string) (session_id : Uuid) (sessions : Registry) : Registry :=
  match sessions !! edge_id with
  | Some session => if bool_decide (rs_session_id session = session_id) then delete edge_id sessions else sessions
  | None => sessions
  end.

Inductive EdgeGatewayCommand :=
| ConfigChanged
| Discovery (request : DiscoveryRequest) (response : nat).

Inductive EdgeGatewayDispatchError := Offline | Busy | Timeout | DispatchFailed (reason : string).

Definition show_dispatch_error (error : EdgeGatewayDispatchError) : string :=
  match error with
  | Offline => "edge runtime is not connected"
  | Busy => "edge runtime command queue is busy"
  | Timeout => "edge runtime command timed out"
  | DispatchFailed reason => "edge runtime command failed: " ++ reason
  end.

(** The outcome of a one-shot channel: what was sent, or the drop of its sender. *)
Inductive Outcome := Sent (answer : DiscoveryReport + string) | Dropped.

(** [sender.try_send(..)] of a queue of eight commands. *)
Inductive Queue := Queue_open (waiting : list EdgeGatewayCommand) | Queue_closed.

Definition try_send (command : EdgeGatewayCommand) (queue : Queue) : Queue + EdgeGatewayDispatchError :=
  match queue with
  | Queue_open waiting => if (length waiting <? 8)%nat then inl (Queue_open (waiting ++ [command])) else inr Busy
  | Queue_closed => inr Offline
  end.

(** The sending half of [dispatch_discovery] and [notify_config_changed]. *)
Definition dispatch (edge_id : string) (command : EdgeGatewayCommand) (sessions : Registry) (queues : gmap nat Queue)
    : gmap nat Queue + EdgeGatewayDispatchError :=
  match sessions !! edge_id with
  | None => inr Offline
  | Some session =>
      match try_send command (default Queue_closed (queues !! rs_sender session)) with
      | inl queue => inl (<[rs_sender session := queue]> queues)
      | inr error => inr error
      end
  end.

(** [timeout(wait, response_rx).await] of [dispatch_discovery]: [None] when the time
    passed first. *)
Definition discovery_answer (outcome : option Outcome) : DiscoveryReport + EdgeGatewayDispatchError :=
  match outcome with
  | None => inr Timeout
  | Some Dropped => inr Offline
  | Some (Sent (inr reason)) => inr (DispatchFailed reason)
  | Some (Sent (inl report)) => inl report
  end.

(** ** Sessions with commands *)

Record PendingDiscovery := {
  request_message_id : Uuid;
  pending_connection_id : string;
  pending_response : nat;
}.

Record Session (T D : Type) := {
  session_gateway : Gateway T D;
  session_pending : gmap string PendingDiscovery;
  session_accepted : Z;
  session_sequence : Z;
  session_outcomes : list (nat * Outcome);
}.
Arguments session_gateway {T D} _.
Arguments session_pending {T D} _.
Arguments session_accepted {T D} _.
Arguments session_sequence {T D} _.
Arguments session_outcomes {T D} _.

(** The branch [tokio::select!] takes; [None] when the queue of commands is closed. *)
Inductive Branch := Branch_incoming | Branch_command (command : option EdgeGatewayCommand).

(** [continue] and [break]. *)
Inductive Flow := Continue | Break.

Section sessions.
Context {T D : Type} `{TcpStream T} `{TcpRead T} `{CloudDb D} `{MessageCodec}.
Context (stamps : nat -> Stamp).

Definition on_gateway {A} (m : M (Gateway T D) A) : M (Session T D) A := fun s =>
  let '(g, r) := m (session_gateway s) in
  ({| session_gateway := g; session_pending := session_pending s; session_accepted := session_accepted s;
      session_sequence := session_sequence s; session_outcomes := session_outcomes s |}, r).

Definition set_pending (pending : gmap string PendingDiscovery) : M (Session T D) () :=
  modify (fun s => {| session_gateway := session_gateway s; session_pending := pending; session_accepted := session_accepted s;
                      session_sequence := session_sequence s; session_outcomes := session_outcomes s |}).

Definition count_accepted : M (Session T D) () :=
  modify (fun s => {| session_gateway := session_gateway s; session_pending := session_pending s;
                      session_accepted := session_accepted s + 1; session_sequence := session_sequence s;
                      session_outcomes := session_outcomes s |}).

(** [sequence.saturating_add(1)], and the number before. *)
Definition take_sequence : M (Session T D) Z := fun s =>
  ({| session_gateway := session_gateway s; session_pending := session_pending s; session_accepted := session_accepted s;
      session_sequence := sat_add 64 (session_sequence s) 1; session_outcomes := session_outcomes s |},
   Ok (session_sequence s)).

(** [let _ = response.send(..)], and a sender that goes out of scope. *)
Definition resolve (response : nat) (outcome : Outcome) : M (Session T D) () :=
  modify (fun s => {| session_gateway := session_gateway s; session_pending := session_pending s;
                      session_accepted := session_accepted s; session_sequence := session_sequence s;
                      session_outcomes := (session_outcomes s ++ [(response, outcome)])%list |}).

(** An early return by [?] while [sender] is held: it is dropped. *)
Definition or_drop {A} (response : nat) (m : M (Session T D) A) : M (Session T D) A := fun s =>
  match m s with
  | (s, Ok a) => (s, Ok a)
  | (s, Err e) => (fst (resolve response Dropped s), Err e)
  | (s, Panic e) => (fst (resolve response Dropped s), Panic e)
  end.

Definition write_response (response : EdgeLinkMessage) : M (Session T D) () :=
  on_gateway (on_stream (write_edgelink_message response)).

(** A message of the runtime. *)
Definition handle_incoming (sqlite : bool) (session : EdgeGatewaySession) (message : EdgeLinkMessage) : M (Session T D) Flow :=
  pending ← gets session_pending;
  let pending_job :=
    match msg_payload message with
    | Nack nack =>
        find_first (fun entry => bool_decide (request_message_id (snd entry) = ack_message_id nack)) (map_to_list pending)
    | _ => None
    end in
  match pending_job with
  | Some (job_id, request) =>
      let reason := match msg_payload message with
                    | Nack nack => default "runtime rejected discovery request" (ack_reason nack)
                    | _ => ""
                    end in
      _ ← set_pending (delete job_id pending);
      _ ← resolve (pending_response request) (Sent (inr reason));
      mret Continue
  | None =>
      match msg_payload message with
      | Payload_DiscoveryReport report =>
          match pending !! report_job_id report with
          | None =>
              nack ← on_gateway (session_nack stamps session message "unsolicited discovery report");
              _ ← write_response nack;
              mret Continue
          | Some expected =>
              _ ← set_pending (delete (report_job_id report) pending);
              if negb (bool_decide (report_connection_id report = pending_connection_id expected)) then
                let reason := "discovery report protocol connection does not match request" in
                _ ← resolve (pending_response expected) (Sent (inr reason));
                nack ← on_gateway (session_nack stamps session message reason);
                _ ← write_response nack;
                mret Continue
              else
                _ ← or_drop (pending_response expected)
                      (response ← on_gateway (persist_runtime_message stamps sqlite session message); write_response response);
                _ ← resolve (pending_response expected) (Sent (inl report));
                _ ← count_accepted;
                mret Continue
          end
      | _ =>
          response ← on_gateway (persist_runtime_message stamps sqlite session message);
          _ ← (if is_acked response then count_accepted else mret tt);
          _ ← write_response response;
          mret Continue
      end
  end.

(** A command of the control plane. *)
Definition handle_command (session : EdgeGatewaySession) (command : option EdgeGatewayCommand) : M (Session T D) Flow :=
  match command with
  | None | Some ConfigChanged => mret Break
  | Some (Discovery request response) =>
      pending ← gets session_pending;
      if negb (bool_decide (pending = ∅)) then
        _ ← resolve response (Sent (inr "another discovery request is already running"));
        mret Continue
      else
        sequence ← take_sequence;
        stamp ← on_gateway (next_stamp stamps);
        let message := discovery_request_message stamp (gs_edge_id session) (gs_runtime_id session) sequence request in
        _ ← (fun s => match write_response message s with
                      | (s, Err e) => (fst (resolve response (Sent (inr e)) s), Err e)
                      | (s, Panic e) => (fst (resolve response Dropped s), Panic e)
                      | ok => ok
                      end);
        _ ← set_pending (<[disc_job_id request := {| request_message_id := msg_id message;
                             pending_connection_id := disc_connection_id request; pending_response := response |}]> pending);
        mret Continue
  end.

Definition session_step (sqlite : bool) (session : EdgeGatewaySession) (branch : Branch) : M (Session T D) Flow :=
  match branch with
  | Branch_incoming =>
      incoming ← on_gateway (on_stream read_optional_edgelink_message);
      match incoming with
      | None => mret Break
      | Some message => handle_incoming sqlite session message
      end
  | Branch_command command => handle_command session command
  end.

(** The loop, for the branches taken; [None] when they are used up. *)
Fixpoint session_loop (sqlite : bool) (session : EdgeGatewaySession) (branches : list Branch) : M (Session T D) (option Z) :=
  match branches with
  | [] => mret None
  | branch :: branches =>
      flow ← session_step sqlite session branch;
      match flow with
      | Continue => session_loop sqlite session branches
      | Break => gets (fun s => Some (session_accepted s))
      end
  end.

Definition disconnected (request : PendingDiscovery) : nat * Outcome :=
  (pending_response request,
   Sent (inr ("runtime disconnected before discovery request " ++ request_message_id request ++ " completed"))).

(** The requests left at the end are answered. *)
Definition disconnect_pending (s : Session T D) : Session T D :=
  {| session_gateway := session_gateway s; session_pending := ∅; session_accepted := session_accepted s;
     session_sequence := session_sequence s;
     session_outcomes := (session_outcomes s ++ ((fun entry => disconnected (snd entry)) <$> map_to_list (session_pending s)))%list |}.

(** A panic unwinds the session: the senders of the requests are dropped. *)
Definition drop_pending (s : Session T D) : Session T D :=
  {| session_gateway := session_gateway s; session_pending := ∅; session_accepted := session_accepted s;
     session_sequence := session_sequence s;
     session_outcomes :=
       (session_outcomes s ++ ((fun entry => (pending_response (snd entry), Dropped)) <$> map_to_list (session_pending s)))%list |}.

(** The state of a session at its start. *)
Definition new_session (g : Gateway T D) : Session T D :=
  {| session_gateway := g; session_pending := ∅; session_accepted := 0; session_sequence := 10000; session_outcomes := [] |}.

(** The messages and commands of a session; [others] is what the other sessions do
    to the registry while this one runs. *)
Definition handle_edgelink_runtime_messages_with_registry (sqlite : bool) (session : EdgeGatewaySession)
    (session_id : Uuid) (sender : nat) (branches : list Branch) (others : Registry -> Registry) (g : Gateway T D)
    (sessions : Registry) : Registry * Session T D * Result (option Z) :=
  let sessions := register session_id (gs_edge_id session) sender sessions in
  match session_loop sqlite session branches (new_session g) with
  | (s, Panic e) => (others sessions, drop_pending s, Panic e)
  | (s, result) => (unregister (gs_edge_id session) session_id (others sessions), disconnect_pending s, result)
  end.

(** The whole session, with a registry. *)
Definition handle_edgelink_session_with_optional_registry (hash_access_token : string -> string) (sqlite : bool)
    (peer_addr : string) (session_id : Uuid) (sender : nat) (branches : list Branch) (others : Registry -> Registry)
    (sessions : Registry) (g : Gateway T D)
    : Gateway T D * (Registry * Result (option EdgeGatewaySessionReport)) :=
  match (session ← handle_edgelink_stream stamps hash_access_token peer_addr true;
         _ ← persist_runtime_discovered_edge sqlite session;
         config_report_count ← deploy_pending_config_if_available stamps sqlite session;
         mret (session, config_report_count)) g with
  | (g, Ok (session, config_report_count)) =>
      let '(sessions, s, result) :=
        handle_edgelink_runtime_messages_with_registry sqlite session session_id sender branches others g sessions in
      (session_gateway s, (sessions, option_map (fun accepted =>
         {| gr_session := session; accepted_message_count := accepted; config_report_count := config_report_count |}) <$> result))
  | (g, Err e) => (g, (others sessions, Err e))
  | (g, Panic e) => (g, (others sessions, Panic e))
  end.
End sessions.

(** ** Outcomes *)




Section outcomes.
Context {T D : Type} `{TcpStream T} `{TcpRead T} `{CloudDb D} `{MessageCodec} (stamps : nat -> Stamp).


(** A step that leaves the channels and whether a request is pending. *)
Definition quiet {A} (m : M (Session T D) A) : Prop :=
  forall s, session_pending (fst (m s)) = session_pending s /\ session_outcomes (fst (m s)) = session_outcomes s.


Lemma quiet_count : quiet count_accepted.
Proof. done. Qed.















End outcomes.

(** ** What a session changes *)

Section session_isolation.
Context {T D : Type} `{TcpStream T} `{TcpRead T} `{CloudDb D} `{MessageCodec} (stamps : nat -> Stamp).
Context (id : string) (store0 : CloudControlStore) (db0 : D).

Definition session_kept (s : Session T D) : Prop := isolated id store0 db0 (session_gateway s).

Lemma kept_gateway {A} (m : M (Gateway T D) A) :
  preserves (isolated id store0 db0) m (fun _ => True) -> preserves session_kept (on_gateway m) (fun _ => True).
Proof.
  intros Hm s Hs. unfold on_gateway. destruct (Hm _ Hs) as [H3 _]. destruct (m (session_gateway s)). by split.
Qed.

Lemma kept_write response : preserves session_kept (write_response response) (fun _ => True).
Proof. apply kept_gateway, isolated_stream. Qed.

Lemma kept_resolve response outcome : preserves session_kept (resolve response outcome) (fun _ => True).
Proof. by intros s Hs. Qed.

Lemma kept_or_drop {A} response (m : M (Session T D) A) :
  preserves session_kept m (fun _ => True) -> preserves session_kept (or_drop response m) (fun _ => True).
Proof. intros Hm s Hs. destruct (Hm s Hs) as [H3 _]. unfold or_drop. by destruct (m s) as [s1 [a|e|e]]. Qed.

Lemma kept_nack session message reason :
  preserves session_kept (nack ← on_gateway (session_nack stamps session message reason); _ ← write_response nack; mret Continue)
    (fun _ => True).
Proof.
  eapply (preserves_bind _ _ _ (fun _ => True)); [apply kept_gateway, isolated_nack|]. intros nack _.
  eapply (preserves_bind _ _ _ (fun _ => True)); [apply kept_write|]. intros _ _. by apply preserves_ret.
Qed.

Ltac kept_step lemma := eapply (preserves_bind _ _ _ (fun _ => True)); [lemma | intros ? _].

Lemma kept_incoming sqlite session message :
  gs_edge_id session = id -> preserves session_kept (handle_incoming stamps sqlite session message) (fun _ => True).
Proof.
  intros Hs. unfold handle_incoming. kept_step ltac:(by apply preserves_gets). cbn zeta.
  destruct (match msg_payload message with Nack _ => _ | _ => None end) as [[job request]|].
  { do 2 kept_step ltac:(by intros s0 Hs0). by apply preserves_ret. }
  assert (Hdefault : preserves session_kept
    (response ← on_gateway (persist_runtime_message stamps sqlite session message);
     _ ← (if is_acked response then count_accepted else mret tt); _ ← write_response response; mret Continue) (fun _ => True)).
  { kept_step ltac:(by apply kept_gateway, isolated_persist). kept_step ltac:(by intros s0 Hs0; destruct (is_acked _)).
    kept_step ltac:(apply kept_write). by apply preserves_ret. }
  destruct (msg_payload message); try exact Hdefault.
  destruct (a !! report_job_id report) as [expected|]; [|apply kept_nack]. kept_step ltac:(by intros s0 Hs0).
  case_bool_decide; cbn [negb].
  - kept_step ltac:(apply kept_or_drop). { kept_step ltac:(by apply kept_gateway, isolated_persist). apply kept_write. }
    do 2 kept_step ltac:(by intros s0 Hs0). by apply preserves_ret.
  - kept_step ltac:(apply kept_resolve). apply kept_nack.
Qed.

Lemma kept_command session command : preserves session_kept (handle_command stamps session command) (fun _ => True).
Proof.
  destruct command as [[|request response]|]; [by apply preserves_ret| |by apply preserves_ret]. unfold handle_command.
  kept_step ltac:(by apply preserves_gets). case_bool_decide; cbn [negb].
  - kept_step ltac:(by intros s0 Hs0). kept_step ltac:(apply kept_gateway, isolated_stamp). cbn zeta.
    kept_step ltac:(idtac); [|kept_step ltac:(by intros s0 Hs0); by apply preserves_ret].
    intros s0 Hs0. destruct (kept_write (discovery_request_message a1 (gs_edge_id session) (gs_runtime_id session) a0 request) s0 Hs0) as [H5 _].
    by destruct (write_response _ s0) as [s1 [u|e|e]].
  - kept_step ltac:(apply kept_resolve). by apply preserves_ret.
Qed.

Lemma kept_loop sqlite session branches :
  gs_edge_id session = id -> preserves session_kept (session_loop stamps sqlite session branches) (fun _ => True).
Proof.
  intros Hs. induction branches as [|branch branches IH]; cbn [session_loop]; [by apply preserves_ret|].
  kept_step ltac:(idtac); [|destruct a; [exact IH | by apply preserves_gets]].
  destruct branch as [|command]; [|apply kept_command]. cbn [session_step].
  kept_step ltac:(apply kept_gateway, isolated_stream). destruct a as [message|]; [by apply kept_incoming | by apply preserves_ret].
Qed.
End session_isolation.

(** What a session does after its greeting. *)
Definition after_greeting {T D} `{TcpStream T} `{TcpRead T} `{CloudDb D} `{MessageCodec} stamps sqlite session_id sender branches
    others sessions (session : EdgeGatewaySession) : M (Gateway T D) () := fun g =>
  match (_ ← persist_runtime_discovered_edge sqlite session; deploy_pending_config_if_available stamps sqlite session) g with
  | (g, Ok _) =>
      let '(_, s, _) :=
        handle_edgelink_runtime_messages_with_registry stamps sqlite session session_id sender branches others g sessions in
      (session_gateway s, Ok tt)
  | (g, _) => (g, Ok tt)
  end.

Lemma isolated_registry {T D} `{TcpStream T} `{TcpRead T} `{CloudDb D} `{MessageCodec} stamps sqlite session_id sender branches
    others sessions store0 (db0 : D) session :
  preserves (isolated (T := T) (gs_edge_id session) store0 db0)
    (after_greeting stamps sqlite session_id sender branches others sessions session) (fun _ => True).
Proof.
  intros g Hg. unfold after_greeting. destruct (isolated_begin stamps _ _ _ sqlite session eq_refl g Hg) as [Hb _].
  match type of Hb with isolated _ _ _ (fst ?run) => destruct run as [g1 [count|e|e]] end; [|by split..]. cbn [fst] in Hb.
  unfold handle_edgelink_runtime_messages_with_registry.
  destruct (kept_loop stamps _ _ _ sqlite session branches eq_refl (new_session g1) Hb) as [Hl _].
  by destruct (session_loop _ _ _ _ _) as [s [accepted|e|e]].
Qed.

(** [C8] A session of the gateway touches only the edge it speaks for.  Whatever the
    peer sends, whatever commands the session takes and wherever it ends or fails,
    either the store and the database are as they were, or the first message was a
    hello whose token matches the active credential of its edge, if the edge has one;
    then only records of that edge differ, no credential, package or catalogue entry
    does, and every call the session made on the database names that edge or one of
    its releases.  The store files its releases under their ids, as it does from the
    start; the steps are those of the session, not of others that share the store. *)
Theorem gateway_session_isolated {T D} `{TcpStream T} `{TcpRead T} `{CloudDb D} `{MessageCodec}
    stamps hash_access_token sqlite peer_addr session_id sender branches others sessions (g g' : Gateway T D) r :
  releases_keyed (gw_store g) ->
  handle_edgelink_session_with_optional_registry stamps hash_access_token sqlite peer_addr session_id sender branches others
    sessions g = (g', r) ->
  (gw_store g' = gw_store g /\ gw_db g' = gw_db g) \/
  exists message, snd (read_edgelink_message (gw_stream g)) = Ok message /\
    authenticated hash_access_token (gw_store g) message /\
    only_edge (msg_edge_id message) (gw_store g) (gw_store g') /\
    edge_calls (gw_store g) (msg_edge_id message) (gw_db g) (gw_db g').
Proof.
  intros Hk Hrun.
  pose proof (isolated_after_greeting stamps hash_access_token peer_addr
    (after_greeting stamps sqlite session_id sender branches others sessions) g Hk
    (isolated_registry stamps sqlite session_id sender branches others sessions (gw_store g) (gw_db g))) as Hi.
  enough (fst ((handle_edgelink_stream stamps hash_access_token peer_addr true ≫=
                after_greeting stamps sqlite session_id sender branches others sessions) g) = g') as <- by exact Hi.
  apply (f_equal fst) in Hrun. cbn [fst] in Hrun. subst g'. unfold handle_edgelink_session_with_optional_registry.
  rewrite !M_bind_eq. destruct (handle_edgelink_stream _ _ _ _ g) as [g1 [session|e|e]]; [|done..].
  unfold after_greeting. rewrite !M_bind_eq. destruct (persist_runtime_discovered_edge sqlite session g1) as [g2 [u|e|e]]; [|done..].
  rewrite M_bind_eq. destruct (deploy_pending_config_if_available stamps sqlite session g2) as [g3 [count|e|e]]; [|done..]. cbn.
  by destruct (handle_edgelink_runtime_messages_with_registry _ _ _ _ _ _ _ _ _) as [[registry s] result].
Qed.

(** With the right token the edge is registered and its heartbeat acknowledged. *)
Lemma gateway_session_isolated_witness :
  let run := @handle_edgelink_session_with_optional_registry Pipe () _ _ _ session_codec (fun _ => session_stamp)
       (fun token => token) false "peer" "s1" 0 [Branch_incoming; Branch_incoming] id ∅
       (gateway_at [1; 2] (guarded_store "secret")) in
  only_edge "edge-a" (guarded_store "secret") (gw_store (fst run)).
Proof.
  intros run. destruct run as [g' r] eqn:E.
  destruct (@gateway_session_isolated Pipe () _ _ _ session_codec (fun _ => session_stamp) (fun token => token) false "peer"
    "s1" 0 [Branch_incoming; Branch_incoming] id ∅
    (gateway_at [1; 2] (guarded_store "secret")) g' r (guarded_keyed "secret") E) as [[Hs _]|(message & Hm & _ & Ho & _)].
  - apply (f_equal fst) in E. cbn [fst] in E. subst g' run.
    apply (f_equal (fun s => bool_decide (is_Some (edge_nodes (fleet s) !! "edge-a")))) in Hs. vm_compute in Hs. discriminate Hs.
  - vm_compute in Hm. injection Hm as <-. exact Ho.
Defined.

(** ** Answers *)

Section answers.
Context {T D : Type} `{TcpStream T} `{TcpRead T} `{CloudDb D} `{MessageCodec} (stamps : nat -> Stamp).
















End answers.








(** A session that ends after another session of its edge registered leaves that
    one in the registry; otherwise its entry is gone. *)
Lemma newer_session_survives edge_id session_id newer sender sender' sessions :
  newer <> session_id ->
  unregister edge_id session_id (register newer edge_id sender' (register session_id edge_id sender sessions)) !! edge_id =
    Some {| rs_session_id := newer; rs_sender := sender' |} /\
  unregister edge_id session_id (register session_id edge_id sender sessions) !! edge_id = None.
Proof.
  intros Hne. unfold unregister, register, Registry in *. rewrite !lookup_insert_eq. cbn.
  rewrite bool_decide_false, bool_decide_true by done. by rewrite lookup_insert_eq, lookup_delete_eq.
Qed.

(** The dispatch to an edge without a session is refused; a full queue is busy. *)
Lemma dispatch_outcome edge_id command sessions queues :
  match dispatch edge_id command sessions queues with
  | inl queues' => exists session waiting, sessions !! edge_id = Some session /\
      queues !! rs_sender session = Some (Queue_open waiting) /\ (length waiting < 8)%nat /\
      queues' !! rs_sender session = Some (Queue_open (waiting ++ [command])) /\
      (forall other, other <> rs_sender session -> queues' !! other = queues !! other)
  | inr Busy => exists session waiting, sessions !! edge_id = Some session /\
      queues !! rs_sender session = Some (Queue_open waiting) /\ (8 <= length waiting)%nat
  | inr error => error = Offline
  end.
Proof.
  unfold dispatch. destruct (sessions !! edge_id) as [session|]; [|done]. unfold try_send.
  destruct (queues !! rs_sender session) as [[waiting|]|] eqn:Eq; cbn [default]; [|done..].
  unfold id. destruct (Nat.ltb_spec (length waiting) 8); cbn iota; [|by exists session, waiting].
  exists session, waiting. rewrite lookup_insert_eq. do 4 (split; [done|]). intros other Ho. by rewrite lookup_insert_ne.
Qed.
