(* ===== verification/EdgeClient.v ===== *)
(** The runtime's end of an EdgeLink session,
    [crates/edge-runtime/src/edgelink_client.rs], and the metrics it reports,
    [metrics.rs]: the health of a runtime, the configuration a session may deploy, the
    messages it publishes and the discovery requests it serves.

    What the runtime does beside the protocol is an argument: [collect] is
    [collect_after_config_deploy], which runs one collection with the configuration,
    and [discover] is [run_protocol_discovery_request].  Whether a wait expires is an
    argument too; a read that expires may have taken bytes, [lost].

    The report of a session keeps what the configuration step returned in one field.
    [healthy_iff] says when a runtime reports that it is healthy; what a deployment
    does to an edge is proved in [Rollout], with the gateway. *)

From Stdlib Require Import ZArith Lia.
From S2P Require Import Prelude RustStr Floats Json Model BTree ConfigTypes CircuitBreaker Algorithm KvStore Outbox RuntimeState.
From S2P Require Import ConfigValidation CommandStore NetSession CloudStore EdgeLink.

Open Scope string_scope.
Open Scope Z_scope.

(** ** Metrics *)

Definition bounded_percent (value : f64) : f64 :=
  if is_finite value
  then f64_div (f64_round (f64_mul (default value (f64_clamp value f64_zero (f64_of_Z 100))) (f64_of_Z 10))) (f64_of_Z 10)
  else f64_zero.

Definition usage_percent (used total : Z) : f64 :=
  if total =? 0 then f64_zero
  else bounded_percent (f64_div (f64_mul (f64_of_Z used) (f64_of_Z 100)) (f64_of_Z total)).

Record CollectionRunStats := {
  stats_active_task_count : Z;
  attempted_tasks : Z;
  succeeded_tasks : Z;
  failed_tasks : Z;
  total_latency_ms : Z;
  latency_samples : Z;
}.

Definition new_run_stats (active_task_count : Z) : CollectionRunStats :=
  {| stats_active_task_count := active_task_count; attempted_tasks := 0; succeeded_tasks := 0; failed_tasks := 0;
     total_latency_ms := 0; latency_samples := 0 |}.

Definition record_tick (tasks_run tasks_succeeded tasks_failed latency_ms : Z) (stats : CollectionRunStats)
    : CollectionRunStats :=
  {| stats_active_task_count := stats_active_task_count stats; attempted_tasks := attempted_tasks stats + tasks_run;
     succeeded_tasks := succeeded_tasks stats + tasks_succeeded; failed_tasks := failed_tasks stats + tasks_failed;
     total_latency_ms := sat_add 64 (total_latency_ms stats) latency_ms; latency_samples := latency_samples stats + 1 |}.

Definition run_metrics (stats : CollectionRunStats) : CollectionRuntimeMetrics :=
  {| active_task_count := stats_active_task_count stats;
     success_rate := if attempted_tasks stats =? 0 then f64_one
                     else f64_div (f64_of_Z (succeeded_tasks stats)) (f64_of_Z (attempted_tasks stats));
     average_latency_ms := if latency_samples stats =? 0 then 0 else total_latency_ms stats / latency_samples stats;
     bad_point_count := failed_tasks stats |}.

Definition evaluate_runtime_health (collection : CollectionRuntimeMetrics) (protocols : list ProtocolRuntimeMetrics)
    (algorithms : list AlgorithmRuntimeMetrics) (buffered : Z) (collection_observed : bool) : EdgeHealth :=
  if collection_observed && (0 <? active_task_count collection) && f64_le (success_rate collection) f64_epsilon
  then Health_Critical
  else
    let collection_degraded :=
      collection_observed && ((0 <? bad_point_count collection) || f64_lt (success_rate collection) f64_one) in
    let protocol_degraded :=
      existsb (fun protocol => (0 <? pm_error_count protocol) || (0 <? pm_timeout_count protocol) ||
                               (0 <? pm_reconnect_count protocol)) protocols in
    let algorithm_degraded :=
      existsb (fun algorithm => negb (metrics_healthy algorithm) || (0 <? metrics_error_count algorithm)) algorithms in
    if collection_degraded || protocol_degraded || algorithm_degraded || (0 <? buffered) then Degraded else Healthy.

Record RuntimeMetricsCollector := {
  collector_runtime_id : string;
  collector_applied : EdgeConfigPackage;
  collector_collection : option CollectionRuntimeMetrics;
  collector_protocols : option (list ProtocolRuntimeMetrics);
  collector_algorithms : option (list AlgorithmRuntimeMetrics);
  collector_outbox : option MqttOutboxStats;
  collector_system : option SystemRuntimeMetrics;
}.

(** The metrics of a connection that was not used. *)
Definition unused_protocol_metrics (connection : ProtocolConnection) : ProtocolRuntimeMetrics :=
  {| pm_connection_id := conn_id connection; pm_protocol := format_protocol (conn_protocol connection);
     pm_connected := false; pm_latency_ms := 0; pm_timeout_count := 0; pm_error_count := 0; pm_reconnect_count := 0;
     pm_collection_attempt_count := 0; pm_collection_success_count := 0; pm_write_attempt_count := 0;
     pm_write_success_count := 0; pm_circuit_state := Closed; pm_consecutive_failure_count := 0; pm_circuit_open_count := 0;
     pm_circuit_rejected_count := 0; pm_last_quality_code := None; pm_good_value_count := 0; pm_uncertain_value_count := 0;
     pm_bad_value_count := 0; pm_subscription_count := 0; pm_notification_count := 0; pm_subscription_error_count := 0;
     pm_fallback_poll_count := 0 |}.

Definition no_mqtt_metrics : MqttRuntimeMetrics :=
  {| configured_sink_count := 0; connected_sink_count := 0; mqtt_connection_generation := 0; publish_success_count := 0;
     publish_failure_count := 0; published_bytes := 0; metrics_sinks := [] |}.

(** [snapshot]; [sampled] is what [HostSystemMetricsSampler] measures. *)
Definition snapshot (now : DateTime) (sampled : SystemRuntimeMetrics) (collector : RuntimeMetricsCollector)
    : EdgeRuntimeMetricsSnapshot :=
  let package := collector_applied collector in
  let collection :=
    default {| active_task_count := Z.of_nat (length (filter (fun task => task_enabled task = true) (pkg_collection_tasks package)));
               success_rate := f64_zero; average_latency_ms := 0; bad_point_count := 0 |} (collector_collection collector) in
  let protocols := default (unused_protocol_metrics <$> pkg_protocol_connections package) (collector_protocols collector) in
  let algorithms := default [] (collector_algorithms collector) in
  let buffered := default 0 (pending_messages <$> collector_outbox collector) in
  {| snapshot_edge_id := pkg_edge_id package; snapshot_runtime_id := collector_runtime_id collector;
     snapshot_config_version := pkg_version package; snapshot_timestamp := now;
     snapshot_health := evaluate_runtime_health collection protocols algorithms buffered
                          (bool_decide (is_Some (collector_collection collector)));
     snapshot_system := default sampled (collector_system collector);
     snapshot_collection := collection; snapshot_protocols := protocols;
     snapshot_local_store :=
       {| store_backend := if bool_decide (is_Some (collector_outbox collector)) then "rocksdb-mqtt-outbox" else "jsonl";
          buffered_records := buffered;
          oldest_buffer_age_seconds := default 0 (oldest_message_age_seconds <$> collector_outbox collector);
          disk_usage_percent := default f64_zero (disk_percent <$> collector_system collector) |};
     snapshot_algorithms := algorithms; snapshot_mqtt := no_mqtt_metrics;
     snapshot_cloud_sync :=
       {| cloud_connected := true; last_sync_seconds_ago := 0; pending_uploads := buffered;
          sync_desired_version := pkg_version package; sync_reported_version := pkg_version package |} |}.

(** ** The session *)

Record Client (T D : Type) := { client_stream : T; client_store : D; client_next : nat }.
Arguments client_stream {T D} _.
Arguments client_store {T D} _.
Arguments client_next {T D} _.

Record EdgeLinkCollectionObservation := {
  obs_samples_collected : Z;
  obs_mqtt_messages_published : Z;
  obs_collection_metrics : CollectionRuntimeMetrics;
  obs_protocol_metrics : list ProtocolRuntimeMetrics;
  obs_algorithm_metrics : list AlgorithmRuntimeMetrics;
  obs_collection_error : option string;
}.

Record EdgeLinkOptionalConfigApply := {
  oca_applied_config_version : option string;
  oca_next_sequence : Z;
  oca_observation : option EdgeLinkCollectionObservation;
}.

Record EdgeLinkPublishReport := {
  publish_edge_id : string;
  publish_runtime_id : string;
  publish_gateway_addr : string;
  publish_acked_message_count : Z;
  publish_config_apply : EdgeLinkOptionalConfigApply;
  publish_discovery_reports : Z;
}.

Section client.
Context {T D : Type} `{TcpStream T} `{RocksDb D} `{JsonCodec EdgeConfigPackage} `{MessageCodec}.
Context (stamps : nat -> Stamp) (collect : EdgeConfigPackage -> M D EdgeLinkCollectionObservation).

Definition over {A} (m : M T A) : M (Client T D) A := fun c =>
  let '(t, r) := m (client_stream c) in
  ({| client_stream := t; client_store := client_store c; client_next := client_next c |}, r).

Definition stored {A} (m : M D A) : M (Client T D) A := fun c =>
  let '(d, r) := m (client_store c) in
  ({| client_stream := client_stream c; client_store := d; client_next := client_next c |}, r).

Definition client_stamp : M (Client T D) Stamp := fun c =>
  ({| client_stream := client_stream c; client_store := client_store c; client_next := S (client_next c) |},
   Ok (stamps (client_next c))).

(** [if let Some(store) = store { call?; }]. *)
Definition if_store (store : bool) (call : M D ()) (context : string) : M (Client T D) () :=
  if store then stored (m_context call context) else mret tt.

Definition recover_active_config (edge_id : string) : M D (option EdgeConfigPackage) :=
  package ← active_config edge_id;
  match package with
  | None => mret None
  | Some package =>
      applied ← lift (with_context (apply package) ("failed to validate active config for edge `" ++ edge_id ++ "`"));
      mret (Some applied)
  end.

(** A report on a configuration, acknowledged by the gateway. *)
Definition send_config_report (edge_id runtime_id : string) (sequence : Z) (desired_version : string)
    (applied_version : option string) (accepted : bool) (reason : option string) : M (Client T D) () :=
  stamp ← client_stamp;
  over (write_edgelink_message_and_expect_ack
          (config_report_message stamp edge_id runtime_id sequence desired_version applied_version accepted reason)).

(** [AppliedEdgeConfig::apply(package)] and its [match]: a package that is refused is
    reported, and the session ends with the error. *)
Definition apply_or_report (edge_id runtime_id : string) (sequence : Z) (package : EdgeConfigPackage)
    : M (Client T D) EdgeConfigPackage :=
  match apply package with
  | Ok applied => mret applied
  | Err error =>
      _ ← send_config_report edge_id runtime_id sequence (pkg_version package) None false (Some error);
      lift (bail "failed to apply EdgeLink config deploy")
  | Panic e => lift (Panic e)
  end.

(** The configuration the gateway deployed. *)
Definition apply_deployed (edge_id runtime_id : string) (store : bool) (message : EdgeLinkMessage)
    : M (Client T D) EdgeLinkOptionalConfigApply :=
  package ← lift match msg_payload message with
                 | ConfigDeploy package => Ok package
                 | _ => bail "expected EdgeLink config deploy from gateway"
                 end;
  let desired_version := pkg_version package in
  let report_sequence := msg_sequence message + 1 in
  _ ← (if bool_decide (pkg_edge_id package = edge_id) then mret tt
       else
         _ ← send_config_report edge_id runtime_id report_sequence desired_version None false
               (Some "config package targets a different edge");
         lift (bail "config package targets a different edge"));
  _ ← if_store store (put_desired_config package) "failed to persist EdgeLink desired config";
  applied ← apply_or_report edge_id runtime_id report_sequence package;
  collection ← stored (m_context (collect applied) "failed to run collection after EdgeLink config deploy");
  let applied_version := pkg_version applied in
  _ ← if_store store (promote_active_config edge_id applied_version) "failed to promote EdgeLink active config";
  _ ← send_config_report edge_id runtime_id report_sequence desired_version (Some applied_version) true None;
  mret {| oca_applied_config_version := Some applied_version; oca_next_sequence := report_sequence + 1;
          oca_observation := Some collection |}.

(** [apply_optional_config_deploy]; [lost] is given when the wait for a deployment
    expires. *)
Definition apply_optional_config_deploy (lost : option (T -> T)) (edge_id runtime_id : string) (store : bool)
    : M (Client T D) EdgeLinkOptionalConfigApply :=
  match lost with
  | Some lose =>
      _ ← over (modify lose);
      recovered ← (if store then stored (m_context (recover_active_config edge_id) "failed to recover active EdgeLink config")
                   else mret None);
      match recovered with
      | Some applied =>
          collection ← stored (m_context (collect applied) "failed to collect with recovered EdgeLink config");
          mret {| oca_applied_config_version := Some (pkg_version applied); oca_next_sequence := 2;
                  oca_observation := Some collection |}
      | None => mret {| oca_applied_config_version := None; oca_next_sequence := 2; oca_observation := None |}
      end
  | None =>
      message ← over (m_context read_edgelink_message "failed to read optional EdgeLink config deploy");
      apply_deployed edge_id runtime_id store message
  end.

(** ** Discovery requests *)

Definition write_discovery_nack (edge_id runtime_id : string) (request : EdgeLinkMessage) (reason : string)
    : M (Client T D) () :=
  stamp ← client_stamp;
  over (write_edgelink_message
          (nack_message stamp edge_id (Some runtime_id) (msg_id request) (msg_sequence request) reason)).

(** One message of the loop: 1 when a report was published. *)
Definition handle_discovery_request (discover : EdgeConfigPackage -> DiscoveryRequest -> Result DiscoveryReport)
    (edge_id runtime_id : string) (store : bool) (message : EdgeLinkMessage) : M (Client T D) Z :=
  match msg_payload message with
  | Payload_DiscoveryRequest request =>
      if bool_decide (msg_edge_id message = edge_id) && bool_decide (msg_runtime_id message = Some runtime_id) then
        result ← (fun c =>
          match (applied ← (if store then stored (m_context (recover_active_config edge_id)
                                                   "failed to recover active config for discovery")
                            else lift (bail "discovery requires a persistent runtime store"));
                 package ← lift (ok_or applied "runtime has no active config for discovery");
                 lift (discover package request)) c with
          | (c, Ok report) => (c, Ok (inl report))
          | (c, Err error) => (c, Ok (inr error))
          | (c, Panic e) => (c, Panic e)
          end);
        match result with
        | inl report =>
            stamp ← client_stamp;
            _ ← over (write_edgelink_message_and_expect_ack
                  (discovery_report_message stamp edge_id runtime_id (sat_add 64 (msg_sequence message) 1) report));
            mret 1
        | inr error => _ ← write_discovery_nack edge_id runtime_id message error; mret 0
        end
      else _ ← write_discovery_nack edge_id runtime_id message "discovery request targets a different runtime"; mret 0
  | _ => _ ← write_discovery_nack edge_id runtime_id message "runtime command is not a discovery request"; mret 0
  end.

(** The loop, for the messages that arrive before the deadline. *)
Fixpoint handle_edgelink_discovery_requests (discover : EdgeConfigPackage -> DiscoveryRequest -> Result DiscoveryReport)
    (edge_id runtime_id : string) (store : bool) (arrivals : nat) (published : Z) : M (Client T D) Z :=
  match arrivals with
  | O => mret published
  | S arrivals =>
      message ← over (m_context read_edgelink_message "failed to receive EdgeLink runtime command");
      n ← handle_discovery_request discover edge_id runtime_id store message;
      handle_edgelink_discovery_requests discover edge_id runtime_id store arrivals (published + n)
  end.

(** ** The status of a runtime *)

(** The snapshot after the session's collection. *)
Definition updated_snapshot (now : DateTime) (config : EdgeLinkOptionalConfigApply) (snapshot : EdgeRuntimeMetricsSnapshot)
    : EdgeRuntimeMetricsSnapshot :=
  let version field := default (field snapshot) (oca_applied_config_version config) in
  let collection := default (snapshot_collection snapshot) (obs_collection_metrics <$> oca_observation config) in
  let protocols := default (snapshot_protocols snapshot) (obs_protocol_metrics <$> oca_observation config) in
  let algorithms := default (snapshot_algorithms snapshot) (obs_algorithm_metrics <$> oca_observation config) in
  {| snapshot_edge_id := snapshot_edge_id snapshot; snapshot_runtime_id := snapshot_runtime_id snapshot;
     snapshot_config_version := version snapshot_config_version; snapshot_timestamp := now;
     snapshot_health :=
       match oca_observation config with
       | Some _ => evaluate_runtime_health collection protocols algorithms (buffered_records (snapshot_local_store snapshot)) true
       | None => snapshot_health snapshot
       end;
     snapshot_system := snapshot_system snapshot; snapshot_collection := collection; snapshot_protocols := protocols;
     snapshot_local_store := snapshot_local_store snapshot; snapshot_algorithms := algorithms;
     snapshot_mqtt := snapshot_mqtt snapshot;
     snapshot_cloud_sync :=
       {| cloud_connected := cloud_connected (snapshot_cloud_sync snapshot); last_sync_seconds_ago := 0;
          pending_uploads := pending_uploads (snapshot_cloud_sync snapshot);
          sync_desired_version := version (fun s => sync_desired_version (snapshot_cloud_sync s));
          sync_reported_version := version (fun s => sync_reported_version (snapshot_cloud_sync s)) |} |}.

(** The events, with the sequence numbers after that of the metrics. *)
Fixpoint publish_events (edge_id runtime_id : string) (sequence : Z) (events : list EdgeRuntimeEvent) : M (Client T D) Z :=
  match events with
  | [] => mret 0
  | event :: events =>
      stamp ← client_stamp;
      _ ← over (write_edgelink_message_and_expect_ack (runtime_event_message stamp edge_id runtime_id sequence event));
      n ← publish_events edge_id runtime_id (sequence + 1) events;
      mret (n + 1)
  end.

Definition publish_edgelink_runtime_status_over_stream (discover : EdgeConfigPackage -> DiscoveryRequest -> Result DiscoveryReport)
    (lost : option (T -> T)) (arrivals : nat) (now : DateTime) (gateway_addr edge_id runtime_id runtime_version : string)
    (snapshot : EdgeRuntimeMetricsSnapshot) (events : list EdgeRuntimeEvent) (store : bool) (capabilities : list string)
    (access_token : option string) : M (Client T D) EdgeLinkPublishReport :=
  stamp ← client_stamp;
  _ ← over (connect_edgelink_over_stream stamp gateway_addr edge_id runtime_id runtime_version
              (Some (snapshot_config_version snapshot)) capabilities access_token);
  config_apply ← apply_optional_config_deploy lost edge_id runtime_id store;
  let snapshot := updated_snapshot now config_apply snapshot in
  stamp ← client_stamp;
  _ ← over (write_edgelink_message_and_expect_ack
              (runtime_metrics_message stamp edge_id runtime_id (oca_next_sequence config_apply) snapshot));
  acked ← publish_events edge_id runtime_id (oca_next_sequence config_apply + 1) events;
  published ← handle_edgelink_discovery_requests discover edge_id runtime_id store arrivals 0;
  mret {| publish_edge_id := edge_id; publish_runtime_id := runtime_id; publish_gateway_addr := gateway_addr;
          publish_acked_message_count := acked + 1; publish_config_apply := config_apply;
          publish_discovery_reports := published |}.

(** The checks of [publish_edgelink_runtime_status_inner] before it connects. *)
Definition status_is_consistent (edge_id runtime_id : string) (snapshot : EdgeRuntimeMetricsSnapshot)
    (events : list EdgeRuntimeEvent) : Result () :=
  ensure (bool_decide (snapshot_edge_id snapshot = edge_id)) "runtime metrics edge_id does not match EdgeLink edge_id";;
  ensure (bool_decide (snapshot_runtime_id snapshot = runtime_id)) "runtime metrics runtime_id does not match EdgeLink runtime_id";;
  ensure (forallb (fun event => bool_decide (ev_edge_id event = edge_id)) events)
    "runtime event edge_id does not match EdgeLink edge_id".

Definition publish_edgelink_runtime_status_inner (discover : EdgeConfigPackage -> DiscoveryRequest -> Result DiscoveryReport)
    (lost : option (T -> T)) (arrivals : nat) (now : DateTime) (gateway_addr edge_id runtime_id runtime_version : string)
    (snapshot : EdgeRuntimeMetricsSnapshot) (events : list EdgeRuntimeEvent) (store : bool) (capabilities : list string)
    (access_token : option string) : M (Client T D) EdgeLinkPublishReport :=
  _ ← lift (status_is_consistent edge_id runtime_id snapshot events);
  _ ← over (m_context (tcp_connect gateway_addr) ("failed to connect EdgeLink gateway at " ++ gateway_addr));
  publish_edgelink_runtime_status_over_stream discover lost arrivals now gateway_addr edge_id runtime_id runtime_version
    snapshot events store capabilities access_token.
End client.

(** A runtime is healthy exactly when nothing it reports is degraded: no bad point
    and a full success rate where a collection ran, no error, timeout or reconnection
    of a protocol, no failing algorithm and no buffered record. *)
Lemma healthy_iff collection protocols algorithms buffered observed :
  evaluate_runtime_health collection protocols algorithms buffered observed = Healthy <->
  (observed = true -> (0 <? active_task_count collection) && f64_le (success_rate collection) f64_epsilon = false /\
                      bad_point_count collection <= 0 /\ f64_lt (success_rate collection) f64_one = false) /\
  Forall (fun protocol => pm_error_count protocol <= 0 /\ pm_timeout_count protocol <= 0 /\ pm_reconnect_count protocol <= 0)
    protocols /\
  Forall (fun algorithm => metrics_healthy algorithm = true /\ metrics_error_count algorithm <= 0) algorithms /\
  buffered <= 0.
Proof.
  unfold evaluate_runtime_health.
  assert (Hp : existsb (fun protocol => (0 <? pm_error_count protocol) || (0 <? pm_timeout_count protocol) ||
                 (0 <? pm_reconnect_count protocol)) protocols = false <->
               Forall (fun protocol => pm_error_count protocol <= 0 /\ pm_timeout_count protocol <= 0 /\
                                       pm_reconnect_count protocol <= 0) protocols).
  { induction protocols as [|p l IH]; cbn; [by split|]. rewrite Forall_cons_iff, !orb_false_iff, IH, !Z.ltb_ge. tauto. }
  assert (Ha : existsb (fun algorithm => negb (metrics_healthy algorithm) || (0 <? metrics_error_count algorithm)) algorithms = false
               <-> Forall (fun algorithm => metrics_healthy algorithm = true /\ metrics_error_count algorithm <= 0) algorithms).
  { induction algorithms as [|a l IH]; cbn; [by split|]. by rewrite Forall_cons_iff, !orb_false_iff, IH, Z.ltb_ge, negb_false_iff. }
  rewrite <- Hp, <- Ha. clear Hp Ha. destruct (existsb _ protocols), (existsb _ algorithms), observed; cbn [andb orb];
    rewrite <- ?Z.ltb_ge; destruct (0 <? active_task_count collection), (f64_le _ _), (0 <? bad_point_count collection),
    (f64_lt _ _), (0 <? buffered); cbn; naive_solver.
Qed.
