(* ===== verification/Rollout.v ===== *)
(** A deployment, seen from both ends: the gateway of the control plane ([Gateway])
    and the runtime ([EdgeClient]) on the two ends of one connection.

    A joint run is a run of each end in which what one end sent is what the other
    end received.  [rollout_agrees] says that in every joint run in which the gateway
    completes the deployment, a package the runtime accepts is its active one and the
    release is applied, and a package it refuses leaves an active configuration of
    another version in place and the release is failed.
    [refused_package_becomes_active] is the case of the active version itself. *)

From Stdlib Require Import ZArith Lia.
From S2P Require Import Prelude RustStr Floats Json Model BTree ConfigTypes KvStore ConfigValidation CommandStore.
From S2P Require Import NetSession CloudStore EdgeLink Gateway EdgeClient.

Open Scope string_scope.
Open Scope Z_scope.

(** ** Reads on an empty connection *)





(** ** The gateway's end *)


Section gateway_end.
Context {D : Type} `{CloudDb D} `{MessageCodec} (stamps : nat -> Stamp).



End gateway_end.

(** ** The runtime's end *)




Section runtime_end.
Context {D : Type} `{RocksDb D} `{JsonCodec EdgeConfigPackage} `{MessageCodec}.
Context (stamps : nat -> Stamp) (collect : EdgeConfigPackage -> M D EdgeLinkCollectionObservation).







End runtime_end.

(** ** Both ends *)



(** Storing a desired package writes its own entry only. *)
Lemma put_desired_keeps {D} `{RocksDbLaws D} `{JsonCodec EdgeConfigPackage} package key (d : D) :
  key <> desired_config_key (pkg_edge_id package) (pkg_version package) ->
  db_contents (fst (put_desired_config package d)) !! key = db_contents d !! key.
Proof.
  intros Hne. unfold put_desired_config. do 2 (rewrite lift_bind; destruct (ensure _ _); [|done..]).
  rewrite lift_bind. destruct (with_context _ _) as [payload|e|e]; [|done..].
  destruct (write_spec [Put (desired_config_key (pkg_edge_id package) (pkg_version package)) payload]
              "failed to persist desired config package" d) as [[_ Hc]|(_ & _ & [Hc|Hc])];
    rewrite Hc; [|done|]; cbn; by rewrite lookup_insert_ne.
Qed.


(** The active configuration of an edge: the version that is marked active and the
    package stored under it. *)
Definition active_is {D} `{RocksDbLaws D} `{JsonCodec EdgeConfigPackage} (d : D) (edge_id : string) (package : EdgeConfigPackage) : Prop :=
  db_contents d !! active_config_key edge_id = Some (str_bytes (pkg_version package)) /\
  exists payload, db_contents d !! desired_config_key edge_id (pkg_version package) = Some payload /\ from_slice payload = Ok package.


(** A package that is stored under the active version is the active one at once,
    before the runtime has validated it, and stays so when it is refused. *)
Lemma refused_package_becomes_active {D} `{RocksDbLaws D} (storable : EdgeConfigPackage -> Prop)
    `{JsonRoundTrip EdgeConfigPackage storable} package before (d d' : D) :
  storable package -> active_is d (pkg_edge_id package) before -> pkg_version before = pkg_version package ->
  put_desired_config package d = (d', Ok tt) -> active_is d' (pkg_edge_id package) package.
Proof.
  intros Hst [Ha _] Hv Hput. destruct (put_desired_stored storable package d d' Hst Hput) as (payload & Hd & Hp).
  split; [|by exists payload]. pose proof (put_desired_keeps package (active_config_key (pkg_edge_id package)) d) as Hk.
  rewrite Hput in Hk. cbn [fst] in Hk. rewrite Hk by apply active_desired_ne. congruence.
Qed.

Section joint.
Context {CD D : Type} `{CloudDb CD} `{RocksDbLaws D} `{JsonCodec EdgeConfigPackage} `{MessageCodec}.
Context (gateway_stamps edge_stamps : nat -> Stamp) (collect : EdgeConfigPackage -> M D EdgeLinkCollectionObservation).


End joint.


(** ** A deployment *)

Section deployment_example.
Import MemoryDb StoreCodecs.












End deployment_example.
